(* ===== verification/_CoqProject ===== *)
-Q . S2P
Prelude.v
Text.v
Json.v
Redaction.v
RedactionProperties.v
AuditLog.v
AuditProperties.v
AuditSafety.v
AuditNative.v
AuditWitness.v
Contracts.v
Store.v
AuthCodes.v
Auth.v
AuthSystem.v
AuthProperties.v
AuthOnce.v
AuthUpkeep.v
Base32Properties.v
AuthWitness.v
Demo.v
Governance.v
SyncPublish.v
RunStore.v
Workflow.v
Routing.v
RunInv.v
RunSafety.v
RunSystem.v
Histories.v
RunProperties.v
LeaseProperties.v
ExecutorProperties.v
WorkflowProperties.v
CapabilityModel.v
NetworkSafety.v
NetworkProperties.v
AgentRuntime.v
AgentProperties.v
Crew.v
CrewProperties.v
TaskConfig.v
TaskProperties.v
SyncMaterialize.v
SyncProtocol.v
SyncLog.v
SyncSystem.v
SyncProperties.v
LocalDaemon.v
DaemonProperties.v
DeviceSync.v
DeviceDemo.v
DeviceConvergence.v
DeviceSyncProperties.v
DeviceWitness.v
Organization.v
FrozenContext.v
RunRequest.v
TaskStore.v
Schedules.v
TaskSafety.v
FrozenProperties.v
RequestProperties.v
ScheduleProperties.v
ScheduleWitness.v
ObjectStore.v
Quotas.v
Secrets.v
Snapshots.v
SnapshotMerge.v
Artifacts.v
StorageSafety.v
SnapshotReading.v
StorageSystem.v
StorageCollection.v
SnapshotProperties.v
MergeSafety.v
MergeProperties.v
ArtifactProperties.v
SnapshotWitness.v
