(* ===== verification/Prelude.v ===== *)
(** * LocalAI Cowork: a verification of its control plane, agent runtime and safeguards

    LocalAI Cowork is a distributed agent system. A server keeps durable runs in
    PostgreSQL and hands them out under leases to executors: its own workers, managed
    Windows pools and personal devices. Executors run an agent loop that calls a language
    model and tools, ask the server's users for approvals and input, and write
    checkpoints. Users and devices sign in to the server and keep sessions there. The
    desktop application adds its own capability policy, a safe web fetch, the redaction of
    diagnostics and a signed audit log. Metadata (projects, threads, memories, schedules,
    ...) lives in a local daemon on each device and is synchronised through the server by a
    device agent. This library models that core in Rocq and proves what makes it correct.

    ** The parts and where they are modelled

    Sources are named relative to the repository: contracts is
    crates/cowork-contracts/src/lib.rs, runtime is crates/cowork-runtime/src, server is
    server/cowork-server/src, app is app/src-tauri/src.

    - [Prelude] (this file): results, machine integers, text as UTF-8 bytes, UUIDs and
      lemmas on integer ranges. [Text]: substrings, lines and the validity of UTF-8.
      [Json]: serde_json values, ordered objects, the compact printer.
    - [Redaction], [RedactionProperties]: app/sensitive_data.rs, what may go into logs.
    - [AuditLog]: app/audit_service.rs, the chained, signed and rotated audit log over a
      file system whose operations can fail and the Windows credential store;
      [AuditProperties] (verification), [AuditSafety] (appends and torn writes),
      [AuditNative] (key and history marker), [AuditWitness] (concrete logs).
    - [AuthCodes], [Auth]: server/auth.rs and the session retention of server/db.rs, with
      tables of their own and the transaction monad [ATx], whose transactions can also
      commit an error. [AuthSystem]: what handlers do to the session tables, and the
      transition system of requests; [AuthProperties] (sessions), [AuthOnce] (codes that
      work once), [AuthUpkeep] (retention, browser sessions), [Base32Properties]
      (recovery codes), [AuthWitness] (concrete histories).
    - [Contracts]: the run state machine and the wire types of contracts, with the names
      server/db.rs stores them under.
    - [Store]: the tables of server/cowork-server/migrations as finite maps with the
      columns the modelled statements use, the server's errors (server/error.rs), and the
      transaction monad [Tx] with its weakest preconditions [wp] and frames [frames].
    - [Governance]: server/governance.rs, the run, storage and model quotas and the usage
      counters. [SyncPublish]: the part of server/sync.rs that publishes the server's
      projects, threads, messages, tasks, schedules and profiles to their users' devices.
    - [RunStore]: server/db.rs, everything that touches runs: creation, messages, the
      event log and its retention, executors, claims, leases, completion, interruption,
      recovery. [Workflow]: server/workflow.rs, approvals, input requests, checkpoints and
      their expiry. [Routing]: request validation and initial states (server/routes.rs)
      and the wake-up of runs whose snapshot arrived (server/storage.rs).
    - [RunInv], [RunSafety], [RunSystem]: the invariant of the run tables, the proof that
      every operation keeps it, and the transition system [step] with one rule for each
      transaction that can change a run; [reachable] are the databases it can produce.
      [Demo], [Histories]: concrete tables and histories for the witnesses.
    - [RunProperties], [LeaseProperties], [ExecutorProperties], [WorkflowProperties]: the
      theorems about the server.
    - [AgentRuntime], [AgentProperties]: runtime/lib.rs, the model and tool loop, over the
      interfaces [RuntimeHost], [ModelEndpoint] and [SerdeJson]; a logic of monitors over
      its traces. [Crew], [CrewProperties]: runtime/crew.rs, the tool policy of crews and
      the preparation of crew requests. [TaskConfig], [TaskProperties]: the part of
      server/workflow.rs that turns a task's configuration into a run's input and
      capabilities.
    - [SyncMaterialize]: the part of server/sync.rs (and providers.rs) that turns a pushed
      entity into rows of the canonical tables. [SyncProtocol]: its push, pull, poll and
      list handlers. [SyncLog]: the change log as the history of the entities, and what
      every transaction adds to it; [SyncSystem]: the transition system of sync requests,
      publications and run transactions; [SyncProperties]: the theorems.
    - [LocalDaemon]: the entity store of agents/cowork-local-daemon (src/main.rs and
      src/sync_ipc.rs), its outbox, peers and conflicts; [DaemonProperties]: its invariant
      and theorems. [DeviceSync]: the sync loop of agents/cowork-device-agent/src/main.rs
      over a server database and a daemon, with calls that can get lost;
      [DeviceConvergence] (a device follows the log), [DeviceSyncProperties] (payloads,
      outbox, conflicts, and where edits get lost); [DeviceDemo], [DeviceWitness]:
      concrete devices.
    - [Organization]: the checks of server/organization.rs (roles in projects and threads,
      support grants and their auditing, pool grants) and of server/providers.rs (profiles).
      [FrozenContext]: the part of server/sync.rs that copies a user's skills, memories, MCP
      metadata and crews into a run's input. [RunRequest]: the handlers of server/routes.rs
      that create runs, with the crew and MCP checks of server/mcp_bindings.rs.
      [TaskStore]: the handlers of server/workflow.rs on tasks and schedules. [Schedules]:
      its trigger loop. [TaskSafety]: what the handlers do to task revisions;
      [FrozenProperties], [RequestProperties], [ScheduleProperties]: the theorems;
      [ScheduleWitness]: concrete tasks, schedules and requests.
    - [ObjectStore]: the envelope encryption of server/storage.rs and the monad [Handler] of
      its handlers; [Secrets]: secrets sealed with it, under the interface authentication
      uses. [Quotas]: the handlers that read and set quotas, and the theorem on the concurrent
      runs of a scope. [Snapshots]: the snapshots of server/storage.rs, from the declaration of a
      manifest to the collection of its chunks, for users and for executors.
      [SnapshotMerge]: project versions and their three-way merge. [Artifacts]: artifacts
      and attachments of runs. [StorageSafety]: the invariant of snapshots, chunks and
      objects; [SnapshotReading]: what a manifest reads back; [StorageSystem]: every handler
      keeps the invariant, and the transition system [storage_step] with its reachable
      states; [StorageCollection]: what a collection removes; [MergeSafety]: the reference
      definition of a merge; [SnapshotProperties], [MergeProperties], [ArtifactProperties]:
      the theorems; [SnapshotWitness]: concrete projects, snapshots and merges.
    - [CapabilityModel]: app/capability_model.rs. [NetworkSafety], [NetworkProperties]:
      app/network_safety.rs and agents/cowork-device-agent/src/network_safety.rs.

    ** How code becomes definitions

    A server function that opens a transaction is a value of [Tx]: it reads the tables,
    may change them, may fail with an [ApiError], and [run_tx] commits it or rolls it back.
    One definition models the whole function, with its guards and early returns in the
    order of the source; SQL statements are written out as operations on the maps,
    including the constraint violations that reach the caller. The surrounding world is
    the record [Env]: the database's and the application's clock, fresh UUIDs, which rows
    another transaction holds (FOR UPDATE SKIP LOCKED skips them), the text of times and
    floats, the size PostgreSQL gives a value, and the first day of a month. All theorems
    hold for every [Env]. Jobs that run several transactions ([expire_pending_workflows],
    [resume_snapshot_runs], [trigger_due_schedules]) are sequences of committed
    transactions, of which some may fail, with one environment for each. The trigger loop
    can also crash between the transaction that creates a run and the one that moves its
    schedule. The cron and chrono-tz crates and serde's decoding of stored targets are
    fields of [Env]; the texts libraries give errors and debug output are the class
    [LibTexts]. The polling loops of waiting workers read one database per poll, as many as the
    caller supplies.

    A handler of server/storage.rs is a value of [Handler]: a sequence of transactions and
    requests to the bucket over a [World] of tables and objects. An error ends it and keeps
    what its earlier steps did. [HandlerEnv] says what each step meets: the environment of a
    transaction, the random bytes of an encryption, and whether a request is [Answered],
    [Refused] without effect, or carried out although no answer arrives ([Unanswered]). [hwp]
    is its weakest precondition with an invariant that also holds where the handler fails.
    Digests are kept as their hexadecimal text. Merged files are cut into chunks by
    [str_chunks], whose fuel is the length of the text, one unit per chunk. AES-GCM, HMAC,
    SHA-256 and diffy are the classes [StorageCrypto] and [MergeLib]; [CryptoLaws] is what
    the theorems need of them, with an instance.

    Authentication runs on random tokens and identifiers drawn from [AuthEnv]; the theorems
    about histories assume that a request draws no token hash or identifier that was in
    the tables before ([fresh_env]), the property the code relies on 256 random bits for.
    The scanning loops of the redaction recurse on the bytes left; [loops] is the relation
    of their finite runs. The audit log's verification recurses on files and lines. Hash
    functions, MACs and serde_json's parser are classes ([AuthLib], [Hmac], [AuditCodec],
    [JsonText]); what a theorem needs of them is a named hypothesis or the class
    [AuditLaws], with an instance.

    The agent runtime is a program of a state, error and trace monad over an arbitrary
    world; its loops are structural in the steps and calls that remain, so no fuel is
    needed: [run_steps] counts down from [max_steps], which the constructor limits to 512.
    The web fetch recurses on the redirects that are left (five). Everything else is
    structural. The url crate, DNS and the HTTP client are the class [UrlOps] and the
    record [Web]; the laws the theorems rely on are the classes [UrlLaws] and [SerdeLaws], and a
    concrete instance of each shows that they can hold.

    ** What the theorems show

    - The run system: every reachable database satisfies the invariant
      [reachable_invariant]; every committed transaction is one step of the contract's
      state machine for each run it touches and bumps the revision [step_follows_contract];
      terminal states are final; an event number names one event for ever and replay of a
      live run misses nothing; creation is idempotent in its key; while a limit stays as it
      is, no run is admitted beyond it, whatever administrators set in between.
    - Leases: a claim takes the right run in thread order and stores the lease it returns;
      a lost lease cannot change anything; the reaper and a reconnect interrupt what is
      not safe to resume; retries of events are no-ops; completion stores what it reports;
      a refresh of an executor cannot widen its rights.
    - Approvals: only a user's decision approves, once and finally; an answer resumes
      exactly the waiting run; the newest checkpoint decides.
    - The agent runtime refines a protocol of effects: bounded model calls, only announced
      and advertised tools, a checkpoint after each, and nothing after an unsafe one; its
      conversations answer every tool call; its answers account for all tokens. Crew
      requests are closed, a crew's computed capabilities are the ones its tools need, and
      a crew run is only routed to executors that accept its tools. No credential in a
      task's configuration reaches a run.
    - Policies: the capability model in one equation, address classification as a CIDR
      table, and a web fetch that never leaves the public network.
    - Sessions: a refresh token works once and its reuse ends the session; a revoked
      session never comes back; the session tables stay consistent; authorization codes,
      invitations, one-time passwords and recovery codes work once; retention logs nobody
      out; browser sessions keep the refresh token in a cookie.
    - The audit log: verification accepts exactly the well-formed logs, a verified log is
      an unmodified part of the history, appends keep it verified across rotation and
      failing file operations, a torn write or a deleted history is noticed, and on a
      healthy system appends succeed.
    - Synchronisation: the change log replays to the entities, with gapless revisions per
      entity; a push is a compare-and-set; a pull is exactly the next entries; a device
      without local edits whose daemon accepts every entry shows a prefix of its user's log
      and catches up with all of it once calls get through; a local write waits for its acknowledgement and a conflict keeps both sides
      until one is chosen; payloads survive the way to the server and back, and the outbox
      can always be sent.
    - Requests: a run is only prepared for a user who may start it in that project, with
      that target, profile, released task and MCP servers; what is frozen into its input is
      made of listed fields of the user's own entities, whatever the client sent.
    - Tasks and schedules: a task's revisions are immutable and at most one is released; an
      occurrence of a schedule runs exactly once, also across crashes; a pass that succeeds
      leaves nothing due.
    - Snapshots: reference counts are exact and every ready snapshot can be read to bytes of
      the declared digests, after any handlers that ran to their end, refused ones included,
      with certain deletions; declared paths
      are relative, distinct and add up; an unused chunk is collected with its object. A merge
      is the three-way merge of its versions, path by path. An artifact is stored once per
      event and downloads to its bytes.
    - Redaction: its loops terminate, JSON is redacted path by path, marked values are
      hidden, results are valid UTF-8 and bounded.
    - Eleven theorems record behaviour that differs from the intent: an executor can be given
      more runs than its limit after an interruption and a cancellation
      [executor_can_be_overcommitted], a run that waits for a snapshot it was created
      without is never woken [unsnapshotted_run_never_runs], a marker with an empty
      value ends the redaction of the values after it [empty_value_ends_redaction], a retry
      is refused when its timestamp is finer than a microsecond
      [retry_matches_whole_microseconds], the second of two offline edits overwrites an
      edit the device has not seen [second_offline_edit_overwrites], an entity the daemon
      refuses stops every device of its user [refused_entry_stalls], the earliest due
      schedule stops all others when it has no further occurrence
      [spent_schedule_stops_all] or its run is refused [refused_run_stops_all], a collection
      can delete a chunk that is being uploaded again [collection_races_with_upload] or that
      it makes ready again [unanswered_deletion_loses_chunk], and the snapshot of a merged
      version expires after a day [merged_version_expires].

    ** Limits of the model

    Transactions are atomic and run one after another: advisory locks and row locks are
    not modelled apart from SKIP LOCKED, so the theorems speak about serialized histories.
    A call reads each clock once. JSONB columns hold the decoded value; a stored text that
    does not decode cannot occur. Foreign keys are checked where a modelled statement can
    violate them. Transient database errors, which roll back, are not generated. The
    definitions of user decisions on approvals and inputs start after their authorization
    query. The body of a fetch and of a model's error answer are kept as
    bytes, before lossy decoding.

    Synchronisation is modelled over the same serialized histories: that a BIGSERIAL cursor
    is drawn before its transaction commits, and that sequences have gaps, is not in the
    model. The daemon's local revisions stay below 2^63 there, its calls do not fail on the
    way, and a sync cycle is not cut off by its 30-second limit, although any call to the
    server may get lost.

    Handlers of snapshot storage run to their end one after another, with the tables and the
    bucket free to fail only where a request is refused or unanswered; the race of a
    collection with an upload is stated on its own, as the interleaving it is. The
    transition system contains collections whose deletions are certain (answered or refused),
    since an unanswered one loses a chunk. The owners and teams of
    projects have identifiers of 128 bits there. The order in which the code walks a HashMap
    is not specified and the model fixes one; the lists of missing digests and the old path
    shown for a file that could have been renamed from several depend on it, and no theorem
    does.

    Not modelled: passkeys, OIDC and the administration of teams, members, projects, pools
    and grants, the S3 protocol and its configuration, desktop and terminal sessions, push
    delivery, the processes that drive the transactions over HTTP and WebSockets, the local
    daemon's and the device agent's runs, tools and streams, and the desktop application
    apart from the parts above. *)

From stdpp Require Export base tactics list gmap strings pretty.
From Stdlib Require Export ZArith Lia Ascii.
From stdpp Require Export strings sorting.

(** ** Results: Rust's [Result<A, E>] *)

Inductive result (E A : Type) : Type :=
| Ok (a : A)
| Err (e : E).

Arguments Ok {E A} a.
Arguments Err {E A} e.

#[global] Instance result_ret E : MRet (result E) := fun A a => Ok a.

#[global] Instance result_bind E : MBind (result E) := fun A B f m =>
  match m with
  | Ok a => f a
  | Err e => Err e
  end.

#[global] Instance result_fmap E : FMap (result E) := fun A B f m =>
  match m with
  | Ok a => Ok (f a)
  | Err e => Err e
  end.

#[global] Instance result_eq_dec E A `{EqDecision E, EqDecision A} :
  EqDecision (result E A).
Proof. solve_decision. Defined.

(** [Option::ok_or] *)
Definition ok_or {E A} (e : E) (o : option A) : result E A :=
  match o with
  | Some a => Ok a
  | None => Err e
  end.

(** An early return [if cond { return Err(e) }]. *)
Definition guard_err {E} (cond : bool) (e : E) : result E unit :=
  if cond then Err e else Ok tt.

(** [Result::map_err] *)
Definition map_err {E F A} (f : E -> F) (r : result E A) : result F A :=
  match r with
  | Ok a => Ok a
  | Err e => Err (f e)
  end.

Definition is_ok {E A} (r : result E A) : bool :=
  match r with
  | Ok _ => true
  | Err _ => false
  end.

(** Traversal with early exit, [iter().map(f).collect::<Result<Vec<_>, _>>()]. *)
Fixpoint res_mapM {E A B} (f : A -> result E B) (l : list A) : result E (list B) :=
  match l with
  | [] => Ok []
  | x :: l' =>
      match f x with
      | Err e => Err e
      | Ok y =>
          match res_mapM f l' with
          | Err e => Err e
          | Ok ys => Ok (y :: ys)
          end
      end
  end.

Lemma res_mapM_Ok {E A B} (f : A -> result E B) (l : list A) (k : list B) :
  res_mapM f l = Ok k <-> Forall2 (fun x y => f x = Ok y) l k.
Proof.
  revert k; induction l as [|x l IH]; intros k; simpl.
  - split; [intros [= <-]; constructor | inversion 1; done].
  - split.
    + destruct (f x) eqn:Hx; [|done]. destruct (res_mapM f l); [|done].
      intros [= <-]. constructor; [done|]. by apply IH.
    + inversion 1 as [|? ? ? ? Hx Hl]; subst. rewrite Hx.
      apply IH in Hl. by rewrite Hl.
Qed.

Lemma guard_err_Ok {E} b (e : E) u : guard_err b e = Ok u <-> b = false.
Proof. unfold guard_err. destruct b, u; done. Qed.

Lemma bind_of_Ok {E A B} (m : result E A) a (f : A -> result E B) : m = Ok a -> m ≫= f = f a.
Proof. by intros ->. Qed.

Lemma result_bind_Ok {E A B} (m : result E A) (f : A -> result E B) b :
  m ≫= f = Ok b <-> exists a, m = Ok a /\ f a = Ok b.
Proof.
  destruct m as [a|e]; split; [by eauto|by intros (? & [= <-] & ?)|done|by intros (? & ? & ?)].
Qed.

Lemma ok_or_Ok {E A} (e : E) (o : option A) a : ok_or e o = Ok a <-> o = Some a.
Proof. destruct o; simpl; split; congruence. Qed.

(** Takes the steps of a computation that succeeded. *)
Ltac bind_steps H :=
  repeat match type of H with
  | _ ≫= _ = Ok _ =>
      let a := fresh "a" in let E := fresh "E" in
      apply result_bind_Ok in H as (a & E & H);
      rewrite ?guard_err_Ok, ?ok_or_Ok in E
  end.

(** ** Machine integers *)

Definition i64_min : Z := - 2 ^ 63.
Definition i64_max : Z := 2 ^ 63 - 1.
Definition i32_min : Z := - 2 ^ 31.
Definition i32_max : Z := 2 ^ 31 - 1.
Definition u16_max : Z := 2 ^ 16 - 1.
Definition u64_max : Z := 2 ^ 64 - 1.

Definition in_i64 (z : Z) : bool := bool_decide (i64_min ≤ z ≤ i64_max)%Z.
Definition in_i32 (z : Z) : bool := bool_decide (i32_min ≤ z ≤ i32_max)%Z.
Definition in_u16 (z : Z) : bool := bool_decide (0 ≤ z ≤ u16_max)%Z.
Definition in_u64 (z : Z) : bool := bool_decide (0 ≤ z ≤ u64_max)%Z.

(** [u64::saturating_add] and [i64::saturating_add]. *)
Definition sat_add_u64 (a b : Z) : Z := Z.min (a + b) u64_max.
Definition sat_add_i64 (a b : Z) : Z := Z.max i64_min (Z.min (a + b) i64_max).

(** [Ord::clamp]. *)
Definition clamp (lo hi z : Z) : Z := Z.max lo (Z.min z hi).

Lemma clamp_range lo hi z : (lo ≤ hi)%Z -> (lo ≤ clamp lo hi z ≤ hi)%Z.
Proof. unfold clamp. lia. Qed.

Lemma sat_add_u64_range a b :
  (0 ≤ a)%Z -> (0 ≤ b)%Z -> (0 ≤ sat_add_u64 a b ≤ u64_max)%Z.
Proof. unfold sat_add_u64, u64_max. lia. Qed.

(** ** Text: Rust strings as their UTF-8 bytes *)

Definition byte_of (c : ascii) : N := Ascii.N_of_ascii c.

Definition in_byte_range (lo hi : N) (c : ascii) : bool :=
  (lo <=? byte_of c)%N && (byte_of c <=? hi)%N.

Definition is_ascii_upper (c : ascii) : bool := in_byte_range 65 90 c.
Definition is_ascii_lower (c : ascii) : bool := in_byte_range 97 122 c.
Definition is_ascii_digit (c : ascii) : bool := in_byte_range 48 57 c.
Definition is_ascii_alphanumeric (c : ascii) : bool :=
  is_ascii_upper c || is_ascii_lower c || is_ascii_digit c.

Definition ascii_to_lower (c : ascii) : ascii :=
  if is_ascii_upper c then Ascii.ascii_of_N (byte_of c + 32) else c.

Fixpoint string_map (f : ascii -> ascii) (s : string) : string :=
  match s with
  | EmptyString => EmptyString
  | String c s' => String (f c) (string_map f s')
  end.

Fixpoint string_filter (p : ascii -> bool) (s : string) : string :=
  match s with
  | EmptyString => EmptyString
  | String c s' => if p c then String c (string_filter p s') else string_filter p s'
  end.

Fixpoint string_forallb (p : ascii -> bool) (s : string) : bool :=
  match s with
  | EmptyString => true
  | String c s' => p c && string_forallb p s'
  end.

(** [str::to_ascii_lowercase] *)
Definition to_ascii_lowercase (s : string) : string := string_map ascii_to_lower s.

(** [str::replace(a, b)] for one-byte patterns *)
Definition replace_char (a b : ascii) (s : string) : string :=
  string_map (fun c => if Ascii.eqb c a then b else c) s.

(** [str::len], in bytes *)
Definition str_len (s : string) : Z := Z.of_nat (String.length s).

Definition str_is_empty (s : string) : bool :=
  match s with
  | EmptyString => true
  | String _ _ => false
  end.

(** The UTF-8 encodings of the characters with the Unicode White_Space
    property, by encoded length: these are what [char::is_whitespace] accepts. *)
Definition ws1 (c : ascii) : bool :=
  in_byte_range 9 13 c || (byte_of c =? 32)%N.

Definition ws2 (c1 c2 : ascii) : bool :=
  (byte_of c1 =? 194)%N && ((byte_of c2 =? 133)%N || (byte_of c2 =? 160)%N).

Definition ws3 (c1 c2 c3 : ascii) : bool :=
  let b1 := byte_of c1 in
  let b2 := byte_of c2 in
  let b3 := byte_of c3 in
  ((b1 =? 225)%N && (b2 =? 154)%N && (b3 =? 128)%N)
  || ((b1 =? 226)%N && (b2 =? 128)%N
      && (((128 <=? b3)%N && (b3 <=? 138)%N)
          || (b3 =? 168)%N || (b3 =? 169)%N || (b3 =? 175)%N))
  || ((b1 =? 226)%N && (b2 =? 129)%N && (b3 =? 159)%N)
  || ((b1 =? 227)%N && (b2 =? 128)%N && (b3 =? 128)%N).

(** [str::trim_start] *)
Fixpoint trim_start (s : string) : string :=
  match s with
  | EmptyString => EmptyString
  | String c1 s1 =>
      if ws1 c1 then trim_start s1 else
      match s1 with
      | EmptyString => s
      | String c2 s2 =>
          if ws2 c1 c2 then trim_start s2 else
          match s2 with
          | EmptyString => s
          | String c3 s3 => if ws3 c1 c2 c3 then trim_start s3 else s
          end
      end
  end.

(** Stripping the same characters off a reversed string. *)
Fixpoint trim_start_rev (s : string) : string :=
  match s with
  | EmptyString => EmptyString
  | String c1 s1 =>
      if ws1 c1 then trim_start_rev s1 else
      match s1 with
      | EmptyString => s
      | String c2 s2 =>
          if ws2 c2 c1 then trim_start_rev s2 else
          match s2 with
          | EmptyString => s
          | String c3 s3 => if ws3 c3 c2 c1 then trim_start_rev s3 else s
          end
      end
  end.

(** [str::trim_end] and [str::trim] *)
Definition trim_end (s : string) : string :=
  String.rev (trim_start_rev (String.rev s)).

Definition trim (s : string) : string := trim_end (trim_start s).

(** [str::split_whitespace().count()]: the runs of characters that are not white space.
    [inside] tells whether the character before belongs to a run. *)
Fixpoint count_words (inside : bool) (s : string) : nat :=
  let word s' := ((if inside then 0 else 1) + count_words true s')%nat in
  match s with
  | EmptyString => 0
  | String c1 s1 =>
      if ws1 c1 then count_words false s1 else
      match s1 with
      | EmptyString => word s1
      | String c2 s2 =>
          if ws2 c1 c2 then count_words false s2 else
          match s2 with
          | EmptyString => word s1
          | String c3 s3 => if ws3 c1 c2 c3 then count_words false s3 else word s1
          end
      end
  end.

(** [str::trim_end_matches] for a one-byte pattern *)
Fixpoint skip_char (c : ascii) (s : string) : string :=
  match s with
  | EmptyString => EmptyString
  | String d s' => if Ascii.eqb d c then skip_char c s' else s
  end.

Definition trim_end_matches (c : ascii) (s : string) : string :=
  String.rev (skip_char c (String.rev s)).

(** [str::starts_with] and [str::ends_with] *)
Definition starts_with (p s : string) : bool := String.prefix p s.
Definition ends_with (p s : string) : bool := String.prefix (String.rev p) (String.rev s).

(** The part before the first separator: [split(c).next().unwrap_or_default()]. *)
Fixpoint split_first (c : ascii) (s : string) : string :=
  match s with
  | EmptyString => EmptyString
  | String d s' => if Ascii.eqb d c then EmptyString else String d (split_first c s')
  end.

(** [slice.join(sep)] *)
Fixpoint join (sep : string) (l : list string) : string :=
  match l with
  | [] => ""
  | [s] => s
  | s :: l' => s +:+ sep +:+ join sep l'
  end.

(** Whether a list of strings holds a string. *)
Definition str_mem (s : string) (l : list string) : bool := existsb (String.eqb s) l.

Lemma str_mem_spec s l : str_mem s l = true <-> s ∈ l.
Proof.
  unfold str_mem. rewrite existsb_exists. split.
  - intros (x & Hin & Heq). apply String.eqb_eq in Heq. subst.
    by apply list_elem_of_In.
  - intros Hin. exists s. split; [by apply list_elem_of_In|]. apply String.eqb_refl.
Qed.

(** ** Identifiers: 128-bit UUIDs *)

Abbreviation Uuid := N (only parsing).

Definition hex_digit (n : N) : ascii :=
  if (n <? 10)%N then Ascii.ascii_of_N (48 + n) else Ascii.ascii_of_N (87 + n).

Fixpoint hex_digits (k : nat) (n : N) (acc : string) : string :=
  match k with
  | O => acc
  | S k' => hex_digits k' (n / 16)%N (String (hex_digit (n mod 16)%N) acc)
  end.

(** The hyphenated lower-case form that [Display for Uuid] prints. *)
Definition uuid_to_string (u : Uuid) : string :=
  let s := hex_digits 32 u "" in
  String.substring 0 8 s +:+ "-" +:+ String.substring 8 4 s +:+ "-"
  +:+ String.substring 12 4 s +:+ "-" +:+ String.substring 16 4 s +:+ "-"
  +:+ String.substring 20 12 s.

(** The weak entity tag the server derives from an id and a revision. *)
Definition version_etag (id : Uuid) (revision : Z) : string :=
  "W/" +:+ String (Ascii.ascii_of_N 34) ""
  +:+ uuid_to_string id +:+ ":" +:+ pretty revision +:+ String (Ascii.ascii_of_N 34) "".

(** ** Integer ranges *)

Lemma seqZ_sorted m n : StronglySorted Z.le (seqZ m n).
Proof.
  destruct (decide (n ≤ 0)%Z); [rewrite seqZ_nil by lia; constructor|].
  rewrite <- (Z2Nat.id n) by lia. generalize (Z.to_nat n) as k. clear. intros k.
  revert m; induction k as [|k IH]; intros m; [constructor|].
  rewrite seqZ_cons by lia. replace (Z.pred (Z.of_nat (S k))) with (Z.of_nat k) by lia.
  constructor; [apply IH|]. apply Forall_seqZ. lia.
Qed.

Lemma take_seqZ k m n : take k (seqZ m n) = seqZ m (Z.min (Z.of_nat k) n).
Proof.
  apply list_eq. intros i. destruct (decide (i < k)%nat) as [Hlt|Hge].
  - rewrite lookup_take_lt by done. destruct (decide (Z.of_nat i < n)%Z).
    + rewrite !lookup_seqZ_lt by lia. done.
    + rewrite !lookup_seqZ_ge by lia. done.
  - rewrite lookup_take_ge by lia. by rewrite lookup_seqZ_ge by lia.
Qed.

(** A list sorted by [<=] with exactly the integers of a range, each once, is the range. *)
Lemma sorted_range l m n :
  StronglySorted Z.le l -> NoDup l -> (forall z, z ∈ l <-> (m ≤ z < m + n)%Z) -> l = seqZ m n.
Proof.
  intros Hs Hnd Hin. apply (StronglySorted_unique Z.le); [done|apply seqZ_sorted|].
  apply NoDup_Permutation; [done|apply NoDup_seqZ|]. intros z. by rewrite Hin, elem_of_seqZ.
Qed.
