(* ===== verification/Text.v ===== *)
(** * Text: substrings, lines and UTF-8

    What the sources use of [str] beyond the prelude: slices by byte offset, [find],
    [contains], [lines], character boundaries, and the well-formedness of UTF-8 that
    [std::str::from_utf8] checks, with the lemmas about cutting and joining. *)

From Stdlib Require Import ZifyBool ZifyN.
From S2P Require Import Prelude.

(** ** Slices *)

(** [&s[..n]] and [&s[n..]] *)
Fixpoint str_take (n : nat) (s : string) : string :=
  match n, s with
  | S n', String c s' => String c (str_take n' s')
  | _, _ => EmptyString
  end.

Fixpoint str_drop (n : nat) (s : string) : string :=
  match n, s with
  | S n', String _ s' => str_drop n' s'
  | _, _ => s
  end.

(** [str::find] with a string pattern *)
Fixpoint str_find (p s : string) : option nat :=
  if String.prefix p s then Some 0%nat
  else match s with
       | EmptyString => None
       | String _ s' => S <$> str_find p s'
       end.

(** [str::contains] *)
Definition str_contains (p s : string) : bool :=
  match str_find p s with Some _ => true | None => false end.

(** The last byte of a string. *)
Fixpoint str_last (s : string) : option ascii :=
  match s with
  | EmptyString => None
  | String c EmptyString => Some c
  | String _ s' => str_last s'
  end.

Lemma string_app_nil b : "" +:+ b = b.
Proof. reflexivity. Qed.

Lemma string_app_cons c a b : String c a +:+ b = String c (a +:+ b).
Proof. reflexivity. Qed.

Create HintDb text.
#[export] Hint Rewrite string_app_nil string_app_cons : text.

(** Computes appends of known heads (the library keeps [simpl] from unfolding them). *)
Ltac str_simpl := repeat first [progress autorewrite with text in * | progress simpl in *].

Lemma string_app_assoc a b c : (a +:+ b) +:+ c = a +:+ (b +:+ c).
Proof. induction a as [|x a IH]; str_simpl; [done|by rewrite IH]. Qed.

Lemma string_app_nil_r a : a +:+ "" = a.
Proof. induction a as [|x a IH]; str_simpl; [done|by rewrite IH]. Qed.

Lemma string_length_app a b :
  String.length (a +:+ b) = (String.length a + String.length b)%nat.
Proof. induction a as [|x a IH]; str_simpl; [done|by rewrite IH]. Qed.

Lemma str_take_drop n s : str_take n s +:+ str_drop n s = s.
Proof.
  revert s; induction n as [|n IH]; intros [|c s]; str_simpl; try done. by rewrite IH.
Qed.

Lemma str_length_take n s : String.length (str_take n s) = Nat.min n (String.length s).
Proof. revert s; induction n as [|n IH]; intros [|c s]; simpl; try done. by rewrite IH. Qed.

Lemma str_length_drop n s : String.length (str_drop n s) = (String.length s - n)%nat.
Proof. revert s; induction n as [|n IH]; intros [|c s]; simpl; auto. Qed.

Lemma str_take_app a b : str_take (String.length a) (a +:+ b) = a.
Proof. induction a as [|x a IH]; str_simpl; [by destruct b|by rewrite IH]. Qed.

Lemma str_drop_app a b : str_drop (String.length a) (a +:+ b) = b.
Proof. induction a as [|x a IH]; str_simpl; [by destruct b|done]. Qed.

Lemma string_prefix_app p s : String.prefix p s = true <-> exists t, s = p +:+ t.
Proof.
  revert s; induction p as [|c p IH]; intros s; str_simpl.
  { split; [by exists s|by destruct s]. }
  destruct s as [|d s]; [split; [done|by intros [t [=]]]|]. simpl.
  destruct (ascii_dec c d) as [->|Hne].
  - rewrite IH. split; intros [t Ht]; exists t; [by rewrite Ht|by injection Ht].
  - split; [done|]. intros [t Ht]. by injection Ht.
Qed.

(** [str_find] returns the first occurrence. *)
Lemma str_find_Some p s n :
  str_find p s = Some n ->
  (exists t, str_drop n s = p +:+ t) /\ (n <= String.length s)%nat
  /\ forall m, (m < n)%nat -> String.prefix p (str_drop m s) = false.
Proof.
  revert n; induction s as [|c s IH]; intros n; cbn [str_find].
  - destruct (String.prefix p "") eqn:Hp; [|done]. intros [= <-].
    apply string_prefix_app in Hp as [t Ht]. split; [by exists t|]. split; [lia|]. intros; lia.
  - destruct (String.prefix p (String c s)) eqn:Hp.
    + intros [= <-]. apply string_prefix_app in Hp as [t Ht].
      split; [by exists t|]. split; [simpl; lia|]. intros; lia.
    + destruct (str_find p s) as [k|] eqn:Hf; [|done]. intros [= <-].
      destruct (IH k eq_refl) as (Ht & Hle & Hfirst).
      split; [done|]. split; [simpl; lia|]. intros [|m] Hm; [done|]. apply Hfirst; lia.
Qed.

Lemma str_find_None p s :
  str_find p s = None -> forall m, String.prefix p (str_drop m s) = false.
Proof.
  induction s as [|c s IH]; cbn [str_find].
  - destruct (String.prefix p "") eqn:Hp; [done|]. intros _ [|m]; done.
  - destruct (String.prefix p (String c s)) eqn:Hp; [done|].
    destruct (str_find p s); [done|]. intros _ [|m]; [done|]. by apply IH.
Qed.

(** ** Case folding keeps lengths and positions *)

Lemma string_map_length f s : String.length (string_map f s) = String.length s.
Proof. induction s as [|c s IH]; simpl; [done|by rewrite IH]. Qed.

Lemma string_map_app f a b : string_map f (a +:+ b) = string_map f a +:+ string_map f b.
Proof. induction a as [|c a IH]; str_simpl; [done|by rewrite IH]. Qed.

Lemma string_map_drop f n s : string_map f (str_drop n s) = str_drop n (string_map f s).
Proof. revert s; induction n as [|n IH]; intros [|c s]; simpl; done. Qed.

Lemma string_map_take f n s : string_map f (str_take n s) = str_take n (string_map f s).
Proof. revert s; induction n as [|n IH]; intros [|c s]; simpl; try done. by rewrite IH. Qed.

(** ** Lines *)

(** A line without the carriage return of a CRLF ending. *)
Definition strip_cr (s : string) : string :=
  match String.rev s with
  | String c r => if (byte_of c =? 13)%N then String.rev r else s
  | EmptyString => s
  end.

Definition newline : ascii := Ascii.ascii_of_N 10.

(** [str::lines]: the text up to each newline, and what follows the last one unless it
    is empty. *)
Fixpoint lines_from (acc : string) (s : string) : list string :=
  match s with
  | EmptyString => if str_is_empty acc then [] else [String.rev acc]
  | String c s' =>
      if Ascii.eqb c newline then strip_cr (String.rev acc) :: lines_from "" s'
      else lines_from (String c acc) s'
  end.

Definition lines (s : string) : list string := lines_from "" s.

(** A text ending. *)
Definition ends_line (s : string) : bool :=
  match str_last s with Some c => Ascii.eqb c newline | None => false end.

Definition nl : string := String newline "".

Lemma lines_from_app acc a b :
  ends_line a = true -> lines_from acc (a +:+ b) = lines_from acc a ++ lines b.
Proof.
  revert acc. induction a as [|c a IH]; intros acc Ha; [done|].
  rewrite string_app_cons. cbn [lines_from].
  destruct a as [|d a].
  - unfold ends_line in Ha; simpl in Ha. by rewrite Ha, string_app_nil.
  - destruct (Ascii.eqb c newline); [rewrite IH by done; done|by apply IH].
Qed.

(** Lines of an empty or complete text stay as they are when text follows. *)
Lemma lines_app a b :
  a = "" \/ ends_line a = true -> lines (a +:+ b) = lines a ++ lines b.
Proof. intros [->|Ha]; [done|]. by apply lines_from_app. Qed.

Lemma string_rev_append_nil a b : String.rev_app a b = String.rev_app a "" +:+ b.
Proof.
  revert b; induction a as [|c a IH]; intros b; simpl; [done|].
  rewrite IH, (IH (String c "")), string_app_assoc. done.
Qed.

Lemma lines_from_single acc s :
  string_forallb (fun c => negb (Ascii.eqb c newline)) s = true ->
  lines_from acc (s +:+ nl) = [strip_cr (String.rev acc +:+ s)].
Proof.
  revert acc; induction s as [|c s IH]; intros acc Hs.
  - rewrite string_app_nil, string_app_nil_r. done.
  - simpl in Hs. apply andb_true_iff in Hs as [Hc Hs]. rewrite string_app_cons. cbn [lines_from].
    apply negb_true_iff in Hc. rewrite Hc, IH by done.
    f_equal. f_equal. unfold String.rev. simpl. rewrite string_rev_append_nil, string_app_assoc. done.
Qed.

(** A line without line-ending bytes is one line. *)
Lemma lines_single s :
  string_forallb (fun c => negb (Ascii.eqb c newline)) s = true -> lines (s +:+ nl) = [strip_cr s].
Proof. apply lines_from_single. Qed.

(** ** UTF-8 *)

Definition is_continuation (c : ascii) : bool := in_byte_range 128 191 c.

(** [str::is_char_boundary] *)
Definition is_char_boundary (n : nat) (s : string) : bool :=
  match n with
  | O => true
  | S _ =>
      match str_drop n s with
      | EmptyString => (n =? String.length s)%nat
      | String c _ => negb (is_continuation c)
      end
  end.

(** The two-byte prefixes that may start a three- or four-byte character: no overlong
    forms, no surrogates, nothing above U+10FFFF. *)
Definition utf8_lead3 (c1 c2 : ascii) : bool :=
  ((byte_of c1 =? 224)%N && in_byte_range 160 191 c2)
  || (in_byte_range 225 236 c1 && is_continuation c2)
  || ((byte_of c1 =? 237)%N && in_byte_range 128 159 c2)
  || (in_byte_range 238 239 c1 && is_continuation c2).

Definition utf8_lead4 (c1 c2 : ascii) : bool :=
  ((byte_of c1 =? 240)%N && in_byte_range 144 191 c2)
  || (in_byte_range 241 243 c1 && is_continuation c2)
  || ((byte_of c1 =? 244)%N && in_byte_range 128 143 c2).

(** Whether the bytes are well-formed UTF-8: [std::str::from_utf8(..).is_ok()]. *)
Fixpoint utf8_valid (s : string) : bool :=
  match s with
  | EmptyString => true
  | String c1 s1 =>
      if in_byte_range 0 127 c1 then utf8_valid s1 else
      match s1 with
      | EmptyString => false
      | String c2 s2 =>
          if in_byte_range 194 223 c1 && is_continuation c2 then utf8_valid s2 else
          match s2 with
          | EmptyString => false
          | String c3 s3 =>
              if utf8_lead3 c1 c2 && is_continuation c3 then utf8_valid s3 else
              match s3 with
              | EmptyString => false
              | String c4 s4 =>
                  utf8_lead4 c1 c2 && is_continuation c3 && is_continuation c4
                  && utf8_valid s4
              end
          end
      end
  end.

(** The characters: the byte strings of one code point. *)
Inductive utf8_char : string -> Prop :=
| char1 c1 : in_byte_range 0 127 c1 = true -> utf8_char (String c1 "")
| char2 c1 c2 :
    in_byte_range 194 223 c1 && is_continuation c2 = true ->
    utf8_char (String c1 (String c2 ""))
| char3 c1 c2 c3 :
    utf8_lead3 c1 c2 && is_continuation c3 = true ->
    utf8_char (String c1 (String c2 (String c3 "")))
| char4 c1 c2 c3 c4 :
    utf8_lead4 c1 c2 && is_continuation c3 && is_continuation c4 = true ->
    utf8_char (String c1 (String c2 (String c3 (String c4 "")))).

(** Text: a sequence of characters. *)
Inductive utf8_text : string -> Prop :=
| text_nil : utf8_text ""
| text_char c s : utf8_char c -> utf8_text s -> utf8_text (c +:+ s).

(** Goals about byte ranges, by arithmetic on the bytes. *)
Ltac bytes := unfold utf8_lead3, utf8_lead4, is_continuation, in_byte_range in *; lia.

Lemma utf8_valid_char c s : utf8_char c -> utf8_valid (c +:+ s) = utf8_valid s.
Proof.
  intros [c1 H|c1 c2 H|c1 c2 c3 H|c1 c2 c3 c4 H]; str_simpl; repeat case_match;
    (done || bytes).
Qed.

Lemma utf8_valid_text s : utf8_valid s = true <-> utf8_text s.
Proof.
  split; [|induction 1; [done|by rewrite utf8_valid_char]].
  revert s. fix IH 1. intros [|c1 s1]; [constructor|]; simpl.
  case_match.
  { intros. apply (text_char (String c1 "")); [by constructor|by apply IH]. }
  destruct s1 as [|c2 s2]; [done|]. case_match.
  { intros. apply (text_char (String c1 (String c2 ""))); [by constructor|by apply IH]. }
  destruct s2 as [|c3 s3]; [done|]. case_match.
  { intros. apply (text_char (String c1 (String c2 (String c3 "")))); [by constructor|by apply IH]. }
  destruct s3 as [|c4 s4]; [done|]. intros [H4 ?]%andb_true_iff.
  apply (text_char (String c1 (String c2 (String c3 (String c4 ""))))); [by constructor|by apply IH].
Qed.

Lemma utf8_text_app a b : utf8_text a -> utf8_text b -> utf8_text (a +:+ b).
Proof.
  induction 1 as [|c a Hc _ IH]; intros Hb; [done|].
  rewrite string_app_assoc. constructor; auto.
Qed.

(** Whether a character may start here: the end, or a byte that continues nothing. *)
Definition starts_char (s : string) : bool :=
  match s with
  | EmptyString => true
  | String c _ => negb (is_continuation c)
  end.

Lemma utf8_text_starts s : utf8_text s -> starts_char s = true.
Proof.
  intros [|c s' [c1 H|c1 c2 H|c1 c2 c3 H|c1 c2 c3 c4 H] _]; str_simpl; (done || bytes).
Qed.

Lemma utf8_char_split c a s b :
  utf8_char c -> c +:+ s = a +:+ b -> starts_char b = true ->
  a = "" \/ exists a', a = c +:+ a' /\ s = a' +:+ b.
Proof.
  intros [c1 H|c1 c2 H|c1 c2 c3 H|c1 c2 c3 c4 H] Heq Hb;
    (destruct a as [|? a]; [by left|right]);
    repeat first
      [ (exists a; str_simpl; simplify_eq; done)
      | (destruct a as [|? a]; [exfalso; str_simpl; simplify_eq; str_simpl; bytes|]) ].
Qed.

(** Text cut where a character starts is two texts. *)
Lemma utf8_text_cut a b :
  utf8_text (a +:+ b) -> starts_char b = true -> utf8_text a /\ utf8_text b.
Proof.
  intros H. remember (a +:+ b) as s eqn:Hs. revert a Hs.
  induction H as [|c s Hc Hs IH]; intros a Heq Hb.
  { destruct a; [|done]. rewrite string_app_nil in Heq. subst. by repeat constructor. }
  assert ((exists a', a = c +:+ a' /\ s = a' +:+ b) \/ a = "") as [(a' & -> & ->)| ->].
  { destruct (utf8_char_split c a s b Hc Heq Hb); auto. }
  - destruct (IH a' eq_refl Hb). split; [by constructor|done].
  - rewrite string_app_nil in Heq. subst. by repeat constructor.
Qed.
