(* ===== verification/Json.v ===== *)
(** * JSON values

    The part of [serde_json::Value] the sources use: the value type (objects are
    maps ordered by key, since the workspace builds serde_json without its
    order-preserving feature), the accessors, insertion and removal of object
    entries, and the compact printer behind [Value::to_string] and
    [serde_json::to_vec]. *)

From S2P Require Import Prelude.

(** A number keeps serde_json's three representations; a float is held as its
    64-bit pattern (with one pattern for zero), since the sources never compute
    with it. *)
Inductive JNum : Type :=
| PosInt (n : Z)
| NegInt (n : Z)
| Float (bits : Z).

#[global] Instance JNum_eq_dec : EqDecision JNum.
Proof. solve_decision. Defined.

#[warnings="-register-all"]
Inductive Value : Type :=
| JNull
| JBool (b : bool)
| JNumber (n : JNum)
| JString (s : string)
| JArray (l : list Value)
| JObject (m : list (string * Value)).

Abbreviation Map := (list (string * Value)) (only parsing).

(** ** Induction through the nested lists *)
Section value_ind.
Variable P : Value -> Prop.
Hypothesis Hnull : P JNull.
Hypothesis Hbool : forall b, P (JBool b).
Hypothesis Hnum : forall n, P (JNumber n).
Hypothesis Hstr : forall s, P (JString s).
Hypothesis Harr : forall l, Forall P l -> P (JArray l).
Hypothesis Hobj : forall m, Forall (fun kv => P kv.2) m -> P (JObject m).

Fixpoint Value_nested_ind (v : Value) : P v :=
  match v with
  | JNull => Hnull
  | JBool b => Hbool b
  | JNumber n => Hnum n
  | JString s => Hstr s
  | JArray l =>
      Harr l ((fix go l : Forall P l :=
        match l with
        | [] => Forall_nil_2 P
        | x :: l' => Forall_cons_2 P x l' (Value_nested_ind x) (go l')
        end) l)
  | JObject m =>
      Hobj m ((fix go m : Forall (fun kv => P kv.2) m :=
        match m with
        | [] => Forall_nil_2 (fun kv => P kv.2)
        | kv :: m' =>
            Forall_cons_2 (fun kv => P kv.2) kv m' (Value_nested_ind kv.2) (go m')
        end) m)
  end.
End value_ind.

(** ** Decidable equality: [impl PartialEq for Value] *)
Fixpoint value_eqb (v w : Value) {struct v} : bool :=
  match v, w with
  | JNull, JNull => true
  | JBool a, JBool b => Bool.eqb a b
  | JNumber a, JNumber b => bool_decide (a = b)
  | JString a, JString b => String.eqb a b
  | JArray l, JArray k =>
      (fix go l k :=
         match l, k with
         | [], [] => true
         | x :: l', y :: k' => value_eqb x y && go l' k'
         | _, _ => false
         end) l k
  | JObject m, JObject n =>
      (fix go (m n : list (string * Value)) :=
         match m, n with
         | [], [] => true
         | (a, x) :: m', (b, y) :: n' => String.eqb a b && value_eqb x y && go m' n'
         | _, _ => false
         end) m n
  | _, _ => false
  end.

Lemma value_eqb_spec v : forall w, value_eqb v w = true <-> v = w.
Proof.
  induction v as [|b|n|s|l IH|m IH] using Value_nested_ind;
    intros [|b'|n'|s'|l'|m']; simpl; try (split; [done|done]).
  - rewrite Bool.eqb_true_iff. naive_solver.
  - rewrite bool_decide_eq_true. naive_solver.
  - rewrite String.eqb_eq. naive_solver.
  - revert l'. induction IH as [|x l Hx _ IHl]; intros [|y k]; try (split; [done|done]).
    rewrite andb_true_iff, Hx, IHl. split; [by intros [-> [= ->]]|by intros [= -> ->]].
  - revert m'. induction IH as [|[a x] m Hx _ IHm]; intros [|[b y] n]; try (split; [done|done]).
    rewrite !andb_true_iff, String.eqb_eq, Hx, IHm. simpl.
    split; [by intros [[-> ->] [= ->]]|by intros [= -> -> ->]].
Qed.

#[global] Instance Value_eq_dec : EqDecision Value.
Proof.
  intros v w. destruct (value_eqb v w) eqn:E.
  - left. by apply value_eqb_spec.
  - right. intros ->. by rewrite (proj2 (value_eqb_spec w w)) in E.
Defined.

#[global] Instance Value_inhabited : Inhabited Value := populate JNull.

(** ** Object entries *)

(** [Map::get] *)
Fixpoint map_get (k : string) (m : Map) : option Value :=
  match m with
  | [] => None
  | (k', v) :: m' => if String.eqb k k' then Some v else map_get k m'
  end.

(** [Map::insert], keeping the keys in byte order *)
Fixpoint map_insert (k : string) (v : Value) (m : Map) : Map :=
  match m with
  | [] => [(k, v)]
  | (k', v') :: m' =>
      match String.compare k k' with
      | Lt => (k, v) :: m
      | Eq => (k, v) :: m'
      | Gt => (k', v') :: map_insert k v m'
      end
  end.

(** [Map::remove], the map without the key *)
Definition map_remove (k : string) (m : Map) : Map :=
  filter (fun kv => kv.1 ≠ k) m.

(** The object a [json!] literal with these entries builds. *)
Definition json_map (l : Map) : Map :=
  foldl (fun m kv => map_insert kv.1 kv.2 m) [] l.

Definition json_obj (l : Map) : Value := JObject (json_map l).

(** [Map::contains_key] *)
Definition map_has (k : string) (m : Map) : bool :=
  match map_get k m with
  | Some _ => true
  | None => false
  end.

(** ** Accessors of [Value] *)

Definition as_object (v : Value) : option Map :=
  match v with JObject m => Some m | _ => None end.

Definition as_array (v : Value) : option (list Value) :=
  match v with JArray l => Some l | _ => None end.

Definition as_str (v : Value) : option string :=
  match v with JString s => Some s | _ => None end.

Definition as_bool (v : Value) : option bool :=
  match v with JBool b => Some b | _ => None end.

Definition as_u64 (v : Value) : option Z :=
  match v with JNumber (PosInt n) => Some n | _ => None end.

(** [Value::as_i64] *)
Definition as_i64 (v : Value) : option Z :=
  match v with
  | JNumber (PosInt n) => if bool_decide (n ≤ i64_max)%Z then Some n else None
  | JNumber (NegInt n) => Some n
  | _ => None
  end.

Definition is_null (v : Value) : bool :=
  match v with JNull => true | _ => false end.

Definition is_object (v : Value) : bool :=
  match v with JObject _ => true | _ => false end.

(** [Value::get] with a string index *)
Definition get (k : string) (v : Value) : option Value :=
  match v with JObject m => map_get k m | _ => None end.

(** [value.get(k).and_then(Value::as_str)] and its siblings *)
Definition get_str (k : string) (v : Value) : option string := get k v ≫= as_str.
Definition get_array (k : string) (v : Value) : option (list Value) := get k v ≫= as_array.
Definition get_bool (k : string) (v : Value) : option bool := get k v ≫= as_bool.
Definition map_str (k : string) (m : Map) : option string := map_get k m ≫= as_str.

(** [.map(str::trim).filter(|value| !value.is_empty())] on an optional string *)
Definition non_empty_trimmed (o : option string) : option string :=
  match o with
  | Some s => if str_is_empty (trim s) then None else Some (trim s)
  | None => None
  end.

(** ** Constructors used by [json!] for Rust values *)

Definition jint (n : Z) : Value := JNumber (if (n <? 0)%Z then NegInt n else PosInt n).
Definition juuid (u : Uuid) : Value := JString (uuid_to_string u).
Definition jopt {A} (f : A -> Value) (o : option A) : Value :=
  match o with Some a => f a | None => JNull end.

(** ** The compact printer *)

Definition quote : string := String (Ascii.ascii_of_N 34) "".
Definition backslash : ascii := Ascii.ascii_of_N 92.

Definition escape_char (c : ascii) : string :=
  let b := byte_of c in
  if (b =? 34)%N then String backslash quote
  else if (b =? 92)%N then String backslash (String backslash "")
  else if (b =? 8)%N then String backslash "b"
  else if (b =? 9)%N then String backslash "t"
  else if (b =? 10)%N then String backslash "n"
  else if (b =? 12)%N then String backslash "f"
  else if (b =? 13)%N then String backslash "r"
  else if (b <? 32)%N then
    String backslash ("u00" +:+ String (hex_digit (b / 16)) (String (hex_digit (b mod 16)) ""))
  else String c "".

Fixpoint escape (s : string) : string :=
  match s with
  | EmptyString => EmptyString
  | String c s' => escape_char c +:+ escape s'
  end.

Definition print_string (s : string) : string := quote +:+ escape s +:+ quote.

Section printer.
(** How serde_json prints a finite 64-bit float (the zmij crate). *)
Variable f64_repr : Z -> string.

Definition print_num (n : JNum) : string :=
  match n with
  | PosInt z | NegInt z => pretty z
  | Float b => f64_repr b
  end.

Fixpoint print_value (v : Value) : string :=
  match v with
  | JNull => "null"
  | JBool true => "true"
  | JBool false => "false"
  | JNumber n => print_num n
  | JString s => print_string s
  | JArray l => "[" +:+ join "," (print_value <$> l) +:+ "]"
  | JObject m =>
      "{" +:+ join "," ((fun kv => print_string kv.1 +:+ ":" +:+ print_value kv.2) <$> m) +:+ "}"
  end.
End printer.

(** ** Laws of the object operations *)

Lemma string_compare_refl s : String.compare s s = Eq.
Proof.
  induction s as [|c s IH]; simpl; [done|].
  unfold Ascii.compare. by rewrite N.compare_refl.
Qed.

Lemma map_get_insert k k' v m :
  map_get k (map_insert k' v m) = if String.eqb k k' then Some v else map_get k m.
Proof.
  induction m as [|[a w] m IH]; simpl; [done|].
  destruct (String.compare k' a) eqn:C; simpl.
  - apply String.compare_eq_iff in C as ->. by destruct (String.eqb k a).
  - done.
  - destruct (String.eqb_spec k a) as [->|]; [|done].
    destruct (String.eqb_spec a k') as [->|]; [|done].
    by rewrite string_compare_refl in C.
Qed.

Lemma map_get_insert_eq k v m : map_get k (map_insert k v m) = Some v.
Proof. by rewrite map_get_insert, String.eqb_refl. Qed.

Lemma map_get_insert_ne k k' v m :
  k ≠ k' -> map_get k (map_insert k' v m) = map_get k m.
Proof. intros. rewrite map_get_insert. by destruct (String.eqb_spec k k'). Qed.

Lemma map_get_remove k k' m :
  map_get k (map_remove k' m) = if String.eqb k k' then None else map_get k m.
Proof.
  unfold map_remove. induction m as [|[a w] m IH]; simpl.
  { by destruct (String.eqb k k'). }
  rewrite filter_cons. case_decide; simpl in *.
  - rewrite IH. destruct (String.eqb_spec k a) as [->|]; [|done].
    by destruct (String.eqb_spec a k').
  - destruct (decide (a = k')) as [->|]; [|done]. rewrite IH.
    by destruct (String.eqb k k').
Qed.

Lemma map_get_remove_eq k m : map_get k (map_remove k m) = None.
Proof. by rewrite map_get_remove, String.eqb_refl. Qed.

Lemma map_get_remove_ne k k' m :
  k ≠ k' -> map_get k (map_remove k' m) = map_get k m.
Proof. intros. rewrite map_get_remove. by destruct (String.eqb_spec k k'). Qed.

Create HintDb json.
#[export] Hint Rewrite map_get_insert_eq map_get_remove_eq String.eqb_refl : json.
#[export] Hint Resolve map_get_insert_ne map_get_remove_ne : json.
