(* ===== verification/Redaction.v ===== *)
(** * Redaction of diagnostic data: app/src-tauri/src/sensitive_data.rs

    What the desktop application does to text and JSON before it is logged: values under
    sensitive keys and tokens in free text are replaced, nesting and size are bounded.
    Text is its UTF-8 bytes; a scan over characters is a scan over bytes, because every
    byte it stops at starts a character. [while_loop] runs a loop body that emits text and
    says where to go on; [loops] is the same loop as a relation, and [while_loops] shows
    that the loop of a body which consumes its input ends within the bytes there are. *)

From S2P Require Import Prelude Text Json.

(** serde_json: parsing a value, and printing a 64-bit float. *)
Class JsonText := {
  parse_json : string -> option Value;
  f64_repr : Z -> string;
}.

Definition to_json_string `{JsonText} (v : Value) : string := print_value f64_repr v.

(** ** Loops over the rest of a text *)

Section While.
Variable body : string -> string * option string.

Fixpoint while_loop (fuel : nat) (rest : string) : string :=
  match fuel with
  | O => rest
  | S fuel' =>
      match body rest with
      | (emitted, None) => emitted
      | (emitted, Some rest') => emitted +:+ while_loop fuel' rest'
      end
  end.

(** The loop runs to its end and emits the text. *)
Inductive loops : string -> string -> Prop :=
| loop_exit rest emitted : body rest = (emitted, None) -> loops rest emitted
| loop_again rest emitted rest' out :
    body rest = (emitted, Some rest') -> loops rest' out -> loops rest (emitted +:+ out).

Definition consumes : Prop :=
  forall rest emitted rest',
    body rest = (emitted, Some rest') -> (String.length rest' < String.length rest)%nat.

Lemma while_loops_fuel fuel rest :
  consumes -> (String.length rest < fuel)%nat -> loops rest (while_loop fuel rest).
Proof.
  intros Hbody. revert rest. induction fuel as [|fuel IH]; intros rest Hfuel; [lia|].
  simpl. destruct (body rest) as [emitted [rest'|]] eqn:Hb; [|by constructor].
  econstructor; [done|]. apply IH. specialize (Hbody _ _ _ Hb). lia.
Qed.

Lemma while_loops rest : consumes -> loops rest (while_loop (S (String.length rest)) rest).
Proof. intros Hbody. apply while_loops_fuel; [done|lia]. Qed.

Lemma loops_det rest out out' : loops rest out -> loops rest out' -> out = out'.
Proof.
  intros H. revert out'.
  induction H as [rest e He|rest e rest' out He _ IH]; intros out' H';
    inversion H' as [? ? Hb|? ? ? ? Hb Hout]; subst; rewrite He in Hb; try congruence.
  injection Hb as <- <-. f_equal. by apply IH.
Qed.

(** Induction over a terminating loop. *)
Lemma while_loop_ind (P : string -> string -> Prop) :
  consumes ->
  (forall rest emitted, body rest = (emitted, None) -> P rest emitted) ->
  (forall rest emitted rest' out,
     body rest = (emitted, Some rest') -> P rest' out -> P rest (emitted +:+ out)) ->
  forall rest, P rest (while_loop (S (String.length rest)) rest).
Proof.
  intros Hc Hexit Hagain rest. pose proof (while_loops rest Hc) as H.
  induction H; eauto.
Qed.
End While.

(** ** Sensitive keys *)

Definition REDACTED : string := "[REDACTED]".
Definition TRUNCATED : string := "[TRUNCATED]".
Definition MAX_REDACTION_DEPTH : nat := 16.
Definition MAX_AUDIT_EVENT_BYTES : Z := 128 * 1024.

Definition normalized_key (key : string) : string :=
  string_map ascii_to_lower (string_filter is_ascii_alphanumeric key).

Definition is_sensitive_key (key : string) : bool :=
  let key := normalized_key key in
  String.eqb key "env"
  || String.eqb key "environment"
  || String.eqb key "headers"
  || String.eqb key "authorization"
  || String.eqb key "cookie"
  || String.eqb key "setcookie"
  || String.eqb key "auth"
  || String.eqb key "token"
  || String.eqb key "credentials"
  || String.eqb key "credential"
  || String.eqb key "configjson"
  || str_contains "apikey" key
  || str_contains "accesstoken" key
  || str_contains "refreshtoken" key
  || str_contains "authtoken" key
  || ends_with "token" key
  || str_contains "password" key
  || str_contains "passwd" key
  || str_contains "clientsecret" key
  || str_contains "privatekey" key
  || str_contains "signingkey" key
  || str_contains "webhookurl" key
  || ends_with "secret" key.

(** ** Free text *)

(** Whether the text starts with a white-space character. *)
Definition starts_ws (s : string) : bool :=
  match s with
  | EmptyString => false
  | String c1 s1 =>
      ws1 c1
      || match s1 with
         | EmptyString => false
         | String c2 s2 =>
             ws2 c1 c2
             || match s2 with
                | EmptyString => false
                | String c3 _ => ws3 c1 c2 c3
                end
         end
  end.

(** The bytes before the first white space or stop character. *)
Fixpoint span_until (stop : ascii -> bool) (s : string) : nat :=
  match s with
  | EmptyString => 0
  | String c s' => if starts_ws s || stop c then 0 else S (span_until stop s')
  end.

(** ['&' | '#' | ',' | ';' | QUOTE | APOSTROPHE], and with ':' for tokens. *)
Definition value_stop (c : ascii) : bool :=
  let b := byte_of c in
  (b =? 38)%N || (b =? 35)%N || (b =? 44)%N || (b =? 59)%N || (b =? 34)%N || (b =? 39)%N.

Definition token_stop (c : ascii) : bool := value_stop c || (byte_of c =? 58)%N.

(** One round of the loop of [redact_delimited_value]: the rest of the input is
    [&input[cursor..]]. *)
Definition delimited_body (marker rest : string) : string * option string :=
  match str_find (to_ascii_lowercase marker) (to_ascii_lowercase rest) with
  | None => (rest, None)
  | Some start =>
      let value_start := (start + String.length marker)%nat in
      let tail := str_drop value_start rest in
      let value_end := span_until value_stop tail in
      let emitted := str_take value_start rest +:+ REDACTED in
      if (value_end =? 0)%nat then (emitted +:+ tail, None)
      else (emitted, Some (str_drop value_end tail))
  end.

Definition redact_delimited_value (input marker : string) : string :=
  while_loop (delimited_body marker) (S (String.length input)) input.

(** One round of the loop of [redact_prefixed_token]. *)
Definition prefixed_body (marker : string) (minimum_bytes : nat) (rest : string)
    : string * option string :=
  match str_find (to_ascii_lowercase marker) (to_ascii_lowercase rest) with
  | None => (rest, None)
  | Some start =>
      let length := span_until token_stop (str_drop start rest) in
      let end_ := (start + length)%nat in
      let emitted :=
        if (minimum_bytes <=? length)%nat then str_take start rest +:+ REDACTED
        else str_take end_ rest in
      if (end_ =? 0)%nat then (emitted +:+ rest, None)
      else (emitted, Some (str_drop end_ rest))
  end.

Definition redact_prefixed_token (input marker : string) (minimum_bytes : nat) : string :=
  while_loop (prefixed_body marker minimum_bytes) (S (String.length input)) input.

Definition TEXT_MARKERS : list string :=
  ["bearer "; "api_key="; "apikey="; "access_token="; "refresh_token="; "token="; "password=";
   "passwd="; "client_secret="; "secret="; "signature="; "key="].

Definition TOKEN_MARKERS : list (string * nat) :=
  [("sk-", 11%nat); ("ghp_", 12%nat); ("xoxb-", 13%nat); ("aiza", 12%nat)].

Definition redact_text (input : string) : string :=
  let output := foldl redact_delimited_value input TEXT_MARKERS in
  foldl (fun output mb => redact_prefixed_token output mb.1 mb.2) output TOKEN_MARKERS.

#[global] Arguments is_sensitive_key : simpl never.
#[global] Arguments redact_text : simpl never.
#[global] Arguments MAX_REDACTION_DEPTH : simpl never.

(** ** JSON values *)

Fixpoint redact_value_at_depth (value : Value) (depth : nat) : Value :=
  if (MAX_REDACTION_DEPTH <? depth)%nat then JString TRUNCATED
  else
    match value with
    | JObject object =>
        JObject ((fun kv =>
          (kv.1, if is_sensitive_key kv.1 then JString REDACTED
                 else redact_value_at_depth kv.2 (S depth))) <$> object)
    | JArray entries => JArray ((fun entry => redact_value_at_depth entry (S depth)) <$> entries)
    | JString text => JString (redact_text text)
    | other => other
    end.

Definition redact_value (value : Value) : Value := redact_value_at_depth value 0.

(** ** Bounds *)

Definition TRUNCATION_MARKER : string := nl +:+ TRUNCATED.

(** [while boundary > 0 && !input.is_char_boundary(boundary) { boundary -= 1 }] *)
Fixpoint floor_boundary (input : string) (boundary : nat) : nat :=
  match boundary with
  | O => O
  | S b => if is_char_boundary boundary input then boundary else floor_boundary input b
  end.

Definition truncate_utf8 (input : string) (max_bytes : nat) : string :=
  if (String.length input <=? max_bytes)%nat then input
  else if (max_bytes =? 0)%nat then ""
  else if (max_bytes <=? String.length TRUNCATION_MARKER)%nat then str_take max_bytes TRUNCATED
  else
    let boundary := floor_boundary input (max_bytes - String.length TRUNCATION_MARKER) in
    str_take boundary input +:+ TRUNCATION_MARKER.

Definition redact_and_bound_text (input : string) (max_bytes : nat) : string :=
  truncate_utf8 (redact_text input) max_bytes.

Section Json.
Context `{JsonText}.

(** [json!({"$openCoworkTruncated": true, "originalBytes": .., "preview": ..})] *)
Definition truncation_envelope (original_bytes : nat) (preview : string) : Value :=
  json_obj [("$openCoworkTruncated", JBool true);
            ("originalBytes", jint (Z.of_nat original_bytes));
            ("preview", JString preview)].

Definition redact_and_bound_json_text (input : string) (max_bytes : nat) : string :=
  match parse_json input with
  | None => redact_and_bound_text input max_bytes
  | Some value =>
      let serialized := to_json_string (redact_value value) in
      if (String.length serialized <=? max_bytes)%nat then serialized
      else
        let envelope_overhead := Nat.min 128 max_bytes in
        let preview := truncate_utf8 serialized (max_bytes - envelope_overhead) in
        let envelope :=
          to_json_string (truncation_envelope (String.length serialized) preview) in
        if (String.length envelope <=? max_bytes)%nat then envelope
        else if (2 <=? max_bytes)%nat then "{}"
        else ""
  end.

Definition redact_and_bound_optional_text (input : option string) (max_bytes : nat)
    : option string :=
  (fun value => redact_and_bound_text value max_bytes) <$> input.

Definition redact_and_bound_optional_json (input : option string) (max_bytes : nat)
    : option string :=
  (fun value => redact_and_bound_json_text value max_bytes) <$> input.
End Json.

Definition label_char (c : ascii) : bool :=
  is_ascii_alphanumeric c
  || (byte_of c =? 46)%N || (byte_of c =? 95)%N || (byte_of c =? 58)%N || (byte_of c =? 45)%N.

Definition diagnostic_label (input : string) : string :=
  let trimmed := trim input in
  if negb (str_is_empty trimmed) && (str_len trimmed <=? 128)%Z
     && string_forallb label_char trimmed
  then trimmed
  else REDACTED.

(** ** The loops consume their input *)

Lemma span_until_le stop s : (span_until stop s <= String.length s)%nat.
Proof. induction s as [|c s IH]; [done|]. cbn [span_until]. case_match; simpl; lia. Qed.

Lemma delimited_consumes marker : consumes (delimited_body marker).
Proof.
  intros rest emitted rest'. unfold delimited_body. case_match; [|done].
  case_match eqn:Hz; [done|]. intros [= _ <-]. apply Nat.eqb_neq in Hz.
  rewrite !str_length_drop. pose proof (span_until_le value_stop (str_drop (n + String.length marker) rest)) as Hle.
  rewrite str_length_drop in Hle. lia.
Qed.

Lemma prefixed_consumes marker minimum : consumes (prefixed_body marker minimum).
Proof.
  intros rest emitted rest'. unfold prefixed_body. case_match eqn:Hf; [|done].
  case_match eqn:Hz; [done|]. intros [= _ <-]. apply Nat.eqb_neq in Hz.
  apply str_find_Some in Hf as (_ & Hle & _). unfold to_ascii_lowercase in Hle.
  rewrite string_map_length in Hle.
  pose proof (span_until_le token_stop (str_drop n rest)) as Hs.
  rewrite !str_length_drop in *. lia.
Qed.
