(* ===== verification/RedactionProperties.v ===== *)
(** * Theorems about redaction

    The loops end; JSON is redacted at every path; sizes are bounded and UTF-8 stays
    UTF-8; a text none of whose markers has an empty value keeps no marked value. The last
    group shows the limit of the code: after a marker with an empty value the rest of the
    text is left as it was. *)

From S2P Require Import Prelude Text Json Redaction.

#[local] Arguments Nat.ltb : simpl never.

(** ** The loops end *)

(** C38: Redaction of free text terminates: for every marker, minimum and input, the loop of
    [redact_delimited_value] and the loop of [redact_prefixed_token], as relations that
    hold only of runs with finitely many rounds, end with exactly the text the definitions
    return. *)
Theorem redaction_loops_terminate input marker minimum :
  loops (delimited_body marker) input (redact_delimited_value input marker)
  /\ loops (prefixed_body marker minimum) input (redact_prefixed_token input marker minimum).
Proof.
  split; apply while_loops; [apply delimited_consumes|apply prefixed_consumes].
Qed.

(** ** JSON by path *)

Inductive Segment := Key (k : string) | Index (n : nat).

(** The value at a path. *)
Fixpoint value_at (v : Value) (p : list Segment) : option Value :=
  match p with
  | [] => Some v
  | Key k :: p' =>
      match v with JObject m => map_get k m ≫= fun w => value_at w p' | _ => None end
  | Index n :: p' =>
      match v with JArray l => l !! n ≫= fun w => value_at w p' | _ => None end
  end.

Definition sensitive_segment (s : Segment) : bool :=
  match s with Key k => is_sensitive_key k | Index _ => false end.

(** What becomes of a value that is neither object nor array. *)
Definition redact_leaf (v : Value) : option Value :=
  match v with
  | JString text => Some (JString (redact_text text))
  | JObject _ | JArray _ => None
  | other => Some other
  end.

Lemma map_get_fmap (f : string -> Value -> Value) k m :
  map_get k ((fun kv => (kv.1, f kv.1 kv.2)) <$> m) = f k <$> map_get k m.
Proof.
  induction m as [|[k' v] m IH]; simpl; [done|].
  destruct (String.eqb_spec k k') as [->|]; done.
Qed.

Lemma redact_unfold v depth :
  redact_value_at_depth v depth =
  if (MAX_REDACTION_DEPTH <? depth)%nat then JString TRUNCATED
  else
    match v with
    | JObject object =>
        JObject ((fun kv =>
          (kv.1, if is_sensitive_key kv.1 then JString REDACTED
                 else redact_value_at_depth kv.2 (S depth))) <$> object)
    | JArray entries => JArray ((fun entry => redact_value_at_depth entry (S depth)) <$> entries)
    | JString text => JString (redact_text text)
    | other => other
    end.
Proof. destruct v; reflexivity. Qed.

(** The value under a key of a redacted object, and at an index of a redacted array. *)
Lemma redact_object_get object depth k :
  (depth <= MAX_REDACTION_DEPTH)%nat ->
  exists object', redact_value_at_depth (JObject object) depth = JObject object'
    /\ map_get k object' =
       (fun v => if is_sensitive_key k then JString REDACTED
                 else redact_value_at_depth v (S depth)) <$> map_get k object.
Proof.
  intros Hd. rewrite redact_unfold, (proj2 (Nat.ltb_ge _ _)) by done. eexists; split; [done|].
  apply (map_get_fmap (fun k v => if is_sensitive_key k then JString REDACTED
                                  else redact_value_at_depth v (S depth))).
Qed.

Lemma redact_deep v depth :
  (MAX_REDACTION_DEPTH < depth)%nat -> redact_value_at_depth v depth = JString TRUNCATED.
Proof. intros Hd. by rewrite redact_unfold, (proj2 (Nat.ltb_lt _ _)). Qed.

Lemma redact_key_inv v depth k p w :
  value_at (redact_value_at_depth v depth) (Key k :: p) = Some w -> exists m, v = JObject m.
Proof. rewrite redact_unfold. destruct v, (_ <? _)%nat; intros; eauto; done. Qed.

Lemma redact_index_inv v depth i p w :
  value_at (redact_value_at_depth v depth) (Index i :: p) = Some w -> exists l, v = JArray l.
Proof. rewrite redact_unfold. destruct v, (_ <? _)%nat; intros; eauto; done. Qed.

(** What stands at the end of a path into a redacted value. *)
Inductive redacted_as (depth : nat) (v : Value) (p : list Segment) (w : Value) : Prop :=
| by_key p' k : (depth + length p <= S MAX_REDACTION_DEPTH)%nat -> p = p' ++ [Key k] -> is_sensitive_key k = true -> w = JString REDACTED ->
    redacted_as depth v p w
| by_depth : (depth + length p = S MAX_REDACTION_DEPTH)%nat ->
    existsb sensitive_segment p = false -> w = JString TRUNCATED ->
    redacted_as depth v p w
| by_value v' : (depth + length p <= MAX_REDACTION_DEPTH)%nat ->
    existsb sensitive_segment p = false ->
    value_at v p = Some v' -> w = redact_value_at_depth v' (depth + length p) ->
    redacted_as depth v p w.

Lemma redacted_as_cons depth v s p w v1 :
  redacted_as (S depth) v1 p w -> sensitive_segment s = false ->
  (forall v', value_at v1 p = Some v' -> value_at v (s :: p) = Some v') ->
  redacted_as depth v (s :: p) w.
Proof.
  intros [p' k Hd -> Hk ->|Hd Hs ->|v' Hd Hs Hv ->] Hseg Hat.
  - eapply (by_key _ _ _ _ (s :: p') k); [simpl in *; lia|done..].
  - apply by_depth; [simpl; lia|simpl; by rewrite Hseg|done].
  - eapply by_value; simpl; [lia|by rewrite Hseg|by apply Hat|by rewrite Nat.add_succ_r].
Qed.

Lemma value_at_redacted p : forall v depth w,
  (depth <= S MAX_REDACTION_DEPTH)%nat ->
  value_at (redact_value_at_depth v depth) p = Some w -> redacted_as depth v p w.
Proof.
  induction p as [|s p IH]; intros v depth w Hd Hat.
  { injection Hat as <-. destruct (decide (depth = S MAX_REDACTION_DEPTH)) as [->|].
    - apply by_depth; [by rewrite Nat.add_0_r|done|]. apply redact_deep; lia.
    - eapply by_value; [simpl; lia|done|done|by rewrite Nat.add_0_r]. }
  destruct (decide (depth = S MAX_REDACTION_DEPTH)) as [->|].
  { rewrite redact_deep in Hat by lia. by destruct s. }
  destruct s as [k|i].
  - destruct (redact_key_inv _ _ _ _ _ Hat) as [m ->].
    destruct (redact_object_get m depth k) as (m' & Hm & Hget); [lia|].
    rewrite Hm in Hat. simpl in Hat. rewrite Hget in Hat.
    destruct (map_get k m) as [v1|] eqn:Hv1; [|done]. cbn [fmap option_fmap option_map] in Hat.
    destruct (is_sensitive_key k) eqn:Hk.
    + destruct p as [|[] p]; try done. injection Hat as <-. eapply (by_key _ _ _ _ []); [simpl; lia|done..].
    + apply IH in Hat; [|lia]. eapply redacted_as_cons; [done|done|]. simpl. by rewrite Hv1.
  - destruct (redact_index_inv _ _ _ _ _ Hat) as [l ->].
    rewrite redact_unfold, (proj2 (Nat.ltb_ge _ _)) in Hat by lia. cbn [value_at] in Hat.
    rewrite list_lookup_fmap in Hat. destruct (l !! i) as [v1|] eqn:Hv1; [|done]. simpl in Hat.
    apply IH in Hat; [|lia]. eapply redacted_as_cons; [done|done|]. simpl. by rewrite Hv1.
Qed.

(** Nothing else is lost: a path without sensitive keys leads to the redacted value. *)
Lemma value_at_kept p : forall v depth v',
  (depth + length p <= MAX_REDACTION_DEPTH)%nat -> existsb sensitive_segment p = false ->
  value_at v p = Some v' ->
  value_at (redact_value_at_depth v depth) p = Some (redact_value_at_depth v' (depth + length p)).
Proof.
  induction p as [|s p IH]; intros v depth v' Hd Hs Hat.
  { injection Hat as ->. by rewrite Nat.add_0_r. }
  cbn [existsb] in Hs. apply orb_false_iff in Hs as [Hseg Hs]. cbn [length] in *.
  rewrite Nat.add_succ_r in *. destruct s as [k|i].
  - destruct v as [| | | | |m]; try done. cbn [value_at] in Hat.
    destruct (redact_object_get m depth k) as (m' & -> & Hget); [lia|]. cbn [value_at].
    rewrite Hget. destruct (map_get k m) as [v1|]; [|done]. cbn [sensitive_segment] in Hseg.
    cbn. rewrite Hseg. by apply (IH v1 (S depth)).
  - destruct v as [| | | |l|]; try done. cbn [value_at] in Hat.
    rewrite redact_unfold, (proj2 (Nat.ltb_ge _ _)) by lia. cbn [value_at].
    rewrite list_lookup_fmap. destruct (l !! i) as [v1|]; [|done].
    by apply (IH v1 (S depth)).
Qed.

Lemma redact_leaf_spec v depth v' :
  (depth <= MAX_REDACTION_DEPTH)%nat -> redact_leaf v = Some v' ->
  redact_value_at_depth v depth = v'.
Proof.
  intros Hd Hl. rewrite redact_unfold, (proj2 (Nat.ltb_ge _ _)) by done.
  destruct v; cbn [redact_leaf] in Hl; congruence.
Qed.

Lemma redact_string_inv v depth text :
  redact_value_at_depth v depth = JString text ->
  text = TRUNCATED \/ exists original, v = JString original /\ text = redact_text original.
Proof.
  rewrite redact_unfold. destruct (_ <? _)%nat; [intros [= <-]; by left|].
  destruct v; intros Heq; try discriminate. injection Heq as <-. eauto.
Qed.

(** C20: Redaction of JSON, path by path: whatever stands under a sensitive key is the
    redaction mark; nothing is nested deeper than the limit; a string in the output is a
    mark, or the redacted text of the string at the same path of the input; and a number,
    flag, null or string at a path without sensitive keys within the limit is still there,
    strings redacted as text. *)
Theorem redacted_json_by_path v p :
  (forall k w, value_at (redact_value v) (p ++ [Key k]) = Some w ->
     is_sensitive_key k = true -> w = JString REDACTED)
  /\ (forall w, value_at (redact_value v) p = Some w ->
        (length p <= S MAX_REDACTION_DEPTH)%nat)
  /\ (forall text, value_at (redact_value v) p = Some (JString text) ->
        text = REDACTED \/ text = TRUNCATED
        \/ exists original, value_at v p = Some (JString original) /\ text = redact_text original)
  /\ (forall leaf leaf', (length p <= MAX_REDACTION_DEPTH)%nat ->
        existsb sensitive_segment p = false ->
        value_at v p = Some leaf -> redact_leaf leaf = Some leaf' ->
        value_at (redact_value v) p = Some leaf').
Proof.
  unfold redact_value. split_and!.
  - intros k w Hat Hk.
    assert (existsb sensitive_segment (p ++ [Key k]) = true) as Hs.
    { rewrite existsb_app. cbn [existsb sensitive_segment]. by rewrite Hk, orb_true_r. }
    apply value_at_redacted in Hat as [| |]; [done|congruence..|lia].
  - intros w Hat. apply value_at_redacted in Hat as [| |]; lia.
  - intros text Hat. apply value_at_redacted in Hat as [p' k' _ Hp Hk' [= ->]|Hd _ [= ->]|v' Hd Hs Hv Hw];
      [by left|by right; left| |lia].
    destruct (redact_string_inv _ _ _ (eq_sym Hw)) as [->|(o & -> & ->)]; eauto.
  - intros leaf leaf' Hd Hs Hat Hl. erewrite value_at_kept by done.
    f_equal. by apply redact_leaf_spec.
Qed.

(** ** What a round of the loops sees *)

(** An occurrence of a marker, in any case. *)
Definition spells (marker c : string) : Prop :=
  to_ascii_lowercase c = to_ascii_lowercase marker.

Lemma spells_length marker c : spells marker c -> String.length c = String.length marker.
Proof.
  unfold spells, to_ascii_lowercase. intros H.
  by rewrite <- (string_map_length ascii_to_lower c), H, string_map_length.
Qed.

Lemma str_drop_take_drop n k s :
  str_take (n + k) s = str_take n s +:+ str_take k (str_drop n s)
  /\ str_drop (n + k) s = str_drop k (str_drop n s).
Proof.
  revert s. induction n as [|n IH]; intros [|c s]; str_simpl; try done.
  - by destruct k.
  - destruct (IH s) as [-> ->]. done.
Qed.

Lemma find_marker marker rest start :
  str_find (to_ascii_lowercase marker) (to_ascii_lowercase rest) = Some start ->
  exists c b, spells marker c /\ str_drop start rest = c +:+ b
    /\ str_take (start + String.length marker) rest = str_take start rest +:+ c
    /\ str_drop (start + String.length marker) rest = b.
Proof.
  intros ((t & Ht) & _ & _)%str_find_Some. unfold to_ascii_lowercase in Ht.
  rewrite <- string_map_drop in Ht. set (tail := str_drop start rest) in *.
  destruct (str_drop_take_drop start (String.length marker) rest) as [-> ->]. fold tail.
  exists (str_take (String.length marker) tail), (str_drop (String.length marker) tail).
  split; [|by rewrite str_take_drop].
  unfold spells, to_ascii_lowercase. rewrite string_map_take, Ht.
  rewrite <- (string_map_length ascii_to_lower marker). apply str_take_app.
Qed.

(** The text a span ends at. *)
Lemma span_ends stop s :
  let y := str_drop (span_until stop s) s in
  y = "" \/ starts_ws y = true \/ exists c t, y = String c t /\ stop c = true.
Proof.
  induction s as [|c s IH]; [by left|]. cbn [span_until].
  destruct (starts_ws (String c s) || stop c) eqn:E; [|done].
  cbn [str_drop]. right. apply orb_true_iff in E as [E|E]; eauto 6.
Qed.

Lemma starts_ws_char s : starts_ws s = true -> starts_char s = true.
Proof.
  destruct s as [|c1 [|c2 [|c3 s]]]; unfold starts_ws, starts_char, ws1, ws2, ws3; try done;
    intros H; bytes.
Qed.

Lemma value_stop_char c : value_stop c = true -> is_continuation c = false.
Proof. unfold value_stop. bytes. Qed.

Lemma token_stop_char c : token_stop c = true -> is_continuation c = false.
Proof. unfold token_stop, value_stop. bytes. Qed.

Lemma span_ends_char stop s :
  (forall c, stop c = true -> is_continuation c = false) ->
  starts_char (str_drop (span_until stop s) s) = true.
Proof.
  intros Hstop. destruct (span_ends stop s) as [->|[H|(c & t & -> & H)]]; [done| |].
  - by apply starts_ws_char.
  - simpl. by rewrite Hstop.
Qed.

(** ** UTF-8 stays UTF-8 *)

Definition is_ascii_text (s : string) : bool := string_forallb (in_byte_range 0 127) s.

Lemma utf8_text_ascii_tail c b :
  is_ascii_text c = true -> utf8_text (c +:+ b) -> utf8_text b.
Proof.
  rewrite <- !utf8_valid_text. induction c as [|x c IH]; [done|].
  unfold is_ascii_text. simpl. intros [Hx Hc]%andb_true_iff. str_simpl. rewrite Hx. by apply IH.
Qed.

Lemma utf8_text_ascii s : is_ascii_text s = true -> utf8_text s.
Proof.
  rewrite <- utf8_valid_text. induction s as [|x s IH]; [done|].
  unfold is_ascii_text. simpl. intros [-> Hs]%andb_true_iff. by apply IH.
Qed.

Lemma ascii_to_lower_ascii c :
  in_byte_range 0 127 (ascii_to_lower c) = in_byte_range 0 127 c.
Proof. destruct c as [[] [] [] [] [] [] [] []]; reflexivity. Qed.

Lemma spells_ascii marker c :
  spells marker c -> is_ascii_text marker = true -> is_ascii_text c = true.
Proof.
  unfold spells, to_ascii_lowercase, is_ascii_text. revert c.
  induction marker as [|x m IH]; intros [|y c]; try done. simpl. intros [= Hh Ht] [Hx Hm]%andb_true_iff.
  apply andb_true_iff. split; [|by apply IH]. by rewrite <- ascii_to_lower_ascii, Hh, ascii_to_lower_ascii.
Qed.

(** Cutting text at an occurrence of an ASCII marker. *)
Lemma utf8_marker marker rest start c b :
  is_ascii_text marker = true -> marker <> "" -> utf8_text rest -> spells marker c ->
  str_drop start rest = c +:+ b ->
  utf8_text (str_take start rest) /\ utf8_text c /\ utf8_text b.
Proof.
  intros Ha Hne Ht Hc Hd. pose proof (spells_ascii _ _ Hc Ha) as Hca.
  rewrite <- (str_take_drop start rest), Hd in Ht.
  apply utf8_text_cut in Ht as [Hl Hr].
  - split; [done|]. split; [by apply utf8_text_ascii|by eapply utf8_text_ascii_tail].
  - apply spells_length in Hc. destruct c as [|x c]; [by destruct marker|].
    unfold is_ascii_text in Hca. simpl in Hca. str_simpl. bytes.
Qed.

Lemma utf8_span stop s :
  (forall c, stop c = true -> is_continuation c = false) -> utf8_text s ->
  utf8_text (str_take (span_until stop s) s) /\ utf8_text (str_drop (span_until stop s) s).
Proof.
  intros Hstop Hs. apply utf8_text_cut; [by rewrite str_take_drop|]. by apply span_ends_char.
Qed.

Lemma REDACTED_text : utf8_text REDACTED.
Proof. by apply utf8_text_ascii. Qed.

Create HintDb utf8.
#[local] Hint Resolve utf8_text_app REDACTED_text value_stop_char token_stop_char : utf8.

(** A body that emits text and leaves text. *)
Definition keeps_utf8 (body : string -> string * option string) : Prop :=
  forall rest, utf8_text rest ->
    utf8_text (body rest).1 /\ from_option utf8_text True (body rest).2.

Lemma while_utf8 body input :
  consumes body -> keeps_utf8 body -> utf8_text input ->
  utf8_text (while_loop body (S (String.length input)) input).
Proof.
  intros Hc Hk. revert input.
  apply (while_loop_ind body (fun rest out => utf8_text rest -> utf8_text out)); [done| |].
  - intros rest emitted Hb Ht. destruct (Hk rest Ht). by rewrite Hb in *.
  - intros rest emitted rest' out Hb IH Ht. destruct (Hk rest Ht). rewrite Hb in *. simpl in *.
    auto with utf8.
Qed.

Section Marker.
Variables (marker : string).
Hypothesis marker_ascii : is_ascii_text marker = true.
Hypothesis marker_nonempty : marker <> "".

Lemma delimited_utf8 : keeps_utf8 (delimited_body marker).
Proof.
  intros rest Ht. unfold delimited_body. case_match eqn:Hf; [|done].
  destruct (find_marker _ _ _ Hf) as (c & b & Hc & Hd & -> & ->).
  destruct (utf8_marker marker rest n c b) as (? & ? & ?); [done..|].
  case_match; simpl; [auto with utf8|].
  destruct (utf8_span value_stop b); auto with utf8.
Qed.

Lemma prefixed_utf8 minimum : keeps_utf8 (prefixed_body marker minimum).
Proof.
  intros rest Ht. unfold prefixed_body. case_match eqn:Hf; [|done].
  destruct (find_marker _ _ _ Hf) as (c & b & Hc & Hd & _ & _).
  destruct (utf8_marker marker rest n c b) as (? & ? & ?); [done..|].
  destruct (utf8_span token_stop (str_drop n rest)) as [Hl Hr];
    [auto with utf8|rewrite Hd; auto with utf8|].
  revert Hl Hr. generalize (span_until token_stop (str_drop n rest)). intros k Hl Hr.
  destruct (str_drop_take_drop n k rest) as [-> ->].
  repeat case_match; simpl; auto with utf8.
Qed.
End Marker.

Lemma redact_text_utf8 input : utf8_text input -> utf8_text (redact_text input).
Proof.
  intros Ht. unfold redact_text.
  assert (forall l s, forallb (fun m => is_ascii_text m && negb (str_is_empty m)) l = true ->
    utf8_text s -> utf8_text (foldl redact_delimited_value s l)) as Hpass.
  { induction l as [|m l IH]; [done|]. simpl. intros s [[Ha Hn]%andb_true_iff Hl]%andb_true_iff Hs.
    apply IH; [done|]. apply while_utf8; [apply delimited_consumes|apply delimited_utf8|done];
      by destruct m. }
  assert (forall l s, forallb (fun mb => is_ascii_text mb.1 && negb (str_is_empty mb.1)) l = true ->
    utf8_text s ->
    utf8_text (foldl (fun out (mb : string * nat) => redact_prefixed_token out mb.1 mb.2) s l))
    as Htoken.
  { induction l as [|[m k] l IH]; [done|]. simpl.
    intros s [[Ha Hn]%andb_true_iff Hl]%andb_true_iff Hs.
    apply IH; [done|]. apply while_utf8; [apply prefixed_consumes|apply prefixed_utf8|done];
      by destruct m. }
  apply Htoken; [done|]. by apply Hpass.
Qed.

(** ** Bounds *)

Lemma floor_boundary_spec input n :
  (floor_boundary input n <= n)%nat /\ is_char_boundary (floor_boundary input n) input = true.
Proof.
  induction n as [|n [IHle IHb]]; [done|]. cbn [floor_boundary].
  destruct (is_char_boundary (S n) input) eqn:E; split; auto; lia.
Qed.

Lemma boundary_starts_char n s :
  utf8_text s -> is_char_boundary n s = true -> starts_char (str_drop n s) = true.
Proof.
  intros Hs. destruct n as [|n]; [intros _; by apply utf8_text_starts|].
  unfold is_char_boundary, starts_char. by destruct (str_drop (S n) s).
Qed.

(** Truncation: short text stays, other text becomes a prefix of whole characters with the
    mark, or a part of the mark where there is no room for it. *)
Inductive truncated (input : string) (max : nat) : string -> Prop :=
| fits : (String.length input <= max)%nat -> truncated input max input
| only_mark n : (max < String.length input)%nat -> truncated input max (str_take n TRUNCATED)
| cut n : (max < String.length input)%nat -> is_char_boundary n input = true ->
    truncated input max (str_take n input +:+ TRUNCATION_MARKER).

Lemma truncate_utf8_spec input max :
  truncated input max (truncate_utf8 input max)
  /\ (String.length (truncate_utf8 input max) <= max)%nat.
Proof.
  unfold truncate_utf8.
  destruct (Nat.leb_spec (String.length input) max); [by split; [constructor|]|].
  destruct (Nat.eqb_spec max 0) as [->|].
  { split; [by apply (only_mark _ _ 0)|done]. }
  destruct (Nat.leb_spec max (String.length TRUNCATION_MARKER)).
  { split; [by constructor|]. rewrite str_length_take. lia. }
  destruct (floor_boundary_spec input (max - String.length TRUNCATION_MARKER)) as [Hle Hb].
  split; [by apply cut|]. rewrite string_length_app, str_length_take. lia.
Qed.

Lemma truncate_utf8_text input max : utf8_text input -> utf8_text (truncate_utf8 input max).
Proof.
  intros Ht. destruct (proj1 (truncate_utf8_spec input max)) as [?|n ?|n ? Hb]; [done| |].
  - apply utf8_text_ascii. do 12 (destruct n as [|n]; [done|]). done.
  - apply utf8_text_app; [|by apply utf8_text_ascii].
    apply (utf8_text_cut _ (str_drop n input)); [by rewrite str_take_drop|].
    by apply boundary_starts_char.
Qed.

(** Redaction and truncation keep text valid UTF-8: every slice of the code is taken at
    a character boundary, so none of them can panic, whatever multi-byte characters
    surround the markers and the cut. *)
Theorem redaction_keeps_utf8 input max :
  utf8_valid input = true ->
  utf8_valid (redact_text input) = true
  /\ utf8_valid (redact_and_bound_text input max) = true.
Proof.
  rewrite !utf8_valid_text. intros Ht. split; [by apply redact_text_utf8|].
  by apply truncate_utf8_text, redact_text_utf8.
Qed.

(** A two-byte character before a marker, in its value and at the cut. *)
Definition umlaut : string :=
  String (Ascii.ascii_of_N 195) (String (Ascii.ascii_of_N 188) "").

Lemma redaction_keeps_utf8_witness :
  redact_and_bound_text (umlaut +:+ "key=" +:+ umlaut +:+ " and a long tail of text") 16
    = umlaut +:+ "ke" +:+ TRUNCATION_MARKER
  /\ utf8_valid (redact_and_bound_text (umlaut +:+ "key=" +:+ umlaut +:+ " and a long tail of text") 16)
     = true.
Proof.
  split; [vm_compute; reflexivity|].
  apply (redaction_keeps_utf8 (umlaut +:+ "key=" +:+ umlaut +:+ " and a long tail of text") 16).
  vm_compute. reflexivity.
Defined.

(** C40: Redacted data fits its limit: redacted text and redacted JSON are never longer than
    the given number of bytes; redacted text within the limit is kept whole, longer text is
    a prefix of it ending at a character boundary, followed by the truncation mark, or only
    (part of) the mark; redacted JSON within the limit is kept whole. *)
Theorem redaction_is_bounded `{JsonText} input max :
  (String.length (redact_and_bound_text input max) <= max)%nat
  /\ (String.length (redact_and_bound_json_text input max) <= max)%nat
  /\ truncated (redact_text input) max (redact_and_bound_text input max)
  /\ forall v, parse_json input = Some v ->
       (String.length (to_json_string (redact_value v)) <= max)%nat ->
       redact_and_bound_json_text input max = to_json_string (redact_value v).
Proof.
  split_and!; try apply truncate_utf8_spec.
  - unfold redact_and_bound_json_text. destruct (parse_json input); [|apply truncate_utf8_spec].
    cbv zeta. destruct (_ <=? max)%nat eqn:E1; [by apply Nat.leb_le|].
    destruct (String.length (to_json_string (truncation_envelope _ _)) <=? max)%nat eqn:E2;
      [by apply Nat.leb_le|].
    destruct (2 <=? max)%nat eqn:E3; [by apply Nat.leb_le in E3|simpl; lia].
  - intros v Hp Hle. unfold redact_and_bound_json_text. rewrite Hp.
    by rewrite (proj2 (Nat.leb_le _ _) Hle).
Qed.

(** ** Marked values do not survive *)

Lemma string_app_eq_app a b a' b' :
  a +:+ b = a' +:+ b' ->
  exists k, (a = a' +:+ k /\ b' = k +:+ b) \/ (a' = a +:+ k /\ b = k +:+ b').
Proof.
  revert a'. induction a as [|x a IH]; intros a' Heq.
  { exists a'. right. by rewrite string_app_nil in Heq. }
  destruct a' as [|y a'].
  { exists (String x a). left. by rewrite string_app_nil in Heq. }
  rewrite !string_app_cons in Heq. injection Heq as -> Heq.
  destruct (IH a' Heq) as [k [[-> ->]|[-> ->]]]; exists k; [left|right]; done.
Qed.

Lemma string_forallb_app p a b :
  string_forallb p (a +:+ b) = string_forallb p a && string_forallb p b.
Proof. induction a as [|c a IH]; str_simpl; [done|]. by rewrite IH, andb_assoc. Qed.

(** A property of the text after each occurrence of a marker. *)
Definition every_value (marker s : string) (P : string -> bool) : bool :=
  forallb (fun i =>
    negb (String.prefix (to_ascii_lowercase marker) (to_ascii_lowercase (str_drop i s)))
    || P (str_drop (i + String.length marker) s)) (seq 0 (S (String.length s))).

Lemma every_value_spec marker s P :
  every_value marker s P = true <->
  forall a c b, s = a +:+ c +:+ b -> spells marker c -> P b = true.
Proof.
  unfold every_value. rewrite forallb_forall. split.
  - intros H a c b -> Hc. specialize (H (String.length a)).
    rewrite <- (spells_length _ _ Hc), (proj2 (str_drop_take_drop _ _ _)), !str_drop_app in H.
    assert (String.prefix (to_ascii_lowercase marker) (to_ascii_lowercase (c +:+ b)) = true) as Hp.
    { apply string_prefix_app. exists (to_ascii_lowercase b). rewrite <- Hc.
      apply string_map_app. }
    rewrite Hp in H. apply H. apply in_seq. rewrite string_length_app. lia.
  - intros H i _. destruct (String.prefix _ _) eqn:Hp; [|done]. simpl.
    apply string_prefix_app in Hp as [t Ht]. unfold to_ascii_lowercase in Ht.
    apply (H (str_take i s) (str_take (String.length marker) (str_drop i s))).
    + by rewrite (proj2 (str_drop_take_drop _ _ _)), !str_take_drop.
    + unfold spells, to_ascii_lowercase. rewrite string_map_take, Ht.
      rewrite <- (string_map_length ascii_to_lower marker). apply str_take_app.
Qed.

(** The value after each occurrence is not empty, and: is the redaction mark. *)
Definition has_value (s : string) : bool := negb (span_until value_stop s =? 0)%nat.
Definition values_present (marker s : string) : bool := every_value marker s has_value.
Definition values_hidden (marker s : string) : bool :=
  every_value marker s (String.prefix REDACTED).

(** Markers end with an equals sign or a space and have no bracket, so that they cannot
    overlap a redaction mark. *)
Definition no_bracket (c : ascii) : bool := negb (byte_of c =? 91)%N && negb (byte_of c =? 93)%N.
Definition is_end (c : ascii) : bool := (byte_of c =? 61)%N || (byte_of c =? 32)%N.

Definition plain (c : string) : Prop :=
  string_forallb no_bracket c = true /\ exists x l, c = x +:+ String l "" /\ is_end l = true.

Definition good_marker (marker : string) : bool :=
  string_forallb no_bracket marker
  && match str_last marker with Some l => is_end l | None => false end.

Lemma lower_no_bracket c : no_bracket (ascii_to_lower c) = no_bracket c.
Proof. destruct c as [[] [] [] [] [] [] [] []]; reflexivity. Qed.

Lemma lower_is_end c : is_end (ascii_to_lower c) = is_end c.
Proof. destruct c as [[] [] [] [] [] [] [] []]; reflexivity. Qed.

Lemma str_last_app s l : str_last s = Some l -> exists x, s = x +:+ String l "".
Proof.
  induction s as [|c s IH]; [done|]. destruct s as [|d s]; intros H.
  - injection H as ->. by exists "".
  - destruct (IH H) as [x ->]. by exists (String c x).
Qed.

Lemma spells_plain marker c : good_marker marker = true -> spells marker c -> plain c.
Proof.
  unfold good_marker, plain, spells, to_ascii_lowercase. intros [Hb Hl]%andb_true_iff Hs.
  assert (string_forallb no_bracket c = true /\
          match str_last c with Some l => is_end l | None => false end = true) as [Hb' Hl'].
  { revert marker Hb Hl Hs. induction c as [|x c IH]; intros [|y m] Hb Hl Hs; try done.
    simpl in Hs. injection Hs as Hh Ht. simpl in Hb. apply andb_true_iff in Hb as [Hy Hb].
    assert (no_bracket x = true) as Hx by (by rewrite <- lower_no_bracket, Hh, lower_no_bracket).
    destruct c as [|x' c], m as [|y' m]; try done.
    - simpl. rewrite Hx. split; [done|]. by rewrite <- lower_is_end, Hh, lower_is_end.
    - destruct (IH _ Hb Hl Ht) as [H1 H2]. split; [|done]. cbn [string_forallb] in *. by rewrite Hx. }
  split; [done|]. destruct (str_last c) as [l|] eqn:El; [|done].
  destruct (str_last_app _ _ El) as [x ->]. by exists x, l.
Qed.

Lemma no_end_in_mark k j x l : REDACTED = k +:+ j -> k = x +:+ String l "" -> is_end l = false.
Proof.
  intros Heq ->.
  assert (string_forallb (fun c => negb (is_end c)) REDACTED = true) as H by done.
  rewrite Heq, !string_forallb_app in H. simpl in H.
  destruct (is_end l); [|done]. by rewrite !andb_false_r in H.
Qed.

Lemma mark_suffix_bracket k y j :
  REDACTED = k +:+ String y j -> string_forallb no_bracket (String y j) = false.
Proof.
  unfold REDACTED. do 10 (destruct k as [|? k]; rewrite ?string_app_nil, ?string_app_cons;
    [intros [= <- <-]; done|intros [= <- Heq]; revert Heq]). intros Heq. by destruct k.
Qed.

(** Where a plain occurrence can stand in a text that continues with the mark. *)
Lemma plain_around_mark A out a c b :
  plain c -> A +:+ REDACTED +:+ out = a +:+ c +:+ b ->
  (exists k, A = a +:+ c +:+ k /\ b = k +:+ REDACTED +:+ out)
  \/ (exists a', a = A +:+ REDACTED +:+ a' /\ out = a' +:+ c +:+ b).
Proof.
  intros [Hb (x & l & Hc & Hl)] Heq. rewrite <- string_app_assoc with (a := a) in Heq.
  destruct (string_app_eq_app _ _ _ _ Heq) as [k [[-> ->]|[Hac Hk]]].
  { left. exists k. by rewrite string_app_assoc. }
  destruct (string_app_eq_app _ _ _ _ (eq_sym Hac)) as [k' [[-> Hk']|[-> ->]]].
  - left. exists "". destruct k as [|y k].
    { rewrite string_app_nil_r in Hk'. subst k'. by rewrite string_app_nil_r. }
    exfalso. assert (no_bracket y = false) as Hy.
    { unfold REDACTED in Hk. str_simpl. by injection Hk as <- _. }
    rewrite Hk', string_forallb_app in Hb. simpl in Hb. rewrite Hy in Hb. by rewrite andb_false_r in Hb.
  - rewrite string_app_assoc in Hk. right.
    destruct (string_app_eq_app _ _ _ _ Hk) as [j [[HR Hcb]|[-> ->]]].
    + destruct j as [|y j].
      { exists "". rewrite string_app_nil_r in HR. subst k'. by rewrite string_app_nil_r. }
      exfalso. destruct (string_app_eq_app _ _ _ _ Hcb) as [z [[Hz _]|[Hz _]]].
      * rewrite Hz, string_forallb_app in Hb. apply andb_true_iff in Hb as [Hb _].
        by rewrite (mark_suffix_bracket k' y j) in Hb.
      * rewrite Hz, <- string_app_assoc in HR.
        rewrite (no_end_in_mark _ z (k' +:+ x) l HR) in Hl; [done|].
        by rewrite Hc, string_app_assoc.
    + by exists j.
Qed.

(** What follows a kept occurrence begins as before. *)
Definition follows (b b' : string) : Prop :=
  (String.prefix REDACTED b' = true -> String.prefix REDACTED b = true)
  /\ (has_value b' = true -> has_value b = true).

Lemma has_value_unfold c s :
  has_value (String c s) = negb (starts_ws (String c s) || value_stop c).
Proof. unfold has_value. cbn [span_until]. by case_match. Qed.

Lemma starts_ws_mark y k out tail :
  starts_ws (String y k +:+ REDACTED +:+ out) = true -> starts_ws (String y k +:+ tail) = true.
Proof.
  unfold REDACTED. destruct k as [|y2 [|y3 k]]; str_simpl; [| |done].
  - assert (forall c, ws2 y "[" = false /\ ws3 y "[" c = false) as Hno.
    { intros c. unfold ws2, ws3. simpl. by rewrite !andb_false_r, !orb_false_r. }
    destruct (Hno "R"%char) as [-> ->]. intros H. by apply orb_true_iff in H as [->|].
  - assert (ws3 y y2 "[" = false) as ->.
    { unfold ws3. simpl. by rewrite !andb_false_r, !orb_false_r. }
    rewrite orb_false_r. intros H. apply orb_true_iff in H as [->| ->]; [done|].
    by rewrite orb_true_r.
Qed.

Lemma follows_before_mark k l x tail out :
  k = x +:+ String l "" -> is_end l = true ->
  follows (k +:+ REDACTED +:+ out) (k +:+ tail).
Proof.
  intros Hk Hl. split.
  - intros [z Hz]%string_prefix_app. apply string_prefix_app.
    destruct (string_app_eq_app _ _ _ _ Hz) as [j [[-> _]|[HR _]]].
    + exists (j +:+ REDACTED +:+ out). by rewrite string_app_assoc.
    + by rewrite (no_end_in_mark _ _ _ _ HR Hk) in Hl.
  - destruct k as [|y k]; [by destruct x|].
    rewrite !string_app_cons, !has_value_unfold, !negb_true_iff, !orb_false_iff.
    rewrite <- !string_app_cons. intros [Hw Hs]. split; [|done].
    apply not_true_iff_false. intros E. apply (starts_ws_mark _ _ _ tail) in E. congruence.
Qed.

Lemma ends_suffix P y k Q l :
  P +:+ String y k = Q +:+ String l "" -> exists x, String y k = x +:+ String l "".
Proof.
  intros Heq. destruct (string_app_eq_app _ _ _ _ Heq) as [j [[-> Hj]|[-> Hj]]]; [|by exists j].
  destruct j as [|z j]; [by exists ""|].
  rewrite string_app_cons in Hj. injection Hj as _ Hj. by destruct j.
Qed.

(** [find] sees every occurrence, and the first one first. *)
Lemma find_first marker a c b :
  spells marker c ->
  exists start, (start <= String.length a)%nat
    /\ str_find (to_ascii_lowercase marker) (to_ascii_lowercase (a +:+ c +:+ b)) = Some start.
Proof.
  intros Hc.
  assert (String.prefix (to_ascii_lowercase marker)
    (str_drop (String.length a) (to_ascii_lowercase (a +:+ c +:+ b))) = true) as Hp.
  { unfold to_ascii_lowercase. rewrite <- string_map_drop, str_drop_app, string_map_app.
    unfold spells, to_ascii_lowercase in Hc. rewrite Hc. apply string_prefix_app. eauto. }
  destruct (str_find _ _) as [start|] eqn:Hf.
  - exists start. split; [|done]. apply str_find_Some in Hf as (_ & _ & Hfirst).
    destruct (Nat.le_gt_cases start (String.length a)); [done|].
    rewrite Hfirst in Hp by done. done.
  - by rewrite (str_find_None _ _ Hf) in Hp.
Qed.

(** One pass: an occurrence of any marker in the output is followed by the mark, or was in
    the input, of another marker, and is followed by the same kind of text. *)
Lemma delimited_occurrences marker marker' input a c b :
  good_marker marker = true -> good_marker marker' = true ->
  values_present marker input = true ->
  redact_delimited_value input marker = a +:+ c +:+ b -> spells marker' c ->
  String.prefix REDACTED b = true
  \/ ~ spells marker c /\ exists a' b', input = a' +:+ c +:+ b' /\ follows b b'.
Proof.
  intros Hm Hm' Hp Hout Hc. pose proof (spells_plain _ _ Hm' Hc) as Hplain.
  revert a Hp Hout. unfold redact_delimited_value. generalize input.
  apply (while_loop_ind (delimited_body marker) (fun rest out => forall a,
    values_present marker rest = true -> out = a +:+ c +:+ b -> 
    String.prefix REDACTED b = true
    \/ ~ spells marker c /\ exists a' b', rest = a' +:+ c +:+ b' /\ follows b b'));
    [apply delimited_consumes| |]; unfold delimited_body.
  - intros rest emitted Hb a Hp ->. case_match eqn:Hf.
    + exfalso. destruct (find_marker _ _ _ Hf) as (c2 & b2 & Hc2 & Hd & _ & Hdr).
      rewrite Hdr in Hb. unfold values_present in Hp. rewrite every_value_spec in Hp.
      specialize (Hp (str_take n rest) c2 b2). rewrite <- Hd, str_take_drop in Hp.
      specialize (Hp eq_refl Hc2). unfold has_value in Hp. by destruct (_ =? 0)%nat.
    + injection Hb as ->. right. split; [|by exists a, b].
      intros Hs. destruct (find_first marker a c b Hs) as (start & _ & Hstart). congruence.
  - intros rest emitted rest' out Hb IH a Hp Hout. case_match eqn:Hf; [|done].
    destruct (find_marker _ _ _ Hf) as (c2 & b2 & Hc2 & Hd & Htk & Hdr). rewrite Htk, Hdr in Hb.
    case_match; [done|]. injection Hb as <- <-.
    assert (rest = str_take n rest +:+ c2 +:+ b2) as Hrest by (by rewrite <- Hd, str_take_drop).
    rewrite string_app_assoc in Hout.
    destruct (plain_around_mark _ _ _ _ _ Hplain Hout) as [(k & HA & ->)|(a' & -> & Hout')].
    + destruct k as [|y k]; [left; rewrite string_app_nil; apply string_prefix_app; eauto|right].
      assert (rest = a +:+ c +:+ String y k +:+ b2) as Hr.
      { rewrite Hrest, <- string_app_assoc, HA. by rewrite !string_app_assoc. }
      split.
      * intros Hs. rewrite Hr in Hf.
        destruct (find_first marker a c (String y k +:+ b2) Hs) as (start & Hle & Hstart).
        rewrite Hf in Hstart. injection Hstart as <-.
        apply (f_equal String.length) in HA. rewrite !string_length_app, str_length_take in HA.
        rewrite (spells_length _ _ Hs), (spells_length _ _ Hc2) in HA. simpl in HA. lia.
      * exists a, (String y k +:+ b2). split; [done|].
        destruct (spells_plain _ _ Hm Hc2) as [_ (x & l & -> & Hl)].
        rewrite <- !string_app_assoc in HA.
        destruct (ends_suffix _ _ _ _ _ (eq_sym HA)) as [x' Hx'].
        by eapply follows_before_mark.
    + destruct (IH a') as [?|[Hn (a2 & b' & Hrest' & Hfol)]]; [|done|by left|].
      * unfold values_present in *. rewrite every_value_spec in *. intros a1 c1 b1 Heq Hs1.
        apply (Hp (str_take n rest +:+ c2 +:+ str_take (span_until value_stop b2) b2 +:+ a1) c1 b1);
          [|done].
        by rewrite !string_app_assoc, <- Heq, str_take_drop.
      * right. split; [done|].
        exists (str_take n rest +:+ c2 +:+ str_take (span_until value_stop b2) b2 +:+ a2), b'.
        split; [|done]. by rewrite !string_app_assoc, <- Hrest', str_take_drop.
Qed.

Lemma delimited_hides marker input :
  good_marker marker = true -> values_present marker input = true ->
  values_hidden marker (redact_delimited_value input marker) = true.
Proof.
  intros Hm Hp. apply every_value_spec. intros a c b Hout Hc.
  by destruct (delimited_occurrences marker marker input a c b) as [?|[? _]].
Qed.

Lemma delimited_keeps marker marker' input :
  good_marker marker = true -> good_marker marker' = true ->
  values_present marker input = true ->
  (values_present marker' input = true ->
   values_present marker' (redact_delimited_value input marker) = true)
  /\ (values_hidden marker' input = true ->
      values_hidden marker' (redact_delimited_value input marker) = true).
Proof.
  intros Hm Hm' Hp. unfold values_present, values_hidden.
  split; rewrite !every_value_spec; intros H a c b Hout Hc;
    destruct (delimited_occurrences marker marker' input a c b)
      as [Hr|[_ (a' & b' & -> & Hr & Hv)]]; eauto.
  apply string_prefix_app in Hr as [t ->]. reflexivity.
Qed.

(** In a text where no marker is followed directly by white space, a delimiter or the
    end, the delimiter passes of [redact_text] leave no marked value: wherever one of the
    twelve markers occurs in the result, in upper or lower case, the redaction mark follows
    it directly. *)
Theorem marked_values_are_hidden input :
  forallb (fun marker => values_present marker input) TEXT_MARKERS = true ->
  forallb (fun marker => values_hidden marker (foldl redact_delimited_value input TEXT_MARKERS))
    TEXT_MARKERS = true.
Proof.
  intros Hp.
  assert (forall l done s, forallb good_marker (done ++ l) = true ->
    forallb (fun m => values_hidden m s) done = true ->
    forallb (fun m => values_present m s) l = true ->
    forallb (fun m => values_hidden m (foldl redact_delimited_value s l)) (done ++ l) = true)
    as Hgen.
  { clear. induction l as [|m l IH]; intros done s Hg Hd Hl; [by rewrite app_nil_r|].
    simpl in Hl. apply andb_true_iff in Hl as [Hm Hl]. rewrite forallb_app in Hg.
    apply andb_true_iff in Hg as [Hgd Hgl]. simpl in Hgl. apply andb_true_iff in Hgl as [Hgm Hgl].
    replace (done ++ m :: l) with ((done ++ [m]) ++ l) by (by rewrite <- app_assoc).
    simpl. apply IH.
    - rewrite !forallb_app. simpl. by rewrite Hgd, Hgm, Hgl.
    - rewrite forallb_app. simpl. rewrite (delimited_hides m s) by done.
      rewrite andb_true_r. rewrite forallb_forall in *. intros m' Hin.
      apply delimited_keeps; auto.
    - rewrite forallb_forall in *. intros m' Hin. apply delimited_keeps; auto. }
  by apply (Hgen TEXT_MARKERS []).
Qed.

(** An input with two marked values and no empty one. *)
Lemma marked_values_are_hidden_witness :
  foldl redact_delimited_value "GET /?Token=abc&key=def done" TEXT_MARKERS
    = "GET /?Token=[REDACTED]&key=[REDACTED] done"
  /\ forallb (fun marker => values_hidden marker
       (foldl redact_delimited_value "GET /?Token=abc&key=def done" TEXT_MARKERS)) TEXT_MARKERS
     = true.
Proof.
  split; [vm_compute; reflexivity|]. apply marked_values_are_hidden. vm_compute. reflexivity.
Defined.

(** A marker with an empty value ends its pass: whatever follows a first
    [password=] with nothing behind it but a space is emitted as it is, so that a later
    password in the same text is left readable, also by the whole of [redact_text]. *)
Theorem empty_value_ends_redaction rest :
  redact_delimited_value ("password= " +:+ rest) "password=" = "password=[REDACTED] " +:+ rest
  /\ redact_text "password= , password=hunter2" = "password=[REDACTED] , password=hunter2".
Proof.
  split; [|vm_compute; reflexivity].
  unfold redact_delimited_value. cbn [while_loop]. unfold delimited_body.
  replace (str_find _ _) with (Some 0%nat); reflexivity.
Qed.
