(* ===== verification/AuditLog.v ===== *)
(** * The desktop's audit log: app/src-tauri/src/audit_service.rs

    Audit events are appended to a JSON-lines file that is rotated into numbered archives.
    Each record carries its sequence number, the MAC of the record before it and its own
    MAC; verification walks the retained files from the oldest archive to the active file.
    A marker in the platform's credential store says that signed history once existed.

    The directory is a map from [AuditPath] to the bytes of the file; [AuditIo] says which
    file operations fail and how many bytes of a failing write reach the file. The
    credential store is part of [Native]. HMAC-SHA256 and serde's parser for records are
    the classes [Hmac] and [AuditCodec]; printing is written out. Constructing an HMAC and
    serializing a record cannot fail, so the two error codes for that have no branch. The
    Windows build is modelled, where the key lives in the credential store. *)

From S2P Require Import Prelude Text Json Redaction.

Definition MAX_AUDIT_FILE_BYTES : Z := 5 * 1024 * 1024.
Definition MAX_AUDIT_ARCHIVES : nat := 3.
Definition AUDIT_INTEGRITY_VERSION : Z := 1.
Definition AUDIT_DETAILS_BYTES : Z := MAX_AUDIT_EVENT_BYTES - 4 * 1024.

(** The three error messages. *)
Inductive AuditError : Type :=
| AUDIT_INTEGRITY_FAILED
| AUDIT_SIGNING_KEY_UNAVAILABLE
| AUDIT_STORAGE_FAILED.

#[global] Instance AuditError_eq_dec : EqDecision AuditError.
Proof. solve_decision. Defined.

(** ** Files *)

(** [events.jsonl] and [events.<index>.jsonl] *)
Inductive AuditPath : Type :=
| Active
| Archive (index : nat).

#[global] Instance AuditPath_eq_dec : EqDecision AuditPath.
Proof. solve_decision. Defined.

#[global] Instance AuditPath_countable : Countable AuditPath.
Proof.
  refine (inj_countable'
    (fun p => match p with Active => None | Archive n => Some n end)
    (fun o => match o with None => Active | Some n => Archive n end) _).
  by intros [].
Defined.

Abbreviation Files := (gmap AuditPath string) (only parsing).

Definition archive_path (index : nat) : AuditPath := Archive index.

Definition exists_file (files : Files) (p : AuditPath) : bool :=
  match files !! p with Some _ => true | None => false end.

(** What the file system does: which operations fail, what the clock prints, and how many
    bytes a failing write leaves ([None]: the write succeeds). *)
Record AuditIo := {
  io_stat_fails : bool;
  io_read_fails : AuditPath -> bool;
  io_remove_fails : AuditPath -> bool;
  io_rename_fails : AuditPath -> bool;
  io_open_fails : bool;
  io_written : option nat;
  io_sync_fails : bool;
  io_now : string;
}.

(** [fs::rename], which replaces the target. *)
Definition rename (from to : AuditPath) (files : Files) : Files :=
  match files !! from with
  | Some content => <[to := content]> (delete from files)
  | None => files
  end.

(** [for index in (1..max_archives).rev()], with the indices that are left *)
Fixpoint shift_archives (io : AuditIo) (indices : list nat) (files : Files)
    : result AuditError unit * Files :=
  match indices with
  | [] => (Ok tt, files)
  | index :: rest =>
      let source := archive_path index in
      if exists_file files source then
        if io_rename_fails io source then (Err AUDIT_STORAGE_FAILED, files)
        else shift_archives io rest (rename source (archive_path (index + 1)) files)
      else shift_archives io rest files
  end.

Definition rotate_if_needed (io : AuditIo) (incoming_bytes max_file_bytes : Z)
    (max_archives : nat) (files : Files) : result AuditError unit * Files :=
  match files !! Active with
  | None => (Ok tt, files)
  | Some content =>
      if io_stat_fails io then (Err AUDIT_STORAGE_FAILED, files)
      else if (sat_add_u64 (str_len content) incoming_bytes <=? max_file_bytes)%Z then
        (Ok tt, files)
      else if (max_archives =? 0)%nat then
        if io_remove_fails io Active then (Err AUDIT_STORAGE_FAILED, files)
        else (Ok tt, delete Active files)
      else
        let oldest := archive_path max_archives in
        if exists_file files oldest && io_remove_fails io oldest then
          (Err AUDIT_STORAGE_FAILED, files)
        else
          let files := delete oldest files in
          match shift_archives io (rev (seq 1 (max_archives - 1))) files with
          | (Err e, files) => (Err e, files)
          | (Ok _, files) =>
              if io_rename_fails io Active then (Err AUDIT_STORAGE_FAILED, files)
              else (Ok tt, rename Active (archive_path 1) files)
          end
  end.

(** ** Records and reports *)

Inductive AuditIntegrityStatus : Type :=
| StatusEmpty
| StatusOk
| StatusLegacy
| StatusTampered
| StatusUnavailable.

Record AuditIntegrityReport := {
  rp_status : AuditIntegrityStatus;
  rp_signed_events : Z;
  rp_legacy_events : Z;
  rp_files_checked : Z;
  rp_first_sequence : option Z;
  rp_last_sequence : option Z;
  rp_chain_complete : bool;
  rp_error_code : option string;
}.

Definition report_empty : AuditIntegrityReport :=
  {| rp_status := StatusEmpty; rp_signed_events := 0; rp_legacy_events := 0;
     rp_files_checked := 0; rp_first_sequence := None; rp_last_sequence := None;
     rp_chain_complete := true; rp_error_code := None |}.

Definition report_failure (status : AuditIntegrityStatus) (error_code : string)
    (files_checked : Z) : AuditIntegrityReport :=
  {| rp_status := status; rp_signed_events := 0; rp_legacy_events := 0;
     rp_files_checked := files_checked; rp_first_sequence := None; rp_last_sequence := None;
     rp_chain_complete := false; rp_error_code := Some error_code |}.

Definition permits_read (report : AuditIntegrityReport) : bool :=
  match rp_status report with
  | StatusEmpty | StatusOk | StatusLegacy => true
  | StatusTampered | StatusUnavailable => false
  end.

Record AuditIntegrityEnvelope := {
  ie_version : Z;
  ie_sequence : Z;
  ie_previous_mac : option string;
  ie_mac : string;
}.

Record SignedAuditRecord := {
  ar_timestamp : string;
  ar_area : string;
  ar_action : string;
  ar_details : Value;
  ar_integrity : AuditIntegrityEnvelope;
}.

#[global] Instance AuditIntegrityEnvelope_eq_dec : EqDecision AuditIntegrityEnvelope.
Proof. solve_decision. Defined.

#[global] Instance SignedAuditRecord_eq_dec : EqDecision SignedAuditRecord.
Proof. solve_decision. Defined.

Definition ar_sequence (r : SignedAuditRecord) : Z := ie_sequence (ar_integrity r).
Definition ar_mac (r : SignedAuditRecord) : string := ie_mac (ar_integrity r).
Definition ar_previous (r : SignedAuditRecord) : option string :=
  ie_previous_mac (ar_integrity r).

Record AuditVerificationState := {
  vs_report : AuditIntegrityReport;
  vs_last_mac : option string;
  vs_active_lines : list string;
}.

(** ** External code *)

(** HMAC-SHA256: the 32 bytes of the tag of a message under a key. *)
Class Hmac := hmac_sha256 : string -> string -> string.

(** The deserializer serde derives for [SignedAuditRecord]. *)
Class AuditCodec := parse_record : string -> option SignedAuditRecord.

(** ** MACs as hexadecimal text *)

Definition encode_byte (c : ascii) : string :=
  String (hex_digit (byte_of c / 16)) (String (hex_digit (byte_of c mod 16)) "").

Fixpoint encode_hex (bytes : string) : string :=
  match bytes with
  | EmptyString => EmptyString
  | String c s => encode_byte c +:+ encode_hex s
  end.

Definition is_lower_hex (c : ascii) : bool := is_ascii_digit c || in_byte_range 97 102 c.

(** The value of a hexadecimal digit. *)
Definition hex_value (c : ascii) : N :=
  if is_ascii_digit c then (byte_of c - 48)%N else (byte_of c - 87)%N.

(** [u8::from_str_radix(.., 16)] of each pair of digits *)
Fixpoint decode_pairs (s : string) : string :=
  match s with
  | String a (String b s') =>
      String (Ascii.ascii_of_N (16 * hex_value a + hex_value b)) (decode_pairs s')
  | _ => EmptyString
  end.

Definition decode_mac (value : string) : option string :=
  if negb (String.length value =? 64)%nat || negb (string_forallb is_lower_hex value) then None
  else Some (decode_pairs value).

(** ** Serialization *)

Section Audit.
Context `{JsonText, Hmac, AuditCodec}.

(** A derived serializer: the fields in order of declaration. *)
Definition print_fields (fields : list (string * string)) : string :=
  "{" +:+ join "," ((fun kv => print_string kv.1 +:+ ":" +:+ kv.2) <$> fields) +:+ "}".

Definition print_option (o : option string) : string :=
  match o with Some s => print_string s | None => "null" end.

Definition print_envelope (ie : AuditIntegrityEnvelope) : string :=
  print_fields [("version", pretty (ie_version ie)); ("sequence", pretty (ie_sequence ie));
                ("previousMac", print_option (ie_previous_mac ie));
                ("mac", print_string (ie_mac ie))].

(** [serde_json::to_string(&record)] *)
Definition print_record (r : SignedAuditRecord) : string :=
  print_fields [("timestamp", print_string (ar_timestamp r)); ("area", print_string (ar_area r));
                ("action", print_string (ar_action r)); ("details", to_json_string (ar_details r));
                ("integrity", print_envelope (ar_integrity r))].

(** The record without its MAC, as it is authenticated. *)
Definition canonical_record (r : SignedAuditRecord) : string :=
  print_fields [("timestamp", print_string (ar_timestamp r)); ("area", print_string (ar_area r));
                ("action", print_string (ar_action r)); ("details", to_json_string (ar_details r));
                ("integrity",
                  print_fields [("version", pretty (ie_version (ar_integrity r)));
                                ("sequence", pretty (ie_sequence (ar_integrity r)));
                                ("previousMac", print_option (ie_previous_mac (ar_integrity r)))])].

Definition calculate_mac (key : string) (r : SignedAuditRecord) : string :=
  encode_hex (hmac_sha256 key (canonical_record r)).

(** ** Verification *)

Definition tampered (error_code : string) (files_checked : Z) : AuditVerificationState :=
  {| vs_report := report_failure StatusTampered error_code files_checked;
     vs_last_mac := None; vs_active_lines := [] |}.

Definition unavailable (error_code : string) (files_checked : Z) : AuditVerificationState :=
  {| vs_report := report_failure StatusUnavailable error_code files_checked;
     vs_last_mac := None; vs_active_lines := [] |}.

(** The retained paths, the oldest archive first. *)
Definition audit_paths (max_archives : nat) : list AuditPath :=
  (archive_path <$> rev (seq 1 max_archives)) ++ [Active].

Definition retained_audit_paths (files : Files) (max_archives : nat) : list AuditPath :=
  filter (fun p => exists_file files p = true) (audit_paths max_archives).

Definition has_audit_history (files : Files) (max_archives : nat) (stat_fails : AuditPath -> bool)
    : bool :=
  existsb (fun p =>
    stat_fails p
    || match files !! p with Some content => (0 <? str_len content)%Z | None => true end)
    (retained_audit_paths files max_archives).

(** The variables of the loop in [verify_chain]. *)
Record Scan := {
  sc_signed_events : Z;
  sc_legacy_events : Z;
  sc_first_sequence : option Z;
  sc_last_sequence : option Z;
  sc_last_mac : option string;
  sc_signed_started : bool;
}.

Definition scan_start : Scan :=
  {| sc_signed_events := 0; sc_legacy_events := 0; sc_first_sequence := None;
     sc_last_sequence := None; sc_last_mac := None; sc_signed_started := false |}.

Definition count_legacy (s : Scan) : Scan :=
  {| sc_signed_events := sc_signed_events s; sc_legacy_events := sc_legacy_events s + 1;
     sc_first_sequence := sc_first_sequence s; sc_last_sequence := sc_last_sequence s;
     sc_last_mac := sc_last_mac s; sc_signed_started := sc_signed_started s |}.

Definition count_signed (r : SignedAuditRecord) (s : Scan) : Scan :=
  {| sc_signed_events := sc_signed_events s + 1; sc_legacy_events := sc_legacy_events s;
     sc_first_sequence :=
       match sc_last_mac s with None => Some (ar_sequence r) | Some _ => sc_first_sequence s end;
     sc_last_sequence := Some (ar_sequence r); sc_last_mac := Some (ar_mac r);
     sc_signed_started := true |}.

Definition legacy_shape_valid (object : Map) : bool :=
  match map_str "timestamp" object, map_str "area" object, map_str "action" object with
  | Some _, Some _, Some _ => true
  | _, _, _ => false
  end.

(** [sequence == 0], or [1] with or more than [1] without a previous MAC *)
Definition invalid_anchor (r : SignedAuditRecord) : bool :=
  (ar_sequence r =? 0)%Z
  || ((ar_sequence r =? 1)%Z && bool_decide (is_Some (ar_previous r)))
  || ((1 <? ar_sequence r)%Z && bool_decide (ar_previous r = None)).

(** The u64 addition [last_sequence.unwrap_or_default() + 1]. *)
Definition next_sequence (s : Scan) : Z := ((default 0%Z (sc_last_sequence s) + 1) mod 2 ^ 64)%Z.

(** A signed line, in a file with the given number. *)
Definition verify_signed (key : string) (n : Z) (s : Scan) (line : string)
    : result AuditVerificationState Scan :=
  r ← ok_or (tampered "audit_invalid_integrity_envelope" n) (parse_record line);
  _ ← guard_err (negb (String.eqb (print_record r) line)) (tampered "audit_noncanonical_record" n);
  _ ← guard_err (negb (ie_version (ar_integrity r) =? AUDIT_INTEGRITY_VERSION)%Z)
        (tampered "audit_unsupported_integrity_version" n);
  _ ← guard_err (invalid_anchor r) (tampered "audit_invalid_sequence_anchor" n);
  actual_mac ← ok_or (tampered "audit_invalid_mac_encoding" n) (decode_mac (ar_mac r));
  _ ← guard_err
        match ar_previous r with
        | Some value => bool_decide (decode_mac value = None)
        | None => false
        end (tampered "audit_invalid_mac_encoding" n);
  _ ← guard_err (negb (String.eqb (hmac_sha256 key (canonical_record r)) actual_mac))
        (tampered "audit_mac_mismatch" n);
  _ ← match sc_last_mac s with
      | Some previous_mac =>
          _ ← guard_err (negb (ar_sequence r =? next_sequence s)%Z)
                (tampered "audit_sequence_gap" n);
          guard_err (negb (bool_decide (ar_previous r = Some previous_mac)))
            (tampered "audit_previous_mac_mismatch" n)
      | None => Ok tt
      end;
  Ok (count_signed r s).

Definition verify_line (key : string) (n : Z) (s : Scan) (line : string)
    : result AuditVerificationState Scan :=
  _ ← guard_err (str_is_empty line) (tampered "audit_empty_record" n);
  object ← ok_or (tampered "audit_malformed_record" n) (parse_json line ≫= as_object);
  if negb (map_has "integrity" object) then
    _ ← guard_err (negb (legacy_shape_valid object)) (tampered "audit_malformed_legacy_record" n);
    _ ← guard_err (sc_signed_started s) (tampered "audit_legacy_after_signed" n);
    Ok (count_legacy s)
  else verify_signed key n s line.

Fixpoint verify_lines (key : string) (n : Z) (s : Scan) (ls : list string)
    : result AuditVerificationState Scan :=
  match ls with
  | [] => Ok s
  | line :: rest => s' ← verify_line key n s line; verify_lines key n s' rest
  end.

(** One retained file; [n] counts it. *)
Definition verify_file (key : string) (n : Z) (s : Scan) (bytes : string)
    : result AuditVerificationState Scan :=
  if str_is_empty bytes then Ok s
  else
    _ ← guard_err (negb (ends_line bytes)) (tampered "audit_truncated_record" n);
    _ ← guard_err (negb (utf8_valid bytes)) (tampered "audit_invalid_encoding" n);
    verify_lines key n s (lines bytes).

Fixpoint verify_files (key : string) (read_fails : AuditPath -> bool) (files : Files) (n : Z)
    (s : Scan) (paths : list AuditPath) : result AuditVerificationState Scan :=
  match paths with
  | [] => Ok s
  | p :: rest =>
      match files !! p with
      | Some bytes =>
          _ ← guard_err (read_fails p) (unavailable "audit_file_unreadable" (n + 1));
          s' ← verify_file key (n + 1) s bytes;
          verify_files key read_fails files (n + 1) s' rest
      | None => Err (unavailable "audit_file_unreadable" (n + 1))
      end
  end.

Definition scan_status (s : Scan) : AuditIntegrityStatus :=
  if (sc_signed_events s =? 0)%Z && (sc_legacy_events s =? 0)%Z then StatusEmpty
  else if (0 <? sc_legacy_events s)%Z then StatusLegacy
  else StatusOk.

Definition verify_chain (read_fails : AuditPath -> bool) (files : Files) (key : string)
    (max_archives : nat) : AuditVerificationState :=
  let paths := retained_audit_paths files max_archives in
  match verify_files key read_fails files 0 scan_start paths with
  | Err failure => failure
  | Ok s =>
      {| vs_report :=
           {| rp_status := scan_status s; rp_signed_events := sc_signed_events s;
              rp_legacy_events := sc_legacy_events s;
              rp_files_checked := Z.of_nat (length paths);
              rp_first_sequence := sc_first_sequence s;
              rp_last_sequence := sc_last_sequence s;
              rp_chain_complete :=
                (sc_legacy_events s =? 0)%Z && (default 1%Z (sc_first_sequence s) =? 1)%Z;
              rp_error_code := None |};
         vs_last_mac := sc_last_mac s;
         vs_active_lines :=
           match files !! Active with Some bytes => lines bytes | None => [] end |}
  end.

(** ** Appending *)

Definition sanitize_details (details : option Value) : Value :=
  let serialized :=
    redact_and_bound_json_text (to_json_string (default JNull details))
      (Z.to_nat AUDIT_DETAILS_BYTES) in
  default JNull (parse_json serialized).

(** The record an append writes after the given last sequence number and MAC. *)
Definition next_record (key now area action : string) (details : option Value) (sequence : Z)
    (last_mac : option string) : SignedAuditRecord :=
  let record mac :=
    {| ar_timestamp := now; ar_area := diagnostic_label area;
       ar_action := diagnostic_label action; ar_details := sanitize_details details;
       ar_integrity :=
         {| ie_version := AUDIT_INTEGRITY_VERSION; ie_sequence := sequence;
            ie_previous_mac := last_mac; ie_mac := mac |} |} in
  record (calculate_mac key (record "")).

(** The verification, the guards and the record of [append_with_key]. *)
Definition prepare_append (io : AuditIo) (files : Files) (key area action : string)
    (details : option Value) (max_archives : nat) : result AuditError SignedAuditRecord :=
  let state := verify_chain (io_read_fails io) files key max_archives in
  _ ← guard_err (negb (permits_read (vs_report state))) AUDIT_INTEGRITY_FAILED;
  let sequence := (default 0%Z (rp_last_sequence (vs_report state)) + 1)%Z in
  _ ← guard_err (u64_max <? sequence)%Z AUDIT_INTEGRITY_FAILED;
  let record := next_record key (io_now io) area action details sequence (vs_last_mac state) in
  _ ← guard_err (MAX_AUDIT_EVENT_BYTES <? str_len (print_record record))%Z AUDIT_STORAGE_FAILED;
  Ok record.

(** Rotation, opening for append, [writeln!] and [sync_data]. *)
Definition store_line (io : AuditIo) (serialized : string) (max_file_bytes : Z)
    (max_archives : nat) (files : Files) : result AuditError unit * Files :=
  match rotate_if_needed io (str_len serialized + 1) max_file_bytes max_archives files with
  | (Err _, files) => (Err AUDIT_STORAGE_FAILED, files)
  | (Ok _, files) =>
      if io_open_fails io then (Err AUDIT_STORAGE_FAILED, files)
      else
        let content := default "" (files !! Active) in
        match io_written io with
        | Some n =>
            (Err AUDIT_STORAGE_FAILED, <[Active := content +:+ str_take n (serialized +:+ nl)]> files)
        | None =>
            let files := <[Active := content +:+ serialized +:+ nl]> files in
            if io_sync_fails io then (Err AUDIT_STORAGE_FAILED, files) else (Ok tt, files)
        end
  end.

Definition append_with_key (io : AuditIo) (files : Files) (key area action : string)
    (details : option Value) (max_file_bytes : Z) (max_archives : nat)
    : result AuditError unit * Files :=
  match prepare_append io files key area action details max_archives with
  | Err e => (Err e, files)
  | Ok record => store_line io (print_record record) max_file_bytes max_archives files
  end.

(** ** The key and the history marker *)

(** The state around the log: its files, the two entries of the credential store and the
    key the process has cached. *)
Record Native := {
  nt_files : Files;
  nt_key_entry : option string;
  nt_history_entry : option string;
  nt_cached_key : option string;
}.

Record NativeIo := {
  ni_lock_poisoned : bool;
  ni_mkdir_fails : bool;
  ni_key_store_fails : bool;      (** opening or reading the key's entry *)
  ni_key_set_fails : bool;
  ni_random : option string;      (** [getrandom::fill] *)
  ni_stat_fails : AuditPath -> bool;
  ni_marker_store_fails : bool;   (** opening or reading the marker's entry *)
  ni_marker_set_fails : bool;     (** in reconciling *)
  ni_marker_update_fails : bool;  (** after an append *)
  ni_read_fails : AuditPath -> bool;
  ni_io : AuditIo;
}.

Definition HISTORY_MARKER : string := "signed-history-present-v1".

Definition set_files (files : Files) (s : Native) : Native :=
  {| nt_files := files; nt_key_entry := nt_key_entry s; nt_history_entry := nt_history_entry s;
     nt_cached_key := nt_cached_key s |}.

Definition set_cached (key : string) (s : Native) : Native :=
  {| nt_files := nt_files s; nt_key_entry := nt_key_entry s;
     nt_history_entry := nt_history_entry s; nt_cached_key := Some key |}.

Definition create_key_if_allowed {A} (has_history : bool) (create : result AuditError A)
    : result AuditError A :=
  if has_history then Err AUDIT_SIGNING_KEY_UNAVAILABLE else create.

(** Returns the key, and the entry a created key was stored under. *)
Definition native_signing_key (io : NativeIo) (s : Native) : result AuditError string * Native :=
  match nt_cached_key s with
  | Some key => (Ok key, s)
  | None =>
      if ni_key_store_fails io then (Err AUDIT_SIGNING_KEY_UNAVAILABLE, s)
      else
        match nt_key_entry s with
        | Some encoded =>
            match decode_mac encoded with
            | Some key => (Ok key, set_cached key s)
            | None => (Err AUDIT_SIGNING_KEY_UNAVAILABLE, s)
            end
        | None =>
            match create_key_if_allowed
                    (has_audit_history (nt_files s) MAX_AUDIT_ARCHIVES (ni_stat_fails io))
                    (key ← ok_or AUDIT_SIGNING_KEY_UNAVAILABLE (ni_random io);
                     _ ← guard_err (ni_key_set_fails io) AUDIT_SIGNING_KEY_UNAVAILABLE;
                     Ok key) with
            | Err e => (Err e, s)
            | Ok key =>
                (Ok key,
                 {| nt_files := nt_files s; nt_key_entry := Some (encode_hex key);
                    nt_history_entry := nt_history_entry s; nt_cached_key := Some key |})
            end
        end
  end.

Definition native_history_marker (io : NativeIo) (s : Native) : result AuditError bool :=
  if ni_marker_store_fails io then Err AUDIT_SIGNING_KEY_UNAVAILABLE
  else
    match nt_history_entry s with
    | Some value =>
        if String.eqb value HISTORY_MARKER then Ok true else Err AUDIT_SIGNING_KEY_UNAVAILABLE
    | None => Ok false
    end.

Definition persist_native_history_marker (set_fails : bool) (s : Native)
    : result AuditError unit * Native :=
  if set_fails then (Err AUDIT_SIGNING_KEY_UNAVAILABLE, s)
  else
    (Ok tt,
     {| nt_files := nt_files s; nt_key_entry := nt_key_entry s;
        nt_history_entry := Some HISTORY_MARKER; nt_cached_key := nt_cached_key s |}).

Definition reconcile_history_marker (io : NativeIo) (report : AuditIntegrityReport)
    (marker_present : bool) (s : Native) : AuditIntegrityReport * Native :=
  if negb (permits_read report) then (report, s)
  else if marker_present && (rp_signed_events report =? 0)%Z then
    (report_failure StatusTampered "audit_signed_history_missing" (rp_files_checked report), s)
  else if negb marker_present && (0 <? rp_signed_events report)%Z then
    match persist_native_history_marker (ni_marker_set_fails io) s with
    | (Ok _, s) => (report, s)
    | (Err _, s) =>
        (report_failure StatusUnavailable "audit_history_marker_unavailable"
           (rp_files_checked report), s)
    end
  else (report, s).

Definition verify_native_state (io : NativeIo) (s : Native) : AuditVerificationState * Native :=
  match native_signing_key io s with
  | (Err _, s) => (unavailable "audit_signing_key_unavailable" 0, s)
  | (Ok key, s) =>
      match native_history_marker io s with
      | Err _ => (unavailable "audit_history_marker_unavailable" 0, s)
      | Ok marker_present =>
          let state := verify_chain (ni_read_fails io) (nt_files s) key MAX_AUDIT_ARCHIVES in
          let '(report, s) := reconcile_history_marker io (vs_report state) marker_present s in
          ({| vs_report := report; vs_last_mac := vs_last_mac state;
              vs_active_lines :=
                if permits_read report then vs_active_lines state else [] |}, s)
      end
  end.

Definition verify_audit_integrity (io : NativeIo) (s : Native) : AuditIntegrityReport * Native :=
  if ni_lock_poisoned io then
    (report_failure StatusUnavailable "audit_writer_lock_unavailable" 0, s)
  else
    let '(state, s) := verify_native_state io s in (vs_report state, s).

Definition verified_audit_tail (io : NativeIo) (limit : nat) (s : Native)
    : result AuditError (AuditIntegrityReport * list string) * Native :=
  if ni_lock_poisoned io then (Err AUDIT_STORAGE_FAILED, s)
  else
    let '(state, s) := verify_native_state io s in
    let active_lines := vs_active_lines state in
    (Ok (vs_report state,
         if permits_read (vs_report state)
         then drop (length active_lines - limit) active_lines
         else []), s).

Definition append_legacy_event (io : NativeIo) (area action : string) (details : option Value)
    (s : Native) : result AuditError unit * Native :=
  if ni_lock_poisoned io then (Err AUDIT_STORAGE_FAILED, s)
  else if ni_mkdir_fails io then (Err AUDIT_STORAGE_FAILED, s)
  else
    match native_signing_key io s with
    | (Err e, s) => (Err e, s)
    | (Ok key, s) =>
        match native_history_marker io s with
        | Err e => (Err e, s)
        | Ok marker_present =>
            let state := verify_chain (ni_read_fails io) (nt_files s) key MAX_AUDIT_ARCHIVES in
            let '(report, s) := reconcile_history_marker io (vs_report state) marker_present s in
            if negb (permits_read report) then (Err AUDIT_INTEGRITY_FAILED, s)
            else
              match append_with_key (ni_io io) (nt_files s) key area action details
                      MAX_AUDIT_FILE_BYTES MAX_AUDIT_ARCHIVES with
              | (Err e, files) => (Err e, set_files files s)
              | (Ok _, files) =>
                  persist_native_history_marker (ni_marker_update_fails io) (set_files files s)
              end
        end
    end.
End Audit.
