(* ===== verification/AuditProperties.v ===== *)
(** * Theorems about the audit log

    Verification accepts exactly the well-formed logs; what it accepts is a contiguous part
    of what was appended under the key, provided no tag was forged; appends keep the log
    verified through rotation and through failing file operations; a torn write and a
    deleted history are noticed and block further appends. *)

From S2P Require Import Prelude Text Json Redaction RedactionProperties AuditLog.

(** ** Hexadecimal MACs *)

Lemma decode_encode_byte c s : decode_pairs (encode_byte c +:+ s) = String c (decode_pairs s).
Proof. destruct c as [[] [] [] [] [] [] [] []]; reflexivity. Qed.

Lemma encode_byte_hex c : string_forallb is_lower_hex (encode_byte c) = true.
Proof. destruct c as [[] [] [] [] [] [] [] []]; reflexivity. Qed.

Lemma encode_hex_length b : String.length (encode_hex b) = (2 * String.length b)%nat.
Proof. induction b as [|c b IH]; [done|]. cbn [encode_hex]. rewrite string_length_app, IH. simpl. lia. Qed.

Lemma encode_hex_lower b : string_forallb is_lower_hex (encode_hex b) = true.
Proof.
  induction b as [|c b IH]; [done|]. cbn [encode_hex].
  by rewrite string_forallb_app, encode_byte_hex, IH.
Qed.

Lemma decode_pairs_encode b : decode_pairs (encode_hex b) = b.
Proof.
  induction b as [|c b IH]; [done|]. cbn [encode_hex]. by rewrite decode_encode_byte, IH.
Qed.

Lemma decode_encode b : String.length b = 32%nat -> decode_mac (encode_hex b) = Some b.
Proof.
  intros Hb. unfold decode_mac. by rewrite encode_hex_length, Hb, encode_hex_lower, decode_pairs_encode.
Qed.

Lemma hex_value_digit c : is_lower_hex c = true -> hex_digit (hex_value c) = c.
Proof. destruct c as [[] [] [] [] [] [] [] []]; intros H; try discriminate H; reflexivity. Qed.

Lemma hex_value_range c : is_lower_hex c = true -> (hex_value c < 16)%N.
Proof. unfold is_lower_hex, hex_value, is_ascii_digit. intros H. case_match; bytes. Qed.

Lemma encode_decode_pair a b :
  is_lower_hex a = true -> is_lower_hex b = true ->
  encode_byte (Ascii.ascii_of_N (16 * hex_value a + hex_value b)) = String a (String b "").
Proof.
  intros Ha Hb. pose proof (hex_value_range a Ha). pose proof (hex_value_range b Hb).
  unfold encode_byte, byte_of. rewrite Ascii.N_ascii_embedding by lia.
  replace ((16 * hex_value a + hex_value b) / 16)%N with (hex_value a)
    by (apply (N.div_unique _ _ _ (hex_value b)); lia).
  replace ((16 * hex_value a + hex_value b) mod 16)%N with (hex_value b)
    by (apply (N.mod_unique _ _ (hex_value a)); lia).
  by rewrite !hex_value_digit.
Qed.

Lemma encode_decode_pairs n s :
  String.length s = (2 * n)%nat -> string_forallb is_lower_hex s = true ->
  encode_hex (decode_pairs s) = s /\ String.length (decode_pairs s) = n.
Proof.
  revert s; induction n as [|n IH]; intros s Hn Hs; [by destruct s|].
  destruct s as [|a [|b s]]; try (simpl in Hn; lia). cbn [string_forallb] in Hs.
  apply andb_true_iff in Hs as [Ha [Hb Hs]%andb_true_iff]. cbn [decode_pairs encode_hex].
  destruct (IH s) as [-> Hl]; [simpl in Hn; lia|done|].
  rewrite encode_decode_pair by done. simpl. by rewrite Hl.
Qed.

Lemma encode_decode s b : decode_mac s = Some b -> encode_hex b = s /\ String.length b = 32%nat.
Proof.
  unfold decode_mac. case_match eqn:E; [done|]. intros [= <-].
  apply orb_false_iff in E as [Hl Hs]. rewrite negb_false_iff in *. apply Nat.eqb_eq in Hl.
  by apply (encode_decode_pairs 32).
Qed.

(** MACs survive their hexadecimal form in both directions: 32 bytes decode to
    themselves after encoding, and a text that decodes is exactly the encoding of the 32
    bytes it decodes to, so that no two texts stand for the same MAC. *)
Theorem mac_text_round_trip :
  (forall bytes, String.length bytes = 32%nat -> decode_mac (encode_hex bytes) = Some bytes)
  /\ (forall text bytes, decode_mac text = Some bytes ->
        encode_hex bytes = text /\ String.length bytes = 32%nat).
Proof. split; [apply decode_encode|apply encode_decode]. Qed.

(** ** What verification accepts *)

Section Audit.
Context `{JsonText, Hmac, AuditCodec}.

(** serde_json reads the line of the record back, as the record and as an object. *)
Definition reads_back (r : SignedAuditRecord) : Prop :=
  parse_record (print_record r) = Some r
  /\ exists m, parse_json (print_record r) = Some (JObject m) /\ map_has "integrity" m = true.

(** A record that is valid on its own. *)
Record authentic (key : string) (r : SignedAuditRecord) : Prop := {
  au_reads_back : reads_back r;
  au_version : ie_version (ar_integrity r) = AUDIT_INTEGRITY_VERSION;
  au_anchor : invalid_anchor r = false;
  au_mac : decode_mac (ar_mac r) = Some (hmac_sha256 key (canonical_record r));
  au_previous : forall m, ar_previous r = Some m -> decode_mac m <> None;
}.

Definition legacy_line (line : string) : Prop :=
  line <> ""
  /\ exists m, parse_json line = Some (JObject m) /\ map_has "integrity" m = false
       /\ legacy_shape_valid m = true.

(** The record continues the chain that ends with the last one. *)
Definition links (last : option SignedAuditRecord) (r : SignedAuditRecord) : Prop :=
  match last with
  | None => True
  | Some p => ar_sequence r = ((ar_sequence p + 1) mod 2 ^ 64)%Z /\ ar_previous r = Some (ar_mac p)
  end.

Fixpoint linked (last : option SignedAuditRecord) (l : list SignedAuditRecord) : Prop :=
  match l with
  | [] => True
  | r :: l' => links last r /\ linked (Some r) l'
  end.

(** The scan after so many legacy lines and these records. *)
Definition scan_of (legacy : Z) (signed : list SignedAuditRecord) : Scan :=
  {| sc_signed_events := Z.of_nat (length signed); sc_legacy_events := legacy;
     sc_first_sequence := ar_sequence <$> head signed;
     sc_last_sequence := ar_sequence <$> last signed;
     sc_last_mac := ar_mac <$> last signed;
     sc_signed_started := negb (bool_decide (signed = [])) |}.

Lemma count_signed_of legacy signed r :
  count_signed r (scan_of legacy signed) = scan_of legacy (signed ++ [r]).
Proof.
  unfold count_signed, scan_of. cbn. f_equal.
  - rewrite length_app. simpl. lia.
  - destruct signed as [|p signed]; [done|].
    destruct (last (p :: signed)) eqn:E; [done|]. by apply last_None in E.
  - by rewrite last_snoc.
  - by rewrite last_snoc.
  - by destruct signed.
Qed.

Lemma link_check n legacy signed r u :
  match sc_last_mac (scan_of legacy signed) with
  | Some previous_mac =>
      _ ← guard_err (negb (ar_sequence r =? next_sequence (scan_of legacy signed))%Z)
            (tampered "audit_sequence_gap" n);
      guard_err (negb (bool_decide (ar_previous r = Some previous_mac)))
        (tampered "audit_previous_mac_mismatch" n)
  | None => Ok tt
  end = Ok u <-> links (last signed) r.
Proof.
  destruct u. unfold next_sequence. simpl. destruct (last signed) as [p|]; [|done]. simpl.
  case (Z.eqb_spec (ar_sequence r) ((ar_sequence p + 1) mod 2 ^ 64)); intros ?;
    case_bool_decide; simpl; split; try done; intros [? ?]; done.
Qed.

Lemma previous_check (previous : option string) :
  match previous with
  | Some value => bool_decide (decode_mac value = None)
  | None => false
  end = false <-> forall m, previous = Some m -> decode_mac m <> None.
Proof.
  destruct previous as [m|]; [|done]. rewrite bool_decide_eq_false. split; [|by auto].
  by intros Hm ? [= <-].
Qed.

Lemma verify_signed_spec key n legacy signed line s' :
  verify_signed key n (scan_of legacy signed) line = Ok s' <->
  exists r, parse_record line = Some r /\ line = print_record r
    /\ ie_version (ar_integrity r) = AUDIT_INTEGRITY_VERSION
    /\ invalid_anchor r = false
    /\ decode_mac (ar_mac r) = Some (hmac_sha256 key (canonical_record r))
    /\ (forall m, ar_previous r = Some m -> decode_mac m <> None)
    /\ links (last signed) r /\ s' = scan_of legacy (signed ++ [r]).
Proof.
  unfold verify_signed. split.
  - intros Hv. bind_steps Hv. exists a. rewrite !negb_false_iff in *.
    apply String.eqb_eq in E0, E5. apply Z.eqb_eq in E1.
    rewrite link_check in E6. rewrite previous_check in E4. injection Hv as <-.
    rewrite count_signed_of. split_and!; first [done|congruence].
  - intros (r & Hp & -> & Hv & Ha & Hm & Hprev & Hl & ->).
    apply previous_check in Hprev. apply (link_check n legacy signed r tt) in Hl.
    rewrite Hp. cbn [ok_or mbind result_bind]. rewrite String.eqb_refl, Hv, Ha, Hm.
    cbn [negb guard_err mbind result_bind ok_or Z.eqb].
    rewrite Hprev. cbn [guard_err mbind result_bind]. rewrite String.eqb_refl.
    cbn [negb guard_err mbind result_bind]. rewrite Hl. cbn [mbind result_bind].
    by rewrite count_signed_of.
Qed.

(** A line the scan accepts is a legacy line before all signed ones, or an authentic record
    that continues the chain. *)
Lemma verify_line_spec key n legacy signed line s' :
  verify_line key n (scan_of legacy signed) line = Ok s' <->
  (legacy_line line /\ signed = [] /\ s' = scan_of (legacy + 1) [])
  \/ (exists r, line = print_record r /\ authentic key r /\ links (last signed) r
       /\ s' = scan_of legacy (signed ++ [r])).
Proof.
  unfold verify_line. split.
  - intros Hv. bind_steps Hv. destruct line as [|c line]; [done|].
    destruct (parse_json (String c line)) as [v|] eqn:Hj; [|done].
    destruct v as [| | | | |m]; try done. injection E0 as <-.
    destruct (map_has "integrity" m) eqn:Hi; cbn [negb] in Hv.
    + right. apply verify_signed_spec in Hv as (r & Hp & Hl & ? & ? & ? & ? & ? & ?).
      exists r. split_and!; try done. rewrite Hl in *. split; try done.
      split; [done|]. eauto.
    + left. bind_steps Hv. injection Hv as <-. simpl in E1. rewrite negb_false_iff in *.
      apply bool_decide_eq_true in E1 as ->. split_and!; [|done|done]. split; [done|]. eauto.
  - intros [([Hne (m & Hj & Hi & Hl)] & -> & ->)|(r & -> & [[Hp (m & Hj & Hi)] ? ? ? ?] & Hl & ->)].
    + rewrite Hj. destruct line; [done|]. simpl. rewrite Hi, Hl. reflexivity.
    + rewrite Hj. simpl. rewrite Hi. cbn [negb]. apply verify_signed_spec. by exists r.
Qed.

Lemma verify_lines_spec key n ls : forall legacy signed s',
  verify_lines key n (scan_of legacy signed) ls = Ok s' <->
  exists legacy' signed',
    ls = legacy' ++ (print_record <$> signed') /\ (signed <> [] -> legacy' = [])
    /\ Forall legacy_line legacy' /\ Forall (authentic key) signed'
    /\ linked (last signed) signed'
    /\ s' = scan_of (legacy + Z.of_nat (length legacy')) (signed ++ signed').
Proof.
  induction ls as [|line ls IH]; intros legacy signed s'; cbn [verify_lines].
  { split.
    - intros [= <-]. exists [], []. split_and!; try done; try constructor.
      by rewrite app_nil_r, Z.add_0_r.
    - intros (l & k & Hnil & _ & _ & _ & _ & ->). symmetry in Hnil.
      apply app_eq_nil in Hnil as [-> Hk%fmap_nil_inv]. subst. by rewrite app_nil_r, Z.add_0_r. }
  rewrite result_bind_Ok. split.
  - intros (s & Hline & Hls).
    apply verify_line_spec in Hline as [(Hl & -> & ->)|(r & -> & Ha & Hlink & ->)];
      apply IH in Hls as (l & k & -> & Hno & Hl' & Hk & Hlk & ->).
    + exists (line :: l), k. split_and!; try done; [by constructor|].
      f_equal. simpl. lia.
    + assert (l = []) as -> by (apply Hno; by destruct signed).
      exists [], (r :: k). split_and!; try done; [by constructor| |].
      * split; [done|]. by rewrite last_snoc in Hlk.
      * simpl. by rewrite <- app_assoc.
  - intros (l & k & Hls & Hno & Hl & Hk & Hlk & ->). destruct l as [|line' l].
    + destruct k as [|r k]; [done|]. simpl in Hls. injection Hls as -> ->.
      exists (scan_of legacy (signed ++ [r])). split.
      * apply verify_line_spec. right. exists r. inversion Hk; subst. by destruct Hlk.
      * apply IH. exists [], k. inversion Hk; subst. destruct Hlk. rewrite last_snoc, <- app_assoc.
        split_and!; try done. 
    + simpl in Hls. injection Hls as -> ->. inversion Hl; subst.
      destruct signed as [|p signed]; [|by specialize (Hno ltac:(done))].
      exists (scan_of (legacy + 1) []). split.
      * apply verify_line_spec. by left.
      * apply IH. exists l, k. split_and!; try done. f_equal. simpl. lia.
Qed.

Lemma verify_lines_app key n s a b :
  verify_lines key n s (a ++ b) = (verify_lines key n s a ≫= fun s' => verify_lines key n s' b).
Proof.
  revert s; induction a as [|line a IH]; intros s; [done|]. simpl.
  destruct (verify_line key n s line); [apply IH|done].
Qed.

(** The scan does not depend on the number of the file. *)
Lemma verify_lines_number key n m legacy signed ls s' :
  verify_lines key n (scan_of legacy signed) ls = Ok s' ->
  verify_lines key m (scan_of legacy signed) ls = Ok s'.
Proof. by rewrite !verify_lines_spec. Qed.

(** A file is empty, or complete lines of UTF-8. *)
Definition complete_text (bytes : string) : Prop :=
  bytes = "" \/ ends_line bytes = true /\ utf8_valid bytes = true.

Lemma verify_file_spec key n s bytes s' :
  verify_file key n s bytes = Ok s' <->
  complete_text bytes /\ verify_lines key n s (lines bytes) = Ok s'.
Proof.
  unfold verify_file, complete_text. destruct bytes as [|c bytes]; [naive_solver|].
  set (b := String c bytes). cbn [str_is_empty b]. fold b.
  destruct (ends_line b), (utf8_valid b); simpl; split; try done;
    try (intros [[?|[? ?]] ?]; done). intros ?. split; [by right|done].
Qed.

Definition good_file (read_fails : AuditPath -> bool) (files : gmap AuditPath string)
    (p : AuditPath) : Prop :=
  exists bytes, files !! p = Some bytes /\ read_fails p = false /\ complete_text bytes.

(** The lines of the files at some paths. *)
Definition lines_at (files : gmap AuditPath string) (paths : list AuditPath) : list string :=
  concat (lines <$> omap (fun p => files !! p) paths).

Lemma lines_at_cons files p paths :
  lines_at files (p :: paths)
  = match files !! p with Some bytes => lines bytes | None => [] end ++ lines_at files paths.
Proof. unfold lines_at. simpl. by destruct (files !! p). Qed.

Lemma verify_files_spec key rf files n paths : forall legacy signed s',
  verify_files key rf files n (scan_of legacy signed) paths = Ok s' <->
  Forall (good_file rf files) paths
  /\ verify_lines key 0 (scan_of legacy signed) (lines_at files paths) = Ok s'.
Proof.
  revert n. induction paths as [|p paths IH]; intros n legacy signed s'.
  { simpl. split; [by intros [= <-]|by intros [_ [= <-]]]. }
  rewrite lines_at_cons, verify_lines_app, Forall_cons. cbn [verify_files]. unfold good_file at 1.
  destruct (files !! p) as [bytes|]; [|split; [done|by intros [[(? & ? & _) _] _]]].
  rewrite result_bind_Ok. split.
  - intros ([] & Hrf%guard_err_Ok & Hv). bind_steps Hv.
    apply verify_file_spec in E as [Hb Hl]. apply (verify_lines_number key _ 0) in Hl. rewrite Hl.
    apply verify_lines_spec in Hl as (l & k & _ & _ & _ & _ & _ & ->).
    apply IH in Hv as [Hps Hv]. split; [|done]. split; [by eauto|done].
  - intros [[(b & [= <-] & Hrf & Hb) Hps] Hv]. exists tt.
    rewrite guard_err_Ok. split; [done|]. bind_steps Hv. apply result_bind_Ok. exists a.
    split; [apply verify_file_spec; split; [done|by eapply verify_lines_number]|].
    apply verify_lines_spec in E as (l & k & _ & _ & _ & _ & _ & ->). by apply IH.
Qed.

(** ** Well-formed logs *)

(** The retained files hold these legacy lines and then these records. *)
Record well_formed (key : string) (files : gmap AuditPath string) (max : nat)
    (legacy : list string) (signed : list SignedAuditRecord) : Prop := {
  wf_complete : forall p bytes, p ∈ audit_paths max -> files !! p = Some bytes -> complete_text bytes;
  wf_lines : lines_at files (audit_paths max) = legacy ++ (print_record <$> signed);
  wf_legacy : Forall legacy_line legacy;
  wf_signed : Forall (authentic key) signed;
  wf_linked : linked None signed;
}.

(** The report on a log with these events. *)
Definition log_report (files : gmap AuditPath string) (max : nat) (legacy : list string)
    (signed : list SignedAuditRecord) : AuditIntegrityReport :=
  {| rp_status :=
       match legacy, signed with
       | [], [] => StatusEmpty
       | [], _ => StatusOk
       | _, _ => StatusLegacy
       end;
     rp_signed_events := Z.of_nat (length signed);
     rp_legacy_events := Z.of_nat (length legacy);
     rp_files_checked := Z.of_nat (length (retained_audit_paths files max));
     rp_first_sequence := ar_sequence <$> head signed;
     rp_last_sequence := ar_sequence <$> last signed;
     rp_chain_complete :=
       bool_decide (legacy = []) && bool_decide (default 1%Z (ar_sequence <$> head signed) = 1%Z);
     rp_error_code := None |}.

Lemma lines_at_retained files max :
  lines_at files (retained_audit_paths files max) = lines_at files (audit_paths max).
Proof.
  unfold retained_audit_paths. induction (audit_paths max) as [|p ps IH]; [done|].
  rewrite filter_cons. unfold exists_file at 1. case_decide as Hp; rewrite !lines_at_cons, <- IH.
  - done.
  - by destruct (files !! p).
Qed.

Lemma retained_good rf files max :
  (forall p, p ∈ audit_paths max -> exists_file files p = true -> rf p = false) ->
  Forall (good_file rf files) (retained_audit_paths files max) <->
  (forall p bytes, p ∈ audit_paths max -> files !! p = Some bytes -> complete_text bytes).
Proof.
  intros Hrf. unfold retained_audit_paths. rewrite Forall_forall. split.
  - intros Hg p bytes Hin Hp. destruct (Hg p) as (b & Hb & _ & Hc); [|congruence].
    apply list_elem_of_filter. split; [|done]. unfold exists_file. by rewrite Hp.
  - intros Hg p [He Hin]%list_elem_of_filter. specialize (Hrf p Hin He). unfold exists_file in He.
    destruct (files !! p) as [bytes|] eqn:Hp; [|done]. exists bytes. eauto.
Qed.

Lemma Z_eqb_decide a b : bool_decide (a = b) = (a =? b)%Z.
Proof. by case_bool_decide as Hd; symmetry; [apply Z.eqb_eq|apply Z.eqb_neq]. Qed.

Lemma scan_status_of (legacy : list string) signed :
  scan_status (scan_of (Z.of_nat (length legacy)) signed)
  = match legacy, signed with [], [] => StatusEmpty | [], _ => StatusOk | _, _ => StatusLegacy end.
Proof. unfold scan_status. by destruct legacy, signed. Qed.

(** Failures of the scan are failures. *)
Lemma verify_line_error key n s line e :
  verify_line key n s line = Err e -> permits_read (vs_report e) = false.
Proof.
  unfold verify_line, verify_signed, guard_err, ok_or.
  repeat match goal with
  | |- context [if ?b then _ else _] => destruct b; cbn [mbind result_bind]; try (by intros [= <-])
  | |- context [match ?o with Some _ => _ | None => _ end] =>
      destruct o; cbn [mbind result_bind]; try (by intros [= <-])
  end; done.
Qed.

Lemma verify_files_error key rf files n s paths e :
  verify_files key rf files n s paths = Err e -> permits_read (vs_report e) = false.
Proof.
  revert n s. induction paths as [|p paths IH]; intros n s; [done|]. cbn [verify_files].
  destruct (files !! p) as [bytes|]; [|by intros [= <-]].
  destruct (rf p); [by intros [= <-]|]. cbn [guard_err mbind result_bind].
  destruct (verify_file key (n + 1) s bytes) as [s'|e'] eqn:Hf; [apply IH|]. intros [= <-].
  revert Hf. unfold verify_file. destruct (str_is_empty bytes); [done|].
  destruct (negb (ends_line bytes)); [by intros [= <-]|].
  destruct (negb (utf8_valid bytes)); [by intros [= <-]|]. cbn [guard_err mbind result_bind].
  clear. revert s. induction (lines bytes) as [|line ls IH]; intros s; [done|]. simpl.
  destruct (verify_line key (n + 1) s line) eqn:E; [apply IH|]. intros [= <-].
  by eapply verify_line_error.
Qed.

Lemma verify_chain_accepts rf files key max legacy signed :
  (forall p, p ∈ audit_paths max -> exists_file files p = true -> rf p = false) ->
  well_formed key files max legacy signed ->
  vs_report (verify_chain rf files key max) = log_report files max legacy signed
  /\ vs_last_mac (verify_chain rf files key max) = ar_mac <$> last signed.
Proof.
  intros Hrf [Hc Hl Hleg Hs Hk]. unfold verify_chain.
  assert (verify_files key rf files 0 (scan_of 0 []) (retained_audit_paths files max)
          = Ok (scan_of (Z.of_nat (length legacy)) signed)) as Hv.
  { apply verify_files_spec. split; [by apply retained_good|].
    rewrite lines_at_retained, Hl. apply verify_lines_spec. exists legacy, signed.
    split_and!; try done. }
  change scan_start with (scan_of 0 []). rewrite Hv. split; [|done].
  unfold log_report. cbn [vs_report]. rewrite scan_status_of. f_equal; try done.
  cbn. destruct legacy; [|done]. cbn. destruct (ar_sequence <$> head signed); [|done]. simpl.
  symmetry. apply Z_eqb_decide.
Qed.

Lemma verify_chain_sound rf files key max :
  permits_read (vs_report (verify_chain rf files key max)) = true ->
  exists legacy signed, well_formed key files max legacy signed.
Proof.
  unfold verify_chain. destruct (verify_files _ _ _ _ _ _) as [s|e] eqn:Hv.
  2: { intros Hp. by rewrite (verify_files_error _ _ _ _ _ _ _ Hv) in Hp. }
  intros _. change scan_start with (scan_of 0 []) in Hv.
  apply verify_files_spec in Hv as [Hg Hl]. rewrite lines_at_retained in Hl.
  apply verify_lines_spec in Hl as (legacy & signed & Heq & _ & ? & ? & ? & _).
  exists legacy, signed. split; try done.
  intros p bytes Hin Hp. rewrite Forall_forall in Hg.
  destruct (Hg p) as (b & Hb & _ & Hc); [|congruence].
  apply list_elem_of_filter. split; [|done]. unfold exists_file. by rewrite Hp.
Qed.

(** Verification of the audit log accepts exactly the well-formed logs. When the retained
    files are readable: if each is empty or complete lines of UTF-8, and their lines from
    the oldest archive to the active file are legacy lines followed by canonically printed,
    authentic records with consecutive sequence numbers, each naming the MAC before it, then
    the report says so, with the exact numbers of events, the first and last sequence number
    and whether the chain reaches back to the first event; and only such a log may be
    read. *)
Theorem verification_is_exact rf files key max :
  (forall p, p ∈ audit_paths max -> exists_file files p = true -> rf p = false) ->
  (forall legacy signed, well_formed key files max legacy signed ->
     vs_report (verify_chain rf files key max) = log_report files max legacy signed
     /\ vs_last_mac (verify_chain rf files key max) = ar_mac <$> last signed)
  /\ (permits_read (vs_report (verify_chain rf files key max)) = true ->
      exists legacy signed, well_formed key files max legacy signed).
Proof.
  intros Hrf. split; [by intros; apply verify_chain_accepts|apply verify_chain_sound].
Qed.

(** ** Tamper evidence *)

Lemma string_app_cancel_r a b t : a +:+ t = b +:+ t -> a = b.
Proof.
  intros Heq. destruct (string_app_eq_app _ _ _ _ Heq) as [k [[-> Hk]|[-> Hk]]];
    apply (f_equal String.length) in Hk; rewrite string_length_app in Hk;
    (destruct k; [by rewrite string_app_nil_r|simpl in Hk; lia]).
Qed.

(** The part of a printed record that its canonical form shares. *)
Definition record_prefix (r : SignedAuditRecord) : string :=
  "{" +:+ (print_string "timestamp" +:+ ":" +:+ print_string (ar_timestamp r)) +:+ ","
  +:+ (print_string "area" +:+ ":" +:+ print_string (ar_area r)) +:+ ","
  +:+ (print_string "action" +:+ ":" +:+ print_string (ar_action r)) +:+ ","
  +:+ (print_string "details" +:+ ":" +:+ to_json_string (ar_details r)) +:+ ","
  +:+ (print_string "integrity" +:+ ":")
  +:+ "{" +:+ (print_string "version" +:+ ":" +:+ pretty (ie_version (ar_integrity r))) +:+ ","
  +:+ (print_string "sequence" +:+ ":" +:+ pretty (ar_sequence r)) +:+ ","
  +:+ (print_string "previousMac" +:+ ":" +:+ print_option (ar_previous r)).

Lemma canonical_prefix r : canonical_record r = record_prefix r +:+ "}}".
Proof.
  unfold canonical_record, record_prefix, print_fields, ar_sequence, ar_previous.
  cbn [fmap list_fmap join fst snd]. by rewrite !string_app_assoc.
Qed.

Lemma print_prefix r :
  print_record r = record_prefix r +:+ "," +:+ print_string "mac" +:+ ":"
                   +:+ print_string (ar_mac r) +:+ "}}".
Proof.
  unfold print_record, print_envelope, record_prefix, print_fields, ar_sequence, ar_previous, ar_mac.
  cbn [fmap list_fmap join fst snd]. by rewrite !string_app_assoc.
Qed.

Lemma authentic_mac key r : authentic key r -> ar_mac r = calculate_mac key r.
Proof. intros Ha. by destruct (encode_decode _ _ (au_mac _ _ Ha)) as [<- _]. Qed.

(** Two authentic records with the same canonical form are the same. *)
Lemma authentic_canonical_inj key r r' :
  authentic key r -> authentic key r' -> canonical_record r = canonical_record r' -> r = r'.
Proof.
  intros Ha Ha' Heq.
  assert (print_record r = print_record r') as Hp.
  { rewrite !print_prefix, (authentic_mac key r), (authentic_mac key r') by done.
    unfold calculate_mac. rewrite Heq. rewrite !canonical_prefix in Heq.
    by apply string_app_cancel_r in Heq as ->. }
  destruct (au_reads_back _ _ Ha) as [Hr _], (au_reads_back _ _ Ha') as [Hr' _].
  rewrite Hp in Hr. congruence.
Qed.

(** The records appended under a key, numbered from one. *)
Definition numbered (key : string) (h : list SignedAuditRecord) : Prop :=
  forall i r, h !! i = Some r ->
    authentic key r /\ ar_sequence r = Z.of_nat (S i) /\ (Z.of_nat (S i) <= u64_max)%Z.

(** No tag was forged: a record in the files whose tag is right has the canonical form of a
    record that was appended. *)
Definition unforged (key : string) (h : list SignedAuditRecord) (ls : list string) : Prop :=
  forall r, print_record r ∈ ls ->
    decode_mac (ar_mac r) = Some (hmac_sha256 key (canonical_record r)) ->
    exists r', r' ∈ h /\ canonical_record r = canonical_record r'.

Lemma unforged_member key h ls r :
  numbered key h -> unforged key h ls -> print_record r ∈ ls -> authentic key r ->
  exists i, h !! i = Some r.
Proof.
  intros Hn Hu Hin Ha. destruct (Hu r Hin (au_mac _ _ Ha)) as (r' & Hr' & Heq).
  apply list_elem_of_lookup in Hr' as [i Hi]. exists i.
  by rewrite (authentic_canonical_inj key r r' Ha (proj1 (Hn i r' Hi)) Heq).
Qed.

Lemma linked_segment key h signed : forall i p,
  numbered key h -> h !! i = Some p ->
  Forall (fun r => exists j, h !! j = Some r) signed -> linked (Some p) signed ->
  exists rest, drop (S i) h = signed ++ rest.
Proof.
  induction signed as [|r signed IH]; intros i p Hn Hi Hall Hl; [by eexists|].
  inversion Hall as [|? ? [j Hj] Hall']; subst. destruct Hl as [[Hseq _] Hl].
  assert (j = S i) as ->.
  { destruct (Hn i p Hi) as (_ & Hp & Hpm), (Hn j r Hj) as (_ & Hr & Hrm).
    rewrite Hp, Hr in Hseq. unfold u64_max in *.
    destruct (decide (Z.of_nat (S i) + 1 = 2 ^ 64)%Z) as [E|E].
    - rewrite E, Z.mod_same in Hseq by lia. lia.
    - rewrite Z.mod_small in Hseq; lia. }
  destruct (IH (S i) r Hn Hj Hall' Hl) as [rest Hrest]. exists rest.
  by rewrite (drop_S h r (S i) Hj), Hrest.
Qed.

(** C18: The audit log is tamper-evident. Let [h] be the records appended under the key, and
    suppose that no record with a right tag is in the files that was not signed. Then
    whatever else was done to the files, if verification lets the log be read, its lines
    are legacy lines followed by a contiguous part of [h], unmodified, in order and without
    gaps, and the reported first and last sequence numbers are its position in [h]. *)
Theorem verified_log_is_history rf files key max h :
  numbered key h -> unforged key h (lines_at files (audit_paths max)) ->
  permits_read (vs_report (verify_chain rf files key max)) = true ->
  exists legacy dropped kept rest,
    h = dropped ++ kept ++ rest
    /\ lines_at files (audit_paths max) = legacy ++ (print_record <$> kept)
    /\ Forall legacy_line legacy
    /\ (kept <> [] ->
          ar_sequence <$> head kept = Some (Z.of_nat (length dropped) + 1)%Z
          /\ ar_sequence <$> last kept = Some (Z.of_nat (length dropped + length kept))).
Proof.
  intros Hn Hu Hp. destruct (verify_chain_sound _ _ _ _ Hp) as (legacy & signed & Hwf).
  destruct Hwf as [_ Hl Hleg Hs Hk]. rewrite Hl in Hu |- *.
  assert (Forall (fun r => exists j, h !! j = Some r) signed) as Hall.
  { rewrite Forall_forall in Hs |- *. intros r Hr. eapply unforged_member; [done|done| |by auto].
    apply elem_of_app. right. by apply list_elem_of_fmap_2. }
  destruct signed as [|r signed].
  { exists legacy, [], [], h. by split_and!. }
  inversion Hall as [|? ? [i Hi] Hall']; subst. destruct Hk as [_ Hk].
  destruct (linked_segment key h signed i r Hn Hi Hall' Hk) as [rest Hrest].
  exists legacy, (take i h), (r :: signed), rest.
  assert (h = take i h ++ (r :: signed) ++ rest) as Hh.
  { rewrite <- (take_drop i h) at 1. by rewrite (drop_S h r i Hi), Hrest. }
  assert (i < length h)%nat as Hlt by (by eapply lookup_lt_Some).
  assert (length (take i h) = i) as Hti by (rewrite length_take; lia).
  split_and!; try done. intros _. rewrite Hti. split.
  - simpl. f_equal. destruct (Hn i r Hi) as (_ & -> & _). lia.
  - destruct (last (r :: signed)) as [q|] eqn:Hlast; [|by apply last_None in Hlast].
    simpl. f_equal. rewrite last_lookup in Hlast.
    assert (h !! (i + pred (length (r :: signed)))%nat = Some q) as Hq.
    { rewrite Hh, lookup_app_r by (rewrite Hti; lia). rewrite Hti, Nat.add_comm, Nat.add_sub.
      rewrite lookup_app_l by (simpl; lia). done. }
    destruct (Hn _ _ Hq) as (_ & -> & _). f_equal. simpl. lia.
Qed.
End Audit.
