(* ===== verification/AuditSafety.v ===== *)
(** * Appends keep the audit log verified

    The lines an append writes are single lines of UTF-8; rotation keeps the order of what
    it retains, also when it stops at a failing operation; so a history of appends, of which
    some fail, leaves a log that verifies and ends with the last record. *)

From Stdlib Require Import ZifyBool ZifyN.
From S2P Require Import Prelude Text Json Redaction RedactionProperties AuditLog.
From S2P Require Import AuditProperties.

(** ** Single lines of text *)

Definition not_newline (c : ascii) : bool := negb (Ascii.eqb c newline).

Definition one_line (s : string) : Prop :=
  utf8_text s /\ string_forallb not_newline s = true.

Lemma one_line_app a b : one_line a -> one_line b -> one_line (a +:+ b).
Proof.
  intros [? Ha] [? Hb]. split; [by apply utf8_text_app|]. by rewrite string_forallb_app, Ha, Hb.
Qed.

Ltac split_line := repeat match goal with |- one_line (_ +:+ _) => apply one_line_app end.

(** Printable ASCII. *)
Definition is_printable (c : ascii) : bool := in_byte_range 32 126 c.

Lemma printable_one_line s : string_forallb is_printable s = true -> one_line s.
Proof.
  intros Hs. split.
  - apply utf8_text_ascii. unfold is_ascii_text. revert Hs. induction s as [|c s IH]; [done|].
    simpl. rewrite !andb_true_iff. intros [Hc Hs]. split; [|by apply IH].
    unfold is_printable in Hc. bytes.
  - revert Hs. induction s as [|c s IH]; [done|]. simpl. rewrite !andb_true_iff.
    intros [Hc Hs]. split; [|by apply IH]. unfold not_newline.
    destruct (Ascii.eqb_spec c newline) as [->|]; done.
Qed.

Lemma escape_app a b : escape (a +:+ b) = escape a +:+ escape b.
Proof. induction a as [|c a IH]; [done|]. rewrite !string_app_cons. cbn [escape]. by rewrite IH, string_app_assoc. Qed.

Lemma escape_char_ascii c :
  in_byte_range 0 127 c = true ->
  is_ascii_text (escape_char c) = true /\ string_forallb not_newline (escape_char c) = true.
Proof. destruct c as [[] [] [] [] [] [] [] []]; intros H; try discriminate H; split; reflexivity. Qed.

Lemma escape_char_high c :
  in_byte_range 0 127 c = false ->
  escape_char c = String c "" /\ not_newline c = true.
Proof. destruct c as [[] [] [] [] [] [] [] []]; intros H; try discriminate H; split; reflexivity. Qed.

Lemma escape_high s :
  string_forallb (fun c => negb (in_byte_range 0 127 c)) s = true ->
  escape s = s /\ string_forallb not_newline s = true.
Proof.
  induction s as [|c s IH]; [done|]. simpl. intros [Hc Hs]%andb_true_iff.
  apply negb_true_iff in Hc. destruct (escape_char_high c Hc) as [-> ->], (IH Hs) as [-> ->].
  done.
Qed.

Lemma escape_utf8_char c :
  utf8_char c -> utf8_text (escape c) /\ string_forallb not_newline (escape c) = true.
Proof.
  intros Hc. assert (utf8_text c) as Ht by (rewrite <- (string_app_nil_r c); by repeat constructor).
  destruct Hc as [c1 Hr|c1 c2 Hr|c1 c2 c3 Hr|c1 c2 c3 c4 Hr].
  { cbn [escape]. rewrite string_app_nil_r. destruct (escape_char_ascii c1 Hr).
    split; [by apply utf8_text_ascii|done]. }
  all: match goal with |- context [escape ?x] =>
         destruct (escape_high x) as [-> ?]; [simpl; bytes|done] end.
Qed.

Lemma escape_one_line s : utf8_text s -> one_line (escape s).
Proof.
  induction 1 as [|c s Hc _ IH]; [by split; [constructor|]|].
  rewrite escape_app. apply one_line_app; [|done]. by apply escape_utf8_char.
Qed.

Lemma print_string_one_line s : utf8_text s -> one_line (print_string s).
Proof.
  intros Hs. unfold print_string.
  split_line; (by apply printable_one_line) || by apply escape_one_line.
Qed.

Lemma join_one_line l : Forall one_line l -> one_line (join "," l).
Proof.
  induction 1 as [|s l Hs _ IH]; [by apply printable_one_line|].
  destruct l as [|t l]; [done|]. cbn [join] in *.
  apply one_line_app; [done|]. apply one_line_app; [by apply printable_one_line|done].
Qed.

Lemma pretty_digit_printable n : is_printable (pretty_N_char n) = true.
Proof.
  unfold pretty_N_char. repeat case_match; reflexivity.
Qed.

Lemma pretty_N_go_printable x s :
  string_forallb is_printable s = true -> string_forallb is_printable (pretty_N_go x s) = true.
Proof.
  revert s. induction (N.lt_wf_0 x) as [x _ IH]; intros s Hs.
  assert (x = 0 \/ 0 < x)%N as [->|?] by lia; [done|].
  rewrite pretty_N_go_step by done. apply IH; [by apply N.div_lt|]. simpl.
  by rewrite pretty_digit_printable.
Qed.

Lemma pretty_Z_printable (z : Z) : string_forallb is_printable (pretty z) = true.
Proof.
  assert (forall n : N, string_forallb is_printable (pretty n) = true) as HN.
  { intros n. unfold pretty, pretty_N. case_decide; [done|]. by apply pretty_N_go_printable. }
  unfold pretty, pretty_Z. destruct z; [done|apply HN|].
  rewrite string_forallb_app. apply HN.
Qed.

(** A number of at most so many digits. *)
Lemma pretty_N_go_length k : forall x s,
  (x < 10 ^ N.of_nat k)%N -> (String.length (pretty_N_go x s) <= k + String.length s)%nat.
Proof.
  induction k as [|k IH]; intros x s Hx.
  { assert (x = 0)%N as -> by (simpl in Hx; lia). done. }
  assert (x = 0 \/ 0 < x)%N as [->|?] by lia; [rewrite pretty_N_go_0; lia|].
  rewrite pretty_N_go_step by done.
  assert (x / 10 < 10 ^ N.of_nat k)%N as Hd.
  { apply N.Div0.div_lt_upper_bound. rewrite Nat2N.inj_succ, N.pow_succ_r' in Hx. lia. }
  specialize (IH (x / 10)%N (String (pretty_N_char (x `mod` 10)) s) Hd). simpl in IH. lia.
Qed.

Lemma pretty_u64_length (z : Z) :
  (0 <= z <= u64_max)%Z -> (String.length (pretty z) <= 20)%nat.
Proof.
  intros Hz. unfold pretty, pretty_Z, u64_max in *. destruct z as [|p|p]; [simpl; lia| |lia].
  change (String.length (pretty_N_go (N.pos p) "") <= 20)%nat.
  pose proof (pretty_N_go_length 20 (N.pos p) "") as Hl. simpl in Hl. apply Hl. lia.
Qed.

(** ** The lines an append writes *)

(** All strings and keys in a value are UTF-8, as the types of the code guarantee. *)
Fixpoint value_text (v : Value) : bool :=
  match v with
  | JString s => utf8_valid s
  | JArray l => forallb value_text l
  | JObject m => forallb (fun kv => utf8_valid kv.1 && value_text kv.2) m
  | _ => true
  end.

(** What the theorems rely on: tags have 32 bytes, floats print as ASCII, parsed strings are
    UTF-8, and a parsed sequence number fits its type. *)
Class AuditLaws `{JsonText, Hmac, AuditCodec} : Prop := {
  hmac_bytes key message : String.length (hmac_sha256 key message) = 32%nat;
  f64_printable bits : string_forallb is_printable (f64_repr bits) = true;
  parse_json_text s v : parse_json s = Some v -> value_text v = true;
  parse_record_u64 line r : parse_record line = Some r -> (0 <= ar_sequence r <= u64_max)%Z;
}.

Section Audit.
Context `{AuditLaws}.

Lemma print_value_one_line v : value_text v = true -> one_line (to_json_string v).
Proof.
  unfold to_json_string. induction v as [|b|n|s|l IH|m IH] using Value_nested_ind; cbn [value_text print_value]; intros Ht.
  - by apply printable_one_line.
  - destruct b; by apply printable_one_line.
  - destruct n; apply printable_one_line; [apply pretty_Z_printable..|apply f64_printable].
  - apply print_string_one_line. by apply utf8_valid_text.
  - rewrite forallb_forall in Ht. split_line; try by apply printable_one_line.
    apply join_one_line, Forall_fmap. rewrite Forall_forall in IH |- *. intros x Hx.
    apply IH; [done|]. apply Ht. by apply list_elem_of_In.
  - rewrite forallb_forall in Ht. split_line; try by apply printable_one_line.
    apply join_one_line, Forall_fmap. rewrite Forall_forall in IH |- *. intros kv Hkv.
    specialize (Ht kv (proj1 (list_elem_of_In _ _) Hkv)). apply andb_true_iff in Ht as [Hk Hv].
    simpl. split_line; [|by apply printable_one_line|by apply IH].
    apply print_string_one_line. by apply utf8_valid_text.
Qed.

Lemma sanitize_text details : value_text (sanitize_details details) = true.
Proof.
  unfold sanitize_details. destruct (parse_json _) as [v|] eqn:Hp; [|done].
  by apply parse_json_text in Hp.
Qed.

Lemma diagnostic_label_text s : utf8_text (diagnostic_label s).
Proof.
  unfold diagnostic_label. case_match eqn:E; [|by apply utf8_text_ascii].
  apply andb_true_iff in E as [_ E]. apply utf8_text_ascii. unfold is_ascii_text.
  revert E. generalize (trim s). intros t. induction t as [|c t IH]; [done|]. simpl.
  rewrite !andb_true_iff. intros [Hc Ht]. split; [|by apply IH].
  unfold label_char, is_ascii_alphanumeric, is_ascii_upper, is_ascii_lower, is_ascii_digit in Hc. bytes.
Qed.

Lemma lower_hex_text s : string_forallb is_lower_hex s = true -> utf8_text s.
Proof.
  intros Hs. apply utf8_text_ascii. revert Hs. unfold is_ascii_text.
  induction s as [|c s IH]; [done|]. simpl. rewrite !andb_true_iff. intros [Hc Ht].
  split; [|by apply IH]. unfold is_lower_hex, is_ascii_digit in Hc. bytes.
Qed.

Lemma decodes_text m : decode_mac m <> None -> utf8_text m.
Proof.
  unfold decode_mac. destruct (_ || _) eqn:E; [done|]. intros _.
  apply orb_false_iff in E as [_ E]. apply negb_false_iff in E. by apply lower_hex_text.
Qed.

Lemma calculate_mac_decodes key r :
  decode_mac (calculate_mac key r) = Some (hmac_sha256 key (canonical_record r)).
Proof. apply decode_encode, hmac_bytes. Qed.

(** The record of an append. *)
Section Next.
Variables (key now area action : string) (details : option Value).
Variables (sequence : Z) (last_mac : option string).
Hypothesis now_text : utf8_valid now = true.
Hypothesis last_mac_decodes : forall m, last_mac = Some m -> decode_mac m <> None.
Let r := next_record key now area action details sequence last_mac.

Lemma next_record_mac : ar_mac r = calculate_mac key r.
Proof. reflexivity. Qed.

Lemma next_record_one_line : one_line (print_record r).
Proof.
  assert (utf8_text (ar_mac r)) as Hmac by apply lower_hex_text, encode_hex_lower.
  assert (one_line (print_option (ar_previous r))) as Hprev.
  { unfold r, ar_previous. simpl. destruct last_mac as [m|]; [|by apply printable_one_line].
    by apply print_string_one_line, decodes_text, last_mac_decodes. }
  rewrite print_prefix. unfold record_prefix.
  split_line;
    try (by apply printable_one_line); try (apply print_string_one_line);
    try (by apply utf8_valid_text); try apply diagnostic_label_text;
    try (apply printable_one_line, pretty_Z_printable); try done.
  apply print_value_one_line, sanitize_text.
Qed.

Lemma next_record_authentic :
  reads_back r -> (1 <= sequence)%Z -> (sequence = 1%Z <-> last_mac = None) -> authentic key r.
Proof.
  intros Hr Hs Hl. split; [done|done| |rewrite next_record_mac; apply calculate_mac_decodes|done].
  unfold invalid_anchor, r, ar_sequence, ar_previous. simpl.
  destruct last_mac as [m|].
  - destruct (Z.eqb_spec sequence 1) as [->|]; [by destruct Hl as [Hl _]; specialize (Hl eq_refl)|].
    rewrite (bool_decide_false (Some m = None)) by done. lia.
  - rewrite bool_decide_false by (by intros [? ?]). destruct Hl as [_ ->]; done.
Qed.
End Next.
End Audit.

(** ** Rotation keeps what it retains in order *)

Abbreviation Files := (gmap AuditPath string) (only parsing).

(** The contents of the files at some paths. *)
Definition contents (files : Files) (paths : list AuditPath) : list string :=
  omap (fun p => files !! p) paths.

Lemma contents_cons files p paths :
  contents files (p :: paths) = option_list (files !! p) ++ contents files paths.
Proof. unfold contents. simpl. by destruct (files !! p). Qed.

Lemma contents_app files a b : contents files (a ++ b) = contents files a ++ contents files b.
Proof.
  induction a as [|p a IH]; [done|]. rewrite <- app_comm_cons.
  by rewrite !contents_cons, IH, app_assoc.
Qed.

Lemma contents_ext files files' paths :
  (forall p, p ∈ paths -> files !! p = files' !! p) -> contents files paths = contents files' paths.
Proof.
  induction paths as [|p paths IH]; intros Hext; [done|].
  rewrite !contents_cons, (Hext p), IH; [done| |by left]. intros q Hq. apply Hext. by right.
Qed.

Lemma lines_at_contents files paths : lines_at files paths = concat (lines <$> contents files paths).
Proof. done. Qed.

Lemma audit_paths_NoDup max : NoDup (audit_paths max).
Proof.
  unfold audit_paths. apply NoDup_app. split_and!.
  - apply NoDup_fmap_2; [by intros ?? [= ->]|].
    rewrite <- (Permutation_rev (seq 1 max)). apply NoDup_seq.
  - intros p (i & -> & _)%list_elem_of_fmap. by rewrite list_elem_of_singleton.
  - apply NoDup_singleton.
Qed.

(** Moving a file to the next, empty path keeps the contents in order. *)
Lemma contents_rename files hi lo from to :
  NoDup (hi ++ to :: from :: lo) -> files !! to = None ->
  contents (rename from to files) (hi ++ to :: from :: lo) = contents files (hi ++ to :: from :: lo).
Proof.
  intros Hnd Hto. unfold rename. destruct (files !! from) as [c|] eqn:Hfrom; [|done].
  apply NoDup_app in Hnd as (_ & Hhi & Hnd). inversion Hnd as [|? ? Hto' Hnd']; subst.
  inversion Hnd' as [|? ? Hfrom' _]; subst.
  rewrite !contents_app. f_equal.
  - apply contents_ext. intros p Hp. specialize (Hhi p Hp).
    rewrite lookup_insert_ne, lookup_delete_ne by set_solver. done.
  - change (to :: from :: lo) with ([to; from] ++ lo). rewrite !contents_app. f_equal.
    + rewrite !contents_cons, lookup_insert_eq, lookup_insert_ne, lookup_delete_eq by set_solver.
      by rewrite Hto, Hfrom.
    + apply contents_ext. intros p Hp.
      rewrite lookup_insert_ne, lookup_delete_ne by set_solver. done.
Qed.

Lemma rev_seq_split max i :
  (1 <= i < max)%nat ->
  rev (seq 1 max) = rev (seq (i + 2) (max - i - 1)) ++ (i + 1)%nat :: i :: rev (seq 1 (i - 1)).
Proof.
  intros Hi. replace max with ((i - 1) + (2 + (max - i - 1)))%nat at 1 by lia.
  rewrite !seq_app, !rev_app_distr. replace (1 + (i - 1) + 2)%nat with (i + 2)%nat by lia.
  simpl. replace (i - 0)%nat with i by lia. rewrite <- !app_assoc. simpl.
  replace (S (i - 1)) with i by lia. replace (S i) with (i + 1)%nat by lia. done.
Qed.

Lemma audit_paths_adjacent max i :
  (1 <= i < max)%nat ->
  exists hi lo, audit_paths max = hi ++ Archive (i + 1) :: Archive i :: lo.
Proof.
  intros Hi. unfold audit_paths. rewrite (rev_seq_split max i) by done.
  rewrite fmap_app, <- app_assoc. cbn [fmap list_fmap]. eauto.
Qed.

Lemma audit_paths_active max :
  (0 < max)%nat -> exists hi, audit_paths max = hi ++ [Archive 1; Active].
Proof.
  intros Hm. unfold audit_paths. destruct max as [|max]; [lia|]. simpl.
  rewrite fmap_app, <- app_assoc. by eexists.
Qed.

Lemma audit_paths_oldest max :
  (0 < max)%nat -> exists rest, audit_paths max = Archive max :: rest.
Proof.
  intros Hm. unfold audit_paths. destruct max as [|max]; [lia|].
  rewrite seq_S, rev_app_distr. by eexists.
Qed.

Section Rotation.
Variables (io : AuditIo) (max : nat).
Hypothesis max_pos : (0 < max)%nat.

Lemma shift_archives_contents k : forall files res files',
  (k < max)%nat -> files !! Archive (S k) = None ->
  shift_archives io (rev (seq 1 k)) files = (res, files') ->
  contents files' (audit_paths max) = contents files (audit_paths max)
  /\ files' !! Active = files !! Active
  /\ (res = Ok tt -> files' !! Archive 1 = None).
Proof.
  induction k as [|k IH]; intros files res files' Hk Hnone Hs.
  { injection Hs as <- <-. done. }
  rewrite seq_S, rev_app_distr in Hs. cbn [rev app plus shift_archives] in Hs.
  rewrite Nat.add_1_r in Hs. unfold archive_path in Hs.
  destruct (exists_file files (Archive (S k))) eqn:He.
  - destruct (io_rename_fails io (Archive (S k))).
    { injection Hs as <- <-. split_and!; done. }
    destruct (audit_paths_adjacent max (S k)) as (hi & lo & Hp); [lia|].
    replace (S k + 1)%nat with (S (S k)) in Hp by lia.
    pose proof (audit_paths_NoDup max) as Hnd. rewrite Hp in Hnd.
    apply IH in Hs as (Hc & Ha & Hres); [|lia|].
    + split_and!; [|rewrite Ha|done].
      * rewrite Hc, Hp. by apply contents_rename.
      * unfold rename. destruct (files !! Archive (S k)); [|done].
        by rewrite lookup_insert_ne, lookup_delete_ne.
    + unfold rename, exists_file in *. destruct (files !! Archive (S k)); [|done].
      rewrite lookup_insert_ne, lookup_delete_eq; [done|]. intros [= ?]. lia.
  - apply IH in Hs; [done|lia|]. unfold exists_file in He. by destruct (files !! Archive (S k)).
Qed.

(** Rotation keeps the retained contents up to the oldest one, which it drops only when the
    active file is too long; the active file stays or is the newest archive. *)
Lemma rotate_contents incoming max_file files res files' :
  rotate_if_needed io incoming max_file max files = (res, files') ->
  exists dropped,
    contents files (audit_paths max) = dropped ++ contents files' (audit_paths max)
    /\ (dropped <> [] -> exists content hi,
          files !! Active = Some content
          /\ (max_file < sat_add_u64 (str_len content) incoming)%Z
          /\ contents files' (audit_paths max) = hi ++ [content]).
Proof.
  unfold rotate_if_needed. destruct (files !! Active) as [content|] eqn:Ha.
  2: { intros [= _ <-]. exists []. done. }
  destruct (io_stat_fails io); [intros [= _ <-]; by exists []|].
  destruct (Z.leb_spec (sat_add_u64 (str_len content) incoming) max_file);
    [intros [= _ <-]; by exists []|].
  rewrite (proj2 (Nat.eqb_neq max 0)) by lia.
  destruct (exists_file files (archive_path max) && _); [intros [= _ <-]; by exists []|].
  unfold archive_path. set (files1 := delete (Archive max) files).
  assert (files1 !! Active = Some content) as Ha1 by (unfold files1; by rewrite lookup_delete_ne).
  assert (contents files (audit_paths max)
          = option_list (files !! Archive max) ++ contents files1 (audit_paths max)) as Hdrop.
  { destruct (audit_paths_oldest max max_pos) as [rest Hrest].
    pose proof (audit_paths_NoDup max) as Hnd. rewrite Hrest in Hnd |- *.
    inversion Hnd; subst.
    rewrite !contents_cons. unfold files1. rewrite lookup_delete_eq. simpl. f_equal.
    apply contents_ext. intros p Hp. rewrite lookup_delete_ne; [done|]. by intros <-. }
  destruct (audit_paths_active max max_pos) as [hi Hact].
  destruct (shift_archives io (rev (seq 1 (max - 1))) files1) as [r2 files2] eqn:Hs.
  apply shift_archives_contents in Hs as (Hc & Ha2 & Hres); [|lia|].
  2: { unfold files1. replace (S (max - 1)) with max by lia. by rewrite lookup_delete_eq. }
  rewrite Ha1 in Ha2. rewrite <- Hc in Hdrop.
  assert (exists hi', contents files2 (audit_paths max) = hi' ++ [content]) as [hi' Hhi].
  { rewrite Hact, contents_app, !contents_cons, Ha2. simpl.
    eexists. by rewrite app_assoc. }
  destruct r2 as [[]|e]; [|intros [= _ <-]; exists (option_list (files !! Archive max)); eauto 7].
  destruct (io_rename_fails io Active).
  { intros [= _ <-]. exists (option_list (files !! Archive max)). eauto 7. }
  intros [= _ <-]. exists (option_list (files !! Archive max)).
  assert (contents (rename Active (Archive 1) files2) (audit_paths max)
          = contents files2 (audit_paths max)) as Hren.
  { rewrite Hact. apply contents_rename; [|by apply Hres]. rewrite <- Hact. apply audit_paths_NoDup. }
  rewrite Hren. eauto 7.
Qed.
End Rotation.

(** ** A step of the log *)

Lemma lines_from_nonempty acc s : acc <> "" \/ s <> "" -> lines_from acc s <> [].
Proof.
  revert acc. induction s as [|c s IH]; intros acc Hne; cbn [lines_from].
  - destruct acc; [by destruct Hne|done].
  - case_match; [done|]. apply IH. by left.
Qed.

Lemma lines_nonempty s : s <> "" -> lines s <> [].
Proof. intros Hs. apply lines_from_nonempty. by right. Qed.

Section Step.
Context `{AuditLaws}.
Variables (key : string) (max : nat).
Hypothesis max_pos : (0 < max)%nat.

Lemma linked_suffix a b last : linked last (a ++ b) -> linked None b.
Proof.
  revert last. induction a as [|r a IH]; intros last Hl.
  - destruct b as [|r b]; [done|]. by destruct Hl.
  - destruct Hl as [_ Hl]. by eapply IH.
Qed.

Lemma linked_snoc l r : forall last,
  linked last l -> links (match list.last l with Some p => Some p | None => last end) r ->
  linked last (l ++ [r]).
Proof.
  induction l as [|q l IH]; intros last Hl Hr; [by split|].
  destruct Hl as [Hq Hl]. split; [done|]. apply IH; [done|].
  rewrite last_cons in Hr. by destruct (list.last l).
Qed.

(** What follows the first lines of a log is a log. *)
Lemma suffix_split d ls legacy signed :
  d ++ ls = legacy ++ (print_record <$> signed) ->
  exists dl legacy' dropped kept,
    legacy = dl ++ legacy' /\ signed = dropped ++ kept
    /\ ls = legacy' ++ (print_record <$> kept)
    /\ (dropped <> [] -> legacy' = []).
Proof.
  intros Heq. apply app_eq_inv in Heq as [(k & -> & Hk)|(k & -> & ->)].
  - apply fmap_app_inv in Hk as (l1 & l2 & -> & -> & ->). exists legacy, [], l1, l2.
    by rewrite app_nil_r.
  - by exists d, k, [], signed.
Qed.

Lemma well_formed_suffix files files' legacy signed d :
  well_formed key files max legacy signed ->
  contents files (audit_paths max) = d ++ contents files' (audit_paths max) ->
  (d <> [] -> exists content hi, content <> "" /\ contents files' (audit_paths max) = hi ++ [content]) ->
  exists legacy' dropped kept,
    signed = dropped ++ kept /\ well_formed key files' max legacy' kept
    /\ (signed <> [] -> kept <> []).
Proof.
  intros [Hc Hl Hleg Hs Hk] Hcont Hne.
  rewrite lines_at_contents, Hcont, fmap_app, concat_app, <- lines_at_contents in Hl.
  destruct (suffix_split _ _ _ _ Hl) as (dl & legacy' & dropped & kept & -> & -> & Hl' & Hd).
  exists legacy', dropped, kept. split; [done|].
  apply Forall_app in Hleg as [_ Hleg]. apply Forall_app in Hs as [_ Hs]. split.
  - split; try done; [|by eapply linked_suffix].
    intros p bytes Hp Hb. assert (bytes ∈ contents files (audit_paths max)) as Hin.
    { rewrite Hcont, elem_of_app. right. apply list_elem_of_omap. eauto. }
    apply list_elem_of_omap in Hin as (q & Hq & Hfq). eauto.
  - intros Hsig Hkept. subst kept. rewrite app_nil_r in *.
    destruct (decide (d = [])) as [->|Hdne].
    { simpl in Hl. rewrite Hl' in Hl. destruct dropped; [done|].
      rewrite Hd in Hl by done. apply (f_equal length) in Hl. rewrite !length_app, !length_fmap in Hl.
      simpl in Hl. lia. }
    destruct (Hne Hdne) as (content & hi & Hcne & Hhi).
    rewrite (Hd Hsig) in Hl'. simpl in Hl'. rewrite lines_at_contents, Hhi, fmap_app, concat_app in Hl'.
    apply app_eq_nil in Hl' as [_ Hl']. simpl in Hl'. rewrite app_nil_r in Hl'.
    by apply lines_nonempty in Hcne.
Qed.

Lemma lines_complete content x :
  complete_text content -> lines (content +:+ x) = lines content ++ lines x.
Proof. intros Hc. apply lines_app. destruct Hc as [->|[? _]]; auto. Qed.

Lemma str_last_snoc a c : str_last (a +:+ String c "") = Some c.
Proof. induction a as [|x a IH]; [done|]. str_simpl. rewrite IH. by destruct (a +:+ String c ""). Qed.

Lemma complete_app content x :
  complete_text content -> complete_text x -> complete_text (content +:+ x).
Proof.
  intros Hc [->|[Hx Hxt]]; [by rewrite string_app_nil_r|]. right.
  assert (exists y, x = y +:+ nl) as [y ->].
  { unfold ends_line in Hx. destruct (str_last x) as [c|] eqn:Hl; [|done].
    destruct (str_last_app _ _ Hl) as [y ->]. exists y. apply Ascii.eqb_eq in Hx. by subst. }
  split; [unfold ends_line, nl; by rewrite <- string_app_assoc, str_last_snoc|].
  apply utf8_valid_text, utf8_text_app; [|by apply utf8_valid_text].
  destruct Hc as [->|[_ Hc]]; [constructor|by apply utf8_valid_text].
Qed.

(** Appending complete lines to the active file. *)
Lemma active_append files legacy signed x :
  well_formed key files max legacy signed -> complete_text x ->
  let files' := <[Active := default "" (files !! Active) +:+ x]> files in
  lines_at files' (audit_paths max) = lines_at files (audit_paths max) ++ lines x
  /\ (forall p bytes, p ∈ audit_paths max -> files' !! p = Some bytes -> complete_text bytes).
Proof.
  intros Hwf Hx. simpl.
  assert (complete_text (default "" (files !! Active))) as Hc.
  { destruct (files !! Active) as [c|] eqn:Ha; [|by left].
    apply (wf_complete _ _ _ _ _ Hwf Active); [|done]. unfold audit_paths. set_solver. }
  split.
  - pose proof (audit_paths_NoDup max) as Hnd. unfold audit_paths in *.
    generalize dependent (archive_path <$> rev (seq 1 max)). intros init Hnd.
    apply NoDup_app in Hnd as (_ & Hnd & _).
    rewrite !lines_at_contents, !contents_app, !fmap_app, !concat_app, <- app_assoc. f_equal.
    + do 2 f_equal. apply contents_ext. intros p Hp. rewrite lookup_insert_ne; [done|].
      intros <-. apply (Hnd Active Hp). set_solver.
    + rewrite !contents_cons, lookup_insert_eq. simpl. rewrite app_nil_r, lines_complete by done.
      by destruct (files !! Active); simpl; rewrite ?app_nil_r.
  - intros p bytes Hp. destruct (decide (p = Active)) as [->|].
    + rewrite lookup_insert_eq. intros [= <-]. by apply complete_app.
    + rewrite lookup_insert_ne by done. by apply (wf_complete _ _ _ _ _ Hwf).
Qed.
End Step.

(** ** Histories of appends *)

(** A failing write left part of a line. *)
Definition torn (io : AuditIo) : bool :=
  match io_written io with Some (S _) => true | _ => false end.

Section History.
Context `{AuditLaws}.
Variables (key : string) (max_file : Z) (max : nat).

(** The line reached the active file: everything but the final sync succeeded. *)
Definition line_stored (io : AuditIo) (serialized : string) (files : Files) : bool :=
  match (rotate_if_needed io (str_len serialized + 1) max_file max files).1 with
  | Ok _ => negb (io_open_fails io) && bool_decide (io_written io = None)
  | Err _ => false
  end.

(** The record an append stores, if it does. *)
Definition stored_record (io : AuditIo) (files : Files) (area action : string)
    (details : option Value) : list SignedAuditRecord :=
  match prepare_append io files key area action details max with
  | Ok r => if line_stored io (print_record r) files then [r] else []
  | Err _ => []
  end.

(** The files after a sequence of appends, and the records they stored. The log starts
    without signed records. File operations may fail in any way that does not tear a line;
    serde_json reads back what it printed. *)
Inductive audit_history : Files -> list SignedAuditRecord -> Prop :=
| history_start files legacy :
    well_formed key files max legacy [] -> audit_history files []
| history_append files h io area action details res files' :
    audit_history files h ->
    utf8_valid (io_now io) = true -> torn io = false ->
    (forall r, prepare_append io files key area action details max = Ok r -> reads_back r) ->
    append_with_key io files key area action details max_file max = (res, files') ->
    audit_history files' (h ++ stored_record io files area action details).

Hypothesis max_pos : (0 < max)%nat.
Hypothesis event_fits : (MAX_AUDIT_EVENT_BYTES + 1 <= max_file < u64_max)%Z.

(** The retained log ends with the last record of the history. *)
Definition retains (files : Files) (h : list SignedAuditRecord) : Prop :=
  exists legacy dropped kept,
    h = dropped ++ kept /\ (h <> [] -> kept <> []) /\ well_formed key files max legacy kept.

Lemma permits_readable rf files :
  permits_read (vs_report (verify_chain rf files key max)) = true ->
  forall p, p ∈ audit_paths max -> exists_file files p = true -> rf p = false.
Proof.
  unfold verify_chain. destruct (verify_files _ _ _ _ _ _) as [s|e] eqn:Hv.
  2: { intros Hp. by rewrite (verify_files_error _ _ _ _ _ _ _ Hv) in Hp. }
  intros _ p Hin He. change scan_start with (scan_of 0 []) in Hv.
  apply verify_files_spec in Hv as [Hg _]. rewrite Forall_forall in Hg.
  destruct (Hg p) as (b & _ & ? & _); [by apply list_elem_of_filter|done].
Qed.

Lemma prepare_append_Ok io files area action details legacy kept r :
  well_formed key files max legacy kept ->
  prepare_append io files key area action details max = Ok r ->
  let sequence := (default 0%Z (ar_sequence <$> last kept) + 1)%Z in
  r = next_record key (io_now io) area action details sequence (ar_mac <$> last kept)
  /\ (sequence <= u64_max)%Z /\ (str_len (print_record r) <= MAX_AUDIT_EVENT_BYTES)%Z.
Proof.
  intros Hwf Hp. unfold prepare_append in Hp. bind_steps Hp. apply negb_false_iff in E.
  destruct (verify_chain_accepts (io_read_fails io) files key max legacy kept) as [Hr Hm];
    [by apply permits_readable|done|].
  rewrite Hr, Hm in *. cbn [rp_last_sequence log_report] in *. injection Hp as <-.
  split_and!; [done|lia|lia].
Qed.

Lemma history_next files h legacy dropped kept :
  numbered key h -> h = dropped ++ kept -> (h <> [] -> kept <> []) ->
  well_formed key files max legacy kept ->
  default 0%Z (ar_sequence <$> last kept) = Z.of_nat (length h)
  /\ (last kept = None <-> h = [])
  /\ (forall m, ar_mac <$> last kept = Some m -> decode_mac m <> None).
Proof.
  intros Hn -> Hne Hwf. destruct (last kept) as [q|] eqn:Hl.
  - assert ((dropped ++ kept) !! pred (length (dropped ++ kept)) = Some q) as Hq.
    { rewrite <- last_lookup, last_app, Hl. done. }
    assert (0 < length (dropped ++ kept))%nat as Hlen by (apply lookup_lt_Some in Hq; lia).
    destruct (Hn _ _ Hq) as (Ha & Hs & _). split_and!.
    + simpl. rewrite Hs. lia.
    + split; [done|]. intros Hnil. rewrite Hnil in Hlen. simpl in Hlen. lia.
    + intros m [= <-]. rewrite (au_mac _ _ Ha). done.
  - apply last_None in Hl as ->. rewrite app_nil_r in *.
    destruct dropped as [|d dropped]; [done|]. by destruct Hne.
Qed.

Lemma store_line_retained io serialized files legacy kept res files' :
  well_formed key files max legacy kept -> torn io = false ->
  (str_len serialized <= MAX_AUDIT_EVENT_BYTES)%Z ->
  store_line io serialized max_file max files = (res, files') ->
  exists files1 legacy' dropped kept',
    kept = dropped ++ kept' /\ (kept <> [] -> kept' <> [])
    /\ well_formed key files1 max legacy' kept'
    /\ if line_stored io serialized files
       then files' = <[Active := default "" (files1 !! Active) +:+ serialized +:+ nl]> files1
       else files' = files1 \/ files' = <[Active := default "" (files1 !! Active) +:+ ""]> files1.
Proof.
  intros Hwf Ht Hlen Hs. unfold store_line, line_stored in *.
  destruct (rotate_if_needed io (str_len serialized + 1) max_file max files) as [r1 files1] eqn:Hr.
  destruct (rotate_contents io max max_pos _ _ _ _ _ Hr) as (d & Hd & Hne).
  destruct (well_formed_suffix key max max_pos files files1 legacy kept d Hwf Hd) as (l' & dr & k' & Hk & Hwf' & Hke).
  { intros Hdne. destruct (Hne Hdne) as (content & hi & _ & Hlong & Hhi). exists content, hi.
    split; [|done]. intros ->. unfold sat_add_u64, str_len in *. simpl in Hlong. lia. }
  exists files1, l', dr, k'. split_and!; try done. cbn [fst].
  destruct r1 as [[]|e]; [|by injection Hs as <- <-; left].
  destruct (io_open_fails io); [by injection Hs as <- <-; left|]. cbn [negb andb].
  unfold torn in Ht. destruct (io_written io) as [[|n]|].
  - rewrite bool_decide_false by done. injection Hs as _ <-. right. done.
  - done.
  - rewrite bool_decide_true by done. by destruct (io_sync_fails io); injection Hs as <- <-.
Qed.

Lemma one_line_lines s : one_line s -> s <> "" -> strip_cr s = s ->
  complete_text (s +:+ nl) /\ lines (s +:+ nl) = [s].
Proof.
  intros [Ht Hn] Hne Hcr. split; [|by rewrite lines_single, Hcr by done].
  right. split; [unfold ends_line, nl; by rewrite str_last_snoc|].
  apply utf8_valid_text, utf8_text_app; [done|]. by apply utf8_text_ascii.
Qed.

Lemma print_record_ends r : exists y, print_record r = y +:+ "}".
Proof.
  rewrite print_prefix. eexists. rewrite <- !string_app_assoc.
  change "}}" with ("}" +:+ "}"). rewrite <- string_app_assoc. reflexivity.
Qed.

Lemma rev_app_snoc y c s :
  String.rev_app (y +:+ String c "") s = String c (String.rev_app y s).
Proof. revert s. induction y as [|d y IH]; intros s; [done|]. apply IH. Qed.

Lemma print_record_line r :
  one_line (print_record r) ->
  complete_text (print_record r +:+ nl) /\ lines (print_record r +:+ nl) = [print_record r].
Proof.
  intros Hl. destruct (print_record_ends r) as [y Hy]. apply one_line_lines; [done| |];
    rewrite Hy; [by destruct y|]. unfold strip_cr, String.rev. by rewrite rev_app_snoc.
Qed.

(** A stored record extends the well-formed log. *)
Lemma stored_extends files legacy kept r :
  well_formed key files max legacy kept -> one_line (print_record r) ->
  authentic key r -> links (last kept) r ->
  well_formed key (<[Active := default "" (files !! Active) +:+ print_record r +:+ nl]> files)
    max legacy (kept ++ [r]).
Proof.
  intros Hwf Hline Ha Hlk. destruct (print_record_line r Hline) as [Hct Hlines].
  destruct (active_append key max max_pos files legacy kept _ Hwf Hct) as [Hl Hc].
  destruct Hwf as [_ Hl0 Hleg Hs Hk]. split; try done.
  - by rewrite Hl, Hl0, Hlines, fmap_app, app_assoc.
  - apply Forall_app. split; [done|]. by constructor.
  - apply linked_snoc; [done|]. by destruct (last kept).
Qed.

Lemma history_retains files h : audit_history files h -> numbered key h /\ retains files h.
Proof.
  induction 1 as [files legacy Hwf|files h io area action details res files' Hh IH Hnow Ht Hrb Happ].
  { split; [by intros i r|]. exists legacy, [], []. done. }
  destruct IH as [Hn (legacy & dropped & kept & Hh' & Hne & Hwf)].
  unfold append_with_key, stored_record in *.
  destruct (prepare_append io files key area action details max) as [r|e] eqn:Hp.
  2: { injection Happ as <- <-. rewrite app_nil_r. split; [done|]. by exists legacy, dropped, kept. }
  specialize (Hrb r eq_refl).
  destruct (prepare_append_Ok _ _ _ _ _ _ _ _ Hwf Hp) as (Hr & Hmaxseq & Hlen).
  destruct (history_next files h legacy dropped kept Hn Hh' Hne Hwf) as (Hseq & Hnone & Hdec).
  rewrite Hseq in Hr, Hmaxseq.
  assert (authentic key r) as Hau.
  { rewrite Hr in Hrb |- *. apply next_record_authentic; [done|done|done|lia|].
    rewrite fmap_None, Hnone. destruct h; simpl; [done|]. split; [lia|done]. }
  destruct (store_line_retained io (print_record r) files legacy kept res files' Hwf Ht Hlen Happ)
    as (files1 & legacy' & dr & kept' & -> & Hke & Hwf' & Hfiles).
  assert (h <> [] -> kept' <> []) as Hne' by (intros Hx; by apply Hke, Hne).
  destruct (line_stored _ _ _).
  - assert (last kept' = last (dr ++ kept')) as Hlast.
    { rewrite last_app. destruct (last kept') eqn:E; [done|]. apply last_None in E as ->.
      rewrite app_nil_r in *. destruct (last dr) eqn:E'; [|done]. exfalso.
      destruct dr; [done|]. by apply Hke. }
    split.
    + intros i q Hq. apply lookup_app_Some in Hq as [Hq|[Hge Hq]]; [by apply Hn|].
      apply list_lookup_singleton_Some in Hq as [Hi <-]. split; [done|].
      replace i with (length h) by lia. rewrite Hr. unfold ar_sequence. simpl. lia.
    + exists legacy', (dropped ++ dr), (kept' ++ [r]). subst files' h.
      split; [by rewrite <- !app_assoc|]. split; [by destruct kept'|].
      apply stored_extends; [done| |done|].
      * rewrite Hr. by apply next_record_one_line.
      * rewrite Hlast. destruct (last (dr ++ kept')) as [q|]; [|done].
        simpl in Hseq. rewrite Hr. unfold links, ar_sequence, ar_previous. simpl.
        unfold ar_sequence in Hseq. rewrite Hseq. split; [|done].
        unfold u64_max in *. rewrite Z.mod_small; lia.
  - rewrite app_nil_r. split; [done|]. exists legacy', (dropped ++ dr), kept'.
    split; [by rewrite <- app_assoc|]. split; [done|]. destruct Hfiles as [->| ->]; [done|].
    destruct (active_append key max max_pos files1 legacy' kept' "" Hwf' (or_introl eq_refl)) as [Hl Hc].
    rewrite app_nil_r in Hl. destruct Hwf'. split; try done. by rewrite Hl.
Qed.

(** C19: Appends keep the audit log verified. After any sequence of appends, of which some
    failed at a file operation without tearing a line, the log can be read; its signed
    lines are the newest records of the history, in order, and include the last one; the
    report counts them, ends at the number of records ever stored, and the records are
    numbered from one without gaps, whatever was rotated away. *)
Theorem appends_keep_log_verified files h :
  audit_history files h ->
  numbered key h
  /\ exists legacy dropped kept,
       h = dropped ++ kept /\ (h <> [] -> kept <> [])
       /\ lines_at files (audit_paths max) = legacy ++ (print_record <$> kept)
       /\ vs_report (verify_chain (fun _ => false) files key max)
          = log_report files max legacy kept
       /\ permits_read (vs_report (verify_chain (fun _ => false) files key max)) = true
       /\ default 0%Z (rp_last_sequence (vs_report (verify_chain (fun _ => false) files key max)))
          = Z.of_nat (length h).
Proof.
  intros Hh. destruct (history_retains files h Hh) as [Hn (legacy & dropped & kept & Heq & Hne & Hwf)].
  split; [done|]. exists legacy, dropped, kept.
  destruct (verify_chain_accepts (fun _ => false) files key max legacy kept) as [Hr _]; [done..|].
  rewrite Hr. split_and!; try done; [apply Hwf|by destruct legacy, kept|].
  cbn [rp_last_sequence log_report].
  by destruct (history_next files h legacy dropped kept) as [-> _].
Qed.

Lemma rotate_Ok io incoming files :
  io_stat_fails io = false -> (forall p, io_remove_fails io p = false) ->
  (forall p, io_rename_fails io p = false) ->
  exists files1, rotate_if_needed io incoming max_file max files = (Ok tt, files1).
Proof.
  intros Hst Hrm Hrn. unfold rotate_if_needed. rewrite Hst.
  assert (forall l fs, exists fs', shift_archives io l fs = (Ok tt, fs')) as Hshift.
  { induction l as [|i l IH]; intros fs; simpl; [by eauto|]. rewrite Hrn.
    destruct (exists_file fs (archive_path i)); apply IH. }
  destruct (files !! Active); [|by eauto]. case_match; [by eauto|]. case_match; [rewrite Hrm; by eauto|].
  rewrite Hrm, andb_false_r, Hrn.
  destruct (Hshift (rev (seq 1 (max - 1))) (delete (archive_path max) files)) as [fs ->]. eauto.
Qed.

Lemma str_last_None t : str_last t = None -> t = "".
Proof. induction t as [|c t IH]; [done|]. destruct t; [done|]. intros Hl. by specialize (IH Hl). Qed.

Lemma str_take_nonewline n s : string_forallb not_newline s = true ->
  string_forallb not_newline (str_take n s) = true.
Proof.
  intros Hs. rewrite <- (str_take_drop n s), string_forallb_app in Hs.
  by apply andb_true_iff in Hs as [? _].
Qed.

Lemma torn_incomplete content n line :
  string_forallb not_newline line = true -> (0 < n <= String.length line)%nat ->
  ~ complete_text (content +:+ str_take n (line +:+ nl)).
Proof.
  intros Hnl Hn Hc.
  assert (str_take n (line +:+ nl) = str_take n line) as Htk.
  { clear -Hn. destruct Hn as [_ Hn]. revert line Hn.
    induction n as [|n IH]; intros [|c line] Hn; simpl in Hn; try lia; [done..|].
    rewrite string_app_cons. cbn [str_take]. by rewrite IH by lia. }
  rewrite Htk in Hc. assert (str_take n line <> "") as Hne.
  { intros Hx. apply (f_equal String.length) in Hx. rewrite str_length_take in Hx. simpl in Hx. lia. }
  apply (str_take_nonewline n) in Hnl. revert Hne Hnl Hc. generalize (str_take n line). intros t Hne Hnl Hc.
  assert (exists y c, t = y +:+ String c "") as (y & c & ->).
  { destruct (str_last t) as [c|] eqn:Hl; [destruct (str_last_app _ _ Hl); eauto|].
    by apply str_last_None in Hl. }
  rewrite string_forallb_app in Hnl. apply andb_true_iff in Hnl as [_ Hnl]. simpl in Hnl.
  destruct Hc as [Hc|[Hc _]].
  - apply (f_equal String.length) in Hc. rewrite !string_length_app in Hc. simpl in Hc. lia.
  - unfold ends_line in Hc. rewrite <- string_app_assoc, str_last_snoc in Hc.
    unfold not_newline in Hnl. by rewrite Hc in Hnl.
Qed.

(** What a prepared append relies on. *)
Lemma prepare_one_line io files area action details r :
  utf8_valid (io_now io) = true ->
  prepare_append io files key area action details max = Ok r -> one_line (print_record r).
Proof.
  intros Hnow Hp. pose proof Hp as Hp'. unfold prepare_append in Hp'. bind_steps Hp'.
  apply negb_false_iff in E. destruct (verify_chain_sound _ _ _ _ E) as (legacy & kept & Hwf).
  destruct (prepare_append_Ok _ _ _ _ _ _ _ _ Hwf Hp) as (-> & _).
  apply next_record_one_line; [done|]. intros m Hm.
  destruct (last kept) as [q|] eqn:Hl; [|done]. injection Hm as <-.
  apply last_Some_elem_of in Hl. pose proof (wf_signed _ _ _ _ _ Hwf) as Hs.
  rewrite Forall_forall in Hs. rewrite (au_mac _ _ (Hs q Hl)). done.
Qed.

Lemma refused_append io files area action details :
  permits_read (vs_report (verify_chain (io_read_fails io) files key max)) = false ->
  append_with_key io files key area action details max_file max
  = (Err AUDIT_INTEGRITY_FAILED, files).
Proof. intros Hp. unfold append_with_key, prepare_append. by rewrite Hp. Qed.

(** A torn write is noticed and stops the log. When only the write of an append fails,
    after some but not all bytes of the record, the append fails, the log can no longer be
    read, and every later append, whatever the file system does, is refused and leaves the
    files as they are. *)
Theorem torn_write_blocks_log io files area action details r n :
  prepare_append io files key area action details max = Ok r ->
  utf8_valid (io_now io) = true ->
  io_stat_fails io = false /\ (forall p, io_remove_fails io p = false)
    /\ (forall p, io_rename_fails io p = false) /\ io_open_fails io = false ->
  io_written io = Some n -> (0 < n <= String.length (print_record r))%nat ->
  exists files',
    append_with_key io files key area action details max_file max
      = (Err AUDIT_STORAGE_FAILED, files')
    /\ (forall rf, permits_read (vs_report (verify_chain rf files' key max)) = false)
    /\ forall io' area' action' details',
         append_with_key io' files' key area' action' details' max_file max
         = (Err AUDIT_INTEGRITY_FAILED, files').
Proof.
  intros Hp Hnow (Hst & Hrm & Hrn & Hop) Hw Hn. unfold append_with_key at 1. rewrite Hp.
  unfold store_line. destruct (rotate_Ok io (str_len (print_record r) + 1) files) as [files1 ->]; [done..|].
  rewrite Hop, Hw. eexists. split; [done|].
  set (files' := <[Active := _]> files1).
  assert (forall rf, permits_read (vs_report (verify_chain rf files' key max)) = false) as Hbad.
  { intros rf. apply not_true_iff_false. intros Hok.
    destruct (verify_chain_sound _ _ _ _ Hok) as (legacy & kept & Hwf).
    apply (torn_incomplete (default "" (files1 !! Active)) n (print_record r));
      [by eapply prepare_one_line|done|].
    apply (wf_complete _ _ _ _ _ Hwf Active); [unfold audit_paths; set_solver|].
    unfold files'. by rewrite lookup_insert_eq. }
  split; [done|]. intros. by apply refused_append.
Qed.
End History.
