(* ===== verification/AuditNative.v ===== *)
(** * The audit service around the log

    An append on a healthy file system succeeds: the sanitized details leave room for the
    rest of the record. A history that was deleted is noticed through the marker in the
    credential store. A concrete codec and MAC show that the assumptions of the theorems
    about the log can hold. *)

From Stdlib Require Import ZifyBool ZifyN.
From S2P Require Import Prelude Text Json Redaction RedactionProperties AuditLog.
From S2P Require Import AuditProperties AuditSafety.

(** ** The size of a record *)

Lemma escape_char_length c : (String.length (escape_char c) <= 6)%nat.
Proof. destruct c as [[] [] [] [] [] [] [] []]; vm_compute; lia. Qed.

Lemma escape_length s : (String.length (escape s) <= 6 * String.length s)%nat.
Proof.
  induction s as [|c s IH]; [done|]. cbn [escape]. rewrite string_length_app.
  pose proof (escape_char_length c). simpl. lia.
Qed.

Lemma print_string_length s : (String.length (print_string s) <= 6 * String.length s + 2)%nat.
Proof.
  unfold print_string. rewrite !string_length_app. pose proof (escape_length s). simpl. lia.
Qed.

Lemma diagnostic_label_length s : (String.length (diagnostic_label s) <= 128)%nat.
Proof.
  unfold diagnostic_label. case_match eqn:E; [|simpl; lia]. unfold str_len in E.
  rewrite !andb_true_iff in E. lia.
Qed.

(** The length of a printed field name. *)
Ltac key_length s :=
  let n := eval vm_compute in (String.length (print_string s)) in
  change (String.length (print_string s)) with n.

Section Native.
Context `{AuditLaws}.

(** serde_json reads back the values an append prints and parses: the details, what
    redaction leaves of them, and, for details that are too large, the envelope. *)
Definition details_read_back (details : option Value) : Prop :=
  let d := default JNull details in
  parse_json (to_json_string d) = Some d
  /\ parse_json (to_json_string (redact_value d)) = Some (redact_value d)
  /\ ((str_len (to_json_string (redact_value d)) <= AUDIT_DETAILS_BYTES)%Z
      \/ parse_json "{}" = Some (JObject [])
         /\ forall n preview,
              parse_json (to_json_string (truncation_envelope n preview))
              = Some (truncation_envelope n preview)).

Lemma sanitize_length details :
  details_read_back details ->
  (String.length (to_json_string (sanitize_details details)) <= Z.to_nat AUDIT_DETAILS_BYTES)%nat.
Proof.
  intros (Hd & Hr & Hl). unfold sanitize_details, redact_and_bound_json_text. rewrite Hd.
  cbv zeta. unfold str_len in Hl.
  destruct (String.length (to_json_string (redact_value (default JNull details)))
            <=? Z.to_nat AUDIT_DETAILS_BYTES)%nat eqn:E1.
  { rewrite Hr. by apply Nat.leb_le in E1. }
  destruct Hl as [Hl|[He Hen]]; [apply Nat.leb_gt in E1; lia|].
  assert (4 <= Z.to_nat AUDIT_DETAILS_BYTES)%nat as Hmax.
  { unfold AUDIT_DETAILS_BYTES, MAX_AUDIT_EVENT_BYTES. lia. }
  clear E1. revert Hmax. generalize (Z.to_nat AUDIT_DETAILS_BYTES). intros max Hmax.
  destruct (String.length (to_json_string (truncation_envelope _ _)) <=? max)%nat eqn:E2.
  { rewrite Hen. by apply Nat.leb_le in E2. }
  destruct (2 <=? max)%nat eqn:E3; [|lia]. rewrite He. simpl. lia.
Qed.

Lemma record_length key now area action details sequence last_mac :
  details_read_back details -> (String.length now <= 64)%nat ->
  (0 <= sequence <= u64_max)%Z -> (forall m, last_mac = Some m -> decode_mac m <> None) ->
  (str_len (print_record (next_record key now area action details sequence last_mac))
   <= MAX_AUDIT_EVENT_BYTES)%Z.
Proof.
  intros Hd Hnow Hseq Hmac. unfold str_len. rewrite print_prefix. unfold record_prefix.
  rewrite !string_length_app.
  pose proof (sanitize_length details Hd) as Hdet.
  pose proof (print_string_length now). pose proof (print_string_length (diagnostic_label area)).
  pose proof (print_string_length (diagnostic_label action)).
  pose proof (diagnostic_label_length area). pose proof (diagnostic_label_length action).
  pose proof (pretty_u64_length sequence Hseq).
  set (r := next_record _ _ _ _ _ _ _).
  assert (String.length (print_string (ar_mac r)) <= 386)%nat as Hm.
  { rewrite (print_string_length (ar_mac r)). unfold r. rewrite next_record_mac.
    unfold calculate_mac. rewrite encode_hex_length, hmac_bytes. lia. }
  assert (String.length (print_option (ar_previous r)) <= 386)%nat as Hprev.
  { unfold r, ar_previous. simpl. destruct last_mac as [m|]; [|simpl; lia]. simpl.
    rewrite (print_string_length m). destruct (decode_mac m) as [b|] eqn:Em; [|by destruct (Hmac m)].
    destruct (encode_decode _ _ Em) as [<- Hb]. rewrite encode_hex_length, Hb. lia. }
  assert (String.length (pretty (ar_sequence r)) <= 20)%nat as Hs by done.
  change (ar_timestamp r) with now. change (ar_area r) with (diagnostic_label area).
  change (ar_action r) with (diagnostic_label action). change (ar_details r) with (sanitize_details details).
  unfold AUDIT_DETAILS_BYTES, MAX_AUDIT_EVENT_BYTES in *. 
  assert (String.length (pretty (ie_version (ar_integrity r))) = 1%nat) as Hv by reflexivity.
  clearbody r. clear Hseq Hmac Hd.
  key_length "timestamp". key_length "area". key_length "action". key_length "details".
  key_length "integrity". key_length "version". key_length "sequence". key_length "previousMac".
  key_length "mac". cbn [String.length]. lia.
Qed.

(** A file system on which nothing fails. *)
Definition healthy (io : AuditIo) : Prop :=
  io_stat_fails io = false /\ (forall p, io_read_fails io p = false)
  /\ (forall p, io_remove_fails io p = false) /\ (forall p, io_rename_fails io p = false)
  /\ io_open_fails io = false /\ io_written io = None /\ io_sync_fails io = false.

(** On a healthy file system an append to a readable log succeeds: whatever the area,
    action and details are, the sanitized record fits the size limit, so the append returns
    without error, and the record it built is the last line of the active file. *)
Theorem append_succeeds io files key area action details max_file max legacy signed :
  well_formed key files max legacy signed -> healthy io ->
  utf8_valid (io_now io) = true -> (String.length (io_now io) <= 64)%nat ->
  details_read_back details ->
  (default 0%Z (ar_sequence <$> last signed) < u64_max)%Z ->
  exists files' r content,
    append_with_key io files key area action details max_file max = (Ok tt, files')
    /\ prepare_append io files key area action details max = Ok r
    /\ files' !! Active = Some (content +:+ print_record r +:+ nl).
Proof.
  intros Hwf (Hst & Hrd & Hrm & Hrn & Hop & Hwr & Hsy) Hnow Hlen Hd Hseq.
  destruct (verify_chain_accepts (io_read_fails io) files key max legacy signed) as [Hr Hm]; [by auto|done|].
  assert (forall q, last signed = Some q -> authentic key q) as Hlast.
  { intros q Hq%last_Some_elem_of. pose proof (wf_signed _ _ _ _ _ Hwf) as Hs.
    rewrite Forall_forall in Hs. auto. }
  assert (0 <= default 0%Z (ar_sequence <$> last signed))%Z as Hpos.
  { destruct (last signed) as [q|] eqn:Hq; [|done]. simpl.
    destruct (au_reads_back _ _ (Hlast q eq_refl)) as [Hp _]. by apply parse_record_u64 in Hp as [? _]. }
  pose proof (record_length key (io_now io) area action details
    (default 0%Z (ar_sequence <$> last signed) + 1) (ar_mac <$> last signed) Hd Hlen) as Hsize.
  assert (prepare_append io files key area action details max
    = Ok (next_record key (io_now io) area action details
        (default 0%Z (ar_sequence <$> last signed) + 1) (ar_mac <$> last signed))) as Hprep.
  { unfold prepare_append. rewrite Hr, Hm. cbn [rp_last_sequence log_report].
    replace (permits_read (log_report files max legacy signed)) with true
      by (by destruct legacy, signed).
    cbn [negb guard_err mbind result_bind].  rewrite (proj2 (Z.ltb_ge u64_max _)) by lia.
    cbn [guard_err mbind result_bind]. rewrite (proj2 (Z.ltb_ge MAX_AUDIT_EVENT_BYTES _)); [done|].
    apply Hsize; [lia|]. intros m Hx. destruct (last signed) as [q|] eqn:Hq; [|done].
    injection Hx as <-. rewrite (au_mac _ _ (Hlast q eq_refl)). done. }
  unfold append_with_key. rewrite Hprep. unfold store_line.
  destruct (rotate_Ok max_file max io (str_len (print_record (next_record key (io_now io) area action details
        (default 0%Z (ar_sequence <$> last signed) + 1) (ar_mac <$> last signed))) + 1) files)
    as [files1 ->]; [done..|].
  rewrite Hop, Hwr, Hsy. eexists _, _, _. split_and!; [done|done|by rewrite lookup_insert_eq].
Qed.

(** ** Deleted history *)

Lemma persist_marker b s u s' :
  persist_native_history_marker b s = (Ok u, s') -> nt_history_entry s' = Some HISTORY_MARKER.
Proof. unfold persist_native_history_marker. destruct b; [done|]. by intros [= _ <-]. Qed.

Lemma signing_key_keeps io s :
  let s' := (native_signing_key io s).2 in
  nt_files s' = nt_files s /\ nt_history_entry s' = nt_history_entry s.
Proof.
  unfold native_signing_key. destruct (nt_cached_key s); [done|]. destruct (ni_key_store_fails io); [done|].
  destruct (nt_key_entry s) as [e|]; [by destruct (decode_mac e)|].
  destruct (create_key_if_allowed _ _); done.
Qed.

(** A log without signed records counts none, or is refused. *)
Lemma no_records_no_count rf files key max :
  (forall r, print_record r ∉ lines_at files (audit_paths max)) ->
  permits_read (vs_report (verify_chain rf files key max)) = true ->
  rp_signed_events (vs_report (verify_chain rf files key max)) = 0%Z.
Proof.
  intros Hno Hp. destruct (verify_chain_sound _ _ _ _ Hp) as (legacy & signed & Hwf).
  destruct (verify_chain_accepts rf files key max legacy signed) as [-> _];
    [by apply (permits_readable key max)|done|].
  destruct signed as [|r signed]; [done|]. exfalso. apply (Hno r).
  rewrite (wf_lines _ _ _ _ _ Hwf). set_solver.
Qed.

Lemma reconcile_missing io report s :
  (permits_read report = true -> rp_signed_events report = 0%Z) ->
  permits_read (reconcile_history_marker io report true s).1 = false
  /\ (reconcile_history_marker io report true s).2 = s.
Proof.
  intros Hno. unfold reconcile_history_marker. destruct (permits_read report) eqn:E; [|done].
  by rewrite (Hno eq_refl).
Qed.

(** Deleting the signed history is noticed. Once an append succeeded, the credential
    store holds the marker; whenever later the files hold no signed record at all, whatever
    else they hold and whatever fails, the log is not reported as readable, its tail is
    empty, and appends are refused and leave the files alone. *)
Theorem deleted_history_is_noticed io area action details s s' io' s'' :
  append_legacy_event io area action details s = (Ok tt, s') ->
  nt_history_entry s'' = nt_history_entry s' ->
  (forall r, print_record r ∉ lines_at (nt_files s'') (audit_paths MAX_AUDIT_ARCHIVES)) ->
  permits_read (verify_audit_integrity io' s'').1 = false
  /\ (forall limit report tail,
        (verified_audit_tail io' limit s'').1 = Ok (report, tail) -> tail = [])
  /\ forall area' action' details', exists e s3,
        append_legacy_event io' area' action' details' s'' = (Err e, s3)
        /\ nt_files s3 = nt_files s''.
Proof.
  intros Happ Hentry Hno.
  assert (nt_history_entry s'' = Some HISTORY_MARKER) as Hmark.
  { rewrite Hentry. revert Happ. unfold append_legacy_event.
    destruct (ni_lock_poisoned io), (ni_mkdir_fails io); try done.
    destruct (native_signing_key io s) as [[key|e] s1]; [|done].
    destruct (native_history_marker io s1) as [mp|e]; [|done]. cbv zeta.
    destruct (reconcile_history_marker io _ mp s1) as [report s2].
    destruct (permits_read report); [|done]. cbn [negb].
    destruct (append_with_key _ _ _ _ _ _ _ _) as [[u|e] files]; [|done]. apply persist_marker. }
  pose proof (signing_key_keeps io' s'') as Hkey.
  assert (permits_read (vs_report (verify_native_state io' s'').1) = false) as Hbad.
  { unfold verify_native_state. destruct (native_signing_key io' s'') as [[key|e] s1]; [|done].
    simpl in Hkey. destruct Hkey as [Hf Hh]. unfold native_history_marker.
    destruct (ni_marker_store_fails io'); [done|]. rewrite Hh, Hmark. cbv zeta.
    destruct (reconcile_missing io'
      (vs_report (verify_chain (ni_read_fails io') (nt_files s1) key MAX_AUDIT_ARCHIVES)) s1) as [Hr _].
    { apply no_records_no_count. by rewrite Hf. }
    rewrite String.eqb_refl. by destruct (reconcile_history_marker _ _ _ _). }
  split_and!.
  - unfold verify_audit_integrity. destruct (ni_lock_poisoned io'); [done|].
    by destruct (verify_native_state io' s'').
  - intros limit report tail. unfold verified_audit_tail. destruct (ni_lock_poisoned io'); [done|].
    destruct (verify_native_state io' s'') as [state s1]. simpl in Hbad. rewrite Hbad.
    by intros [= _ <-].
  - intros area' action' details'. unfold append_legacy_event.
    destruct (ni_lock_poisoned io'); [by eauto|]. destruct (ni_mkdir_fails io'); [by eauto|].
    destruct (native_signing_key io' s'') as [[key|e] s1]; simpl in Hkey; destruct Hkey as [Hf Hh];
      [|by eauto].
    unfold native_history_marker. destruct (ni_marker_store_fails io'); [by eauto|].
    rewrite Hh, Hmark, String.eqb_refl. cbv zeta.
    destruct (reconcile_missing io'
      (vs_report (verify_chain (ni_read_fails io') (nt_files s1) key MAX_AUDIT_ARCHIVES)) s1) as [Hr Hs].
    { apply no_records_no_count. by rewrite Hf. }
    destruct (reconcile_history_marker io' _ true s1) as [report s2]. simpl in *. subst s2.
    rewrite Hr. simpl. eauto.
Qed.
End Native.
