(* ===== verification/AuditWitness.v ===== *)
(** * Concrete audit logs

    A MAC with a constant tag and a codec that knows two records satisfy the assumptions of
    the theorems about the audit log; the logs with these records instantiate them. *)

From S2P Require Import Prelude Text Json Redaction RedactionProperties AuditLog.
From S2P Require Import AuditProperties AuditSafety AuditNative.

Module AuditDemo.

#[global] Instance mac : Hmac := fun _ _ => "0123456789abcdef0123456789abcdef".

Definition record (sequence : Z) (previous : option string) : SignedAuditRecord :=
  {| ar_timestamp := "2026-01-01T00:00:00+00:00"; ar_area := "run"; ar_action := "start";
     ar_details := JNull;
     ar_integrity :=
       {| ie_version := 1; ie_sequence := sequence; ie_previous_mac := previous;
          ie_mac := encode_hex (mac "" "") |} |}.

Definition r1 : SignedAuditRecord := record 1 None.
Definition r2 : SignedAuditRecord := record 2 (Some (encode_hex (mac "" ""))).

(** Printing does not depend on the parser. *)
Definition printer : JsonText := {| parse_json _ := None; f64_repr _ := "0.5" |}.
Definition line1 : string := Eval vm_compute in @print_record printer r1.
Definition line2 : string := Eval vm_compute in @print_record printer r2.

#[global] Instance json : JsonText := {|
  parse_json s :=
    if String.eqb s "null" then Some JNull
    else if String.eqb s line1 || String.eqb s line2 then Some (JObject [("integrity", JNull)])
    else None;
  f64_repr _ := "0.5";
|}.

#[global] Instance codec : AuditCodec := fun s =>
  if String.eqb s line1 then Some r1 else if String.eqb s line2 then Some r2 else None.

#[global] Instance laws : AuditLaws.
Proof.
  split.
  - reflexivity.
  - reflexivity.
  - intros s v. unfold parse_json, json. repeat case_match; intros [= <-]; reflexivity.
  - intros line r. unfold parse_record, codec. repeat case_match; intros [= <-];
      unfold ar_sequence, u64_max; simpl; lia.
Qed.

Definition io : AuditIo :=
  {| io_stat_fails := false; io_read_fails _ := false; io_remove_fails _ := false;
     io_rename_fails _ := false; io_open_fails := false; io_written := None;
     io_sync_fails := false; io_now := "2026-01-01T00:00:00+00:00" |}.

Definition no_files : gmap AuditPath string := ∅.
Definition files1 : gmap AuditPath string := {[Active := line1 +:+ nl]}.
Definition files2 : gmap AuditPath string := {[Active := line1 +:+ nl +:+ line2 +:+ nl]}.

Lemma first_append :
  append_with_key io no_files "key" "run" "start" None MAX_AUDIT_FILE_BYTES 3 = (Ok tt, files1).
Proof. vm_compute. reflexivity. Qed.

Lemma second_append :
  append_with_key io files1 "key" "run" "start" None MAX_AUDIT_FILE_BYTES 3 = (Ok tt, files2).
Proof. vm_compute. reflexivity. Qed.

Lemma print1 : print_record r1 = line1.
Proof. vm_compute. reflexivity. Qed.

Lemma print2 : print_record r2 = line2.
Proof. vm_compute. reflexivity. Qed.

Lemma authentic1 : authentic "key" r1.
Proof.
  split; [split; [|eexists; split]|..];
    first [vm_compute; reflexivity | by intros m | idtac].
Qed.

Lemma authentic2 : authentic "key" r2.
Proof.
  split; [split; [|eexists; split]|..];
    first [vm_compute; reflexivity | intros m [= <-]; vm_compute; done].
Qed.

Lemma lines1 : lines_at files1 (audit_paths 3) = [line1].
Proof. vm_compute. reflexivity. Qed.

Lemma empty_well_formed : well_formed "key" no_files 3 [] [].
Proof. split; try done; constructor. Qed.

Lemma history1 : audit_history "key" MAX_AUDIT_FILE_BYTES 3 files1 [r1].
Proof.
  assert (stored_record "key" MAX_AUDIT_FILE_BYTES 3 io no_files "run" "start" None = [r1]) as Hs
    by (vm_compute; reflexivity).
  rewrite <- (app_nil_l [r1]), <- Hs.
  eapply (history_append _ _ _ no_files [] io "run" "start" None).
  - eapply history_start. apply empty_well_formed.
  - reflexivity.
  - reflexivity.
  - intros r Hr. vm_compute in Hr. injection Hr as <-. apply authentic1.
  - apply first_append.
Qed.

Lemma well_formed1 : well_formed "key" files1 3 [] [r1].
Proof.
  split.
  - intros p bytes _ Hb. unfold files1 in Hb. apply lookup_singleton_Some in Hb as [_ <-]. right.
    split; vm_compute; reflexivity.
  - vm_compute. reflexivity.
  - constructor.
  - repeat constructor; apply authentic1.
  - done.
Qed.

Lemma numbered12 : numbered "key" [r1; r2].
Proof.
  intros [|[|i]] r Hr; [injection Hr as <-|injection Hr as <-|done]; (split; [apply authentic1 || apply authentic2|]);
    unfold u64_max; split; try reflexivity; lia.
Qed.

(** With a constant tag, the canonical form follows from the line. *)
Lemma unforged1 : unforged "key" [r1; r2] (lines_at files1 (audit_paths 3)).
Proof.
  intros r Hr Hmac. exists r1. split; [by left|].
  rewrite lines1, list_elem_of_singleton, <- print1, !print_prefix in Hr.
  apply encode_decode in Hmac as [Hm _]. rewrite <- Hm in Hr.
  apply string_app_cancel_r in Hr. rewrite !canonical_prefix. by rewrite Hr.
Qed.

(** The log with its first record. *)
Lemma verification_is_exact_witness :
  well_formed "key" files1 3 [] [r1]
  /\ vs_report (verify_chain (fun _ => false) files1 "key" 3) = log_report files1 3 [] [r1].
Proof.
  split; [apply well_formed1|].
  apply (proj1 (verification_is_exact (fun _ => false) files1 "key" 3 (fun _ _ _ => eq_refl))).
  apply well_formed1.
Defined.

(** A log that lost its last record is still a part of the history. *)
Lemma verified_log_is_history_witness :
  exists legacy dropped kept rest,
    [r1; r2] = dropped ++ kept ++ rest
    /\ lines_at files1 (audit_paths 3) = legacy ++ (print_record <$> kept)
    /\ Forall legacy_line legacy
    /\ (kept <> [] ->
          ar_sequence <$> head kept = Some (Z.of_nat (length dropped) + 1)%Z
          /\ ar_sequence <$> last kept = Some (Z.of_nat (length dropped + length kept))).
Proof.
  apply (verified_log_is_history (fun _ => false) files1 "key" 3 [r1; r2]).
  - apply numbered12.
  - apply unforged1.
  - vm_compute. reflexivity.
Defined.

Lemma max_fits : (MAX_AUDIT_EVENT_BYTES + 1 <= MAX_AUDIT_FILE_BYTES < u64_max)%Z.
Proof. unfold MAX_AUDIT_EVENT_BYTES, MAX_AUDIT_FILE_BYTES, u64_max. lia. Qed.

Lemma appends_keep_log_verified_witness :
  numbered "key" [r1]
  /\ exists legacy dropped kept,
       [r1] = dropped ++ kept /\ ([r1] <> [] -> kept <> [])
       /\ lines_at files1 (audit_paths 3) = legacy ++ (print_record <$> kept)
       /\ vs_report (verify_chain (fun _ => false) files1 "key" 3) = log_report files1 3 legacy kept
       /\ permits_read (vs_report (verify_chain (fun _ => false) files1 "key" 3)) = true
       /\ default 0%Z (rp_last_sequence (vs_report (verify_chain (fun _ => false) files1 "key" 3)))
          = 1%Z.
Proof.
  apply (appends_keep_log_verified "key" MAX_AUDIT_FILE_BYTES 3); [lia|apply max_fits|].
  apply history1.
Defined.

(** The write of the second record stops after ten bytes. *)
Definition torn_io : AuditIo :=
  {| io_stat_fails := false; io_read_fails _ := false; io_remove_fails _ := false;
     io_rename_fails _ := false; io_open_fails := false; io_written := Some 10%nat;
     io_sync_fails := false; io_now := "2026-01-01T00:00:00+00:00" |}.

Lemma torn_write_blocks_log_witness :
  exists files',
    append_with_key torn_io files1 "key" "run" "start" None MAX_AUDIT_FILE_BYTES 3
      = (Err AUDIT_STORAGE_FAILED, files')
    /\ (forall rf, permits_read (vs_report (verify_chain rf files' "key" 3)) = false)
    /\ forall io' area' action' details',
         append_with_key io' files' "key" area' action' details' MAX_AUDIT_FILE_BYTES 3
         = (Err AUDIT_INTEGRITY_FAILED, files').
Proof.
  apply (torn_write_blocks_log "key" MAX_AUDIT_FILE_BYTES 3 ltac:(lia) max_fits torn_io files1
           "run" "start" None r2 10).
  - vm_compute. reflexivity.
  - reflexivity.
  - done.
  - reflexivity.
  - rewrite print2. simpl. lia.
Defined.

Lemma append_succeeds_witness :
  exists files' r content,
    append_with_key io files1 "key" "run" "start" None MAX_AUDIT_FILE_BYTES 3 = (Ok tt, files')
    /\ prepare_append io files1 "key" "run" "start" None 3 = Ok r
    /\ files' !! Active = Some (content +:+ print_record r +:+ nl).
Proof.
  apply (append_succeeds io files1 "key" "run" "start" None MAX_AUDIT_FILE_BYTES 3 [] [r1]).
  - apply well_formed1.
  - done.
  - reflexivity.
  - simpl. lia.
  - split; [reflexivity|]. split; [reflexivity|]. left. vm_compute. done.
  - unfold u64_max, ar_sequence. simpl. lia.
Defined.

(** A fresh installation, and the service after its first event. *)
Definition native_io : NativeIo :=
  {| ni_lock_poisoned := false; ni_mkdir_fails := false; ni_key_store_fails := false;
     ni_key_set_fails := false; ni_random := Some "key"; ni_stat_fails _ := false;
     ni_marker_store_fails := false; ni_marker_set_fails := false; ni_marker_update_fails := false;
     ni_read_fails _ := false; ni_io := io |}.

Definition fresh : Native :=
  {| nt_files := no_files; nt_key_entry := None; nt_history_entry := None; nt_cached_key := None |}.

Definition started : Native :=
  {| nt_files := files1; nt_key_entry := Some (encode_hex "key");
     nt_history_entry := Some HISTORY_MARKER; nt_cached_key := Some "key" |}.

Lemma deleted_history_is_noticed_witness :
  append_legacy_event native_io "run" "start" None fresh = (Ok tt, started)
  /\ permits_read (verify_audit_integrity native_io (set_files no_files started)).1 = false.
Proof.
  assert (append_legacy_event native_io "run" "start" None fresh = (Ok tt, started)) as Happ
    by (vm_compute; reflexivity).
  split; [exact Happ|].
  apply (deleted_history_is_noticed native_io "run" "start" None fresh started native_io
           (set_files no_files started) Happ eq_refl).
  intros r Hr. change (print_record r ∈ []) in Hr. by apply not_elem_of_nil in Hr.
Defined.
End AuditDemo.
