(* ===== verification/Contracts.v ===== *)
(** * Shared contracts (crates/cowork-contracts/src/lib.rs)

    The versioned wire types every runtime shares, the run state machine and its
    guard functions, and the textual names under which the server stores run
    states, executor kinds and event kinds (server/cowork-server/src/db.rs). *)

From S2P Require Import Prelude.
From S2P Require Import Json.

(** Instants are microseconds since the Unix epoch, PostgreSQL's resolution. *)
Abbreviation DateTime := Z (only parsing).

Definition seconds (n : Z) : Z := (n * 1000000)%Z.
Definition minutes (n : Z) : Z := seconds (60 * n).
Definition days (n : Z) : Z := seconds (86400 * n).

Definition SCHEMA_VERSION : Z := 2.
Definition MIN_COMPATIBLE_SCHEMA_VERSION : Z := 1.

(** [Capability(pub String)] is a transparent wrapper. *)
Abbreviation Capability := string (only parsing).

Module capabilities.
Definition files : Capability := "files".
Definition shell : Capability := "shell".
Definition git : Capability := "git".
Definition mcp : Capability := "mcp".
Definition mcp_invoke : Capability := "tool.mcp.invoke".
Definition browser_headless : Capability := "browser.headless".
Definition browser_visible : Capability := "browser.visible".
Definition desktop_linux : Capability := "desktop.linux".
Definition desktop_windows : Capability := "desktop.windows".
Definition office_ooxml : Capability := "office.ooxml".
Definition office_libreoffice : Capability := "office.libreoffice".
Definition office_microsoft : Capability := "office.microsoft".
Definition model_external : Capability := "model.external".
Definition model_ollama : Capability := "model.ollama".
Definition model_vllm : Capability := "model.vllm".
Definition crew_python : Capability := "crew.python".
End capabilities.

Inductive ExecutorTarget : Type :=
| ServerLinux (pool_id : option Uuid)
| ManagedWindowsPool (pool_id : Uuid)
| PersonalDevice (device_id : Uuid).

Inductive ExecutorKind : Type :=
| KServerLinux
| KManagedWindows
| KPersonalDevice.

Inductive PersonalDeviceRemoteControlMode : Type :=
| Off
| ConfirmEachSession
| Unattended.

Inductive RunState : Type :=
| Queued
| WaitingForExecutor
| WaitingForSnapshot
| Running
| WaitingApproval
| WaitingInput
| Interrupted
| Completed
| Failed
| Canceled
| Expired.

Inductive ProjectPrivacy : Type :=
| PrivateLocal
| TeamManaged.

Inductive RunEventKind : Type :=
| EvCreated
| EvStateChanged
| EvModelStarted
| EvModelDelta
| EvModelCompleted
| EvToolStarted
| EvToolCompleted
| EvToolFailed
| EvCheckpointCreated
| EvApprovalRequested
| EvApprovalResolved
| EvInputRequested
| EvInputReceived
| EvArtifactCreated
| EvDesktopSessionChanged
| EvExecutorAssigned
| EvExecutorHeartbeat
| EvWarning
| EvFailed
| EvCompleted.

Inductive MessageRole : Type :=
| RoleUser
| RoleAssistant
| RoleSystem
| RoleTool.

Inductive ApprovalState : Type :=
| ApprovalPending
| ApprovalApproved
| ApprovalRejected
| ApprovalExpired.

Inductive ApprovalDecision : Type :=
| DecisionApproved
| DecisionRejected.

Inductive InputRequestState : Type :=
| InputPending
| InputSubmitted
| InputExpired.

#[global] Instance ExecutorTarget_eq_dec : EqDecision ExecutorTarget.
Proof. solve_decision. Defined.
#[global] Instance ExecutorKind_eq_dec : EqDecision ExecutorKind.
Proof. solve_decision. Defined.
#[global] Instance RemoteControlMode_eq_dec : EqDecision PersonalDeviceRemoteControlMode.
Proof. solve_decision. Defined.
#[global] Instance RunState_eq_dec : EqDecision RunState.
Proof. solve_decision. Defined.
#[global] Instance ProjectPrivacy_eq_dec : EqDecision ProjectPrivacy.
Proof. solve_decision. Defined.
#[global] Instance RunEventKind_eq_dec : EqDecision RunEventKind.
Proof. solve_decision. Defined.
#[global] Instance MessageRole_eq_dec : EqDecision MessageRole.
Proof. solve_decision. Defined.
#[global] Instance ApprovalState_eq_dec : EqDecision ApprovalState.
Proof. solve_decision. Defined.
#[global] Instance ApprovalDecision_eq_dec : EqDecision ApprovalDecision.
Proof. solve_decision. Defined.
#[global] Instance InputRequestState_eq_dec : EqDecision InputRequestState.
Proof. solve_decision. Defined.

(** ** The run state machine *)

Definition is_terminal (s : RunState) : bool :=
  match s with
  | Completed | Failed | Canceled | Expired => true
  | _ => false
  end.

Definition can_transition_to (s next : RunState) : bool :=
  if decide (s = next) then true else
  match s, next with
  | Queued, (WaitingForExecutor | WaitingForSnapshot | Running | Canceled | Expired) => true
  | WaitingForExecutor, (Queued | Running | Canceled | Expired) => true
  | WaitingForSnapshot, (Queued | WaitingForExecutor | Canceled | Expired) => true
  | Running, (WaitingApproval | WaitingInput | Interrupted | Completed | Failed | Canceled) => true
  | WaitingApproval, (Running | Interrupted | Failed | Canceled | Expired) => true
  | WaitingInput, (Running | Interrupted | Failed | Canceled | Expired) => true
  | Interrupted, (Queued | Failed | Canceled | Expired) => true
  | _, _ => false
  end.

Inductive ContractError : Type :=
| UnsupportedSchemaVersion (actual minimum maximum : Z)
| InvalidRunTransition (from to : RunState).

Definition ensure_compatible (schema_version : Z) : result ContractError unit :=
  if bool_decide (MIN_COMPATIBLE_SCHEMA_VERSION ≤ schema_version ≤ SCHEMA_VERSION)%Z
  then Ok tt
  else Err (UnsupportedSchemaVersion schema_version MIN_COMPATIBLE_SCHEMA_VERSION SCHEMA_VERSION).

Definition ensure_run_transition (from to : RunState) : result ContractError unit :=
  if can_transition_to from to then Ok tt else Err (InvalidRunTransition from to).

(** [Debug for RunState], as error messages print it *)
Definition state_debug (s : RunState) : string :=
  match s with
  | Queued => "Queued"
  | WaitingForExecutor => "WaitingForExecutor"
  | WaitingForSnapshot => "WaitingForSnapshot"
  | Running => "Running"
  | WaitingApproval => "WaitingApproval"
  | WaitingInput => "WaitingInput"
  | Interrupted => "Interrupted"
  | Completed => "Completed"
  | Failed => "Failed"
  | Canceled => "Canceled"
  | Expired => "Expired"
  end.

(** [Display for ContractError] *)
Definition contract_error_to_string (e : ContractError) : string :=
  match e with
  | UnsupportedSchemaVersion actual minimum maximum =>
      "unsupported schema version " +:+ pretty actual +:+ "; supported range is "
      +:+ pretty minimum +:+ "..=" +:+ pretty maximum
  | InvalidRunTransition from to =>
      "invalid run state transition from " +:+ state_debug from +:+ " to " +:+ state_debug to
  end.

(** ** Records *)

Record FrozenReference := { ref_id : Uuid; ref_revision : Z }.

Record RunSpec := {
  spec_schema_version : Z;
  spec_id : Uuid;
  spec_thread_id : Uuid;
  spec_project_id : Uuid;
  spec_project : FrozenReference;
  spec_project_privacy : ProjectPrivacy;
  spec_task : option FrozenReference;
  spec_creator_user_id : Uuid;
  spec_executor_target : ExecutorTarget;
  spec_required_capabilities : list Capability;
  spec_input : Value;
  spec_model_profile_id : option Uuid;
  spec_snapshot_id : option Uuid;
  spec_idempotency_key : string;
  spec_created_at : DateTime;
}.

Record RunError := {
  err_code : string;
  err_message : string;
  err_retryable : bool;
  err_details : Value;
}.

Record RunRecord := {
  rec_spec : RunSpec;
  rec_state : RunState;
  rec_revision : Z;
  rec_etag : string;
  rec_assigned_executor_id : option Uuid;
  rec_lease_expires_at : option DateTime;
  rec_started_at : option DateTime;
  rec_finished_at : option DateTime;
  rec_result : option Value;
  rec_error : option RunError;
  rec_updated_at : DateTime;
}.

Record RunEvent := {
  ev_schema_version : Z;
  ev_run_id : Uuid;
  ev_sequence : Z;
  ev_event_id : Uuid;
  ev_kind : RunEventKind;
  ev_payload : Value;
  ev_created_at : DateTime;
}.

Record CapabilityDescriptor := {
  cap_schema_version : Z;
  cap_name : Capability;
  cap_version : string;
  cap_attributes : list (string * Value);
}.

Record ExecutorRegistration := {
  reg_schema_version : Z;
  reg_executor_id : Uuid;
  reg_kind : ExecutorKind;
  reg_pool_id : option Uuid;
  reg_owner_user_id : option Uuid;
  reg_display_name : string;
  reg_protocol_version : Z;
  reg_capabilities : list CapabilityDescriptor;
  reg_labels : list (string * string);
  reg_personal_device_remote_control : option PersonalDeviceRemoteControlMode;
  reg_max_concurrent_runs : Z;
}.

Record ExecutorRecord := {
  exr_registration : ExecutorRegistration;
  exr_online : bool;
  exr_draining : bool;
  exr_active_runs : Z;
  exr_last_seen_at : DateTime;
}.

Record RunLease := {
  lease_schema_version : Z;
  lease_run : RunRecord;
  lease_lease_token : Uuid;
  lease_lease_expires_at : DateTime;
}.

Record MessageRecord := {
  msg_schema_version : Z;
  msg_id : Uuid;
  msg_revision : Z;
  msg_etag : string;
  msg_thread_id : Uuid;
  msg_author_user_id : option Uuid;
  msg_role : MessageRole;
  msg_content : Value;
  msg_run_id : option Uuid;
  msg_created_at : DateTime;
  msg_updated_at : DateTime;
  msg_deleted_at : option DateTime;
}.

#[global] Instance FrozenReference_eq_dec : EqDecision FrozenReference.
Proof. solve_decision. Defined.
#[global] Instance RunSpec_eq_dec : EqDecision RunSpec.
Proof. solve_decision. Defined.
#[global] Instance RunError_eq_dec : EqDecision RunError.
Proof. solve_decision. Defined.

(** [serde_json::to_value(error)] for a run error *)
Definition run_error_to_value (e : RunError) : Value :=
  json_obj [("code", JString (err_code e)); ("message", JString (err_message e));
            ("retryable", JBool (err_retryable e)); ("details", err_details e)].

(** ** Stored names *)

Definition state_name (s : RunState) : string :=
  match s with
  | Queued => "queued"
  | WaitingForExecutor => "waiting_for_executor"
  | WaitingForSnapshot => "waiting_for_snapshot"
  | Running => "running"
  | WaitingApproval => "waiting_approval"
  | WaitingInput => "waiting_input"
  | Interrupted => "interrupted"
  | Completed => "completed"
  | Failed => "failed"
  | Canceled => "canceled"
  | Expired => "expired"
  end.

Definition parse_state (value : string) : option RunState :=
  if String.eqb value "queued" then Some Queued
  else if String.eqb value "waiting_for_executor" then Some WaitingForExecutor
  else if String.eqb value "waiting_for_snapshot" then Some WaitingForSnapshot
  else if String.eqb value "running" then Some Running
  else if String.eqb value "waiting_approval" then Some WaitingApproval
  else if String.eqb value "waiting_input" then Some WaitingInput
  else if String.eqb value "interrupted" then Some Interrupted
  else if String.eqb value "completed" then Some Completed
  else if String.eqb value "failed" then Some Failed
  else if String.eqb value "canceled" then Some Canceled
  else if String.eqb value "expired" then Some Expired
  else None.

Definition executor_kind_name (k : ExecutorKind) : string :=
  match k with
  | KServerLinux => "server_linux"
  | KManagedWindows => "managed_windows"
  | KPersonalDevice => "personal_device"
  end.

Definition event_kind_name (k : RunEventKind) : string :=
  match k with
  | EvCreated => "created"
  | EvStateChanged => "state_changed"
  | EvModelStarted => "model_started"
  | EvModelDelta => "model_delta"
  | EvModelCompleted => "model_completed"
  | EvToolStarted => "tool_started"
  | EvToolCompleted => "tool_completed"
  | EvToolFailed => "tool_failed"
  | EvCheckpointCreated => "checkpoint_created"
  | EvApprovalRequested => "approval_requested"
  | EvApprovalResolved => "approval_resolved"
  | EvInputRequested => "input_requested"
  | EvInputReceived => "input_received"
  | EvArtifactCreated => "artifact_created"
  | EvDesktopSessionChanged => "desktop_session_changed"
  | EvExecutorAssigned => "executor_assigned"
  | EvExecutorHeartbeat => "executor_heartbeat"
  | EvWarning => "warning"
  | EvFailed => "failed"
  | EvCompleted => "completed"
  end.

(** The serde names of the variants ([rename_all = snake_case]), in declaration order. *)
Definition event_kind_names : list (string * RunEventKind) :=
  [("created", EvCreated); ("state_changed", EvStateChanged);
   ("model_started", EvModelStarted); ("model_delta", EvModelDelta);
   ("model_completed", EvModelCompleted); ("tool_started", EvToolStarted);
   ("tool_completed", EvToolCompleted); ("tool_failed", EvToolFailed);
   ("checkpoint_created", EvCheckpointCreated);
   ("approval_requested", EvApprovalRequested);
   ("approval_resolved", EvApprovalResolved); ("input_requested", EvInputRequested);
   ("input_received", EvInputReceived); ("artifact_created", EvArtifactCreated);
   ("desktop_session_changed", EvDesktopSessionChanged);
   ("executor_assigned", EvExecutorAssigned);
   ("executor_heartbeat", EvExecutorHeartbeat); ("warning", EvWarning);
   ("failed", EvFailed); ("completed", EvCompleted)].

Definition parse_event_kind (value : string) : option RunEventKind :=
  snd <$> List.find (fun p => String.eqb value p.1) event_kind_names.

Definition message_role_name (r : MessageRole) : string :=
  match r with
  | RoleUser => "user"
  | RoleAssistant => "assistant"
  | RoleSystem => "system"
  | RoleTool => "tool"
  end.

Definition privacy_name (p : ProjectPrivacy) : string :=
  match p with
  | PrivateLocal => "private_local"
  | TeamManaged => "team_managed"
  end.

(** ** Sync *)

Inductive SyncOperation : Type := Upsert | Delete.

Inductive SyncApplyStatus : Type := Applied | SyncConflict.

(** [ch_client_timestamp] is in nanoseconds, the resolution of chrono. *)
Record SyncChange := {
  ch_schema_version : Z;
  ch_operation_id : Uuid;
  ch_device_id : Uuid;
  ch_entity_type : string;
  ch_entity_id : Uuid;
  ch_base_revision : Z;
  ch_operation : SyncOperation;
  ch_payload : option Value;
  ch_client_timestamp : Z;
}.

Record SyncedEntity := {
  sd_entity_type : string;
  sd_entity_id : Uuid;
  sd_revision : Z;
  sd_etag : string;
  sd_payload : option Value;
  sd_tombstone : bool;
  sd_updated_at : DateTime;
}.

Record SyncApplyResult := {
  sa_operation_id : Uuid;
  sa_status : SyncApplyStatus;
  sa_entity : option SyncedEntity;
}.

Record ServerSyncChange := {
  sv_cursor : Z;
  sv_entity_type : string;
  sv_entity_id : Uuid;
  sv_revision : Z;
  sv_operation : SyncOperation;
  sv_payload : option Value;
  sv_created_at : DateTime;
}.

#[global] Instance SyncOperation_eq_dec : EqDecision SyncOperation.
Proof. solve_decision. Defined.

Definition operation_name (operation : SyncOperation) : string :=
  match operation with
  | Upsert => "upsert"
  | Delete => "delete"
  end.

Definition parse_operation (operation : string) : option SyncOperation :=
  if String.eqb operation "upsert" then Some Upsert
  else if String.eqb operation "delete" then Some Delete
  else None.

(** ** Facts about the state machine *)

(** The states in which an executor holds a lease on the run. *)
Definition is_leased_state (s : RunState) : bool :=
  match s with
  | Running | WaitingApproval | WaitingInput => true
  | _ => false
  end.

(** One transition the contract allows, and the paths made of them. *)
Definition run_transition (s s' : RunState) : Prop := can_transition_to s s' = true.

Definition run_path : RunState -> RunState -> Prop := rtc run_transition.

#[global] Instance run_path_refl : Reflexive run_path.
Proof. unfold run_path. apply _. Qed.
#[global] Instance run_path_trans : Transitive run_path.
Proof. unfold run_path. apply _. Qed.

Lemma run_transition_path s s' : can_transition_to s s' = true -> run_path s s'.
Proof. intros H. by apply rtc_once. Qed.

Lemma terminal_transition s s' :
  is_terminal s = true -> can_transition_to s s' = true -> s' = s.
Proof. by destruct s, s'. Qed.

Lemma terminal_path s s' : run_path s s' -> is_terminal s = true -> s' = s.
Proof.
  induction 1 as [|s1 s2 s3 H12 _ IH]; [done|].
  intros Ht. pose proof (terminal_transition _ _ Ht H12) as ->. auto.
Qed.

Lemma ensure_run_transition_Ok from to :
  ensure_run_transition from to = Ok tt <-> can_transition_to from to = true.
Proof. unfold ensure_run_transition. by destruct can_transition_to. Qed.

Lemma parse_state_name s : parse_state (state_name s) = Some s.
Proof. by destruct s. Qed.

Lemma parse_event_kind_name k : parse_event_kind (event_kind_name k) = Some k.
Proof. by destruct k. Qed.

Create HintDb contracts.
#[export] Hint Resolve run_transition_path : contracts.
