(* ===== verification/Store.v ===== *)
(** * The control plane's tables and transactions

    The PostgreSQL tables of server/cowork-server/migrations that the modelled
    server code reads and writes, as finite maps from primary keys to rows, and a
    transaction monad for the code between [pool.begin()] and [tx.commit()]. A
    failed transaction is dropped uncommitted, so it leaves the tables as they
    were. A JSONB column that holds a serde-encoded struct is kept decoded, and a
    TEXT column that holds an enumeration is kept as that enumeration (Contracts
    proves the name round trips). BIGINT and INTEGER arithmetic is range checked,
    as PostgreSQL does; columns no modelled statement reads or writes, and foreign
    keys into the users and executor-pool tables, are left out. *)

From S2P Require Import Prelude.
From S2P Require Import Json.
From S2P Require Import Contracts.

(** ** Errors (server/cowork-server/src/error.rs) *)

(** The database failures the statements of the model can raise. *)
Inductive DbError : Type :=
| RowNotFound
| UniqueViolation (constraint : string)
| ForeignKeyViolation (constraint : string)
| NumericOutOfRange
| UnexpectedNull (column : string).

Inductive ApiError : Type :=
| BadRequest (message : string)
| Unauthorized (message : string)
| NotFound (message : string)
| Conflict (message : string)
| Unprocessable (message : string)
| Quota (message : string)
| Database (error : DbError)
| Json (message : string)
| Internal (message : string).

(** The status code and error code of the response, [IntoResponse for ApiError]. *)
Definition into_response (e : ApiError) : Z * string :=
  match e with
  | BadRequest _ => (400, "bad_request")
  | Unauthorized _ => (401, "unauthorized")
  | NotFound _ => (404, "not_found")
  | Conflict _ => (409, "conflict")
  | Unprocessable _ => (422, "unprocessable")
  | Quota _ => (429, "quota_exceeded")
  | Database _ => (500, "database_error")
  | Json _ => (400, "invalid_json")
  | Internal _ => (500, "internal_error")
  end%Z.

(** ** Rows *)

(** The columns of [runs] that INSERT writes and no statement updates. *)
Record RunInsert := {
  ins_thread_id : Uuid;
  ins_project_id : Uuid;
  ins_creator_user_id : Uuid;
  ins_idempotency_key : string;
  ins_target_kind : string;
  ins_target_pool_id : option Uuid;
  ins_target_device_id : option Uuid;
  ins_spec : RunSpec;
  ins_snapshot_id : option Uuid;
  ins_created_at : DateTime;
}.

(** A row of [runs], keyed by id. *)
Record RunRow := MkRunRow {
  run_ins : RunInsert;
  run_state : RunState;
  run_revision : Z;
  run_result : option Value;
  run_error : option RunError;
  run_assigned_executor_id : option Uuid;
  run_lease_owner : option Uuid;
  run_lease_token : option Uuid;
  run_lease_expires_at : option DateTime;
  run_updated_at : DateTime;
  run_started_at : option DateTime;
  run_finished_at : option DateTime;
  run_next_event_sequence : Z;
}.

Record EventRow := {
  evr_run_id : Uuid;
  evr_sequence : Z;
  evr_kind : RunEventKind;
  evr_payload : Value;
  evr_created_at : DateTime;
}.

(** A row of [executors], keyed by id. *)
Record ExecutorRow := MkExecutorRow {
  exw_kind : ExecutorKind;
  exw_pool_id : option Uuid;
  exw_owner_user_id : option Uuid;
  exw_registration : ExecutorRegistration;
  exw_protocol_version : Z;
  exw_max_concurrent_runs : Z;
  exw_active_runs : Z;
  exw_draining : bool;
  exw_last_seen_at : DateTime;
  exw_updated_at : DateTime;
}.

Record CheckpointRow := {
  ck_run_id : Uuid;
  ck_sequence : Z;
  ck_safe_to_resume : bool;
  ck_executor_state : Value;
  ck_created_at : DateTime;
}.

Record ApprovalRow := {
  apr_run_id : Uuid;
  apr_revision : Z;
  apr_etag : string;
  apr_requested_action : Value;
  apr_state : ApprovalState;
  apr_requested_at : DateTime;
  apr_expires_at : DateTime;
  apr_resolved_by : option Uuid;
  apr_resolved_at : option DateTime;
  apr_requested_by_executor_id : option Uuid;
  apr_source_request_id : option Uuid;
}.

Record InputRow := {
  inr_run_id : Uuid;
  inr_revision : Z;
  inr_etag : string;
  inr_prompt : Value;
  inr_state : InputRequestState;
  inr_response : option Value;
  inr_requested_at : DateTime;
  inr_expires_at : DateTime;
  inr_responded_by : option Uuid;
  inr_responded_at : option DateTime;
  inr_source_request_id : option Uuid;
}.

Record MessageRow := {
  mr_revision : Z;
  mr_etag : string;
  mr_thread_id : Uuid;
  mr_author_user_id : option Uuid;
  mr_role : MessageRole;
  mr_content : Value;
  mr_run_id : option Uuid;
  mr_created_at : DateTime;
  mr_updated_at : DateTime;
  mr_deleted_at : option DateTime;
}.

Record ThreadRow := {
  th_revision : Z;
  th_etag : string;
  th_project_id : Uuid;
  th_created_by : Uuid;
  th_title : string;
  th_created_at : DateTime;
  th_updated_at : DateTime;
  th_deleted_at : option DateTime;
}.

Record ProjectRow := {
  pr_revision : Z;
  pr_etag : string;
  pr_owner_user_id : Uuid;
  pr_team_id : option Uuid;
  pr_privacy : ProjectPrivacy;
  pr_name : string;
  pr_description : string;
  pr_preferred_executor_target : option Value;
  pr_policy : Value;
  pr_current_version_id : option Uuid;
  pr_created_at : DateTime;
  pr_updated_at : DateTime;
  pr_deleted_at : option DateTime;
}.

Record ProjectVersionRow := {
  pv_project_id : Uuid;
  pv_revision : Z;
  pv_parent_version_id : option Uuid;
  pv_merge_base_version_id : option Uuid;
  pv_snapshot_manifest_id : Uuid;
  pv_created_by_user_id : option Uuid;
  pv_created_by_run_id : option Uuid;
  pv_diff_summary : Value;
  pv_created_at : DateTime;
}.

Record SnapshotUploadChunk := { uc_digest : string; uc_plaintext_size : Z }.

#[global] Instance SnapshotUploadChunk_eq_dec : EqDecision SnapshotUploadChunk.
Proof. solve_decision. Defined.

Record SnapshotUploadFile := {
  uf_path : string;
  uf_size : Z;
  uf_mode : Z;
  uf_modified_at : DateTime;
  uf_chunks : list SnapshotUploadChunk;
}.

#[global] Instance SnapshotUploadFile_eq_dec : EqDecision SnapshotUploadFile.
Proof. solve_decision. Defined.

Record ManifestRow := {
  mf_project_id : Uuid;
  mf_created_by : Uuid;
  mf_key_scope_type : string;
  mf_key_scope_id : Uuid;
  mf_encryption_key_id : string;
  mf_total_bytes : Z;
  mf_file_count : Z;
  mf_manifest : list SnapshotUploadFile;
  mf_status : string;
  mf_source_run_id : option Uuid;
  mf_created_at : DateTime;
  mf_expires_at : option DateTime;
  mf_upload_expires_at : DateTime;
  mf_warnings : list string;
  mf_committed_at : option DateTime;
}.

(** The primary key of [snapshot_chunks]: the key scope's type and id and the digest, in its
    hexadecimal text. *)
Definition ChunkKey : Type := string * Uuid * string.

#[global] Instance ChunkKey_eq_dec : EqDecision ChunkKey := _.
#[global] Instance ChunkKey_countable : Countable ChunkKey := _.

(** Binary columns are byte strings. *)
Record ArtifactRow := {
  af_run_id : Uuid;
  af_revision : Z;
  af_kind : string;
  af_media_type : string;
  af_name : string;
  af_object_key : string;
  af_digest : string;
  af_size_bytes : Z;
  af_metadata : Value;
  af_key_scope_type : option string;
  af_key_scope_id : option Uuid;
  af_encrypted_data_key : option string;
  af_nonce : option string;
  af_wrap_nonce : option string;
  af_source_event_id : option Uuid;
  af_created_at : DateTime;
  af_deleted_at : option DateTime;
}.

Record ChunkRow := {
  ck_object_key : string;
  ck_plaintext_size : Z;
  ck_ciphertext_size : Z;
  ck_wrapped_data_key : string;
  ck_nonce : string;
  ck_wrap_nonce : option string;
  ck_ref_count : Z;
  ck_status : string;
  ck_last_referenced_at : DateTime;
}.

Record LimitsRow := {
  ql_storage_bytes : option Z;
  ql_concurrent_runs : option Z;
  ql_monthly_tokens : option Z;
  ql_monthly_cost_micros : option Z;
  ql_hard_cost_limit : bool;
  ql_updated_at : DateTime;
}.

Record UsageRow := {
  qu_tokens : Z;
  qu_cost_micros : Z;
  qu_updated_at : DateTime;
}.

Record PushSubscriptionRow := {
  ps_user_id : Uuid;
  ps_device_id : Uuid;
  ps_revoked_at : option DateTime;
}.

Record PushDeliveryRow := {
  pd_run_id : Uuid;
  pd_user_id : Uuid;
  pd_event_sequence : Z;
  pd_event_kind : RunEventKind;
}.

Record SyncEntityRow := {
  se_revision : Z;
  se_etag : string;
  se_payload : option Value;
  se_tombstone : bool;
  se_updated_at : DateTime;
}.

Record SyncChangeRow := {
  sc_cursor : Z;
  sc_user_id : Uuid;
  sc_entity_type : string;
  sc_entity_id : Uuid;
  sc_revision : Z;
  sc_operation : string;
  sc_payload : option Value;
  sc_created_at : DateTime;
}.

(** A row of [task_definitions], keyed by id and revision. *)
Record TaskRow := {
  td_etag : string;
  td_project_id : Uuid;
  td_name : string;
  td_instructions : string;
  td_required_capabilities : Value;
  td_default_executor_target : option Value;
  td_config : Value;
  td_released : bool;
  td_created_by : Uuid;
  td_created_at : DateTime;
  td_deleted_at : option DateTime;
}.

Record ScheduleRow := {
  sh_revision : Z;
  sh_etag : string;
  sh_task_id : Uuid;
  sh_project_id : Uuid;
  sh_thread_id : Uuid;
  sh_cron_expression : string;
  sh_timezone : string;
  sh_executor_target : Value;
  sh_input : Value;
  sh_model_profile_id : option Uuid;
  sh_enabled : bool;
  sh_next_run_at : option DateTime;
  sh_last_triggered_at : option DateTime;
  sh_blocked_reason : option string;
  sh_created_by : Uuid;
  sh_created_at : DateTime;
  sh_updated_at : DateTime;
  sh_deleted_at : option DateTime;
}.

(** [pf_secret] are the four columns of the sealed secret, which are set together. *)
Record ProfileRow := {
  pf_revision : Z;
  pf_etag : string;
  pf_owner_user_id : option Uuid;
  pf_team_id : option Uuid;
  pf_name : string;
  pf_provider_kind : string;
  pf_model_defaults : Value;
  pf_secret : option (string * string * string * string);
  pf_updated_at : DateTime;
  pf_deleted_at : option DateTime;
}.

Record PoolRow := {
  po_kind : ExecutorKind;
  po_deleted_at : option DateTime;
}.

(** [op_result] is the stored answer, decoded. *)
Record OperationRow := {
  op_device_id : Uuid;
  op_user_id : Uuid;
  op_entity_type : string;
  op_entity_id : Uuid;
  op_base_revision : Z;
  op_operation : string;
  op_payload : option Value;
  op_client_timestamp : DateTime;
  op_server_revision : option Z;
  op_result : SyncApplyResult;
}.

Record UserRow := {
  us_platform_admin : bool;
  us_deleted_at : option DateTime;
}.

Record SupportGrantRow := {
  sg_support_user_id : Uuid;
  sg_project_id : option Uuid;
  sg_thread_id : option Uuid;
  sg_expires_at : DateTime;
  sg_revoked_at : option DateTime;
}.

Record AuditEventRow := {
  ae_actor_user_id : option Uuid;
  ae_action : string;
  ae_target_type : string;
  ae_target_id : option Uuid;
  ae_metadata : Value;
  ae_created_at : DateTime;
}.

(** The tables; [run_events] is keyed by its unique [event_id], [executor_pool_project_grants]
    by pool and project, [team_members] by team and user and [project_members] by project and
    user, with the role's name; [server_mcp_bindings] by project and metadata entity, with the
    binding's name; [snapshot_manifest_chunks] by manifest, path and index, with the chunk's
    key; [sync_sequence] is the last value of the sequence behind
    [sync_changes.cursor]. *)
Record Db := MkDb {
  runs : gmap Uuid RunRow;
  run_events : gmap Uuid EventRow;
  executors : gmap Uuid ExecutorRow;
  run_checkpoints : gmap Uuid CheckpointRow;
  approval_requests : gmap Uuid ApprovalRow;
  run_input_requests : gmap Uuid InputRow;
  messages : gmap Uuid MessageRow;
  threads : gmap Uuid ThreadRow;
  projects : gmap Uuid ProjectRow;
  project_versions : gmap Uuid ProjectVersionRow;
  snapshot_manifests : gmap Uuid ManifestRow;
  quota_limits : gmap (string * Uuid) LimitsRow;
  quota_usage : gmap (string * Uuid * Z) UsageRow;
  push_subscriptions : gmap Uuid PushSubscriptionRow;
  push_deliveries : gmap Uuid PushDeliveryRow;
  sync_entities : gmap (Uuid * string * Uuid) SyncEntityRow;
  sync_changes : list SyncChangeRow;
  sync_materializations : gmap (Uuid * string * Uuid) (DateTime * DateTime);
  users : gmap Uuid UserRow;
  task_definitions : gmap (Uuid * Z) TaskRow;
  schedules : gmap Uuid ScheduleRow;
  provider_profiles : gmap Uuid ProfileRow;
  executor_pools : gmap Uuid PoolRow;
  pool_project_grants : gmap (Uuid * Uuid) unit;
  team_members : gmap (Uuid * Uuid) string;
  sync_operations : gmap Uuid OperationRow;
  sync_device_cursors : gmap Uuid (Uuid * Z);
  sync_sequence : Z;
  project_members : gmap (Uuid * Uuid) string;
  support_grants : gmap Uuid SupportGrantRow;
  server_mcp_bindings : gmap (Uuid * Uuid) string;
  audit_events : gmap Uuid AuditEventRow;
  snapshot_chunks : gmap ChunkKey ChunkRow;
  snapshot_manifest_chunks : gmap (Uuid * string * Z) ChunkKey;
  snapshot_chunk_reservations : gset (Uuid * ChunkKey);
  run_artifacts : gmap Uuid ArtifactRow;
}.

(** Column updates, one per column an UPDATE statement sets. *)

Definition set_run_state (x : RunState) (r : RunRow) : RunRow :=
  MkRunRow (run_ins r) x (run_revision r) (run_result r) (run_error r)
    (run_assigned_executor_id r) (run_lease_owner r) (run_lease_token r)
    (run_lease_expires_at r) (run_updated_at r) (run_started_at r) (run_finished_at r)
    (run_next_event_sequence r).

Definition set_run_revision (x : Z) (r : RunRow) : RunRow :=
  MkRunRow (run_ins r) (run_state r) x (run_result r) (run_error r)
    (run_assigned_executor_id r) (run_lease_owner r) (run_lease_token r)
    (run_lease_expires_at r) (run_updated_at r) (run_started_at r) (run_finished_at r)
    (run_next_event_sequence r).

Definition set_run_result (x : option Value) (r : RunRow) : RunRow :=
  MkRunRow (run_ins r) (run_state r) (run_revision r) x (run_error r)
    (run_assigned_executor_id r) (run_lease_owner r) (run_lease_token r)
    (run_lease_expires_at r) (run_updated_at r) (run_started_at r) (run_finished_at r)
    (run_next_event_sequence r).

Definition set_run_error (x : option RunError) (r : RunRow) : RunRow :=
  MkRunRow (run_ins r) (run_state r) (run_revision r) (run_result r) x
    (run_assigned_executor_id r) (run_lease_owner r) (run_lease_token r)
    (run_lease_expires_at r) (run_updated_at r) (run_started_at r) (run_finished_at r)
    (run_next_event_sequence r).

Definition set_run_assigned_executor_id (x : option Uuid) (r : RunRow) : RunRow :=
  MkRunRow (run_ins r) (run_state r) (run_revision r) (run_result r) (run_error r) x
    (run_lease_owner r) (run_lease_token r) (run_lease_expires_at r) (run_updated_at r)
    (run_started_at r) (run_finished_at r) (run_next_event_sequence r).

Definition set_run_lease_owner (x : option Uuid) (r : RunRow) : RunRow :=
  MkRunRow (run_ins r) (run_state r) (run_revision r) (run_result r) (run_error r)
    (run_assigned_executor_id r) x (run_lease_token r) (run_lease_expires_at r)
    (run_updated_at r) (run_started_at r) (run_finished_at r) 
    (run_next_event_sequence r).

Definition set_run_lease_token (x : option Uuid) (r : RunRow) : RunRow :=
  MkRunRow (run_ins r) (run_state r) (run_revision r) (run_result r) (run_error r)
    (run_assigned_executor_id r) (run_lease_owner r) x (run_lease_expires_at r)
    (run_updated_at r) (run_started_at r) (run_finished_at r) 
    (run_next_event_sequence r).

Definition set_run_lease_expires_at (x : option DateTime) (r : RunRow) : RunRow :=
  MkRunRow (run_ins r) (run_state r) (run_revision r) (run_result r) (run_error r)
    (run_assigned_executor_id r) (run_lease_owner r) (run_lease_token r) x
    (run_updated_at r) (run_started_at r) (run_finished_at r) 
    (run_next_event_sequence r).

Definition set_run_updated_at (x : DateTime) (r : RunRow) : RunRow :=
  MkRunRow (run_ins r) (run_state r) (run_revision r) (run_result r) (run_error r)
    (run_assigned_executor_id r) (run_lease_owner r) (run_lease_token r)
    (run_lease_expires_at r) x (run_started_at r) (run_finished_at r)
    (run_next_event_sequence r).

Definition set_run_started_at (x : option DateTime) (r : RunRow) : RunRow :=
  MkRunRow (run_ins r) (run_state r) (run_revision r) (run_result r) (run_error r)
    (run_assigned_executor_id r) (run_lease_owner r) (run_lease_token r)
    (run_lease_expires_at r) (run_updated_at r) x (run_finished_at r)
    (run_next_event_sequence r).

Definition set_run_finished_at (x : option DateTime) (r : RunRow) : RunRow :=
  MkRunRow (run_ins r) (run_state r) (run_revision r) (run_result r) (run_error r)
    (run_assigned_executor_id r) (run_lease_owner r) (run_lease_token r)
    (run_lease_expires_at r) (run_updated_at r) (run_started_at r) x
    (run_next_event_sequence r).

Definition set_run_next_event_sequence (x : Z) (r : RunRow) : RunRow :=
  MkRunRow (run_ins r) (run_state r) (run_revision r) (run_result r) (run_error r)
    (run_assigned_executor_id r) (run_lease_owner r) (run_lease_token r)
    (run_lease_expires_at r) (run_updated_at r) (run_started_at r) (run_finished_at r) x.

Definition set_exw_kind (x : ExecutorKind) (r : ExecutorRow) : ExecutorRow :=
  MkExecutorRow x (exw_pool_id r) (exw_owner_user_id r) (exw_registration r)
    (exw_protocol_version r) (exw_max_concurrent_runs r) (exw_active_runs r)
    (exw_draining r) (exw_last_seen_at r) (exw_updated_at r).

Definition set_exw_pool_id (x : option Uuid) (r : ExecutorRow) : ExecutorRow :=
  MkExecutorRow (exw_kind r) x (exw_owner_user_id r) (exw_registration r)
    (exw_protocol_version r) (exw_max_concurrent_runs r) (exw_active_runs r)
    (exw_draining r) (exw_last_seen_at r) (exw_updated_at r).

Definition set_exw_owner_user_id (x : option Uuid) (r : ExecutorRow) : ExecutorRow :=
  MkExecutorRow (exw_kind r) (exw_pool_id r) x (exw_registration r)
    (exw_protocol_version r) (exw_max_concurrent_runs r) (exw_active_runs r)
    (exw_draining r) (exw_last_seen_at r) (exw_updated_at r).

Definition set_exw_registration (x : ExecutorRegistration) (r : ExecutorRow) : ExecutorRow :=
  MkExecutorRow (exw_kind r) (exw_pool_id r) (exw_owner_user_id r) x
    (exw_protocol_version r) (exw_max_concurrent_runs r) (exw_active_runs r)
    (exw_draining r) (exw_last_seen_at r) (exw_updated_at r).

Definition set_exw_protocol_version (x : Z) (r : ExecutorRow) : ExecutorRow :=
  MkExecutorRow (exw_kind r) (exw_pool_id r) (exw_owner_user_id r) (exw_registration r)
    x (exw_max_concurrent_runs r) (exw_active_runs r) (exw_draining r) (exw_last_seen_at
    r) (exw_updated_at r).

Definition set_exw_max_concurrent_runs (x : Z) (r : ExecutorRow) : ExecutorRow :=
  MkExecutorRow (exw_kind r) (exw_pool_id r) (exw_owner_user_id r) (exw_registration r)
    (exw_protocol_version r) x (exw_active_runs r) (exw_draining r) (exw_last_seen_at r)
    (exw_updated_at r).

Definition set_exw_active_runs (x : Z) (r : ExecutorRow) : ExecutorRow :=
  MkExecutorRow (exw_kind r) (exw_pool_id r) (exw_owner_user_id r) (exw_registration r)
    (exw_protocol_version r) (exw_max_concurrent_runs r) x (exw_draining r)
    (exw_last_seen_at r) (exw_updated_at r).

Definition set_exw_last_seen_at (x : DateTime) (r : ExecutorRow) : ExecutorRow :=
  MkExecutorRow (exw_kind r) (exw_pool_id r) (exw_owner_user_id r) (exw_registration r)
    (exw_protocol_version r) (exw_max_concurrent_runs r) (exw_active_runs r)
    (exw_draining r) x (exw_updated_at r).

Definition set_exw_updated_at (x : DateTime) (r : ExecutorRow) : ExecutorRow :=
  MkExecutorRow (exw_kind r) (exw_pool_id r) (exw_owner_user_id r) (exw_registration r)
    (exw_protocol_version r) (exw_max_concurrent_runs r) (exw_active_runs r)
    (exw_draining r) (exw_last_seen_at r) x.

(** Table updates. *)

Definition set_runs (x : gmap Uuid RunRow) (r : Db) : Db :=
  MkDb x (run_events r) (executors r) (run_checkpoints r) (approval_requests r)
    (run_input_requests r) (messages r) (threads r) (projects r) (project_versions r)
    (snapshot_manifests r) (quota_limits r) (quota_usage r) (push_subscriptions r)
    (push_deliveries r) (sync_entities r) (sync_changes r) (sync_materializations r)
    (users r) (task_definitions r) (schedules r) (provider_profiles r)
    (executor_pools r) (pool_project_grants r) (team_members r) (sync_operations r)
    (sync_device_cursors r) (sync_sequence r) (project_members r) (support_grants r)
    (server_mcp_bindings r) (audit_events r) (snapshot_chunks r)
    (snapshot_manifest_chunks r) (snapshot_chunk_reservations r) (run_artifacts r).

Definition set_run_events (x : gmap Uuid EventRow) (r : Db) : Db :=
  MkDb (runs r) x (executors r) (run_checkpoints r) (approval_requests r)
    (run_input_requests r) (messages r) (threads r) (projects r) (project_versions r)
    (snapshot_manifests r) (quota_limits r) (quota_usage r) (push_subscriptions r)
    (push_deliveries r) (sync_entities r) (sync_changes r) (sync_materializations r)
    (users r) (task_definitions r) (schedules r) (provider_profiles r)
    (executor_pools r) (pool_project_grants r) (team_members r) (sync_operations r)
    (sync_device_cursors r) (sync_sequence r) (project_members r) (support_grants r)
    (server_mcp_bindings r) (audit_events r) (snapshot_chunks r)
    (snapshot_manifest_chunks r) (snapshot_chunk_reservations r) (run_artifacts r).

Definition set_executors (x : gmap Uuid ExecutorRow) (r : Db) : Db :=
  MkDb (runs r) (run_events r) x (run_checkpoints r) (approval_requests r)
    (run_input_requests r) (messages r) (threads r) (projects r) (project_versions r)
    (snapshot_manifests r) (quota_limits r) (quota_usage r) (push_subscriptions r)
    (push_deliveries r) (sync_entities r) (sync_changes r) (sync_materializations r)
    (users r) (task_definitions r) (schedules r) (provider_profiles r)
    (executor_pools r) (pool_project_grants r) (team_members r) (sync_operations r)
    (sync_device_cursors r) (sync_sequence r) (project_members r) (support_grants r)
    (server_mcp_bindings r) (audit_events r) (snapshot_chunks r)
    (snapshot_manifest_chunks r) (snapshot_chunk_reservations r) (run_artifacts r).

Definition set_run_checkpoints (x : gmap Uuid CheckpointRow) (r : Db) : Db :=
  MkDb (runs r) (run_events r) (executors r) x (approval_requests r)
    (run_input_requests r) (messages r) (threads r) (projects r) (project_versions r)
    (snapshot_manifests r) (quota_limits r) (quota_usage r) (push_subscriptions r)
    (push_deliveries r) (sync_entities r) (sync_changes r) (sync_materializations r)
    (users r) (task_definitions r) (schedules r) (provider_profiles r)
    (executor_pools r) (pool_project_grants r) (team_members r) (sync_operations r)
    (sync_device_cursors r) (sync_sequence r) (project_members r) (support_grants r)
    (server_mcp_bindings r) (audit_events r) (snapshot_chunks r)
    (snapshot_manifest_chunks r) (snapshot_chunk_reservations r) (run_artifacts r).

Definition set_approval_requests (x : gmap Uuid ApprovalRow) (r : Db) : Db :=
  MkDb (runs r) (run_events r) (executors r) (run_checkpoints r) x
    (run_input_requests r) (messages r) (threads r) (projects r) (project_versions r)
    (snapshot_manifests r) (quota_limits r) (quota_usage r) (push_subscriptions r)
    (push_deliveries r) (sync_entities r) (sync_changes r) (sync_materializations r)
    (users r) (task_definitions r) (schedules r) (provider_profiles r)
    (executor_pools r) (pool_project_grants r) (team_members r) (sync_operations r)
    (sync_device_cursors r) (sync_sequence r) (project_members r) (support_grants r)
    (server_mcp_bindings r) (audit_events r) (snapshot_chunks r)
    (snapshot_manifest_chunks r) (snapshot_chunk_reservations r) (run_artifacts r).

Definition set_run_input_requests (x : gmap Uuid InputRow) (r : Db) : Db :=
  MkDb (runs r) (run_events r) (executors r) (run_checkpoints r) (approval_requests r) x
    (messages r) (threads r) (projects r) (project_versions r) (snapshot_manifests r)
    (quota_limits r) (quota_usage r) (push_subscriptions r) (push_deliveries r)
    (sync_entities r) (sync_changes r) (sync_materializations r) (users r)
    (task_definitions r) (schedules r) (provider_profiles r) (executor_pools r)
    (pool_project_grants r) (team_members r) (sync_operations r) (sync_device_cursors r)
    (sync_sequence r) (project_members r) (support_grants r) (server_mcp_bindings r)
    (audit_events r) (snapshot_chunks r) (snapshot_manifest_chunks r)
    (snapshot_chunk_reservations r) (run_artifacts r).

Definition set_messages (x : gmap Uuid MessageRow) (r : Db) : Db :=
  MkDb (runs r) (run_events r) (executors r) (run_checkpoints r) (approval_requests r)
    (run_input_requests r) x (threads r) (projects r) (project_versions r)
    (snapshot_manifests r) (quota_limits r) (quota_usage r) (push_subscriptions r)
    (push_deliveries r) (sync_entities r) (sync_changes r) (sync_materializations r)
    (users r) (task_definitions r) (schedules r) (provider_profiles r)
    (executor_pools r) (pool_project_grants r) (team_members r) (sync_operations r)
    (sync_device_cursors r) (sync_sequence r) (project_members r) (support_grants r)
    (server_mcp_bindings r) (audit_events r) (snapshot_chunks r)
    (snapshot_manifest_chunks r) (snapshot_chunk_reservations r) (run_artifacts r).

Definition set_threads (x : gmap Uuid ThreadRow) (r : Db) : Db :=
  MkDb (runs r) (run_events r) (executors r) (run_checkpoints r) (approval_requests r)
    (run_input_requests r) (messages r) x (projects r) (project_versions r)
    (snapshot_manifests r) (quota_limits r) (quota_usage r) (push_subscriptions r)
    (push_deliveries r) (sync_entities r) (sync_changes r) (sync_materializations r)
    (users r) (task_definitions r) (schedules r) (provider_profiles r)
    (executor_pools r) (pool_project_grants r) (team_members r) (sync_operations r)
    (sync_device_cursors r) (sync_sequence r) (project_members r) (support_grants r)
    (server_mcp_bindings r) (audit_events r) (snapshot_chunks r)
    (snapshot_manifest_chunks r) (snapshot_chunk_reservations r) (run_artifacts r).

Definition set_projects (x : gmap Uuid ProjectRow) (r : Db) : Db :=
  MkDb (runs r) (run_events r) (executors r) (run_checkpoints r) (approval_requests r)
    (run_input_requests r) (messages r) (threads r) x (project_versions r)
    (snapshot_manifests r) (quota_limits r) (quota_usage r) (push_subscriptions r)
    (push_deliveries r) (sync_entities r) (sync_changes r) (sync_materializations r)
    (users r) (task_definitions r) (schedules r) (provider_profiles r)
    (executor_pools r) (pool_project_grants r) (team_members r) (sync_operations r)
    (sync_device_cursors r) (sync_sequence r) (project_members r) (support_grants r)
    (server_mcp_bindings r) (audit_events r) (snapshot_chunks r)
    (snapshot_manifest_chunks r) (snapshot_chunk_reservations r) (run_artifacts r).

Definition set_project_versions (x : gmap Uuid ProjectVersionRow) (r : Db) : Db :=
  MkDb (runs r) (run_events r) (executors r) (run_checkpoints r) (approval_requests r)
    (run_input_requests r) (messages r) (threads r) (projects r) x
    (snapshot_manifests r) (quota_limits r) (quota_usage r) (push_subscriptions r)
    (push_deliveries r) (sync_entities r) (sync_changes r) (sync_materializations r)
    (users r) (task_definitions r) (schedules r) (provider_profiles r)
    (executor_pools r) (pool_project_grants r) (team_members r) (sync_operations r)
    (sync_device_cursors r) (sync_sequence r) (project_members r) (support_grants r)
    (server_mcp_bindings r) (audit_events r) (snapshot_chunks r)
    (snapshot_manifest_chunks r) (snapshot_chunk_reservations r) (run_artifacts r).

Definition set_quota_limits (x : gmap (string * Uuid) LimitsRow) (r : Db) : Db :=
  MkDb (runs r) (run_events r) (executors r) (run_checkpoints r) (approval_requests r)
    (run_input_requests r) (messages r) (threads r) (projects r) (project_versions r)
    (snapshot_manifests r) x (quota_usage r) (push_subscriptions r) (push_deliveries r)
    (sync_entities r) (sync_changes r) (sync_materializations r) (users r)
    (task_definitions r) (schedules r) (provider_profiles r) (executor_pools r)
    (pool_project_grants r) (team_members r) (sync_operations r) (sync_device_cursors r)
    (sync_sequence r) (project_members r) (support_grants r) (server_mcp_bindings r)
    (audit_events r) (snapshot_chunks r) (snapshot_manifest_chunks r)
    (snapshot_chunk_reservations r) (run_artifacts r).

Definition set_quota_usage (x : gmap (string * Uuid * Z) UsageRow) (r : Db) : Db :=
  MkDb (runs r) (run_events r) (executors r) (run_checkpoints r) (approval_requests r)
    (run_input_requests r) (messages r) (threads r) (projects r) (project_versions r)
    (snapshot_manifests r) (quota_limits r) x (push_subscriptions r) (push_deliveries r)
    (sync_entities r) (sync_changes r) (sync_materializations r) (users r)
    (task_definitions r) (schedules r) (provider_profiles r) (executor_pools r)
    (pool_project_grants r) (team_members r) (sync_operations r) (sync_device_cursors r)
    (sync_sequence r) (project_members r) (support_grants r) (server_mcp_bindings r)
    (audit_events r) (snapshot_chunks r) (snapshot_manifest_chunks r)
    (snapshot_chunk_reservations r) (run_artifacts r).

Definition set_users (x : gmap Uuid UserRow) (r : Db) : Db :=
  MkDb (runs r) (run_events r) (executors r) (run_checkpoints r) (approval_requests r)
    (run_input_requests r) (messages r) (threads r) (projects r) (project_versions r)
    (snapshot_manifests r) (quota_limits r) (quota_usage r) (push_subscriptions r) (push_deliveries r)
    (sync_entities r) (sync_changes r) (sync_materializations r) x
    (task_definitions r) (schedules r) (provider_profiles r) (executor_pools r)
    (pool_project_grants r) (team_members r) (sync_operations r) (sync_device_cursors r)
    (sync_sequence r) (project_members r) (support_grants r) (server_mcp_bindings r)
    (audit_events r) (snapshot_chunks r) (snapshot_manifest_chunks r)
    (snapshot_chunk_reservations r) (run_artifacts r).

Definition set_push_deliveries (x : gmap Uuid PushDeliveryRow) (r : Db) : Db :=
  MkDb (runs r) (run_events r) (executors r) (run_checkpoints r) (approval_requests r)
    (run_input_requests r) (messages r) (threads r) (projects r) (project_versions r)
    (snapshot_manifests r) (quota_limits r) (quota_usage r) (push_subscriptions r) x
    (sync_entities r) (sync_changes r) (sync_materializations r) (users r)
    (task_definitions r) (schedules r) (provider_profiles r) (executor_pools r)
    (pool_project_grants r) (team_members r) (sync_operations r) (sync_device_cursors r)
    (sync_sequence r) (project_members r) (support_grants r) (server_mcp_bindings r)
    (audit_events r) (snapshot_chunks r) (snapshot_manifest_chunks r)
    (snapshot_chunk_reservations r) (run_artifacts r).

Definition set_sync_entities (x : gmap (Uuid * string * Uuid) SyncEntityRow) (r : Db) : Db :=
  MkDb (runs r) (run_events r) (executors r) (run_checkpoints r) (approval_requests r)
    (run_input_requests r) (messages r) (threads r) (projects r) (project_versions r)
    (snapshot_manifests r) (quota_limits r) (quota_usage r) (push_subscriptions r)
    (push_deliveries r) x (sync_changes r) (sync_materializations r) (users r)
    (task_definitions r) (schedules r) (provider_profiles r) (executor_pools r)
    (pool_project_grants r) (team_members r) (sync_operations r) (sync_device_cursors r)
    (sync_sequence r) (project_members r) (support_grants r) (server_mcp_bindings r)
    (audit_events r) (snapshot_chunks r) (snapshot_manifest_chunks r)
    (snapshot_chunk_reservations r) (run_artifacts r).

Definition set_sync_changes (x : list SyncChangeRow) (r : Db) : Db :=
  MkDb (runs r) (run_events r) (executors r) (run_checkpoints r) (approval_requests r)
    (run_input_requests r) (messages r) (threads r) (projects r) (project_versions r)
    (snapshot_manifests r) (quota_limits r) (quota_usage r) (push_subscriptions r)
    (push_deliveries r) (sync_entities r) x (sync_materializations r) (users r)
    (task_definitions r) (schedules r) (provider_profiles r) (executor_pools r)
    (pool_project_grants r) (team_members r) (sync_operations r) (sync_device_cursors r)
    (sync_sequence r) (project_members r) (support_grants r) (server_mcp_bindings r)
    (audit_events r) (snapshot_chunks r) (snapshot_manifest_chunks r)
    (snapshot_chunk_reservations r) (run_artifacts r).

Definition set_sync_materializations (x : gmap (Uuid * string * Uuid) (DateTime * DateTime)) (r : Db) : Db :=
  MkDb (runs r) (run_events r) (executors r) (run_checkpoints r) (approval_requests r)
    (run_input_requests r) (messages r) (threads r) (projects r) (project_versions r)
    (snapshot_manifests r) (quota_limits r) (quota_usage r) (push_subscriptions r)
    (push_deliveries r) (sync_entities r) (sync_changes r) x (users r)
    (task_definitions r) (schedules r) (provider_profiles r) (executor_pools r)
    (pool_project_grants r) (team_members r) (sync_operations r) (sync_device_cursors r)
    (sync_sequence r) (project_members r) (support_grants r) (server_mcp_bindings r)
    (audit_events r) (snapshot_chunks r) (snapshot_manifest_chunks r)
    (snapshot_chunk_reservations r) (run_artifacts r).

Definition set_task_definitions (x : gmap (Uuid * Z) TaskRow) (r : Db) : Db :=
  MkDb (runs r) (run_events r) (executors r) (run_checkpoints r) (approval_requests r)
    (run_input_requests r) (messages r) (threads r) (projects r) (project_versions r)
    (snapshot_manifests r) (quota_limits r) (quota_usage r) (push_subscriptions r)
    (push_deliveries r) (sync_entities r) (sync_changes r) (sync_materializations r)
    (users r) x (schedules r) (provider_profiles r) (executor_pools r)
    (pool_project_grants r) (team_members r) (sync_operations r) (sync_device_cursors r)
    (sync_sequence r) (project_members r) (support_grants r) (server_mcp_bindings r)
    (audit_events r) (snapshot_chunks r) (snapshot_manifest_chunks r)
    (snapshot_chunk_reservations r) (run_artifacts r).

Definition set_schedules (x : gmap Uuid ScheduleRow) (r : Db) : Db :=
  MkDb (runs r) (run_events r) (executors r) (run_checkpoints r) (approval_requests r)
    (run_input_requests r) (messages r) (threads r) (projects r) (project_versions r)
    (snapshot_manifests r) (quota_limits r) (quota_usage r) (push_subscriptions r)
    (push_deliveries r) (sync_entities r) (sync_changes r) (sync_materializations r)
    (users r) (task_definitions r) x (provider_profiles r) (executor_pools r)
    (pool_project_grants r) (team_members r) (sync_operations r) (sync_device_cursors r)
    (sync_sequence r) (project_members r) (support_grants r) (server_mcp_bindings r)
    (audit_events r) (snapshot_chunks r) (snapshot_manifest_chunks r)
    (snapshot_chunk_reservations r) (run_artifacts r).

Definition set_provider_profiles (x : gmap Uuid ProfileRow) (r : Db) : Db :=
  MkDb (runs r) (run_events r) (executors r) (run_checkpoints r) (approval_requests r)
    (run_input_requests r) (messages r) (threads r) (projects r) (project_versions r)
    (snapshot_manifests r) (quota_limits r) (quota_usage r) (push_subscriptions r)
    (push_deliveries r) (sync_entities r) (sync_changes r) (sync_materializations r)
    (users r) (task_definitions r) (schedules r) x (executor_pools r)
    (pool_project_grants r) (team_members r) (sync_operations r) (sync_device_cursors r)
    (sync_sequence r) (project_members r) (support_grants r) (server_mcp_bindings r)
    (audit_events r) (snapshot_chunks r) (snapshot_manifest_chunks r)
    (snapshot_chunk_reservations r) (run_artifacts r).

Definition set_sync_operations (x : gmap Uuid OperationRow) (r : Db) : Db :=
  MkDb (runs r) (run_events r) (executors r) (run_checkpoints r) (approval_requests r)
    (run_input_requests r) (messages r) (threads r) (projects r) (project_versions r)
    (snapshot_manifests r) (quota_limits r) (quota_usage r) (push_subscriptions r)
    (push_deliveries r) (sync_entities r) (sync_changes r) (sync_materializations r)
    (users r) (task_definitions r) (schedules r) (provider_profiles r)
    (executor_pools r) (pool_project_grants r) (team_members r) x
    (sync_device_cursors r) (sync_sequence r) (project_members r) (support_grants r)
    (server_mcp_bindings r) (audit_events r) (snapshot_chunks r)
    (snapshot_manifest_chunks r) (snapshot_chunk_reservations r) (run_artifacts r).

Definition set_sync_device_cursors (x : gmap Uuid (Uuid * Z)) (r : Db) : Db :=
  MkDb (runs r) (run_events r) (executors r) (run_checkpoints r) (approval_requests r)
    (run_input_requests r) (messages r) (threads r) (projects r) (project_versions r)
    (snapshot_manifests r) (quota_limits r) (quota_usage r) (push_subscriptions r)
    (push_deliveries r) (sync_entities r) (sync_changes r) (sync_materializations r)
    (users r) (task_definitions r) (schedules r) (provider_profiles r)
    (executor_pools r) (pool_project_grants r) (team_members r) (sync_operations r) x
    (sync_sequence r) (project_members r) (support_grants r) (server_mcp_bindings r)
    (audit_events r) (snapshot_chunks r) (snapshot_manifest_chunks r)
    (snapshot_chunk_reservations r) (run_artifacts r).

Definition set_sync_sequence (x : Z) (r : Db) : Db :=
  MkDb (runs r) (run_events r) (executors r) (run_checkpoints r) (approval_requests r)
    (run_input_requests r) (messages r) (threads r) (projects r) (project_versions r)
    (snapshot_manifests r) (quota_limits r) (quota_usage r) (push_subscriptions r)
    (push_deliveries r) (sync_entities r) (sync_changes r) (sync_materializations r)
    (users r) (task_definitions r) (schedules r) (provider_profiles r)
    (executor_pools r) (pool_project_grants r) (team_members r) (sync_operations r)
    (sync_device_cursors r) x (project_members r) (support_grants r)
    (server_mcp_bindings r) (audit_events r) (snapshot_chunks r)
    (snapshot_manifest_chunks r) (snapshot_chunk_reservations r) (run_artifacts r).

Definition set_audit_events (x : gmap Uuid AuditEventRow) (r : Db) : Db :=
  MkDb (runs r) (run_events r) (executors r) (run_checkpoints r) (approval_requests r)
    (run_input_requests r) (messages r) (threads r) (projects r) (project_versions r)
    (snapshot_manifests r) (quota_limits r) (quota_usage r) (push_subscriptions r)
    (push_deliveries r) (sync_entities r) (sync_changes r) (sync_materializations r)
    (users r) (task_definitions r) (schedules r) (provider_profiles r)
    (executor_pools r) (pool_project_grants r) (team_members r) (sync_operations r)
    (sync_device_cursors r) (sync_sequence r) (project_members r) (support_grants r)
    (server_mcp_bindings r) x (snapshot_chunks r) (snapshot_manifest_chunks r)
    (snapshot_chunk_reservations r) (run_artifacts r).

Definition set_snapshot_manifests (x : gmap Uuid ManifestRow) (r : Db) : Db :=
  MkDb (runs r) (run_events r) (executors r) (run_checkpoints r) (approval_requests r)
    (run_input_requests r) (messages r) (threads r) (projects r) (project_versions r) x
    (quota_limits r) (quota_usage r) (push_subscriptions r) (push_deliveries r)
    (sync_entities r) (sync_changes r) (sync_materializations r) (users r)
    (task_definitions r) (schedules r) (provider_profiles r) (executor_pools r)
    (pool_project_grants r) (team_members r) (sync_operations r) (sync_device_cursors r)
    (sync_sequence r) (project_members r) (support_grants r) (server_mcp_bindings r)
    (audit_events r) (snapshot_chunks r) (snapshot_manifest_chunks r)
    (snapshot_chunk_reservations r) (run_artifacts r).

Definition set_snapshot_chunks (x : gmap ChunkKey ChunkRow) (r : Db) : Db :=
  MkDb (runs r) (run_events r) (executors r) (run_checkpoints r) (approval_requests r)
    (run_input_requests r) (messages r) (threads r) (projects r) (project_versions r)
    (snapshot_manifests r) (quota_limits r) (quota_usage r) (push_subscriptions r)
    (push_deliveries r) (sync_entities r) (sync_changes r) (sync_materializations r)
    (users r) (task_definitions r) (schedules r) (provider_profiles r)
    (executor_pools r) (pool_project_grants r) (team_members r) (sync_operations r)
    (sync_device_cursors r) (sync_sequence r) (project_members r) (support_grants r)
    (server_mcp_bindings r) (audit_events r) x (snapshot_manifest_chunks r)
    (snapshot_chunk_reservations r) (run_artifacts r).

Definition set_snapshot_manifest_chunks (x : gmap (Uuid * string * Z) ChunkKey) (r : Db) : Db :=
  MkDb (runs r) (run_events r) (executors r) (run_checkpoints r) (approval_requests r)
    (run_input_requests r) (messages r) (threads r) (projects r) (project_versions r)
    (snapshot_manifests r) (quota_limits r) (quota_usage r) (push_subscriptions r)
    (push_deliveries r) (sync_entities r) (sync_changes r) (sync_materializations r)
    (users r) (task_definitions r) (schedules r) (provider_profiles r)
    (executor_pools r) (pool_project_grants r) (team_members r) (sync_operations r)
    (sync_device_cursors r) (sync_sequence r) (project_members r) (support_grants r)
    (server_mcp_bindings r) (audit_events r) (snapshot_chunks r) x
    (snapshot_chunk_reservations r) (run_artifacts r).

Definition set_snapshot_chunk_reservations (x : gset (Uuid * ChunkKey)) (r : Db) : Db :=
  MkDb (runs r) (run_events r) (executors r) (run_checkpoints r) (approval_requests r)
    (run_input_requests r) (messages r) (threads r) (projects r) (project_versions r)
    (snapshot_manifests r) (quota_limits r) (quota_usage r) (push_subscriptions r)
    (push_deliveries r) (sync_entities r) (sync_changes r) (sync_materializations r)
    (users r) (task_definitions r) (schedules r) (provider_profiles r)
    (executor_pools r) (pool_project_grants r) (team_members r) (sync_operations r)
    (sync_device_cursors r) (sync_sequence r) (project_members r) (support_grants r)
    (server_mcp_bindings r) (audit_events r) (snapshot_chunks r)
    (snapshot_manifest_chunks r) x (run_artifacts r).

Definition set_run_artifacts (x : gmap Uuid ArtifactRow) (r : Db) : Db :=
  MkDb (runs r) (run_events r) (executors r) (run_checkpoints r) (approval_requests r)
    (run_input_requests r) (messages r) (threads r) (projects r) (project_versions r)
    (snapshot_manifests r) (quota_limits r) (quota_usage r) (push_subscriptions r)
    (push_deliveries r) (sync_entities r) (sync_changes r) (sync_materializations r)
    (users r) (task_definitions r) (schedules r) (provider_profiles r)
    (executor_pools r) (pool_project_grants r) (team_members r) (sync_operations r)
    (sync_device_cursors r) (sync_sequence r) (project_members r) (support_grants r)
    (server_mcp_bindings r) (audit_events r) (snapshot_chunks r)
    (snapshot_manifest_chunks r) (snapshot_chunk_reservations r) x.

(** ** The environment of a request

    What a handler reads from outside: the transaction's [now()], the
    application's [Utc::now()], the random identifiers it draws, the rows that
    concurrent transactions hold locked, and library functions whose code is not
    in the repository: chrono's RFC 3339 printer, first-of-month date and instant of a
    millisecond count, serde_json's float printer, PostgreSQL's [pg_column_size],
    [Uuid::parse_str], the cron and chrono-tz crates ([cron_error]: why an expression does
    not parse; [parse_timezone]: the name of the zone; [cron_next]: the first occurrence
    of an expression in a zone after an instant), and the decoders serde derives for an
    executor target and a list of capabilities. *)
Record Env := {
  db_now : DateTime;
  app_now : DateTime;
  new_v4 : nat -> Uuid;
  row_locked : Uuid -> bool;
  rfc3339 : DateTime -> string;
  first_of_month : DateTime -> Z;
  f64_repr : Z -> string;
  pg_column_size : Value -> Z;
  parse_uuid : string -> option Uuid;
  from_timestamp_millis : Z -> option DateTime;
  cron_error : string -> option string;
  parse_timezone : string -> option string;
  cron_next : string -> string -> DateTime -> option DateTime;
  decode_target : Value -> result string ExecutorTarget;
  decode_capabilities : Value -> result string (list Capability);
}.

(** ** Sets of rows *)

(** [SELECT id ... WHERE ... ORDER BY id] *)
Definition ids_where {V} (p : Uuid -> V -> bool) (t : gmap Uuid V) : list Uuid :=
  merge_sort N.le (filter (fun kv => p kv.1 kv.2 = true) (map_to_list t)).*1.

(** [UPDATE ... SET ... WHERE ...] *)
Definition update_where {K V} `{Countable K} (p : K -> V -> bool) (f : K -> V -> V)
    (t : gmap K V) : gmap K V :=
  map_imap (fun k v => Some (if p k v then f k v else v)) t.

(** ** Transactions *)

Record TxState := MkTx { tx_db : Db; tx_ids : nat }.

Definition Tx (A : Type) : Type := Env -> TxState -> result ApiError (A * TxState).

#[global] Instance tx_ret : MRet Tx := fun A a env s => Ok (a, s).

#[global] Instance tx_bind : MBind Tx := fun A B f m env s =>
  match m env s with
  | Ok (a, s') => f a env s'
  | Err e => Err e
  end.

Definition fail {A} (e : ApiError) : Tx A := fun env s => Err e.
Definition ask : Tx Env := fun env s => Ok (env, s).
Definition get_db : Tx Db := fun env s => Ok (tx_db s, s).
Definition modify (f : Db -> Db) : Tx unit := fun env s =>
  Ok (tt, MkTx (f (tx_db s)) (tx_ids s)).

(** [Uuid::new_v4()] *)
Definition fresh_uuid : Tx Uuid := fun env s =>
  Ok (new_v4 env (tx_ids s), MkTx (tx_db s) (S (tx_ids s))).

Definition lift {A} (r : result ApiError A) : Tx A := fun env s =>
  match r with
  | Ok a => Ok (a, s)
  | Err e => Err e
  end.

(** [.ok_or_else(|| e)?] *)
Definition require {A} (o : option A) (e : ApiError) : Tx A :=
  match o with
  | Some a => mret a
  | None => fail e
  end.

(** [if cond { return Err(e) }] *)
Definition reject_if (cond : bool) (e : ApiError) : Tx unit :=
  if cond then fail e else mret tt.

(** [if cond { body }] *)
Definition when (cond : bool) (body : Tx unit) : Tx unit :=
  if cond then body else mret tt.

(** A BIGINT or INTEGER result, an error when it is out of range. *)
Definition sql_bigint (z : Z) : Tx Z :=
  if in_i64 z then mret z else fail (Database NumericOutOfRange).

Definition sql_int (z : Z) : Tx Z :=
  if in_i32 z then mret z else fail (Database NumericOutOfRange).

Fixpoint tx_iter {A} (f : A -> Tx unit) (l : list A) : Tx unit :=
  match l with
  | [] => mret tt
  | x :: l' => f x ≫= fun _ => tx_iter f l'
  end.

(** [pool.begin()], the body, [tx.commit()]: the tables after it, and its answer. *)
Definition run_tx {A} (env : Env) (db : Db) (m : Tx A) : Db * result ApiError A :=
  match m env (MkTx db 0) with
  | Ok (a, s) => (tx_db s, Ok a)
  | Err e => (db, Err e)
  end.

(** ** Reasoning about transactions

    [wp env m Q s]: if [m] succeeds from [s], its answer and final state satisfy
    [Q]. A failing run is rolled back, so nothing has to be shown of it here. *)
Definition wp {A} (env : Env) (m : Tx A) (Q : A -> TxState -> Prop) (s : TxState) : Prop :=
  match m env s with
  | Ok (a, s') => Q a s'
  | Err _ => True
  end.

Section wp_rules.
Context {A B : Type} (env : Env).
Implicit Types (s : TxState).

Lemma wp_ret (a : A) (Q : A -> TxState -> Prop) s : Q a s -> wp env (mret a) Q s.
Proof. done. Qed.

Lemma wp_bind (m : Tx A) (f : A -> Tx B) (Q : B -> TxState -> Prop) s :
  wp env m (fun a => wp env (f a) Q) s -> wp env (m ≫= f) Q s.
Proof. unfold wp, mbind, tx_bind. by destruct (m env s) as [[a s']|]. Qed.

Lemma wp_mono (m : Tx A) (P Q : A -> TxState -> Prop) s :
  wp env m P s -> (forall a s', P a s' -> Q a s') -> wp env m Q s.
Proof. unfold wp. destruct (m env s) as [[a s']|]; auto. Qed.

Lemma wp_true (m : Tx A) s : wp env m (fun _ _ => True) s.
Proof. unfold wp. by destruct (m env s) as [[a s']|]. Qed.

Lemma wp_and (m : Tx A) (P Q : A -> TxState -> Prop) s :
  wp env m P s -> wp env m Q s -> wp env m (fun a s' => P a s' /\ Q a s') s.
Proof. unfold wp. destruct (m env s) as [[a s']|]; auto. Qed.

Lemma wp_fail e (Q : A -> TxState -> Prop) s : wp env (fail e) Q s.
Proof. done. Qed.

Lemma wp_ask (Q : Env -> TxState -> Prop) s : Q env s -> wp env ask Q s.
Proof. done. Qed.

Lemma wp_get_db (Q : Db -> TxState -> Prop) s : Q (tx_db s) s -> wp env get_db Q s.
Proof. done. Qed.

Lemma wp_modify f (Q : unit -> TxState -> Prop) s :
  Q tt (MkTx (f (tx_db s)) (tx_ids s)) -> wp env (modify f) Q s.
Proof. done. Qed.

Lemma wp_fresh_uuid (Q : Uuid -> TxState -> Prop) s :
  Q (new_v4 env (tx_ids s)) (MkTx (tx_db s) (S (tx_ids s))) -> wp env fresh_uuid Q s.
Proof. done. Qed.

Lemma wp_lift (r : result ApiError A) (Q : A -> TxState -> Prop) s :
  (forall a, r = Ok a -> Q a s) -> wp env (lift r) Q s.
Proof. unfold wp, lift. destruct r; auto. Qed.

Lemma wp_require (o : option A) e (Q : A -> TxState -> Prop) s :
  (forall a, o = Some a -> Q a s) -> wp env (require o e) Q s.
Proof. unfold wp, require. destruct o; simpl; auto. Qed.

Lemma wp_reject_if b e (Q : unit -> TxState -> Prop) s :
  (b = false -> Q tt s) -> wp env (reject_if b e) Q s.
Proof. unfold wp, reject_if. destruct b; simpl; auto. Qed.

Lemma wp_when b (m : Tx unit) (Q : unit -> TxState -> Prop) s :
  (b = true -> wp env m Q s) -> (b = false -> Q tt s) -> wp env (when b m) Q s.
Proof. intros Ht Hf. destruct b; [by apply Ht|by apply Hf]. Qed.

Lemma wp_sql_bigint z (Q : Z -> TxState -> Prop) s :
  ((i64_min ≤ z ≤ i64_max)%Z -> Q z s) -> wp env (sql_bigint z) Q s.
Proof. unfold wp, sql_bigint, in_i64. case_bool_decide; simpl; auto. Qed.

Lemma wp_sql_int z (Q : Z -> TxState -> Prop) s :
  ((i32_min ≤ z ≤ i32_max)%Z -> Q z s) -> wp env (sql_int z) Q s.
Proof. unfold wp, sql_int, in_i32. case_bool_decide; simpl; auto. Qed.
End wp_rules.

Lemma wp_tx_iter {A} env (f : A -> Tx unit) (l : list A) (I : TxState -> Prop) s :
  (forall x s, x ∈ l -> I s -> wp env (f x) (fun _ => I) s) ->
  I s -> wp env (tx_iter f l) (fun _ => I) s.
Proof.
  revert s; induction l as [|x l IH]; intros s Hf HI; simpl; [done|].
  apply wp_bind. eapply wp_mono; [apply Hf; [set_solver|done]|].
  intros ? s' HI'. apply IH; [|done]. intros y s'' Hy. apply Hf. set_solver.
Qed.


(** The rule with the part of the list already done. *)
Lemma wp_tx_iter_done {A} env (f : A -> Tx unit) (l : list A) (I : list A -> TxState -> Prop) s :
  (forall done x s, x ∈ l -> I done s -> wp env (f x) (fun _ => I (done ++ [x])) s) ->
  I [] s -> wp env (tx_iter f l) (fun _ => I l) s.
Proof.
  intros Hf. assert (forall l1 done s, (forall x, x ∈ l1 -> x ∈ l) -> I done s ->
    wp env (tx_iter f l1) (fun _ => I (done ++ l1)) s) as H.
  { induction l1 as [|x l1 IH]; intros done s1 Hin HI; simpl.
    - apply wp_ret. by rewrite app_nil_r.
    - apply wp_bind. eapply wp_mono; [apply Hf; [set_solver|done]|].
      intros u s2 HI2. simpl in HI2. replace (done ++ x :: l1) with ((done ++ [x]) ++ l1)
        by (by rewrite <- app_assoc).
      apply IH; [set_solver|done]. }
  intros HI. apply (H l [] s); auto.
Qed.

(** The tables after a transaction: the old ones, or the final ones of a
    successful run. *)
Lemma run_tx_wp {A} env db (m : Tx A) (P : Db -> Prop) :
  P db -> wp env m (fun _ s => P (tx_db s)) (MkTx db 0) -> P (run_tx env db m).1.
Proof. unfold wp, run_tx. destruct (m env (MkTx db 0)) as [[a s]|]; auto. Qed.

Lemma run_tx_Ok {A} env db (m : Tx A) db' a :
  run_tx env db m = (db', Ok a) ->
  exists ids, m env (MkTx db 0) = Ok (a, MkTx db' ids).
Proof.
  unfold run_tx. destruct (m env (MkTx db 0)) as [[a' [db'' ids]]|]; [|done].
  intros [= <- <-]. by exists ids.
Qed.

(** What a successful transaction's answer and tables satisfy. *)
Lemma run_tx_post {A} env db (m : Tx A) db' a (P : A -> Db -> Prop) :
  run_tx env db m = (db', Ok a) ->
  wp env m (fun a s => P a (tx_db s)) (MkTx db 0) -> P a db'.
Proof. intros [ids H]%run_tx_Ok. unfold wp. by rewrite H. Qed.

(** Turns a goal about the answer and tables of [H] into a [wp]. *)
Ltac run_post H :=
  lazymatch type of H with
  | run_tx _ _ _ = (?d, Ok ?a) =>
      pattern a, d; apply (run_tx_post _ _ _ _ _ _ H); clear H; cbv beta
  end.

Lemma run_tx_Err {A} env db (m : Tx A) db' e :
  run_tx env db m = (db', Err e) -> db' = db.
Proof. unfold run_tx. destruct (m env (MkTx db 0)) as [[a' s]|]; congruence. Qed.

(** One step of symbolic execution of a transaction under [wp]. *)
Ltac wp_step :=
  lazymatch goal with
  | |- wp _ (mbind _ _) _ _ => apply wp_bind
  | |- wp _ (mret _) _ _ => apply wp_ret
  | |- wp _ (fail _) _ _ => apply wp_fail
  | |- wp _ ask _ _ => apply wp_ask
  | |- wp _ get_db _ _ => apply wp_get_db
  | |- wp _ (modify _) _ _ => apply wp_modify
  | |- wp _ fresh_uuid _ _ => apply wp_fresh_uuid
  | |- wp _ (lift _) _ _ => apply wp_lift; intros ? ?
  | |- wp _ (require _ _) _ _ => apply wp_require; intros ? ?
  | |- wp _ (reject_if _ _) _ _ => apply wp_reject_if; intros ?
  | |- wp _ (sql_bigint _) _ _ => apply wp_sql_bigint; intros ?
  | |- wp _ (sql_int _) _ _ => apply wp_sql_int; intros ?
  | |- wp _ (let x := _ in _) _ _ => cbv zeta
  end.

Ltac wp_steps := repeat (wp_step; simpl).

(** ** Inverting a successful transaction *)
Section inversion.
Context {A B : Type} (env : Env).

Lemma tx_bind_run (m : Tx A) (f : A -> Tx B) s s' a :
  m env s = Ok (a, s') -> (m ≫= f) env s = f a env s'.
Proof. unfold mbind, tx_bind. by intros ->. Qed.

Lemma tx_bind_inv (m : Tx A) (f : A -> Tx B) s b s' :
  (m ≫= f) env s = Ok (b, s') ->
  exists a s1, m env s = Ok (a, s1) /\ f a env s1 = Ok (b, s').
Proof. unfold mbind, tx_bind. destruct (m env s) as [[a s1]|]; [eauto|done]. Qed.

Lemma tx_ret_inv (a b : A) s s' : (mret a : Tx A) env s = Ok (b, s') -> b = a /\ s' = s.
Proof. by intros [= <- <-]. Qed.

Lemma get_db_inv s d s' : get_db env s = Ok (d, s') -> d = tx_db s /\ s' = s.
Proof. by intros [= <- <-]. Qed.

Lemma ask_inv s e s' : ask env s = Ok (e, s') -> e = env /\ s' = s.
Proof. by intros [= <- <-]. Qed.

Lemma modify_inv f s u s' :
  modify f env s = Ok (u, s') -> u = tt /\ s' = MkTx (f (tx_db s)) (tx_ids s).
Proof. by intros [= <- <-]. Qed.

Lemma fresh_uuid_inv s u s' :
  fresh_uuid env s = Ok (u, s') ->
  u = new_v4 env (tx_ids s) /\ s' = MkTx (tx_db s) (S (tx_ids s)).
Proof. by intros [= <- <-]. Qed.

Lemma require_inv (o : option A) e s a s' :
  require o e env s = Ok (a, s') -> o = Some a /\ s' = s.
Proof. destruct o; [by intros [= <- <-]|done]. Qed.

Lemma lift_inv (r : result ApiError A) s a s' :
  lift r env s = Ok (a, s') -> r = Ok a /\ s' = s.
Proof. unfold lift. destruct r; [by intros [= <- <-]|done]. Qed.

Lemma reject_if_inv b e s u s' :
  reject_if b e env s = Ok (u, s') -> b = false /\ u = tt /\ s' = s.
Proof. destruct b; [done|]. by intros [= <- <-]. Qed.

Lemma sql_bigint_inv z s z' s' :
  sql_bigint z env s = Ok (z', s') ->
  (i64_min ≤ z ≤ i64_max)%Z /\ z' = z /\ s' = s.
Proof. unfold sql_bigint, in_i64. case_bool_decide; [by intros [= <- <-]|done]. Qed.

Lemma sql_int_inv z s z' s' :
  sql_int z env s = Ok (z', s') ->
  (i32_min ≤ z ≤ i32_max)%Z /\ z' = z /\ s' = s.
Proof. unfold sql_int, in_i32. case_bool_decide; [by intros [= <- <-]|done]. Qed.
End inversion.

(** Takes a hypothesis [m env s = Ok (a, s')] apart along the binds of [m]. *)
Ltac tx_inv H :=
  lazymatch type of H with
  | mbind _ _ _ _ = Ok _ =>
      let a := fresh "a" in
      let s1 := fresh "s1" in
      let H1 := fresh "H" in
      apply tx_bind_inv in H as (a & s1 & H1 & H); cbv beta in H; tx_inv H1; tx_inv H
  | mret _ _ _ = Ok _ => apply tx_ret_inv in H as [? ?]; subst
  | get_db _ _ = Ok _ => apply get_db_inv in H as [? ?]; subst
  | ask _ _ = Ok _ => apply ask_inv in H as [? ?]; subst
  | modify _ _ _ = Ok _ => apply modify_inv in H as [? ?]; subst
  | fresh_uuid _ _ = Ok _ => apply fresh_uuid_inv in H as [? ?]; subst
  | require _ _ _ _ = Ok _ =>
      let H1 := fresh "H" in apply require_inv in H as [H1 ?]; subst
  | lift _ _ _ = Ok _ =>
      let H1 := fresh "H" in apply lift_inv in H as [H1 ?]; subst
  | reject_if _ _ _ _ = Ok _ =>
      let H1 := fresh "H" in apply reject_if_inv in H as (H1 & ? & ?); subst
  | sql_bigint _ _ _ = Ok _ =>
      let H1 := fresh "H" in apply sql_bigint_inv in H as (H1 & ? & ?); subst
  | sql_int _ _ _ = Ok _ =>
      let H1 := fresh "H" in apply sql_int_inv in H as (H1 & ? & ?); subst
  | fail _ _ _ = Ok _ => discriminate H
  | _ => idtac
  end.

(** ** Queries over the tables *)

(** The rows of a table with their keys. *)
Abbreviation rows t := (map_to_list t) (only parsing).

(** A row satisfying a test, if there is one: [SELECT ... fetch_optional]. *)
Definition select_one `{Countable K} {V} (p : K -> V -> bool) (t : gmap K V) : option (K * V) :=
  head (filter (fun kv => p kv.1 kv.2 = true) (map_to_list t)).

(** [SELECT EXISTS(...)] *)
Definition row_exists `{Countable K} {V} (p : K -> V -> bool) (t : gmap K V) : bool :=
  existsb (fun kv => p kv.1 kv.2) (map_to_list t).

Lemma select_one_Some `{Countable K} {V} p (t : gmap K V) k v :
  select_one p t = Some (k, v) -> t !! k = Some v /\ p k v = true.
Proof.
  unfold select_one. intros Hs.
  assert (Hin : (k, v) ∈ filter (fun kv => p kv.1 kv.2 = true) (map_to_list t)).
  { destruct (filter _ _); simplify_eq/=. set_solver. }
  apply list_elem_of_filter in Hin as [Hp Hin]. by apply elem_of_map_to_list in Hin.
Qed.

Lemma select_one_None `{Countable K} {V} p (t : gmap K V) k v :
  select_one p t = None -> t !! k = Some v -> p k v = false.
Proof.
  unfold select_one. intros Hs Hk. destruct (p k v) eqn:Hp; [|done].
  assert (Hin : (k, v) ∈ filter (fun kv => p kv.1 kv.2 = true) (map_to_list t)).
  { apply list_elem_of_filter. split; [done|]. by apply elem_of_map_to_list. }
  destruct (filter _ _); [set_solver|done].
Qed.

Lemma row_exists_true `{Countable K} {V} p (t : gmap K V) :
  row_exists p t = true <-> exists k v, t !! k = Some v /\ p k v = true.
Proof.
  unfold row_exists. rewrite existsb_exists. split.
  - intros ([k v] & Hin & Hp). exists k, v.
    by apply list_elem_of_In, elem_of_map_to_list in Hin.
  - intros (k & v & Hk & Hp). exists (k, v).
    split; [|done]. by apply list_elem_of_In, elem_of_map_to_list.
Qed.

Lemma row_exists_false `{Countable K} {V} p (t : gmap K V) :
  row_exists p t = false <-> forall k v, t !! k = Some v -> p k v = false.
Proof.
  rewrite <- not_true_iff_false, row_exists_true. split.
  - intros Hn k v Hk. destruct (p k v) eqn:E; [|done]. exfalso; eauto.
  - intros Hn (k & v & Hk & Hp). by rewrite (Hn _ _ Hk) in Hp.
Qed.

(** ** What a transaction keeps

    [frames R m]: whatever [m] does to the tables, they end up related by [R] to
    what they were. For a preorder it is enough that every statement does. *)
Definition frames {A} (R : Db -> Db -> Prop) (m : Tx A) : Prop :=
  forall env s, wp env m (fun _ s' => R (tx_db s) (tx_db s')) s.

Section frames.
Context (R : Db -> Db -> Prop) {HR : PreOrder R}.

Lemma frames_ret {A} (a : A) : frames R (mret a).
Proof. intros env s. apply wp_ret; simpl; intros; reflexivity. Qed.
Lemma frames_fail {A} e : frames R (fail e : Tx A).
Proof. done. Qed.
Lemma frames_ask : frames R ask.
Proof. intros env s. apply wp_ask; simpl; intros; reflexivity. Qed.
Lemma frames_get_db : frames R get_db.
Proof. intros env s. apply wp_get_db; simpl; intros; reflexivity. Qed.
Lemma frames_fresh_uuid : frames R fresh_uuid.
Proof. intros env s. apply wp_fresh_uuid; simpl; intros; reflexivity. Qed.
Lemma frames_lift {A} (r : result ApiError A) : frames R (lift r).
Proof. intros env s. apply wp_lift; simpl; intros; reflexivity. Qed.
Lemma frames_require {A} (o : option A) e : frames R (require o e).
Proof. intros env s. apply wp_require; simpl; intros; reflexivity. Qed.
Lemma frames_reject_if b e : frames R (reject_if b e).
Proof. intros env s. apply wp_reject_if; simpl; intros; reflexivity. Qed.
Lemma frames_sql_bigint z : frames R (sql_bigint z).
Proof. intros env s. apply wp_sql_bigint; simpl; intros; reflexivity. Qed.
Lemma frames_sql_int z : frames R (sql_int z).
Proof. intros env s. apply wp_sql_int; simpl; intros; reflexivity. Qed.
Lemma frames_when b (m : Tx unit) : frames R m -> frames R (when b m).
Proof. intros H. destruct b; [done|apply frames_ret]. Qed.
Lemma frames_modify f : (forall db, R db (f db)) -> frames R (modify f).
Proof. intros H env s. apply wp_modify, H. Qed.

Lemma frames_bind {A B} (m : Tx A) (f : A -> Tx B) :
  frames R m -> (forall a, frames R (f a)) -> frames R (m ≫= f).
Proof.
  intros Hm Hf env s. apply wp_bind. eapply wp_mono; [apply Hm|].
  intros a s1 H1. eapply wp_mono; [apply Hf|]. intros b s2 H2. simpl in *.
  by transitivity (tx_db s1).
Qed.

Lemma frames_tx_iter {A} (f : A -> Tx unit) l :
  (forall x, frames R (f x)) -> frames R (tx_iter f l).
Proof.
  intros Hf. induction l as [|x l IH]; [apply frames_ret|].
  apply frames_bind; [apply Hf|done].
Qed.
End frames.

(** Using what a called transaction keeps. *)
Lemma wp_frames {A} (R : Db -> Db -> Prop) env (m : Tx A) (Q : A -> TxState -> Prop) s :
  frames R m -> (forall a s', R (tx_db s) (tx_db s') -> Q a s') -> wp env m Q s.
Proof. intros Hm HQ. eapply wp_mono; [apply Hm|]. auto. Qed.

Lemma frames_run_tx {A} R `{!Reflexive R} env db (m : Tx A) :
  frames R m -> R db (run_tx env db m).1.
Proof. intros Hm. apply run_tx_wp; [reflexivity|]. apply (Hm env (MkTx db 0)). Qed.

Create HintDb store.
#[export] Hint Resolve frames_ret frames_fail frames_ask frames_get_db frames_fresh_uuid
  frames_lift frames_require frames_reject_if frames_sql_bigint frames_sql_int : store.

(** Reduces [frames R m] to the statements of [m] that change tables; calls with a
    lemma in [store] are discharged. *)
Ltac frames_step :=
  lazymatch goal with
  | |- forall _, _ => intros ?
  | |- frames _ (mbind _ _) => apply frames_bind; [apply _| |intros ?]
  | |- frames _ (let '(_, _) := ?x in _) => destruct x
  | |- frames _ (if ?x then _ else _) => destruct x
  | |- frames _ (match ?x with _ => _ end) => destruct x
  | |- frames _ (tx_iter _ _) => apply frames_tx_iter; [apply _|intros ?]
  | |- frames _ (when _ _) => apply frames_when; [apply _|]
  | |- frames _ _ => solve [eauto with store typeclass_instances]
  end.

Ltac frames_steps := repeat (frames_step; cbv beta zeta).
