(* ===== verification/AuthCodes.v ===== *)
(** * Authentication codes: the pure part of server/cowork-server/src/auth.rs

    Validation of e-mail addresses, passwords and PKCE values, time-based one-time
    passwords, recovery codes and their base32 form, and the handling of refresh tokens in
    browser sessions. SHA-256, HMAC-SHA1, base64 and serde_json's parser are the class
    [AuthLib]; the rest is written out over bytes. *)

From S2P Require Import Prelude Text Json Contracts Store.

(** sha2, hmac with sha1, base64's URL-safe alphabet without padding, and serde_json. *)
Class AuthLib := {
  sha256 : string -> string;
  hmac_sha1 : string -> string -> string;
  b64url_encode : string -> string;
  b64url_decode : string -> option string;
  from_slice_value : string -> option Value;
  to_vec_value : Value -> string;
}.

Definition TOTP_STEP_SECONDS : Z := 30.
Definition TOTP_DIGITS : Z := 1000000.

(** ** Identities *)

(** [str::chars().count()] *)
Fixpoint char_count (s : string) : nat :=
  match s with
  | EmptyString => 0
  | String c s' => (if is_continuation c then 0 else 1) + char_count s'
  end.

Definition at_sign : string := String (Ascii.ascii_of_N 64) "".

Definition validate_email (email : string) : result ApiError unit :=
  let email := trim email in
  guard_err
    ((320 <? str_len email)%Z || negb (str_contains at_sign email)
     || starts_with at_sign email || ends_with at_sign email)
    (Unprocessable "email is invalid").

Definition validate_identity (email password : string) : result ApiError unit :=
  _ ← validate_email email;
  guard_err (negb ((12 <=? char_count password)%nat && (char_count password <=? 1024)%nat))
    (Unprocessable "password must contain 12 to 1024 characters").

Section Lib.
Context `{AuthLib}.

(** ** PKCE *)

Definition validate_pkce_challenge (challenge method : string) : result ApiError unit :=
  _ ← guard_err (negb (String.eqb method "S256"))
        (Unprocessable "code_challenge_method must be S256");
  decoded ← ok_or (Unprocessable "code_challenge must be base64url without padding")
              (b64url_decode challenge);
  guard_err (negb (str_len challenge =? 43)%Z || negb (str_len decoded =? 32)%Z)
    (Unprocessable "code_challenge must contain a 256-bit S256 digest").

Definition is_unreserved (c : ascii) : bool :=
  is_ascii_alphanumeric c || (byte_of c =? 45)%N || (byte_of c =? 46)%N || (byte_of c =? 95)%N
  || (byte_of c =? 126)%N.

Definition validate_pkce_verifier (verifier : string) : result ApiError unit :=
  guard_err
    (negb ((43 <=? str_len verifier)%Z && (str_len verifier <=? 128)%Z)
     || negb (string_forallb is_unreserved verifier))
    (Unprocessable "code_verifier must be 43 to 128 unreserved ASCII characters").

Definition pkce_challenge (verifier : string) : string := b64url_encode (sha256 verifier).

Definition opaque_token_hash (token : string) : string := sha256 token.
Definition token_hash (token : string) : string := opaque_token_hash token.

(** ** Time-based one-time passwords *)

(** [step.to_be_bytes()] of a u64 *)
Fixpoint be_bytes (k : nat) (n : Z) (acc : string) : string :=
  match k with
  | O => acc
  | S k' => be_bytes k' (n / 256) (String (Ascii.ascii_of_N (Z.to_N (n mod 256))) acc)
  end.

Definition to_be_bytes (step : Z) : string := be_bytes 8 (step mod 2 ^ 64) "".

Definition byte_at (n : nat) (s : string) : Z :=
  match String.get n s with Some c => Z.of_N (byte_of c) | None => 0 end.

Definition totp_at (secret : string) (step : Z) : Z :=
  let digest := hmac_sha1 secret (to_be_bytes step) in
  let offset := Z.to_nat (Z.land (byte_at 19 digest) 15) in
  let binary :=
    Z.lor (Z.lor (Z.lor (Z.shiftl (Z.land (byte_at offset digest) 127) 24)
                        (Z.shiftl (byte_at (offset + 1) digest) 16))
                 (Z.shiftl (byte_at (offset + 2) digest) 8))
          (byte_at (offset + 3) digest) in
  (binary mod TOTP_DIGITS)%Z.

(** [format!("{:06}", n)] *)
Definition six_digits (n : Z) : string :=
  let s := pretty n in
  String.substring 0 (6 - String.length s) "000000" +:+ s.

Definition matching_totp_step (secret supplied : string) (unix_seconds : Z) : option Z :=
  let current := (unix_seconds / TOTP_STEP_SECONDS)%Z in
  find (fun step => String.eqb (six_digits (totp_at secret step)) supplied)
    [(current - 1)%Z; current; (current + 1)%Z].
End Lib.

(** ** Base32 and recovery codes *)

Definition ALPHABET : string := "ABCDEFGHIJKLMNOPQRSTUVWXYZ234567".

Definition alphabet_at (n : Z) : ascii := default zero (String.get (Z.to_nat n) ALPHABET).

(** [while bits >= 5 { bits -= 5; output.push(ALPHABET[(buffer >> bits) & 0x1f]) }]: the
    output is kept in reverse; [fuel] is the number of bits. *)
Fixpoint base32_drain (fuel : nat) (buffer bits : Z) (out : list ascii) : Z * list ascii :=
  match fuel with
  | O => (bits, out)
  | S fuel' =>
      if (5 <=? bits)%Z then
        let bits := (bits - 5)%Z in
        base32_drain fuel' buffer bits
          (alphabet_at (Z.land (Z.shiftr buffer bits) 31) :: out)
      else (bits, out)
  end.

(** One byte of the loop; the buffer is a u32, its left shift drops the high bits. *)
Definition base32_byte (st : Z * Z * list ascii) (c : ascii) : Z * Z * list ascii :=
  let '(buffer, bits, out) := st in
  let buffer := Z.lor ((buffer * 256) mod 2 ^ 32) (Z.of_N (byte_of c)) in
  let bits := (bits + 8)%Z in
  let '(bits, out) := base32_drain (Z.to_nat bits) buffer bits out in
  (buffer, bits, out).

Fixpoint base32_loop (bytes : string) (st : Z * Z * list ascii) : Z * Z * list ascii :=
  match bytes with
  | EmptyString => st
  | String c rest => base32_loop rest (base32_byte st c)
  end.

Definition base32_encode (bytes : string) : string :=
  let '(buffer, bits, out) := base32_loop bytes (0, 0, [])%Z in
  let out :=
    if (0 <? bits)%Z
    then alphabet_at (Z.land ((buffer * 2 ^ (5 - bits)) mod 2 ^ 32) 31) :: out
    else out in
  String.string_of_list_ascii (rev out).

(** [as_bytes().chunks(4)] *)
Fixpoint chunks4 (s : string) : list string :=
  match s with
  | String a (String b (String c (String d s'))) =>
      String a (String b (String c (String d ""))) :: chunks4 s'
  | EmptyString => []
  | s => [s]
  end.

(** One generated recovery code, from the ten random bytes. *)
Definition recovery_code (bytes : string) : string := join "-" (chunks4 (base32_encode bytes)).

(** [generate_recovery_codes]; a failing random source is an error. *)
Definition generate_recovery_codes (random : nat -> option string)
    : result ApiError (list string) :=
  res_mapM (fun i => recovery_code <$> ok_or (Internal "getrandom") (random i)) (seq 0 10).

Definition ascii_to_upper (c : ascii) : ascii :=
  if is_ascii_lower c then Ascii.ascii_of_N (byte_of c - 32) else c.

(** Drops hyphens and white-space characters. *)
Fixpoint strip_separators (s : string) : string :=
  match s with
  | EmptyString => EmptyString
  | String c1 s1 =>
      if (byte_of c1 =? 45)%N || ws1 c1 then strip_separators s1 else
      match s1 with
      | EmptyString => s
      | String c2 s2 =>
          if ws2 c1 c2 then strip_separators s2 else
          match s2 with
          | EmptyString => String c1 (strip_separators s1)
          | String c3 s3 =>
              if ws3 c1 c2 c3 then strip_separators s3 else String c1 (strip_separators s1)
          end
      end
  end.

Definition is_base32_char (c : ascii) : bool := is_ascii_upper c || in_byte_range 50 55 c.

Definition normalize_recovery_code (value : string) : option string :=
  let normalized := string_map ascii_to_upper (strip_separators value) in
  if (str_len normalized =? 16)%Z && string_forallb is_base32_char normalized
  then Some normalized
  else None.

(** ** Browser sessions *)

Definition BROWSER_SESSION_HEADER : string := "x-cowork-session-mode".
Definition BROWSER_SESSION_MODE : string := "browser-cookie".
Definition BROWSER_REFRESH_COOKIE : string := "__Host-cowork_refresh".
Definition REFRESH_LIFETIME_DAYS : Z := 30.

(** Header values by lower-case name, in order. *)
Abbreviation HeaderMap := (list (string * string)) (only parsing).

Definition header_all (name : string) (headers : HeaderMap) : list string :=
  snd <$> filter (fun kv => kv.1 = name) headers.

(** [HeaderValue::to_str]: visible ASCII, spaces and tabs *)
Definition to_str (value : string) : option string :=
  if string_forallb (fun c => in_byte_range 32 126 c || (byte_of c =? 9)%N) value
  then Some value
  else None.

Definition is_browser_session (headers : HeaderMap) : bool :=
  match head (header_all BROWSER_SESSION_HEADER headers) ≫= to_str with
  | Some value => String.eqb value BROWSER_SESSION_MODE
  | None => false
  end.

(** [str::split(';')] *)
Fixpoint split_char_from (acc : string) (sep : ascii) (s : string) : list string :=
  match s with
  | EmptyString => [String.rev acc]
  | String c s' =>
      if Ascii.eqb c sep then String.rev acc :: split_char_from "" sep s'
      else split_char_from (String c acc) sep s'
  end.

Definition split_char (sep : ascii) (s : string) : list string := split_char_from "" sep s.

Definition strip_prefix (p s : string) : option string :=
  if String.prefix p s then Some (str_drop (String.length p) s) else None.

Fixpoint find_map {A B} (f : A -> option B) (l : list A) : option B :=
  match l with
  | [] => None
  | x :: l' => match f x with Some b => Some b | None => find_map f l' end
  end.

(** The cookie's value when it is the refresh cookie and not empty. *)
Definition refresh_cookie (cookie : string) : option string :=
  match strip_prefix BROWSER_REFRESH_COOKIE cookie ≫= strip_prefix "=" with
  | Some value => if str_is_empty value then None else Some value
  | None => None
  end.

Definition browser_refresh_token (headers : HeaderMap) : option string :=
  find_map refresh_cookie
    (trim <$> concat (split_char (Ascii.ascii_of_N 59) <$> omap to_str (header_all "cookie" headers))).

Section Browser.
Context `{AuthLib}.

Definition sanitize_browser_tokens (body : string) : option (string * string) :=
  match from_slice_value body with
  | Some (JObject object) =>
      match map_get "refresh_token" object with
      | Some (JString refresh_token) =>
          if str_is_empty refresh_token then None
          else Some (to_vec_value (JObject (map_remove "refresh_token" object)), refresh_token)
      | _ => None
      end
  | _ => None
  end.

(** What of a response the boundary inspects and changes. *)
Record AuthResponse := {
  rs_status : Z;
  rs_headers : HeaderMap;
  rs_body : string;
}.

Definition is_success (status : Z) : bool := (200 <=? status)%Z && (status <? 300)%Z.

Definition append_header (name value : string) (r : AuthResponse) : AuthResponse :=
  {| rs_status := rs_status r; rs_headers := rs_headers r ++ [(name, value)];
     rs_body := rs_body r |}.

(** [HeaderMap::insert] replaces, [HeaderMap::remove] drops. *)
Definition remove_header (name : string) (r : AuthResponse) : AuthResponse :=
  {| rs_status := rs_status r; rs_headers := filter (fun kv => kv.1 <> name) (rs_headers r);
     rs_body := rs_body r |}.

Definition CLEARED_COOKIE : string :=
  "__Host-cowork_refresh=; Path=/; Secure; HttpOnly; SameSite=Strict; Max-Age=0".

Definition refresh_set_cookie (refresh_token : string) : string :=
  BROWSER_REFRESH_COOKIE +:+ "=" +:+ refresh_token
  +:+ "; Path=/; Secure; HttpOnly; SameSite=Strict; Max-Age="
  +:+ pretty (REFRESH_LIFETIME_DAYS * 24 * 60 * 60)%Z.

Definition AUTH_RESPONSE_LIMIT : Z := 1024 * 1024.

Definition internal_server_error : AuthResponse :=
  {| rs_status := 500; rs_headers := []; rs_body := "" |}.

(** [HeaderValue::from_str]: visible ASCII, spaces and tabs, and bytes above 127 *)
Definition header_value_ok (s : string) : bool :=
  string_forallb (fun c => ((32 <=? byte_of c)%N && negb (byte_of c =? 127)%N)
                           || (byte_of c =? 9)%N) s.

(** The middleware around a handler that answered with [response]. *)
Definition browser_session_boundary (path : string) (headers : HeaderMap)
    (response : AuthResponse) : AuthResponse :=
  let browser_mode := is_browser_session headers in
  let authentication_request := str_contains "/auth/" path in
  let logout := ends_with "/auth/logout" path in
  let refresh := ends_with "/auth/browser/refresh" path in
  let response :=
    if authentication_request
    then append_header "cache-control" "no-store" (remove_header "cache-control" response)
    else response in
  if negb browser_mode then response
  else
    let response := append_header "vary" BROWSER_SESSION_HEADER response in
    if (logout && is_success (rs_status response)) || (refresh && (rs_status response =? 401)%Z)
    then append_header "set-cookie" CLEARED_COOKIE response
    else if negb (is_success (rs_status response)) then response
    else if (AUTH_RESPONSE_LIMIT <? str_len (rs_body response))%Z then internal_server_error
    else
      match sanitize_browser_tokens (rs_body response) with
      | None => response
      | Some (sanitized, refresh_token) =>
          if negb (header_value_ok (refresh_set_cookie refresh_token)) then internal_server_error
          else
            append_header "set-cookie" (refresh_set_cookie refresh_token)
              {| rs_status := rs_status response;
                 rs_headers := rs_headers (remove_header "content-length" response);
                 rs_body := sanitized |}
      end.
End Browser.
