(* ===== verification/Auth.v ===== *)
(** * Authentication: server/cowork-server/src/auth.rs and the retention of sessions in db.rs

    The tables of accounts, sessions, tokens, codes and invitations as finite maps, and the
    handlers that read and write them. A handler's transaction ends in one of three ways:
    it commits its answer, it is dropped uncommitted with an error, or it commits and
    answers with an error, as the refresh of a stolen token and the exchange of a wrong
    code do; [outcome] has a constructor for each, and [run_auth] gives the tables that
    remain. Random tokens, Argon2 and PostgreSQL's [lower] come from [AuthEnv]; the sealed
    storage of secrets (server/storage.rs) is the interface [SecretStore]. *)

From S2P Require Import Prelude Text Json Contracts Store AuthCodes.

Definition ACCESS_LIFETIME_MINUTES : Z := 15.
Definition NATIVE_AUTHORIZATION_LIFETIME_MINUTES : Z := 5.

(** ** Tables *)

Record UserRow := {
  us_email : string;
  us_display_name : string;
  us_platform_admin : bool;
  us_password_hash : option string;
  us_deleted : bool;
}.

Record SessionRow := {
  ss_user_id : Uuid;
  ss_device_id : Uuid;
  ss_refresh_token_hash : string;
  ss_refresh_family_id : Uuid;
  ss_previous_token_hash : option string;
  ss_created_at : DateTime;
  ss_last_used_at : DateTime;
  ss_expires_at : DateTime;
  ss_revoked_at : option DateTime;
  ss_revoke_reason : option string;
}.

Record AccessRow := {
  at_session_id : Uuid;
  at_user_id : Uuid;
  at_expires_at : DateTime;
  at_revoked_at : option DateTime;
}.

Record HistoryRow := { hi_session_id : Uuid; hi_refresh_family_id : Uuid }.

Record NativeCodeRow := {
  nc_user_id : Uuid;
  nc_device_id : Uuid;
  nc_code_challenge : string;
  nc_expires_at : DateTime;
  nc_consumed_at : option DateTime;
}.

Record InvitationRow := {
  iv_email : string;
  iv_token_hash : string;
  iv_invited_by : Uuid;
  iv_expires_at : DateTime;
  iv_accepted_by : option Uuid;
  iv_accepted_at : option DateTime;
}.

Record SealedValue := {
  sv_ciphertext : string;
  sv_encrypted_data_key : string;
  sv_nonce : string;
  sv_wrap_nonce : string;
}.

Record TotpRow := {
  tp_sealed : SealedValue;
  tp_enabled : bool;
  tp_last_used_step : option Z;
  tp_pending_expires_at : option DateTime;
  tp_enabled_at : option DateTime;
}.

Record RecoveryRow := {
  rv_user_id : Uuid;
  rv_code_hash : string;
  rv_used_at : option DateTime;
}.

Record GrantRow := {
  gr_user_id : Uuid;
  gr_session_id : Uuid;
  gr_purpose : string;
  gr_expires_at : DateTime;
}.

Record CredentialRow := {
  cr_executor_id : Uuid;
  cr_token_hash : string;
  cr_expires_at : option DateTime;
  cr_revoked_at : option DateTime;
  cr_last_used_at : option DateTime;
}.

Record AuditRow := {
  ad_id : Uuid;
  ad_actor : Uuid;
  ad_action : string;
  ad_target_type : string;
  ad_target : Uuid;
  ad_metadata : Value;
}.

(** [au_draining] is the [draining] column of executors, [au_push_subs] the user and device
    of push subscriptions. *)
Record AuthDb := MkAuthDb {
  au_users : gmap Uuid UserRow;
  au_auth_sessions : gmap Uuid SessionRow;
  au_access_tokens : gmap string AccessRow;
  au_refresh_history : gmap string HistoryRow;
  au_native_codes : gmap string NativeCodeRow;
  au_invitations : gmap Uuid InvitationRow;
  au_user_totp : gmap Uuid TotpRow;
  au_recovery_codes : gmap Uuid RecoveryRow;
  au_grants : gmap string GrantRow;
  au_push_subs : gmap Uuid (Uuid * Uuid);
  au_credentials : gmap Uuid CredentialRow;
  au_draining : gmap Uuid bool;
  au_audit_log : list AuditRow;
}.

Definition set_users (x : gmap Uuid UserRow) (db : AuthDb) : AuthDb :=
  MkAuthDb x (au_auth_sessions db) (au_access_tokens db) (au_refresh_history db)
    (au_native_codes db) (au_invitations db) (au_user_totp db) (au_recovery_codes db)
    (au_grants db) (au_push_subs db) (au_credentials db) (au_draining db)
    (au_audit_log db).

Definition set_auth_sessions (x : gmap Uuid SessionRow) (db : AuthDb) : AuthDb :=
  MkAuthDb (au_users db) x (au_access_tokens db) (au_refresh_history db)
    (au_native_codes db) (au_invitations db) (au_user_totp db) (au_recovery_codes db)
    (au_grants db) (au_push_subs db) (au_credentials db) (au_draining db)
    (au_audit_log db).

Definition set_access_tokens (x : gmap string AccessRow) (db : AuthDb) : AuthDb :=
  MkAuthDb (au_users db) (au_auth_sessions db) x (au_refresh_history db)
    (au_native_codes db) (au_invitations db) (au_user_totp db) (au_recovery_codes db)
    (au_grants db) (au_push_subs db) (au_credentials db) (au_draining db)
    (au_audit_log db).

Definition set_refresh_history (x : gmap string HistoryRow) (db : AuthDb) : AuthDb :=
  MkAuthDb (au_users db) (au_auth_sessions db) (au_access_tokens db) x
    (au_native_codes db) (au_invitations db) (au_user_totp db) (au_recovery_codes db)
    (au_grants db) (au_push_subs db) (au_credentials db) (au_draining db)
    (au_audit_log db).

Definition set_native_codes (x : gmap string NativeCodeRow) (db : AuthDb) : AuthDb :=
  MkAuthDb (au_users db) (au_auth_sessions db) (au_access_tokens db)
    (au_refresh_history db) x (au_invitations db) (au_user_totp db) (au_recovery_codes
    db) (au_grants db) (au_push_subs db) (au_credentials db) (au_draining db)
    (au_audit_log db).

Definition set_invitations (x : gmap Uuid InvitationRow) (db : AuthDb) : AuthDb :=
  MkAuthDb (au_users db) (au_auth_sessions db) (au_access_tokens db)
    (au_refresh_history db) (au_native_codes db) x (au_user_totp db)
    (au_recovery_codes db) (au_grants db) (au_push_subs db) (au_credentials db)
    (au_draining db) (au_audit_log db).

Definition set_user_totp (x : gmap Uuid TotpRow) (db : AuthDb) : AuthDb :=
  MkAuthDb (au_users db) (au_auth_sessions db) (au_access_tokens db)
    (au_refresh_history db) (au_native_codes db) (au_invitations db) x
    (au_recovery_codes db) (au_grants db) (au_push_subs db) (au_credentials db)
    (au_draining db) (au_audit_log db).

Definition set_recovery_codes (x : gmap Uuid RecoveryRow) (db : AuthDb) : AuthDb :=
  MkAuthDb (au_users db) (au_auth_sessions db) (au_access_tokens db)
    (au_refresh_history db) (au_native_codes db) (au_invitations db) (au_user_totp db)
    x (au_grants db) (au_push_subs db) (au_credentials db) (au_draining db)
    (au_audit_log db).

Definition set_grants (x : gmap string GrantRow) (db : AuthDb) : AuthDb :=
  MkAuthDb (au_users db) (au_auth_sessions db) (au_access_tokens db)
    (au_refresh_history db) (au_native_codes db) (au_invitations db) (au_user_totp db)
    (au_recovery_codes db) x (au_push_subs db) (au_credentials db) (au_draining db)
    (au_audit_log db).

Definition set_push_subs (x : gmap Uuid (Uuid * Uuid)) (db : AuthDb) : AuthDb :=
  MkAuthDb (au_users db) (au_auth_sessions db) (au_access_tokens db)
    (au_refresh_history db) (au_native_codes db) (au_invitations db) (au_user_totp db)
    (au_recovery_codes db) (au_grants db) x (au_credentials db) (au_draining db)
    (au_audit_log db).

Definition set_credentials (x : gmap Uuid CredentialRow) (db : AuthDb) : AuthDb :=
  MkAuthDb (au_users db) (au_auth_sessions db) (au_access_tokens db)
    (au_refresh_history db) (au_native_codes db) (au_invitations db) (au_user_totp db)
    (au_recovery_codes db) (au_grants db) (au_push_subs db) x (au_draining db)
    (au_audit_log db).

Definition set_audit_log (x : list AuditRow) (db : AuthDb) : AuthDb :=
  MkAuthDb (au_users db) (au_auth_sessions db) (au_access_tokens db)
    (au_refresh_history db) (au_native_codes db) (au_invitations db) (au_user_totp db)
    (au_recovery_codes db) (au_grants db) (au_push_subs db) (au_credentials db)
    (au_draining db) x.

(** ** The environment *)

(** Envelope encryption of a user's secrets, [ObjectStore::seal_for_user] and
    [ObjectStore::open_for_user]. *)
Record SecretStore := {
  seal_for_user : Uuid -> string -> result ApiError SealedValue;
  open_for_user : Uuid -> SealedValue -> result ApiError string;
}.

(** The clocks, identifiers and random tokens of a request ([None]: the random source
    fails), which rows other transactions hold, Argon2, PostgreSQL's [lower], and the
    server's configuration. *)
Record AuthEnv := {
  ae_db_now : DateTime;
  ae_app_now : DateTime;
  ae_unix_seconds : Z;
  ae_new_v4 : nat -> Uuid;
  ae_random : nat -> option string;
  ae_recovery_random : nat -> option string;
  ae_totp_secret : option string;
  ae_row_locked : Uuid -> bool;
  ae_hash_password : string -> result ApiError string;
  ae_verify_password : string -> string -> result ApiError bool;
  ae_lower : string -> string;
  ae_bootstrap_token_digest : string;
  ae_bootstrap_user_id : Uuid;
  ae_object_store : option SecretStore;
}.

(** ** Transactions *)

Record ATxState := MkATx { atx_db : AuthDb; atx_ids : nat; atx_draws : nat }.

Inductive outcome (A : Type) : Type :=
| Done (a : A) (s : ATxState)
| RolledBack (e : ApiError)
| CommittedErr (e : ApiError) (db : AuthDb).

Arguments Done {A} a s.
Arguments RolledBack {A} e.
Arguments CommittedErr {A} e db.

Definition ATx (A : Type) : Type := AuthEnv -> ATxState -> outcome A.

#[global] Instance atx_ret : MRet ATx := fun A a env s => Done a s.

#[global] Instance atx_bind : MBind ATx := fun A B f m env s =>
  match m env s with
  | Done a s' => f a env s'
  | RolledBack e => RolledBack e
  | CommittedErr e db => CommittedErr e db
  end.

Definition afail {A} (e : ApiError) : ATx A := fun env s => RolledBack e.
(** [tx.commit()] followed by an error *)
Definition acommit_fail {A} (e : ApiError) : ATx A := fun env s => CommittedErr e (atx_db s).
Definition aask : ATx AuthEnv := fun env s => Done env s.
Definition aget : ATx AuthDb := fun env s => Done (atx_db s) s.
Definition amodify (f : AuthDb -> AuthDb) : ATx unit := fun env s =>
  Done tt (MkATx (f (atx_db s)) (atx_ids s) (atx_draws s)).
Definition auuid : ATx Uuid := fun env s =>
  Done (ae_new_v4 env (atx_ids s)) (MkATx (atx_db s) (S (atx_ids s)) (atx_draws s)).
Definition alift {A} (r : result ApiError A) : ATx A := fun env s =>
  match r with Ok a => Done a s | Err e => RolledBack e end.
Definition arequire {A} (o : option A) (e : ApiError) : ATx A :=
  match o with Some a => mret a | None => afail e end.
Definition areject_if (b : bool) (e : ApiError) : ATx unit := if b then afail e else mret tt.

(** [random_token()]: 32 random bytes in base64 *)
Definition random_token : ATx string := fun env s =>
  match ae_random env (atx_draws s) with
  | Some token => Done token (MkATx (atx_db s) (atx_ids s) (S (atx_draws s)))
  | None => RolledBack (Internal "getrandom")
  end.

(** The tables a handler leaves and its answer. *)
Definition run_auth {A} (env : AuthEnv) (db : AuthDb) (m : ATx A) : AuthDb * result ApiError A :=
  match m env (MkATx db 0 0) with
  | Done a s => (atx_db s, Ok a)
  | RolledBack e => (db, Err e)
  | CommittedErr e db' => (db', Err e)
  end.

(** ** Principals *)

Record Principal := {
  pr_user_id : Uuid;
  pr_session_id : option Uuid;
  pr_bootstrap : bool;
}.

Record ExecutorPrincipal := { ep_executor_id : Uuid; ep_credential_id : Uuid }.

Section Auth.
Context `{AuthLib}.

Definition active_users (db : AuthDb) : nat :=
  length (filter (fun kv => us_deleted kv.2 = false) (map_to_list (au_users db))).

Definition session_live (now : DateTime) (session : SessionRow) : bool :=
  bool_decide (ss_revoked_at session = None) && (now <? ss_expires_at session)%Z.

(** The row a token stands for: token, session and account in force. *)
Definition token_principal (env : AuthEnv) (db : AuthDb) (digest : string) : option Principal :=
  match au_access_tokens db !! digest with
  | Some token =>
      match au_auth_sessions db !! at_session_id token, au_users db !! at_user_id token with
      | Some session, Some account =>
          if bool_decide (at_revoked_at token = None) && (ae_db_now env <? at_expires_at token)%Z
             && session_live (ae_db_now env) session && negb (us_deleted account)
          then Some {| pr_user_id := at_user_id token;
                       pr_session_id := Some (at_session_id token); pr_bootstrap := false |}
          else None
      | _, _ => None
      end
  | None => None
  end.

(** [require_auth]: the principal the request goes on with, or 401. The argument is the
    [Authorization] header. *)
Definition require_auth (env : AuthEnv) (db : AuthDb) (authorization : option string)
    : option Principal :=
  match authorization ≫= strip_prefix "Bearer " with
  | None => None
  | Some token =>
      let digest := sha256 token in
      if String.eqb digest (ae_bootstrap_token_digest env) then
        if (active_users db =? 0)%nat
        then Some {| pr_user_id := ae_bootstrap_user_id env; pr_session_id := None;
                     pr_bootstrap := true |}
        else None
      else token_principal env db digest
  end.

Definition credential_usable (env : AuthEnv) (db : AuthDb) (digest : string) (c : CredentialRow)
    : bool :=
  String.eqb (cr_token_hash c) digest && bool_decide (cr_revoked_at c = None)
  && match cr_expires_at c with Some t => (ae_db_now env <? t)%Z | None => true end
  && bool_decide (au_draining db !! cr_executor_id c = Some false).

Definition touch_credential (env : AuthEnv) (c : CredentialRow) : CredentialRow :=
  {| cr_executor_id := cr_executor_id c; cr_token_hash := cr_token_hash c;
     cr_expires_at := cr_expires_at c; cr_revoked_at := cr_revoked_at c;
     cr_last_used_at := Some (ae_db_now env) |}.

(** [require_executor_auth]: token hashes are unique, so at most one row is updated. *)
Definition require_executor_auth (env : AuthEnv) (db : AuthDb) (authorization : option string)
    : option ExecutorPrincipal * AuthDb :=
  match authorization ≫= strip_prefix "Bearer " with
  | None => (None, db)
  | Some token =>
      let digest := opaque_token_hash token in
      match list_find (fun kv => credential_usable env db digest kv.2 = true)
              (map_to_list (au_credentials db)) with
      | Some (_, (id, c)) =>
          (Some {| ep_executor_id := cr_executor_id c; ep_credential_id := id |},
           set_credentials (<[id := touch_credential env c]> (au_credentials db)) db)
      | None => (None, db)
      end
  end.

(** ** Sessions *)

Record AuthTokens := {
  tk_access_token : string;
  tk_access_expires_at : DateTime;
  tk_refresh_token : string;
  tk_refresh_expires_at : DateTime;
  tk_user_id : Uuid;
  tk_session_id : Uuid;
}.

Definition issue_access_token (user_id session_id : Uuid) : ATx (string * DateTime) :=
  env ← aask;
  access_token ← random_token;
  let hash := token_hash access_token in
  let expires_at := (ae_app_now env + minutes ACCESS_LIFETIME_MINUTES)%Z in
  db ← aget;
  _ ← areject_if (bool_decide (is_Some (au_access_tokens db !! hash)))
        (Database (UniqueViolation "access_tokens_pkey"));
  _ ← amodify (fun db => set_access_tokens
        (<[hash := {| at_session_id := session_id; at_user_id := user_id;
                      at_expires_at := expires_at; at_revoked_at := None |}]>
           (au_access_tokens db)) db);
  mret (access_token, expires_at).

(** Whether some session has the refresh token. *)
Definition has_refresh_hash (hash : string) (sessions : gmap Uuid SessionRow) : bool :=
  existsb (fun kv => String.eqb (ss_refresh_token_hash kv.2) hash) (map_to_list sessions).

(** The row a session starts with. *)
Definition new_session (env : AuthEnv) (user_id device_id family_id : Uuid) (hash : string)
    (expires_at : DateTime) : SessionRow :=
  {| ss_user_id := user_id; ss_device_id := device_id; ss_refresh_token_hash := hash;
     ss_refresh_family_id := family_id; ss_previous_token_hash := None;
     ss_created_at := ae_db_now env; ss_last_used_at := ae_db_now env;
     ss_expires_at := expires_at; ss_revoked_at := None; ss_revoke_reason := None |}.

Definition create_session_tx (user_id device_id : Uuid) : ATx AuthTokens :=
  env ← aask;
  session_id ← auuid;
  refresh_family_id ← auuid;
  refresh_token ← random_token;
  let refresh_hash := token_hash refresh_token in
  let refresh_expires_at := (ae_app_now env + days REFRESH_LIFETIME_DAYS)%Z in
  db ← aget;
  _ ← areject_if (bool_decide (is_Some (au_auth_sessions db !! session_id)))
        (Database (UniqueViolation "auth_sessions_pkey"));
  _ ← areject_if (has_refresh_hash refresh_hash (au_auth_sessions db))
        (Database (UniqueViolation "auth_sessions_refresh_token_hash_key"));
  _ ← amodify (fun db => set_auth_sessions
        (<[session_id := new_session env user_id device_id refresh_family_id refresh_hash
                           refresh_expires_at]> (au_auth_sessions db)) db);
  access ← issue_access_token user_id session_id;
  mret {| tk_access_token := access.1; tk_access_expires_at := access.2;
          tk_refresh_token := refresh_token; tk_refresh_expires_at := refresh_expires_at;
          tk_user_id := user_id; tk_session_id := session_id |}.

(** The session with a refresh token that is not revoked. *)
Definition session_by_refresh (hash : string) (db : AuthDb) : option (Uuid * SessionRow) :=
  snd <$> list_find (fun kv => ss_refresh_token_hash kv.2 = hash /\ ss_revoked_at kv.2 = None)
            (map_to_list (au_auth_sessions db)).

Definition revoke (now : DateTime) (reason : string) (s : SessionRow) : SessionRow :=
  {| ss_user_id := ss_user_id s; ss_device_id := ss_device_id s;
     ss_refresh_token_hash := ss_refresh_token_hash s;
     ss_refresh_family_id := ss_refresh_family_id s;
     ss_previous_token_hash := ss_previous_token_hash s; ss_created_at := ss_created_at s;
     ss_last_used_at := ss_last_used_at s; ss_expires_at := ss_expires_at s;
     ss_revoked_at := Some now; ss_revoke_reason := Some reason |}.

(** [UPDATE auth_sessions .. WHERE refresh_family_id = $1 AND revoked_at IS NULL] *)
Definition revoke_family (now : DateTime) (family_id : Uuid) (db : AuthDb) : AuthDb :=
  set_auth_sessions
    ((fun s => if bool_decide (ss_refresh_family_id s = family_id)
                  && bool_decide (ss_revoked_at s = None)
               then revoke now "refresh_token_reuse" s else s) <$> au_auth_sessions db) db.

(** The row after its refresh token was replaced. *)
Definition rotate_session (now : DateTime) (hash : string) (s : SessionRow) : SessionRow :=
  {| ss_user_id := ss_user_id s; ss_device_id := ss_device_id s; ss_refresh_token_hash := hash;
     ss_refresh_family_id := ss_refresh_family_id s;
     ss_previous_token_hash := Some (ss_refresh_token_hash s);
     ss_created_at := ss_created_at s; ss_last_used_at := now;
     ss_expires_at := ss_expires_at s; ss_revoked_at := ss_revoked_at s;
     ss_revoke_reason := ss_revoke_reason s |}.

Definition refresh_invalid : ApiError := Unauthorized "refresh token is invalid or expired".

(** The answer to a token no live session has: a token of the history revokes its family. *)
Definition refuse_refresh (supplied_hash : string) : ATx AuthTokens :=
  env ← aask;
  db ← aget;
  match au_refresh_history db !! supplied_hash with
  | Some h =>
      _ ← amodify (revoke_family (ae_db_now env) (hi_refresh_family_id h));
      acommit_fail refresh_invalid
  | None => afail refresh_invalid
  end.

Definition rotate_refresh_session (refresh_token : string) : ATx AuthTokens :=
  env ← aask;
  let supplied_hash := token_hash refresh_token in
  db ← aget;
  match session_by_refresh supplied_hash db with
  | None => refuse_refresh supplied_hash
  | Some (session_id, row) =>
      _ ← areject_if (ss_expires_at row <=? ae_app_now env)%Z refresh_invalid;
      refresh_token ← random_token;
      let refresh_hash := token_hash refresh_token in
      _ ← areject_if (bool_decide (is_Some (au_refresh_history db !! supplied_hash)))
            (Database (UniqueViolation "auth_refresh_token_history_pkey"));
      _ ← amodify (fun db => set_refresh_history
            (<[supplied_hash := {| hi_session_id := session_id;
                                   hi_refresh_family_id := ss_refresh_family_id row |}]>
               (au_refresh_history db)) db);
      _ ← areject_if (has_refresh_hash refresh_hash (delete session_id (au_auth_sessions db)))
            (Database (UniqueViolation "auth_sessions_refresh_token_hash_key"));
      _ ← amodify (fun db => set_auth_sessions
            (<[session_id := rotate_session (ae_db_now env) refresh_hash row]>
               (au_auth_sessions db)) db);
      access ← issue_access_token (ss_user_id row) session_id;
      mret {| tk_access_token := access.1; tk_access_expires_at := access.2;
              tk_refresh_token := refresh_token; tk_refresh_expires_at := ss_expires_at row;
              tk_user_id := ss_user_id row; tk_session_id := session_id |}
  end.

Definition refresh_session (refresh_token : string) : ATx AuthTokens :=
  rotate_refresh_session refresh_token.

Definition browser_refresh_session (headers : list (string * string)) : ATx AuthTokens :=
  _ ← areject_if (negb (is_browser_session headers))
        (Unauthorized "browser refresh requires the browser-cookie session mode");
  refresh_token ← arequire (browser_refresh_token headers)
        (Unauthorized "browser session cookie is missing or expired");
  rotate_refresh_session refresh_token.

(** [UPDATE access_tokens SET revoked_at = now() WHERE session_id = $1] *)
Definition revoke_access_tokens (now : DateTime) (session_id : Uuid) (db : AuthDb) : AuthDb :=
  set_access_tokens
    ((fun t => if bool_decide (at_session_id t = session_id)
               then {| at_session_id := at_session_id t; at_user_id := at_user_id t;
                       at_expires_at := at_expires_at t; at_revoked_at := Some now |}
               else t) <$> au_access_tokens db) db.

Definition logout (principal : Principal) : ATx unit :=
  env ← aask;
  session_id ← arequire (pr_session_id principal)
        (Conflict "bootstrap authentication does not have a session");
  _ ← amodify (fun db => set_auth_sessions
        (alter (revoke (ae_db_now env) "user_logout") session_id (au_auth_sessions db)) db);
  amodify (revoke_access_tokens (ae_db_now env) session_id).

(** Removes the push subscriptions of a device without a live session. *)
Definition drop_dead_subscriptions (now : DateTime) (user_id device_id : Uuid) (db : AuthDb)
    : AuthDb :=
  if existsb (fun kv => bool_decide (ss_user_id kv.2 = user_id)
                        && bool_decide (ss_device_id kv.2 = device_id)
                        && session_live now kv.2) (map_to_list (au_auth_sessions db))
  then db
  else set_push_subs (filter (fun kv => kv.2 <> (user_id, device_id)) (au_push_subs db)) db.

Definition insert_audit (actor : Uuid) (action target_type : string) (target : Uuid)
    (metadata : Value) : ATx unit :=
  id ← auuid;
  amodify (fun db => set_audit_log
    ({| ad_id := id; ad_actor := actor; ad_action := action; ad_target_type := target_type;
        ad_target := target; ad_metadata := metadata |} :: au_audit_log db) db).

Definition revoke_session (principal : Principal) (session_id : Uuid) : ATx unit :=
  env ← aask;
  current_session_id ← arequire (pr_session_id principal)
        (Unauthorized "session revocation requires a signed-in user session");
  db ← aget;
  row ← arequire
        (match au_auth_sessions db !! session_id with
         | Some row => if bool_decide (ss_user_id row = pr_user_id principal) then Some row else None
         | None => None
         end) (NotFound "authentication session was not found");
  if bool_decide (ss_revoked_at row = None) then
    _ ← amodify (fun db => set_auth_sessions
          (<[session_id := revoke (ae_db_now env) "user_device_revoked" row]>
             (au_auth_sessions db)) db);
    _ ← amodify (revoke_access_tokens (ae_db_now env) session_id);
    _ ← amodify (drop_dead_subscriptions (ae_db_now env) (pr_user_id principal) (ss_device_id row));
    insert_audit (pr_user_id principal) "auth.session.revoked" "auth_session" session_id
      (json_obj [("device_id", juuid (ss_device_id row));
                 ("current", JBool (bool_decide (session_id = current_session_id)))])
  else mret tt.

(** ** Accounts *)

(** The account with an e-mail address; the index on active accounts makes it unique. *)
Definition user_by_email (env : AuthEnv) (email : string) (db : AuthDb)
    : option (Uuid * UserRow) :=
  snd <$> list_find (fun kv => ae_lower env (us_email kv.2) = ae_lower env email
                               /\ us_deleted kv.2 = false) (map_to_list (au_users db)).

Definition insert_user (user_id : Uuid) (row : UserRow) : ATx unit :=
  env ← aask;
  db ← aget;
  _ ← areject_if (bool_decide (is_Some (au_users db !! user_id)))
        (Database (UniqueViolation "users_pkey"));
  _ ← areject_if (bool_decide (is_Some (user_by_email env (us_email row) db)))
        (Database (UniqueViolation "users_email_active_unique"));
  amodify (fun db => set_users (<[user_id := row]> (au_users db)) db).

Definition bad_display_name (name : string) : bool :=
  str_is_empty (trim name) || (200 <? str_len name)%Z.

Definition display_name_error : ApiError :=
  Unprocessable "display_name must contain 1 to 200 characters".

Definition already_bootstrapped : ApiError :=
  Conflict "the first administrator has already been created".

Record BootstrapAdminRequest := {
  ba_email : string;
  ba_password : string;
  ba_display_name : string;
  ba_device_id : Uuid;
}.

Definition bootstrap_admin (principal : Principal) (request : BootstrapAdminRequest)
    : ATx AuthTokens :=
  env ← aask;
  _ ← areject_if (negb (pr_bootstrap principal)) already_bootstrapped;
  _ ← alift (validate_identity (ba_email request) (ba_password request));
  _ ← areject_if (bad_display_name (ba_display_name request)) display_name_error;
  password_hash ← alift (ae_hash_password env (ba_password request));
  user_id ← auuid;
  db ← aget;
  _ ← areject_if (negb (active_users db =? 0)%nat) already_bootstrapped;
  _ ← insert_user user_id
        {| us_email := ae_lower env (trim (ba_email request));
           us_display_name := trim (ba_display_name request); us_platform_admin := true;
           us_password_hash := Some password_hash; us_deleted := false |};
  create_session_tx user_id (ba_device_id request).

(** ** Second factors *)

Definition sealed_open (env : AuthEnv) (user_id : Uuid) (row : TotpRow) : result ApiError string :=
  store ← ok_or (Internal "encrypted TOTP storage is unavailable") (ae_object_store env);
  open_for_user store user_id (tp_sealed row).

Definition set_last_step (step : Z) (row : TotpRow) : TotpRow :=
  {| tp_sealed := tp_sealed row; tp_enabled := tp_enabled row; tp_last_used_step := Some step;
     tp_pending_expires_at := tp_pending_expires_at row; tp_enabled_at := tp_enabled_at row |}.

(** The unused recovery code of the user with the hash. *)
Definition unused_recovery (user_id : Uuid) (hash : string) (db : AuthDb)
    : option (Uuid * RecoveryRow) :=
  snd <$> list_find (fun kv => rv_user_id kv.2 = user_id /\ rv_code_hash kv.2 = hash
                               /\ rv_used_at kv.2 = None) (map_to_list (au_recovery_codes db)).

Definition use_recovery (now : DateTime) (row : RecoveryRow) : RecoveryRow :=
  {| rv_user_id := rv_user_id row; rv_code_hash := rv_code_hash row; rv_used_at := Some now |}.

Definition is_totp_code (supplied : string) : bool :=
  (str_len supplied =? 6)%Z && string_forallb is_ascii_digit supplied.

(** Whether the supplied factor is accepted; an accepted one is marked as used. *)
Definition accept_factor (user_id : Uuid) (row : TotpRow) (supplied : string) : ATx bool :=
  env ← aask;
  if is_totp_code supplied then
    secret ← alift (sealed_open env user_id row);
    match matching_totp_step secret supplied (ae_unix_seconds env) with
    | Some step =>
        if match tp_last_used_step row with Some prior => (prior <? step)%Z | None => true end then
          _ ← amodify (fun db => set_user_totp
                (<[user_id := set_last_step step row]> (au_user_totp db)) db);
          mret true
        else mret false
    | None => mret false
    end
  else
    match normalize_recovery_code supplied with
    | Some normalized =>
        db ← aget;
        match unused_recovery user_id (opaque_token_hash normalized) db with
        | Some (id, code) =>
            _ ← amodify (fun db => set_recovery_codes
                  (<[id := use_recovery (ae_db_now env) code]> (au_recovery_codes db)) db);
            mret true
        | None => mret false
        end
    | None => mret false
    end.

Definition verify_second_factor (user_id : Uuid) (supplied : option string) : ATx unit :=
  db ← aget;
  match au_user_totp db !! user_id with
  | Some row =>
      if tp_enabled row then
        supplied ← arequire (non_empty_trimmed supplied)
              (Unauthorized "TOTP or recovery code is required");
        accepted ← accept_factor user_id row supplied;
        areject_if (negb accepted)
          (Unauthorized "TOTP or recovery code is invalid or already used")
      else mret tt
  | None => mret tt
  end.

(** ** Signing in *)

Definition invalid_login : ApiError := Unauthorized "invalid email or password".

(** The account of an e-mail address and password. *)
Definition check_password (env : AuthEnv) (db : AuthDb) (email password : string)
    : result ApiError Uuid :=
  _ ← validate_identity email password;
  row ← ok_or invalid_login (user_by_email env (trim email) db);
  password_hash ← ok_or invalid_login (us_password_hash row.2);
  verified ← ae_verify_password env password password_hash;
  _ ← guard_err (negb verified) invalid_login;
  Ok row.1.

Record PasswordLoginRequest := {
  pl_email : string;
  pl_password : string;
  pl_second_factor : option string;
  pl_device_id : Uuid;
}.

(** The second factor is checked, and used up, in a transaction of its own. *)
Definition password_login (env : AuthEnv) (db : AuthDb) (request : PasswordLoginRequest)
    : AuthDb * result ApiError AuthTokens :=
  match check_password env db (pl_email request) (pl_password request) with
  | Err e => (db, Err e)
  | Ok user_id =>
      match run_auth env db (verify_second_factor user_id (pl_second_factor request)) with
      | (db, Err e) => (db, Err e)
      | (db, Ok _) => run_auth env db (create_session_tx user_id (pl_device_id request))
      end
  end.

Record NativeAuthorizationRequest := {
  na_email : string;
  na_password : string;
  na_second_factor : option string;
  na_device_id : Uuid;
  na_code_challenge : string;
  na_code_challenge_method : string;
}.

Definition create_native_authorization_code_tx (user_id device_id : Uuid) (code_challenge : string)
    : ATx (string * DateTime) :=
  env ← aask;
  code ← random_token;
  let code_hash := opaque_token_hash code in
  let expires_at := (ae_app_now env + minutes NATIVE_AUTHORIZATION_LIFETIME_MINUTES)%Z in
  db ← aget;
  _ ← areject_if (bool_decide (is_Some (au_native_codes db !! code_hash)))
        (Database (UniqueViolation "native_authorization_codes_pkey"));
  _ ← amodify (fun db => set_native_codes
        (<[code_hash := {| nc_user_id := user_id; nc_device_id := device_id;
                           nc_code_challenge := code_challenge; nc_expires_at := expires_at;
                           nc_consumed_at := None |}]> (au_native_codes db)) db);
  mret (code, expires_at).

Definition native_authorize (env : AuthEnv) (db : AuthDb) (request : NativeAuthorizationRequest)
    : AuthDb * result ApiError (string * DateTime) :=
  match
    (_ ← validate_identity (na_email request) (na_password request);
     _ ← validate_pkce_challenge (na_code_challenge request) (na_code_challenge_method request);
     check_password env db (na_email request) (na_password request))
  with
  | Err e => (db, Err e)
  | Ok user_id =>
      match run_auth env db (verify_second_factor user_id (na_second_factor request)) with
      | (db, Err e) => (db, Err e)
      | (db, Ok _) =>
          run_auth env db (create_native_authorization_code_tx user_id (na_device_id request)
                             (na_code_challenge request))
      end
  end.

Definition consume_code (now : DateTime) (row : NativeCodeRow) : NativeCodeRow :=
  {| nc_user_id := nc_user_id row; nc_device_id := nc_device_id row;
     nc_code_challenge := nc_code_challenge row; nc_expires_at := nc_expires_at row;
     nc_consumed_at := Some now |}.

Record NativeTokenRequest := {
  nt_code : string;
  nt_code_verifier : string;
  nt_device_id : Uuid;
}.

(** The code is consumed first, also when the verifier or the device is wrong. *)
Definition native_token (request : NativeTokenRequest) : ATx AuthTokens :=
  env ← aask;
  _ ← alift (validate_pkce_verifier (nt_code_verifier request));
  let code_hash := opaque_token_hash (nt_code request) in
  db ← aget;
  row ← arequire
        (match au_native_codes db !! code_hash with
         | Some row => if bool_decide (nc_consumed_at row = None) then Some row else None
         | None => None
         end) (Unauthorized "authorization code is invalid or already used");
  _ ← amodify (fun db => set_native_codes
        (<[code_hash := consume_code (ae_db_now env) row]> (au_native_codes db)) db);
  if (ae_app_now env <? nc_expires_at row)%Z
     && bool_decide (nt_device_id request = nc_device_id row)
     && String.eqb (pkce_challenge (nt_code_verifier request)) (nc_code_challenge row)
  then create_session_tx (nc_user_id row) (nt_device_id request)
  else acommit_fail (Unauthorized "authorization code, verifier, or device binding is invalid").

(** ** Invitations *)

Definition is_platform_admin (db : AuthDb) (user_id : Uuid) : bool :=
  match au_users db !! user_id with
  | Some row => negb (us_deleted row) && us_platform_admin row
  | None => false
  end.

Definition invitation_by_hash (hash : string) (db : AuthDb) : option (Uuid * InvitationRow) :=
  snd <$> list_find (fun kv => iv_token_hash kv.2 = hash) (map_to_list (au_invitations db)).

(** Answers with the identifier, the address, the token and the expiry. *)
Definition create_invitation (principal : Principal) (email : string)
    (requested_expiry : option DateTime) : ATx (Uuid * string * string * DateTime) :=
  env ← aask;
  db ← aget;
  _ ← areject_if (negb (is_platform_admin db (pr_user_id principal)))
        (Unauthorized "only platform administrators can create invitations");
  _ ← alift (validate_email email);
  let now := ae_app_now env in
  let expires_at := default (now + days 7)%Z requested_expiry in
  _ ← areject_if ((expires_at <=? now + minutes 60)%Z || (now + days 30 <? expires_at)%Z)
        (Unprocessable "invitations must expire between one hour and 30 days from now");
  token ← random_token;
  let digest := opaque_token_hash token in
  invitation_id ← auuid;
  let email := to_ascii_lowercase (trim email) in
  _ ← areject_if (bool_decide (is_Some (au_invitations db !! invitation_id)))
        (Database (UniqueViolation "invitations_pkey"));
  _ ← areject_if (bool_decide (is_Some (invitation_by_hash digest db)))
        (Database (UniqueViolation "invitations_token_hash_key"));
  _ ← amodify (fun db => set_invitations
        (<[invitation_id := {| iv_email := email; iv_token_hash := digest;
                               iv_invited_by := pr_user_id principal; iv_expires_at := expires_at;
                               iv_accepted_by := None; iv_accepted_at := None |}]>
           (au_invitations db)) db);
  mret (invitation_id, email, token, expires_at).

Definition accept (now : DateTime) (user_id : Uuid) (row : InvitationRow) : InvitationRow :=
  {| iv_email := iv_email row; iv_token_hash := iv_token_hash row;
     iv_invited_by := iv_invited_by row; iv_expires_at := iv_expires_at row;
     iv_accepted_by := Some user_id; iv_accepted_at := Some now |}.

Record AcceptInvitationRequest := {
  ac_token : string;
  ac_display_name : string;
  ac_password : string;
  ac_device_id : Uuid;
}.

Definition accept_invitation (request : AcceptInvitationRequest) : ATx AuthTokens :=
  env ← aask;
  _ ← areject_if (bad_display_name (ac_display_name request)) display_name_error;
  let digest := opaque_token_hash (ac_token request) in
  db ← aget;
  found ← arequire
        (match invitation_by_hash digest db with
         | Some (id, row) =>
             if bool_decide (iv_accepted_at row = None) && (ae_db_now env <? iv_expires_at row)%Z
             then Some (id, row) else None
         | None => None
         end) (Unauthorized "invitation is invalid or expired");
  _ ← alift (validate_identity (iv_email found.2) (ac_password request));
  password_hash ← alift (ae_hash_password env (ac_password request));
  user_id ← auuid;
  _ ← insert_user user_id
        {| us_email := ae_lower env (iv_email found.2);
           us_display_name := trim (ac_display_name request); us_platform_admin := false;
           us_password_hash := Some password_hash; us_deleted := false |};
  _ ← amodify (fun db => set_invitations
        (<[found.1 := accept (ae_db_now env) user_id found.2]> (au_invitations db)) db);
  create_session_tx user_id (ac_device_id request).

(** ** Reauthentication *)

Definition reauthenticate (principal : Principal) (purpose password : string)
    : ATx (string * DateTime) :=
  env ← aask;
  session_id ← arequire (pr_session_id principal)
        (Unauthorized "reauthentication requires a signed-in user session");
  _ ← areject_if (negb (String.eqb purpose "desktop_control"))
        (Unprocessable "unsupported reauthentication purpose");
  db ← aget;
  encoded ← arequire
        (match au_users db !! pr_user_id principal with
         | Some row => if us_deleted row then None else us_password_hash row
         | None => None
         end) (Unauthorized "this account cannot reauthenticate with a password");
  verified ← alift (ae_verify_password env password encoded);
  _ ← areject_if (negb verified) (Unauthorized "password reauthentication failed");
  token ← random_token;
  let digest := token_hash token in
  let expires_at := (ae_app_now env + minutes 5)%Z in
  _ ← areject_if (bool_decide (is_Some (au_grants db !! digest)))
        (Database (UniqueViolation "reauthentication_grants_pkey"));
  _ ← amodify (fun db => set_grants
        (<[digest := {| gr_user_id := pr_user_id principal; gr_session_id := session_id;
                        gr_purpose := purpose; gr_expires_at := expires_at |}]>
           (au_grants db)) db);
  mret (token, expires_at).

(** ** Managing the second factor *)

(** Enabled or not, and the number of unused recovery codes, at most 65535. *)
Definition totp_status (principal : Principal) (db : AuthDb) : bool * Z :=
  let enabled :=
    match au_user_totp db !! pr_user_id principal with
    | Some row => tp_enabled row
    | None => false
    end in
  let unused :=
    Z.of_nat (length (filter (fun kv => rv_user_id kv.2 = pr_user_id principal
                                        /\ rv_used_at kv.2 = None)
                        (map_to_list (au_recovery_codes db)))) in
  (enabled, if in_u16 unused then unused else u16_max).

Definition storage_unconfigured : ApiError :=
  Conflict "encrypted secret storage is not configured".

(** Answers with the secret in base32 and the expiry of the setup. *)
Definition setup_totp (principal : Principal) : ATx (string * DateTime) :=
  env ← aask;
  _ ← arequire (pr_session_id principal) (Unauthorized "TOTP setup requires a user session");
  store ← arequire (ae_object_store env) storage_unconfigured;
  db ← aget;
  _ ← areject_if (totp_status principal db).1 (Conflict "TOTP is already enabled");
  secret ← arequire (ae_totp_secret env) (Internal "getrandom");
  sealed ← alift (seal_for_user store (pr_user_id principal) secret);
  let expires_at := (ae_app_now env + minutes 10)%Z in
  let enabled_at :=
    match au_user_totp db !! pr_user_id principal with
    | Some row => tp_enabled_at row
    | None => None
    end in
  _ ← amodify (fun db => set_user_totp
        (<[pr_user_id principal :=
             {| tp_sealed := sealed; tp_enabled := false; tp_last_used_step := None;
                tp_pending_expires_at := Some expires_at; tp_enabled_at := enabled_at |}]>
           (au_user_totp db)) db);
  mret (base32_encode secret, expires_at).

Definition drop_recovery_codes (user_id : Uuid) (db : AuthDb) : AuthDb :=
  set_recovery_codes (filter (fun kv => rv_user_id kv.2 <> user_id) (au_recovery_codes db)) db.

(** One row per code; the user and the hash are unique together. *)
Fixpoint insert_recovery_codes (user_id : Uuid) (codes : list string) : ATx unit :=
  match codes with
  | [] => mret tt
  | code :: rest =>
      normalized ← arequire (normalize_recovery_code code)
            (Internal "invalid generated recovery code");
      let digest := opaque_token_hash normalized in
      id ← auuid;
      db ← aget;
      _ ← areject_if (bool_decide (is_Some (au_recovery_codes db !! id)))
            (Database (UniqueViolation "recovery_codes_pkey"));
      _ ← areject_if
            (existsb (fun kv => bool_decide (rv_user_id kv.2 = user_id)
                                && String.eqb (rv_code_hash kv.2) digest)
               (map_to_list (au_recovery_codes db)))
            (Database (UniqueViolation "recovery_codes_user_id_code_hash_key"));
      _ ← amodify (fun db => set_recovery_codes
            (<[id := {| rv_user_id := user_id; rv_code_hash := digest; rv_used_at := None |}]>
               (au_recovery_codes db)) db);
      insert_recovery_codes user_id rest
  end.

Definition insert_auth_audit (user_id : Uuid) (action : string) : ATx unit :=
  insert_audit user_id action "user" user_id (JObject []).

Definition pending (now : DateTime) (row : TotpRow) : bool :=
  negb (tp_enabled row)
  && match tp_pending_expires_at row with Some t => (now <? t)%Z | None => false end.

Definition enable_totp (principal : Principal) (code : string) : ATx (list string) :=
  env ← aask;
  store ← arequire (ae_object_store env) storage_unconfigured;
  db ← aget;
  row ← arequire
        (match au_user_totp db !! pr_user_id principal with
         | Some row => if pending (ae_db_now env) row then Some row else None
         | None => None
         end) (Conflict "TOTP setup is missing or expired");
  secret ← alift (open_for_user store (pr_user_id principal) (tp_sealed row));
  step ← arequire (matching_totp_step secret code (ae_unix_seconds env))
        (Unauthorized "TOTP code is invalid");
  recovery_codes ← alift (generate_recovery_codes (ae_recovery_random env));
  _ ← amodify (drop_recovery_codes (pr_user_id principal));
  _ ← insert_recovery_codes (pr_user_id principal) recovery_codes;
  _ ← amodify (fun db => set_user_totp
        (<[pr_user_id principal :=
             {| tp_sealed := tp_sealed row; tp_enabled := true; tp_last_used_step := Some step;
                tp_pending_expires_at := None; tp_enabled_at := Some (ae_db_now env) |}]>
           (au_user_totp db)) db);
  _ ← insert_auth_audit (pr_user_id principal) "auth.totp.enabled";
  mret recovery_codes.

Definition regenerate_recovery_codes (env : AuthEnv) (db : AuthDb) (principal : Principal)
    (code : string) : AuthDb * result ApiError (list string) :=
  match run_auth env db (verify_second_factor (pr_user_id principal) (Some code)) with
  | (db, Err e) => (db, Err e)
  | (db, Ok _) =>
      match generate_recovery_codes (ae_recovery_random env) with
      | Err e => (db, Err e)
      | Ok codes =>
          run_auth env db
            (_ ← amodify (drop_recovery_codes (pr_user_id principal));
             _ ← insert_recovery_codes (pr_user_id principal) codes;
             _ ← insert_auth_audit (pr_user_id principal) "auth.recovery_codes.regenerated";
             mret codes)
      end
  end.

(** [verify_account_password_and_second_factor] up to the second factor, with the error of
    an account without a password. *)
Definition account_password (env : AuthEnv) (db : AuthDb) (user_id : Uuid) (password : string)
    : result ApiError unit :=
  password_hash ← ok_or (Unauthorized "password verification is unavailable")
    (match au_users db !! user_id with
     | Some row => if us_deleted row then None else us_password_hash row
     | None => None
     end);
  verified ← ae_verify_password env password password_hash;
  guard_err (negb verified) (Unauthorized "password is invalid").

Definition verify_account_password_and_second_factor (env : AuthEnv) (db : AuthDb)
    (user_id : Uuid) (password : string) (second_factor : option string)
    : AuthDb * result ApiError unit :=
  match account_password env db user_id password with
  | Err e => (db, Err e)
  | Ok _ => run_auth env db (verify_second_factor user_id second_factor)
  end.

Definition disable_totp (env : AuthEnv) (db : AuthDb) (principal : Principal)
    (password second_factor : string) : AuthDb * result ApiError unit :=
  match account_password env db (pr_user_id principal) password with
  | Err e => (db, Err e)
  | Ok _ =>
      match run_auth env db (verify_second_factor (pr_user_id principal) (Some second_factor)) with
      | (db, Err e) => (db, Err e)
      | (db, Ok _) =>
          run_auth env db
            (_ ← amodify (fun db => set_user_totp
                   (delete (pr_user_id principal) (au_user_totp db)) db);
             insert_auth_audit (pr_user_id principal) "auth.totp.disabled")
      end
  end.

(** ** Listing and retention *)

Record AuthSessionRecord := {
  sr_id : Uuid;
  sr_device_id : Uuid;
  sr_current : bool;
  sr_active : bool;
  sr_row : SessionRow;
}.

(** [ORDER BY (id = current) DESC, active DESC, last_used_at DESC] *)
Definition listed_before (a b : AuthSessionRecord) : Prop :=
  (sr_current b = true -> sr_current a = true)
  /\ (sr_current a = sr_current b -> sr_active b = true -> sr_active a = true)
  /\ (sr_current a = sr_current b -> sr_active a = sr_active b ->
      (ss_last_used_at (sr_row b) <= ss_last_used_at (sr_row a))%Z).

#[global] Instance listed_before_dec a b : Decision (listed_before a b).
Proof.
  unfold listed_before. destruct (sr_current a), (sr_current b), (sr_active a), (sr_active b); simpl;
    destruct (decide (ss_last_used_at (sr_row b) <= ss_last_used_at (sr_row a))%Z);
    (left; naive_solver) || (right; naive_solver).
Defined.

Definition session_record (env : AuthEnv) (current : Uuid) (kv : Uuid * SessionRow)
    : AuthSessionRecord :=
  {| sr_id := kv.1; sr_device_id := ss_device_id kv.2; sr_current := bool_decide (kv.1 = current);
     sr_active := session_live (ae_db_now env) kv.2; sr_row := kv.2 |}.

Definition list_sessions (env : AuthEnv) (db : AuthDb) (principal : Principal)
    : result ApiError (list AuthSessionRecord) :=
  current ← ok_or (Unauthorized "session listing requires a signed-in user session")
              (pr_session_id principal);
  Ok (take 100 (merge_sort listed_before
        (session_record env current <$>
           filter (fun kv => ss_user_id kv.2 = pr_user_id principal
                             /\ (ae_db_now env - days 90 < ss_created_at kv.2)%Z)
             (map_to_list (au_auth_sessions db))))).

(** [expires_at < now - 90 days OR revoked_at < now - 90 days] *)
Definition retired (now : DateTime) (s : SessionRow) : bool :=
  (ss_expires_at s <? now - days 90)%Z
  || match ss_revoked_at s with Some t => (t <? now - days 90)%Z | None => false end.

(** [ORDER BY COALESCE(revoked_at, expires_at), id] *)
Definition retired_before (a b : Uuid * SessionRow) : Prop :=
  let key kv := default (ss_expires_at kv.2) (ss_revoked_at kv.2) in
  (key a < key b)%Z \/ key a = key b /\ (a.1 <= b.1)%N.

#[global] Instance retired_before_dec a b : Decision (retired_before a b).
Proof. unfold retired_before. apply _. Defined.

(** The sessions a pass deletes, not those other transactions hold. *)
Definition retired_sessions (env : AuthEnv) (now : DateTime) (limit : Z) (db : AuthDb)
    : list (Uuid * SessionRow) :=
  take (Z.to_nat (clamp 1 10000 limit))
    (merge_sort retired_before
       (filter (fun kv => retired now kv.2 = true /\ ae_row_locked env kv.1 = false)
          (map_to_list (au_auth_sessions db)))).

(** Deletes sessions with what their foreign keys cascade to. *)
Definition delete_sessions (ids : list Uuid) (db : AuthDb) : AuthDb :=
  set_grants (filter (fun kv => gr_session_id kv.2 ∉ ids) (au_grants db))
  (set_refresh_history (filter (fun kv => hi_session_id kv.2 ∉ ids) (au_refresh_history db))
  (set_access_tokens (filter (fun kv => at_session_id kv.2 ∉ ids) (au_access_tokens db))
  (set_auth_sessions (filter (fun kv => kv.1 ∉ ids) (au_auth_sessions db)) db))).

Definition enforce_auth_session_retention (now : DateTime) (limit : Z) : ATx Z :=
  env ← aask;
  db ← aget;
  let rows := retired_sessions env now limit db in
  if bool_decide (rows = []) then mret 0%Z
  else
    _ ← amodify (fun db =>
          foldr (fun kv db => drop_dead_subscriptions now (ss_user_id kv.2) (ss_device_id kv.2) db)
            db rows);
    _ ← amodify (delete_sessions (fst <$> rows));
    mret (Z.of_nat (length rows)).
End Auth.
