(* ===== verification/AuthSystem.v ===== *)
(** * Sessions as a transition system

    [awp] is the weakest precondition of authentication transactions, for committed answers
    and for committed errors. Every handler changes the session tables in one of five ways,
    the rules of [session_change]; [auth_step] is a handler run on fresh random tokens and
    identifiers, [session_inv] the invariant of what is reachable. *)

From Stdlib Require Import ZifyBool.
From S2P Require Import Prelude Text Json Contracts Store AuthCodes Auth.

(** ** Reasoning about transactions *)

Definition awp {A} (env : AuthEnv) (m : ATx A) (Q : A -> ATxState -> Prop)
    (E : ApiError -> AuthDb -> Prop) (s : ATxState) : Prop :=
  match m env s with
  | Done a s' => Q a s'
  | RolledBack _ => True
  | CommittedErr e db => E e db
  end.

Section rules.
Context {A B : Type} (env : AuthEnv) (E : ApiError -> AuthDb -> Prop).

Lemma awp_ret (a : A) Q s : Q a s -> awp env (mret a) Q E s.
Proof. done. Qed.

Lemma awp_bind (m : ATx A) (f : A -> ATx B) Q s :
  awp env m (fun a => awp env (f a) Q E) E s -> awp env (m ≫= f) Q E s.
Proof. unfold awp, mbind, atx_bind. by destruct (m env s). Qed.

Lemma awp_mono (m : ATx A) P Q (F : ApiError -> AuthDb -> Prop) s :
  awp env m P F s -> (forall a s', P a s' -> Q a s') -> (forall e db, F e db -> E e db) ->
  awp env m Q E s.
Proof. unfold awp. destruct (m env s); auto. Qed.

Lemma awp_fail e (Q : A -> ATxState -> Prop) s : awp env (afail e) Q E s.
Proof. done. Qed.

Lemma awp_commit_fail e (Q : A -> ATxState -> Prop) s :
  E e (atx_db s) -> awp env (acommit_fail e) Q E s.
Proof. done. Qed.

Lemma awp_ask (Q : AuthEnv -> ATxState -> Prop) s : Q env s -> awp env aask Q E s.
Proof. done. Qed.

Lemma awp_get (Q : AuthDb -> ATxState -> Prop) s : Q (atx_db s) s -> awp env aget Q E s.
Proof. done. Qed.

Lemma awp_modify f (Q : unit -> ATxState -> Prop) s :
  Q tt (MkATx (f (atx_db s)) (atx_ids s) (atx_draws s)) -> awp env (amodify f) Q E s.
Proof. done. Qed.

Lemma awp_uuid (Q : Uuid -> ATxState -> Prop) s :
  Q (ae_new_v4 env (atx_ids s)) (MkATx (atx_db s) (S (atx_ids s)) (atx_draws s)) ->
  awp env auuid Q E s.
Proof. done. Qed.

Lemma awp_lift (r : result ApiError A) Q s :
  (forall a, r = Ok a -> Q a s) -> awp env (alift r) Q E s.
Proof. unfold awp, alift. destruct r; auto. Qed.

Lemma awp_require (o : option A) e Q s :
  (forall a, o = Some a -> Q a s) -> awp env (arequire o e) Q E s.
Proof. unfold awp, arequire. destruct o; simpl; auto. Qed.

Lemma awp_reject_if b e (Q : unit -> ATxState -> Prop) s :
  (b = false -> Q tt s) -> awp env (areject_if b e) Q E s.
Proof. unfold awp, areject_if. destruct b; simpl; auto. Qed.

Lemma awp_random (Q : string -> ATxState -> Prop) s :
  (forall token, ae_random env (atx_draws s) = Some token ->
     Q token (MkATx (atx_db s) (atx_ids s) (S (atx_draws s)))) ->
  awp env random_token Q E s.
Proof. unfold awp, random_token. destruct (ae_random env (atx_draws s)); auto. Qed.
End rules.

(** One step of symbolic execution. *)
Ltac awp_step :=
  lazymatch goal with
  | |- awp _ (mbind _ _) _ _ _ => apply awp_bind
  | |- awp _ (mret _) _ _ _ => apply awp_ret
  | |- awp _ (afail _) _ _ _ => apply awp_fail
  | |- awp _ (acommit_fail _) _ _ _ => apply awp_commit_fail
  | |- awp _ aask _ _ _ => apply awp_ask
  | |- awp _ aget _ _ _ => apply awp_get
  | |- awp _ (amodify _) _ _ _ => apply awp_modify
  | |- awp _ auuid _ _ _ => apply awp_uuid
  | |- awp _ (alift _) _ _ _ => apply awp_lift; intros ? ?
  | |- awp _ (arequire _ _) _ _ _ => apply awp_require; intros ? ?
  | |- awp _ (areject_if _ _) _ _ _ => apply awp_reject_if; intros ?
  | |- awp _ random_token _ _ _ => apply awp_random; intros ? ?
  | |- awp _ (let x := _ in _) _ _ _ => cbv zeta
  end.
Ltac awp_steps := repeat (awp_step; cbv beta; cbn [atx_db atx_ids atx_draws]).

(** The tables a handler leaves: the old ones, its committed ones, or those of a committed
    error. *)
Lemma run_auth_awp {A} env db (m : ATx A) (P : AuthDb -> Prop) :
  P db -> awp env m (fun _ s => P (atx_db s)) (fun _ db' => P db') (MkATx db 0 0) ->
  P (run_auth env db m).1.
Proof. unfold awp, run_auth. destruct (m env (MkATx db 0 0)); auto. Qed.

(** The answer of a handler that succeeded. *)
Lemma run_auth_post {A} env db (m : ATx A) db' a (P : A -> AuthDb -> Prop) :
  run_auth env db m = (db', Ok a) ->
  awp env m (fun a s => P a (atx_db s)) (fun _ _ => True) (MkATx db 0 0) -> P a db'.
Proof.
  unfold awp, run_auth. destruct (m env (MkATx db 0 0)); try done. by intros [= <- <-].
Qed.

(** ** What handlers do to the session tables *)

Section Sessions.
Context `{AuthLib}.

(** The session table after some sessions were revoked. *)
Definition some_revoked (m m' : gmap Uuid SessionRow) : Prop :=
  forall id, match m !! id, m' !! id with
             | Some s, Some s' => s' = s \/ exists now reason, s' = revoke now reason s
             | None, None => True
             | _, _ => False
             end.

(** The access tokens after some were revoked. *)
Definition tokens_revoked (m m' : gmap string AccessRow) : Prop :=
  forall h, match m !! h, m' !! h with
            | Some t, Some t' =>
                at_session_id t' = at_session_id t /\ at_user_id t' = at_user_id t
                /\ at_expires_at t' = at_expires_at t
                /\ (at_revoked_at t' = None -> at_revoked_at t = None)
            | None, None => True
            | _, _ => False
            end.

(** A hash of a random token of the request, and an identifier it drew. *)
Definition drawn (env : AuthEnv) (n : nat) (h : string) : Prop :=
  exists token, ae_random env n = Some token /\ h = token_hash token.

Inductive session_change (env : AuthEnv) (db db' : AuthDb) : Prop :=
| change_none :
    au_auth_sessions db' = au_auth_sessions db ->
    au_access_tokens db' = au_access_tokens db ->
    au_refresh_history db' = au_refresh_history db ->
    session_change env db db'
| change_create i j n k uid dev h ha expires access_expires :
    i <> j -> n <> k -> drawn env n h -> drawn env k ha ->
    au_auth_sessions db !! ae_new_v4 env i = None ->
    au_access_tokens db !! ha = None ->
    au_auth_sessions db'
      = <[ae_new_v4 env i := new_session env uid dev (ae_new_v4 env j) h expires]>
          (au_auth_sessions db) ->
    au_access_tokens db'
      = <[ha := {| at_session_id := ae_new_v4 env i; at_user_id := uid;
                   at_expires_at := access_expires; at_revoked_at := None |}]>
          (au_access_tokens db) ->
    au_refresh_history db' = au_refresh_history db ->
    session_change env db db'
| change_rotate id s n k h ha access_expires :
    n <> k -> drawn env n h -> drawn env k ha ->
    au_auth_sessions db !! id = Some s -> ss_revoked_at s = None ->
    (ae_app_now env < ss_expires_at s)%Z ->
    au_refresh_history db !! ss_refresh_token_hash s = None ->
    au_access_tokens db !! ha = None ->
    au_auth_sessions db' = <[id := rotate_session (ae_db_now env) h s]> (au_auth_sessions db) ->
    au_access_tokens db'
      = <[ha := {| at_session_id := id; at_user_id := ss_user_id s;
                   at_expires_at := access_expires; at_revoked_at := None |}]>
          (au_access_tokens db) ->
    au_refresh_history db'
      = <[ss_refresh_token_hash s := {| hi_session_id := id;
                                        hi_refresh_family_id := ss_refresh_family_id s |}]>
          (au_refresh_history db) ->
    session_change env db db'
| change_revoke :
    some_revoked (au_auth_sessions db) (au_auth_sessions db') ->
    tokens_revoked (au_access_tokens db) (au_access_tokens db') ->
    au_refresh_history db' = au_refresh_history db ->
    session_change env db db'
| change_delete (ids : list Uuid) :
    au_auth_sessions db' = filter (fun kv => kv.1 ∉ ids) (au_auth_sessions db) ->
    au_access_tokens db' = filter (fun kv => at_session_id kv.2 ∉ ids) (au_access_tokens db) ->
    au_refresh_history db' = filter (fun kv => hi_session_id kv.2 ∉ ids) (au_refresh_history db) ->
    session_change env db db'.

(** The three session tables are the same. *)
Definition same_sessions (db db' : AuthDb) : Prop :=
  au_auth_sessions db' = au_auth_sessions db
  /\ au_access_tokens db' = au_access_tokens db
  /\ au_refresh_history db' = au_refresh_history db.

Lemma same_sessions_change env db db' : same_sessions db db' -> session_change env db db'.
Proof. intros (? & ? & ?). by apply change_none. Qed.

Lemma change_after_same env db db1 db2 :
  same_sessions db db1 -> session_change env db1 db2 -> session_change env db db2.
Proof.
  intros (Hs & Ha & Hh) Hc.
  destruct Hc as [|i j n k uid dev h ha e1 e2|id s n k h ha e| |ids];
    [apply change_none|apply (change_create _ _ _ i j n k uid dev h ha e1 e2)|
     apply (change_rotate _ _ _ id s n k h ha e)|apply change_revoke|apply (change_delete _ _ _ ids)];
    rewrite <- ?Hs, <- ?Ha, <- ?Hh; assumption.
Qed.

Lemma some_revoked_refl m : some_revoked m m.
Proof. intros id. destruct (m !! id); auto. Qed.

Lemma tokens_revoked_refl m : tokens_revoked m m.
Proof. intros h. destruct (m !! h); auto. Qed.

Lemma revoke_access_tokens_revoked now sid db :
  tokens_revoked (au_access_tokens db) (au_access_tokens (revoke_access_tokens now sid db)).
Proof.
  intros h. simpl. rewrite lookup_fmap. destruct (au_access_tokens db !! h) as [t|]; simpl; [|done].
  by case_bool_decide.
Qed.

(** ** The handlers *)

Lemma issue_access_token_spec env E uid sid s (Q : string * DateTime -> ATxState -> Prop) :
  (forall ha token expires,
     ae_random env (atx_draws s) = Some token -> ha = token_hash token ->
     au_access_tokens (atx_db s) !! ha = None ->
     Q (token, expires)
       (MkATx (set_access_tokens
                 (<[ha := {| at_session_id := sid; at_user_id := uid; at_expires_at := expires;
                             at_revoked_at := None |}]> (au_access_tokens (atx_db s))) (atx_db s))
          (atx_ids s) (S (atx_draws s)))) ->
  awp env (issue_access_token uid sid) Q E s.
Proof.
  intros HQ. unfold issue_access_token. awp_steps. eapply HQ; [done|done|].
  case_bool_decide as Hd; [done|]. by apply eq_None_not_Some.
Qed.

Lemma create_session_change env E uid dev s :
  awp env (create_session_tx uid dev)
    (fun tokens s' => session_change env (atx_db s) (atx_db s')
       /\ au_auth_sessions (atx_db s') !! tk_session_id tokens
          = Some (new_session env uid dev (ae_new_v4 env (S (atx_ids s)))
                    (token_hash (tk_refresh_token tokens)) (tk_refresh_expires_at tokens))
       /\ tk_user_id tokens = uid) E s.
Proof.
  unfold create_session_tx. awp_steps. apply issue_access_token_spec.
  intros ha access expires Hr -> Hnone. simpl in *. awp_steps. split_and!.
  - eapply (change_create env _ _ (atx_ids s) (S (atx_ids s)) (atx_draws s) (S (atx_draws s))).
    + lia.
    + lia.
    + by eexists.
    + by exists access.
    + case_bool_decide as Hd; [done|]. by apply eq_None_not_Some.
    + exact Hnone.
    + reflexivity.
    + reflexivity.
    + reflexivity.
  - simpl. by rewrite lookup_insert_eq.
  - done.
Qed.

(** The handler changes the session tables by one of the rules, also when it commits an
    error. *)
Definition changes {A} (m : ATx A) : Prop :=
  forall env s, awp env m (fun _ s' => session_change env (atx_db s) (atx_db s'))
                  (fun _ db' => session_change env (atx_db s) db') s.

(** The handler does not touch the session tables. *)
Definition quiet {A} (m : ATx A) : Prop :=
  forall env s, awp env m (fun _ s' => same_sessions (atx_db s) (atx_db s'))
                  (fun _ db' => same_sessions (atx_db s) db') s.

Lemma session_by_refresh_Some hash db id row :
  session_by_refresh hash db = Some (id, row) ->
  au_auth_sessions db !! id = Some row /\ ss_refresh_token_hash row = hash
  /\ ss_revoked_at row = None.
Proof.
  unfold session_by_refresh. destruct (list_find _ _) as [[n kv]|] eqn:Hf; [|done].
  intros [= ->]. apply list_find_Some in Hf as (Hl & [? ?] & _).
  split; [|done]. apply elem_of_map_to_list. by eapply list_elem_of_lookup_2.
Qed.

Lemma session_by_refresh_None hash db id row :
  session_by_refresh hash db = None -> au_auth_sessions db !! id = Some row ->
  ss_refresh_token_hash row = hash -> ss_revoked_at row <> None.
Proof.
  unfold session_by_refresh. intros Hf Hl Hh Hr.
  destruct (list_find _ _) as [[n kv]|] eqn:Hfind; [done|].
  apply list_find_None in Hfind. rewrite Forall_forall in Hfind.
  by apply (Hfind (id, row)); [apply elem_of_map_to_list|].
Qed.

Lemma revoke_family_revoked now fam db :
  some_revoked (au_auth_sessions db) (au_auth_sessions (revoke_family now fam db)).
Proof.
  intros id. simpl. rewrite lookup_fmap. destruct (au_auth_sessions db !! id) as [s|]; simpl; [|done].
  case_match; eauto.
Qed.

(** A successful rotation. *)
Lemma rotate_refresh_spec refresh_token env s :
  awp env (rotate_refresh_session refresh_token)
    (fun tokens s' => session_change env (atx_db s) (atx_db s')
       /\ exists row, au_auth_sessions (atx_db s) !! tk_session_id tokens = Some row
          /\ ss_refresh_token_hash row = token_hash refresh_token
          /\ ss_revoked_at row = None /\ tk_user_id tokens = ss_user_id row
          /\ au_refresh_history (atx_db s') !! token_hash refresh_token
             = Some {| hi_session_id := tk_session_id tokens;
                       hi_refresh_family_id := ss_refresh_family_id row |}
          /\ au_auth_sessions (atx_db s') !! tk_session_id tokens
             = Some (rotate_session (ae_db_now env) (token_hash (tk_refresh_token tokens)) row))
    (fun _ db' => session_change env (atx_db s) db'
       /\ exists h, au_refresh_history (atx_db s) !! token_hash refresh_token = Some h
          /\ db' = revoke_family (ae_db_now env) (hi_refresh_family_id h) (atx_db s)) s.
Proof.
  unfold rotate_refresh_session, refuse_refresh. awp_steps.
  destruct (session_by_refresh _ _) as [[id row]|] eqn:Hf.
  - apply session_by_refresh_Some in Hf as (Hl & Hh & Hr). awp_steps.
    apply issue_access_token_spec. intros ha access expires Hra -> Hnone. simpl in *. awp_steps.
    split.
    + eapply (change_rotate env _ _ id row (atx_draws s) (S (atx_draws s))); try done.
      * by eexists.
      * by exists access.
      * lia.
      * case_bool_decide as Hd; [done|]. rewrite Hh. by apply eq_None_not_Some.
      * by rewrite Hh.
    + exists row. split_and!; try done; simpl; by rewrite lookup_insert_eq.
  - awp_steps. destruct (au_refresh_history (atx_db s) !! token_hash refresh_token) as [h|] eqn:Hh;
      awp_steps.
    split; [|by eauto]. apply change_revoke; [apply revoke_family_revoked|apply tokens_revoked_refl|done].
Qed.

Lemma rotate_refresh_changes refresh_token : changes (rotate_refresh_session refresh_token).
Proof.
  intros env s. eapply awp_mono; [apply rotate_refresh_spec|by intros ?? [? _]|by intros ?? [? _]].
Qed.

Lemma browser_refresh_changes headers : changes (browser_refresh_session headers).
Proof.
  intros env s. unfold browser_refresh_session. awp_steps. apply rotate_refresh_changes.
Qed.

Lemma logout_changes principal : changes (logout principal).
Proof.
  intros env s. unfold logout. awp_steps.
  apply change_revoke;
    [|apply (revoke_access_tokens_revoked _ _ (set_auth_sessions _ (atx_db s)))|done].
  intros id. simpl. destruct (decide (id = a)) as [->|].
  - rewrite lookup_alter_eq. destruct (au_auth_sessions (atx_db s) !! a); simpl; eauto.
  - rewrite lookup_alter_ne by done. destruct (au_auth_sessions (atx_db s) !! id); auto.
Qed.

Lemma drop_dead_subscriptions_same now uid dev db :
  same_sessions db (drop_dead_subscriptions now uid dev db).
Proof. unfold drop_dead_subscriptions. by case_match. Qed.

Lemma revoke_session_changes principal sid : changes (revoke_session principal sid).
Proof.
  intros env s. unfold revoke_session, insert_audit. awp_steps.
  destruct (au_auth_sessions (atx_db s) !! sid) as [row|] eqn:Hl; [|done].
  case_bool_decide; [|done]. simplify_eq. case_bool_decide; awp_steps; [|by apply change_none].
  destruct (drop_dead_subscriptions_same (ae_db_now env) (pr_user_id principal) (ss_device_id a0)
    (revoke_access_tokens (ae_db_now env) sid
       (set_auth_sessions (<[sid:=revoke (ae_db_now env) "user_device_revoked" a0]>
          (au_auth_sessions (atx_db s))) (atx_db s)))) as (Hs & Ha & Hh).
  apply change_revoke.
  - simpl. rewrite Hs. intros id. simpl. destruct (decide (id = sid)) as [->|].
    + rewrite lookup_insert_eq, Hl. eauto.
    + rewrite lookup_insert_ne by done. destruct (au_auth_sessions (atx_db s) !! id); auto.
  - simpl. rewrite Ha. apply (revoke_access_tokens_revoked _ _ (set_auth_sessions _ (atx_db s))).
  - simpl. by rewrite Hh.
Qed.

#[global] Instance same_sessions_preorder : PreOrder same_sessions.
Proof.
  split; [by intros db|].
  intros a b c (H1 & H2 & H3) (H4 & H5 & H6). split_and!; congruence.
Qed.

Lemma quiet_changes {A} (m : ATx A) : quiet m -> changes m.
Proof.
  intros Hq env s. eapply awp_mono; [apply Hq|..]; intros; by apply same_sessions_change.
Qed.

Lemma quiet_bind {A B} (m : ATx A) (f : A -> ATx B) :
  quiet m -> (forall a, quiet (f a)) -> quiet (m ≫= f).
Proof.
  intros Hm Hf env s. apply awp_bind. eapply awp_mono; [apply Hm| |done].
  intros a s1 H1. eapply awp_mono; [apply Hf|..]; intros; by trans (atx_db s1).
Qed.

Lemma changes_after {A B} (m : ATx A) (f : A -> ATx B) :
  quiet m -> (forall a, changes (f a)) -> changes (m ≫= f).
Proof.
  intros Hm Hf env s. apply awp_bind. eapply awp_mono; [apply Hm| |].
  - intros a s1 H1. eapply awp_mono; [apply Hf|..]; intros;
      by apply (change_after_same _ _ (atx_db s1)).
  - intros e db. apply same_sessions_change.
Qed.

Lemma quiet_ret {A} (a : A) : quiet (mret a : ATx A).
Proof. intros env s. by awp_steps. Qed.
Lemma quiet_fail {A} e : quiet (afail e : ATx A).
Proof. by intros env s. Qed.
Lemma quiet_commit_fail {A} e : quiet (acommit_fail e : ATx A).
Proof. by intros env s. Qed.
Lemma quiet_ask : quiet aask.
Proof. by intros env s. Qed.
Lemma quiet_get : quiet aget.
Proof. by intros env s. Qed.
Lemma quiet_uuid : quiet auuid.
Proof. by intros env s. Qed.
Lemma quiet_random : quiet random_token.
Proof. intros env s. by awp_steps. Qed.
Lemma quiet_lift {A} (r : result ApiError A) : quiet (alift r).
Proof. intros env s. by awp_steps. Qed.
Lemma quiet_require {A} (o : option A) e : quiet (arequire o e).
Proof. intros env s. by awp_steps. Qed.
Lemma quiet_reject_if b e : quiet (areject_if b e).
Proof. intros env s. by awp_steps. Qed.
Lemma quiet_modify f : (forall db, same_sessions db (f db)) -> quiet (amodify f).
Proof. intros Hf env s. awp_steps. apply Hf. Qed.

Create HintDb quiet.
#[local] Hint Resolve quiet_ret quiet_fail quiet_commit_fail quiet_ask quiet_get quiet_uuid
  quiet_random quiet_lift quiet_require quiet_reject_if : quiet.

(** Walks through a handler that leaves the session tables alone until its last call. *)
Ltac quiet_steps :=
  repeat (intros; cbv zeta; cbn beta iota;
    lazymatch goal with
    | |- quiet (mbind _ _) => apply quiet_bind
    | |- changes (mbind _ _) => apply changes_after
    | |- quiet (amodify _) => apply quiet_modify; intros; done
    | |- quiet (if ?b then _ else _) => destruct b
    | |- changes (if ?b then _ else _) => destruct b
    | |- quiet (match ?o with _ => _ end) => destruct o
    | |- _ => solve [auto with quiet]
    end).

Lemma create_session_changes uid dev : changes (create_session_tx uid dev).
Proof.
  intros env s. eapply awp_mono; [apply create_session_change|by intros ?? [? _]|].
  intros e db Hf. exact Hf.
Qed.
#[local] Hint Resolve create_session_changes quiet_changes : quiet.

Lemma insert_user_quiet uid row : quiet (insert_user uid row).
Proof. unfold insert_user. quiet_steps. Qed.
#[local] Hint Resolve insert_user_quiet : quiet.

Lemma insert_audit_quiet actor action tt target m : quiet (insert_audit actor action tt target m).
Proof. unfold insert_audit. quiet_steps. Qed.
#[local] Hint Resolve insert_audit_quiet : quiet.

Lemma accept_factor_quiet uid row supplied : quiet (accept_factor uid row supplied).
Proof. unfold accept_factor. quiet_steps. Qed.
#[local] Hint Resolve accept_factor_quiet : quiet.

Lemma verify_second_factor_quiet uid supplied : quiet (verify_second_factor uid supplied).
Proof. unfold verify_second_factor. quiet_steps. Qed.
#[local] Hint Resolve verify_second_factor_quiet : quiet.

Lemma insert_recovery_codes_quiet uid codes : quiet (insert_recovery_codes uid codes).
Proof. induction codes as [|c codes IH]; cbn [insert_recovery_codes]; quiet_steps. Qed.
#[local] Hint Resolve insert_recovery_codes_quiet : quiet.

Lemma bootstrap_admin_changes principal request : changes (bootstrap_admin principal request).
Proof. unfold bootstrap_admin. quiet_steps. Qed.

Lemma native_token_changes request : changes (native_token request).
Proof. unfold native_token. quiet_steps. Qed.

Lemma accept_invitation_changes request : changes (accept_invitation request).
Proof. unfold accept_invitation. quiet_steps. Qed.

Lemma create_invitation_quiet principal email expiry : quiet (create_invitation principal email expiry).
Proof. unfold create_invitation. quiet_steps. Qed.

Lemma native_code_quiet uid dev challenge :
  quiet (create_native_authorization_code_tx uid dev challenge).
Proof. unfold create_native_authorization_code_tx. quiet_steps. Qed.

Lemma reauthenticate_quiet principal purpose password : quiet (reauthenticate principal purpose password).
Proof. unfold reauthenticate. quiet_steps. Qed.

Lemma setup_totp_quiet principal : quiet (setup_totp principal).
Proof. unfold setup_totp. quiet_steps. Qed.

Lemma enable_totp_quiet principal code : quiet (enable_totp principal code).
Proof. unfold enable_totp, insert_auth_audit. quiet_steps. Qed.

Lemma fold_subscriptions_same now (rows : list (Uuid * SessionRow)) db :
  same_sessions db
    (foldr (fun kv db => drop_dead_subscriptions now (ss_user_id kv.2) (ss_device_id kv.2) db) db rows).
Proof.
  induction rows as [|kv rows IH]; [done|]. simpl.
  etrans; [apply IH|apply drop_dead_subscriptions_same].
Qed.

Lemma retention_changes now limit : changes (enforce_auth_session_retention now limit).
Proof.
  intros env s. unfold enforce_auth_session_retention. awp_steps.
  case_bool_decide; awp_steps; [by apply change_none|].
  destruct (fold_subscriptions_same now (retired_sessions env now limit (atx_db s)) (atx_db s))
    as (Hs & Ha & Hh).
  apply (change_delete _ _ _ (fst <$> retired_sessions env now limit (atx_db s)));
    unfold delete_sessions; cbn [au_auth_sessions au_access_tokens au_refresh_history set_grants
      set_refresh_history set_access_tokens set_auth_sessions]; by rewrite ?Hs, ?Ha, ?Hh.
Qed.

(** ** Steps *)

Inductive auth_step (env : AuthEnv) (db : AuthDb) : AuthDb -> Prop :=
| step_bootstrap p r : auth_step env db (run_auth env db (bootstrap_admin p r)).1
| step_login r : auth_step env db (password_login env db r).1
| step_native_authorize r : auth_step env db (native_authorize env db r).1
| step_native_token r : auth_step env db (run_auth env db (native_token r)).1
| step_invite p email expiry : auth_step env db (run_auth env db (create_invitation p email expiry)).1
| step_accept r : auth_step env db (run_auth env db (accept_invitation r)).1
| step_refresh t : auth_step env db (run_auth env db (refresh_session t)).1
| step_browser_refresh headers :
    auth_step env db (run_auth env db (browser_refresh_session headers)).1
| step_logout p : auth_step env db (run_auth env db (logout p)).1
| step_revoke p sid : auth_step env db (run_auth env db (revoke_session p sid)).1
| step_reauthenticate p purpose pw :
    auth_step env db (run_auth env db (reauthenticate p purpose pw)).1
| step_setup_totp p : auth_step env db (run_auth env db (setup_totp p)).1
| step_enable_totp p code : auth_step env db (run_auth env db (enable_totp p code)).1
| step_regenerate p code : auth_step env db (regenerate_recovery_codes env db p code).1
| step_disable_totp p pw factor : auth_step env db (disable_totp env db p pw factor).1
| step_verify uid pw factor :
    auth_step env db (verify_account_password_and_second_factor env db uid pw factor).1
| step_retention now limit :
    auth_step env db (run_auth env db (enforce_auth_session_retention now limit)).1.

Lemma run_changes {A} env db (m : ATx A) : changes m -> session_change env db (run_auth env db m).1.
Proof.
  intros Hm. apply (run_auth_awp env db m (session_change env db)); [by apply change_none|].
  apply (Hm env (MkATx db 0 0)).
Qed.

Lemma run_quiet {A} env db (m : ATx A) : quiet m -> same_sessions db (run_auth env db m).1.
Proof.
  intros Hm. apply (run_auth_awp env db m (same_sessions db)); [done|]. apply (Hm env (MkATx db 0 0)).
Qed.

(** A second transaction after a quiet one. *)
Lemma run_then env db (m : ATx unit) {B} (k : AuthDb -> AuthDb * result ApiError B) :
  quiet m -> (forall db', session_change env db' (k db').1) ->
  session_change env db
    (match run_auth env db m with (db', Err e) => (db', Err e) | (db', Ok _) => k db' end).1.
Proof.
  intros Hm Hk. pose proof (run_quiet env db m Hm) as Hs.
  destruct (run_auth env db m) as [db' [u|e]]; simpl in Hs.
  - by apply (change_after_same _ _ db').
  - by apply same_sessions_change.
Qed.

Lemma auth_step_change env db db' : auth_step env db db' -> session_change env db db'.
Proof.
  intros [p r|r|r|r|p email expiry|r|t|headers|p|p sid|p purpose pw|p|p code|p code|p pw factor|uid pw factor|now limit].
  - apply run_changes, bootstrap_admin_changes.
  - unfold password_login. destruct (check_password _ _ _ _); [|by apply change_none].
    apply run_then; [apply verify_second_factor_quiet|]. intros db1. apply run_changes, create_session_changes.
  - unfold native_authorize. case_match; [|by apply change_none].
    apply run_then; [apply verify_second_factor_quiet|].
    intros db1. apply run_changes, quiet_changes, native_code_quiet.
  - apply run_changes, native_token_changes.
  - apply run_changes, quiet_changes, create_invitation_quiet.
  - apply run_changes, accept_invitation_changes.
  - apply run_changes, rotate_refresh_changes.
  - apply run_changes, browser_refresh_changes.
  - apply run_changes, logout_changes.
  - apply run_changes, revoke_session_changes.
  - apply run_changes, quiet_changes, reauthenticate_quiet.
  - apply run_changes, quiet_changes, setup_totp_quiet.
  - apply run_changes, quiet_changes, enable_totp_quiet.
  - unfold regenerate_recovery_codes. apply run_then; [apply verify_second_factor_quiet|].
    intros db1. destruct (generate_recovery_codes _); [|by apply change_none].
    apply run_changes, quiet_changes. unfold insert_auth_audit. quiet_steps.
  - unfold disable_totp. destruct (account_password _ _ _ _); [|by apply change_none].
    apply run_then; [apply verify_second_factor_quiet|]. intros db1.
    apply run_changes, quiet_changes. unfold insert_auth_audit. quiet_steps.
  - unfold verify_account_password_and_second_factor. destruct (account_password _ _ _ _);
      [|by apply change_none]. apply run_changes, quiet_changes, verify_second_factor_quiet.
  - apply run_changes, retention_changes.
Qed.

(** ** The system *)

(** The token hashes and the identifiers of sessions and families in the tables. *)
Definition known_hash (db : AuthDb) (h : string) : Prop :=
  is_Some (au_access_tokens db !! h) \/ is_Some (au_refresh_history db !! h)
  \/ exists id s, au_auth_sessions db !! id = Some s /\ ss_refresh_token_hash s = h.

Definition known_id (db : AuthDb) (u : Uuid) : Prop :=
  exists id s, au_auth_sessions db !! id = Some s /\ (u = id \/ u = ss_refresh_family_id s).

(** The tables with all token hashes and identifiers that were ever in them. *)
Record AuthState := {
  as_db : AuthDb;
  as_hashes : string -> Prop;
  as_ids : Uuid -> Prop;
}.

(** The random source and the identifiers of a request: nothing is drawn twice. *)
Record fresh_env (env : AuthEnv) (st : AuthState) : Prop := {
  fe_hash n h : drawn env n h -> ~ as_hashes st h;
  fe_hash_inj n k h : drawn env n h -> drawn env k h -> n = k;
  fe_id i : ~ as_ids st (ae_new_v4 env i);
  fe_id_inj i j : ae_new_v4 env i = ae_new_v4 env j -> i = j;
}.

(** What was seen stays seen, with what is new. *)
Definition remembers (st st' : AuthState) : Prop :=
  (forall h, as_hashes st h \/ known_hash (as_db st') h -> as_hashes st' h)
  /\ (forall u, as_ids st u \/ known_id (as_db st') u -> as_ids st' u).

Definition auth_system_step (st st' : AuthState) : Prop :=
  exists env, fresh_env env st /\ auth_step env (as_db st) (as_db st') /\ remembers st st'.

(** The system starts without sessions. *)
Definition auth_start (st : AuthState) : Prop :=
  au_auth_sessions (as_db st) = ∅ /\ au_access_tokens (as_db st) = ∅
  /\ au_refresh_history (as_db st) = ∅.

Definition auth_reachable (st : AuthState) : Prop :=
  exists st0, auth_start st0 /\ rtc auth_system_step st0 st.
End Sessions.
