(* ===== verification/AuthProperties.v ===== *)
(** * Theorems about authentication

    The invariant of the session tables; refresh tokens work once and a second use ends the
    session; a revoked session stays dead; authorization codes, one-time passwords and
    recovery codes are used once; retention removes only what is long dead. *)

From Stdlib Require Import ZifyBool.
From S2P Require Import Prelude Text Json Contracts Store AuthCodes Auth AuthSystem.

Section Properties.
Context `{AuthLib}.

(** ** The invariant *)

Record session_inv (db : AuthDb) : Prop := {
  si_access h t : au_access_tokens db !! h = Some t ->
    exists s, au_auth_sessions db !! at_session_id t = Some s /\ ss_user_id s = at_user_id t;
  si_history h r : au_refresh_history db !! h = Some r ->
    (exists s, au_auth_sessions db !! hi_session_id r = Some s
       /\ ss_refresh_family_id s = hi_refresh_family_id r)
    /\ forall id s, au_auth_sessions db !! id = Some s -> ss_refresh_token_hash s <> h;
  si_hash id id' s s' : au_auth_sessions db !! id = Some s -> au_auth_sessions db !! id' = Some s' ->
    ss_refresh_token_hash s = ss_refresh_token_hash s' -> id = id';
  si_family id id' s s' : au_auth_sessions db !! id = Some s -> au_auth_sessions db !! id' = Some s' ->
    ss_refresh_family_id s = ss_refresh_family_id s' -> id = id';
}.

(** Everything in the tables was seen. *)
Definition seen (st : AuthState) : Prop :=
  (forall h, known_hash (as_db st) h -> as_hashes st h)
  /\ (forall u, known_id (as_db st) u -> as_ids st u).

(** A row of a table some of whose rows were revoked. *)
Lemma some_revoked_lookup m m' id s' :
  some_revoked m m' -> m' !! id = Some s' ->
  exists s, m !! id = Some s /\ (s' = s \/ exists now reason, s' = revoke now reason s).
Proof.
  intros Hr Hl. specialize (Hr id). rewrite Hl in Hr. destruct (m !! id) as [s|]; [|done]. by exists s.
Qed.

Lemma some_revoked_lookup_1 m m' id s :
  some_revoked m m' -> m !! id = Some s ->
  exists s', m' !! id = Some s' /\ (s' = s \/ exists now reason, s' = revoke now reason s).
Proof.
  intros Hr Hl. specialize (Hr id). rewrite Hl in Hr. destruct (m' !! id) as [s'|]; [|done]. by exists s'.
Qed.

Lemma tokens_revoked_lookup m m' h t' :
  tokens_revoked m m' -> m' !! h = Some t' ->
  exists t, m !! h = Some t /\ at_session_id t' = at_session_id t /\ at_user_id t' = at_user_id t.
Proof.
  intros Hr Hl. specialize (Hr h). rewrite Hl in Hr. destruct (m !! h) as [t|]; [|done].
  destruct Hr as (? & ? & _). by exists t.
Qed.

Lemma inv_preserved_same db db' :
  session_inv db ->
  au_auth_sessions db' = au_auth_sessions db -> au_access_tokens db' = au_access_tokens db ->
  au_refresh_history db' = au_refresh_history db -> session_inv db'.
Proof.
  intros Hi Hs Ha Hh.
  split; rewrite ?Hs, ?Ha, ?Hh; apply Hi.
Qed.

Lemma inv_preserved_revoke db db' :
  session_inv db -> some_revoked (au_auth_sessions db) (au_auth_sessions db') ->
  tokens_revoked (au_access_tokens db) (au_access_tokens db') ->
  au_refresh_history db' = au_refresh_history db -> session_inv db'.
Proof.
  intros Hi Hs Ha Hh. split.
  - intros h t Ht. destruct (tokens_revoked_lookup _ _ _ _ Ha Ht) as (t0 & Ht0 & -> & ->).
    destruct (si_access _ Hi h t0 Ht0) as (s & Hl & Hu).
    destruct (some_revoked_lookup_1 _ _ _ _ Hs Hl) as (s' & Hl' & [->|(? & ? & ->)]); eauto.
  - rewrite Hh. intros h r Hr. destruct (si_history _ Hi h r Hr) as [(s & Hl & Hf) Hno]. split.
    + destruct (some_revoked_lookup_1 _ _ _ _ Hs Hl) as (s' & Hl' & [->|(? & ? & ->)]); eauto.
    + intros id s' Hs'. destruct (some_revoked_lookup _ _ _ _ Hs Hs') as (s0 & Hl0 & [->|(? & ? & ->)]);
        exact (Hno id s0 Hl0).
  - intros id id' s s' H1 H2 Heq.
    destruct (some_revoked_lookup _ _ _ _ Hs H1) as (s1 & Hl1 & [->|(? & ? & ->)]),
      (some_revoked_lookup _ _ _ _ Hs H2) as (s2 & Hl2 & [->|(? & ? & ->)]);
      by apply (si_hash _ Hi id id' s1 s2).
  - intros id id' s s' H1 H2 Heq.
    destruct (some_revoked_lookup _ _ _ _ Hs H1) as (s1 & Hl1 & [->|(? & ? & ->)]),
      (some_revoked_lookup _ _ _ _ Hs H2) as (s2 & Hl2 & [->|(? & ? & ->)]);
      by apply (si_family _ Hi id id' s1 s2).
Qed.

Lemma inv_preserved_delete db db' (ids : list Uuid) :
  session_inv db ->
  au_auth_sessions db' = filter (fun kv => kv.1 ∉ ids) (au_auth_sessions db) ->
  au_access_tokens db' = filter (fun kv => at_session_id kv.2 ∉ ids) (au_access_tokens db) ->
  au_refresh_history db' = filter (fun kv => hi_session_id kv.2 ∉ ids) (au_refresh_history db) ->
  session_inv db'.
Proof.
  intros Hi Hs Ha Hh. split; rewrite ?Hs, ?Ha, ?Hh.
  - intros h t [Ht Hid]%map_lookup_filter_Some. destruct (si_access _ Hi h t Ht) as (s & Hl & Hu).
    exists s. by rewrite map_lookup_filter_Some.
  - intros h r [Hr Hid]%map_lookup_filter_Some. destruct (si_history _ Hi h r Hr) as [(s & Hl & Hf) Hno].
    split; [exists s; by rewrite map_lookup_filter_Some|].
    intros id s' [Hs' _]%map_lookup_filter_Some. exact (Hno id s' Hs').
  - intros id id' s s' [H1 _]%map_lookup_filter_Some [H2 _]%map_lookup_filter_Some. by apply (si_hash _ Hi).
  - intros id id' s s' [H1 _]%map_lookup_filter_Some [H2 _]%map_lookup_filter_Some. by apply (si_family _ Hi).
Qed.

Lemma inv_preserved env st db' :
  session_inv (as_db st) -> seen st -> fresh_env env st ->
  session_change env (as_db st) db' -> session_inv db'.
Proof.
  intros Hi [Hsh Hsi] Hf Hc.
  destruct Hc as [Hs Ha Hh|i j n k uid dev h ha e1 e2 Hij Hnk Hdh Hdha Hnew Hna Hs Ha Hh|
                  id s n k h ha e Hnk Hdh Hdha Hl Hr Hexp Hhist Hna Hs Ha Hh|Hs Ha Hh|ids Hs Ha Hh].
  - by eapply inv_preserved_same.
  - assert (~ known_hash (as_db st) h) as Hnh by (intros Hk; by apply (fe_hash _ _ Hf n h Hdh), Hsh).
    split; rewrite ?Hs, ?Ha, ?Hh.
    + intros h' t. rewrite lookup_insert_Some. intros [[<- <-]|[Hne Ht]]; simpl.
      * eexists. by rewrite lookup_insert_eq.
      * destruct (si_access _ Hi h' t Ht) as (s & Hl & Hu). exists s.
        rewrite lookup_insert_ne; [done|]. intros Heq. by rewrite Heq, Hl in Hnew.
    + intros h' r Hr. destruct (si_history _ Hi h' r Hr) as [(s & Hl & Hfam) Hno]. split.
      * exists s. rewrite lookup_insert_ne; [done|]. intros Heq. by rewrite Heq, Hl in Hnew.
      * intros id' s'. rewrite lookup_insert_Some. intros [[<- <-]|[_ Hl']]; [|exact (Hno id' s' Hl')].
        simpl. intros ->. apply Hnh. right; left. by eauto.
    + intros id id' s s'. rewrite !lookup_insert_Some.
      intros [[<- <-]|[? H1]] [[<- <-]|[? H2]]; simpl; intros Heq; try done.
      * exfalso. apply Hnh. right; right. eauto.
      * exfalso. apply Hnh. right; right. eauto.
      * by apply (si_hash _ Hi id id' s s').
    + intros id id' s s'. rewrite !lookup_insert_Some.
      intros [[<- <-]|[? H1]] [[<- <-]|[? H2]]; simpl; intros Heq; try done.
      * exfalso. apply (fe_id _ _ Hf j), Hsi. exists id', s'. auto.
      * exfalso. apply (fe_id _ _ Hf j), Hsi. exists id, s. auto.
      * by apply (si_family _ Hi id id' s s').
  - assert (~ known_hash (as_db st) h) as Hnh by (intros Hk; by apply (fe_hash _ _ Hf n h Hdh), Hsh).
    split; rewrite ?Hs, ?Ha, ?Hh.
    + intros h' t. rewrite lookup_insert_Some. intros [[<- <-]|[Hne Ht]]; simpl.
      * eexists. by rewrite lookup_insert_eq.
      * destruct (si_access _ Hi h' t Ht) as (s0 & Hl0 & Hu).
        destruct (decide (id = at_session_id t)) as [->|].
        -- rewrite lookup_insert_eq. eexists; split; [done|]. simpl. congruence.
        -- rewrite lookup_insert_ne by done. eauto.
    + intros h' r. rewrite lookup_insert_Some. intros [[<- <-]|[Hne Hr']].
      * simpl. split; [rewrite lookup_insert_eq; by eexists|].
        intros id' s'. rewrite lookup_insert_Some. intros [[<- <-]|[Hid Hl']]; simpl.
        -- intros ->. apply Hnh. right; right. eauto.
        -- intros Heq. apply Hid. symmetry. by apply (si_hash _ Hi id' id s' s).
      * destruct (si_history _ Hi h' r Hr') as [(s0 & Hl0 & Hfam) Hno]. split.
        -- destruct (decide (id = hi_session_id r)) as [->|].
           ++ rewrite lookup_insert_eq. eexists; split; [done|]. simpl. congruence.
           ++ rewrite lookup_insert_ne by done. eauto.
        -- intros id' s'. rewrite lookup_insert_Some. intros [[<- <-]|[Hid Hl']]; simpl; [|exact (Hno id' s' Hl')].
           intros ->. apply Hnh. right; left. by eauto.
    + intros id1 id2 s1 s2. rewrite !lookup_insert_Some.
      intros [[<- <-]|[? H1]] [[<- <-]|[? H2]]; simpl; intros Heq; try done.
      * exfalso. apply Hnh. right; right. eauto.
      * exfalso. apply Hnh. right; right. eauto.
      * by apply (si_hash _ Hi id1 id2 s1 s2).
    + intros id1 id2 s1 s2. rewrite !lookup_insert_Some.
      intros [[<- <-]|[? H1]] [[<- <-]|[? H2]]; simpl; intros Heq; try done.
      * by apply (si_family _ Hi id id2 s s2).
      * by apply (si_family _ Hi id1 id s1 s).
      * by apply (si_family _ Hi id1 id2 s1 s2).
  - by eapply inv_preserved_revoke.
  - by eapply inv_preserved_delete.
Qed.

Lemma step_inv st st' :
  auth_system_step st st' -> session_inv (as_db st) -> seen st ->
  session_inv (as_db st') /\ seen st'.
Proof.
  intros (env & Hf & Hstep & Hh & Hi) Hinv Hseen. split.
  - eapply inv_preserved; [done|done|done|]. by apply auth_step_change.
  - split; auto.
Qed.

Lemma steps_inv st st' :
  rtc auth_system_step st st' -> session_inv (as_db st) -> seen st ->
  session_inv (as_db st') /\ seen st'.
Proof.
  induction 1 as [|st st1 st2 Hstep _ IH]; [done|]. intros Hi Hse.
  destruct (step_inv _ _ Hstep Hi Hse) as [Hi' Hse']. auto.
Qed.

Lemma start_inv st : auth_start st -> session_inv (as_db st) /\ seen st.
Proof.
  intros (Hs & Ha & Hh).
  split; [split; rewrite ?Hs, ?Ha, ?Hh; intros *; by rewrite lookup_empty|].
  split.
  - intros h Hk. unfold known_hash in Hk. rewrite Ha, Hh, Hs, !lookup_empty in Hk.
    destruct Hk as [[? ?]|[[? ?]|(? & ? & He & _)]]; try done.
  - intros u (id & s & He & _). by rewrite Hs, lookup_empty in He.
Qed.

Lemma reachable_inv st : auth_reachable st -> session_inv (as_db st) /\ seen st.
Proof.
  intros (st0 & H0 & Hsteps). destruct (start_inv _ H0). by eapply steps_inv.
Qed.

(** ** Spent refresh tokens *)

(** No session answers to the hash any more, and its history names the session's family. *)
Record spent (h : string) (id : Uuid) (st : AuthState) : Prop := {
  sp_hash : as_hashes st h;
  sp_id : as_ids st id;
  sp_gone id' s : au_auth_sessions (as_db st) !! id' = Some s -> ss_refresh_token_hash s <> h;
  sp_history s : au_auth_sessions (as_db st) !! id = Some s ->
    au_refresh_history (as_db st) !! h
    = Some {| hi_session_id := id; hi_refresh_family_id := ss_refresh_family_id s |};
}.

Lemma spent_step h id st st' : auth_system_step st st' -> spent h id st -> spent h id st'.
Proof.
  intros (env & Hf & Hstep%auth_step_change & Hrh & Hri) [Hh Hid Hgone Hhist].
  split; [by apply Hrh; left|by apply Hri; left|..].
  - intros id' s'. destruct Hstep as [Hs _ _|i j n k uid dev h1 ha e1 e2 _ _ Hd _ _ _ Hs _ _|
      id1 s1 n k h1 ha e _ Hd _ Hl _ _ _ _ Hs _ _|Hs _ _|ids Hs _ _]; rewrite ?Hs.
    + apply Hgone.
    + rewrite lookup_insert_Some. intros [[_ <-]|[_ Hl]]; [|by eapply Hgone].
      simpl. intros ->. by apply (fe_hash _ _ Hf n h Hd).
    + rewrite lookup_insert_Some. intros [[_ <-]|[_ Hl']]; [|by eapply Hgone].
      simpl. intros ->. by apply (fe_hash _ _ Hf n h Hd).
    + intros Hl'. destruct (some_revoked_lookup _ _ _ _ Hs Hl') as (s0 & Hl0 & [->|(? & ? & ->)]);
        exact (Hgone id' s0 Hl0).
    + intros [Hl _]%map_lookup_filter_Some. by eapply Hgone.
  - intros s'. destruct Hstep as [Hs _ Hh'|i j n k uid dev h1 ha e1 e2 _ _ Hd _ _ _ Hs _ Hh'|
      id1 s1 n k h1 ha e _ Hd _ Hl _ _ _ _ Hs _ Hh'|Hs _ Hh'|ids Hs _ Hh']; rewrite ?Hs, Hh'.
    + apply Hhist.
    + rewrite lookup_insert_Some. intros [[Heq _]|[_ Hl]]; [|by apply Hhist].
      exfalso. apply (fe_id _ _ Hf i). by rewrite Heq.
    + rewrite lookup_insert_Some. rewrite lookup_insert_ne by by apply (Hgone id1).
      intros [[-> <-]|[_ Hl']]; [exact (Hhist s1 Hl)|by apply Hhist].
    + intros Hl'. destruct (some_revoked_lookup _ _ _ _ Hs Hl') as (s0 & Hl0 & [->|(? & ? & ->)]);
        exact (Hhist s0 Hl0).
    + intros [Hl Hni]%map_lookup_filter_Some. rewrite map_lookup_filter_Some. auto.
Qed.

Lemma spent_steps h id st st' : rtc auth_system_step st st' -> spent h id st -> spent h id st'.
Proof. induction 1; eauto using spent_step. Qed.

Lemma refresh_step env st st1 token r :
  fresh_env env st -> remembers st st1 ->
  run_auth env (as_db st) (refresh_session token) = (as_db st1, r) -> auth_system_step st st1.
Proof.
  intros Hf Hrem Hrun. exists env. split; [done|]. split; [|done].
  pose proof (step_refresh env (as_db st) token) as Hst. by rewrite Hrun in Hst.
Qed.

(** A rotation spends the token it was given. *)
Lemma refresh_spends env st st1 token tokens :
  auth_reachable st -> fresh_env env st -> remembers st st1 ->
  run_auth env (as_db st) (refresh_session token) = (as_db st1, Ok tokens) ->
  spent (token_hash token) (tk_session_id tokens) st1.
Proof.
  intros Hr Hf [Hrh Hri] Hrun. destruct (reachable_inv _ Hr) as [Hi Hse].
  destruct (step_inv _ _ (refresh_step _ _ _ _ _ Hf (conj Hrh Hri) Hrun) Hi Hse) as [Hi1 Hse1].
  eapply (run_auth_post _ _ _ _ _ (fun tokens db' => exists row,
    au_refresh_history db' !! token_hash token
    = Some {| hi_session_id := tk_session_id tokens;
              hi_refresh_family_id := ss_refresh_family_id row |}
    /\ au_auth_sessions db' !! tk_session_id tokens
       = Some (rotate_session (ae_db_now env) (token_hash (tk_refresh_token tokens)) row))) in Hrun.
  2: { eapply awp_mono; [apply rotate_refresh_spec| |done].
       intros a s' [_ (row & _ & _ & _ & _ & Hh & Hs)]. by exists row. }
  destruct Hrun as (row & Hh & Hs). split.
  - apply Hrh. right. right; left. eauto.
  - apply Hri. right. eexists _, _. split; [exact Hs|]. by left.
  - apply (si_history _ Hi1 _ _ Hh).
  - intros s. rewrite Hs, Hh. by intros [= <-].
Qed.

(** Presenting a spent token. *)
Lemma spent_refused env st h id token :
  session_inv (as_db st) -> spent h id st -> h = token_hash token ->
  let r := run_auth env (as_db st) (refresh_session token) in
  r.2 = Err refresh_invalid
  /\ forall s, au_auth_sessions r.1 !! id = Some s -> ss_revoked_at s <> None.
Proof.
  intros Hi [_ _ Hgone Hhist] ->. unfold run_auth, refresh_session, rotate_refresh_session.
  unfold mbind, atx_bind. simpl.
  destruct (session_by_refresh _ _) as [[id' row]|] eqn:Hf.
  { apply session_by_refresh_Some in Hf as (Hl & Hh & _). by destruct (Hgone id' row Hl). }
  unfold refuse_refresh, mbind, atx_bind. simpl.
  destruct (au_refresh_history (as_db st) !! token_hash token) as [r|] eqn:Hr; simpl.
  - split; [done|]. intros s. rewrite lookup_fmap, fmap_Some.
    intros (s0 & Hl & ->). specialize (Hhist _ Hl). simplify_eq. simpl.
    rewrite (bool_decide_true (ss_refresh_family_id s0 = _)) by done. by case_bool_decide.
  - split; [done|]. intros s Hl. by specialize (Hhist _ Hl).
Qed.

(** ** Revoked sessions *)

(** The session was there and is revoked, or has been deleted since. *)
Definition dead (id : Uuid) (st : AuthState) : Prop :=
  as_ids st id
  /\ forall s, au_auth_sessions (as_db st) !! id = Some s -> ss_revoked_at s <> None.

Lemma dead_step id st st' : auth_system_step st st' -> dead id st -> dead id st'.
Proof.
  intros (env & Hf & Hstep%auth_step_change & Hrh & Hri) [Hid Hrev].
  split; [by apply Hri; left|]. intros s'.
  destruct Hstep as [Hs _ _|i j n k uid dev h1 ha e1 e2 _ _ _ _ _ _ Hs _ _|
    id1 s1 n k h1 ha e _ _ _ Hl Hnone _ _ _ Hs _ _|Hs _ _|ids Hs _ _]; rewrite ?Hs.
  - apply Hrev.
  - rewrite lookup_insert_Some. intros [[Heq _]|[_ Hl]]; [|by apply Hrev].
    exfalso. apply (fe_id _ _ Hf i). by rewrite Heq.
  - rewrite lookup_insert_Some. intros [[-> <-]|[_ Hl']]; [|by apply Hrev]. by destruct (Hrev s1 Hl).
  - intros Hl'. destruct (some_revoked_lookup _ _ _ _ Hs Hl') as (s0 & Hl0 & [->|(? & ? & ->)]);
      [by apply Hrev|done].
  - intros [Hl _]%map_lookup_filter_Some. by apply Hrev.
Qed.

Lemma dead_steps id st st' : rtc auth_system_step st st' -> dead id st -> dead id st'.
Proof. induction 1; eauto using dead_step. Qed.

(** Requests are let in only for sessions in force. *)
Lemma require_auth_session env db header p id :
  require_auth env db header = Some p -> pr_session_id p = Some id ->
  exists s account, au_auth_sessions db !! id = Some s /\ ss_revoked_at s = None
    /\ (ae_db_now env < ss_expires_at s)%Z
    /\ au_users db !! pr_user_id p = Some account /\ us_deleted account = false.
Proof.
  unfold require_auth, token_principal. intros Ha Hp.
  destruct (header ≫= strip_prefix "Bearer ") as [token|]; [|done].
  case_match; [case_match; by simplify_eq/=|].
  destruct (au_access_tokens db !! sha256 token) as [t|]; [|done].
  destruct (au_auth_sessions db !! at_session_id t) as [s|] eqn:Hs; [|done].
  destruct (au_users db !! at_user_id t) as [account|] eqn:Hu; [|done].
  case_match eqn:Hb; [|done]. simplify_eq/=.
  unfold session_live in Hb. exists s, account.
  destruct (us_deleted account); [by rewrite andb_false_r in Hb|].
  case_bool_decide; [|done]. simpl in Hb.
  case_bool_decide; [|simpl in Hb; lia]. split_and!; try done. lia.
Qed.

(** A dead session is not let in and not refreshed. *)
Lemma dead_refused id st :
  dead id st ->
  (forall env header p, require_auth env (as_db st) header = Some p -> pr_session_id p <> Some id)
  /\ (forall env token db' tokens,
       run_auth env (as_db st) (refresh_session token) = (db', Ok tokens) ->
       tk_session_id tokens <> id).
Proof.
  intros [_ Hrev]. split.
  - intros env header p Ha Hp. destruct (require_auth_session _ _ _ _ _ Ha Hp) as (s & ? & Hl & Hn & _).
    by destruct (Hrev s Hl).
  - intros env token db' tokens Hrun <-.
    eapply (run_auth_post _ _ _ _ _ (fun tokens db' => exists row,
      au_auth_sessions (as_db st) !! tk_session_id tokens = Some row /\ ss_revoked_at row = None)) in Hrun.
    + destruct Hrun as (row & Hl & Hn). by destruct (Hrev row Hl).
    + eapply awp_mono; [apply rotate_refresh_spec| |done].
      intros a s' [_ (row & Hl & _ & Hn & _)]. by exists row.
Qed.

(** ** Claims *)

(** In every reachable state of the authentication tables, each access token belongs to
    an existing session of its own user; each hash in the refresh history belongs to a
    session of the same family and is no session's current refresh token; and no two
    sessions share a refresh token or a refresh family. *)
Theorem session_tables_consistent st : auth_reachable st -> session_inv (as_db st).
Proof. intros Hr. by destruct (reachable_inv _ Hr). Qed.

(** C16: A refresh token works once. After it was exchanged, and whatever requests follow,
    presenting it again is refused as invalid and ends the session it belonged to: the
    session's row, when it is still there, is revoked, no access token of the session
    is let in any more, and no refresh token renews it. *)
Theorem refresh_tokens_are_single_use env st st1 st2 token tokens env' st3 :
  auth_reachable st -> fresh_env env st -> remembers st st1 ->
  run_auth env (as_db st) (refresh_session token) = (as_db st1, Ok tokens) ->
  rtc auth_system_step st1 st2 ->
  as_db st3 = (run_auth env' (as_db st2) (refresh_session token)).1 ->
  (run_auth env' (as_db st2) (refresh_session token)).2 = Err refresh_invalid
  /\ (forall s, au_auth_sessions (as_db st3) !! tk_session_id tokens = Some s ->
        ss_revoked_at s <> None)
  /\ (forall later header p, require_auth later (as_db st3) header = Some p ->
        pr_session_id p <> Some (tk_session_id tokens))
  /\ (forall later other db' renewed,
        run_auth later (as_db st3) (refresh_session other) = (db', Ok renewed) ->
        tk_session_id renewed <> tk_session_id tokens).
Proof.
  intros Hr Hf Hrem Hrun Hsteps Hdb.
  pose proof (refresh_spends _ _ _ _ _ Hr Hf Hrem Hrun) as Hsp%(spent_steps _ _ _ _ Hsteps).
  assert (session_inv (as_db st2)) as Hi.
  { destruct (reachable_inv _ Hr) as [Hi Hse].
    eapply (steps_inv st); [by eapply rtc_l; [eapply refresh_step|]|done|done]. }
  destruct (spent_refused env' st2 _ _ token Hi Hsp eq_refl) as [Herr Hrev].
  split; [done|]. rewrite <- Hdb in Hrev. split; [exact Hrev|].
  assert (dead (tk_session_id tokens) {| as_db := as_db st3; as_hashes := as_hashes st2;
                                         as_ids := as_ids st2 |}) as Hd.
  { split; [apply Hsp|exact Hrev]. }
  exact (dead_refused _ _ Hd).
Qed.

(** C17: A revoked session stays dead. Once a session is revoked, by logging out, by its user
    from another device or because its refresh token was reused, no sequence of
    requests brings it back: no access token is let in for it and no refresh token
    renews it. *)
Theorem revoked_sessions_stay_dead st st' id s :
  auth_reachable st -> au_auth_sessions (as_db st) !! id = Some s -> ss_revoked_at s <> None ->
  rtc auth_system_step st st' ->
  (forall env header p, require_auth env (as_db st') header = Some p -> pr_session_id p <> Some id)
  /\ (forall env token db' tokens,
       run_auth env (as_db st') (refresh_session token) = (db', Ok tokens) ->
       tk_session_id tokens <> id).
Proof.
  intros Hr Hl Hn Hsteps. apply dead_refused. eapply dead_steps; [done|].
  destruct (reachable_inv _ Hr) as [_ [_ Hids]]. split.
  - apply Hids. exists id, s. auto.
  - intros s'. rewrite Hl. by intros [= <-].
Qed.
End Properties.
