(* ===== verification/AuthOnce.v ===== *)
(** * Codes that work once

    Authorization codes, invitations, one-time passwords and recovery codes are marked as
    used by the request that accepts them, in the same transaction. [keeps] says that a
    handler does not undo such a mark; the theorems follow it over every sequence of
    authentication requests. *)

From Stdlib Require Import ZifyBool.
From S2P Require Import Prelude Text Json Contracts Store AuthCodes Auth AuthSystem.

Section Once.
Context `{AuthLib}.

(** The handler preserves a property of the tables, also when it commits an error. *)
Definition keeps {A} (P : AuthDb -> Prop) (m : ATx A) : Prop :=
  forall env s, P (atx_db s) -> awp env m (fun _ s' => P (atx_db s')) (fun _ db' => P db') s.

Section rules.
Context (P : AuthDb -> Prop).

Lemma keeps_bind {A B} (m : ATx A) (f : A -> ATx B) :
  keeps P m -> (forall a, keeps P (f a)) -> keeps P (m ≫= f).
Proof.
  intros Hm Hf env s Hs. apply awp_bind. eapply awp_mono; [by apply Hm| |done].
  intros a s1 H1. by apply Hf.
Qed.

Lemma keeps_ret {A} (a : A) : keeps P (mret a : ATx A).
Proof. by intros env s. Qed.
Lemma keeps_fail {A} e : keeps P (afail e : ATx A).
Proof. by intros env s. Qed.
Lemma keeps_commit_fail {A} e : keeps P (acommit_fail e : ATx A).
Proof. by intros env s. Qed.
Lemma keeps_ask : keeps P aask.
Proof. by intros env s. Qed.
Lemma keeps_get : keeps P aget.
Proof. by intros env s. Qed.
Lemma keeps_uuid : keeps P auuid.
Proof. by intros env s. Qed.
Lemma keeps_random : keeps P random_token.
Proof. intros env s Hs. by awp_steps. Qed.
Lemma keeps_lift {A} (r : result ApiError A) : keeps P (alift r).
Proof. intros env s Hs. by awp_steps. Qed.
Lemma keeps_require {A} (o : option A) e : keeps P (arequire o e).
Proof. intros env s Hs. by awp_steps. Qed.
Lemma keeps_reject_if b e : keeps P (areject_if b e).
Proof. intros env s Hs. by awp_steps. Qed.
Lemma keeps_modify f : (forall db, P db -> P (f db)) -> keeps P (amodify f).
Proof. intros Hf env s Hs. awp_steps. by apply Hf. Qed.

Lemma run_keeps {A} env db (m : ATx A) : keeps P m -> P db -> P (run_auth env db m).1.
Proof. intros Hm Hs. apply (run_auth_awp env db m P); [done|]. by apply (Hm env (MkATx db 0 0)). Qed.

Lemma run_then_keeps {A B} env db (m : ATx A) (k : AuthDb -> A -> AuthDb * result ApiError B) :
  keeps P m -> (forall db' a, P db' -> P (k db' a).1) -> P db ->
  P (match run_auth env db m with (db', Err e) => (db', Err e) | (db', Ok a) => k db' a end).1.
Proof.
  intros Hm Hk Hs. pose proof (run_keeps env db m Hm Hs) as H1.
  destruct (run_auth env db m) as [db' [a|e]]; simpl in *; auto.
Qed.
End rules.

(** Evaluates a transaction up to the next choice. *)
Ltac atx_eval :=
  unfold mbind, atx_bind, mret, atx_ret, aask, aget, amodify, alift, arequire, areject_if, afail,
    acommit_fail; cbn beta iota zeta; cbn [atx_db atx_ids atx_draws].

Create HintDb keeps.
#[local] Hint Resolve keeps_ret keeps_fail keeps_commit_fail keeps_ask keeps_get keeps_uuid
  keeps_random keeps_lift keeps_require keeps_reject_if : keeps.

Ltac keep_steps :=
  repeat (intros; cbv zeta; cbn beta iota;
    lazymatch goal with
    | |- keeps _ (mbind _ _) => apply keeps_bind
    | |- keeps _ (if ?b then _ else _) => destruct b
    | |- keeps _ (match ?o with _ => _ end) => destruct o
    | |- _ => solve [auto with keeps]
    end).

(** ** Properties of authorization codes and invitations *)

Section steps.
(** A property of the two tables that consuming a code, adding a code, accepting an
    invitation and adding an invitation preserve. *)
Context (P : AuthDb -> Prop).
Hypothesis P_tables : forall db db',
  au_native_codes db' = au_native_codes db -> au_invitations db' = au_invitations db ->
  P db -> P db'.
Hypothesis P_consume : forall db h row now,
  au_native_codes db !! h = Some row -> P db ->
  P (set_native_codes (<[h := consume_code now row]> (au_native_codes db)) db).
Hypothesis P_code : forall db h row,
  au_native_codes db !! h = None -> P db ->
  P (set_native_codes (<[h := row]> (au_native_codes db)) db).
Hypothesis P_accept : forall db id row now uid,
  au_invitations db !! id = Some row -> P db ->
  P (set_invitations (<[id := accept now uid row]> (au_invitations db)) db).
Hypothesis P_invite : forall db id row,
  au_invitations db !! id = None -> invitation_by_hash (iv_token_hash row) db = None -> P db ->
  P (set_invitations (<[id := row]> (au_invitations db)) db).

(** An update of another table. *)
Lemma P_other f :
  (forall db, au_native_codes (f db) = au_native_codes db) ->
  (forall db, au_invitations (f db) = au_invitations db) -> keeps P (amodify f).
Proof. intros H1 H2. apply keeps_modify. intros db. by apply P_tables. Qed.

#[local] Hint Extern 1 (keeps _ (amodify _)) => (apply P_other; intros; reflexivity) : keeps.

Lemma create_session_keeps uid dev : keeps P (create_session_tx uid dev).
Proof. unfold create_session_tx, issue_access_token. keep_steps. Qed.
#[local] Hint Resolve create_session_keeps : keeps.

Lemma insert_user_keeps uid row : keeps P (insert_user uid row).
Proof. unfold insert_user. keep_steps. Qed.

Lemma insert_audit_keeps actor action tt target m : keeps P (insert_audit actor action tt target m).
Proof. unfold insert_audit. keep_steps. Qed.

Lemma accept_factor_keeps uid row supplied : keeps P (accept_factor uid row supplied).
Proof. unfold accept_factor. keep_steps. Qed.
#[local] Hint Resolve insert_user_keeps insert_audit_keeps accept_factor_keeps : keeps.

Lemma verify_second_factor_keeps uid supplied : keeps P (verify_second_factor uid supplied).
Proof. unfold verify_second_factor. keep_steps. Qed.

Lemma insert_recovery_codes_keeps uid codes : keeps P (insert_recovery_codes uid codes).
Proof. induction codes; cbn [insert_recovery_codes]; keep_steps. Qed.

Lemma rotate_refresh_keeps token : keeps P (rotate_refresh_session token).
Proof. unfold rotate_refresh_session, refuse_refresh, issue_access_token. keep_steps. Qed.
#[local] Hint Resolve verify_second_factor_keeps insert_recovery_codes_keeps rotate_refresh_keeps : keeps.

Lemma drop_subscriptions_keeps now uid dev : keeps P (amodify (drop_dead_subscriptions now uid dev)).
Proof. apply P_other; intros db; unfold drop_dead_subscriptions; by case_match. Qed.
#[local] Hint Resolve drop_subscriptions_keeps : keeps.

Lemma revoke_session_keeps principal sid : keeps P (revoke_session principal sid).
Proof. unfold revoke_session. keep_steps. Qed.

Lemma retention_keeps now limit : keeps P (enforce_auth_session_retention now limit).
Proof.
  unfold enforce_auth_session_retention. keep_steps.
  apply P_other; intros db; induction (retired_sessions _ _ _ _) as [|kv rows IH]; simpl; try done;
    rewrite <- IH; unfold drop_dead_subscriptions; by case_match.
Qed.

Lemma native_code_keeps uid dev challenge :
  keeps P (create_native_authorization_code_tx uid dev challenge).
Proof.
  intros env s Hs. unfold create_native_authorization_code_tx. awp_steps. apply P_code; [|done].
  case_bool_decide as Hd; [done|]. by apply eq_None_not_Some.
Qed.

(** Finding a code in force. *)
Lemma awp_consume_keeps request env s :
  P (atx_db s) ->
  awp env (native_token request) (fun _ s' => P (atx_db s')) (fun _ db' => P db') s.
Proof.
  intros Hs. unfold native_token. awp_steps.
  destruct (au_native_codes (atx_db s) !! _) as [row|] eqn:Hl; [|done].
  case_bool_decide; [|done]. simplify_eq. case_match; awp_steps; [|by apply P_consume].
  apply create_session_keeps. by apply P_consume.
Qed.

Lemma create_invitation_keeps principal email expiry : keeps P (create_invitation principal email expiry).
Proof.
  intros env s Hs. unfold create_invitation. awp_steps.
  repeat case_bool_decide; try done. apply P_invite; [..|done]; by apply eq_None_not_Some.
Qed.

Lemma invitation_by_hash_Some hash db id row :
  invitation_by_hash hash db = Some (id, row) ->
  au_invitations db !! id = Some row /\ iv_token_hash row = hash.
Proof.
  unfold invitation_by_hash. destruct (list_find _ _) as [[n kv]|] eqn:Hf; [|done].
  intros [= ->]. apply list_find_Some in Hf as (Hl & Hh & _).
  split; [|done]. apply elem_of_map_to_list. by eapply list_elem_of_lookup_2.
Qed.

Lemma accept_invitation_keeps request : keeps P (accept_invitation request).
Proof.
  intros env s Hs. unfold accept_invitation. awp_steps.
  destruct (invitation_by_hash _ _) as [[id row]|] eqn:Hf; [|done].
  case_match; [|done]. simplify_eq. apply invitation_by_hash_Some in Hf as [Hl Hh].
  unfold insert_user. awp_steps. apply create_session_keeps. apply P_accept; [exact Hl|].
  by apply (P_tables (atx_db s)).
Qed.

Lemma auth_step_keeps env db db' : auth_step env db db' -> P db -> P db'.
Proof.
  intros Hstep Hs.
  destruct Hstep as [p r|r|r|r|p email expiry|r|t|headers|p|p sid|p purpose pw|p|p code|p code|p pw factor|uid pw factor|now limit];
    try (apply run_keeps; [|exact Hs]).
  - unfold bootstrap_admin. keep_steps.
  - unfold password_login. destruct (check_password _ _ _ _); [|done].
    apply run_then_keeps; [auto with keeps| |done]. intros. apply run_keeps; auto with keeps.
  - unfold native_authorize. case_match; [|done].
    apply run_then_keeps; [auto with keeps| |done]. intros. apply run_keeps; [apply native_code_keeps|done].
  - intros env' s'. apply awp_consume_keeps.
  - apply create_invitation_keeps.
  - apply accept_invitation_keeps.
  - apply rotate_refresh_keeps.
  - unfold browser_refresh_session. keep_steps.
  - unfold logout. keep_steps.
  - apply revoke_session_keeps.
  - unfold reauthenticate. keep_steps.
  - unfold setup_totp. keep_steps.
  - unfold enable_totp, insert_auth_audit. keep_steps.
  - unfold regenerate_recovery_codes. apply run_then_keeps; [auto with keeps| |done].
    intros. destruct (generate_recovery_codes _); [|done]. apply run_keeps; [|done].
    unfold insert_auth_audit. keep_steps.
  - unfold disable_totp. destruct (account_password _ _ _ _); [|done].
    apply run_then_keeps; [auto with keeps| |done]. intros. apply run_keeps; [|done].
    unfold insert_auth_audit. keep_steps.
  - unfold verify_account_password_and_second_factor. destruct (account_password _ _ _ _); [|done].
    apply run_keeps; auto with keeps.
  - apply retention_keeps.
Qed.

Lemma auth_steps_keep st st' :
  rtc auth_system_step st st' -> P (as_db st) -> P (as_db st').
Proof.
  induction 1 as [|st st1 st2 (env & _ & Hstep & _) _ IH]; [done|].
  intros Hs. apply IH. by eapply auth_step_keeps.
Qed.
End steps.

(** ** Authorization codes *)

Definition code_used (hash : string) (db : AuthDb) : Prop :=
  exists row, au_native_codes db !! hash = Some row /\ nc_consumed_at row <> None.

Lemma code_used_steps hash st st' :
  rtc auth_system_step st st' -> code_used hash (as_db st) -> code_used hash (as_db st').
Proof.
  apply auth_steps_keep.
  - unfold code_used. by intros db db' -> _.
  - intros db h row now Hl (r & Hr & Hn). unfold code_used. simpl. destruct (decide (h = hash)) as [->|].
    + rewrite lookup_insert_eq. by eexists.
    + rewrite lookup_insert_ne by done. by exists r.
  - intros db h row Hl (r & Hr & Hn). exists r. split; [|done]. simpl.
    rewrite lookup_insert_ne; [done|]. intros ->. by rewrite Hl in Hr.
  - done.
  - done.
Qed.

Lemma code_used_refused env db request :
  code_used (opaque_token_hash (nt_code request)) db ->
  exists e, run_auth env db (native_token request) = (db, Err e).
Proof.
  intros (row & Hl & Hn). unfold run_auth, native_token. atx_eval.
  destruct (validate_pkce_verifier _) as [[]|e]; [|by exists e]. atx_eval.
  rewrite Hl, bool_decide_false by done. by eexists.
Qed.

Definition binding_invalid : ApiError :=
  Unauthorized "authorization code, verifier, or device binding is invalid".

(** Creating a session fails only inside the server. *)
Lemma create_session_errors env s uid dev :
  match create_session_tx uid dev env s with
  | RolledBack (Unauthorized _) | CommittedErr _ _ => False
  | _ => True
  end.
Proof.
  unfold create_session_tx, issue_access_token, random_token. atx_eval.
  repeat (case_match; simplify_eq/=; try done).
Qed.

(** An exchange that got past finding the code. *)
Lemma native_token_consumes env db request db' r :
  run_auth env db (native_token request) = (db', r) ->
  r = Err binding_invalid \/ (exists tokens, r = Ok tokens) ->
  exists row, au_native_codes db !! opaque_token_hash (nt_code request) = Some row
    /\ nc_consumed_at row = None
    /\ au_native_codes db' !! opaque_token_hash (nt_code request)
       = Some (consume_code (ae_db_now env) row)
    /\ forall tokens, r = Ok tokens ->
         tk_user_id tokens = nc_user_id row /\ nt_device_id request = nc_device_id row
         /\ (ae_app_now env < nc_expires_at row)%Z
         /\ pkce_challenge (nt_code_verifier request) = nc_code_challenge row.
Proof.
  unfold run_auth, native_token. atx_eval. intros Hrun Hr.
  destruct (validate_pkce_verifier _) as [[]|e] eqn:Hv.
  2: { revert Hv Hr. injection Hrun as <- <-. unfold validate_pkce_verifier, guard_err.
       case_match; [|done]. intros [= <-] [?|[? ?]]; done. }
  revert Hrun. atx_eval.
  destruct (au_native_codes db !! opaque_token_hash (nt_code request)) as [row|] eqn:Hl.
  2: { intros [= <- <-]. by destruct Hr as [?|[? ?]]. }
  case_bool_decide as Hn. 2: { intros [= <- <-]. by destruct Hr as [?|[? ?]]. }
  set (s1 := MkATx (set_native_codes
    (<[opaque_token_hash (nt_code request) := consume_code (ae_db_now env) row]>
       (au_native_codes db)) db) 0 0).
  pose proof (create_session_errors env s1 (nc_user_id row) (nt_device_id request)) as He.
  pose proof (create_session_keeps (fun db => au_native_codes db !! opaque_token_hash (nt_code request)
    = Some (consume_code (ae_db_now env) row)) ltac:(intros ?? Heq ?; cbn beta; by rewrite Heq) (nc_user_id row)
    (nt_device_id request) env s1 (lookup_insert_eq _ _ _)) as Hk.
  pose proof (create_session_change env (fun _ _ => True) (nc_user_id row)
    (nt_device_id request) s1) as Hc.
  change (MkATx _ _ _) with s1. unfold awp in Hk, Hc.
  destruct (_ && _) eqn:Hb.
  - destruct (create_session_tx _ _ _ _) as [tokens s|e|]; [|..|done]; intros [= <- <-].
    + exists row. split_and!; try done. intros tokens' [= <-]. destruct Hc as (_ & _ & Hu).
      apply andb_true_iff in Hb as [[Ht Hd]%andb_true_iff Hp].
      apply bool_decide_eq_true in Hd. apply String.eqb_eq in Hp. split_and!; try done. lia.
    + destruct Hr as [[= ->]|[? ?]]; done.
  - intros [= <- <-]. exists row. split_and!; try done. apply lookup_insert_eq.
Qed.

(** An authorization code is exchanged at most once, and only by the application that
    asked for it. An exchange that succeeds signs in the user the code was issued to, on
    the device it was issued to, before it expires, with a verifier whose SHA-256 is the
    code's challenge. Whether it succeeds or fails on the verifier, device or expiry, the
    code is used up: whatever requests follow, no later exchange of it succeeds or
    changes anything. *)
Theorem authorization_codes_are_single_use env st request st1 r st2 :
  run_auth env (as_db st) (native_token request) = (as_db st1, r) ->
  r = Err binding_invalid \/ (exists tokens, r = Ok tokens) ->
  rtc auth_system_step st1 st2 ->
  (exists row, au_native_codes (as_db st) !! opaque_token_hash (nt_code request) = Some row
     /\ nc_consumed_at row = None
     /\ forall tokens, r = Ok tokens ->
          tk_user_id tokens = nc_user_id row /\ nt_device_id request = nc_device_id row
          /\ (ae_app_now env < nc_expires_at row)%Z
          /\ pkce_challenge (nt_code_verifier request) = nc_code_challenge row)
  /\ forall env' request', nt_code request' = nt_code request ->
       exists e, run_auth env' (as_db st2) (native_token request') = (as_db st2, Err e).
Proof.
  intros Hrun Hr Hsteps. destruct (native_token_consumes _ _ _ _ _ Hrun Hr) as (row & Hl & Hn & Hc & Hok).
  split; [by eauto|]. intros env' request' Hcode. apply code_used_refused. rewrite Hcode.
  eapply code_used_steps; [done|]. by eexists.
Qed.

(** ** Invitations *)

(** The unique index on the hashes of invitations. *)
Definition invitations_unique (db : AuthDb) : Prop :=
  forall id id' row row', au_invitations db !! id = Some row -> au_invitations db !! id' = Some row' ->
    iv_token_hash row = iv_token_hash row' -> id = id'.

Definition invitation_used (hash : string) (db : AuthDb) : Prop :=
  invitations_unique db
  /\ exists id row, au_invitations db !! id = Some row /\ iv_token_hash row = hash
       /\ iv_accepted_at row <> None.

Lemma invitation_by_hash_None hash db id row :
  invitation_by_hash hash db = None -> au_invitations db !! id = Some row -> iv_token_hash row <> hash.
Proof.
  unfold invitation_by_hash. intros Hf Hl.
  destruct (list_find _ _) as [[n kv]|] eqn:Hfind; [done|].
  apply list_find_None in Hfind. rewrite Forall_forall in Hfind.
  by apply (Hfind (id, row)), elem_of_map_to_list.
Qed.

Lemma unique_accept db id row now uid :
  au_invitations db !! id = Some row -> invitations_unique db ->
  invitations_unique (set_invitations (<[id := accept now uid row]> (au_invitations db)) db).
Proof.
  intros Hl Hu id1 id2 r1 r2. simpl. rewrite !lookup_insert_Some.
  intros [[<- <-]|[? H1]] [[<- <-]|[? H2]]; simpl; intros Heq; try done; by eapply Hu.
Qed.

Lemma unique_invite db id row :
  invitation_by_hash (iv_token_hash row) db = None -> invitations_unique db ->
  invitations_unique (set_invitations (<[id := row]> (au_invitations db)) db).
Proof.
  intros Hn Hu id1 id2 r1 r2. simpl. rewrite !lookup_insert_Some.
  intros [[<- <-]|[? H1]] [[<- <-]|[? H2]]; intros Heq; try done.
  - by destruct (invitation_by_hash_None _ _ _ _ Hn H2).
  - by destruct (invitation_by_hash_None _ _ _ _ Hn H1).
  - by eapply Hu.
Qed.

Lemma invitation_used_steps hash st st' :
  rtc auth_system_step st st' -> invitation_used hash (as_db st) -> invitation_used hash (as_db st').
Proof.
  apply auth_steps_keep; unfold invitation_used.
  - intros db db' _ Hi [Hu Hex]. unfold invitations_unique. rewrite !Hi. done.
  - done.
  - done.
  - intros db id row now uid Hl [Hu (id0 & r0 & Hl0 & Hh & Ha)].
    split; [by apply unique_accept|]. simpl. destruct (decide (id = id0)) as [->|].
    + exists id0, (accept now uid row). rewrite lookup_insert_eq. split_and!; try done.
      simpl. congruence.
    + exists id0, r0. by rewrite lookup_insert_ne.
  - intros db id row Hl Hn [Hu (id0 & r0 & Hl0 & Hh & Ha)].
    split; [by apply unique_invite|]. simpl. exists id0, r0.
    rewrite lookup_insert_ne; [done|]. intros ->. by rewrite Hl in Hl0.
Qed.

Lemma invitation_used_refused env db request :
  invitation_used (opaque_token_hash (ac_token request)) db ->
  exists e, run_auth env db (accept_invitation request) = (db, Err e).
Proof.
  intros [Hu (id & row & Hl & Hh & Ha)]. unfold run_auth, accept_invitation. atx_eval.
  destruct (bad_display_name _); [by eexists|]. atx_eval.
  destruct (invitation_by_hash _ _) as [[id' row']|] eqn:Hf; [|by eexists].
  apply invitation_by_hash_Some in Hf as [Hl' Hh'].
  assert (id = id') as <- by (eapply Hu; [done|done|congruence]). simplify_eq.
  rewrite bool_decide_false by done. by eexists.
Qed.

Lemma create_session_others env E uid dev s :
  awp env (create_session_tx uid dev)
    (fun tokens s' => tk_user_id tokens = uid
       /\ au_users (atx_db s') = au_users (atx_db s)
       /\ au_invitations (atx_db s') = au_invitations (atx_db s)) E s.
Proof. unfold create_session_tx, issue_access_token. by awp_steps. Qed.

(** What accepting an invitation does. *)
Lemma accept_invitation_accepts env db request db' tokens :
  invitations_unique db -> run_auth env db (accept_invitation request) = (db', Ok tokens) ->
  (exists id row password_hash, au_invitations db !! id = Some row
     /\ iv_token_hash row = opaque_token_hash (ac_token request)
     /\ iv_accepted_at row = None /\ (ae_db_now env < iv_expires_at row)%Z
     /\ au_users db !! tk_user_id tokens = None
     /\ ae_hash_password env (ac_password request) = Ok password_hash
     /\ au_users db' !! tk_user_id tokens
        = Some {| us_email := ae_lower env (iv_email row);
                  us_display_name := trim (ac_display_name request); us_platform_admin := false;
                  us_password_hash := Some password_hash; us_deleted := false |})
  /\ invitation_used (opaque_token_hash (ac_token request)) db'.
Proof.
  intros Hu Hrun. eapply (run_auth_post _ _ _ _ _ (fun tokens db' => _ /\ _)) in Hrun; [exact Hrun|].
  unfold accept_invitation. awp_steps.
  destruct (invitation_by_hash _ _) as [[id row]|] eqn:Hf; [|done].
  case_match eqn:Hb; [|done]. simplify_eq. apply invitation_by_hash_Some in Hf as [Hl Hh].
  unfold insert_user. awp_steps. simpl fst in *. simpl snd in *.
  eapply awp_mono; [apply (create_session_others _ (fun _ _ => True))| |done].
  intros tokens' s' (-> & Hus & Hin). cbn [atx_db au_users au_invitations set_users set_invitations] in *.
  apply andb_true_iff in Hb as [Hna%bool_decide_eq_true Hexp].
  split.
  - exists id, row, a1. split_and!; try done; [lia|..].
    + apply eq_None_not_Some. by apply bool_decide_eq_false in H1.
    + rewrite Hus. apply lookup_insert_eq.
  - split.
    + unfold invitations_unique. rewrite Hin. by apply (unique_accept db).
    + rewrite Hin. exists id. eexists. split; [apply lookup_insert_eq|]. done.
Qed.

(** An invitation makes one account. Accepting it, before it expires and when nobody has,
    creates an account that is new, has the invited address in PostgreSQL's lower case,
    the hash of the chosen password and no administrator rights; and whatever requests
    follow, nobody can accept the invitation again. *)
Theorem invitations_are_single_use env st request st1 tokens st2 :
  invitations_unique (as_db st) ->
  run_auth env (as_db st) (accept_invitation request) = (as_db st1, Ok tokens) ->
  rtc auth_system_step st1 st2 ->
  (exists id row password_hash, au_invitations (as_db st) !! id = Some row
     /\ iv_token_hash row = opaque_token_hash (ac_token request)
     /\ iv_accepted_at row = None /\ (ae_db_now env < iv_expires_at row)%Z
     /\ au_users (as_db st) !! tk_user_id tokens = None
     /\ ae_hash_password env (ac_password request) = Ok password_hash
     /\ au_users (as_db st1) !! tk_user_id tokens
        = Some {| us_email := ae_lower env (iv_email row);
                  us_display_name := trim (ac_display_name request); us_platform_admin := false;
                  us_password_hash := Some password_hash; us_deleted := false |})
  /\ forall env' request', ac_token request' = ac_token request ->
       exists e, run_auth env' (as_db st2) (accept_invitation request') = (as_db st2, Err e).
Proof.
  intros Hu Hrun Hsteps. destruct (accept_invitation_accepts _ _ _ _ _ Hu Hrun) as [Hmade Hused].
  split; [done|]. intros env' request' Ht. apply invitation_used_refused. rewrite Ht.
  by eapply invitation_used_steps.
Qed.

(** ** Second factors *)

(** The unique index on the user and hash of recovery codes. *)
Definition recovery_unique (db : AuthDb) : Prop :=
  forall id id' row row', au_recovery_codes db !! id = Some row ->
    au_recovery_codes db !! id' = Some row' -> rv_user_id row = rv_user_id row' ->
    rv_code_hash row = rv_code_hash row' -> id = id'.

Definition factor_refused : ApiError := Unauthorized "TOTP or recovery code is invalid or already used".

Lemma unused_recovery_Some uid hash db id row :
  unused_recovery uid hash db = Some (id, row) ->
  au_recovery_codes db !! id = Some row /\ rv_user_id row = uid /\ rv_code_hash row = hash
  /\ rv_used_at row = None.
Proof.
  unfold unused_recovery. destruct (list_find _ _) as [[n kv]|] eqn:Hf; [|done].
  intros [= ->]. apply list_find_Some in Hf as (Hl & Hh & _).
  split; [|done]. apply elem_of_map_to_list. by eapply list_elem_of_lookup_2.
Qed.

Lemma matching_step_window secret supplied now step :
  matching_totp_step secret supplied now = Some step ->
  six_digits (totp_at secret step) = supplied
  /\ (now / TOTP_STEP_SECONDS - 1 <= step <= now / TOTP_STEP_SECONDS + 1)%Z.
Proof.
  unfold matching_totp_step. intros [Hin He]%find_some. split; [by apply String.eqb_eq|].
  destruct Hin as [<-|[<-|[<-|[]]]]; lia.
Qed.

(** What an accepted factor leaves behind. *)
Inductive factor_used (env : AuthEnv) (uid : Uuid) (row : TotpRow) (db db' : AuthDb)
    (code : string) : Prop :=
| used_totp secret step :
    is_totp_code code = true -> sealed_open env uid row = Ok secret ->
    matching_totp_step secret code (ae_unix_seconds env) = Some step ->
    (forall prior, tp_last_used_step row = Some prior -> (prior < step)%Z) ->
    au_user_totp db' = <[uid := set_last_step step row]> (au_user_totp db) ->
    au_recovery_codes db' = au_recovery_codes db ->
    factor_used env uid row db db' code
| used_recovery normalized id found :
    is_totp_code code = false -> normalize_recovery_code code = Some normalized ->
    au_recovery_codes db !! id = Some found -> rv_user_id found = uid ->
    rv_code_hash found = opaque_token_hash normalized -> rv_used_at found = None ->
    au_recovery_codes db' = <[id := use_recovery (ae_db_now env) found]> (au_recovery_codes db) ->
    au_user_totp db' = au_user_totp db ->
    factor_used env uid row db db' code.

Lemma verify_uses_factor env db uid supplied row db' :
  au_user_totp db !! uid = Some row -> tp_enabled row = true ->
  run_auth env db (verify_second_factor uid supplied) = (db', Ok tt) ->
  exists code, non_empty_trimmed supplied = Some code /\ factor_used env uid row db db' code.
Proof.
  intros Hl He Hrun. eapply (run_auth_post _ _ _ _ _ (fun _ db' => _)) in Hrun; [exact Hrun|].
  unfold verify_second_factor. awp_steps. rewrite Hl, He. awp_steps.
  unfold accept_factor. awp_steps. destruct (is_totp_code a) eqn:Hc.
  - awp_steps. destruct (matching_totp_step _ _ _) as [step|] eqn:Hm.
    2: { awp_steps. done. }
    destruct (match tp_last_used_step row with Some prior => _ | None => _ end) eqn:Hp.
    2: { awp_steps. done. }
    awp_steps. exists a. split; [done|]. eapply (used_totp _ _ _ _ _ _ a0 step); try done.
    intros prior Hpr. rewrite Hpr in Hp. lia.
  - destruct (normalize_recovery_code a) as [normalized|] eqn:Hn.
    2: { awp_steps. done. }
    awp_steps. destruct (unused_recovery _ _ _) as [[id found]|] eqn:Hu.
    2: { awp_steps. done. }
    apply unused_recovery_Some in Hu as (? & ? & ? & ?).
    awp_steps. exists a. split; [done|]. by eapply (used_recovery _ _ _ _ _ _ normalized id found).
Qed.

(** A refused factor: what the handler answers when it has a factor to check. *)
Lemma verify_refused env db uid supplied row code :
  au_user_totp db !! uid = Some row -> tp_enabled row = true ->
  non_empty_trimmed supplied = Some code ->
  accept_factor uid row code env (MkATx db 0 0) = Done false (MkATx db 0 0) ->
  run_auth env db (verify_second_factor uid supplied) = (db, Err factor_refused).
Proof.
  intros Hl He Hs Ha. unfold run_auth, verify_second_factor. atx_eval. rewrite Hl, He, Hs. atx_eval.
  by rewrite Ha.
Qed.

Lemma used_recovery_gone db uid id found now :
  recovery_unique db -> au_recovery_codes db !! id = Some found -> rv_user_id found = uid ->
  unused_recovery uid (rv_code_hash found)
    (set_recovery_codes (<[id := use_recovery now found]> (au_recovery_codes db)) db) = None.
Proof.
  intros Hu Hl Huid. destruct (unused_recovery _ _ _) as [[id' row']|] eqn:Hf; [|done].
  apply unused_recovery_Some in Hf as (Hl' & Hu' & Hh' & Hn'). simpl in Hl'.
  apply lookup_insert_Some in Hl' as [[<- <-]|[Hne Hl']]; [done|].
  destruct Hne. eapply Hu; [done|done|congruence|congruence].
Qed.

(** A second factor is used up by the request that accepts it. Of an account with the
    second factor switched on, an accepted factor is either a time-based code of a step at
    most one away from the current one and later than the last step accepted, which
    becomes the last step accepted, or an unused recovery code, which becomes used.
    Presenting the factor again is refused: a time-based code as long as the step counter
    is the same, a recovery code at any time. *)
Theorem second_factor_is_used_up env db uid supplied row db' :
  au_user_totp db !! uid = Some row -> tp_enabled row = true -> recovery_unique db ->
  run_auth env db (verify_second_factor uid supplied) = (db', Ok tt) ->
  exists code, non_empty_trimmed supplied = Some code
  /\ factor_used env uid row db db' code
  /\ forall env',
       (is_totp_code code = true ->
        ae_object_store env' = ae_object_store env
        /\ (ae_unix_seconds env' / TOTP_STEP_SECONDS
            = ae_unix_seconds env / TOTP_STEP_SECONDS)%Z) ->
       run_auth env' db' (verify_second_factor uid supplied) = (db', Err factor_refused).
Proof.
  intros Hl He Hu Hrun.
  destruct (verify_uses_factor _ _ _ _ _ _ Hl He Hrun) as (code & Hs & Hf).
  exists code. split_and!; [done|done|]. intros env' Henv.
  destruct Hf as [secret step Hc Ho Hm Hp Ht Hr|normalized id found Hc Hn Hlf Huf Hhf Huse Hr Ht].
  - destruct (Henv Hc) as [Hst Hstep].
    apply (verify_refused _ _ _ _ (set_last_step step row) code); [|done|done|].
    + rewrite Ht. apply lookup_insert_eq.
    + unfold accept_factor. atx_eval. rewrite Hc. atx_eval.
      replace (sealed_open env' uid (set_last_step step row)) with (sealed_open env uid row)
        by (unfold sealed_open; by rewrite Hst).
      rewrite Ho. unfold matching_totp_step in *. rewrite Hstep, Hm. simpl. by rewrite Z.ltb_irrefl.
  - apply (verify_refused _ _ _ _ row code); [by rewrite Ht|done|done|].
    unfold accept_factor. atx_eval. rewrite Hc, Hn. atx_eval.
    rewrite <- Hhf. pose proof (used_recovery_gone db uid id found (ae_db_now env) Hu Hlf Huf) as Hg.
    unfold unused_recovery in *. simpl in Hg. rewrite Hr, Hg. done.
Qed.
End Once.
