(* ===== verification/AuthUpkeep.v ===== *)
(** * Session retention, recovery codes and the browser boundary

    The retention pass removes only sessions that have been dead for ninety days, so nobody
    is logged out by it; the recovery codes the server generates are the base32 form of
    their random bytes and are accepted when typed back; the browser boundary moves a
    refresh token from the answer's body to a cookie that gives it back. *)

From Stdlib Require Import ZifyBool ZifyN.
From S2P Require Import Prelude Text Json Contracts Store AuthCodes Auth AuthSystem.

Section Upkeep.
Context `{AuthLib}.

(** ** Retention *)

Lemma retired_not_live now now' s :
  retired now s = true -> (now - days 90 <= now')%Z -> session_live now' s = false.
Proof.
  unfold retired, session_live. intros Hr Hn.
  destruct (ss_revoked_at s) as [t|]; [by rewrite bool_decide_false by done|].
  rewrite bool_decide_true by done. simpl. lia.
Qed.

Lemma elem_of_retired env now limit db id s :
  (id, s) ∈ retired_sessions env now limit db ->
  au_auth_sessions db !! id = Some s /\ retired now s = true /\ ae_row_locked env id = false.
Proof.
  unfold retired_sessions. intros Hin.
  apply (subseteq_take _ _) in Hin. rewrite merge_sort_Permutation in Hin.
  apply list_elem_of_filter in Hin as [[? ?] Hin]. split; [by apply elem_of_map_to_list|done].
Qed.

(** The identifiers of the rows name the rows. *)
Lemma retired_ids env now limit db id s :
  au_auth_sessions db !! id = Some s ->
  id ∈ (fst <$> retired_sessions env now limit db) <-> (id, s) ∈ retired_sessions env now limit db.
Proof.
  intros Hl. rewrite list_elem_of_fmap. split.
  - intros ([id' s'] & -> & Hin). simpl in *. destruct (elem_of_retired _ _ _ _ _ _ Hin) as [Hl' _].
    by simplify_eq.
  - intros Hin. by exists (id, s).
Qed.

Lemma retention_run env db now limit :
  exists db', run_auth env db (enforce_auth_session_retention now limit)
         = (db', Ok (Z.of_nat (length (retired_sessions env now limit db))))
    /\ au_auth_sessions db'
       = filter (fun kv => kv.1 ∉ (fst <$> retired_sessions env now limit db)) (au_auth_sessions db)
    /\ au_access_tokens db'
       = filter (fun kv => at_session_id kv.2 ∉ (fst <$> retired_sessions env now limit db))
           (au_access_tokens db)
    /\ au_users db' = au_users db.
Proof.
  unfold run_auth, enforce_auth_session_retention.
  unfold mbind, atx_bind, aask, aget, amodify, mret, atx_ret. cbn beta iota zeta. cbn [atx_db].
  case_bool_decide as Hr.
  - rewrite Hr. eexists. split; [done|]. simpl.
    split_and!; [..|done]; symmetry; apply map_filter_id; intros; apply not_elem_of_nil.
  - set (rows := retired_sessions env now limit db). eexists. split; [done|].
    destruct (fold_subscriptions_same now rows db) as (Hs & Ha & _).
    assert (au_users (foldr (fun kv db => drop_dead_subscriptions now (ss_user_id kv.2)
              (ss_device_id kv.2) db) db rows) = au_users db) as Hu.
    { clear. induction rows as [|kv rows IH]; [done|]. simpl. rewrite <- IH.
      unfold drop_dead_subscriptions. by case_match. }
    unfold delete_sessions. cbn [au_auth_sessions au_access_tokens au_users set_grants
      set_refresh_history set_access_tokens set_auth_sessions atx_db]. rewrite Hs, Ha, Hu. done.
Qed.

Lemma retired_complete env now limit db id s :
  (Z.of_nat (length (retired_sessions env now limit db)) < clamp 1 10000 limit)%Z ->
  au_auth_sessions db !! id = Some s -> retired now s = true -> ae_row_locked env id = false ->
  (id, s) ∈ retired_sessions env now limit db.
Proof.
  unfold retired_sessions. intros Hlen Hl Hr Hk.
  rewrite length_take in Hlen. rewrite take_ge by lia.
  rewrite merge_sort_Permutation, list_elem_of_filter. split; [done|]. by apply elem_of_map_to_list.
Qed.

(** A token is let in after the pass when it was before. *)
Lemma retention_keeps_tokens env db now limit db' env' digest :
  au_auth_sessions db'
    = filter (fun kv => kv.1 ∉ (fst <$> retired_sessions env now limit db)) (au_auth_sessions db) ->
  au_access_tokens db'
    = filter (fun kv => at_session_id kv.2 ∉ (fst <$> retired_sessions env now limit db))
        (au_access_tokens db) ->
  au_users db' = au_users db -> (now - days 90 <= ae_db_now env')%Z ->
  token_principal env' db' digest = token_principal env' db digest.
Proof.
  intros Hs Ha Hu Hnow. unfold token_principal. rewrite Hs, Ha, Hu, map_lookup_filter.
  destruct (au_access_tokens db !! digest) as [t|]; simpl; [|done].
  unfold guard. case_decide as Hin; simpl.
  - rewrite map_lookup_filter.
    destruct (au_auth_sessions db !! at_session_id t) as [s|]; simpl; [|done].
    unfold guard. by case_decide.
  - destruct (au_auth_sessions db !! at_session_id t) as [s|] eqn:Hl; [|done].
    destruct (au_users db !! at_user_id t); [|done].
    assert (retired now s = true) as Hr.
    { rewrite (retired_ids _ _ _ _ _ s Hl) in Hin.
      by destruct (elem_of_retired _ _ _ _ _ _ Hin) as (_ & ? & _). }
    by rewrite (retired_not_live _ _ _ Hr Hnow), andb_false_r.
Qed.

(** Session retention removes only sessions that have been dead for ninety days. Every
    session is kept unchanged or it expired or was revoked more than ninety days before and
    no other transaction holds it; at most the limit is removed, clamped to 1..10000, and
    when fewer are removed, nothing that may be removed is left. Nobody is logged out: a
    request is let in afterwards exactly when it was before. *)
Theorem retention_removes_only_dead env db now limit :
  exists db' n, run_auth env db (enforce_auth_session_retention now limit) = (db', Ok n)
  /\ (n <= clamp 1 10000 limit)%Z
  /\ (forall id s, au_auth_sessions db !! id = Some s ->
        au_auth_sessions db' !! id = Some s
        \/ au_auth_sessions db' !! id = None /\ retired now s = true /\ ae_row_locked env id = false)
  /\ ((n < clamp 1 10000 limit)%Z -> forall id s, au_auth_sessions db' !! id = Some s ->
        retired now s = true -> ae_row_locked env id = true)
  /\ (forall env' header, (now - days 90 <= ae_db_now env')%Z ->
        require_auth env' db' header = require_auth env' db header).
Proof.
  destruct (retention_run env db now limit) as (db' & Hrun & Hs & Ha & Hu).
  exists db', (Z.of_nat (length (retired_sessions env now limit db))). split; [done|]. split_and!.
  - unfold retired_sessions. rewrite length_take. unfold clamp. lia.
  - intros id s Hl. rewrite Hs.
    destruct (decide (id ∈ (fst <$> retired_sessions env now limit db))) as [Hin|Hout].
    + right. pose proof Hin as Hrow. rewrite (retired_ids _ _ _ _ _ s Hl) in Hrow.
      destruct (elem_of_retired _ _ _ _ _ _ Hrow) as (_ & ? & ?). split; [|done].
      apply map_lookup_filter_None_2. right. by intros x _ Hn.
    + left. by apply map_lookup_filter_Some_2.
  - intros Hlen id s Hl Hr. rewrite Hs in Hl. apply map_lookup_filter_Some in Hl as [Hl Hn].
    destruct (ae_row_locked env id) eqn:Hk; [done|]. destruct Hn. simpl.
    rewrite (retired_ids _ _ _ _ _ s Hl). by apply retired_complete.
  - intros env' header Hnow. unfold require_auth, active_users. rewrite Hu.
    destruct (header ≫= _) as [token|]; [|done]. case_match; [done|].
    by eapply retention_keeps_tokens.
Qed.
End Upkeep.

(** ** Cookies *)

(** Visible ASCII without the semicolon. *)
Definition cookie_char (c : ascii) : bool := in_byte_range 33 126 c && negb (byte_of c =? 59)%N.

Lemma cookie_char_not_ws c : cookie_char c = true ->
  ws1 c = false /\ (forall c2, ws2 c c2 = false) /\ (forall c1, ws2 c1 c = false)
  /\ (forall c2 c3, ws3 c c2 c3 = false) /\ (forall c1 c2, ws3 c1 c2 c = false).
Proof.
  unfold cookie_char, ws1, in_byte_range. intros Hc.
  split_and!; intros; unfold ws2, ws3; lia.
Qed.

Lemma trim_start_cookie s : string_forallb cookie_char s = true -> trim_start s = s.
Proof.
  destruct s as [|c1 s]; [done|]. intros [Hc _]%andb_true_iff.
  destruct (cookie_char_not_ws c1 Hc) as (H1 & H2 & _ & H3 & _). cbn [trim_start]. rewrite H1.
  destruct s as [|c2 s]; [done|]. rewrite H2. destruct s as [|c3 s]; [done|]. by rewrite H3.
Qed.

Lemma trim_start_rev_cookie s : string_forallb cookie_char s = true -> trim_start_rev s = s.
Proof.
  destruct s as [|c1 s]; [done|]. intros [Hc _]%andb_true_iff.
  destruct (cookie_char_not_ws c1 Hc) as (H1 & _ & H2 & _ & H3). cbn [trim_start_rev]. rewrite H1.
  destruct s as [|c2 s]; [done|]. rewrite H2. destruct s as [|c3 s]; [done|]. by rewrite H3.
Qed.

Lemma forallb_app p a b : string_forallb p (a +:+ b) = string_forallb p a && string_forallb p b.
Proof.
  induction a as [|c a IH]; [by rewrite string_app_nil|].
  rewrite string_app_cons. cbn [string_forallb]. by rewrite IH, andb_assoc.
Qed.

Lemma rev_app_forallb p s : forall acc,
  string_forallb p (String.rev_app s acc) = string_forallb p s && string_forallb p acc.
Proof.
  induction s as [|c s IH]; intros acc; [done|]. simpl. rewrite IH. simpl.
  by destruct (p c), (string_forallb p s).
Qed.

Lemma rev_forallb p s : string_forallb p (String.rev s) = string_forallb p s.
Proof. unfold String.rev. rewrite rev_app_forallb. apply andb_true_r. Qed.

Lemma rev_app_involutive s : forall acc acc',
  String.rev_app (String.rev_app s acc) acc' = String.rev_app acc (s +:+ acc').
Proof.
  induction s as [|c s IH]; intros acc acc'; [by rewrite string_app_nil|].
  simpl. rewrite IH. by rewrite string_app_cons.
Qed.

Lemma rev_involutive_string s : String.rev (String.rev s) = s.
Proof. unfold String.rev. rewrite rev_app_involutive. simpl. apply string_app_nil_r. Qed.

Lemma trim_cookie s : string_forallb cookie_char s = true -> trim s = s.
Proof.
  intros Hs. unfold trim, trim_end. rewrite trim_start_cookie by done.
  rewrite trim_start_rev_cookie by (by rewrite rev_forallb). apply rev_involutive_string.
Qed.

Lemma split_cookie s : forall acc,
  string_forallb cookie_char s = true ->
  split_char_from acc (Ascii.ascii_of_N 59) s = [String.rev_app acc s].
Proof.
  induction s as [|c s IH]; intros acc; cbn [split_char_from string_forallb]; [done|].
  intros [Hc Hs]%andb_true_iff. rewrite (proj2 (Ascii.eqb_neq _ _)).
  - by rewrite IH.
  - intros ->. done.
Qed.

Lemma cookie_to_str s : string_forallb cookie_char s = true -> to_str s = Some s.
Proof.
  intros Hs. unfold to_str.
  assert (string_forallb (fun c => in_byte_range 32 126 c || (byte_of c =? 9)%N) s = true) as ->; [|done].
  induction s as [|c s IH]; [done|]. cbn [string_forallb] in *. apply andb_true_iff in Hs as [Hc Hs].
  rewrite IH by done. unfold cookie_char, in_byte_range in *. lia.
Qed.

(** Sending the cookie back gives the token. *)
Lemma cookie_round_trip token :
  string_forallb cookie_char token = true -> token <> "" ->
  browser_refresh_token [("cookie", BROWSER_REFRESH_COOKIE +:+ "=" +:+ token)] = Some token.
Proof.
  intros Ht Hne. set (cookie := BROWSER_REFRESH_COOKIE +:+ "=" +:+ token).
  assert (string_forallb cookie_char cookie = true) as Hc.
  { unfold cookie. rewrite !forallb_app, Ht. vm_compute. reflexivity. }
  unfold browser_refresh_token, header_all. rewrite filter_cons_True by done. rewrite filter_nil.
  cbn [fmap list_fmap snd omap list_omap]. rewrite cookie_to_str by done.
  cbn [fmap list_fmap]. unfold split_char. rewrite split_cookie by done.
  cbn [String.rev_app concat app fmap list_fmap]. rewrite trim_cookie by done.
  cbn [find_map]. unfold refresh_cookie, cookie, strip_prefix.
  rewrite (proj2 (string_prefix_app _ _)) by (by eexists). rewrite str_drop_app.
  cbn [mbind option_bind]. rewrite (proj2 (string_prefix_app _ _)) by (by eexists).
  rewrite str_drop_app. by destruct token.
Qed.

Section Boundary.
Context `{AuthLib}.

(** In browser sessions the refresh token never reaches the page. When a sign-in or
    refresh of a browser session succeeds with a token in its answer, the answer's body is
    the same object without the token, the token travels in a host-only, secure, HTTP-only
    cookie, and the cookie the browser sends back gives the server exactly that token. *)
Theorem browser_tokens_stay_in_cookie path headers response object token :
  let cleaned := JObject (map_remove "refresh_token" object) in
  from_slice_value (to_vec_value cleaned) = Some cleaned ->
  is_browser_session headers = true -> ends_with "/auth/logout" path = false ->
  is_success (rs_status response) = true ->
  (str_len (rs_body response) <= AUTH_RESPONSE_LIMIT)%Z ->
  from_slice_value (rs_body response) = Some (JObject object) ->
  map_get "refresh_token" object = Some (JString token) ->
  string_forallb cookie_char token = true -> token <> "" ->
  let out := browser_session_boundary path headers response in
  rs_status out = rs_status response
  /\ (exists sanitized, from_slice_value (rs_body out) = Some (JObject sanitized)
        /\ map_get "refresh_token" sanitized = None
        /\ forall k, k <> "refresh_token" -> map_get k sanitized = map_get k object)
  /\ last (rs_headers out) = Some ("set-cookie", refresh_set_cookie token)
  /\ browser_refresh_token [("cookie", BROWSER_REFRESH_COOKIE +:+ "=" +:+ token)] = Some token.
Proof.
  intros cleaned Hjson Hb Hlo Hok Hlen Hbody Hget Hchars Hne out.
  assert (header_value_ok (refresh_set_cookie token) = true) as Hh.
  { unfold header_value_ok, refresh_set_cookie. rewrite !forallb_app.
    replace (string_forallb _ token) with true; [vm_compute; reflexivity|]. symmetry.
    clear -Hchars. induction token as [|c s IH]; [done|]. cbn [string_forallb] in *.
    apply andb_true_iff in Hchars as [Hc Hs]. rewrite IH by done.
    unfold cookie_char, in_byte_range in *. lia. }
  assert (exists hs, out = append_header "set-cookie" (refresh_set_cookie token)
    {| rs_status := rs_status response; rs_headers := hs;
       rs_body := to_vec_value cleaned |}) as [hs ->].
  { unfold out, browser_session_boundary. rewrite Hb, Hlo.
    assert ((rs_status response =? 401)%Z = false) as H401 by (unfold is_success in Hok; lia).
    unfold sanitize_browser_tokens.
    destruct (str_contains "/auth/" path); cbn [negb rs_status rs_body append_header remove_header andb];
      rewrite H401, andb_false_r, Hok, Hbody, Hget; cbn [negb orb];
      rewrite (proj2 (Z.ltb_ge _ _) Hlen);
      (destruct (str_is_empty token) eqn:He; [by destruct token|]); rewrite Hh; cbn [negb]; by eexists. }
  cbn [rs_status rs_body rs_headers append_header]. split_and!; [done| |by rewrite last_snoc|].
  - rewrite Hjson. eexists. split_and!; [done|apply map_get_remove_eq|].
    intros k Hk. by apply map_get_remove_ne.
  - by apply cookie_round_trip.
Qed.
End Boundary.
