(* ===== verification/Base32Properties.v ===== *)
(** * Base32 and recovery codes

    The encoder of server/cowork-server/src/auth.rs keeps a u32 buffer and a count of
    pending bits; [encodes] is its loop invariant: the digits written and the pending bits
    are the bytes read, as one number. From it: secrets of a multiple of five bytes keep
    their value, and a generated recovery code, typed back with its hyphens, normalises to
    the base32 text of its ten random bytes. *)

From Stdlib Require Import ZifyBool ZifyN.
From S2P Require Import Prelude Text Json Contracts Store AuthCodes.

(** The value of a digit, and of digits from the least significant. *)
Definition digit32 (c : ascii) : Z :=
  let b := Z.of_N (byte_of c) in if (65 <=? b)%Z then (b - 65)%Z else (b - 24)%Z.

Fixpoint value32 (out : list ascii) : Z :=
  match out with
  | [] => 0
  | c :: out' => digit32 c + 32 * value32 out'
  end.

(** The bytes as one number, the first the most significant, after [acc]. *)
Fixpoint value256 (acc : Z) (s : string) : Z :=
  match s with
  | EmptyString => acc
  | String c s' => value256 (acc * 256 + Z.of_N (byte_of c)) s'
  end.

Lemma alphabet_digit n :
  (0 <= n < 32)%Z ->
  digit32 (alphabet_at n) = n /\ is_base32_char (alphabet_at n) = true.
Proof.
  intros Hn.
  assert (forallb (fun k => (digit32 (alphabet_at (Z.of_nat k)) =? Z.of_nat k)%Z
                            && is_base32_char (alphabet_at (Z.of_nat k))) (seq 0 32) = true) as Hall
    by (vm_compute; reflexivity).
  rewrite forallb_forall in Hall. specialize (Hall (Z.to_nat n)).
  rewrite Z2Nat.id in Hall by lia.
  assert ((digit32 (alphabet_at n) =? n)%Z = true /\ is_base32_char (alphabet_at n) = true)
    as [?%Z.eqb_eq ?]; [|done].
  apply andb_true_iff, Hall, in_seq. lia.
Qed.

Lemma land_31 z : Z.land z 31 = (z mod 32)%Z.
Proof. exact (Z.land_ones z 5 ltac:(lia)). Qed.

(** Writing digits moves the top bits of the buffer to the output. *)
Lemma base32_drain_spec buffer : forall fuel bits out,
  (0 <= bits <= Z.of_nat fuel)%Z ->
  exists out', base32_drain fuel buffer bits out = ((bits mod 5)%Z, out')
    /\ (value32 out' * 2 ^ (bits mod 5) + buffer mod 2 ^ (bits mod 5)
        = value32 out * 2 ^ bits + buffer mod 2 ^ bits)%Z
    /\ (5 * Z.of_nat (length out') + bits mod 5 = 5 * Z.of_nat (length out) + bits)%Z
    /\ (Forall (fun c => is_base32_char c = true) out ->
        Forall (fun c => is_base32_char c = true) out').
Proof.
  induction fuel as [|fuel IH]; intros bits out Hb; simpl.
  - assert (bits = 0)%Z as -> by lia. by exists out.
  - destruct (5 <=? bits)%Z eqn:H5.
    + set (d := Z.land (Z.shiftr buffer (bits - 5)) 31).
      assert (d = (buffer / 2 ^ (bits - 5)) mod 32)%Z as Hd.
      { unfold d. by rewrite land_31, Z.shiftr_div_pow2 by lia. }
      destruct (alphabet_digit d) as [Hv Hc]; [rewrite Hd; apply Z.mod_pos_bound; lia|].
      destruct (IH (bits - 5)%Z (alphabet_at d :: out)) as (out' & Hr & Hval & Hlen & Hall); [lia|].
      assert ((bits - 5) mod 5 = bits mod 5)%Z as Hm.
      { replace bits with ((bits - 5) + 1 * 5)%Z at 2 by lia. by rewrite Z.mod_add. }
      rewrite Hm in *. exists out'. split_and!; [done|..].
      * rewrite Hval. simpl. rewrite Hv.
        replace bits with ((bits - 5) + 5)%Z at 3 4 by lia. rewrite Z.pow_add_r by lia.
        assert (0 < 2 ^ (bits - 5))%Z by (apply Z.pow_pos_nonneg; lia).
        change (2 ^ 5)%Z with 32%Z. rewrite (Z.rem_mul_r _ _ 32) by lia. rewrite <- Hd. ring.
      * rewrite Hlen. simpl. lia.
      * intros Ho. apply Hall. by constructor.
    + exists out. rewrite Z.mod_small by lia. done.
Qed.

(** The loop's invariant after the bytes with value [v], [n] of them. *)
Record encodes (v : Z) (n : nat) (st : Z * Z * list ascii) : Prop := {
  en_bits : (0 <= st.1.2 < 5)%Z;
  en_buffer : (0 <= st.1.1)%Z;
  en_value : (value32 st.2 * 2 ^ st.1.2 + st.1.1 mod 2 ^ st.1.2 = v)%Z;
  en_length : (5 * Z.of_nat (length st.2) + st.1.2 = 8 * Z.of_nat n)%Z;
  en_chars : Forall (fun c => is_base32_char c = true) st.2;
}.

Lemma lor_byte b c : (0 <= b)%Z -> (0 <= c < 256)%Z -> (Z.lor (b * 256) c = b * 256 + c)%Z.
Proof.
  intros Hb Hc. rewrite <- Z.add_lor_land.
  assert (Z.land (b * 256) c = 0)%Z as ->; [|lia].
  apply Z.bits_inj'. intros i Hi. rewrite Z.land_spec, Z.bits_0.
  change 256%Z with (2 ^ 8)%Z in *. destruct (decide (i < 8)%Z).
  - by rewrite Z.mul_pow2_bits_low by lia.
  - rewrite <- (Z.mod_small c (2 ^ 8)) by lia. rewrite Z.mod_pow2_bits_high by lia. apply andb_false_r.
Qed.

(** The u32 buffer keeps the pending bits and the new byte. *)
Lemma buffer_byte buffer bits c :
  (0 <= buffer)%Z -> (0 <= bits < 5)%Z -> (0 <= c < 256)%Z ->
  (0 <= Z.lor ((buffer * 256) mod 2 ^ 32) c
   /\ Z.lor ((buffer * 256) mod 2 ^ 32) c mod 2 ^ (bits + 8)
      = buffer mod 2 ^ bits * 256 + c)%Z.
Proof.
  intros Hb Hbits Hc.
  change (2 ^ 32)%Z with (2 ^ 24 * 256)%Z. rewrite Z.mul_mod_distr_r by lia.
  pose proof (Z.mod_pos_bound buffer (2 ^ 24) ltac:(lia)).
  rewrite lor_byte by lia. split; [lia|].
  assert (0 < 2 ^ bits)%Z by (apply Z.pow_pos_nonneg; lia).
  rewrite (Z.add_comm bits 8), Z.pow_add_r by lia. change (2 ^ 8)%Z with 256%Z.
  rewrite Z.rem_mul_r by lia.
  assert ((buffer mod 2 ^ 24 * 256 + c) mod 256 = c)%Z as ->.
  { rewrite Z.add_comm, Z.mod_add by lia. by apply Z.mod_small. }
  assert ((buffer mod 2 ^ 24 * 256 + c) / 256 = buffer mod 2 ^ 24)%Z as ->.
  { rewrite Z.add_comm, Z.div_add by lia. rewrite Z.div_small by lia. lia. }
  rewrite Z.mod_mod_divide; [lia|].
  exists (2 ^ (24 - bits))%Z. rewrite <- Z.pow_add_r by lia. f_equal. lia.
Qed.

Lemma base32_byte_encodes v n st c :
  encodes v n st -> encodes (v * 256 + Z.of_N (byte_of c)) (S n) (base32_byte st c).
Proof.
  destruct st as [[buffer bits] out]. intros [Hb Hbuf Hv Hl Hc]. simpl in *.
  assert (0 <= Z.of_N (byte_of c) < 256)%Z as Hbyte.
  { unfold byte_of. pose proof (Ascii.N_ascii_bounded c). lia. }
  destruct (buffer_byte buffer bits _ Hbuf Hb Hbyte) as [Hpos Hmod].
  set (buffer' := Z.lor ((buffer * 256) mod 2 ^ 32) (Z.of_N (byte_of c))) in *.
  destruct (base32_drain_spec buffer' (Z.to_nat (bits + 8)) (bits + 8) out) as
    (out' & Hr & Hval & Hlen & Hall); [lia|].
  unfold base32_byte. fold buffer'. rewrite Hr.
  pose proof (Z.mod_pos_bound (bits + 8) 5 ltac:(lia)).
  split; simpl; [lia|done| |lia|by apply Hall].
  rewrite Hval, Hmod, Z.pow_add_r by lia. change (2 ^ 8)%Z with 256%Z. rewrite <- Hv. ring.
Qed.

Lemma base32_loop_encodes s : forall v n st,
  encodes v n st -> encodes (value256 v s) (n + String.length s) (base32_loop s st).
Proof.
  induction s as [|c s IH]; intros v n st He; simpl; [by rewrite Nat.add_0_r|].
  rewrite <- Nat.add_succ_comm. by apply IH, base32_byte_encodes.
Qed.

(** The base32 text as digits, and its value. *)
Definition text_value32 (s : string) : Z := value32 (rev (String.list_ascii_of_string s)).

Lemma base32_encode_spec s :
  (String.length s mod 5 = 0)%nat ->
  text_value32 (base32_encode s) = value256 0 s
  /\ (5 * String.length (base32_encode s) = 8 * String.length s)%nat
  /\ Forall (fun c => is_base32_char c = true) (String.list_ascii_of_string (base32_encode s)).
Proof.
  intros [k Hk]%Nat.Div0.mod_divides. unfold base32_encode.
  assert (encodes 0 0 (0%Z, 0%Z, [])) as H0 by (split; simpl; [lia|lia|done|lia|done]).
  pose proof (base32_loop_encodes s _ _ _ H0) as [Hb Hbuf Hv Hl Hc]. simpl in *.
  destruct (base32_loop s (0%Z, 0%Z, [])) as [[buffer bits] out]. simpl in *.
  assert (bits = 0)%Z as -> by lia.
  simpl. unfold text_value32. rewrite String.list_ascii_of_string_of_list_ascii, rev_involutive.
  rewrite Z.mod_1_r in Hv. split_and!; [lia| |by apply Forall_rev].
  assert (forall l, String.length (String.string_of_list_ascii l) = length l) as ->
    by (induction l; simpl; congruence).
  rewrite length_rev. lia.
Qed.

(** ** Recovery codes *)

(** A base32 character is kept by the normalisation. *)
Lemma strip_base32 c s :
  is_base32_char c = true -> strip_separators (String c s) = String c (strip_separators s).
Proof.
  unfold is_base32_char, is_ascii_upper, in_byte_range. intros Hc.
  assert ((byte_of c < 128)%N /\ ((byte_of c =? 45)%N || ws1 c) = false) as [Hlt Hno].
  { unfold ws1, in_byte_range. lia. }
  assert (forall c2, ws2 c c2 = false) as H2 by (intros c2; unfold ws2; lia).
  assert (forall c2 c3, ws3 c c2 c3 = false) as H3 by (intros c2 c3; unfold ws3; lia).
  cbn [strip_separators]. rewrite Hno. destruct s as [|c2 s]; [done|]. rewrite H2.
  destruct s as [|c3 s]; [done|]. by rewrite H3.
Qed.

Lemma strip_hyphen s : strip_separators (String (Ascii.ascii_of_N 45) s) = strip_separators s.
Proof. done. Qed.

Lemma upper_base32 c : is_base32_char c = true -> ascii_to_upper c = c.
Proof.
  unfold is_base32_char, is_ascii_upper, ascii_to_upper, is_ascii_lower, in_byte_range.
  intros Hc. case_match; [lia|done].
Qed.

Abbreviation base32_text s := (Forall (fun c => is_base32_char c = true) (String.list_ascii_of_string s)).

Lemma strip_text w r : base32_text w -> strip_separators (w +:+ r) = w +:+ strip_separators r.
Proof.
  induction w as [|c w IH]; [done|]. intros [Hc Hw]%Forall_cons.
  by rewrite !string_app_cons, strip_base32, IH.
Qed.

Lemma strip_text_all w : base32_text w -> strip_separators w = w.
Proof. intros Hw. by rewrite <- (string_app_nil_r w) at 1; rewrite strip_text, string_app_nil_r. Qed.

(** The chunks of a text of four or more characters. *)
Lemma chunks4_cons a b c d s :
  join "-" (chunks4 (String a (String b (String c (String d s)))))
  = String a (String b (String c (String d
      (match s with EmptyString => "" | _ => "-" +:+ join "-" (chunks4 s) end)))).
Proof.
  cbn [chunks4]. destruct s as [|e s]; [done|].
  destruct (chunks4 (String e s)) as [|x l] eqn:Hc; [by repeat (destruct s as [|? s]; try done)|].
  cbn [join]. by rewrite !string_app_cons.
Qed.

Lemma strip_chunks n : forall s, (String.length s <= n)%nat -> base32_text s ->
  strip_separators (join "-" (chunks4 s)) = s.
Proof.
  induction n as [|n IH]; intros s Hn Hs; [by destruct s; simpl in Hn; [|lia]|].
  destruct s as [|a [|b [|c [|d s]]]]; [done|by apply (strip_text_all _ Hs)..|].
  rewrite chunks4_cons. cbn [String.list_ascii_of_string] in Hs.
  repeat (apply Forall_cons in Hs as [? Hs]). rewrite !strip_base32 by done. do 4 f_equal.
  destruct s as [|e s]; [done|]. rewrite string_app_cons, strip_hyphen, string_app_nil.
  apply IH; [simpl in *; lia|done].
Qed.

Lemma upper_text w : base32_text w -> string_map ascii_to_upper w = w.
Proof.
  induction w as [|c w IH]; [done|]. intros [Hc Hw]%Forall_cons. cbn [string_map].
  by rewrite upper_base32, IH.
Qed.

Lemma forallb_text p s :
  Forall (fun c => p c = true) (String.list_ascii_of_string s) -> string_forallb p s = true.
Proof.
  induction s as [|c s IH]; [done|]. intros [Hc Hs]%Forall_cons.
  cbn [string_forallb]. rewrite Hc. by apply IH.
Qed.

Lemma recovery_code_normal bytes :
  String.length bytes = 10%nat ->
  normalize_recovery_code (recovery_code bytes) = Some (base32_encode bytes).
Proof.
  intros Hl. destruct (base32_encode_spec bytes) as (_ & Hlen & Hs); [by rewrite Hl|].
  unfold normalize_recovery_code, recovery_code.
  rewrite (strip_chunks (String.length (base32_encode bytes))) by done.
  rewrite upper_text, forallb_text by done.
  unfold str_len. by replace (String.length (base32_encode bytes)) with 16%nat by lia.
Qed.

(** The value determines the bytes. *)
Lemma value256_inj s : forall s' v v',
  String.length s = String.length s' -> value256 v s = value256 v' s' -> v = v' /\ s = s'.
Proof.
  induction s as [|c s IH]; intros [|c' s'] v v' Hl Hv; try done. simpl in Hl, Hv.
  injection Hl as Hl. destruct (IH s' _ _ Hl Hv) as [Heq ->].
  pose proof (Ascii.N_ascii_bounded c). pose proof (Ascii.N_ascii_bounded c').
  unfold byte_of in Heq. assert (v = v' /\ Ascii.N_of_ascii c = Ascii.N_of_ascii c') as [-> Hc] by lia.
  by rewrite <- (Ascii.ascii_N_embedding c), Hc, Ascii.ascii_N_embedding.
Qed.

(** Recovery codes are the base32 form of their random bytes and nothing of them is lost.
    Base32 of a multiple of five bytes is a big-endian number in base 32 with the value of
    the bytes, so different bytes give different codes; and each of the ten generated
    codes, typed back as it was shown, normalises to the sixteen base32 characters of its
    ten random bytes, so that enabling the second factor never fails on its own codes. *)
Theorem recovery_codes_are_faithful :
  (forall bytes, (String.length bytes mod 5 = 0)%nat ->
     text_value32 (base32_encode bytes) = value256 0 bytes
     /\ (5 * String.length (base32_encode bytes) = 8 * String.length bytes)%nat)
  /\ (forall bytes bytes', String.length bytes = 10%nat -> String.length bytes' = 10%nat ->
        normalize_recovery_code (recovery_code bytes) = Some (base32_encode bytes)
        /\ (recovery_code bytes = recovery_code bytes' -> bytes = bytes')).
Proof.
  split.
  - intros bytes Hb. by destruct (base32_encode_spec bytes Hb) as (? & ? & _).
  - intros bytes bytes' Hl Hl'. split; [by apply recovery_code_normal|].
    intros Heq. pose proof (recovery_code_normal _ Hl) as H1.
    rewrite Heq, recovery_code_normal in H1 by done. injection H1 as H1.
    destruct (base32_encode_spec bytes) as (Hv & _); [by rewrite Hl|].
    destruct (base32_encode_spec bytes') as (Hv' & _); [by rewrite Hl'|].
    apply (value256_inj bytes bytes' 0 0); congruence.
Qed.
