(* ===== verification/AuthWitness.v ===== *)
(** * Concrete authentication histories

    A server with one administrator, random tokens and identifiers that are never drawn
    twice: the theorems about sessions and codes applied to its histories. *)

From S2P Require Import Prelude Text Json Contracts Store AuthCodes Auth AuthSystem.
From S2P Require Import AuthProperties AuthOnce AuthUpkeep.

Module AuthDemo.

Definition cleaned_body : Value := JObject [("user_id", JString "u")].

#[global] Instance lib : AuthLib := {|
  sha256 s := String (Ascii.ascii_of_N 35) s;
  hmac_sha1 _ _ := "01234567890123456789";
  b64url_encode s := s;
  b64url_decode s := Some s;
  from_slice_value s :=
    if String.eqb s "full"
    then Some (JObject [("refresh_token", JString "abc"); ("user_id", JString "u")])
    else if String.eqb s "cleaned" then Some cleaned_body else None;
  to_vec_value _ := "cleaned";
|}.

(** The tokens and identifiers of request [e]. *)
Fixpoint xs (n : nat) : string :=
  match n with O => "" | S n' => String (Ascii.ascii_of_N 120) (xs n') end.

Definition draw (e n : nat) : string := String (Ascii.ascii_of_nat (97 + e)) (xs n).
Definition new_id (e i : nat) : Uuid := N.of_nat (8 * i + e).

Definition env (e : nat) : AuthEnv :=
  {| ae_db_now := 1000; ae_app_now := 1000; ae_unix_seconds := 60; ae_new_v4 := new_id e;
     ae_random n := Some (draw e n); ae_recovery_random _ := Some "0123456789";
     ae_totp_secret := Some "01234567890123456789"; ae_row_locked _ := false;
     ae_hash_password s := Ok s; ae_verify_password p h := Ok (String.eqb p h);
     ae_lower s := to_ascii_lowercase s; ae_bootstrap_token_digest := "bootstrap";
     ae_bootstrap_user_id := 7%N;
     ae_object_store := Some {| seal_for_user _ s :=
                                  Ok {| sv_ciphertext := s; sv_encrypted_data_key := "";
                                        sv_nonce := ""; sv_wrap_nonce := "" |};
                                open_for_user _ v := Ok (sv_ciphertext v) |} |}.

Definition empty_db : AuthDb := MkAuthDb ∅ ∅ ∅ ∅ ∅ ∅ ∅ ∅ ∅ ∅ ∅ ∅ [].

(** The state after the requests before [e]. *)
Definition state (e : nat) (db : AuthDb) : AuthState :=
  {| as_db := db;
     as_hashes h := exists k n, (k < e)%nat /\ h = sha256 (draw k n);
     as_ids u := exists k i, (k < e)%nat /\ u = new_id k i |}.

Lemma xs_inj n m : xs n = xs m -> n = m.
Proof. revert m. induction n as [|n IH]; intros [|m]; simpl; intros He; try done. injection He as He. auto. Qed.

Lemma ascii_inj a b : (a < 8)%nat -> (b < 8)%nat ->
  Ascii.ascii_of_nat (97 + a) = Ascii.ascii_of_nat (97 + b) -> a = b.
Proof.
  intros Ha Hb He. apply (f_equal Ascii.nat_of_ascii) in He.
  rewrite !Ascii.nat_ascii_embedding in He by lia. lia.
Qed.

Lemma env_fresh e db : (e < 8)%nat -> fresh_env (env e) (state e db).
Proof.
  intros He. split.
  - intros n h (token & [= <-] & ->) (k & m & Hk & [= Ha Hx]).
    apply (ascii_inj e k) in Ha; lia.
  - intros n k h (t1 & [= <-] & ->) (t2 & [= <-] & [= Hx]). by apply xs_inj.
  - intros i (k & j & Hk & Heq). simpl in Heq. unfold new_id in Heq.
    apply Nat2N.inj in Heq. lia.
  - intros i j Heq. simpl in Heq. unfold new_id in Heq. apply Nat2N.inj in Heq. lia.
Qed.

(** The hashes and identifiers of the tables, as lists. *)
Definition hashes_of (db : AuthDb) : list string :=
  (fst <$> map_to_list (au_access_tokens db)) ++ (fst <$> map_to_list (au_refresh_history db))
  ++ ((fun kv => ss_refresh_token_hash kv.2) <$> map_to_list (au_auth_sessions db)).

Definition ids_of (db : AuthDb) : list Uuid :=
  (fst <$> map_to_list (au_auth_sessions db))
  ++ ((fun kv => ss_refresh_family_id kv.2) <$> map_to_list (au_auth_sessions db)).

Lemma known_hash_listed db h : known_hash db h -> h ∈ hashes_of db.
Proof.
  unfold hashes_of. rewrite !elem_of_app, !list_elem_of_fmap.
  intros [[t Ht]|[[t Ht]|(id & s & Hs & <-)]].
  - left. exists (h, t). by rewrite elem_of_map_to_list.
  - right; left. exists (h, t). by rewrite elem_of_map_to_list.
  - right; right. exists (id, s). by rewrite elem_of_map_to_list.
Qed.

Lemma known_id_listed db u : known_id db u -> u ∈ ids_of db.
Proof.
  unfold ids_of. rewrite elem_of_app, !list_elem_of_fmap.
  intros (id & s & Hs & [->| ->]); [left|right]; exists (id, s); by rewrite elem_of_map_to_list.
Qed.

Lemma remembered e db db' :
  Forall (fun h => exists k n, (k < S e)%nat /\ h = sha256 (draw k n)) (hashes_of db') ->
  Forall (fun u => exists k i, (k < S e)%nat /\ u = new_id k i) (ids_of db') ->
  remembers (state e db) (state (S e) db').
Proof.
  rewrite !Forall_forall. intros Hh Hi. split.
  - intros h [(k & n & Hk & ->)|Hkn]; [exists k, n; split; [lia|done]|].
    by apply Hh, known_hash_listed.
  - intros u [(k & i & Hk & ->)|Hkn]; [exists k, i; split; [lia|done]|].
    by apply Hi, known_id_listed.
Qed.

(** Request 0 makes the administrator and signs in. *)
Definition bootstrap : Principal :=
  {| pr_user_id := 7%N; pr_session_id := None; pr_bootstrap := true |}.
Definition admin_request : BootstrapAdminRequest :=
  {| ba_email := "root@example.org"; ba_password := "correct horse battery";
     ba_display_name := "Root"; ba_device_id := 5%N |}.
Definition db1 : AuthDb := (run_auth (env 0) empty_db (bootstrap_admin bootstrap admin_request)).1.

Example bootstrap_signs_in :
  exists tokens, (run_auth (env 0) empty_db (bootstrap_admin bootstrap admin_request)).2 = Ok tokens
    /\ tk_refresh_token tokens = draw 0 0 /\ tk_session_id tokens = new_id 0 1.
Proof. vm_compute. eexists. done. Qed.

(** Request 1 exchanges the refresh token, request 2 presents it again. *)
Definition db2 : AuthDb := (run_auth (env 1) db1 (refresh_session (draw 0 0))).1.
Definition db3 : AuthDb := (run_auth (env 2) db2 (refresh_session (draw 0 0))).1.

Lemma step1 : auth_system_step (state 0 empty_db) (state 1 db1).
Proof.
  exists (env 0). split; [apply env_fresh; lia|]. split; [apply step_bootstrap|].
  apply remembered.
  - vm_compute. repeat constructor; first [(exists 0, 0; vm_compute; split; [lia|reflexivity]) | (exists 0, 1; vm_compute; split; [lia|reflexivity])].
  - vm_compute. repeat constructor; first [(exists 0, 1; vm_compute; split; [lia|reflexivity]) | (exists 0, 2; vm_compute; split; [lia|reflexivity])].
Qed.

Lemma remembers2 : remembers (state 1 db1) (state 2 db2).
Proof.
  apply remembered.
  - vm_compute. repeat constructor; first [(exists 0, 0; vm_compute; split; [lia|reflexivity]) | (exists 0, 1; vm_compute; split; [lia|reflexivity]) | (exists 1, 0; vm_compute; split; [lia|reflexivity]) | (exists 1, 1; vm_compute; split; [lia|reflexivity])].
  - vm_compute. repeat constructor; first [(exists 0, 1; vm_compute; split; [lia|reflexivity]) | (exists 0, 2; vm_compute; split; [lia|reflexivity])].
Qed.

Lemma step2 : auth_system_step (state 1 db1) (state 2 db2).
Proof.
  exists (env 1). split; [apply env_fresh; lia|]. split; [apply step_refresh|apply remembers2].
Qed.

Lemma reachable1 : auth_reachable (state 1 db1).
Proof. exists (state 0 empty_db). split; [done|]. eapply rtc_l; [apply step1|apply rtc_refl]. Qed.

Lemma reachable2 : auth_reachable (state 2 db2).
Proof.
  exists (state 0 empty_db). split; [done|].
  eapply rtc_l; [apply step1|]. eapply rtc_l; [apply step2|apply rtc_refl].
Qed.

Lemma session_tables_consistent_witness : session_inv db2.
Proof. exact (session_tables_consistent (state 2 db2) reachable2). Defined.

Definition tokens2 : AuthTokens :=
  {| tk_access_token := draw 1 1; tk_access_expires_at := 1000 + minutes 15;
     tk_refresh_token := draw 1 0; tk_refresh_expires_at := 1000 + days 30;
     tk_user_id := new_id 0 0; tk_session_id := new_id 0 1 |}.

Lemma refresh2 : run_auth (env 1) db1 (refresh_session (draw 0 0)) = (db2, Ok tokens2).
Proof. unfold db2. vm_compute. reflexivity. Qed.

Lemma refresh_tokens_are_single_use_witness :
  (run_auth (env 2) db2 (refresh_session (draw 0 0))).2 = Err refresh_invalid
  /\ (forall s, au_auth_sessions db3 !! tk_session_id tokens2 = Some s -> ss_revoked_at s <> None)
  /\ (forall later header p, require_auth later db3 header = Some p ->
        pr_session_id p <> Some (tk_session_id tokens2))
  /\ (forall later other db' renewed,
        run_auth later db3 (refresh_session other) = (db', Ok renewed) ->
        tk_session_id renewed <> tk_session_id tokens2).
Proof.
  exact (refresh_tokens_are_single_use (env 1) (state 1 db1) (state 2 db2) (state 2 db2) (draw 0 0)
           tokens2 (env 2) (state 3 db3) reachable1 (env_fresh 1 db1 ltac:(lia)) remembers2 refresh2
           (rtc_refl _ _) eq_refl).
Defined.

(** Request 1 logs the administrator out instead. *)
Definition admin : Principal :=
  {| pr_user_id := new_id 0 0; pr_session_id := Some (new_id 0 1); pr_bootstrap := false |}.
Definition db_out : AuthDb := (run_auth (env 1) db1 (logout admin)).1.
Definition session_out : SessionRow :=
  revoke 1000 "user_logout" (new_session (env 0) (new_id 0 0) 5%N (new_id 0 2) (sha256 (draw 0 0))
    (1000 + days 30)).

Lemma reachable_out : auth_reachable (state 2 db_out).
Proof.
  exists (state 0 empty_db). split; [done|].
  eapply rtc_l; [apply step1|]. eapply rtc_l; [|apply rtc_refl].
  exists (env 1). split; [apply env_fresh; lia|]. split; [apply step_logout|].
  apply remembered.
  - vm_compute. repeat constructor; first [(exists 0, 0; vm_compute; split; [lia|reflexivity]) | (exists 0, 1; vm_compute; split; [lia|reflexivity])].
  - vm_compute. repeat constructor; first [(exists 0, 1; vm_compute; split; [lia|reflexivity]) | (exists 0, 2; vm_compute; split; [lia|reflexivity])].
Qed.

Lemma revoked_sessions_stay_dead_witness :
  (forall env header p, require_auth env db_out header = Some p -> pr_session_id p <> Some (new_id 0 1))
  /\ (forall env token db' tokens,
       run_auth env db_out (refresh_session token) = (db', Ok tokens) ->
       tk_session_id tokens <> new_id 0 1).
Proof.
  apply (revoked_sessions_stay_dead (state 2 db_out) (state 2 db_out) (new_id 0 1) session_out).
  - exact reachable_out.
  - vm_compute. reflexivity.
  - discriminate.
  - apply rtc_refl.
Defined.

(** ** Codes *)

Definition verifier : string := "0123456789012345678901234567890123456789012".
Definition code_row : NativeCodeRow :=
  {| nc_user_id := 3%N; nc_device_id := 5%N; nc_code_challenge := sha256 verifier;
     nc_expires_at := 2000; nc_consumed_at := None |}.
Definition code_db : AuthDb := set_native_codes {[sha256 "code" := code_row]} empty_db.
Definition code_request : NativeTokenRequest :=
  {| nt_code := "code"; nt_code_verifier := verifier; nt_device_id := 5%N |}.
Definition code_run : AuthDb * result ApiError AuthTokens :=
  run_auth (env 0) code_db (native_token code_request).

Lemma authorization_codes_are_single_use_witness :
  exists row tokens, code_run.2 = Ok tokens
  /\ au_native_codes code_db !! sha256 "code" = Some row /\ tk_user_id tokens = nc_user_id row
  /\ exists e, run_auth (env 1) code_run.1 (native_token code_request) = (code_run.1, Err e).
Proof.
  destruct code_run as [db r] eqn:Hrun.
  assert (exists tokens, r = Ok tokens) as [tokens ->].
  { assert (r = code_run.2) as -> by (by rewrite Hrun). vm_compute. by eexists. }
  destruct (authorization_codes_are_single_use (env 0) (state 0 code_db) code_request (state 1 db)
    (Ok tokens) (state 1 db) Hrun (or_intror (ex_intro _ tokens eq_refl)) (rtc_refl _ _))
    as [(row & Hl & _ & Hok) Hlater].
  destruct (Hok tokens eq_refl) as [Hu _].
  exists row, tokens. split_and!; [done|exact Hl|exact Hu|]. exact (Hlater (env 1) code_request eq_refl).
Defined.

Definition invitation : InvitationRow :=
  {| iv_email := "new@example.org"; iv_token_hash := sha256 "invite"; iv_invited_by := 3%N;
     iv_expires_at := 2000; iv_accepted_by := None; iv_accepted_at := None |}.
Definition invited_db : AuthDb := set_invitations {[4%N := invitation]} empty_db.
Definition accept_request : AcceptInvitationRequest :=
  {| ac_token := "invite"; ac_display_name := "New"; ac_password := "correct horse battery";
     ac_device_id := 6%N |}.
Definition accept_run : AuthDb * result ApiError AuthTokens :=
  run_auth (env 0) invited_db (accept_invitation accept_request).

Lemma invitations_are_single_use_witness :
  exists tokens, accept_run.2 = Ok tokens /\ is_Some (au_users accept_run.1 !! tk_user_id tokens)
  /\ exists e, run_auth (env 1) accept_run.1 (accept_invitation accept_request) = (accept_run.1, Err e).
Proof.
  destruct accept_run as [db r] eqn:Hrun.
  assert (exists tokens, r = Ok tokens) as [tokens ->].
  { assert (r = accept_run.2) as -> by (by rewrite Hrun). vm_compute. by eexists. }
  assert (invitations_unique invited_db) as Hu.
  { intros id id' row row' H1 H2. simpl in H1, H2.
    apply lookup_singleton_Some in H1 as [<- _], H2 as [<- _]. done. }
  destruct (invitations_are_single_use (env 0) (state 0 invited_db) accept_request (state 1 db)
    tokens (state 1 db) Hu Hrun (rtc_refl _ _))
    as [(id & row & hash & _ & _ & _ & _ & _ & _ & Hus) Hlater].
  exists tokens. split_and!; [done|by eexists|]. exact (Hlater (env 1) accept_request eq_refl).
Defined.

Definition totp_row : TotpRow :=
  {| tp_sealed := {| sv_ciphertext := "s"; sv_encrypted_data_key := ""; sv_nonce := "";
                     sv_wrap_nonce := "" |};
     tp_enabled := true; tp_last_used_step := None; tp_pending_expires_at := None;
     tp_enabled_at := Some 900%Z |}.
Definition factor_db : AuthDb :=
  set_recovery_codes
    {[9%N := {| rv_user_id := 3%N; rv_code_hash := sha256 "ABCDEFGHABCDEFGH"; rv_used_at := None |}]}
    (set_user_totp {[3%N := totp_row]} empty_db).
Definition factor_run : AuthDb * result ApiError unit :=
  run_auth (env 0) factor_db (verify_second_factor 3%N (Some "abcd-efgh-abcd-efgh")).

Lemma second_factor_is_used_up_witness :
  factor_run.2 = Ok tt
  /\ run_auth (env 1) factor_run.1 (verify_second_factor 3%N (Some "abcd-efgh-abcd-efgh"))
     = (factor_run.1, Err factor_refused).
Proof.
  destruct factor_run as [db r] eqn:Hrun.
  assert (r = Ok tt) as ->.
  { assert (r = factor_run.2) as -> by (by rewrite Hrun). vm_compute. done. }
  split; [done|].
  assert (recovery_unique factor_db) as Hu.
  { intros id id' row row' H1 H2. simpl in H1, H2.
    apply lookup_singleton_Some in H1 as [<- _], H2 as [<- _]. done. }
  destruct (second_factor_is_used_up (env 0) factor_db 3%N (Some "abcd-efgh-abcd-efgh") totp_row db
    eq_refl eq_refl Hu Hrun) as (code & Hc & _ & Hagain).
  apply Hagain. vm_compute in Hc. injection Hc as <-. by vm_compute.
Defined.

(** ** The browser boundary *)

Lemma browser_tokens_stay_in_cookie_witness :
  let out := browser_session_boundary "/api/v1/auth/login"
               [(BROWSER_SESSION_HEADER, BROWSER_SESSION_MODE)]
               {| rs_status := 200; rs_headers := []; rs_body := "full" |} in
  last (rs_headers out) = Some ("set-cookie", refresh_set_cookie "abc")
  /\ browser_refresh_token [("cookie", BROWSER_REFRESH_COOKIE +:+ "=" +:+ "abc")] = Some "abc".
Proof.
  intros out. unfold out.
  refine (proj2 (proj2 (browser_tokens_stay_in_cookie "/api/v1/auth/login"
    [(BROWSER_SESSION_HEADER, BROWSER_SESSION_MODE)]
    {| rs_status := 200; rs_headers := []; rs_body := "full" |}
    [("refresh_token", JString "abc"); ("user_id", JString "u")] "abc" _ _ _ _ _ _ _ _ _)));
    first [reflexivity | discriminate | vm_compute; reflexivity | vm_compute; discriminate].
Defined.
End AuthDemo.
