(* ===== verification/Demo.v ===== *)
(** * A small deployment

    Concrete tables, environments and requests the examples of the other files
    evaluate: one user with a quota, one project, one thread, one managed Windows
    executor. *)

From S2P Require Import Prelude.
From S2P Require Import Json.
From S2P Require Import Contracts.
From S2P Require Import Store.

(** The 32 hexadecimal digits of a UUID, hyphens ignored. *)
Fixpoint demo_hex (s : string) (digits : nat) (value : N) : option Uuid :=
  match s with
  | EmptyString => if Nat.eqb digits 32 then Some value else None
  | String c s' =>
      if (byte_of c =? 45)%N then demo_hex s' digits value
      else if in_byte_range 48 57 c then demo_hex s' (S digits) (16 * value + (byte_of c - 48))
      else if in_byte_range 97 102 c then demo_hex s' (S digits) (16 * value + (byte_of c - 87))
      else None
  end.

Definition demo_uuid_field (key : string) (v : Value) : option Uuid :=
  get_str key v ≫= fun s => demo_hex s 0 0.

Definition demo_target (v : Value) : result string ExecutorTarget :=
  ok_or "no executor target"
    (match get_str "kind" v with
     | Some "server_linux" =>
         match get "pool_id" v with
         | None | Some JNull => Some (ServerLinux None)
         | Some _ => ServerLinux ∘ Some <$> demo_uuid_field "pool_id" v
         end
     | Some "managed_windows_pool" => ManagedWindowsPool <$> demo_uuid_field "pool_id" v
     | Some "personal_device" => PersonalDevice <$> demo_uuid_field "device_id" v
     | _ => None
     end).

Definition demo_capabilities (v : Value) : result string (list Capability) :=
  ok_or "no capabilities"
    (match v with
     | JArray l => mapM as_str l
     | _ => None
     end).

(** The [k]-th request: its own clock reading and its own identifiers. *)
Definition demo_env (k : N) : Env :=
  {| db_now := (1000000000 + Z.of_N k * 1000000)%Z;
     app_now := (1000000000 + Z.of_N k * 1000000)%Z;
     new_v4 := fun n => (1000 + k * 100 + N.of_nat n)%N;
     row_locked := fun _ => false;
     rfc3339 := fun t => pretty t;
     first_of_month := fun t => (t / 2592000000000)%Z;
     f64_repr := fun z => pretty z;
     pg_column_size := fun _ => 64%Z;
     parse_uuid := fun s => demo_hex s 0 0;
     from_timestamp_millis := fun ms => Some (ms * 1000)%Z;
     cron_error := fun _ => None;
     parse_timezone := fun s => if String.eqb s "UTC" then Some s else None;
     cron_next := fun _ _ t => Some (t + 60000000)%Z;
     decode_target := demo_target;
     decode_capabilities := demo_capabilities |}.

Definition demo_project : ProjectRow :=
  {| pr_revision := 1; pr_etag := ""; pr_owner_user_id := 1%N; pr_team_id := None;
     pr_privacy := TeamManaged;
     pr_name := "demo"; pr_description := ""; pr_preferred_executor_target := None;
     pr_policy := JObject []; pr_current_version_id := None; pr_created_at := 0;
     pr_updated_at := 0; pr_deleted_at := None |}.

Definition demo_thread : ThreadRow :=
  {| th_revision := 1; th_etag := ""; th_project_id := 20%N; th_created_by := 1%N; th_title := "demo";
     th_created_at := 0; th_updated_at := 0; th_deleted_at := None |}.

Definition demo_limits : LimitsRow :=
  {| ql_storage_bytes := None; ql_concurrent_runs := Some 2%Z;
     ql_monthly_tokens := Some 1000%Z; ql_monthly_cost_micros := None;
     ql_hard_cost_limit := false; ql_updated_at := 0 |}.

Definition demo_registration : ExecutorRegistration :=
  {| reg_schema_version := 1; reg_executor_id := 40%N; reg_kind := KManagedWindows;
     reg_pool_id := Some 50%N; reg_owner_user_id := None; reg_display_name := "win-1";
     reg_protocol_version := 1; reg_capabilities := []; reg_labels := [];
     reg_personal_device_remote_control := None; reg_max_concurrent_runs := 1 |}.

Definition demo_executor : ExecutorRow :=
  {| exw_kind := KManagedWindows; exw_pool_id := Some 50%N; exw_owner_user_id := None;
     exw_registration := demo_registration; exw_protocol_version := 1;
     exw_max_concurrent_runs := 1; exw_active_runs := 0; exw_draining := false;
     exw_last_seen_at := 1000000000; exw_updated_at := 0 |}.

Definition demo_db : Db :=
  {| runs := ∅; run_events := ∅; executors := {[ 40%N := demo_executor ]};
     run_checkpoints := ∅; approval_requests := ∅; run_input_requests := ∅; messages := ∅;
     threads := {[ 30%N := demo_thread ]}; projects := {[ 20%N := demo_project ]};
     project_versions := ∅; snapshot_manifests := ∅;
     quota_limits := {[ ("user", 1%N) := demo_limits ]}; quota_usage := ∅;
     push_subscriptions := ∅; push_deliveries := ∅; sync_entities := ∅; sync_changes := [];
     sync_materializations := ∅; users := ∅; task_definitions := ∅; schedules := ∅;
     provider_profiles := ∅; executor_pools := ∅; pool_project_grants := ∅; team_members := ∅;
     sync_operations := ∅; sync_device_cursors := ∅; sync_sequence := 0;
     project_members := ∅; support_grants := ∅; server_mcp_bindings := ∅;
     audit_events := ∅; snapshot_chunks := ∅; snapshot_manifest_chunks := ∅;
     snapshot_chunk_reservations := ∅; run_artifacts := ∅ |}.

Definition demo_spec (id : Uuid) (key : string) (target : ExecutorTarget) : RunSpec :=
  {| spec_schema_version := SCHEMA_VERSION; spec_id := id; spec_thread_id := 30%N;
     spec_project_id := 20%N; spec_project := {| ref_id := 20%N; ref_revision := 1 |};
     spec_project_privacy := TeamManaged; spec_task := None; spec_creator_user_id := 1%N;
     spec_executor_target := target; spec_required_capabilities := [];
     spec_input := JObject []; spec_model_profile_id := None; spec_snapshot_id := None;
     spec_idempotency_key := key; spec_created_at := Z.of_N id |}.

Definition server_target : ExecutorTarget := ServerLinux None.
Definition pool_target : ExecutorTarget := ManagedWindowsPool 50%N.
