(* ===== verification/Governance.v ===== *)
(** * Quotas (server/cowork-server/src/governance.rs)

    The checks a run creation and a model call pass, and the accounting of model
    usage, for the user scope and the team scope of a run. The advisory lock of
    [lock_quota] has no data of its own: a transaction of the model is atomic. *)

From S2P Require Import Prelude.
From S2P Require Import Json.
From S2P Require Import Contracts.
From S2P Require Import Store.

Inductive QuotaScopeType : Type :=
| ScopeUser
| ScopeTeam.

#[global] Instance QuotaScopeType_eq_dec : EqDecision QuotaScopeType.
Proof. solve_decision. Defined.

Definition quota_scope_name (scope : QuotaScopeType) : string :=
  match scope with
  | ScopeUser => "user"
  | ScopeTeam => "team"
  end.

Definition parse_quota_scope (value : string) : result ApiError QuotaScopeType :=
  if String.eqb value "user" then Ok ScopeUser
  else if String.eqb value "team" then Ok ScopeTeam
  else Err (NotFound ("quota scope " +:+ value +:+ " was not found")).

Abbreviation Scope := (QuotaScopeType * Uuid)%type (only parsing).

(** The scopes of a user working in a project with this team. *)
Definition scopes_of (user_id : Uuid) (team_id : option Uuid) : list Scope :=
  (ScopeUser, user_id) :: match team_id with
                          | Some t => [(ScopeTeam, t)]
                          | None => []
                          end.

(** Whether a run counts against a scope's concurrent-run quota. *)
Definition run_counts_for (db : Db) (scope : Scope) (r : RunRow) : bool :=
  negb (is_terminal (run_state r)) &&
  match scope with
  | (ScopeUser, u) => bool_decide (ins_creator_user_id (run_ins r) = u)
  | (ScopeTeam, t) =>
      match projects db !! ins_project_id (run_ins r) with
      | Some p => bool_decide (pr_team_id p = Some t)
      | None => false
      end
  end.

(** [SELECT count] of the scope's runs that are not terminal *)
Definition running_runs (db : Db) (scope : Scope) : Z :=
  Z.of_nat (size (filter (fun kv => run_counts_for db scope kv.2 = true) (runs db))).

Definition scope_limits (db : Db) (scope : Scope) : option LimitsRow :=
  quota_limits db !! (quota_scope_name scope.1, scope.2).

Definition concurrent_limit (db : Db) (scope : Scope) : option Z :=
  scope_limits db scope ≫= ql_concurrent_runs.

Definition enforce_run_scope (scope : Scope) : Tx unit :=
  db ← get_db;
  match concurrent_limit db scope with
  | None => mret tt
  | Some limit =>
      reject_if (bool_decide (limit ≤ running_runs db scope)%Z)
        (Quota (quota_scope_name scope.1 +:+ " concurrent run quota of "
                +:+ pretty limit +:+ " is exhausted"))
  end.

Definition live_project (db : Db) (project_id : Uuid) : option ProjectRow :=
  match projects db !! project_id with
  | Some p => match pr_deleted_at p with None => Some p | Some _ => None end
  | None => None
  end.

Definition enforce_run_quota_tx (user_id project_id : Uuid) : Tx unit :=
  db ← get_db;
  project ← require (live_project db project_id) (Database RowNotFound);
  tx_iter enforce_run_scope (scopes_of user_id (pr_team_id project)).

(** ** Storage quota *)

Definition manifest_bytes (env : Env) (db : Db) (scope_type : string) (scope_id : Uuid) : Z :=
  map_fold (fun _ m acc =>
    if bool_decide (mf_key_scope_type m = scope_type)
       && bool_decide (mf_key_scope_id m = scope_id)
       && (bool_decide (mf_status m = "uploading") || bool_decide (mf_status m = "ready"))
       && match mf_expires_at m with
          | None => true
          | Some t => bool_decide (db_now env < t)%Z
          end
    then (acc + mf_total_bytes m)%Z else acc) 0%Z (snapshot_manifests db).

Definition synced_bytes (env : Env) (db : Db) (user_id : Uuid) : Z :=
  map_fold (fun key e acc =>
    if bool_decide (key.1.1 = user_id) && negb (se_tombstone e)
    then match se_payload e with
         | Some p => (acc + pg_column_size env p)%Z
         | None => acc
         end
    else acc) 0%Z (sync_entities db).

Definition enforce_storage_quota_tx (scope_type : string) (scope_id : Uuid)
    (additional_bytes : Z) : Tx unit :=
  scope ← lift (parse_quota_scope scope_type);
  db ← get_db;
  env ← ask;
  match quota_limits db !! (scope_type, scope_id) ≫= ql_storage_bytes with
  | None => mret tt
  | Some limit =>
      manifests ← sql_bigint (manifest_bytes env db scope_type scope_id);
      entities ← sql_bigint (if String.eqb scope_type "user"
                             then synced_bytes env db scope_id else 0);
      used ← sql_bigint (manifests + entities);
      requested ← (if in_i64 additional_bytes then mret additional_bytes
                   else fail (Unprocessable "snapshot size is too large"));
      reject_if (bool_decide (limit < sat_add_i64 used requested)%Z)
        (Quota (quota_scope_name scope +:+ " storage quota of " +:+ pretty limit
                +:+ " bytes would be exceeded"))
  end.

(** ** Model usage *)

(** [current_period_start()] *)
Definition current_period_start (env : Env) : Z := first_of_month env (app_now env).

Definition run_quota_scopes_tx (run_id : Uuid) : Tx (list Scope) :=
  db ← get_db;
  row ← require
    (match runs db !! run_id with
     | Some r => match projects db !! ins_project_id (run_ins r) with
                 | Some p => Some (r, p)
                 | None => None
                 end
     | None => None
     end)
    (NotFound ("run " +:+ uuid_to_string run_id +:+ " was not found"));
  mret (scopes_of (ins_creator_user_id (run_ins row.1)) (pr_team_id row.2)).

Definition usage_of (db : Db) (scope : Scope) (period : Z) : option UsageRow :=
  quota_usage db !! (quota_scope_name scope.1, scope.2, period).

Definition exhausted (limit : option Z) (used : Z) : bool :=
  match limit with
  | Some l => bool_decide (l ≤ used)%Z
  | None => false
  end.

Definition ensure_model_scope (period : Z) (scope : Scope) : Tx unit :=
  db ← get_db;
  match scope_limits db scope with
  | None => mret tt
  | Some row =>
      let usage := usage_of db scope period in
      let tokens := from_option qu_tokens 0%Z usage in
      let cost := from_option qu_cost_micros 0%Z usage in
      _ ← reject_if (exhausted (ql_monthly_tokens row) tokens)
            (Quota (quota_scope_name scope.1 +:+ " monthly token quota is exhausted"));
      reject_if (ql_hard_cost_limit row && exhausted (ql_monthly_cost_micros row) cost)
        (Quota (quota_scope_name scope.1 +:+ " monthly cost quota is exhausted"))
  end.

Definition ensure_model_quota_for_run_tx (run_id : Uuid) : Tx unit :=
  scopes ← run_quota_scopes_tx run_id;
  env ← ask;
  tx_iter (ensure_model_scope (current_period_start env)) scopes.

(** INSERT ... ON CONFLICT (scope_type, scope_id, period_start) DO UPDATE *)
Definition add_usage (period tokens cost : Z) (scope : Scope) : Tx unit :=
  db ← get_db;
  env ← ask;
  let key := (quota_scope_name scope.1, scope.2, period) in
  match quota_usage db !! key with
  | None =>
      modify (fun db => set_quota_usage
        (<[key := {| qu_tokens := tokens; qu_cost_micros := cost;
                     qu_updated_at := db_now env |}]> (quota_usage db)) db)
  | Some u =>
      t ← sql_bigint (qu_tokens u + tokens);
      c ← sql_bigint (qu_cost_micros u + cost);
      modify (fun db => set_quota_usage
        (<[key := {| qu_tokens := t; qu_cost_micros := c;
                     qu_updated_at := db_now env |}]> (quota_usage db)) db)
  end.

Definition record_model_usage_for_run_tx (run_id : Uuid) (tokens cost_micros : Z) : Tx unit :=
  scopes ← run_quota_scopes_tx run_id;
  env ← ask;
  t ← (if in_i64 tokens then mret tokens else fail (Internal "token count out of range"));
  c ← (if in_i64 cost_micros then mret cost_micros else fail (Internal "cost out of range"));
  tx_iter (add_usage (current_period_start env) t c) scopes.

(** ** What the checks leave alone and establish *)

(** Two databases that differ at most in their usage counters. *)
Definition same_but_usage (d d' : Db) : Prop := d' = set_quota_usage (quota_usage d') d.

Lemma tx_iter_pure {A} env (f : A -> Tx unit) l s :
  (forall x, x ∈ l -> forall s', f x env s = Ok (tt, s') -> s' = s) ->
  forall u s', tx_iter f l env s = Ok (u, s') ->
  s' = s /\ forall x, x ∈ l -> f x env s = Ok (tt, s).
Proof.
  induction l as [|x l IH]; intros Hf u s' H; simpl in H.
  { injection H as <- <-. split; [done|]. set_solver. }
  unfold mbind, tx_bind in H. destruct (f x env s) as [[[] s1]|] eqn:Hx; [|done].
  assert (s1 = s) as -> by (apply (Hf x); [set_solver|done]).
  destruct (fun Hl => IH Hl u s' H) as [-> Hall].
  { intros y Hy. apply Hf. set_solver. }
  split; [done|]. intros y [->|Hy]%elem_of_cons; auto.
Qed.

Lemma enforce_run_scope_Ok env scope s u s' :
  enforce_run_scope scope env s = Ok (u, s') ->
  s' = s /\ forall limit, concurrent_limit (tx_db s) scope = Some limit ->
    (running_runs (tx_db s) scope < limit)%Z.
Proof.
  unfold enforce_run_scope. intros H. tx_inv H.
  destruct (concurrent_limit (tx_db s) scope) as [limit|]; tx_inv H; [|done].
  split; [done|]. intros ? [= <-]. case_bool_decide; [done|lia].
Qed.

(** What a passed check says: the tables are unchanged and every scope with a
    limit has room for one more run. *)
Lemma enforce_run_quota_tx_Ok env user_id project_id s u s' :
  enforce_run_quota_tx user_id project_id env s = Ok (u, s') ->
  s' = s /\ exists p, live_project (tx_db s) project_id = Some p /\
    forall scope, scope ∈ scopes_of user_id (pr_team_id p) ->
    forall limit, concurrent_limit (tx_db s) scope = Some limit ->
    (running_runs (tx_db s) scope < limit)%Z.
Proof.
  unfold enforce_run_quota_tx. intros H. tx_inv H.
  apply tx_iter_pure in H as [-> Hall].
  - split; [done|]. eexists. split; [done|]. intros scope Hin.
    by apply Hall, enforce_run_scope_Ok in Hin as [_ ?].
  - intros scope Hin s1 Hs. by apply enforce_run_scope_Ok in Hs as [-> _].
Qed.
