(* ===== verification/SyncPublish.v ===== *)
(** * Publication of canonical rows to the sync log (server/cowork-server/src/sync.rs)

    When the server writes a chat message, it republishes the message, its thread
    and its project to the owner's devices: an entity row with the next revision
    and a change-log entry, unless the payload is unchanged. Only private local
    projects are published. *)

From S2P Require Import Prelude.
From S2P Require Import Json.
From S2P Require Import Contracts.
From S2P Require Import Store.
From S2P Require Import Governance.

Definition MAX_SYNC_PAYLOAD_BYTES : Z := 512 * 1024.

Definition ALLOWED_ENTITY_TYPES : list string :=
  ["project"; "thread"; "message"; "task"; "schedule"; "run"; "crew"; "skill";
   "memory"; "provider_profile"; "secret_metadata"; "mcp_metadata"].

Definition validate_entity_type (entity_type : string) : result ApiError unit :=
  if str_mem entity_type ALLOWED_ENTITY_TYPES then Ok tt
  else Err (Unprocessable ("unsupported sync entity type " +:+ entity_type)).

(** ** Bounded message text *)

(** [str::is_char_boundary]: the byte at this index does not continue a character. *)
Definition is_continuation (c : ascii) : bool := in_byte_range 128 191 c.

Definition is_char_boundary (s : string) (i : nat) : bool :=
  match i with
  | O => true
  | S _ =>
      if Nat.eqb i (String.length s) then true else
      match String.get i s with
      | Some c => negb (is_continuation c)
      | None => false
      end
  end.

(** The loop that walks the cut back to a character boundary. *)
Fixpoint boundary_below (s : string) (boundary : nat) : nat :=
  match boundary with
  | O => O
  | S b => if is_char_boundary s boundary then boundary else boundary_below s b
  end.

Definition message_text (env : Env) (content : Value) : string :=
  match content with
  | JString value => value
  | JObject object =>
      match map_str "text" object with
      | Some t => t
      | None =>
          match map_str "response" object with
          | Some t => t
          | None =>
              match map_str "output" object with
              | Some t => t
              | None =>
                  match map_str "message" object with
                  | Some t => t
                  | None => print_value (f64_repr env) content
                  end
              end
          end
      end
  | _ => print_value (f64_repr env) content
  end.

Definition bounded_text (text : string) (maximum_bytes : nat) : string * bool :=
  if Nat.leb (String.length text) maximum_bytes then (text, false)
  else (String.substring 0 (boundary_below text maximum_bytes) text, true).

Definition bounded_message_text (env : Env) (content : Value) (maximum_bytes : nat)
    : string * bool :=
  bounded_text (message_text env content) maximum_bytes.

(** ** The sync log *)

Definition json_len (env : Env) (v : Value) : Z := str_len (print_value (f64_repr env) v).

(** [INSERT INTO sync_entities ... ON CONFLICT DO UPDATE] *)
Definition put_sync_entity (user_id : Uuid) (entity_type : string) (entity_id : Uuid)
    (revision : Z) (payload : option Value) (tombstone : bool) : Tx unit :=
  env ← ask;
  modify (fun db => set_sync_entities
    (<[(user_id, entity_type, entity_id) :=
        {| se_revision := revision; se_etag := version_etag entity_id revision;
           se_payload := payload; se_tombstone := tombstone;
           se_updated_at := db_now env |}]> (sync_entities db)) db).

(** [INSERT INTO sync_changes]: the cursor is the next value of its sequence. *)
Definition append_sync_change (user_id : Uuid) (entity_type : string) (entity_id : Uuid)
    (revision : Z) (operation : string) (payload : option Value) : Tx unit :=
  env ← ask;
  db ← get_db;
  cursor ← sql_bigint (sync_sequence db + 1);
  _ ← modify (set_sync_sequence cursor);
  modify (fun db => set_sync_changes
    (sync_changes db ++
      [{| sc_cursor := cursor; sc_user_id := user_id; sc_entity_type := entity_type;
          sc_entity_id := entity_id; sc_revision := revision; sc_operation := operation;
          sc_payload := payload; sc_created_at := db_now env |}]) db).

(** The two statements of a publication: the row and its log entry. *)
Definition write_entity_version (user_id : Uuid) (entity_type : string) (entity_id : Uuid)
    (revision : Z) (operation : string) (payload : option Value) : Tx unit :=
  _ ← put_sync_entity user_id entity_type entity_id revision payload
        (String.eqb operation "delete");
  append_sync_change user_id entity_type entity_id revision operation payload.

Definition publish_server_entity_tx (user_id : Uuid) (entity_type : string)
    (entity_id : Uuid) (payload : Value) : Tx unit :=
  _ ← lift (validate_entity_type entity_type);
  env ← ask;
  let payload_bytes := json_len env payload in
  _ ← reject_if (bool_decide (MAX_SYNC_PAYLOAD_BYTES < payload_bytes)%Z)
        (Unprocessable ("projected sync payload must not exceed "
                        +:+ pretty MAX_SYNC_PAYLOAD_BYTES +:+ " bytes"));
  db ← get_db;
  let key := (user_id, entity_type, entity_id) in
  let current := sync_entities db !! key in
  if match current with
     | Some row => negb (se_tombstone row) && bool_decide (se_payload row = Some payload)
     | None => false
     end
  then mret tt
  else
    let current_revision := from_option se_revision 0%Z current in
    let current_bytes :=
      match current ≫= se_payload with
      | Some v => json_len env v
      | None => 0%Z
      end in
    _ ← enforce_storage_quota_tx "user" user_id (Z.max 0 (payload_bytes - current_bytes));
    revision ← sql_bigint (current_revision + 1);
    write_entity_version user_id entity_type entity_id revision "upsert" (Some payload).

Definition remember_materialization (user_id : Uuid) (entity_type : string)
    (entity_id : Uuid) : Tx unit :=
  env ← ask;
  modify (fun db =>
    let key := (user_id, entity_type, entity_id) in
    let created := from_option fst (db_now env) (sync_materializations db !! key) in
    set_sync_materializations
      (<[key := (created, db_now env)]> (sync_materializations db)) db).

Definition not_deleted (d : option DateTime) : bool :=
  match d with
  | None => true
  | Some _ => false
  end.

(** [ORDER BY created_at, id] over the project's live threads *)
Definition thread_before (a b : Uuid * ThreadRow) : Prop :=
  (th_created_at a.2 < th_created_at b.2)%Z
  \/ (th_created_at a.2 = th_created_at b.2 /\ (a.1 ≤ b.1)%N).

#[global] Instance thread_before_dec a b : Decision (thread_before a b).
Proof. unfold thread_before. solve_decision. Defined.

Definition project_thread_ids (db : Db) (project_id : Uuid) : list Uuid :=
  (merge_sort thread_before
    (filter (fun kv => th_project_id kv.2 = project_id /\ th_deleted_at kv.2 = None)
      (map_to_list (threads db)))).*1.

Definition publish_canonical_project_tx (project_id : Uuid) : Tx bool :=
  db ← get_db;
  env ← ask;
  match live_project db project_id with
  | None => mret false
  | Some p =>
      if bool_decide (pr_privacy p ≠ PrivateLocal) then mret false
      else
        let payload := json_obj
          [("title", JString (pr_name p));
           ("instructions", JString (pr_description p));
           ("thread_ids", JArray (juuid <$> project_thread_ids db project_id));
           ("project_kind", JString "private");
           ("files_location", JString "personal_device");
           ("preferred_executor_target", jopt id (pr_preferred_executor_target p));
           ("policy", pr_policy p);
           ("created_at", JString (rfc3339 env (pr_created_at p)));
           ("updated_at", JString (rfc3339 env (pr_updated_at p)));
           ("source", JString "server")] in
        _ ← publish_server_entity_tx (pr_owner_user_id p) "project" project_id payload;
        _ ← remember_materialization (pr_owner_user_id p) "project" project_id;
        mret true
  end.

(** A live thread together with its live project: the JOIN of the publications. *)
Definition live_thread_project (db : Db) (thread_id : Uuid) : option (ThreadRow * ProjectRow) :=
  match threads db !! thread_id with
  | Some t =>
      if not_deleted (th_deleted_at t) then
        match live_project db (th_project_id t) with
        | Some p => Some (t, p)
        | None => None
        end
      else None
  | None => None
  end.

Definition publish_canonical_thread_tx (thread_id : Uuid) : Tx bool :=
  db ← get_db;
  env ← ask;
  match live_thread_project db thread_id with
  | None => mret false
  | Some (t, p) =>
      if bool_decide (pr_privacy p ≠ PrivateLocal) then mret false
      else
        _ ← publish_canonical_project_tx (th_project_id t);
        let payload := json_obj
          [("title", JString (th_title t));
           ("provider_settings", JObject []);
           ("runner", JString "model");
           ("crew_id", JNull);
           ("created_at", JString (rfc3339 env (th_created_at t)));
           ("updated_at", JString (rfc3339 env (th_updated_at t)));
           ("source", JString "server")] in
        _ ← publish_server_entity_tx (pr_owner_user_id p) "thread" thread_id payload;
        _ ← remember_materialization (pr_owner_user_id p) "thread" thread_id;
        mret true
  end.

Definition publish_canonical_message_tx (message_id : Uuid) : Tx bool :=
  db ← get_db;
  env ← ask;
  match messages db !! message_id with
  | None => mret false
  | Some m =>
      if negb (not_deleted (mr_deleted_at m)) then mret false else
      match live_thread_project db (mr_thread_id m) with
      | None => mret false
      | Some (_, p) =>
          if bool_decide (pr_privacy p ≠ PrivateLocal) then mret false
          else
            _ ← publish_canonical_thread_tx (mr_thread_id m);
            let '(text, truncated) :=
              bounded_message_text env (mr_content m) (Z.to_nat 200000) in
            let payload := json_obj
              [("thread_id", juuid (mr_thread_id m));
               ("role", JString (message_role_name (mr_role m)));
               ("content", JString text);
               ("content_truncated", JBool truncated);
               ("timestamp", jint (mr_created_at m / 1000));
               ("attachment_descriptors", JArray []);
               ("durable_run_id", jopt juuid (mr_run_id m));
               ("source", JString "server")] in
            _ ← publish_server_entity_tx (pr_owner_user_id p) "message" message_id payload;
            _ ← remember_materialization (pr_owner_user_id p) "message" message_id;
            mret true
      end
  end.

(** ** Tombstones *)

Definition publish_server_tombstone_tx (user_id : Uuid) (entity_type : string)
    (entity_id : Uuid) : Tx unit :=
  _ ← lift (validate_entity_type entity_type);
  db ← get_db;
  let current := sync_entities db !! (user_id, entity_type, entity_id) in
  if from_option se_tombstone false current then mret tt
  else
    revision ← sql_bigint (from_option se_revision 0%Z current + 1);
    _ ← write_entity_version user_id entity_type entity_id revision "delete" None;
    remember_materialization user_id entity_type entity_id.

(** ** Tasks, schedules and provider profiles *)

Definition newer_task (a b : Z * TaskRow) : Prop := (b.1 ≤ a.1)%Z.

#[global] Instance newer_task_dec a b : Decision (newer_task a b).
Proof. unfold newer_task. apply _. Defined.

(** [ORDER BY revision DESC] over the revisions of a task that satisfy a test. *)
Definition task_revisions (p : TaskRow -> bool) (db : Db) (task_id : Uuid) : list (Z * TaskRow) :=
  merge_sort newer_task
    (omap (fun kv => if bool_decide (kv.1.1 = task_id) && p kv.2 then Some (kv.1.2, kv.2) else None)
          (map_to_list (task_definitions db))).

Definition publish_canonical_task_tx (task_id : Uuid) : Tx bool :=
  db ← get_db;
  env ← ask;
  let candidates := task_revisions
    (fun t => not_deleted (td_deleted_at t)
              && bool_decide (is_Some (live_project db (td_project_id t)))) db task_id in
  match head candidates with
  | None => mret false
  | Some (revision, t) =>
      match live_project db (td_project_id t) with
      | None => mret false
      | Some p =>
          if bool_decide (pr_privacy p ≠ PrivateLocal) then mret false
          else
            let metadata := get "sync_metadata" (td_config t) ≫= as_object in
            let metadata_value key := from_option id JNull (metadata ≫= map_get key) in
            let metadata_str key default :=
              from_option id default (metadata ≫= map_str key) in
            let payload := json_obj
              [("task_kind", JString (metadata_str "task_kind" "work"));
               ("title", JString (td_name t));
               ("description", JString (td_instructions t));
               ("expected_output", metadata_value "expected_output");
               ("project_id", juuid (td_project_id t));
               ("thread_id", metadata_value "thread_id");
               ("runner", JString (metadata_str "runner" "model"));
               ("crew_id", metadata_value "crew_id");
               ("model", metadata_value "model");
               ("backend_selection", metadata_value "backend_selection");
               ("schedule_expression", metadata_value "schedule_expression");
               ("schedule_enabled", metadata_value "schedule_enabled");
               ("status", metadata_value "status");
               ("note", metadata_value "note");
               ("required_capabilities", td_required_capabilities t);
               ("default_executor_target", jopt id (td_default_executor_target t));
               ("released", JBool (td_released t));
               ("canonical_revision", jint revision);
               ("created_at", JString (rfc3339 env (td_created_at t)));
               ("source", JString "server")] in
            _ ← publish_server_entity_tx (pr_owner_user_id p) "task" task_id payload;
            _ ← remember_materialization (pr_owner_user_id p) "task" task_id;
            mret true
      end
  end.

Definition publish_canonical_schedule_tx (schedule_id : Uuid) : Tx bool :=
  db ← get_db;
  env ← ask;
  match schedules db !! schedule_id with
  | None => mret false
  | Some h =>
      if negb (not_deleted (sh_deleted_at h)) then mret false else
      match live_project db (sh_project_id h) with
      | None => mret false
      | Some p =>
          if bool_decide (pr_privacy p ≠ PrivateLocal) then mret false
          else
            let time t := JString (rfc3339 env t) in
            let payload := json_obj
              [("task_id", juuid (sh_task_id h));
               ("project_id", juuid (sh_project_id h));
               ("thread_id", juuid (sh_thread_id h));
               ("cron", JString (sh_cron_expression h));
               ("timezone", JString (sh_timezone h));
               ("executor_target", sh_executor_target h);
               ("input", sh_input h);
               ("model_profile_id", jopt juuid (sh_model_profile_id h));
               ("enabled", JBool (sh_enabled h));
               ("next_run_at", jopt time (sh_next_run_at h));
               ("last_triggered_at", jopt time (sh_last_triggered_at h));
               ("blocked_reason", jopt JString (sh_blocked_reason h));
               ("canonical_revision", jint (sh_revision h));
               ("created_at", time (sh_created_at h));
               ("updated_at", time (sh_updated_at h));
               ("source", JString "server")] in
            _ ← publish_server_entity_tx (pr_owner_user_id p) "schedule" schedule_id payload;
            _ ← remember_materialization (pr_owner_user_id p) "schedule" schedule_id;
            mret true
      end
  end.

Definition provider_profile_sync_payload (f : ProfileRow) : Value :=
  let value key := from_option id JNull (get key (pf_model_defaults f)) in
  json_obj
    [("name", JString (pf_name f));
     ("provider", JString "openai-compatible");
     ("provider_kind", JString (pf_provider_kind f));
     ("preset", value "preset");
     ("auth_mode", value "auth_mode");
     ("model", value "model");
     ("timeout_ms", value "timeout_ms");
     ("verify_tls_certificates", value "verify_tls_certificates");
     ("context_window", value "context_window");
     ("temperature", value "temperature");
     ("endpoint_binding", value "endpoint_binding");
     ("has_api_key", JBool (bool_decide (is_Some (pf_secret f))));
     ("canonical_revision", jint (pf_revision f));
     ("source", JString "server")].

(** [SELECT user_id FROM team_members WHERE team_id = $1 ORDER BY user_id] *)
Definition members_of (db : Db) (team_id : Uuid) : list Uuid :=
  merge_sort N.le
    (omap (fun kv => if bool_decide (kv.1.1 = team_id) then Some kv.1.2 else None)
          (map_to_list (team_members db))).

Definition live_profile (db : Db) (profile_id : Uuid) : option ProfileRow :=
  match provider_profiles db !! profile_id with
  | Some f => if not_deleted (pf_deleted_at f) then Some f else None
  | None => None
  end.

Definition publish_canonical_provider_profile_tx (profile_id : Uuid) : Tx bool :=
  db ← get_db;
  match live_profile db profile_id with
  | None => mret false
  | Some f =>
      let payload := provider_profile_sync_payload f in
      _ ← match pf_owner_user_id f, pf_team_id f with
          | Some user_id, _ =>
              _ ← publish_server_entity_tx user_id "provider_profile" profile_id payload;
              remember_materialization user_id "provider_profile" profile_id
          | None, Some team_id =>
              tx_iter (fun user_id =>
                  publish_server_entity_tx user_id "provider_profile" profile_id payload)
                (members_of db team_id)
          | None, None => mret tt
          end;
      mret true
  end.

(** The live profiles of a team, in the order of their identifiers. *)
Definition team_profile_ids (db : Db) (team_id : Uuid) : list Uuid :=
  ids_where (fun _ f => bool_decide (pf_team_id f = Some team_id) && not_deleted (pf_deleted_at f))
    (provider_profiles db).

Definition publish_team_provider_profiles_for_user_tx (team_id user_id : Uuid) : Tx unit :=
  db ← get_db;
  tx_iter (fun profile_id =>
      match provider_profiles db !! profile_id with
      | Some f => publish_server_entity_tx user_id "provider_profile" profile_id
                    (provider_profile_sync_payload f)
      | None => mret tt
      end) (team_profile_ids db team_id).

Definition publish_team_provider_profile_tombstones_for_user_tx (team_id user_id : Uuid)
    : Tx unit :=
  db ← get_db;
  tx_iter (publish_server_tombstone_tx user_id "provider_profile") (team_profile_ids db team_id).

Definition publish_provider_profile_tombstones_tx (profile_id : Uuid)
    (owner_user_id team_id : option Uuid) : Tx unit :=
  match owner_user_id, team_id with
  | Some user_id, _ => publish_server_tombstone_tx user_id "provider_profile" profile_id
  | None, Some team_id =>
      db ← get_db;
      tx_iter (fun user_id => publish_server_tombstone_tx user_id "provider_profile" profile_id)
        (members_of db team_id)
  | None, None => mret tt
  end.
