(* ===== verification/RunStore.v ===== *)
(** * The run store (server/cowork-server/src/db.rs)

    Durable runs, their event log, executors and leases: every function of the
    module that reads or writes runs, as a transaction over the tables of Store.
    A function of the source that opens and commits its own transaction is here
    the transaction's body; [run_tx] commits it. *)

From S2P Require Import Prelude.
From S2P Require Import Json.
From S2P Require Import Contracts.
From S2P Require Import Store.
From S2P Require Import Governance.
From S2P Require Import SyncPublish.

Definition TERMINAL_STATES : list RunState := [Completed; Failed; Canceled; Expired].

(** ** Rows and records *)

Definition target_columns (target : ExecutorTarget) : string * option Uuid * option Uuid :=
  match target with
  | ServerLinux pool_id => ("server_linux", pool_id, None)
  | ManagedWindowsPool pool_id => ("managed_windows_pool", Some pool_id, None)
  | PersonalDevice device_id => ("personal_device", None, Some device_id)
  end.

Definition row_to_run (row : RunRow) : RunRecord :=
  let spec := ins_spec (run_ins row) in
  {| rec_spec := spec;
     rec_state := run_state row;
     rec_revision := run_revision row;
     rec_etag := version_etag (spec_id spec) (run_revision row);
     rec_assigned_executor_id := run_assigned_executor_id row;
     rec_lease_expires_at := run_lease_expires_at row;
     rec_started_at := run_started_at row;
     rec_finished_at := run_finished_at row;
     rec_result := run_result row;
     rec_error := run_error row;
     rec_updated_at := run_updated_at row |}.

Definition row_to_event (event_id : Uuid) (row : EventRow) : RunEvent :=
  {| ev_schema_version := SCHEMA_VERSION;
     ev_run_id := evr_run_id row;
     ev_sequence := evr_sequence row;
     ev_event_id := event_id;
     ev_kind := evr_kind row;
     ev_payload := evr_payload row;
     ev_created_at := evr_created_at row |}.

Definition row_to_message (id : Uuid) (row : MessageRow) : MessageRecord :=
  {| msg_schema_version := SCHEMA_VERSION;
     msg_id := id;
     msg_revision := mr_revision row;
     msg_etag := mr_etag row;
     msg_thread_id := mr_thread_id row;
     msg_author_user_id := mr_author_user_id row;
     msg_role := mr_role row;
     msg_content := mr_content row;
     msg_run_id := mr_run_id row;
     msg_created_at := mr_created_at row;
     msg_updated_at := mr_updated_at row;
     msg_deleted_at := mr_deleted_at row |}.

(** An [active_runs] that does not fit in 16 bits is an internal error. *)
Definition row_to_executor (env : Env) (row : ExecutorRow) : result ApiError ExecutorRecord :=
  if in_u16 (exw_active_runs row) then
    Ok {| exr_registration := exw_registration row;
          exr_online := bool_decide (app_now env - seconds 60 < exw_last_seen_at row)%Z;
          exr_draining := exw_draining row;
          exr_active_runs := exw_active_runs row;
          exr_last_seen_at := exw_last_seen_at row |}
  else Err (Internal "active_runs out of range").

Definition run_not_found (run_id : Uuid) : ApiError :=
  NotFound ("run " +:+ uuid_to_string run_id +:+ " was not found").

Definition executor_not_found (executor_id : Uuid) : ApiError :=
  NotFound ("executor " +:+ uuid_to_string executor_id +:+ " was not found").

(** Statements that replace one row. *)
Definition put_run (id : Uuid) (row : RunRow) : Tx unit :=
  modify (fun db => set_runs (<[id := row]> (runs db)) db).

Definition put_executor (id : Uuid) (row : ExecutorRow) : Tx unit :=
  modify (fun db => set_executors (<[id := row]> (executors db)) db).

(** ** Events *)

Definition should_push (kind : RunEventKind) : bool :=
  match kind with
  | EvApprovalRequested | EvInputRequested | EvArtifactCreated
  | EvWarning | EvFailed | EvCompleted => true
  | _ => false
  end.

(** The INSERT ... SELECT into [push_deliveries]. *)
Definition insert_push_delivery (run_id : Uuid) (sequence : Z) (kind : RunEventKind) : Tx unit :=
  id ← fresh_uuid;
  db ← get_db;
  match runs db !! run_id with
  | None => mret tt
  | Some run =>
      let user := ins_creator_user_id (run_ins run) in
      if negb (row_exists (fun _ sub => bool_decide (ps_user_id sub = user)
                                        && not_deleted (ps_revoked_at sub))
                          (push_subscriptions db))
      then mret tt
      else if row_exists (fun _ d => bool_decide (pd_user_id d = user)
                                     && bool_decide (pd_run_id d = run_id)
                                     && bool_decide (pd_event_sequence d = sequence))
                         (push_deliveries db)
      then mret tt
      else
        _ ← reject_if (bool_decide (is_Some (push_deliveries db !! id)))
              (Database (UniqueViolation "push_deliveries_pkey"));
        modify (fun db => set_push_deliveries
          (<[id := {| pd_run_id := run_id; pd_user_id := user;
                      pd_event_sequence := sequence; pd_event_kind := kind |}]>
             (push_deliveries db)) db)
  end.

Definition event_matches (row : EventRow) (run_id : Uuid) (kind : RunEventKind)
    (payload : Value) : bool :=
  bool_decide (evr_run_id row = run_id) && bool_decide (evr_kind row = kind)
  && bool_decide (evr_payload row = payload).

Definition append_event_tx_with_id (run_id event_id : Uuid) (kind : RunEventKind)
    (payload : Value) : Tx RunEvent :=
  db ← get_db;
  env ← ask;
  run ← require (runs db !! run_id) (run_not_found run_id);
  match run_events db !! event_id with
  | Some existing =>
      _ ← reject_if (negb (event_matches existing run_id kind payload))
            (Conflict "event ID was already used for different event content");
      mret (row_to_event event_id existing)
  | None =>
      next ← sql_bigint (run_next_event_sequence run + 1);
      _ ← put_run run_id (set_run_next_event_sequence next run);
      let sequence := (next - 1)%Z in
      _ ← reject_if
            (row_exists (fun _ e => bool_decide (evr_run_id e = run_id)
                                    && bool_decide (evr_sequence e = sequence))
                        (run_events db))
            (Database (UniqueViolation "run_events_pkey"));
      let row := {| evr_run_id := run_id; evr_sequence := sequence; evr_kind := kind;
                    evr_payload := payload; evr_created_at := db_now env |} in
      _ ← modify (fun db => set_run_events (<[event_id := row]> (run_events db)) db);
      _ ← (if should_push kind then insert_push_delivery run_id sequence kind else mret tt);
      mret (row_to_event event_id row)
  end.

Definition append_event_tx (run_id : Uuid) (kind : RunEventKind) (payload : Value) : Tx RunEvent :=
  event_id ← fresh_uuid;
  append_event_tx_with_id run_id event_id kind payload.

Definition state_changed (from to : string) : Value :=
  json_obj [("from", JString from); ("to", JString to)].

(** ** Creating runs *)

Definition run_by_key (db : Db) (creator : Uuid) (key : string) : option (Uuid * RunRow) :=
  select_one (fun _ r => bool_decide (ins_creator_user_id (run_ins r) = creator)
                         && bool_decide (ins_idempotency_key (run_ins r) = key)) (runs db).

Definition new_run_insert (spec : RunSpec) : RunInsert :=
  let '(target_kind, pool_id, device_id) := target_columns (spec_executor_target spec) in
  {| ins_thread_id := spec_thread_id spec;
     ins_project_id := spec_project_id spec;
     ins_creator_user_id := spec_creator_user_id spec;
     ins_idempotency_key := spec_idempotency_key spec;
     ins_target_kind := target_kind;
     ins_target_pool_id := pool_id;
     ins_target_device_id := device_id;
     ins_spec := spec;
     ins_snapshot_id := spec_snapshot_id spec;
     ins_created_at := spec_created_at spec |}.

Definition new_run_row (spec : RunSpec) (initial_state : RunState) : RunRow :=
  {| run_ins := new_run_insert spec;
     run_state := initial_state;
     run_revision := 1;
     run_result := None;
     run_error := None;
     run_assigned_executor_id := None;
     run_lease_owner := None;
     run_lease_token := None;
     run_lease_expires_at := None;
     run_updated_at := spec_created_at spec;
     run_started_at := None;
     run_finished_at := None;
     run_next_event_sequence := 1 |}.

Definition create_run_tx (spec : RunSpec) (initial_state : RunState) : Tx (RunRecord * bool) :=
  db ← get_db;
  match run_by_key db (spec_creator_user_id spec) (spec_idempotency_key spec) with
  | Some (_, row) => mret (row_to_run row, false)
  | None =>
      _ ← enforce_run_quota_tx (spec_creator_user_id spec) (spec_project_id spec);
      db ← get_db;
      match run_by_key db (spec_creator_user_id spec) (spec_idempotency_key spec) with
      | Some (_, row) => mret (row_to_run row, false)
      | None =>
          _ ← reject_if (bool_decide (is_Some (runs db !! spec_id spec)))
                (Database (UniqueViolation "runs_pkey"));
          _ ← reject_if
                (match spec_snapshot_id spec with
                 | Some m => bool_decide (snapshot_manifests db !! m = None)
                 | None => false
                 end)
                (Database (ForeignKeyViolation "runs_snapshot_id_fkey"));
          let row := new_run_row spec initial_state in
          _ ← put_run (spec_id spec) row;
          _ ← append_event_tx (spec_id spec) EvCreated
                (json_obj [("state", JString (state_name initial_state))]);
          mret (row_to_run row, true)
      end
  end.

Definition create_run (spec : RunSpec) (initial_state : RunState) : Tx RunRecord :=
  r ← create_run_tx spec initial_state;
  mret r.1.

(** ** Chat messages *)

(** The partial unique index on (run_id, role) for live user and assistant messages. *)
Definition message_index_conflict (db : Db) (row : MessageRow) : bool :=
  match mr_run_id row with
  | None => false
  | Some run_id =>
      (bool_decide (mr_role row = RoleUser) || bool_decide (mr_role row = RoleAssistant))
      && row_exists (fun _ m => bool_decide (mr_run_id m = Some run_id)
                                && bool_decide (mr_role m = mr_role row)
                                && not_deleted (mr_deleted_at m)) (messages db)
  end.

Definition new_message (env : Env) (message_id thread_id : Uuid) (author : option Uuid)
    (role : MessageRole) (content : Value) (run_id : Uuid) : MessageRow :=
  {| mr_revision := 1; mr_etag := version_etag message_id 1; mr_thread_id := thread_id;
     mr_author_user_id := author; mr_role := role; mr_content := content;
     mr_run_id := Some run_id; mr_created_at := db_now env; mr_updated_at := db_now env;
     mr_deleted_at := None |}.

Definition put_message (id : Uuid) (row : MessageRow) : Tx unit :=
  modify (fun db => set_messages (<[id := row]> (messages db)) db).

Definition touch_thread_tx (thread_id : Uuid) : Tx unit :=
  db ← get_db;
  env ← ask;
  t ← require
        (match threads db !! thread_id with
         | Some t => if not_deleted (th_deleted_at t) then Some t else None
         | None => None
         end)
        (NotFound ("thread " +:+ uuid_to_string thread_id +:+ " was not found"));
  revision ← sql_bigint (th_revision t + 1);
  modify (fun db => set_threads
    (<[thread_id := {| th_revision := revision; th_etag := version_etag thread_id revision;
                       th_project_id := th_project_id t; th_created_by := th_created_by t;
                       th_title := th_title t;
                       th_created_at := th_created_at t; th_updated_at := db_now env;
                       th_deleted_at := th_deleted_at t |}]> (threads db)) db).

(** The live user message of a run. *)
Definition user_message (db : Db) (run_id : Uuid) : option (Uuid * MessageRow) :=
  select_one (fun _ m => bool_decide (mr_run_id m = Some run_id)
                         && bool_decide (mr_role m = RoleUser)
                         && not_deleted (mr_deleted_at m)) (messages db).

Definition create_thread_message_run (spec : RunSpec) (initial_state : RunState)
    (content : Value) : Tx (MessageRecord * RunRecord) :=
  created ← create_run_tx spec initial_state;
  let '(run, inserted) := created in
  _ ← reject_if (bool_decide (spec_thread_id (rec_spec run) ≠ spec_thread_id spec))
        (Conflict "idempotency key belongs to a run in a different thread");
  message ←
    (if inserted : bool then
       message_id ← fresh_uuid;
       env ← ask;
       db ← get_db;
       let row := new_message env message_id (spec_thread_id spec)
                    (Some (spec_creator_user_id spec)) RoleUser content
                    (spec_id (rec_spec run)) in
       _ ← reject_if (bool_decide (is_Some (messages db !! message_id)))
             (Database (UniqueViolation "messages_pkey"));
       _ ← reject_if (message_index_conflict db row)
             (Database (UniqueViolation "messages_user_assistant_run_unique"));
       _ ← reject_if (bool_decide (threads db !! spec_thread_id spec = None))
             (Database (ForeignKeyViolation "messages_thread_id_fkey"));
       _ ← put_message message_id row;
       _ ← touch_thread_tx (spec_thread_id spec);
       _ ← publish_canonical_message_tx message_id;
       mret (message_id, row)
     else
       db ← get_db;
       require (user_message db (spec_id (rec_spec run)))
         (Conflict "idempotency key belongs to a run that was not created from a chat message"));
  mret (row_to_message message.1 message.2, run).

Definition append_assistant_message_tx (run_id : Uuid) (content : Value) : Tx unit :=
  message_id ← fresh_uuid;
  db ← get_db;
  env ← ask;
  match user_message db run_id with
  | None => mret tt
  | Some (_, user) =>
      let row := new_message env message_id (mr_thread_id user) None RoleAssistant content run_id in
      if bool_decide (is_Some (messages db !! message_id)) || message_index_conflict db row
      then mret tt
      else
        _ ← put_message message_id row;
        _ ← touch_thread_tx (mr_thread_id user);
        _ ← publish_canonical_message_tx message_id;
        mret tt
  end.

(** ** Routing runs to executors *)

Definition capability_names (registration : ExecutorRegistration) : list string :=
  cap_name <$> reg_capabilities registration.

Definition has_capabilities (registration : ExecutorRegistration)
    (required : list Capability) : bool :=
  forallb (fun item => str_mem item (capability_names registration)) required.

(** The names of the MCP servers a run's frozen context selects. *)
Definition selected_mcp_names (input : Value) : list string :=
  let items := from_option id []
    (get "frozen_runtime_context" input ≫= fun context => get_array "mcp_metadata" context) in
  omap (fun item => non_empty_trimmed
    (get "definition" item ≫= fun definition => get_str "name" definition)) items.

(** The MCP server names an executor advertises. *)
Definition configured_mcp_names (registration : ExecutorRegistration) : list string :=
  let descriptor := List.find (fun d => String.eqb (cap_name d) "tool.mcp.invoke")
                              (reg_capabilities registration) in
  omap as_str (from_option id []
    (descriptor ≫= fun d => map_get "server_names" (cap_attributes d) ≫= as_array)).

Definition supports_run (registration : ExecutorRegistration) (required : list Capability)
    (input : Value) : bool :=
  if negb (has_capabilities registration required) then false
  else if bool_decide (reg_kind registration ≠ KManagedWindows) then true
  else if bool_decide (get_str "task_runner" input = Some "crew")
          && negb (str_mem "crew.python" (capability_names registration))
  then false
  else forallb (fun name => str_mem name (configured_mcp_names registration))
               (selected_mcp_names input).

(** The loop over the fetched executors, in the order the query returns them. *)
Fixpoint any_supports (env : Env) (required : list Capability) (input : Value)
    (l : list ExecutorRow) : result ApiError bool :=
  match l with
  | [] => Ok false
  | row :: l' =>
      match row_to_executor env row with
      | Err e => Err e
      | Ok executor =>
          if supports_run (exr_registration executor) required input then Ok true
          else any_supports env required input l'
      end
  end.

(** Whether some live, recently seen executor of the target supports the run. *)
Definition target_has_executor (env : Env) (db : Db) (target : ExecutorTarget)
    (required : list Capability) (input : Value) : result ApiError bool :=
  let live e := negb (exw_draining e)
                && bool_decide (db_now env - seconds 60 < exw_last_seen_at e)%Z in
  let scan sel := any_supports env required input
    (filter (fun kv => sel kv.1 kv.2 = true) (map_to_list (executors db))).*2 in
  match target with
  | ServerLinux _ => Ok true
  | ManagedWindowsPool pool_id =>
      scan (fun _ e => bool_decide (exw_kind e = KManagedWindows)
                       && bool_decide (exw_pool_id e = Some pool_id) && live e)
  | PersonalDevice device_id =>
      scan (fun id e => bool_decide (exw_kind e = KPersonalDevice)
                        && bool_decide (id = device_id) && live e)
  end.

(** [ORDER BY created_at, id] *)
Definition created_before (a b : Uuid * RunRow) : bool :=
  bool_decide (ins_created_at (run_ins a.2) < ins_created_at (run_ins b.2))%Z
  || (bool_decide (ins_created_at (run_ins a.2) = ins_created_at (run_ins b.2))
      && bool_decide (a.1 < b.1)%N).

Definition queue_order (a b : Uuid * RunRow) : Prop := created_before b a = false.

#[global] Instance queue_order_dec a b : Decision (queue_order a b).
Proof. unfold queue_order. apply _. Defined.

(** An earlier run of the same thread that is not terminal. *)
Definition has_open_predecessor (db : Db) (id : Uuid) (r : RunRow) : bool :=
  row_exists (fun pid p => bool_decide (ins_thread_id (run_ins p) = ins_thread_id (run_ins r))
                           && created_before (pid, p) (id, r)
                           && negb (is_terminal (run_state p))) (runs db).

(** The claimable rows a query selects, oldest first, skipping locked rows. *)
Definition claim_candidates (env : Env) (db : Db) (sel : RunRow -> bool) (limit : nat)
    : list (Uuid * RunRow) :=
  take limit (merge_sort queue_order
    (filter (fun kv => sel kv.2 = true /\ has_open_predecessor db kv.1 kv.2 = false
                       /\ row_locked env kv.1 = false)
            (map_to_list (runs db)))).

Definition external_match (executor_id : Uuid) (reg : ExecutorRegistration) (r : RunRow) : bool :=
  (bool_decide (run_state r = Queued) || bool_decide (run_state r = WaitingForExecutor))
  && ((String.eqb (ins_target_kind (run_ins r)) "managed_windows_pool"
       && bool_decide (reg_kind reg = KManagedWindows)
       && match ins_target_pool_id (run_ins r), reg_pool_id reg with
          | Some p, Some q => bool_decide (p = q)
          | _, _ => false
          end)
      || (String.eqb (ins_target_kind (run_ins r)) "personal_device"
          && bool_decide (reg_kind reg = KPersonalDevice)
          && bool_decide (ins_target_device_id (run_ins r) = Some executor_id))).

(** The UPDATE that hands a run to its owner under a lease. *)
Definition lease_row (env : Env) (owner token : Uuid) (expires_at : DateTime) (revision : Z)
    (r : RunRow) : RunRow :=
  set_run_state Running (set_run_revision revision
    (set_run_assigned_executor_id (Some owner)
      (set_run_lease_owner (Some owner) (set_run_lease_token (Some token)
        (set_run_lease_expires_at (Some expires_at)
          (set_run_started_at (Some (from_option id (db_now env) (run_started_at r)))
            (set_run_updated_at (db_now env) r))))))).

Definition assigned_payload (env : Env) (owner : Uuid) (expires_at : DateTime) : Value :=
  json_obj [("executor_id", juuid owner);
            ("lease_expires_at", JString (rfc3339 env expires_at))].

Definition mk_lease (row : RunRow) (token : Uuid) (expires_at : DateTime) : RunLease :=
  {| lease_schema_version := SCHEMA_VERSION; lease_run := row_to_run row;
     lease_lease_token := token; lease_lease_expires_at := expires_at |}.

Definition claim_external_run (executor_id : Uuid) (lease_seconds : Z) : Tx (option RunLease) :=
  db ← get_db;
  env ← ask;
  executor_row ← require (executors db !! executor_id) (executor_not_found executor_id);
  executor ← lift (row_to_executor env executor_row);
  let reg := exr_registration executor in
  if exr_draining executor
     || bool_decide (reg_max_concurrent_runs reg ≤ exr_active_runs executor)%Z
  then mret None
  else
    match List.find
            (fun kv => supports_run reg (spec_required_capabilities (ins_spec (run_ins kv.2)))
                                    (spec_input (ins_spec (run_ins kv.2))))
            (claim_candidates env db (external_match executor_id reg) 25) with
    | None => mret None
    | Some (run_id, run) =>
        lease_token ← fresh_uuid;
        let lease_expires_at := (app_now env + seconds lease_seconds)%Z in
        revision ← sql_bigint (run_revision run + 1);
        let row := lease_row env executor_id lease_token lease_expires_at revision run in
        _ ← put_run run_id row;
        active ← sql_int (exw_active_runs executor_row + 1);
        _ ← put_executor executor_id
              (set_exw_active_runs active (set_exw_last_seen_at (db_now env) executor_row));
        _ ← append_event_tx run_id EvExecutorAssigned
              (assigned_payload env executor_id lease_expires_at);
        _ ← append_event_tx run_id EvStateChanged (state_changed "queued" "running");
        mret (Some (mk_lease row lease_token lease_expires_at))
    end.

Definition server_match (r : RunRow) : bool :=
  bool_decide (run_state r = Queued) && String.eqb (ins_target_kind (run_ins r)) "server_linux".

Definition claim_server_run (worker_id : Uuid) (lease_seconds : Z) : Tx (option RunLease) :=
  db ← get_db;
  env ← ask;
  match head (claim_candidates env db server_match 1) with
  | None => mret None
  | Some (run_id, current) =>
      lease_token ← fresh_uuid;
      let lease_expires_at := (app_now env + seconds lease_seconds)%Z in
      revision ← sql_bigint (run_revision current + 1);
      let row := lease_row env worker_id lease_token lease_expires_at revision current in
      _ ← put_run run_id row;
      _ ← append_event_tx run_id EvExecutorAssigned
            (assigned_payload env worker_id lease_expires_at);
      _ ← append_event_tx run_id EvStateChanged
            (state_changed (state_name (run_state current)) "running");
      mret (Some (mk_lease row lease_token lease_expires_at))
  end.

(** ** Working under a lease *)

(** The lease columns identify this executor, this token and an open run. *)
Definition lease_held (r : RunRow) (executor_id lease_token : Uuid) : bool :=
  bool_decide (run_lease_owner r = Some executor_id)
  && bool_decide (run_lease_token r = Some lease_token)
  && is_leased_state (run_state r).

Definition lease_unexpired (now : DateTime) (r : RunRow) : bool :=
  match run_lease_expires_at r with
  | Some t => bool_decide (now < t)%Z
  | None => false
  end.

Definition lease_lost : ApiError := Conflict "the run lease is no longer valid".

Definition verify_lease (run_id executor_id lease_token : Uuid) : Tx RunRow :=
  db ← get_db;
  env ← ask;
  require
    (match runs db !! run_id with
     | Some r => if lease_held r executor_id lease_token && lease_unexpired (db_now env) r
                 then Some r else None
     | None => None
     end) lease_lost.

Definition renew_lease (run_id executor_id lease_token : Uuid) (lease_seconds : Z) : Tx RunRecord :=
  db ← get_db;
  env ← ask;
  r ← require
        (match runs db !! run_id with
         | Some r => if lease_held r executor_id lease_token then Some r else None
         | None => None
         end) lease_lost;
  let row := set_run_lease_expires_at (Some (db_now env + seconds lease_seconds)%Z)
               (set_run_updated_at (db_now env) r) in
  _ ← put_run run_id row;
  mret (row_to_run row).

(** The token count an external [ModelCompleted] event reports. *)
Definition usage_field (usage : Map) (name : string) : result ApiError (option Z) :=
  match map_get name usage with
  | None => Ok None
  | Some value =>
      match as_u64 value with
      | Some n => Ok (Some n)
      | None => Err (Unprocessable ("external ModelCompleted usage." +:+ name
                                    +:+ " must be an unsigned integer"))
      end
  end.

Definition external_model_usage_tokens (kind : RunEventKind) (payload : Value)
    : result ApiError (option Z) :=
  if bool_decide (kind ≠ EvModelCompleted) then Ok None else
  match get "usage" payload with
  | None => Ok None
  | Some usage =>
      if is_null usage then Ok None else
      match as_object usage with
      | None => Err (Unprocessable "external ModelCompleted usage must be an object")
      | Some usage =>
          prompt_tokens ← usage_field usage "prompt_tokens";
          completion_tokens ← usage_field usage "completion_tokens";
          total_tokens ← usage_field usage "total_tokens";
          match prompt_tokens, completion_tokens, total_tokens with
          | None, None, None => Ok None
          | _, _, _ =>
              Ok (Some (Z.max (from_option id 0%Z total_tokens)
                              (sat_add_u64 (from_option id 0%Z prompt_tokens)
                                           (from_option id 0%Z completion_tokens))))
          end
      end
  end.

Record LeasedEventInput := {
  lei_run_id : Uuid;
  lei_executor_id : Uuid;
  lei_lease_token : Uuid;
  lei_source_event_id : option Uuid;
  lei_kind : RunEventKind;
  lei_payload : Value;
}.

Definition append_leased_event_with_accounting (input : LeasedEventInput)
    (account_external_model_usage : bool) : Tx RunEvent :=
  let run_id := lei_run_id input in
  let kind := lei_kind input in
  let payload := lei_payload input in
  _ ← reject_if
        (account_external_model_usage
         && (bool_decide (kind = EvModelStarted) || bool_decide (kind = EvModelCompleted))
         && bool_decide (lei_source_event_id input = None))
        (Unprocessable "external model events require a stable source_event_id");
  _ ← verify_lease run_id (lei_executor_id input) (lei_lease_token input);
  db ← get_db;
  match (match lei_source_event_id input with
         | Some id => match run_events db !! id with
                      | Some e => Some (id, e)
                      | None => None
                      end
         | None => None
         end) with
  | Some (id, existing) =>
      _ ← reject_if (negb (event_matches existing run_id kind payload))
            (Conflict "source_event_id was already used for different event content");
      mret (row_to_event id existing)
  | None =>
      usage_tokens ← (if account_external_model_usage
                      then lift (external_model_usage_tokens kind payload)
                      else mret None);
      _ ← (if account_external_model_usage && bool_decide (kind = EvModelStarted)
           then ensure_model_quota_for_run_tx run_id
           else mret tt);
      event_id ← (match lei_source_event_id input with
                  | Some id => mret id
                  | None => fresh_uuid
                  end);
      event ← append_event_tx_with_id run_id event_id kind payload;
      _ ← (match usage_tokens with
           | Some tokens => record_model_usage_for_run_tx run_id tokens 0
           | None => mret tt
           end);
      mret event
  end.

Definition append_leased_event (input : LeasedEventInput) : Tx RunEvent :=
  append_leased_event_with_accounting input false.

Definition append_external_leased_event (input : LeasedEventInput) : Tx RunEvent :=
  append_leased_event_with_accounting input true.

(** ** Finishing and interrupting runs *)

(** [UPDATE executors SET active_runs = GREATEST(active_runs - 1, 0)], with or
    without [last_seen_at = now()]; no row, no effect. *)
Definition release_executor (executor_id : Uuid) (seen : bool) : Tx unit :=
  db ← get_db;
  env ← ask;
  match executors db !! executor_id with
  | None => mret tt
  | Some e =>
      active ← sql_int (exw_active_runs e - 1);
      let e' := set_exw_active_runs (Z.max active 0) e in
      put_executor executor_id (if seen then set_exw_last_seen_at (db_now env) e' else e')
  end.

Definition release_assigned (executor_id : option Uuid) (seen : bool) : Tx unit :=
  match executor_id with
  | Some id => release_executor id seen
  | None => mret tt
  end.

(** The row with the greatest key: [ORDER BY key DESC LIMIT 1]. *)
Definition latest_by {V} (key : V -> Z) (l : list V) : option V :=
  foldr (fun v acc => match acc with
                      | None => Some v
                      | Some w => if (key w <? key v)%Z then Some v else Some w
                      end) None l.

Definition run_checkpoints_of (db : Db) (run_id : Uuid) : list CheckpointRow :=
  filter (fun c => ck_run_id c = run_id) (map_to_list (run_checkpoints db)).*2.

(** The [safe_to_resume] flag of the run's latest checkpoint. *)
Definition latest_checkpoint_safe (db : Db) (run_id : Uuid) : option bool :=
  ck_safe_to_resume <$> latest_by ck_sequence (run_checkpoints_of db run_id).

(** The UPDATE that interrupts a run and takes its lease away. *)
Definition interrupt_row (env : Env) (error : RunError) (revision : Z) (r : RunRow) : RunRow :=
  set_run_state Interrupted (set_run_revision revision
    (set_run_lease_owner None (set_run_lease_token None (set_run_lease_expires_at None
      (set_run_error (Some error) (set_run_updated_at (db_now env) r)))))).

Definition reconnect_error : RunError :=
  {| err_code := "unsafe_tool_interrupted";
     err_message := "The executor disconnected during or after an unsafe action. The action was not retried.";
     err_retryable := false;
     err_details := json_obj [("safe_to_resume", JBool false);
                              ("manual_review_required", JBool true);
                              ("detected_during_reconnect", JBool true)] |}.

(** The recoverable run the query picks: [ORDER BY updated_at DESC LIMIT 1]. *)
Definition recoverable (env : Env) (executor_id : Uuid) (r : RunRow) : bool :=
  bool_decide (run_assigned_executor_id r = Some executor_id)
  && bool_decide (run_lease_owner r = Some executor_id)
  && bool_decide (is_Some (run_lease_token r))
  && lease_unexpired (db_now env) r
  && is_leased_state (run_state r).

Definition latest_recoverable (env : Env) (db : Db) (executor_id : Uuid) : option (Uuid * RunRow) :=
  latest_by (fun kv => run_updated_at kv.2)
    (filter (fun kv => recoverable env executor_id kv.2 = true) (map_to_list (runs db))).

Definition recover_external_run (executor_id : Uuid) (lease_seconds : Z) : Tx (option RunLease) :=
  db ← get_db;
  env ← ask;
  match latest_recoverable env db executor_id with
  | None => mret None
  | Some (run_id, r) =>
      if bool_decide (latest_checkpoint_safe db run_id = Some false) then
        revision ← sql_bigint (run_revision r + 1);
        _ ← put_run run_id (interrupt_row env reconnect_error revision r);
        _ ← release_executor executor_id false;
        _ ← append_event_tx run_id EvStateChanged
              (json_obj [("from", JString (state_name (run_state r)));
                         ("to", JString "interrupted");
                         ("reason", JString "unsafe_tool_interrupted");
                         ("safe_to_resume", JBool false);
                         ("manual_review_required", JBool true);
                         ("detected_during_reconnect", JBool true)]);
        mret None
      else
        lease_token ← require (run_lease_token r)
                        (Internal "recoverable run has no lease token");
        let lease_expires_at := (app_now env + seconds lease_seconds)%Z in
        let row := set_run_lease_expires_at (Some lease_expires_at)
                     (set_run_updated_at (db_now env) r) in
        _ ← put_run run_id row;
        _ ← append_event_tx (spec_id (ins_spec (run_ins r))) EvExecutorHeartbeat
              (json_obj [("executor_id", juuid executor_id);
                         ("lease_recovered", JBool true);
                         ("lease_expires_at", JString (rfc3339 env lease_expires_at))]);
        mret (Some (mk_lease row lease_token lease_expires_at))
  end.

Definition lease_expired_error (safe_to_resume : bool) : RunError :=
  {| err_code := if safe_to_resume then "executor_lease_expired" else "unsafe_tool_interrupted";
     err_message :=
       if safe_to_resume then "The executor stopped heartbeating at a safe checkpoint."
       else "The executor stopped heartbeating during an unsafe action. The action was not retried.";
     err_retryable := false;
     err_details := json_obj [("safe_to_resume", JBool safe_to_resume);
                              ("manual_review_required", JBool (negb safe_to_resume))] |}.

(** The CTE: leased runs whose lease expired before [now()]. *)
Definition lease_is_past (env : Env) (r : RunRow) : bool :=
  is_leased_state (run_state r)
  && match run_lease_expires_at r with
     | Some t => bool_decide (t < db_now env)%Z
     | None => false
     end.

Definition expired_runs (env : Env) (db : Db) : list (Uuid * RunRow) :=
  filter (fun kv => lease_is_past env kv.2 = true) (map_to_list (runs db)).

Definition checkpoint_safe (db : Db) (run_id : Uuid) : bool :=
  from_option id true (latest_checkpoint_safe db run_id).

(** The one UPDATE statement, row by row. *)
Definition interrupt_expired (safe : Uuid -> bool) (kv : Uuid * RunRow) : Tx unit :=
  env ← ask;
  revision ← sql_bigint (run_revision kv.2 + 1);
  put_run kv.1 (interrupt_row env (lease_expired_error (safe kv.1)) revision kv.2).

(** The loop body over the returned rows. *)
Definition report_expired (safe : Uuid -> bool) (kv : Uuid * RunRow) : Tx unit :=
  _ ← release_assigned (run_assigned_executor_id kv.2) false;
  _ ← append_event_tx kv.1 EvStateChanged
        (json_obj [("from", JString (state_name (run_state kv.2)));
                   ("to", JString "interrupted");
                   ("reason", JString (if safe kv.1 then "executor_lease_expired"
                                       else "unsafe_tool_interrupted"));
                   ("safe_to_resume", JBool (safe kv.1));
                   ("manual_review_required", JBool (negb (safe kv.1)))]);
  mret tt.

Definition interrupt_expired_leases : Tx Z :=
  db ← get_db;
  env ← ask;
  let expired := expired_runs env db in
  let safe := checkpoint_safe db in
  _ ← tx_iter (interrupt_expired safe) expired;
  _ ← tx_iter (report_expired safe) expired;
  mret (Z.of_nat (length expired)).

Record LeasedRunOutcome := {
  out_state : RunState;
  out_result : option Value;
  out_error : option RunError;
  out_result_snapshot_manifest_id : option Uuid;
  out_result_diff_summary : Value;
}.

Definition versions_of (db : Db) (project_id : Uuid) : list (Uuid * ProjectVersionRow) :=
  filter (fun kv => pv_project_id kv.2 = project_id) (map_to_list (project_versions db)).

Definition create_run_result_version_tx (run : RunRow) (manifest_id : Uuid)
    (diff_summary : Value) : Tx Uuid :=
  db ← get_db;
  env ← ask;
  let spec := ins_spec (run_ins run) in
  let project_id := spec_project_id spec in
  let manifest_valid :=
    match snapshot_manifests db !! manifest_id with
    | Some m =>
        bool_decide (mf_source_run_id m = Some (spec_id spec))
        && bool_decide (mf_project_id m = project_id)
        && bool_decide (mf_created_by m = spec_creator_user_id spec)
        && bool_decide (mf_status m = "ready")
        && match mf_expires_at m with
           | None => true
           | Some t => bool_decide (db_now env < t)%Z
           end
    | None => false
    end in
  _ ← reject_if (negb manifest_valid)
        (Unprocessable "result_snapshot_manifest_id must be a ready snapshot produced by this leased run");
  _ ← require (live_project db project_id)
        (NotFound ("project " +:+ uuid_to_string project_id +:+ " was not found"));
  let base_version_id :=
    match spec_snapshot_id spec with
    | Some snapshot_id =>
        fst <$> latest_by (fun kv => pv_revision kv.2)
          (filter (fun kv => pv_snapshot_manifest_id kv.2 = snapshot_id)
             (versions_of db project_id))
    | None => None
    end in
  revision ← sql_bigint
    (from_option (fun kv => pv_revision kv.2) 0%Z
       (latest_by (fun kv => pv_revision kv.2) (versions_of db project_id)) + 1);
  version_id ← fresh_uuid;
  _ ← reject_if (bool_decide (is_Some (project_versions db !! version_id)))
        (Database (UniqueViolation "project_versions_pkey"));
  _ ← modify (fun db => set_project_versions
        (<[version_id :=
            {| pv_project_id := project_id; pv_revision := revision;
               pv_parent_version_id := base_version_id;
               pv_merge_base_version_id := base_version_id;
               pv_snapshot_manifest_id := manifest_id;
               pv_created_by_user_id := Some (spec_creator_user_id spec);
               pv_created_by_run_id := Some (spec_id spec);
               pv_diff_summary := diff_summary; pv_created_at := db_now env |}]>
           (project_versions db)) db);
  mret version_id.

(** The result object a published version is recorded in. *)
Definition annotate_result (result : option Value) (version_id manifest_id : Uuid) : Value :=
  let object :=
    match result with
    | None => []
    | Some (JObject m) => m
    | Some v => json_map [("value", v)]
    end in
  JObject (map_insert "result_snapshot_manifest_id" (juuid manifest_id)
             (map_insert "project_version_id" (juuid version_id) object)).

Definition contract_conflict (e : ContractError) : ApiError :=
  Conflict (contract_error_to_string e).

Definition finish_row (env : Env) (state : RunState) (result : option Value)
    (error : option RunError) (revision : Z) (r : RunRow) : RunRow :=
  set_run_state state (set_run_revision revision (set_run_result result (set_run_error error
    (set_run_lease_owner None (set_run_lease_token None (set_run_lease_expires_at None
      (set_run_finished_at (Some (db_now env)) (set_run_updated_at (db_now env) r)))))))).

Definition finish_leased_run (run_id executor_id lease_token : Uuid)
    (outcome : LeasedRunOutcome) : Tx RunRecord :=
  let state := out_state outcome in
  let error := out_error outcome in
  current ← verify_lease run_id executor_id lease_token;
  env ← ask;
  _ ← lift (map_err contract_conflict (ensure_run_transition (run_state current) state));
  result ←
    (match out_result_snapshot_manifest_id outcome with
     | None => mret (out_result outcome)
     | Some manifest_id =>
         _ ← reject_if (bool_decide (state ≠ Completed))
               (Unprocessable "only completed runs may publish a result snapshot");
         version_id ← create_run_result_version_tx current manifest_id
                        (out_result_diff_summary outcome);
         mret (Some (annotate_result (out_result outcome) version_id manifest_id))
     end);
  revision ← sql_bigint (run_revision current + 1);
  let row := finish_row env state result error revision current in
  _ ← put_run run_id row;
  _ ← release_executor executor_id true;
  _ ← append_event_tx run_id (if bool_decide (state = Completed) then EvCompleted else EvFailed)
        (match result with
         | Some v => v
         | None => from_option run_error_to_value JNull error
         end);
  _ ← (if bool_decide (state = Completed)
       then append_assistant_message_tx run_id (from_option id JNull result)
       else mret tt);
  mret (row_to_run row).

Definition complete_leased_run (run_id executor_id lease_token : Uuid) (result : Value)
    (result_snapshot_manifest_id : option Uuid) (result_diff_summary : Value) : Tx RunRecord :=
  finish_leased_run run_id executor_id lease_token
    {| out_state := Completed; out_result := Some result; out_error := None;
       out_result_snapshot_manifest_id := result_snapshot_manifest_id;
       out_result_diff_summary := result_diff_summary |}.

Definition fail_leased_run (run_id executor_id lease_token : Uuid) (error : RunError) : Tx RunRecord :=
  finish_leased_run run_id executor_id lease_token
    {| out_state := Failed; out_result := None; out_error := Some error;
       out_result_snapshot_manifest_id := None; out_result_diff_summary := JNull |}.

Definition interrupt_leased_run (run_id executor_id lease_token : Uuid) (error : RunError)
    : Tx RunRecord :=
  finish_leased_run run_id executor_id lease_token
    {| out_state := Interrupted; out_result := None; out_error := Some error;
       out_result_snapshot_manifest_id := None; out_result_diff_summary := JNull |}.

(** ** Administrative transitions *)

Definition transition_row (env : Env) (next : RunState) (result : option Value)
    (error : option RunError) (revision : Z) (r : RunRow) : RunRow :=
  let r1 := set_run_state next (set_run_revision revision
              (set_run_result (match result with Some v => Some v | None => run_result r end)
                (set_run_error (match error with Some e => Some e | None => run_error r end)
                  (set_run_updated_at (db_now env) r)))) in
  if bool_decide (next ∈ TERMINAL_STATES) then
    set_run_finished_at (Some (db_now env))
      (set_run_lease_owner None (set_run_lease_token None (set_run_lease_expires_at None r1)))
  else r1.

Definition transition_run (run_id : Uuid) (next : RunState) (result : option Value)
    (error : option RunError) : Tx RunRecord :=
  db ← get_db;
  env ← ask;
  current ← require (runs db !! run_id) (run_not_found run_id);
  _ ← lift (map_err contract_conflict (ensure_run_transition (run_state current) next));
  _ ← (if is_terminal next && negb (is_terminal (run_state current))
       then release_assigned (run_assigned_executor_id current) true
       else mret tt);
  revision ← sql_bigint (run_revision current + 1);
  let row := transition_row env next result error revision current in
  _ ← put_run run_id row;
  _ ← append_event_tx run_id EvStateChanged
        (state_changed (state_name (run_state current)) (state_name next));
  mret (row_to_run row).

Definition cancel_run (run_id : Uuid) : Tx RunRecord :=
  transition_run run_id Canceled None None.

(** ** Executors *)

Definition contract_unprocessable (e : ContractError) : ApiError :=
  Unprocessable (contract_error_to_string e).

Definition max_runs_zero : ApiError := Unprocessable "max_concurrent_runs must be at least one".

Definition register_executor (registration : ExecutorRegistration) : Tx ExecutorRecord :=
  _ ← lift (map_err contract_unprocessable
              (ensure_compatible (reg_schema_version registration)));
  _ ← reject_if (bool_decide (reg_max_concurrent_runs registration = 0%Z)) max_runs_zero;
  _ ← reject_if (bool_decide (reg_kind registration = KPersonalDevice)
                 && bool_decide (reg_owner_user_id registration = None))
        (Unprocessable "personal devices require owner_user_id");
  db ← get_db;
  env ← ask;
  let id := reg_executor_id registration in
  let old := executors db !! id in
  let row :=
    {| exw_kind := reg_kind registration;
       exw_pool_id := reg_pool_id registration;
       exw_owner_user_id := reg_owner_user_id registration;
       exw_registration := registration;
       exw_protocol_version := reg_protocol_version registration;
       exw_max_concurrent_runs := reg_max_concurrent_runs registration;
       exw_active_runs := from_option exw_active_runs 0%Z old;
       exw_draining := from_option exw_draining false old;
       exw_last_seen_at := app_now env;
       exw_updated_at := app_now env |} in
  _ ← put_executor id row;
  lift (row_to_executor env row).

(** The registration a self-refresh stores: a personal device keeps its owner when
    it names none, and always keeps the stored remote-control ceiling. *)
Definition refreshed_registration (existing registration : ExecutorRegistration)
    : ExecutorRegistration :=
  if bool_decide (reg_kind registration = KPersonalDevice) then
    {| reg_schema_version := reg_schema_version registration;
       reg_executor_id := reg_executor_id registration;
       reg_kind := reg_kind registration;
       reg_pool_id := reg_pool_id registration;
       reg_owner_user_id := match reg_owner_user_id registration with
                            | Some o => Some o
                            | None => reg_owner_user_id existing
                            end;
       reg_display_name := reg_display_name registration;
       reg_protocol_version := reg_protocol_version registration;
       reg_capabilities := reg_capabilities registration;
       reg_labels := reg_labels registration;
       reg_personal_device_remote_control :=
         Some (from_option id ConfirmEachSession
                 (reg_personal_device_remote_control existing));
       reg_max_concurrent_runs := reg_max_concurrent_runs registration |}
  else registration.

Definition refresh_executor_registration (executor_id : Uuid)
    (registration : ExecutorRegistration) : Tx ExecutorRecord :=
  _ ← reject_if (bool_decide (reg_executor_id registration ≠ executor_id))
        (Unauthorized "executor credential and registration ID do not match");
  _ ← lift (map_err contract_unprocessable
              (ensure_compatible (reg_schema_version registration)));
  db ← get_db;
  env ← ask;
  old ← require (executors db !! executor_id) (executor_not_found executor_id);
  existing_record ← lift (row_to_executor env old);
  let existing := exr_registration existing_record in
  let reg := refreshed_registration existing registration in
  _ ← reject_if (bool_decide (reg_kind reg ≠ KPersonalDevice)
                 && bool_decide (is_Some (reg_personal_device_remote_control reg)))
        (Unprocessable "personal_device_remote_control is only valid for personal devices");
  _ ← reject_if (bool_decide (reg_kind existing ≠ reg_kind reg)
                 || bool_decide (reg_pool_id existing ≠ reg_pool_id reg)
                 || bool_decide (reg_owner_user_id existing ≠ reg_owner_user_id reg))
        (Conflict "an executor cannot change its kind, pool, or owner through self-registration");
  _ ← reject_if (bool_decide (reg_max_concurrent_runs reg = 0%Z)) max_runs_zero;
  let row := set_exw_registration reg (set_exw_protocol_version (reg_protocol_version reg)
               (set_exw_max_concurrent_runs (reg_max_concurrent_runs reg)
                 (set_exw_last_seen_at (db_now env) (set_exw_updated_at (db_now env) old)))) in
  _ ← put_executor executor_id row;
  lift (row_to_executor env row).

Definition heartbeat_executor (executor_id : Uuid) (active_runs : Z) : Tx ExecutorRecord :=
  _ ← reject_if (negb (in_i32 active_runs)) (BadRequest "too many active run IDs");
  db ← get_db;
  env ← ask;
  old ← require (executors db !! executor_id) (executor_not_found executor_id);
  let row := set_exw_last_seen_at (db_now env) (set_exw_active_runs active_runs
               (set_exw_updated_at (db_now env) old)) in
  _ ← put_executor executor_id row;
  lift (row_to_executor env row).

(** ** Access to executors *)

Definition user_is_platform_admin (db : Db) (user_id : Uuid) : bool :=
  match users db !! user_id with
  | Some u => not_deleted (us_deleted_at u) && us_platform_admin u
  | None => false
  end.

Definition user_can_target_personal_device (db : Db) (user_id executor_id : Uuid) : bool :=
  match executors db !! executor_id with
  | Some e => bool_decide (exw_kind e = KPersonalDevice)
              && bool_decide (exw_owner_user_id e = Some user_id)
  | None => false
  end.

Definition user_can_manage_executor (db : Db) (user_id executor_id : Uuid) : bool :=
  if user_is_platform_admin db user_id then true
  else user_can_target_personal_device db user_id executor_id.

(** ** Reading *)

Definition get_run (db : Db) (run_id : Uuid) : result ApiError RunRecord :=
  row ← ok_or (run_not_found run_id) (runs db !! run_id);
  Ok (row_to_run row).

Definition sequence_order (a b : Uuid * EventRow) : Prop := (evr_sequence a.2 ≤ evr_sequence b.2)%Z.

#[global] Instance sequence_order_dec a b : Decision (sequence_order a b).
Proof. unfold sequence_order. apply _. Defined.

Definition get_run_events (db : Db) (run_id : Uuid) (after limit : Z) : list RunEvent :=
  (fun kv => row_to_event kv.1 kv.2) <$>
  take (Z.to_nat (clamp 1 1000 limit)) (merge_sort sequence_order
    (filter (fun kv => evr_run_id kv.2 = run_id /\ (after < evr_sequence kv.2)%Z)
            (map_to_list (run_events db)))).

Definition message_order (a b : Uuid * MessageRow) : Prop :=
  (mr_created_at a.2 < mr_created_at b.2)%Z
  \/ (mr_created_at a.2 = mr_created_at b.2 /\ (a.1 ≤ b.1)%N).

#[global] Instance message_order_dec a b : Decision (message_order a b).
Proof. unfold message_order. solve_decision. Defined.

Definition list_thread_messages (db : Db) (thread_id : Uuid) (limit : Z) : list MessageRecord :=
  (fun kv => row_to_message kv.1 kv.2) <$>
  take (Z.to_nat (clamp 1 1000 limit)) (merge_sort message_order
    (filter (fun kv => mr_thread_id kv.2 = thread_id /\ mr_deleted_at kv.2 = None)
            (map_to_list (messages db)))).

(** ** Retention *)

Definition retention_order (a b : Uuid * EventRow) : Prop :=
  (evr_created_at a.2 < evr_created_at b.2)%Z
  \/ (evr_created_at a.2 = evr_created_at b.2
      /\ ((evr_run_id a.2 < evr_run_id b.2)%N
          \/ (evr_run_id a.2 = evr_run_id b.2 /\ (evr_sequence a.2 ≤ evr_sequence b.2)%Z))).

#[global] Instance retention_order_dec a b : Decision (retention_order a b).
Proof. unfold retention_order. solve_decision. Defined.

Definition event_expired (db : Db) (now : DateTime) (e : EventRow) : bool :=
  bool_decide (evr_created_at e < now - days 90)%Z
  && match runs db !! evr_run_id e with
     | Some r => is_terminal (run_state r)
                 && bool_decide (from_option id (run_updated_at r) (run_finished_at r)
                                 < now - days 90)%Z
     | None => false
     end.

Definition expired_events (env : Env) (db : Db) (now : DateTime) (limit : Z)
    : list (Uuid * EventRow) :=
  take (Z.to_nat (clamp 1 10000 limit)) (merge_sort retention_order
    (filter (fun kv => event_expired db now kv.2 = true /\ row_locked env kv.1 = false)
            (map_to_list (run_events db)))).

(** DELETE, with the cascade from (run_id, sequence) to [push_deliveries]. *)
Definition delete_event (db : Db) (kv : Uuid * EventRow) : Db :=
  set_push_deliveries
    (filter (fun d => ~ (pd_run_id d.2 = evr_run_id kv.2
                         /\ pd_event_sequence d.2 = evr_sequence kv.2)) (push_deliveries db))
    (set_run_events (delete kv.1 (run_events db)) db).

Definition enforce_run_event_retention (now : DateTime) (limit : Z) : Tx Z :=
  db ← get_db;
  env ← ask;
  let expired := expired_events env db now limit in
  _ ← modify (fun db => foldl delete_event db expired);
  mret (Z.of_nat (length expired)).
