(* ===== verification/Workflow.v ===== *)
(** * Human interaction and checkpoints (server/cowork-server/src/workflow.rs)

    Approval requests, input requests and checkpoints of a run: the transactions
    of the executor and user handlers, the in-process worker's variants, and the
    reaper that expires requests nobody answered. A handler's authorization query
    runs before its transaction and is not part of these definitions. *)

From S2P Require Import Prelude.
From S2P Require Import Json.
From S2P Require Import Contracts.
From S2P Require Import Store.
From S2P Require Import RunStore.

Definition DEFAULT_WAIT_DAYS : Z := 7.

(** ** Records of the protocol *)

Record ApprovalRequest := {
  appr_schema_version : Z;
  appr_id : Uuid;
  appr_run_id : Uuid;
  appr_revision : Z;
  appr_etag : string;
  appr_requested_action : Value;
  appr_state : ApprovalState;
  appr_requested_at : DateTime;
  appr_expires_at : DateTime;
  appr_resolved_by_user_id : option Uuid;
  appr_resolved_at : option DateTime;
}.

Record CreateApprovalRequest := {
  car_lease_token : Uuid;
  car_source_request_id : option Uuid;
  car_requested_action : Value;
  car_expires_at : option DateTime;
}.

Record ResolveApprovalRequest := {
  rar_expected_revision : Z;
  rar_decision : ApprovalDecision;
}.

Record RunInputRequest := {
  inp_schema_version : Z;
  inp_id : Uuid;
  inp_run_id : Uuid;
  inp_revision : Z;
  inp_etag : string;
  inp_prompt : Value;
  inp_state : InputRequestState;
  inp_response : option Value;
  inp_requested_at : DateTime;
  inp_expires_at : DateTime;
  inp_responded_by_user_id : option Uuid;
  inp_responded_at : option DateTime;
}.

Record CreateInputRequest := {
  cir_lease_token : Uuid;
  cir_source_request_id : option Uuid;
  cir_prompt : Value;
  cir_expires_at : option DateTime;
}.

Record SubmitInputResponseRequest := {
  sir_expected_revision : Z;
  sir_response : Value;
}.

Record RunCheckpoint := {
  chk_schema_version : Z;
  chk_id : Uuid;
  chk_run_id : Uuid;
  chk_sequence : Z;
  chk_safe_to_resume : bool;
  chk_executor_state : Value;
  chk_created_at : DateTime;
}.

Record CreateCheckpointRequest := {
  ccr_lease_token : Uuid;
  ccr_source_checkpoint_id : option Uuid;
  ccr_safe_to_resume : bool;
  ccr_executor_state : Value;
}.

Definition row_to_approval (id : Uuid) (row : ApprovalRow) : ApprovalRequest :=
  {| appr_schema_version := SCHEMA_VERSION; appr_id := id; appr_run_id := apr_run_id row;
     appr_revision := apr_revision row; appr_etag := apr_etag row;
     appr_requested_action := apr_requested_action row; appr_state := apr_state row;
     appr_requested_at := apr_requested_at row; appr_expires_at := apr_expires_at row;
     appr_resolved_by_user_id := apr_resolved_by row;
     appr_resolved_at := apr_resolved_at row |}.

Definition row_to_input_request (id : Uuid) (row : InputRow) : RunInputRequest :=
  {| inp_schema_version := SCHEMA_VERSION; inp_id := id; inp_run_id := inr_run_id row;
     inp_revision := inr_revision row; inp_etag := inr_etag row;
     inp_prompt := inr_prompt row; inp_state := inr_state row;
     inp_response := inr_response row; inp_requested_at := inr_requested_at row;
     inp_expires_at := inr_expires_at row; inp_responded_by_user_id := inr_responded_by row;
     inp_responded_at := inr_responded_at row |}.

Definition row_to_checkpoint (id : Uuid) (row : CheckpointRow) : RunCheckpoint :=
  {| chk_schema_version := SCHEMA_VERSION; chk_id := id; chk_run_id := ck_run_id row;
     chk_sequence := ck_sequence row; chk_safe_to_resume := ck_safe_to_resume row;
     chk_executor_state := ck_executor_state row; chk_created_at := ck_created_at row |}.

(** ** Guards *)

Definition ensure_executor_identity (executor_id principal_executor_id : Uuid)
    : result ApiError unit :=
  if bool_decide (principal_executor_id = executor_id) then Ok tt
  else Err (Unauthorized "executor credential does not match the requested executor").

Definition validated_expiry (now : DateTime) (value : option DateTime)
    : result ApiError DateTime :=
  let expires_at := from_option id (now + days DEFAULT_WAIT_DAYS)%Z value in
  if bool_decide (expires_at ≤ now + minutes 1)%Z
     || bool_decide (now + days DEFAULT_WAIT_DAYS < expires_at)%Z
  then Err (Unprocessable "request expiry must be between one minute and seven days")
  else Ok expires_at.

(** Two expiries that differ by at most a microsecond. *)
Definition same_expiry (a b : DateTime) : bool := bool_decide (Z.abs (a - b) ≤ 1)%Z.

(** The UPDATE that moves a run to another state and nothing else. *)
Definition move_row (env : Env) (state : RunState) (revision : Z) (r : RunRow) : RunRow :=
  set_run_state state (set_run_revision revision (set_run_updated_at (db_now env) r)).

Definition move_run_tx (run_id : Uuid) (state : RunState) : Tx unit :=
  db ← get_db;
  env ← ask;
  match runs db !! run_id with
  | None => mret tt
  | Some r =>
      revision ← sql_bigint (run_revision r + 1);
      put_run run_id (move_row env state revision r)
  end.

(** ** Approvals *)

Definition put_approval (id : Uuid) (row : ApprovalRow) : Tx unit :=
  modify (fun db => set_approval_requests (<[id := row]> (approval_requests db)) db).

(** INSERT INTO approval_requests, with the table's keys and unique indexes. *)
Definition insert_approval (id : Uuid) (row : ApprovalRow) : Tx unit :=
  db ← get_db;
  _ ← reject_if (bool_decide (is_Some (approval_requests db !! id)))
        (Database (UniqueViolation "approval_requests_pkey"));
  _ ← reject_if
        (row_exists (fun _ a => bool_decide (apr_run_id a = apr_run_id row)
                                && bool_decide (apr_state a = ApprovalPending))
                    (approval_requests db))
        (Database (UniqueViolation "approval_requests_one_pending_per_run"));
  _ ← reject_if
        (bool_decide (is_Some (apr_source_request_id row))
         && row_exists (fun _ a => bool_decide (apr_run_id a = apr_run_id row)
                                   && bool_decide (apr_source_request_id a
                                                   = apr_source_request_id row))
                       (approval_requests db))
        (Database (UniqueViolation "approval_requests_source_request_unique"));
  _ ← reject_if
        (match apr_requested_by_executor_id row with
         | Some e => bool_decide (executors db !! e = None)
         | None => false
         end)
        (Database (ForeignKeyViolation "approval_requests_requested_by_executor_id_fkey"));
  put_approval id row.

Definition new_approval (env : Env) (id run_id : Uuid) (action : Value) (expires_at : DateTime)
    (executor_id source_request_id : option Uuid) : ApprovalRow :=
  {| apr_run_id := run_id; apr_revision := 1; apr_etag := version_etag id 1;
     apr_requested_action := action; apr_state := ApprovalPending;
     apr_requested_at := db_now env; apr_expires_at := expires_at;
     apr_resolved_by := None; apr_resolved_at := None;
     apr_requested_by_executor_id := executor_id;
     apr_source_request_id := source_request_id |}.

(** The tail both approval paths share: move the run and report it twice. *)
Definition announce_approval (run_id id : Uuid) (action : Value) (expires_at : DateTime) : Tx unit :=
  env ← ask;
  _ ← move_run_tx run_id WaitingApproval;
  _ ← append_event_tx run_id EvApprovalRequested
        (json_obj [("approval_id", juuid id); ("requested_action", action);
                   ("expires_at", JString (rfc3339 env expires_at))]);
  _ ← append_event_tx run_id EvStateChanged (state_changed "running" "waiting_approval");
  mret tt.

Definition approval_by_source (db : Db) (run_id : Uuid) (source : option Uuid)
    : option (Uuid * ApprovalRow) :=
  match source with
  | None => None
  | Some s => select_one (fun _ a => bool_decide (apr_run_id a = run_id)
                                     && bool_decide (apr_source_request_id a = Some s))
                         (approval_requests db)
  end.

(** [true] in the answer: created now; [false]: the earlier request of the same source. *)
Definition create_approval (executor_id run_id principal_executor_id : Uuid)
    (request : CreateApprovalRequest) : Tx (bool * ApprovalRequest) :=
  _ ← lift (ensure_executor_identity executor_id principal_executor_id);
  env ← ask;
  expires_at ← lift (validated_expiry (app_now env) (car_expires_at request));
  run ← verify_lease run_id executor_id (car_lease_token request);
  db ← get_db;
  match approval_by_source db run_id (car_source_request_id request) with
  | Some (id, row) =>
      _ ← reject_if (bool_decide (apr_requested_action row ≠ car_requested_action request)
                     || negb (same_expiry (apr_expires_at row) expires_at))
            (Conflict "source_request_id was already used for a different approval");
      mret (false, row_to_approval id row)
  | None =>
      _ ← reject_if (bool_decide (run_state run ≠ Running))
            (Conflict "a run can request approval only while running");
      id ← fresh_uuid;
      let row := new_approval env id run_id (car_requested_action request) expires_at
                   (Some executor_id) (car_source_request_id request) in
      _ ← insert_approval id row;
      _ ← announce_approval run_id id (car_requested_action request) expires_at;
      mret (true, row_to_approval id row)
  end.

(** The transaction of [await_worker_approval]; its answer is the request to wait for. *)
Definition request_worker_approval (worker_id run_id lease_token : Uuid)
    (requested_action : Value) : Tx Uuid :=
  id ← fresh_uuid;
  env ← ask;
  let expires_at := (app_now env + days DEFAULT_WAIT_DAYS)%Z in
  run ← verify_lease run_id worker_id lease_token;
  _ ← reject_if (bool_decide (run_state run ≠ Running))
        (Conflict "run must be running before requesting approval");
  _ ← insert_approval id (new_approval env id run_id requested_action expires_at None None);
  _ ← announce_approval run_id id requested_action expires_at;
  mret id.

(** The wait loop of [await_worker_approval] over the tables it sees at each poll:
    [None] while every poll finds the request pending. *)
Fixpoint poll_approval (id : Uuid) (polls : list Db) : option (result ApiError bool) :=
  match polls with
  | [] => None
  | db :: polls' =>
      match approval_requests db !! id with
      | None => Some (Err (Conflict "approval request disappeared"))
      | Some a =>
          match apr_state a with
          | ApprovalApproved => Some (Ok true)
          | ApprovalRejected | ApprovalExpired => Some (Ok false)
          | ApprovalPending => poll_approval id polls'
          end
      end
  end.

Definition waiting_error : RunError :=
  {| err_code := "executor_lease_expired_while_waiting";
     err_message := "The executor disconnected while the run was waiting.";
     err_retryable := false;
     err_details := JObject [] |}.

Definition resume_waiting_run (run_id : Uuid) (expected : RunState) : Tx unit :=
  db ← get_db;
  env ← ask;
  r ← require (runs db !! run_id) (run_not_found run_id);
  _ ← reject_if (bool_decide (run_state r ≠ expected))
        (Conflict ("run is " +:+ state_name (run_state r) +:+ ", expected "
                   +:+ state_name expected));
  if lease_unexpired (app_now env) r then
    _ ← move_run_tx run_id Running;
    _ ← append_event_tx run_id EvStateChanged (state_changed (state_name expected) "running");
    mret tt
  else
    revision ← sql_bigint (run_revision r + 1);
    _ ← put_run run_id (interrupt_row env waiting_error revision r);
    _ ← release_assigned (run_assigned_executor_id r) false;
    _ ← append_event_tx run_id EvStateChanged
          (json_obj [("from", JString (state_name expected)); ("to", JString "interrupted");
                     ("reason", JString "executor_lease_expired_while_waiting")]);
    mret tt.

Definition decision_name (d : ApprovalDecision) : string :=
  match d with
  | DecisionApproved => "approved"
  | DecisionRejected => "rejected"
  end.

Definition decision_state (d : ApprovalDecision) : ApprovalState :=
  match d with
  | DecisionApproved => ApprovalApproved
  | DecisionRejected => ApprovalRejected
  end.

Definition set_approval (id : Uuid) (state : ApprovalState) (revision : Z)
    (resolved_by : option Uuid) (resolved_at : option DateTime) (a : ApprovalRow) : ApprovalRow :=
  {| apr_run_id := apr_run_id a; apr_revision := revision; apr_etag := version_etag id revision;
     apr_requested_action := apr_requested_action a; apr_state := state;
     apr_requested_at := apr_requested_at a; apr_expires_at := apr_expires_at a;
     apr_resolved_by := resolved_by; apr_resolved_at := resolved_at;
     apr_requested_by_executor_id := apr_requested_by_executor_id a;
     apr_source_request_id := apr_source_request_id a |}.

Definition resolve_approval (run_id approval_id user_id : Uuid)
    (request : ResolveApprovalRequest) : Tx ApprovalRequest :=
  db ← get_db;
  env ← ask;
  existing ← require
    (match approval_requests db !! approval_id with
     | Some a => if bool_decide (apr_run_id a = run_id) then Some a else None
     | None => None
     end)
    (NotFound ("approval " +:+ uuid_to_string approval_id +:+ " was not found"));
  _ ← reject_if (bool_decide (apr_state existing ≠ ApprovalPending))
        (Conflict "approval is no longer pending");
  _ ← reject_if (bool_decide (apr_revision existing ≠ rar_expected_revision request))
        (Conflict "approval revision changed; reload before resolving");
  revision ← sql_bigint (apr_revision existing + 1);
  let row := set_approval approval_id (decision_state (rar_decision request)) revision
               (Some user_id) (Some (db_now env)) existing in
  _ ← put_approval approval_id row;
  _ ← resume_waiting_run run_id WaitingApproval;
  _ ← append_event_tx run_id EvApprovalResolved
        (json_obj [("approval_id", juuid approval_id);
                   ("decision", JString (decision_name (rar_decision request)));
                   ("resolved_by_user_id", juuid user_id)]);
  mret (row_to_approval approval_id row).

(** ** Input requests *)

Definition put_input (id : Uuid) (row : InputRow) : Tx unit :=
  modify (fun db => set_run_input_requests (<[id := row]> (run_input_requests db)) db).

Definition insert_input (id : Uuid) (row : InputRow) : Tx unit :=
  db ← get_db;
  _ ← reject_if (bool_decide (is_Some (run_input_requests db !! id)))
        (Database (UniqueViolation "run_input_requests_pkey"));
  _ ← reject_if
        (row_exists (fun _ a => bool_decide (inr_run_id a = inr_run_id row)
                                && bool_decide (inr_state a = InputPending))
                    (run_input_requests db))
        (Database (UniqueViolation "run_input_requests_one_pending_per_run"));
  _ ← reject_if
        (bool_decide (is_Some (inr_source_request_id row))
         && row_exists (fun _ a => bool_decide (inr_run_id a = inr_run_id row)
                                   && bool_decide (inr_source_request_id a
                                                   = inr_source_request_id row))
                       (run_input_requests db))
        (Database (UniqueViolation "run_input_requests_source_request_unique"));
  put_input id row.

Definition new_input (env : Env) (id run_id : Uuid) (prompt : Value) (expires_at : DateTime)
    (source_request_id : option Uuid) : InputRow :=
  {| inr_run_id := run_id; inr_revision := 1; inr_etag := version_etag id 1;
     inr_prompt := prompt; inr_state := InputPending; inr_response := None;
     inr_requested_at := db_now env; inr_expires_at := expires_at;
     inr_responded_by := None; inr_responded_at := None;
     inr_source_request_id := source_request_id |}.

Definition announce_input (run_id id : Uuid) (prompt : Value) (expires_at : DateTime) : Tx unit :=
  env ← ask;
  _ ← move_run_tx run_id WaitingInput;
  _ ← append_event_tx run_id EvInputRequested
        (json_obj [("input_request_id", juuid id); ("prompt", prompt);
                   ("expires_at", JString (rfc3339 env expires_at))]);
  _ ← append_event_tx run_id EvStateChanged (state_changed "running" "waiting_input");
  mret tt.

Definition input_by_source (db : Db) (run_id : Uuid) (source : option Uuid)
    : option (Uuid * InputRow) :=
  match source with
  | None => None
  | Some s => select_one (fun _ a => bool_decide (inr_run_id a = run_id)
                                     && bool_decide (inr_source_request_id a = Some s))
                         (run_input_requests db)
  end.

Definition create_input_request (executor_id run_id principal_executor_id : Uuid)
    (request : CreateInputRequest) : Tx (bool * RunInputRequest) :=
  _ ← lift (ensure_executor_identity executor_id principal_executor_id);
  env ← ask;
  expires_at ← lift (validated_expiry (app_now env) (cir_expires_at request));
  run ← verify_lease run_id executor_id (cir_lease_token request);
  db ← get_db;
  match input_by_source db run_id (cir_source_request_id request) with
  | Some (id, row) =>
      _ ← reject_if (bool_decide (inr_prompt row ≠ cir_prompt request)
                     || negb (same_expiry (inr_expires_at row) expires_at))
            (Conflict "source_request_id was already used for a different input request");
      mret (false, row_to_input_request id row)
  | None =>
      _ ← reject_if (bool_decide (run_state run ≠ Running))
            (Conflict "a run can request input only while running");
      id ← fresh_uuid;
      let row := new_input env id run_id (cir_prompt request) expires_at
                   (cir_source_request_id request) in
      _ ← insert_input id row;
      _ ← announce_input run_id id (cir_prompt request) expires_at;
      mret (true, row_to_input_request id row)
  end.

Definition request_worker_input (worker_id run_id lease_token : Uuid) (prompt : Value) : Tx Uuid :=
  id ← fresh_uuid;
  env ← ask;
  let expires_at := (app_now env + days DEFAULT_WAIT_DAYS)%Z in
  run ← verify_lease run_id worker_id lease_token;
  _ ← reject_if (bool_decide (run_state run ≠ Running))
        (Conflict "run must be running before requesting input");
  _ ← insert_input id (new_input env id run_id prompt expires_at None);
  _ ← announce_input run_id id prompt expires_at;
  mret id.

Fixpoint poll_input (id : Uuid) (polls : list Db) : option (result ApiError (option Value)) :=
  match polls with
  | [] => None
  | db :: polls' =>
      match run_input_requests db !! id with
      | None => Some (Err (Conflict "input request disappeared"))
      | Some a =>
          match inr_state a with
          | InputSubmitted => Some (Ok (inr_response a))
          | InputExpired => Some (Ok None)
          | InputPending => poll_input id polls'
          end
      end
  end.

Definition set_input (id : Uuid) (state : InputRequestState) (revision : Z)
    (response : option Value) (responded_by : option Uuid) (responded_at : option DateTime)
    (a : InputRow) : InputRow :=
  {| inr_run_id := inr_run_id a; inr_revision := revision; inr_etag := version_etag id revision;
     inr_prompt := inr_prompt a; inr_state := state; inr_response := response;
     inr_requested_at := inr_requested_at a; inr_expires_at := inr_expires_at a;
     inr_responded_by := responded_by; inr_responded_at := responded_at;
     inr_source_request_id := inr_source_request_id a |}.

Definition submit_input_response (run_id input_id user_id : Uuid)
    (request : SubmitInputResponseRequest) : Tx RunInputRequest :=
  db ← get_db;
  env ← ask;
  existing ← require
    (match run_input_requests db !! input_id with
     | Some a => if bool_decide (inr_run_id a = run_id) then Some a else None
     | None => None
     end)
    (NotFound ("input request " +:+ uuid_to_string input_id +:+ " was not found"));
  _ ← reject_if (bool_decide (inr_state existing ≠ InputPending))
        (Conflict "input request is no longer pending");
  _ ← reject_if (bool_decide (inr_revision existing ≠ sir_expected_revision request))
        (Conflict "input request revision changed; reload before responding");
  revision ← sql_bigint (inr_revision existing + 1);
  let row := set_input input_id InputSubmitted revision (Some (sir_response request))
               (Some user_id) (Some (db_now env)) existing in
  _ ← put_input input_id row;
  _ ← resume_waiting_run run_id WaitingInput;
  _ ← append_event_tx run_id EvInputReceived
        (json_obj [("input_request_id", juuid input_id); ("response", sir_response request);
                   ("responded_by_user_id", juuid user_id)]);
  mret (row_to_input_request input_id row).

(** ** Checkpoints *)

(** [COALESCE(MAX(sequence), 0)] over the run's checkpoints *)
Definition last_checkpoint_sequence (db : Db) (run_id : Uuid) : Z :=
  from_option ck_sequence 0%Z (latest_by ck_sequence (run_checkpoints_of db run_id)).

(** INSERT ... SELECT COALESCE(MAX(sequence), 0) + 1 RETURNING the row *)
Definition insert_checkpoint (id run_id : Uuid) (safe_to_resume : bool)
    (executor_state : Value) : Tx CheckpointRow :=
  db ← get_db;
  env ← ask;
  sequence ← sql_bigint (last_checkpoint_sequence db run_id + 1);
  let row := {| ck_run_id := run_id; ck_sequence := sequence;
                ck_safe_to_resume := safe_to_resume; ck_executor_state := executor_state;
                ck_created_at := db_now env |} in
  _ ← reject_if (bool_decide (is_Some (run_checkpoints db !! id)))
        (Database (UniqueViolation "run_checkpoints_pkey"));
  _ ← reject_if
        (row_exists (fun _ c => bool_decide (ck_run_id c = run_id)
                                && bool_decide (ck_sequence c = sequence)) (run_checkpoints db))
        (Database (UniqueViolation "run_checkpoints_run_id_sequence_key"));
  _ ← modify (fun db => set_run_checkpoints (<[id := row]> (run_checkpoints db)) db);
  mret row.

Definition checkpoint_created (id : Uuid) (row : CheckpointRow) : Value :=
  json_obj [("checkpoint_id", juuid id); ("sequence", jint (ck_sequence row));
            ("safe_to_resume", JBool (ck_safe_to_resume row))].

Definition create_checkpoint (executor_id run_id principal_executor_id : Uuid)
    (request : CreateCheckpointRequest) : Tx (bool * RunCheckpoint) :=
  _ ← lift (ensure_executor_identity executor_id principal_executor_id);
  _ ← verify_lease run_id executor_id (ccr_lease_token request);
  db ← get_db;
  match (match ccr_source_checkpoint_id request with
         | Some id => match run_checkpoints db !! id with
                      | Some c => Some (id, c)
                      | None => None
                      end
         | None => None
         end) with
  | Some (id, row) =>
      _ ← reject_if
            (bool_decide (ck_run_id row ≠ run_id)
             || negb (Bool.eqb (ck_safe_to_resume row) (ccr_safe_to_resume request))
             || bool_decide (ck_executor_state row ≠ ccr_executor_state request))
            (Conflict "source_checkpoint_id was already used for different checkpoint content");
      mret (false, row_to_checkpoint id row)
  | None =>
      id ← (match ccr_source_checkpoint_id request with
            | Some id => mret id
            | None => fresh_uuid
            end);
      row ← insert_checkpoint id run_id (ccr_safe_to_resume request)
              (ccr_executor_state request);
      _ ← append_event_tx run_id EvCheckpointCreated (checkpoint_created id row);
      mret (true, row_to_checkpoint id row)
  end.

Definition create_worker_checkpoint (worker_id run_id lease_token : Uuid)
    (safe_to_resume : bool) (executor_state : Value) : Tx RunCheckpoint :=
  _ ← verify_lease run_id worker_id lease_token;
  id ← fresh_uuid;
  row ← insert_checkpoint id run_id safe_to_resume executor_state;
  _ ← append_event_tx run_id EvCheckpointCreated (checkpoint_created id row);
  mret (row_to_checkpoint id row).

(** ** Expiry of unanswered requests *)

Definition due_approvals (db : Db) (now : DateTime) : list (Uuid * ApprovalRow) :=
  filter (fun kv => apr_state kv.2 = ApprovalPending /\ (apr_expires_at kv.2 ≤ now)%Z)
    (map_to_list (approval_requests db)).

Definition due_inputs (db : Db) (now : DateTime) : list (Uuid * InputRow) :=
  filter (fun kv => inr_state kv.2 = InputPending /\ (inr_expires_at kv.2 ≤ now)%Z)
    (map_to_list (run_input_requests db)).

Definition expire_approval (kv : Uuid * ApprovalRow) : Tx unit :=
  revision ← sql_bigint (apr_revision kv.2 + 1);
  put_approval kv.1 (set_approval kv.1 ApprovalExpired revision (apr_resolved_by kv.2)
                       (apr_resolved_at kv.2) kv.2).

Definition expire_input (kv : Uuid * InputRow) : Tx unit :=
  revision ← sql_bigint (inr_revision kv.2 + 1);
  put_input kv.1 (set_input kv.1 InputExpired revision (inr_response kv.2)
                    (inr_responded_by kv.2) (inr_responded_at kv.2) kv.2).

(** The two UPDATE ... RETURNING run_id statements. *)
Definition expire_approvals (now : DateTime) : Tx (list Uuid) :=
  db ← get_db;
  _ ← tx_iter expire_approval (due_approvals db now);
  mret ((fun kv => apr_run_id kv.2) <$> due_approvals db now).

Definition expire_inputs (now : DateTime) : Tx (list Uuid) :=
  db ← get_db;
  _ ← tx_iter expire_input (due_inputs db now);
  mret ((fun kv => inr_run_id kv.2) <$> due_inputs db now).

(** A run whose request expired is expired when it still waits; what the
    transition answers is ignored. *)
Definition expire_waiting_run (env : Env) (waiting : RunState) (db : Db) (run_id : Uuid) : Db :=
  match get_run db run_id with
  | Ok run =>
      if bool_decide (rec_state run = waiting)
      then (run_tx env db (transition_run run_id Expired None None)).1
      else db
  | Err _ => db
  end.

Fixpoint expire_waiting_runs (envs : nat -> Env) (n : nat) (waiting : RunState)
    (run_ids : list Uuid) (db : Db) : Db :=
  match run_ids with
  | [] => db
  | id :: run_ids' =>
      expire_waiting_runs envs (S n) waiting run_ids'
        (expire_waiting_run (envs n) waiting db id)
  end.

(** Every statement commits on its own; [envs n] is what the [n]-th one reads. *)
Definition expire_pending_workflows (envs : nat -> Env) (now : DateTime) (db : Db)
    : Db * result ApiError Z :=
  let '(db1, r1) := run_tx (envs 0) db (expire_approvals now) in
  match r1 with
  | Err e => (db1, Err e)
  | Ok approvals =>
      let '(db2, r2) := run_tx (envs 1) db1 (expire_inputs now) in
      match r2 with
      | Err e => (db2, Err e)
      | Ok inputs =>
          let db3 := expire_waiting_runs envs 2 WaitingApproval approvals db2 in
          let db4 := expire_waiting_runs envs (2 + length approvals) WaitingInput inputs db3 in
          (db4, Ok (Z.of_nat (length approvals) + Z.of_nat (length inputs))%Z)
      end
  end.
