(* ===== verification/Routing.v ===== *)
(** * Where a run starts and what wakes it up

    The run handlers' validation and initial state (server/cowork-server/src/
    routes.rs) and the wake-up of runs that wait for a snapshot
    (server/cowork-server/src/storage.rs). *)

From S2P Require Import Prelude.
From S2P Require Import Json.
From S2P Require Import Contracts.
From S2P Require Import Store.
From S2P Require Import SyncPublish.
From S2P Require Import RunStore.

Record CreateRunRequest := {
  crr_thread_id : Uuid;
  crr_project_id : Uuid;
  crr_project_revision : Z;
  crr_project_privacy : ProjectPrivacy;
  crr_task : option FrozenReference;
  crr_executor_target : ExecutorTarget;
  crr_required_capabilities : list Capability;
  crr_input : Value;
  crr_model_profile_id : option Uuid;
  crr_snapshot_id : option Uuid;
  crr_idempotency_key : string;
}.

Definition validate_create_run (request : CreateRunRequest) : result ApiError unit :=
  if bool_decide (crr_project_revision request < 1)%Z
  then Err (Unprocessable "project_revision must be at least one")
  else if str_is_empty (trim (crr_idempotency_key request))
          || bool_decide (200 < str_len (crr_idempotency_key request))%Z
  then Err (Unprocessable "idempotency_key must contain 1 to 200 characters")
  else if existsb (fun c => str_is_empty (trim c) || bool_decide (100 < str_len c)%Z)
            (crr_required_capabilities request)
  then Err (Unprocessable "capability names must contain 1 to 100 characters")
  else Ok tt.

Definition MAX_MESSAGE_BYTES : Z := 262144.

Definition validate_message_content (env : Env) (content : Value) : result ApiError unit :=
  if is_null content then Err (Unprocessable "message content must not be null")
  else if bool_decide (MAX_MESSAGE_BYTES < json_len env content)%Z
  then Err (Unprocessable ("message content must not exceed " +:+ pretty MAX_MESSAGE_BYTES
                           +:+ " bytes"))
  else Ok tt.

(** Every required capability is one the server offers. *)
Definition server_supports (server_capabilities required : list Capability) : bool :=
  forallb (fun c => str_mem c server_capabilities) required.

Definition is_personal_device (target : ExecutorTarget) : bool :=
  match target with
  | PersonalDevice _ => true
  | _ => false
  end.

Definition initial_run_state (env : Env) (db : Db) (server_capabilities : list Capability)
    (request : CreateRunRequest) : result ApiError RunState :=
  snapshot_ready ←
    match crr_snapshot_id request with
    | None => Ok true
    | Some snapshot_id =>
        m ← ok_or (Unprocessable "snapshot_id must identify a snapshot from the selected project")
              (match snapshot_manifests db !! snapshot_id with
               | Some m => if bool_decide (mf_project_id m = crr_project_id request)
                           then Some m else None
               | None => None
               end);
        Ok (bool_decide (mf_status m = "ready"))
    end;
  if negb snapshot_ready then Ok WaitingForSnapshot
  else if bool_decide (crr_project_privacy request = PrivateLocal)
          && negb (is_personal_device (crr_executor_target request))
          && bool_decide (crr_snapshot_id request = None)
  then Ok WaitingForSnapshot
  else
    match crr_executor_target request with
    | ServerLinux _ =>
        Ok (if server_supports server_capabilities (crr_required_capabilities request)
            then Queued else WaitingForExecutor)
    | target =>
        found ← target_has_executor env db target (crr_required_capabilities request)
                  (crr_input request);
        Ok (if found : bool then Queued else WaitingForExecutor)
    end.

(** The runs that wait for this snapshot. *)
Definition snapshot_waiters (db : Db) (manifest_id : Uuid) : list Uuid :=
  (filter (fun kv => ins_snapshot_id (run_ins kv.2) = Some manifest_id
                     /\ run_state kv.2 = WaitingForSnapshot) (map_to_list (runs db))).*1.

(** The state a waiting run moves to. *)
Definition wake_state (env : Env) (db : Db) (server_capabilities : list Capability)
    (run : RunRecord) : result ApiError RunState :=
  let spec := rec_spec run in
  available ←
    match spec_executor_target spec with
    | ServerLinux _ => Ok (server_supports server_capabilities (spec_required_capabilities spec))
    | target => target_has_executor env db target (spec_required_capabilities spec)
                  (spec_input spec)
    end;
  Ok (if available : bool then Queued else WaitingForExecutor).

(** One iteration; each statement commits on its own. *)
Definition wake_run (env : Env) (server_capabilities : list Capability) (run_id : Uuid)
    (db : Db) : Db * result ApiError unit :=
  match (run ← get_run db run_id; wake_state env db server_capabilities run) with
  | Err e => (db, Err e)
  | Ok next =>
      let '(db', r) := run_tx env db (transition_run run_id next None None) in
      (db', _ ← r; Ok tt)
  end.

Fixpoint wake_runs (envs : nat -> Env) (n : nat) (server_capabilities : list Capability)
    (run_ids : list Uuid) (db : Db) : Db * result ApiError unit :=
  match run_ids with
  | [] => (db, Ok tt)
  | id :: run_ids' =>
      match wake_run (envs n) server_capabilities id db with
      | (db', Err e) => (db', Err e)
      | (db', Ok _) => wake_runs envs (S n) server_capabilities run_ids' db'
      end
  end.

Definition resume_snapshot_runs (envs : nat -> Env) (server_capabilities : list Capability)
    (manifest_id : Uuid) (db : Db) : Db * result ApiError unit :=
  wake_runs envs 0 server_capabilities (snapshot_waiters db manifest_id) db.
