(* ===== verification/RunInv.v ===== *)
(** * Invariants of the run store *)

From S2P Require Import Prelude.
From S2P Require Import Json.
From S2P Require Import Contracts.
From S2P Require Import Store.
From S2P Require Import Governance.
From S2P Require Import SyncPublish.
From S2P Require Import RunStore.
From S2P Require Import Workflow.

(** ** Tables a transaction leaves alone *)

(** The run tables and the quota configuration are untouched. *)
Record same_runs (db db' : Db) : Prop := {
  sr_runs : runs db' = runs db;
  sr_events : run_events db' = run_events db;
  sr_checkpoints : run_checkpoints db' = run_checkpoints db;
  sr_approvals : approval_requests db' = approval_requests db;
  sr_inputs : run_input_requests db' = run_input_requests db;
  sr_projects : projects db' = projects db;
  sr_limits : quota_limits db' = quota_limits db;
}.

#[global] Instance same_runs_preorder : PreOrder same_runs.
Proof.
  split; [done|]. intros d1 d2 d3 [] []. split; by etrans.
Qed.

Lemma frames_modify_same f :
  (forall db, same_runs db (f db)) -> frames same_runs (modify f).
Proof. apply frames_modify. Qed.

#[export] Hint Extern 3 (frames same_runs (modify _)) =>
  apply frames_modify_same; intros ?; split; reflexivity : store.

Lemma put_executor_same id row : frames same_runs (put_executor id row).
Proof. unfold put_executor. eauto with store. Qed.
#[export] Hint Resolve put_executor_same : store.

Lemma release_executor_same id seen : frames same_runs (release_executor id seen).
Proof. unfold release_executor. frames_steps. Qed.
#[export] Hint Resolve release_executor_same : store.

Lemma release_assigned_same id seen : frames same_runs (release_assigned id seen).
Proof. unfold release_assigned. frames_steps. Qed.

Lemma insert_push_delivery_same run_id seq kind :
  frames same_runs (insert_push_delivery run_id seq kind).
Proof. unfold insert_push_delivery. frames_steps. Qed.

Lemma enforce_run_scope_same scope : frames same_runs (enforce_run_scope scope).
Proof. unfold enforce_run_scope. frames_steps. Qed.
#[export] Hint Resolve enforce_run_scope_same : store.

Lemma enforce_storage_quota_same t i b : frames same_runs (enforce_storage_quota_tx t i b).
Proof. unfold enforce_storage_quota_tx. frames_steps. Qed.
#[export] Hint Resolve enforce_storage_quota_same : store.

Lemma ensure_model_quota_same id : frames same_runs (ensure_model_quota_for_run_tx id).
Proof. unfold ensure_model_quota_for_run_tx, run_quota_scopes_tx, ensure_model_scope. frames_steps. Qed.

Lemma record_model_usage_same id t c : frames same_runs (record_model_usage_for_run_tx id t c).
Proof. unfold record_model_usage_for_run_tx, run_quota_scopes_tx, add_usage. frames_steps. Qed.

Lemma put_sync_entity_same u t i r p d : frames same_runs (put_sync_entity u t i r p d).
Proof. unfold put_sync_entity. frames_steps. Qed.
Lemma append_sync_change_same u t i r o p : frames same_runs (append_sync_change u t i r o p).
Proof. unfold append_sync_change. frames_steps. Qed.
#[export] Hint Resolve put_sync_entity_same append_sync_change_same : store.
Lemma write_entity_version_same u t i r o p :
  frames same_runs (write_entity_version u t i r o p).
Proof. unfold write_entity_version. frames_steps. Qed.
#[export] Hint Resolve write_entity_version_same : store.
Lemma publish_server_entity_same u t i p : frames same_runs (publish_server_entity_tx u t i p).
Proof. unfold publish_server_entity_tx. frames_steps. Qed.
#[export] Hint Resolve publish_server_entity_same : store.

Lemma remember_materialization_same u t i : frames same_runs (remember_materialization u t i).
Proof. unfold remember_materialization. frames_steps. Qed.
#[export] Hint Resolve remember_materialization_same : store.

Lemma publish_project_same id : frames same_runs (publish_canonical_project_tx id).
Proof. unfold publish_canonical_project_tx. frames_steps. Qed.
#[export] Hint Resolve publish_project_same : store.

Lemma publish_thread_same id : frames same_runs (publish_canonical_thread_tx id).
Proof. unfold publish_canonical_thread_tx. frames_steps. Qed.
#[export] Hint Resolve publish_thread_same : store.

Lemma publish_message_same id : frames same_runs (publish_canonical_message_tx id).
Proof. unfold publish_canonical_message_tx. frames_steps. Qed.
#[export] Hint Resolve publish_message_same : store.

Lemma touch_thread_same id : frames same_runs (touch_thread_tx id).
Proof. unfold touch_thread_tx. frames_steps. Qed.
#[export] Hint Resolve touch_thread_same : store.

Lemma append_assistant_message_same id content :
  frames same_runs (append_assistant_message_tx id content).
Proof. unfold append_assistant_message_tx, put_message. frames_steps. Qed.

Lemma create_run_result_version_same run m d :
  frames same_runs (create_run_result_version_tx run m d).
Proof. unfold create_run_result_version_tx. frames_steps. Qed.

#[export] Hint Resolve release_assigned_same insert_push_delivery_same ensure_model_quota_same
  record_model_usage_same append_assistant_message_same create_run_result_version_same : store.

(** ** How a run row may change *)

(** A row that only appended events. *)
Definition touch (r r' : RunRow) : Prop :=
  exists n, (run_next_event_sequence r ≤ n)%Z /\ r' = set_run_next_event_sequence n r.

(** The states in which a run waits to be claimed. *)
Definition is_claimable (s : RunState) : bool :=
  match s with
  | Queued | WaitingForExecutor => true
  | _ => false
  end.

(** A row one transaction later: the inserted columns are the same, the state moved
    along one transition of the contract, a new state has a new revision, and a run
    that becomes claimable was created with a snapshot. *)
Record row_step (r r' : RunRow) : Prop := {
  rs_ins : run_ins r' = run_ins r;
  rs_state : can_transition_to (run_state r) (run_state r') = true;
  rs_claimable : is_claimable (run_state r') = true ->
    run_state r' = run_state r \/ is_Some (ins_snapshot_id (run_ins r));
  rs_revision : (run_revision r ≤ run_revision r')%Z;
  rs_revision_new : run_state r' ≠ run_state r -> (run_revision r < run_revision r')%Z;
  rs_seq : (run_next_event_sequence r ≤ run_next_event_sequence r')%Z;
}.

(** A run as it is created. *)
Record born (r : RunRow) : Prop := {
  bo_state : run_state r = Queued \/ run_state r = WaitingForExecutor
             \/ run_state r = WaitingForSnapshot;
  bo_revision : run_revision r = 1%Z;
  bo_unassigned : run_assigned_executor_id r = None;
}.

Lemma can_transition_refl s : can_transition_to s s = true.
Proof. unfold can_transition_to. by rewrite decide_True. Qed.

#[global] Instance touch_preorder : PreOrder touch.
Proof.
  split.
  - intros r. exists (run_next_event_sequence r). split; [lia|by destruct r].
  - intros r1 ? ? (n & ? & ->) (m & ? & ->). exists m. simpl in *. split; [lia|done].
Qed.

Lemma row_step_touch r r1 r2 : row_step r r1 -> touch r1 r2 -> row_step r r2.
Proof. intros [] (n & ? & ->). split; simpl; auto. lia. Qed.

Lemma touch_row_step r r' : touch r r' -> row_step r r'.
Proof. intros (n & ? & ->). split; simpl; auto using can_transition_refl; done. Qed.

#[global] Instance row_step_refl : Reflexive row_step.
Proof. intros r. by apply touch_row_step. Qed.

(** A new run that passed the concurrency quota of every scope it counts for. *)
Definition admitted (db : Db) (r : RunRow) : Prop :=
  born r /\ forall scope limit, run_counts_for db scope r = true ->
    concurrent_limit db scope = Some limit -> (running_runs db scope < limit)%Z.

Lemma admitted_touch db r r' : admitted db r -> touch r r' -> admitted db r'.
Proof. intros [[] ?] (n & ? & ->). by split. Qed.

(** ** How the tables may change

    [db_rel R N db db']: every run is still there, changed as [R] allows; at most one
    run is new, and it satisfies [N]; an event stays as it is; an event that is new
    has a sequence number its run had not yet allocated. *)
Record db_rel (R : RunRow -> RunRow -> Prop) (N : RunRow -> Prop) (db db' : Db) : Prop := {
  dr_rows : forall id r, runs db !! id = Some r ->
            exists r', runs db' !! id = Some r' /\ R r r';
  dr_new : forall id r', runs db' !! id = Some r' -> runs db !! id = None -> N r';
  dr_one : forall id1 id2 r1 r2, runs db' !! id1 = Some r1 -> runs db !! id1 = None ->
           runs db' !! id2 = Some r2 -> runs db !! id2 = None -> id1 = id2;
  dr_kept : forall eid e, run_events db !! eid = Some e -> run_events db' !! eid = Some e;
  dr_fresh : forall eid e r, run_events db' !! eid = Some e ->
             run_events db !! eid = None -> runs db !! evr_run_id e = Some r ->
             (run_next_event_sequence r ≤ evr_sequence e)%Z;
  dr_projects : projects db' = projects db;
  dr_limits : quota_limits db' = quota_limits db;
}.

Abbreviation touched := (db_rel touch (fun _ => False)).
Definition db_step (db db' : Db) : Prop := db_rel row_step (admitted db) db db'.

Lemma db_rel_same R N `{!Reflexive R} db db' : same_runs db db' -> db_rel R N db db'.
Proof.
  intros [Hr He _ _ _ ? ?]. split; rewrite ?Hr, ?He; auto; try congruence.
  intros id r Hid. exists r. by split.
Qed.

(** Appending events after a change gives a change of the same kind. *)
Lemma db_rel_touched R N db db1 db2 :
  (forall r r1 r2, R r r1 -> touch r1 r2 -> R r r2) ->
  (forall r r1, R r r1 -> (run_next_event_sequence r ≤ run_next_event_sequence r1)%Z) ->
  (forall r r1, N r -> touch r r1 -> N r1) ->
  db_rel R N db db1 -> touched db1 db2 -> db_rel R N db db2.
Proof.
  intros HR Hseq HN [A1 A2 A3 A4 A5 A6 A7] [B1 B2 B3 B4 B5 B6 B7].
  assert (Hback : forall id r2, runs db2 !! id = Some r2 ->
            exists r1, runs db1 !! id = Some r1 /\ touch r1 r2).
  { intros id r2 H2. destruct (runs db1 !! id) as [r1|] eqn:H1; [|exfalso; eauto].
    destruct (B1 _ _ H1) as (r2' & ? & ?). simplify_eq. eauto. }
  split; [| | |eauto| |congruence..].
  - intros id r Hid. destruct (A1 _ _ Hid) as (r1 & Hr1 & HR1).
    destruct (B1 _ _ Hr1) as (r2 & Hr2 & HR2). eauto.
  - intros id r2 (r1 & ? & ?)%Hback Hnone. eauto.
  - intros i1 i2 r1 r2 (x1 & ? & _)%Hback ? (x2 & ? & _)%Hback ?. eauto.
  - intros eid e r He Hnone Hr. destruct (run_events db1 !! eid) as [e1|] eqn:He1.
    + pose proof (B4 _ _ He1). simplify_eq. eauto.
    + destruct (A1 _ _ Hr) as (r1 & Hr1 & HR1). specialize (Hseq _ _ HR1).
      specialize (B5 _ _ _ He He1 Hr1). lia.
Qed.

#[global] Instance touched_preorder : PreOrder touched.
Proof.
  split; [intros db; apply db_rel_same; [apply _|reflexivity]|].
  intros d1 d2 d3. apply db_rel_touched; [intros; by etrans|by intros ?? (n & ? & ->)|done].
Qed.

Lemma db_step_touched db db1 db2 : db_step db db1 -> touched db1 db2 -> db_step db db2.
Proof.
  apply db_rel_touched; [apply row_step_touch|intros ?? []; done|apply admitted_touch].
Qed.

(** ** The invariant *)

(** A lease is recorded exactly in the states an executor works in, and then the run
    is assigned to the lease's owner. *)
Definition lease_ok (r : RunRow) : Prop :=
  if is_leased_state (run_state r) then
    is_Some (run_lease_owner r) /\ is_Some (run_lease_token r)
    /\ is_Some (run_lease_expires_at r)
    /\ run_assigned_executor_id r = run_lease_owner r
  else run_lease_owner r = None /\ run_lease_token r = None /\ run_lease_expires_at r = None.

Record run_ok (id : Uuid) (r : RunRow) : Prop := {
  ro_id : spec_id (ins_spec (run_ins r)) = id;
  ro_columns : run_ins r = new_run_insert (ins_spec (run_ins r));
  ro_lease : lease_ok r;
  ro_revision : (1 ≤ run_revision r)%Z;
  ro_next : (1 ≤ run_next_event_sequence r)%Z;
}.

Record Inv (db : Db) : Prop := {
  inv_runs : forall id r, runs db !! id = Some r -> run_ok id r;
  inv_key : forall id1 id2 r1 r2,
    runs db !! id1 = Some r1 -> runs db !! id2 = Some r2 ->
    ins_creator_user_id (run_ins r1) = ins_creator_user_id (run_ins r2) ->
    ins_idempotency_key (run_ins r1) = ins_idempotency_key (run_ins r2) -> id1 = id2;
  inv_bounds : forall eid e, run_events db !! eid = Some e ->
    exists r, runs db !! evr_run_id e = Some r
              /\ (1 ≤ evr_sequence e < run_next_event_sequence r)%Z;
  inv_unique : forall e1 e2 x y, run_events db !! e1 = Some x -> run_events db !! e2 = Some y ->
    evr_run_id x = evr_run_id y -> evr_sequence x = evr_sequence y -> e1 = e2;
  inv_complete : forall id r n, runs db !! id = Some r -> is_terminal (run_state r) = false ->
    (1 ≤ n < run_next_event_sequence r)%Z ->
    exists eid e, run_events db !! eid = Some e /\ evr_run_id e = id /\ evr_sequence e = n;
}.

Lemma Inv_same db db' : same_runs db db' -> Inv db -> Inv db'.
Proof. intros [Hr He _ _ _ _ _] []. split; rewrite ?Hr, ?He; auto. Qed.

(** What an appending transaction does to a good database. *)
Definition appends (db db' : Db) : Prop := Inv db -> Inv db' /\ touched db db'.

#[global] Instance appends_preorder : PreOrder appends.
Proof.
  split; [intros db HI; split; [done|reflexivity]|]. intros d1 d2 d3 H12 H23 HI.
  destruct (H12 HI) as [HI2 ?]. destruct (H23 HI2) as [HI3 ?]. split; [done|by etrans].
Qed.

Lemma same_appends {A} (m : Tx A) : frames same_runs m -> frames appends m.
Proof.
  intros Hm env s. eapply wp_mono; [apply Hm|]. intros a s' H HI.
  simpl in H. split; [by apply (Inv_same _ _ H)|by apply db_rel_same; [apply _|]].
Qed.

(** ** Appending an event *)

(** The tables after one event was appended to run [id]. *)
Definition with_event (id eid : Uuid) (e : EventRow) (n : Z) (r : RunRow) (db : Db) : Db :=
  set_run_events (<[eid := e]> (run_events db))
    (set_runs (<[id := set_run_next_event_sequence n r]> (runs db)) db).

Lemma with_event_new id eid e r db id' r' :
  runs db !! id = Some r ->
  runs (with_event id eid e (run_next_event_sequence r + 1) r db) !! id' = Some r' ->
  exists r0, runs db !! id' = Some r0 /\ touch r0 r'.
Proof.
  intros Hr H'. simpl in H'. apply lookup_insert_Some in H' as [[<- <-]|[? H']].
  - exists r. split; [done|]. eexists; split; [|done]. lia.
  - exists r'. by split.
Qed.

Lemma with_event_old id eid e r db id' r' :
  runs db !! id = Some r -> runs db !! id' = Some r' ->
  exists r1, runs (with_event id eid e (run_next_event_sequence r + 1) r db) !! id' = Some r1
    /\ touch r' r1
    /\ (run_next_event_sequence r1 =
        if decide (id' = id) then run_next_event_sequence r' + 1
        else run_next_event_sequence r')%Z.
Proof.
  intros Hr H'. simpl. destruct (decide (id' = id)) as [->|Hne].
  - rewrite lookup_insert_eq. simplify_eq. eexists; split; [done|].
    split; [|done]. eexists; split; [|done]. lia.
  - rewrite lookup_insert_ne by done. exists r'. by split.
Qed.

Lemma with_event_appends id eid e r db :
  runs db !! id = Some r -> run_events db !! eid = None ->
  evr_run_id e = id -> evr_sequence e = run_next_event_sequence r ->
  appends db (with_event id eid e (run_next_event_sequence r + 1) r db).
Proof.
  intros Hr Hnone Hid Hseq HI.
  pose proof (fun id' r' => with_event_new id eid e r db id' r' Hr) as Hnew.
  pose proof (fun id' r' => with_event_old id eid e r db id' r' Hr) as Hold.
  destruct HI as [H1 H2 H3 H4 H5]. split; [split|split; [| | | | |done..]].
  - intros id' r' (r0 & Hr0 & n & ? & ->)%Hnew. destruct (H1 _ _ Hr0) as [????].
    split; simpl; auto. lia.
  - intros i1 i2 r1 r2 (x & Hx & n & ? & ->)%Hnew (y & Hy & m & ? & ->)%Hnew. eauto.
  - intros eid' e' He. simpl in He. apply lookup_insert_Some in He as [[<- <-]|[? He]].
    + rewrite Hid. destruct (Hold _ _ Hr) as (r1 & Hr1 & _ & Hn). exists r1.
      rewrite decide_True in Hn by done. destruct (H1 _ _ Hr). split; [done|lia].
    + destruct (H3 _ _ He) as (r0 & Hr0 & ?). destruct (Hold _ _ Hr0) as (r1 & Hr1 & _ & Hn).
      exists r1. split; [done|]. case_decide; lia.
  - intros e1 e2 x y Hx Hy Hxy Hs. simpl in Hx, Hy.
    apply lookup_insert_Some in Hx as [[<- <-]|[? Hx]];
      apply lookup_insert_Some in Hy as [[<- <-]|[? Hy]]; [done| | |eauto].
    + destruct (H3 _ _ Hy) as (r0 & ? & ?). rewrite <- Hxy, Hid in *. simplify_eq. lia.
    + destruct (H3 _ _ Hx) as (r0 & ? & ?). rewrite Hxy, Hid in *. simplify_eq. lia.
  - intros id' r' k Hr' Hterm Hk. destruct (Hnew _ _ Hr') as (r0 & Hr0 & n & Hn & ->).
    destruct (Hold _ _ Hr0) as (r1 & Hr1 & _ & Hnext). simplify_eq. simpl in *.
    destruct (decide (k < run_next_event_sequence r0)%Z) as [Hlt|Hge].
    + destruct (H5 id' r0 k) as (eid' & e' & He & ? & ?); [done|done|lia|].
      exists eid', e'. split; [|done]. rewrite lookup_insert_ne by congruence. done.
    + case_decide; [|lia]. simplify_eq. exists eid, e. rewrite lookup_insert_eq.
      split; [done|]. split; [done|]. lia.
  - intros id' r' Hr'. destruct (Hold _ _ Hr') as (r1 & ? & ? & _). eauto.
  - intros id' r' (r0 & ? & _)%Hnew ?. congruence.
  - intros i1 i2 r1 r2 (r0 & ? & _)%Hnew ?. congruence.
  - intros eid' e' He. simpl. rewrite lookup_insert_ne by congruence. done.
  - intros eid' e' r' He Hno Hr'. simpl in He.
    apply lookup_insert_Some in He as [[<- <-]|[? He]]; [|congruence].
    rewrite Hid in Hr'. simplify_eq. lia.
Qed.

Lemma append_event_with_id_appends id eid kind payload :
  frames appends (append_event_tx_with_id id eid kind payload).
Proof.
  intros env s. unfold append_event_tx_with_id, put_run. wp_steps.
  destruct (run_events (tx_db s) !! eid) as [old|] eqn:He; wp_steps; [reflexivity|].
  rename a into r. set (e := {| evr_run_id := id |}).
  assert (Hstep : appends (tx_db s)
            (with_event id eid e (run_next_event_sequence r + 1) r (tx_db s))).
  { apply with_event_appends; simpl; [done..|lia]. }
  destruct (should_push kind); wp_steps; [|exact Hstep].
  eapply wp_frames; [apply same_appends; eauto with store|].
  intros _ s' Hs'. wp_steps. etrans; [exact Hstep|exact Hs'].
Qed.

Lemma append_event_appends id kind payload : frames appends (append_event_tx id kind payload).
Proof.
  unfold append_event_tx. apply frames_bind; [apply _|eauto with store typeclass_instances|].
  intros eid. apply append_event_with_id_appends.
Qed.
#[export] Hint Resolve append_event_appends append_event_with_id_appends : store.
#[export] Hint Extern 5 (frames appends _) => apply same_appends; solve [eauto with store] : store.

(** ** Changing a row *)

(** Rows change in place, by steps that keep the lease columns in order and append
    no event. *)
Record rows_moved (db db' : Db) : Prop := {
  rm_events : run_events db' = run_events db;
  rm_projects : projects db' = projects db;
  rm_limits : quota_limits db' = quota_limits db;
  rm_none : forall id, runs db !! id = None -> runs db' !! id = None;
  rm_some : forall id r, runs db !! id = Some r -> exists r', runs db' !! id = Some r'
            /\ row_step r r' /\ (lease_ok r -> lease_ok r')
            /\ run_next_event_sequence r' = run_next_event_sequence r;
}.

Lemma rows_moved_back db db' id r' :
  rows_moved db db' -> runs db' !! id = Some r' -> exists r, runs db !! id = Some r
  /\ row_step r r' /\ (lease_ok r -> lease_ok r')
  /\ run_next_event_sequence r' = run_next_event_sequence r.
Proof.
  intros [_ _ _ Hn Hs] Hr'. destruct (runs db !! id) as [r|] eqn:Hr.
  - destruct (Hs _ _ Hr) as (r1 & ? & ?). simplify_eq. eauto.
  - rewrite Hn in Hr'; done.
Qed.

Lemma rows_moved_Inv db db' : rows_moved db db' -> Inv db -> Inv db'.
Proof.
  intros Hm [H1 H2 H3 H4 H5]. pose proof (rm_events _ _ Hm) as He. split; rewrite ?He; [| | |done|].
  - intros id x (y & Hy & [] & Hl & Hn)%(rows_moved_back _ _ _ _ Hm). destruct (H1 _ _ Hy).
    split; rewrite ?rs_ins0; auto; lia.
  - intros i1 i2 x1 x2 (y1 & Hy1 & [-> ?????] & _)%(rows_moved_back _ _ _ _ Hm)
      (y2 & Hy2 & [-> ?????] & _)%(rows_moved_back _ _ _ _ Hm). eauto.
  - intros eid e Hev. destruct (H3 _ _ Hev) as (x & Hx & ?).
    destruct (rm_some _ _ Hm _ _ Hx) as (y & Hy & _ & _ & Hn). exists y. rewrite Hn. by split.
  - intros id x n (y & Hy & [] & _ & Hn)%(rows_moved_back _ _ _ _ Hm) Hterm Hb.
    apply (H5 _ y); [done| |lia]. destruct (is_terminal (run_state y)) eqn:Hty; [|done].
    rewrite (terminal_transition _ _ Hty rs_state0) in Hterm. congruence.
Qed.

(** ** Safe transactions *)

(** From a good database to a good one, every run at most one transition further. *)
Definition safe (db db' : Db) : Prop := Inv db -> Inv db' /\ db_step db db'.

Lemma safe_appends db db1 db2 : safe db db1 -> appends db1 db2 -> safe db db2.
Proof.
  intros H1 H2 HI. destruct (H1 HI) as [HI1 S1]. destruct (H2 HI1) as [HI2 S2].
  split; [done|by eapply db_step_touched].
Qed.

Lemma appends_safe db db' : appends db db' -> safe db db'.
Proof.
  intros H HI. destruct (H HI) as [HI' [H1 H2 H3 H4 H5 H6 H7]]. split; [done|].
  split; [| |done..]; [|intros id r' Hid Hnone; by destruct (H2 _ _ Hid Hnone)].
  intros id r Hid. destruct (H1 _ _ Hid) as (r' & ? & ?). eauto using touch_row_step.
Qed.

(** The invariant and [db_step] only look at these tables. *)
Definition same_log (db db' : Db) : Prop :=
  runs db' = runs db /\ run_events db' = run_events db
  /\ projects db' = projects db /\ quota_limits db' = quota_limits db.

#[global] Instance same_log_preorder : PreOrder same_log.
Proof. split; [done|]. intros d1 d2 d3 (? & ? & ? & ?) (? & ? & ? & ?). split_and!; congruence. Qed.

Lemma same_log_appends db db' : same_log db db' -> appends db db'.
Proof.
  intros (Hr & He & ? & ?) [H1 H2 H3 H4 H5].
  split; [split|split]; rewrite ?Hr, ?He; auto; try congruence.
  intros id r Hid. exists r. by split.
Qed.

Lemma running_runs_same db db' scope :
  same_log db db' -> running_runs db' scope = running_runs db scope
  /\ concurrent_limit db' scope = concurrent_limit db scope.
Proof.
  intros (Hr & _ & Hp & Hl). unfold running_runs, concurrent_limit, scope_limits, run_counts_for.
  by rewrite Hr, Hp, Hl.
Qed.

Lemma same_log_safe db db1 db2 : same_log db db1 -> safe db1 db2 -> safe db db2.
Proof.
  intros Hs H HI. destruct (same_log_appends _ _ Hs HI) as [HI1 _].
  destruct (H HI1) as [HI' [H1 H2 H3 H4 H5 H6 H7]]. split; [done|].
  pose proof Hs as (Hr & He & Hp & Hl). rewrite Hr, He in *. split; auto; try congruence.
  intros id r' Hid Hnone. destruct (H2 _ _ Hid Hnone) as [? Hq]. split; [done|].
  intros scope limit Hc Hlim. destruct (running_runs_same _ _ scope Hs) as [Hrun Hconc].
  rewrite <- Hrun. apply Hq; [|by rewrite Hconc]. revert Hc. unfold run_counts_for.
  by rewrite Hp.
Qed.

Lemma same_runs_log db db' : same_runs db db' -> same_log db db'.
Proof. intros []. by split_and!. Qed.

Lemma same_safe db db1 db2 : same_runs db db1 -> safe db1 db2 -> safe db db2.
Proof. intros H%same_runs_log. by apply same_log_safe. Qed.

Lemma rows_moved_safe db db' : rows_moved db db' -> safe db db'.
Proof.
  intros Hm HI. split; [by eapply rows_moved_Inv|]. destruct Hm as [He ? ? Hn Hs].
  split; rewrite ?He; auto; try congruence.
  - intros id r Hr. destruct (Hs _ _ Hr) as (r' & ? & ? & _). eauto.
  - intros id r' Hr' Hnone. rewrite Hn in Hr'; done.
  - intros i1 i2 r1 r2 Hr1 Hnone. rewrite Hn in Hr1; done.
Qed.

Lemma put_run_safe id r r' db :
  runs db !! id = Some r -> row_step r r' -> (lease_ok r -> lease_ok r') ->
  run_next_event_sequence r' = run_next_event_sequence r ->
  safe db (set_runs (<[id := r']> (runs db)) db).
Proof.
  intros Hr Hs Hl Hn. apply rows_moved_safe. split; [done|done|done| |]; simpl.
  - intros id' Hno. rewrite lookup_insert_ne; [done|congruence].
  - intros id' x Hx. destruct (decide (id' = id)) as [->|Hne].
    + rewrite lookup_insert_eq. simplify_eq. eauto.
    + rewrite lookup_insert_ne by done. exists x. split_and!; [done|reflexivity|done|done].
Qed.

(** What follows the change of a row only appends. *)
Lemma wp_safe_step {A} env (m : Tx A) (Q : A -> TxState -> Prop) db0 s :
  safe db0 (tx_db s) -> frames appends m ->
  (forall a s', safe db0 (tx_db s') -> Q a s') -> wp env m Q s.
Proof.
  intros Hs Hm HQ. eapply wp_mono; [apply Hm|]. intros a s' H. apply HQ.
  eapply safe_appends; eauto.
Qed.

Ltac safe_tail :=
  lazymatch goal with
  | |- wp _ _ _ _ =>
      eapply wp_safe_step; [eassumption|solve [frames_steps]|];
      let Hs := fresh "Hsafe" in intros ? ? Hs; cbv beta; safe_tail
  | |- safe _ _ => assumption
  end.

(** From a goal after the change of a row: the change is safe by [tac], the rest appends. *)
Ltac safe_change tac :=
  lazymatch goal with
  | |- wp _ _ _ ?s =>
      eapply wp_safe_step; [simpl; tac|solve [frames_steps]|];
      let Hs := fresh "Hsafe" in intros ? ? Hs; cbv beta; safe_tail
  | |- safe _ _ => simpl; tac
  end.

(** What precedes it leaves the run tables alone. *)
Lemma wp_same {A} env (m : Tx A) (Q : A -> TxState -> Prop) s :
  frames same_runs m -> (forall a s', same_runs (tx_db s) (tx_db s') -> Q a s') -> wp env m Q s.
Proof. apply wp_frames. Qed.

Lemma frames_appends_safe {A} (m : Tx A) : frames appends m -> frames safe m.
Proof. intros Hm env s. eapply wp_mono; [apply Hm|]. intros a s'. apply appends_safe. Qed.

Lemma frames_same_safe {A} (m : Tx A) : frames same_runs m -> frames safe m.
Proof. intros Hm. by apply frames_appends_safe, same_appends. Qed.

#[global] Instance safe_refl : Reflexive safe.
Proof. intros db. apply appends_safe. reflexivity. Qed.

(** A successful lease check names the leased row. *)
Lemma wp_verify_lease env id executor token (Q : RunRow -> TxState -> Prop) s :
  (forall r, runs (tx_db s) !! id = Some r -> lease_held r executor token = true ->
             lease_unexpired (db_now env) r = true -> Q r s) ->
  wp env (verify_lease id executor token) Q s.
Proof.
  intros H. unfold verify_lease. wp_steps.
  destruct (runs (tx_db s) !! id) as [r|] eqn:Hr; [|done].
  destruct (lease_held r executor token) eqn:?; [|done].
  destruct (lease_unexpired (db_now env) r) eqn:?; simplify_eq/=. eauto.
Qed.

Lemma lease_held_state r executor token :
  lease_held r executor token = true -> is_leased_state (run_state r) = true.
Proof. unfold lease_held. rewrite !andb_true_iff. tauto. Qed.
