(* ===== verification/RunSafety.v ===== *)
(** * Every operation keeps the run invariant

    For each transaction of RunStore and Workflow: it leads from a good database to
    a good one and moves every run at most one transition of the contract further. *)

From S2P Require Import Prelude.
From S2P Require Import Json.
From S2P Require Import Contracts.
From S2P Require Import Store.
From S2P Require Import Governance.
From S2P Require Import SyncPublish.
From S2P Require Import RunStore.
From S2P Require Import Workflow.
From S2P Require Import RunInv.

(** ** Creation *)

Lemma new_run_insert_spec spec : ins_spec (new_run_insert spec) = spec.
Proof. unfold new_run_insert. by destruct (spec_executor_target spec). Qed.

Lemma new_run_insert_creator spec :
  ins_creator_user_id (new_run_insert spec) = spec_creator_user_id spec.
Proof. unfold new_run_insert. by destruct (spec_executor_target spec). Qed.

Lemma new_run_insert_key spec :
  ins_idempotency_key (new_run_insert spec) = spec_idempotency_key spec.
Proof. unfold new_run_insert. by destruct (spec_executor_target spec). Qed.

(** The states a run may be created in. *)
Definition initial_state (s : RunState) : Prop :=
  s = Queued \/ s = WaitingForExecutor \/ s = WaitingForSnapshot.

Lemma run_by_key_None db creator key id r :
  run_by_key db creator key = None -> runs db !! id = Some r ->
  ins_creator_user_id (run_ins r) = creator -> ins_idempotency_key (run_ins r) = key -> False.
Proof.
  intros H Hr <- <-. eapply select_one_None in H; [|done]. by rewrite !bool_decide_true in H.
Qed.

Lemma insert_run_safe db spec s :
  initial_state s -> runs db !! spec_id spec = None ->
  run_by_key db (spec_creator_user_id spec) (spec_idempotency_key spec) = None ->
  admitted db (new_run_row spec s) ->
  safe db (set_runs (<[spec_id spec := new_run_row spec s]> (runs db)) db).
Proof.
  intros Hs Hnone Hkey Hadm [H1 H2 H3 H4 H5]. split; [split|split; [| | | | |done..]].
  - intros id r Hr. simpl in Hr. apply lookup_insert_Some in Hr as [[<- <-]|[? Hr]]; [|auto].
    split; simpl; rewrite ?new_run_insert_spec; try done.
    unfold lease_ok. simpl. by destruct Hs as [->|[->| ->]].
  - intros i1 i2 r1 r2 Hr1 Hr2. simpl in Hr1, Hr2.
    apply lookup_insert_Some in Hr1 as [[<- <-]|[? Hr1]];
      apply lookup_insert_Some in Hr2 as [[<- <-]|[? Hr2]]; simpl;
      rewrite ?new_run_insert_creator, ?new_run_insert_key; [done| | |eauto];
      intros Hc Hk; exfalso; eapply run_by_key_None; eauto.
  - intros eid e He. destruct (H3 _ _ He) as (r & Hr & ?). exists r. split; [|done].
    simpl. rewrite lookup_insert_ne; [done|congruence].
  - exact H4.
  - intros id r n Hr Ht Hn. simpl in Hr.
    apply lookup_insert_Some in Hr as [[<- <-]|[? Hr]]; [simpl in Hn; lia|eauto].
  - intros id r Hr. exists r. split; [|reflexivity]. simpl.
    rewrite lookup_insert_ne; [done|congruence].
  - intros id r Hr Hno. simpl in Hr. apply lookup_insert_Some in Hr as [[<- <-]|[? Hr]];
      [done|congruence].
  - intros i1 i2 r1 r2 Hr1 ? Hr2 ?. simpl in *. apply lookup_insert_Some in Hr1, Hr2.
    destruct Hr1 as [[<- _]|[]], Hr2 as [[<- _]|[]]; congruence.
  - done.
  - simpl. congruence.
Qed.

(** The quota check admits the run. *)
Lemma quota_admits env s u s' spec state :
  enforce_run_quota_tx (spec_creator_user_id spec) (spec_project_id spec) env s = Ok (u, s') ->
  initial_state state -> s' = s /\ admitted (tx_db s) (new_run_row spec state).
Proof.
  intros (-> & p & Hp & Hq)%enforce_run_quota_tx_Ok Hs. split; [done|]. split; [by split|].
  intros scope limit Hc. apply Hq. revert Hc. unfold run_counts_for, scopes_of. simpl.
  assert (Hproj : ins_project_id (new_run_insert spec) = spec_project_id spec)
    by (unfold new_run_insert; by destruct (spec_executor_target spec)).
  destruct scope as [[] i]; rewrite andb_true_iff; intros [_ Hc].
  - apply bool_decide_eq_true in Hc as <-. rewrite new_run_insert_creator. by left.
  - rewrite Hproj in Hc. unfold live_project in Hp.
    destruct (projects (tx_db s) !! spec_project_id spec) as [p'|]; [|done].
    destruct (pr_deleted_at p'); simplify_eq. apply bool_decide_eq_true in Hc as ->. right. by left.
Qed.

Lemma create_run_tx_safe spec s : initial_state s -> frames safe (create_run_tx spec s).
Proof.
  intros Hs env st. unfold create_run_tx, put_run. wp_steps.
  destruct (run_by_key _ _ _) as [[i r]|] eqn:Hkey; wp_steps; [reflexivity|].
  unfold wp at 1. destruct (enforce_run_quota_tx _ _ env st) as [[u s1]|] eqn:Hq; [|done].
  destruct (quota_admits _ _ _ _ _ _ Hq Hs) as [-> Hadm]. wp_steps.
  rewrite Hkey. wp_steps.
  apply bool_decide_eq_false in H. apply eq_None_not_Some in H.
  safe_change ltac:(by apply insert_run_safe).
Qed.

Lemma create_run_safe spec s : initial_state s -> frames safe (create_run spec s).
Proof.
  intros Hs env st. unfold create_run. wp_steps. eapply wp_frames; [by apply create_run_tx_safe|].
  intros a s1 H. by wp_steps.
Qed.

Lemma create_thread_message_run_safe spec s content :
  initial_state s -> frames safe (create_thread_message_run spec s content).
Proof.
  intros Hs env st. unfold create_thread_message_run. wp_steps.
  eapply wp_frames; [by apply create_run_tx_safe|]. intros [run inserted] s1 H.
  eapply wp_safe_step; [exact H| |auto]. apply same_appends. unfold put_message. frames_steps.
Qed.

(** ** Claims *)

(** A row whose revision was incremented along a transition. *)
Lemma row_step_move r r' :
  run_ins r' = run_ins r -> can_transition_to (run_state r) (run_state r') = true ->
  is_claimable (run_state r') = false \/ is_Some (ins_snapshot_id (run_ins r)) ->
  run_revision r' = (run_revision r + 1)%Z ->
  run_next_event_sequence r' = run_next_event_sequence r -> row_step r r'.
Proof.
  intros ? ? Hq ? ?. split; auto; try lia. destruct Hq as [->|Hq]; [done|by right].
Qed.

Lemma lease_row_safe env owner token expires r id db :
  runs db !! id = Some r -> can_transition_to (run_state r) Running = true ->
  safe db (set_runs (<[id := lease_row env owner token expires (run_revision r + 1) r]>
                       (runs db)) db).
Proof.
  intros Hr Hs. apply put_run_safe with r; [done| | |done].
  - apply row_step_move; auto.
  - intros _. unfold lease_ok. simpl. split_and!; eauto.
Qed.

Lemma claim_candidates_spec env db sel limit id r :
  (id, r) ∈ claim_candidates env db sel limit ->
  runs db !! id = Some r /\ sel r = true /\ has_open_predecessor db id r = false
  /\ row_locked env id = false.
Proof.
  unfold claim_candidates. intros (i & H & _)%elem_of_take.
  apply list_elem_of_lookup_2 in H. rewrite merge_sort_Permutation in H.
  apply list_elem_of_filter in H as [(? & ? & ?) Hin].
  by apply elem_of_map_to_list in Hin.
Qed.

Lemma external_match_state executor reg r :
  external_match executor reg r = true -> can_transition_to (run_state r) Running = true.
Proof.
  unfold external_match. rewrite andb_true_iff, orb_true_iff, !bool_decide_eq_true.
  by intros [[-> | ->] _].
Qed.

Lemma server_match_state r : server_match r = true -> run_state r = Queued.
Proof. unfold server_match. rewrite andb_true_iff, bool_decide_eq_true. tauto. Qed.

Lemma claim_external_run_safe executor secs : frames safe (claim_external_run executor secs).
Proof.
  intros env s. unfold claim_external_run, put_run. wp_steps.
  destruct (_ || _); wp_steps; [reflexivity|].
  destruct (List.find _ _) as [[id r]|] eqn:Hf; wp_steps; [|reflexivity].
  apply find_some in Hf as [Hin _]. apply list_elem_of_In, claim_candidates_spec in Hin
    as (Hr & Hm & _).
  safe_change ltac:(apply lease_row_safe; [done|by eapply external_match_state]).
Qed.

Lemma head_elem {A} (l : list A) x : head l = Some x -> x ∈ l.
Proof. destruct l; [done|]. intros [= ->]. by left. Qed.

Lemma claim_server_run_safe worker secs : frames safe (claim_server_run worker secs).
Proof.
  intros env s. unfold claim_server_run, put_run. wp_steps.
  destruct (head _) as [[id r]|] eqn:Hf; wp_steps; [|reflexivity].
  apply head_elem, claim_candidates_spec in Hf as (Hr & Hm & _).
  safe_change ltac:(apply lease_row_safe; [done|by rewrite (server_match_state _ Hm)]).
Qed.

(** ** Work under a lease *)

(** A change of the lease's expiry and of the row's time stamp. *)
Lemma extend_lease_safe env t r id db :
  runs db !! id = Some r -> is_leased_state (run_state r) = true ->
  safe db (set_runs (<[id := set_run_lease_expires_at (Some t)
                               (set_run_updated_at (db_now env) r)]> (runs db)) db).
Proof.
  intros Hr Hs. apply put_run_safe with r; [done| | |done].
  - split; simpl; auto using can_transition_refl; done.
  - unfold lease_ok. simpl. rewrite Hs. intros (? & ? & ? & ?). split_and!; eauto.
Qed.

Lemma renew_lease_safe id executor token secs : frames safe (renew_lease id executor token secs).
Proof.
  intros env s. unfold renew_lease, put_run. wp_steps.
  destruct (runs (tx_db s) !! id) as [r|] eqn:Hr; [|done].
  destruct (lease_held r executor token) eqn:Hh; simplify_eq/=.
  eapply extend_lease_safe; [done|by eapply lease_held_state].
Qed.

Lemma verify_lease_same id executor token : frames same_runs (verify_lease id executor token).
Proof. unfold verify_lease. frames_steps. Qed.
#[export] Hint Resolve verify_lease_same : store.

Lemma append_leased_event_appends input acct :
  frames appends (append_leased_event_with_accounting input acct).
Proof. unfold append_leased_event_with_accounting. frames_steps. Qed.

(** ** Interruption *)

Lemma interrupt_row_safe env error r id db :
  runs db !! id = Some r -> is_leased_state (run_state r) = true ->
  safe db (set_runs (<[id := interrupt_row env error (run_revision r + 1) r]> (runs db)) db).
Proof.
  intros Hr Hs. apply put_run_safe with r; [done| |by intros _|done].
  apply row_step_move; auto. simpl. by destruct (run_state r).
Qed.

Lemma latest_by_elem {V} (key : V -> Z) l v : latest_by key l = Some v -> v ∈ l.
Proof.
  unfold latest_by. revert v. induction l as [|x l IH]; intros v; simpl; [done|].
  case_match; [|intros [= ->]; by left].
  destruct (_ <? _)%Z; intros [= ->]; [by left|]. right. by apply IH.
Qed.

Lemma latest_recoverable_spec env db executor id r :
  latest_recoverable env db executor = Some (id, r) ->
  runs db !! id = Some r /\ recoverable env executor r = true.
Proof.
  unfold latest_recoverable. intros H%latest_by_elem.
  apply list_elem_of_filter in H as [? Hin]. by apply elem_of_map_to_list in Hin.
Qed.

Lemma recoverable_state env executor r :
  recoverable env executor r = true -> is_leased_state (run_state r) = true.
Proof. unfold recoverable. rewrite !andb_true_iff. tauto. Qed.

Lemma recover_external_run_safe executor secs : frames safe (recover_external_run executor secs).
Proof.
  intros env s. unfold recover_external_run, put_run. wp_steps.
  destruct (latest_recoverable _ _ _) as [[id r]|] eqn:Hf; wp_steps; [|reflexivity].
  apply latest_recoverable_spec in Hf as [Hr Hm%recoverable_state].
  case_bool_decide; wp_steps.
  - safe_change ltac:(by apply interrupt_row_safe).
  - safe_change ltac:(by apply extend_lease_safe).
Qed.

Lemma lease_ok_finished r :
  is_leased_state (run_state r) = false -> run_lease_owner r = None ->
  run_lease_token r = None -> run_lease_expires_at r = None -> lease_ok r.
Proof. intros Hs ???. unfold lease_ok. by rewrite Hs. Qed.

Lemma map_err_Ok {E E' A} (f : E -> E') (r : result E A) a : map_err f r = Ok a -> r = Ok a.
Proof. destruct r; simpl; congruence. Qed.

Lemma finish_leased_run_safe id executor token outcome :
  is_leased_state (out_state outcome) = false -> is_claimable (out_state outcome) = false ->
  frames safe (finish_leased_run id executor token outcome).
Proof.
  intros Hout Hq env s. unfold finish_leased_run, put_run. wp_steps.
  apply wp_verify_lease. intros r Hr Hheld _. wp_steps.
  apply map_err_Ok in H. destruct a. apply ensure_run_transition_Ok in H.
  eapply wp_same; [frames_steps|]. intros result s1 Hsame.
  eapply wp_mono; [|intros a s2 H2; eapply same_safe; [exact Hsame|exact H2]]. cbv beta.
  rewrite <- (sr_runs _ _ Hsame) in Hr. wp_steps.
  safe_change ltac:(apply put_run_safe with r;
    [done|apply row_step_move; auto|intros _; by apply lease_ok_finished|done]).
Qed.

(** ** Administrative transitions *)

Lemma transition_row_lease env next result error revision r :
  (is_terminal next = true \/ is_leased_state next = is_leased_state (run_state r)) ->
  lease_ok r -> lease_ok (transition_row env next result error revision r).
Proof.
  intros Hn Hl. unfold transition_row. case_bool_decide as Hterm.
  - apply lease_ok_finished; [|done..]. simpl. set_unfold.
    by destruct Hterm as [->|[->|[->|[->|[]]]]].
  - destruct Hn as [Ht|Heq].
    + destruct Hterm. destruct next; simplify_eq/=; set_solver.
    + unfold lease_ok in *. simpl. by rewrite Heq.
Qed.

(** The targets [transition_run] is called with: a terminal state, or a claimable one
    for a run with a snapshot. *)
Definition admin_target (db : Db) (id : Uuid) (next : RunState) : Prop :=
  is_terminal next = true
  \/ (is_claimable next = true /\ exists r m, runs db !! id = Some r
                                     /\ ins_snapshot_id (run_ins r) = Some m).

Lemma admin_target_lease s next :
  is_terminal next = true \/ is_claimable next = true -> can_transition_to s next = true ->
  is_terminal next = true \/ is_leased_state next = is_leased_state s.
Proof. intros [Ht|Hq] Hc; [by left|right]. by destruct s, next. Qed.

Lemma transition_run_safe env s id next result error :
  admin_target (tx_db s) id next ->
  wp env (transition_run id next result error) (fun _ s' => safe (tx_db s) (tx_db s')) s.
Proof.
  intros Hnext. unfold transition_run, put_run. wp_steps. rename a into r.
  apply map_err_Ok in H0. destruct a0. apply ensure_run_transition_Ok in H0.
  assert (Hq : is_terminal next = true \/ is_claimable next = true)
    by (destruct Hnext as [?|[? _]]; auto).
  assert (Hsnap : is_claimable next = false \/ is_Some (ins_snapshot_id (run_ins r))).
  { destruct Hnext as [?|[_ (r' & m & Hr' & Hm)]]; [left; by destruct next|].
    right. simplify_eq. eauto. }
  eapply wp_same; [frames_steps|]. intros _ s1 Hsame.
  eapply wp_mono; [|intros a s2 H2; eapply same_safe; [exact Hsame|exact H2]]. cbv beta.
  rewrite <- (sr_runs _ _ Hsame) in H. wp_steps.
  safe_change ltac:(apply put_run_safe with r; [done| | |];
    [apply row_step_move| |]; try (unfold transition_row; by destruct (bool_decide _));
    by apply transition_row_lease, admin_target_lease).
Qed.

Lemma terminal_transition_safe id next result error :
  is_terminal next = true -> frames safe (transition_run id next result error).
Proof. intros Ht env s. apply transition_run_safe. by left. Qed.

Lemma cancel_run_safe id : frames safe (cancel_run id).
Proof. unfold cancel_run. by apply terminal_transition_safe. Qed.

(** ** Requests to a human *)

Lemma move_row_safe env state r id db :
  runs db !! id = Some r -> can_transition_to (run_state r) state = true ->
  is_leased_state (run_state r) = true -> is_leased_state state = true ->
  safe db (set_runs (<[id := move_row env state (run_revision r + 1) r]> (runs db)) db).
Proof.
  intros Hr Ht Hs Hs'. apply put_run_safe with r; [done| | |done].
  - apply row_step_move; auto. left. by destruct state.
  - unfold lease_ok. simpl. by rewrite Hs, Hs'.
Qed.

Lemma put_approval_log id row : frames appends (put_approval id row).
Proof. apply frames_modify. intros db. by apply same_log_appends; split_and!. Qed.
Lemma put_input_log id row : frames appends (put_input id row).
Proof. apply frames_modify. intros db. by apply same_log_appends; split_and!. Qed.
#[export] Hint Resolve put_approval_log put_input_log : store.

Lemma insert_checkpoint_appends id run_id safe_to_resume v :
  frames appends (insert_checkpoint id run_id safe_to_resume v).
Proof.
  unfold insert_checkpoint. frames_steps. apply frames_modify. intros db.
  by apply same_log_appends; split_and!.
Qed.
#[export] Hint Resolve insert_checkpoint_appends : store.

Lemma create_checkpoint_appends executor id principal request :
  frames appends (create_checkpoint executor id principal request).
Proof. unfold create_checkpoint. frames_steps. Qed.

Lemma create_worker_checkpoint_appends worker id token b v :
  frames appends (create_worker_checkpoint worker id token b v).
Proof. unfold create_worker_checkpoint. frames_steps. Qed.

Lemma insert_approval_log id row : frames same_log (insert_approval id row).
Proof. unfold insert_approval, put_approval. frames_steps. apply frames_modify. by intros db; split_and!. Qed.
Lemma insert_input_log id row : frames same_log (insert_input id row).
Proof. unfold insert_input, put_input. frames_steps. apply frames_modify. by intros db; split_and!. Qed.

(** Announcing a request moves a running run to the waiting state. *)
Lemma announce_safe env id state r (k : unit -> Tx unit) s :
  runs (tx_db s) !! id = Some r -> run_state r = Running ->
  state = WaitingApproval \/ state = WaitingInput -> (forall u, frames appends (k u)) ->
  wp env (move_run_tx id state ≫= k) (fun _ s' => safe (tx_db s) (tx_db s')) s.
Proof.
  intros Hr Hrun Hst Hk. unfold move_run_tx, put_run. wp_steps. rewrite Hr. wp_steps.
  safe_change ltac:(apply move_row_safe; [done|rewrite Hrun|by rewrite Hrun|];
                    by destruct Hst as [-> | ->]).
Qed.

Lemma announce_approval_safe env id r rid action expires s :
  runs (tx_db s) !! id = Some r -> run_state r = Running ->
  wp env (announce_approval id rid action expires)
    (fun _ s' => safe (tx_db s) (tx_db s')) s.
Proof.
  intros Hr Hrun. unfold announce_approval. wp_step. wp_step.
  eapply announce_safe; [done|done|by left|]. frames_steps.
Qed.

Lemma announce_input_safe env id r rid prompt expires s :
  runs (tx_db s) !! id = Some r -> run_state r = Running ->
  wp env (announce_input id rid prompt expires)
    (fun _ s' => safe (tx_db s) (tx_db s')) s.
Proof.
  intros Hr Hrun. unfold announce_input. wp_step. wp_step.
  eapply announce_safe; [done|done|by right|]. frames_steps.
Qed.

(** Storing a request and announcing it. *)
Lemma wp_store_announce {A} env id r (ins ann : Tx unit) (a : A) s :
  runs (tx_db s) !! id = Some r -> run_state r = Running -> frames same_log ins ->
  (forall s1, runs (tx_db s1) !! id = Some r ->
     wp env ann (fun _ s' => safe (tx_db s1) (tx_db s')) s1) ->
  wp env ins (fun _ => wp env (ann ≫= fun _ => mret a)
                         (fun _ s' => safe (tx_db s) (tx_db s'))) s.
Proof.
  intros Hr Hrun Hins Hann. eapply wp_frames; [exact Hins|].
  intros _ s1 Hlog. apply wp_bind. eapply wp_mono; [apply Hann|].
  - destruct Hlog as [-> _]. done.
  - intros u s2 H2. apply wp_ret. simpl in *. by eapply same_log_safe.
Qed.

Lemma create_approval_safe executor id principal request :
  frames safe (create_approval executor id principal request).
Proof.
  intros env s. unfold create_approval. wp_steps. apply wp_verify_lease.
  intros r Hr Hheld _. wp_steps. destruct (approval_by_source _ _ _) as [[]|].
  { wp_steps. reflexivity. }
  wp_steps.
  apply bool_decide_eq_false, dec_stable in H1.
  apply (wp_store_announce _ _ _ _ _ _ (MkTx (tx_db s) _) Hr H1); [apply insert_approval_log|].
  intros s1 Hs1. eapply announce_approval_safe; eauto.
Qed.

Lemma create_input_request_safe executor id principal request :
  frames safe (create_input_request executor id principal request).
Proof.
  intros env s. unfold create_input_request. wp_steps. apply wp_verify_lease.
  intros r Hr Hheld _. wp_steps. destruct (input_by_source _ _ _) as [[]|].
  { wp_steps. reflexivity. }
  wp_steps.
  apply bool_decide_eq_false, dec_stable in H1.
  apply (wp_store_announce _ _ _ _ _ _ (MkTx (tx_db s) _) Hr H1); [apply insert_input_log|].
  intros s1 Hs1. eapply announce_input_safe; eauto.
Qed.

Lemma request_worker_approval_safe worker id token action :
  frames safe (request_worker_approval worker id token action).
Proof.
  intros env s. unfold request_worker_approval. wp_steps. apply wp_verify_lease.
  intros r Hr Hheld _. wp_steps.
  apply bool_decide_eq_false, dec_stable in H.
  apply (wp_store_announce _ _ _ _ _ _ (MkTx (tx_db s) _) Hr H); [apply insert_approval_log|].
  intros s1 Hs1. eapply announce_approval_safe; eauto.
Qed.

Lemma request_worker_input_safe worker id token prompt :
  frames safe (request_worker_input worker id token prompt).
Proof.
  intros env s. unfold request_worker_input. wp_steps. apply wp_verify_lease.
  intros r Hr Hheld _. wp_steps.
  apply bool_decide_eq_false, dec_stable in H.
  apply (wp_store_announce _ _ _ _ _ _ (MkTx (tx_db s) _) Hr H); [apply insert_input_log|].
  intros s1 Hs1. eapply announce_input_safe; eauto.
Qed.

(** ** Answers *)

Lemma resume_waiting_run_safe id expected :
  expected = WaitingApproval \/ expected = WaitingInput ->
  frames safe (resume_waiting_run id expected).
Proof.
  intros Hexp env s. unfold resume_waiting_run, move_run_tx, put_run. wp_steps.
  apply bool_decide_eq_false, dec_stable in H0. rename a into r.
  assert (Hl : is_leased_state (run_state r) = true) by (rewrite H0; by destruct Hexp as [->| ->]).
  destruct (lease_unexpired (app_now env) r); wp_steps.
  - rewrite H. wp_steps.
    safe_change ltac:(apply move_row_safe; [done|rewrite H0; by destruct Hexp as [->| ->]|done..]).
  - safe_change ltac:(by apply interrupt_row_safe).
Qed.

Lemma resolve_approval_safe id approval user request :
  frames safe (resolve_approval id approval user request).
Proof.
  intros env s. unfold resolve_approval. wp_steps.
  eapply wp_frames; [apply (frames_modify same_log); by intros db; split_and!|]. intros _ s1 Hlog.
  wp_step. eapply wp_frames; [apply resume_waiting_run_safe; by left|]. intros _ s2 Hres.
  pose proof (same_log_safe _ _ _ Hlog Hres). safe_tail.
Qed.

Lemma submit_input_response_safe id input user request :
  frames safe (submit_input_response id input user request).
Proof.
  intros env s. unfold submit_input_response. wp_steps.
  eapply wp_frames; [apply (frames_modify same_log); by intros db; split_and!|]. intros _ s1 Hlog.
  wp_step. eapply wp_frames; [apply resume_waiting_run_safe; by right|]. intros _ s2 Hres.
  pose proof (same_log_safe _ _ _ Hlog Hres). safe_tail.
Qed.

Lemma expire_approvals_appends now : frames appends (expire_approvals now).
Proof. unfold expire_approvals, expire_approval. frames_steps. Qed.
Lemma expire_inputs_appends now : frames appends (expire_inputs now).
Proof. unfold expire_inputs, expire_input. frames_steps. Qed.

(** ** Executors *)

Lemma register_executor_same reg : frames same_runs (register_executor reg).
Proof. unfold register_executor. frames_steps. Qed.
Lemma refresh_executor_same id reg : frames same_runs (refresh_executor_registration id reg).
Proof. unfold refresh_executor_registration. frames_steps. Qed.
Lemma heartbeat_executor_same id n : frames same_runs (heartbeat_executor id n).
Proof. unfold heartbeat_executor. frames_steps. Qed.

(** ** Expired leases *)

(** A run of [db] after the runs [ids] were interrupted. *)
Definition interrupted_of (env : Env) (safe_at : Uuid -> bool) (ids : list Uuid)
    (id : Uuid) (r : RunRow) : RunRow :=
  if decide (id ∈ ids)
  then interrupt_row env (lease_expired_error (safe_at id)) (run_revision r + 1) r else r.

(** The events and the quota configuration are untouched. *)
Definition same_quota (db db' : Db) : Prop :=
  run_events db' = run_events db /\ projects db' = projects db
  /\ quota_limits db' = quota_limits db.

Lemma interrupt_loop env safe_at l s0 :
  (forall id r, (id, r) ∈ l -> runs (tx_db s0) !! id = Some r) ->
  wp env (tx_iter (interrupt_expired safe_at) l)
    (fun _ s => same_quota (tx_db s0) (tx_db s) /\
       forall id, runs (tx_db s) !! id
                  = interrupted_of env safe_at l.*1 id <$> runs (tx_db s0) !! id) s0.
Proof.
  intros Hl. apply (wp_tx_iter_done env _ l (fun done s =>
    same_quota (tx_db s0) (tx_db s) /\
    forall id, runs (tx_db s) !! id
               = interrupted_of env safe_at done.*1 id <$> runs (tx_db s0) !! id)).
  - intros done [id r] s Hin [He Hr]. unfold interrupt_expired, put_run. wp_steps.
    split; [done|]. intros id'. rewrite fmap_app. simpl.
    unfold interrupted_of. destruct (decide (id' = id)) as [->|Hne].
    + rewrite lookup_insert_eq, (Hl _ _ Hin). simpl. rewrite decide_True by set_solver. done.
    + rewrite lookup_insert_ne, Hr by done. unfold interrupted_of.
      destruct (runs (tx_db s0) !! id'); simpl; [|done].
      f_equal. apply decide_ext. set_solver.
  - split; [by split_and!|]. intros id. unfold interrupted_of.
    by destruct (runs (tx_db s0) !! id).
Qed.

Lemma expired_runs_spec env db id r :
  (id, r) ∈ expired_runs env db <-> runs db !! id = Some r /\ lease_is_past env r = true.
Proof.
  unfold expired_runs. rewrite list_elem_of_filter, elem_of_map_to_list. simpl. tauto.
Qed.

Lemma expired_ids env db id r :
  runs db !! id = Some r -> (id ∈ (expired_runs env db).*1 <-> lease_is_past env r = true).
Proof.
  intros Hr. split.
  - intros ([id' r'] & -> & Hin)%list_elem_of_fmap. apply expired_runs_spec in Hin as [? ?].
    by simplify_eq/=.
  - intros Hp. apply list_elem_of_fmap. exists (id, r). split; [done|].
    by apply expired_runs_spec.
Qed.

Lemma lease_is_past_state env r :
  lease_is_past env r = true -> is_leased_state (run_state r) = true.
Proof. unfold lease_is_past. rewrite andb_true_iff. tauto. Qed.

Lemma interrupted_moved env safe_at db db' :
  same_quota db db' ->
  (forall id, runs db' !! id
     = interrupted_of env safe_at (expired_runs env db).*1 id <$> runs db !! id) ->
  rows_moved db db'.
Proof.
  intros (? & ? & ?) Hr. split; [done|done|done| |]; intros id; rewrite Hr.
  - by intros ->.
  - intros r Hid. rewrite Hid. simpl. eexists; split; [done|]. unfold interrupted_of.
    destruct (decide _) as [Hin|]; [|split_and!; [reflexivity|done|done]].
    apply expired_ids with (r := r), lease_is_past_state in Hin; [|done].
    split_and!; [|by intros _|done]. apply row_step_move; auto.
    simpl. by destruct (run_state r).
Qed.

Lemma report_expired_appends safe_at kv : frames appends (report_expired safe_at kv).
Proof. unfold report_expired. frames_steps. Qed.
#[export] Hint Resolve report_expired_appends : store.

Lemma interrupt_expired_leases_safe : frames safe interrupt_expired_leases.
Proof.
  intros env s. unfold interrupt_expired_leases. wp_steps.
  eapply wp_mono; [apply interrupt_loop; intros id r Hin; by apply expired_runs_spec in Hin as [? _]|].
  intros u s1 [He Hr]. simpl in *. wp_steps.
  safe_change ltac:(apply rows_moved_safe, (interrupted_moved env (checkpoint_safe (tx_db s))); done).
Qed.

(** ** Retention *)

Lemma delete_events_lookup db l eid :
  run_events (foldl delete_event db l) !! eid
  = if decide (eid ∈ l.*1) then None else run_events db !! eid.
Proof.
  revert db; induction l as [|kv l IH]; intros db; [done|]. simpl. rewrite IH. simpl.
  destruct (decide (eid ∈ l.*1)); [by rewrite decide_True by set_solver|].
  destruct (decide (eid = kv.1)) as [->|Hne].
  - rewrite lookup_delete_eq. by rewrite decide_True by set_solver.
  - rewrite lookup_delete_ne by done. by rewrite decide_False by set_solver.
Qed.

Lemma delete_events_same db l :
  let db' := foldl delete_event db l in
  runs db' = runs db /\ projects db' = projects db /\ quota_limits db' = quota_limits db.
Proof. revert db; induction l as [|kv l IH]; intros db; [done|]. apply (IH (delete_event db kv)). Qed.

Lemma expired_events_spec env db now limit eid e :
  (eid, e) ∈ expired_events env db now limit ->
  run_events db !! eid = Some e /\ event_expired db now e = true.
Proof.
  unfold expired_events. intros (i & H & _)%elem_of_take.
  apply list_elem_of_lookup_2 in H. rewrite merge_sort_Permutation in H.
  apply list_elem_of_filter in H as [(? & ?) Hin]. by apply elem_of_map_to_list in Hin.
Qed.

Lemma event_expired_terminal db now e :
  event_expired db now e = true ->
  exists r, runs db !! evr_run_id e = Some r /\ is_terminal (run_state r) = true.
Proof.
  unfold event_expired. rewrite andb_true_iff. intros [_ H].
  destruct (runs db !! evr_run_id e) as [r|]; [|done].
  apply andb_true_iff in H as [? _]. eauto.
Qed.

(** Events were deleted, only of terminal runs; nothing else of the run tables. *)
Record pruned (db db' : Db) : Prop := {
  pr_runs : runs db' = runs db;
  pr_projects : projects db' = projects db;
  pr_limits : quota_limits db' = quota_limits db;
  pr_sub : forall eid e, run_events db' !! eid = Some e -> run_events db !! eid = Some e;
  pr_gone : forall eid e, run_events db !! eid = Some e -> run_events db' !! eid = None ->
    exists r, runs db !! evr_run_id e = Some r /\ is_terminal (run_state r) = true;
}.

Lemma pruned_Inv db db' : pruned db db' -> Inv db -> Inv db'.
Proof.
  intros [Hr _ _ Hsub Hgone] [H1 H2 H3 H4 H5]. split; rewrite ?Hr; eauto.
  intros id r n Hid Hterm Hn. destruct (H5 _ _ _ Hid Hterm Hn) as (eid & e & He & <- & Hs).
  exists eid, e. split; [|done]. destruct (run_events db' !! eid) as [e'|] eqn:He'.
  - apply Hsub in He'. congruence.
  - destruct (Hgone _ _ He He') as (r' & ? & ?). congruence.
Qed.

Lemma retention_pruned now limit : frames pruned (enforce_run_event_retention now limit).
Proof.
  intros env s. unfold enforce_run_event_retention. wp_steps.
  set (l := expired_events env (tx_db s) now limit).
  destruct (delete_events_same (tx_db s) l) as (? & ? & ?). split; [done|done|done| |].
  - intros eid e. rewrite delete_events_lookup. by case_decide.
  - intros eid e He. rewrite delete_events_lookup. case_decide as Hin; [|congruence]. intros _.
    apply list_elem_of_fmap in Hin as ([eid' e'] & -> & Hin).
    apply expired_events_spec in Hin as [He' Hexp]. simplify_eq/=.
    by apply event_expired_terminal in Hexp.
Qed.
