(* ===== verification/RunSystem.v ===== *)
(** * The control plane as a transition system

    [step db db']: one committed (or rolled back) transaction of the server, any of
    those in RunStore, Workflow and Routing, in the environment it happens to see.
    A run of the server is a sequence of steps; handlers that commit several
    transactions contribute several steps, so every interleaving of them is one. *)

From S2P Require Import Prelude.
From S2P Require Import Json.
From S2P Require Import Contracts.
From S2P Require Import Store.
From S2P Require Import Governance.
From S2P Require Import SyncPublish.
From S2P Require Import RunStore.
From S2P Require Import Workflow.
From S2P Require Import Routing.
From S2P Require Import RunInv.
From S2P Require Import RunSafety.

Inductive step (db : Db) : Db -> Prop :=
| step_create_run env spec s :
    initial_state s -> step db (run_tx env db (create_run spec s)).1
| step_create_thread_message_run env spec s content :
    initial_state s -> step db (run_tx env db (create_thread_message_run spec s content)).1
| step_claim_external env executor secs :
    step db (run_tx env db (claim_external_run executor secs)).1
| step_claim_server env worker secs :
    step db (run_tx env db (claim_server_run worker secs)).1
| step_recover env executor secs :
    step db (run_tx env db (recover_external_run executor secs)).1
| step_renew env id executor token secs :
    step db (run_tx env db (renew_lease id executor token secs)).1
| step_append env input acct :
    step db (run_tx env db (append_leased_event_with_accounting input acct)).1
| step_complete env id executor token result manifest diff :
    step db (run_tx env db (complete_leased_run id executor token result manifest diff)).1
| step_fail env id executor token error :
    step db (run_tx env db (fail_leased_run id executor token error)).1
| step_interrupt env id executor token error :
    step db (run_tx env db (interrupt_leased_run id executor token error)).1
| step_cancel env id :
    step db (run_tx env db (cancel_run id)).1
| step_expire_run env id :
    step db (run_tx env db (transition_run id Expired None None)).1
| step_wake env id next r manifest :
    runs db !! id = Some r -> ins_snapshot_id (run_ins r) = Some manifest ->
    next = Queued \/ next = WaitingForExecutor ->
    step db (run_tx env db (transition_run id next None None)).1
| step_interrupt_expired env :
    step db (run_tx env db interrupt_expired_leases).1
| step_create_approval env executor id principal request :
    step db (run_tx env db (create_approval executor id principal request)).1
| step_worker_approval env worker id token action :
    step db (run_tx env db (request_worker_approval worker id token action)).1
| step_resolve_approval env id approval user request :
    step db (run_tx env db (resolve_approval id approval user request)).1
| step_create_input env executor id principal request :
    step db (run_tx env db (create_input_request executor id principal request)).1
| step_worker_input env worker id token prompt :
    step db (run_tx env db (request_worker_input worker id token prompt)).1
| step_submit_input env id input user request :
    step db (run_tx env db (submit_input_response id input user request)).1
| step_checkpoint env executor id principal request :
    step db (run_tx env db (create_checkpoint executor id principal request)).1
| step_worker_checkpoint env worker id token b v :
    step db (run_tx env db (create_worker_checkpoint worker id token b v)).1
| step_expire_approvals env now :
    step db (run_tx env db (expire_approvals now)).1
| step_expire_inputs env now :
    step db (run_tx env db (expire_inputs now)).1
| step_register env reg :
    step db (run_tx env db (register_executor reg)).1
| step_refresh env id reg :
    step db (run_tx env db (refresh_executor_registration id reg)).1
| step_heartbeat env id n :
    step db (run_tx env db (heartbeat_executor id n)).1
| step_retention env now limit :
    step db (run_tx env db (enforce_run_event_retention now limit)).1.

(** What one step may do to runs and their events. *)
Record evolves (db db' : Db) : Prop := {
  ev_rows : forall id r, runs db !! id = Some r ->
            exists r', runs db' !! id = Some r' /\ row_step r r';
  ev_new : forall id r', runs db' !! id = Some r' -> runs db !! id = None -> admitted db r';
  ev_one : forall id1 id2 r1 r2, runs db' !! id1 = Some r1 -> runs db !! id1 = None ->
           runs db' !! id2 = Some r2 -> runs db !! id2 = None -> id1 = id2;
  ev_kept : forall eid e, run_events db !! eid = Some e ->
            run_events db' !! eid = Some e
            \/ (run_events db' !! eid = None
                /\ exists r, runs db !! evr_run_id e = Some r
                             /\ is_terminal (run_state r) = true);
  ev_fresh : forall eid e r, run_events db' !! eid = Some e ->
             run_events db !! eid = None -> runs db !! evr_run_id e = Some r ->
             (run_next_event_sequence r ≤ evr_sequence e)%Z;
  ev_projects : projects db' = projects db;
  ev_limits : quota_limits db' = quota_limits db;
}.

Lemma db_step_evolves db db' : db_step db db' -> evolves db db'.
Proof. intros []. split; auto. Qed.

Lemma pruned_evolves db db' : pruned db db' -> evolves db db'.
Proof.
  intros [Hr ? ? Hsub Hgone]. split; rewrite ?Hr; [|congruence|congruence| | |done|done].
  - intros id r Hid. exists r. split; [done|reflexivity].
  - intros eid e He. destruct (run_events db' !! eid) as [e'|] eqn:He'; [left|right; eauto].
    apply Hsub in He'. congruence.
  - intros eid e r He Hnone. apply Hsub in He. congruence.
Qed.

Definition good_step (db db' : Db) : Prop := Inv db -> Inv db' /\ evolves db db'.

Lemma wp_good {A} env db (m : Tx A) :
  wp env m (fun _ s' => safe db (tx_db s')) (MkTx db 0) -> good_step db (run_tx env db m).1.
Proof.
  intros Hm HI. destruct (run_tx_wp env db m (safe db) (reflexivity db) Hm HI) as [? ?].
  split; [done|]. by apply db_step_evolves.
Qed.

Lemma safe_good {A} env db (m : Tx A) : frames safe m -> good_step db (run_tx env db m).1.
Proof. intros Hm. apply wp_good, (Hm env (MkTx db 0)). Qed.

Lemma appends_good {A} env db (m : Tx A) : frames appends m -> good_step db (run_tx env db m).1.
Proof. intros Hm. by apply safe_good, frames_appends_safe. Qed.

Lemma same_good {A} env db (m : Tx A) : frames same_runs m -> good_step db (run_tx env db m).1.
Proof. intros Hm. by apply safe_good, frames_same_safe. Qed.

Lemma pruned_good {A} env db (m : Tx A) : frames pruned m -> good_step db (run_tx env db m).1.
Proof.
  intros Hm HI. apply (run_tx_wp env db m (fun db' => Inv db' /\ evolves db db')).
  - split; [done|]. apply pruned_evolves. split; auto. congruence.
  - eapply wp_mono; [apply Hm|]. intros a s' H. simpl in *.
    split; [by eapply pruned_Inv|by apply pruned_evolves].
Qed.

Lemma step_good db db' : step db db' -> good_step db db'.
Proof.
  destruct 1.
  - by apply safe_good, create_run_safe.
  - by apply safe_good, create_thread_message_run_safe.
  - apply safe_good, claim_external_run_safe.
  - apply safe_good, claim_server_run_safe.
  - apply safe_good, recover_external_run_safe.
  - apply safe_good, renew_lease_safe.
  - apply appends_good, append_leased_event_appends.
  - by apply safe_good, finish_leased_run_safe.
  - by apply safe_good, finish_leased_run_safe.
  - by apply safe_good, finish_leased_run_safe.
  - apply safe_good, cancel_run_safe.
  - by apply safe_good, terminal_transition_safe.
  - apply wp_good, transition_run_safe. right.
    split; [destruct H1 as [-> | ->]; reflexivity|]. exists r, manifest. split; assumption.
  - apply safe_good, interrupt_expired_leases_safe.
  - apply safe_good, create_approval_safe.
  - apply safe_good, request_worker_approval_safe.
  - apply safe_good, resolve_approval_safe.
  - apply safe_good, create_input_request_safe.
  - apply safe_good, request_worker_input_safe.
  - apply safe_good, submit_input_response_safe.
  - apply appends_good, create_checkpoint_appends.
  - apply appends_good, create_worker_checkpoint_appends.
  - apply appends_good, expire_approvals_appends.
  - apply appends_good, expire_inputs_appends.
  - apply same_good, register_executor_same.
  - apply same_good, refresh_executor_same.
  - apply same_good, heartbeat_executor_same.
  - apply pruned_good, retention_pruned.
Qed.

(** ** Histories *)

(** A freshly migrated database: no runs yet. *)
Definition initial_db (db : Db) : Prop := runs db = ∅ /\ run_events db = ∅.

Definition reachable (db : Db) : Prop := exists db0, initial_db db0 /\ rtc step db0 db.

Lemma initial_Inv db : initial_db db -> Inv db.
Proof. intros [Hr He]. split; rewrite ?Hr, ?He; set_solver by lia. Qed.

Lemma steps_Inv db db' : rtc step db db' -> Inv db -> Inv db'.
Proof. induction 1 as [|d1 d2 d3 H12 _ IH]; [done|]. intros HI. apply IH. by apply (step_good _ _ H12). Qed.

Lemma reachable_Inv db : reachable db -> Inv db.
Proof. intros (db0 & Hi & Hs). eapply steps_Inv; [done|by apply initial_Inv]. Qed.

(** A run after any number of steps. *)
Record row_steps (r r' : RunRow) : Prop := {
  rss_ins : run_ins r' = run_ins r;
  rss_state : run_path (run_state r) (run_state r');
  rss_revision : (run_revision r ≤ run_revision r')%Z;
  rss_revision_same : run_revision r' = run_revision r -> run_state r' = run_state r;
  rss_seq : (run_next_event_sequence r ≤ run_next_event_sequence r')%Z;
}.

#[global] Instance row_steps_preorder : PreOrder row_steps.
Proof.
  split; [intros r; by split|]. intros r1 r2 r3 [] [].
  split; [congruence|by etrans|lia| |lia].
  intros H. rewrite rss_revision_same1, rss_revision_same0 by lia. done.
Qed.

Lemma row_step_steps r r' : row_step r r' -> row_steps r r'.
Proof.
  intros [? ? _ ? Hnew ?]. split; auto with contracts. intros Heq.
  destruct (decide (run_state r' = run_state r)) as [|Hne]; [done|].
  specialize (Hnew Hne). lia.
Qed.

Lemma steps_rows db db' id r :
  Inv db -> rtc step db db' -> runs db !! id = Some r ->
  exists r', runs db' !! id = Some r' /\ row_steps r r'.
Proof.
  intros HI Hs. revert r HI. induction Hs as [|d1 d2 d3 H12 _ IH]; intros r HI Hr.
  - exists r. by split.
  - destruct (step_good _ _ H12 HI) as [HI2 [Hrows _ _ _ _ _ _]].
    destruct (Hrows _ _ Hr) as (r2 & Hr2 & H). destruct (IH _ HI2 Hr2) as (r3 & Hr3 & H').
    exists r3. split; [done|]. etrans; [by apply row_step_steps|done].
Qed.

(** An event found later was there before, or has a later sequence number. *)
Lemma steps_events db db' eid e r :
  Inv db -> rtc step db db' -> run_events db' !! eid = Some e ->
  runs db !! evr_run_id e = Some r ->
  run_events db !! eid = Some e \/ (run_next_event_sequence r ≤ evr_sequence e)%Z.
Proof.
  intros HI Hs. revert eid e r. revert db' Hs.
  apply (rtc_ind_r (fun d => forall eid e r, run_events d !! eid = Some e -> _ -> _ \/ _) db);
    [by left|]. intros d1 d2 H01 H12 IH eid e r He Hr.
  assert (HI1 : Inv d1) by (by eapply steps_Inv).
  destruct (step_good _ _ H12 HI1) as [HI2 [_ _ _ Hkept Hfresh _ _]].
  destruct (run_events d1 !! eid) as [e1|] eqn:He1.
  - destruct (Hkept _ _ He1) as [?|[? _]]; simplify_eq. eauto.
  - destruct (steps_rows _ _ _ _ HI H01 Hr) as (r1 & Hr1 & []).
    specialize (Hfresh _ _ _ He He1 Hr1). right. lia.
Qed.

(** ** The concurrency quota *)

(** The runs that count against a scope. *)
Definition counted (db : Db) (scope : QuotaScopeType * Uuid) : gset Uuid :=
  dom (filter (fun kv => run_counts_for db scope kv.2 = true) (runs db)).

Lemma running_runs_counted db scope : running_runs db scope = Z.of_nat (size (counted db scope)).
Proof. unfold running_runs, counted. by rewrite size_dom. Qed.

Lemma elem_of_counted db scope id :
  id ∈ counted db scope <-> exists r, runs db !! id = Some r /\ run_counts_for db scope r = true.
Proof.
  unfold counted. rewrite elem_of_dom. split.
  - intros [r [? ?]%map_lookup_filter_Some]. eauto.
  - intros (r & ? & ?). exists r. by apply map_lookup_filter_Some.
Qed.

Lemma counts_back db db' scope r r' :
  projects db' = projects db -> row_step r r' ->
  run_counts_for db' scope r' = true -> run_counts_for db scope r = true.
Proof.
  intros Hp [Hins Hst _ _ _ _]. unfold run_counts_for. rewrite Hp, Hins, !andb_true_iff.
  intros [Hn ?]. split; [|done]. destruct (is_terminal (run_state r)) eqn:Ht; [|done].
  rewrite (terminal_transition _ _ Ht Hst), Ht in Hn. done.
Qed.

Lemma running_step db db' scope limit :
  evolves db db' -> concurrent_limit db scope = Some limit ->
  (running_runs db' scope ≤ running_runs db scope)%Z
  \/ (running_runs db' scope ≤ limit)%Z.
Proof.
  intros [Hrows Hnew Hone _ _ Hp _] Hlim. rewrite !running_runs_counted.
  assert (Hold : forall id r', runs db' !! id = Some r' -> run_counts_for db' scope r' = true ->
            runs db !! id = None \/ id ∈ counted db scope).
  { intros id r' Hr' Hc. destruct (runs db !! id) as [r|] eqn:Hr; [right|by left].
    destruct (Hrows _ _ Hr) as (? & ? & ?). simplify_eq. apply elem_of_counted.
    exists r. split; [done|]. by eapply counts_back. }
  destruct (decide (counted db' scope ⊆ counted db scope)) as [Hsub|Hnsub].
  { left. apply subseteq_size in Hsub. lia. }
  assert (exists x, x ∈ counted db' scope /\ x ∉ counted db scope) as (x & Hx & Hxn).
  { destruct (set_choose_or_empty (counted db' scope ∖ counted db scope)) as [[x ?]|He];
      [exists x; set_solver|]. exfalso. apply Hnsub. intros y Hy.
    destruct (decide (y ∈ counted db scope)); [done|]. set_solver. }
  apply elem_of_counted in Hx as (rx & Hrx & Hcx).
  destruct (Hold _ _ Hrx Hcx) as [Hxnone|]; [|done].
  destruct (Hnew _ _ Hrx Hxnone) as [_ Hadm].
  assert (Hcx' : run_counts_for db scope rx = true).
  { revert Hcx. unfold run_counts_for. by rewrite Hp. }
  specialize (Hadm _ _ Hcx' Hlim). rewrite running_runs_counted in Hadm. right.
  assert (Hsub : counted db' scope ⊆ {[ x ]} ∪ counted db scope).
  { intros y (ry & Hry & Hcy)%elem_of_counted.
    destruct (Hold _ _ Hry Hcy) as [Hynone|]; [|set_solver].
    rewrite (Hone _ _ _ _ Hry Hynone Hrx Hxnone). set_solver. }
  apply subseteq_size in Hsub. pose proof (size_union_alt {[ x ]} (counted db scope)).
  assert (size (counted db scope ∖ {[ x ]}) ≤ size (counted db scope)) by
    (apply subseteq_size; set_solver).
  rewrite size_singleton in *. lia.
Qed.

Lemma steps_limits db db' : Inv db -> rtc step db db' -> quota_limits db' = quota_limits db.
Proof.
  intros HI Hs. revert HI. induction Hs as [|d1 d2 d3 H12 _ IH]; intros HI; [done|].
  destruct (step_good _ _ H12 HI) as [HI2 Hev]. rewrite (IH HI2). apply ev_limits, Hev.
Qed.

Lemma initial_running db scope : initial_db db -> running_runs db scope = 0%Z.
Proof.
  intros [Hr _]. unfold running_runs. rewrite Hr, map_filter_empty. done.
Qed.
