(* ===== verification/Histories.v ===== *)
(** * Example histories

    Short histories of the deployment of Demo, and that their databases are
    reachable: the inputs at which the properties of the run store are evaluated. *)

From S2P Require Import Prelude.
From S2P Require Import Json.
From S2P Require Import Contracts.
From S2P Require Import Store.
From S2P Require Import Demo.
From S2P Require Import RunStore.
From S2P Require Import Workflow.
From S2P Require Import RunInv.
From S2P Require Import RunSafety.
From S2P Require Import RunSystem.

Lemma demo_reachable : reachable demo_db.
Proof. exists demo_db. by split; [split|]. Qed.

Lemma reachable_step db db' : reachable db -> step db db' -> reachable db'.
Proof. intros (d & Hd & Hs) H. exists d. split; [done|]. by eapply rtc_r. Qed.

(** A row of [runs], for a key that is there. *)
Definition row_of (db : Db) (id : Uuid) : RunRow :=
  from_option (fun r => r) (new_run_row (demo_spec 0 "" server_target) Queued) (runs db !! id).

(** One server run, created, claimed by worker 7, and canceled. *)
Definition sdb1 : Db :=
  (run_tx (demo_env 1) demo_db (create_run (demo_spec 100 "k1" server_target) Queued)).1.
Definition sdb2 : Db := (run_tx (demo_env 2) sdb1 (claim_server_run 7 30)).1.
Definition sdb3 : Db := (run_tx (demo_env 3) sdb2 (cancel_run 100)).1.

Lemma sdb1_reachable : reachable sdb1.
Proof. eapply reachable_step; [apply demo_reachable|]. apply step_create_run. by left. Qed.
Lemma sdb2_reachable : reachable sdb2.
Proof. eapply reachable_step; [apply sdb1_reachable|]. apply step_claim_server. Qed.
Lemma sdb3_reachable : reachable sdb3.
Proof. eapply reachable_step; [apply sdb2_reachable|]. apply step_cancel. Qed.
Lemma sdb3_steps : rtc step sdb2 sdb3.
Proof. apply rtc_once, step_cancel. Qed.

(** A run that waits for a snapshot it was created without. *)
Definition snap1 : Db :=
  (run_tx (demo_env 1) demo_db
     (create_run (demo_spec 100 "k1" server_target) WaitingForSnapshot)).1.

Lemma snap1_reachable : reachable snap1.
Proof. eapply reachable_step; [apply demo_reachable|]. apply step_create_run. by right; right. Qed.

(** A run of the Windows pool, created and claimed by executor 40. *)
Definition pdb1 : Db :=
  (run_tx (demo_env 1) demo_db (create_run (demo_spec 100 "k1" pool_target) Queued)).1.
Definition pdb2 : Db := (run_tx (demo_env 2) pdb1 (claim_external_run 40 30)).1.

Lemma pdb1_reachable : reachable pdb1.
Proof. eapply reachable_step; [apply demo_reachable|]. apply step_create_run. by left. Qed.
Lemma pdb2_reachable : reachable pdb2.
Proof. eapply reachable_step; [apply pdb1_reachable|]. apply step_claim_external. Qed.
