(* ===== verification/RunProperties.v ===== *)
(** * What the run store guarantees

    The properties of the run store over all histories of the control plane. *)

From S2P Require Import Prelude.
From S2P Require Import Json.
From S2P Require Import Contracts.
From S2P Require Import Store.
From S2P Require Import Demo.
From S2P Require Import Governance.
From S2P Require Import SyncPublish.
From S2P Require Import RunStore.
From S2P Require Import Workflow.
From S2P Require Import Routing.
From S2P Require Import RunInv.
From S2P Require Import RunSafety.
From S2P Require Import RunSystem.
From S2P Require Import Histories.

(** ** The state machine *)

(** C1: every database the server can reach satisfies the run invariant: lease
    columns are set exactly in the leased states and name the assigned executor,
    the routing columns are the ones the frozen spec dictates, an idempotency key
    belongs to one run, event sequence numbers are positive, unique within a run and
    below its cursor, and the log of a run that is not terminal has no gaps. *)
Theorem reachable_invariant db : reachable db -> Inv db.
Proof. apply reachable_Inv. Qed.

Lemma reachable_invariant_witness : Inv sdb2.
Proof. apply reachable_invariant, sdb2_reachable. Defined.

(** C2: a committed transaction moves each existing run along at most one transition
    that the contract's state machine allows, although most of the UPDATE statements
    do not call [ensure_run_transition]; the frozen spec and routing columns never
    change, and a changed state always comes with a greater revision (so a client's
    ETag detects it). *)
Theorem step_follows_contract db db' id r :
  reachable db -> step db db' -> runs db !! id = Some r ->
  exists r', runs db' !! id = Some r' /\ run_ins r' = run_ins r
    /\ ensure_run_transition (run_state r) (run_state r') = Ok tt
    /\ (run_state r' ≠ run_state r -> (run_revision r < run_revision r')%Z).
Proof.
  intros Hreach Hs Hr. destruct (step_good _ _ Hs (reachable_Inv _ Hreach)) as [_ [Hrows _ _ _ _ _ _]].
  destruct (Hrows _ _ Hr) as (r' & Hr' & []). exists r'.
  split_and!; auto. by apply ensure_run_transition_Ok.
Qed.

Lemma step_follows_contract_witness :
  exists r', runs sdb3 !! 100%N = Some r' /\ run_ins r' = run_ins (row_of sdb2 100)
    /\ ensure_run_transition (run_state (row_of sdb2 100)) (run_state r') = Ok tt
    /\ (run_state r' ≠ run_state (row_of sdb2 100)
        -> (run_revision (row_of sdb2 100) < run_revision r')%Z).
Proof.
  apply (step_follows_contract sdb2); [apply sdb2_reachable|apply step_cancel|].
  vm_compute. reflexivity.
Defined.

(** terminal states are final. Whatever transactions follow, a completed, failed,
    canceled or expired run keeps that state and its frozen spec. *)
Theorem terminal_runs_stay db db' id r :
  reachable db -> rtc step db db' -> runs db !! id = Some r -> is_terminal (run_state r) = true ->
  exists r', runs db' !! id = Some r' /\ run_state r' = run_state r /\ run_ins r' = run_ins r.
Proof.
  intros Hreach Hs Hr Ht. destruct (steps_rows _ _ _ _ (reachable_Inv _ Hreach) Hs Hr)
    as (r' & Hr' & []). exists r'. split_and!; auto. by apply terminal_path.
Qed.

Lemma terminal_runs_stay_witness :
  exists r', runs (run_tx (demo_env 4) sdb3 (claim_server_run 8 30)).1 !! 100%N = Some r'
    /\ run_state r' = run_state (row_of sdb3 100) /\ run_ins r' = run_ins (row_of sdb3 100).
Proof.
  apply (terminal_runs_stay sdb3); [apply sdb3_reachable|apply rtc_once, step_claim_server| |].
  - vm_compute. reflexivity.
  - vm_compute. reflexivity.
Defined.

(** ** The event log *)

(** C11: a run's sequence number names one event for ever: an event that any later
    database holds under the same run and number is the same event, with the same
    identifier, kind, payload and time, also after retention has deleted events. *)
Theorem event_identity db db' e1 e2 x y :
  reachable db -> rtc step db db' -> run_events db !! e1 = Some x -> run_events db' !! e2 = Some y ->
  evr_run_id x = evr_run_id y -> evr_sequence x = evr_sequence y -> e1 = e2 /\ x = y.
Proof.
  intros Hreach Hs Hx Hy Hrun Hseq. pose proof (reachable_Inv _ Hreach) as HI.
  destruct (inv_bounds _ HI _ _ Hx) as (r & Hr & Hb). rewrite Hrun in Hr.
  destruct (steps_events _ _ _ _ _ HI Hs Hy Hr) as [Hy'|Hlate]; [|lia].
  assert (e1 = e2) as -> by (eapply inv_unique; eauto). by simplify_eq.
Qed.

(** The event with number [n] of run 100. *)
Definition demo_event (db : Db) (n : Z) : Uuid * EventRow :=
  from_option (fun kv => kv) (0%N, {| evr_run_id := 0; evr_sequence := 0; evr_kind := EvCreated;
                                      evr_payload := JNull; evr_created_at := 0 |})
    (select_one (fun _ e => bool_decide (evr_sequence e = n)) (run_events db)).

Lemma event_identity_witness :
  (demo_event sdb2 2).1 = (demo_event sdb3 2).1 /\ (demo_event sdb2 2).2 = (demo_event sdb3 2).2.
Proof.
  apply (event_identity sdb2 sdb3); [apply sdb2_reachable|apply sdb3_steps| | | |];
    vm_compute; reflexivity.
Defined.

(** The sequence numbers of the run's stored events after a cursor. *)
Lemma sequences_after db id r after :
  Inv db -> runs db !! id = Some r -> is_terminal (run_state r) = false ->
  (0 ≤ after < run_next_event_sequence r)%Z ->
  (fun kv => evr_sequence kv.2) <$> merge_sort sequence_order
    (filter (fun kv => evr_run_id kv.2 = id /\ (after < evr_sequence kv.2)%Z)
       (map_to_list (run_events db)))
  = seqZ (after + 1) (run_next_event_sequence r - 1 - after).
Proof.
  intros HI Hr Ht Ha. set (l := filter _ _).
  assert (Hl : forall kv, kv ∈ l <-> run_events db !! kv.1 = Some kv.2
            /\ evr_run_id kv.2 = id /\ (after < evr_sequence kv.2)%Z).
  { intros [eid e]. subst l. rewrite list_elem_of_filter, elem_of_map_to_list. simpl. tauto. }
  apply sorted_range.
  - apply StronglySorted_fmap with sequence_order; [done|].
    apply StronglySorted_merge_sort; unfold sequence_order; [intros ???; lia|].
    intros x y. destruct (Z.le_ge_cases (evr_sequence x.2) (evr_sequence y.2)); auto.
  - apply NoDup_fmap_2_strong.
    + intros [e1 x] [e2 y]. rewrite merge_sort_Permutation, !Hl. simpl.
      intros (Hx & Hx1 & _) (Hy & Hy1 & _) Heq.
      assert (e1 = e2) as -> by (eapply inv_unique; eauto; congruence). by simplify_eq.
    + rewrite merge_sort_Permutation. apply NoDup_filter, NoDup_map_to_list.
  - intros z. rewrite list_elem_of_fmap. split.
    + intros ([eid e] & -> & Hin). rewrite merge_sort_Permutation, Hl in Hin.
      destruct Hin as (He & <- & ?). destruct (inv_bounds _ HI _ _ He) as (r' & ? & ?).
      simplify_eq/=. lia.
    + intros Hz. destruct (inv_complete _ HI _ _ z Hr Ht) as (eid & e & He & <- & <-); [lia|].
      exists (eid, e). split; [done|]. rewrite merge_sort_Permutation. apply Hl. simpl.
      split_and!; auto; lia.
Qed.

(** C10: replay is complete. For a run that is not terminal, reading events after a
    cursor returns exactly the consecutive numbers that follow it, up to the page
    size (1 to 1000) or the end of the log: no event is skipped, repeated or out of
    order. *)
Theorem replay_is_complete db id r after limit :
  reachable db -> runs db !! id = Some r -> is_terminal (run_state r) = false ->
  (0 ≤ after < run_next_event_sequence r)%Z ->
  ev_sequence <$> get_run_events db id after limit
  = seqZ (after + 1) (Z.min (clamp 1 1000 limit) (run_next_event_sequence r - 1 - after)).
Proof.
  intros Hreach Hr Ht Ha. pose proof (sequences_after _ _ _ _ (reachable_Inv _ Hreach) Hr Ht Ha) as H.
  unfold get_run_events. rewrite <- list_fmap_compose. unfold compose. simpl.
  rewrite fmap_take, H, take_seqZ. f_equal. rewrite Z2Nat.id; [done|]. unfold clamp. lia.
Qed.

Lemma replay_is_complete_witness :
  ev_sequence <$> get_run_events sdb2 100 1 5 = seqZ 2 2.
Proof.
  apply (replay_is_complete sdb2 100 (row_of sdb2 100) 1 5); [apply sdb2_reachable| | |];
    [vm_compute; reflexivity|vm_compute; reflexivity|vm_compute; split; [discriminate|reflexivity]].
Defined.

(** ** Idempotent creation *)

(** The run stored under a creator and a key. *)
Definition holds_key (db : Db) (creator : Uuid) (key : string) (spec : RunSpec) : Prop :=
  exists r, runs db !! spec_id spec = Some r /\ ins_spec (run_ins r) = spec
    /\ ins_creator_user_id (run_ins r) = creator /\ ins_idempotency_key (run_ins r) = key.

Lemma run_by_key_holds db creator key i r :
  Inv db -> run_by_key db creator key = Some (i, r) ->
  holds_key db creator key (ins_spec (run_ins r)).
Proof.
  intros HI [Hr Hp]%select_one_Some. exists r.
  rewrite (ro_id _ _ (inv_runs _ HI _ _ Hr)).
  apply andb_true_iff in Hp as [?%bool_decide_eq_true ?%bool_decide_eq_true]. done.
Qed.

(** The run a successful creation answers with is stored under the request's key. *)
Lemma create_run_stored env spec s st :
  Inv (tx_db st) -> initial_state s ->
  wp env (create_run spec s) (fun rec s' =>
    holds_key (tx_db s') (spec_creator_user_id spec) (spec_idempotency_key spec)
      (rec_spec rec)) st.
Proof.
  intros HI Hs. unfold create_run, create_run_tx, put_run. wp_steps.
  destruct (run_by_key _ _ _) as [[i r]|] eqn:Hkey; wp_steps;
    [by eapply run_by_key_holds|].
  unfold wp at 1. destruct (enforce_run_quota_tx _ _ env st) as [[u s1]|] eqn:Hq; [|done].
  destruct (quota_admits _ _ _ _ _ _ Hq Hs) as [-> Hadm]. wp_steps. rewrite Hkey. wp_steps.
  apply bool_decide_eq_false in H. apply eq_None_not_Some in H.
  destruct (insert_run_safe _ _ _ Hs H Hkey Hadm HI) as [HI1 _].
  eapply wp_frames; [apply append_event_appends|]. intros e s2 Happ. wp_steps.
  destruct (Happ HI1) as [_ [Hrows _ _ _ _ _ _]]. rewrite new_run_insert_spec.
  destruct (Hrows (spec_id spec) (new_run_row spec s)) as (r & Hr & n & _ & ->);
    [apply lookup_insert_eq|].
  eexists; split; [exact Hr|]. simpl.
  by rewrite new_run_insert_spec, new_run_insert_creator, new_run_insert_key.
Qed.

Lemma holds_key_answer env db creator key spec spec' s :
  Inv db -> holds_key db creator key spec ->
  spec_creator_user_id spec' = creator -> spec_idempotency_key spec' = key ->
  exists r, runs db !! spec_id spec = Some r /\ ins_spec (run_ins r) = spec
    /\ run_tx env db (create_run spec' s) = (db, Ok (row_to_run r)).
Proof.
  intros HI (r & Hr & Hspec & Hc & Hk) Hc' Hk'. exists r. split_and!; [done|done|].
  destruct (run_by_key db (spec_creator_user_id spec') (spec_idempotency_key spec'))
    as [[i r']|] eqn:Hkey.
  - unfold run_tx, create_run, create_run_tx, mbind, tx_bind, get_db. cbn [tx_db].
    rewrite Hkey. pose proof Hkey as [Hr' Hp]%select_one_Some.
    apply andb_true_iff in Hp as [?%bool_decide_eq_true ?%bool_decide_eq_true].
    assert (i = spec_id spec) as -> by (eapply inv_key; eauto; congruence). by simplify_eq.
  - exfalso. eapply run_by_key_None; [exact Hkey|exact Hr|congruence|congruence].
Qed.

(** C12: creation is idempotent in its key, for ever. Once a creation has answered
    with a run, any later creation by the same user with the same key, whatever else
    it asks for and however many transactions later, answers with that run as it is
    then, and changes nothing. *)
Theorem create_run_idempotent db env spec s db' rec later env' spec' s' :
  reachable db -> initial_state s -> run_tx env db (create_run spec s) = (db', Ok rec) ->
  rtc step db' later ->
  spec_creator_user_id spec' = spec_creator_user_id spec ->
  spec_idempotency_key spec' = spec_idempotency_key spec ->
  exists r, runs later !! spec_id (rec_spec rec) = Some r
    /\ ins_spec (run_ins r) = rec_spec rec
    /\ run_tx env' later (create_run spec' s') = (later, Ok (row_to_run r)).
Proof.
  intros Hreach%reachable_Inv Hs Hrun Hsteps Hc Hk.
  pose proof (create_run_stored env spec s (MkTx db 0) Hreach Hs) as Hwp.
  pose proof (step_good _ _ (step_create_run db env spec s Hs) Hreach) as [HI' _].
  destruct (run_tx_Ok _ _ _ _ _ Hrun) as [ids Htx]. unfold wp in Hwp. rewrite Htx in Hwp.
  rewrite Hrun in HI'. simpl in *. destruct Hwp as (r & Hr & Hspec & Hrc & Hrk).
  destruct (steps_rows _ _ _ _ HI' Hsteps Hr) as (r' & Hr' & [Hins _ _ _ _]).
  eapply holds_key_answer; [by eapply steps_Inv|exists r'|exact Hc|exact Hk].
  rewrite Hins. by split_and!.
Qed.

Lemma create_run_idempotent_witness :
  exists r, runs sdb3 !! 100%N = Some r /\ ins_spec (run_ins r) = demo_spec 100 "k1" server_target
    /\ run_tx (demo_env 9) sdb3 (create_run (demo_spec 101 "k1" pool_target) WaitingForExecutor)
       = (sdb3, Ok (row_to_run r)).
Proof.
  apply (create_run_idempotent demo_db (demo_env 1) (demo_spec 100 "k1" server_target) Queued
           sdb1 (row_to_run (new_run_row (demo_spec 100 "k1" server_target) Queued)) sdb3).
  - apply demo_reachable.
  - left. reflexivity.
  - vm_compute. reflexivity.
  - apply (rtc_l _ _ sdb2); [apply step_claim_server|apply sdb3_steps].
  - reflexivity.
  - reflexivity.
Defined.
