(* ===== verification/LeaseProperties.v ===== *)
(** * Claims, leases and recovery

    What a successful claim, a lease check, the lease reaper and a reconnect
    guarantee. *)

From S2P Require Import Prelude.
From S2P Require Import Json.
From S2P Require Import Contracts.
From S2P Require Import Store.
From S2P Require Import Demo.
From S2P Require Import Governance.
From S2P Require Import SyncPublish.
From S2P Require Import RunStore.
From S2P Require Import Workflow.
From S2P Require Import Routing.
From S2P Require Import RunInv.
From S2P Require Import RunSafety.
From S2P Require Import RunSystem.
From S2P Require Import Histories.

(** ** Runs without a snapshot *)

(** a run that was created without a snapshot and waits for one is never
    executed: whatever happens afterwards, it keeps waiting or is canceled or
    expires, because the snapshot of a run cannot be supplied later and only a run
    with a snapshot is woken up. *)
Theorem unsnapshotted_run_never_runs db db' id r :
  reachable db -> rtc step db db' -> runs db !! id = Some r ->
  run_state r = WaitingForSnapshot -> ins_snapshot_id (run_ins r) = None ->
  exists r', runs db' !! id = Some r' /\ ins_snapshot_id (run_ins r') = None
    /\ (run_state r' = WaitingForSnapshot \/ run_state r' = Canceled \/ run_state r' = Expired).
Proof.
  intros Hreach%reachable_Inv Hs Hr Hst Hsnap. revert db' Hs.
  apply (rtc_ind_r (fun d => exists r', runs d !! id = Some r' /\ _ /\ _) db); [eauto|].
  intros d1 d2 H01 H12 (r1 & Hr1 & Hsn1 & Hst1).
  destruct (step_good _ _ H12 (steps_Inv _ _ H01 Hreach)) as [_ [Hrows _ _ _ _ _ _]].
  destruct (Hrows _ _ Hr1) as (r2 & Hr2 & [Hins Htr Hcl _ _ _]).
  exists r2. rewrite Hins. split_and!; [done|done|].
  rewrite Hsn1 in Hcl. destruct (run_state r2) eqn:Hs2; auto;
    try (destruct Hst1 as [E|[E|E]]; by rewrite E in Htr);
    destruct (Hcl eq_refl) as [E|[? ?]]; try done; rewrite <- E in Hst1; naive_solver.
Qed.

Lemma unsnapshotted_run_never_runs_witness :
  exists r', runs (run_tx (demo_env 2) snap1 (claim_server_run 7 30)).1 !! 100%N = Some r'
    /\ ins_snapshot_id (run_ins r') = None
    /\ (run_state r' = WaitingForSnapshot \/ run_state r' = Canceled \/ run_state r' = Expired).
Proof.
  apply (unsnapshotted_run_never_runs snap1 _ _ (row_of snap1 100));
    [apply snap1_reachable|apply rtc_once, step_claim_server| | |]; vm_compute; reflexivity.
Defined.

(** ** Claims *)

Lemma created_before_spec a b :
  created_before a b = true <->
  (ins_created_at (run_ins a.2) < ins_created_at (run_ins b.2))%Z
  \/ (ins_created_at (run_ins a.2) = ins_created_at (run_ins b.2) /\ (a.1 < b.1)%N).
Proof.
  unfold created_before. rewrite orb_true_iff, andb_true_iff, !bool_decide_eq_true. done.
Qed.

Lemma queue_order_spec a b : queue_order a b <-> ~ created_before b a = true.
Proof. unfold queue_order. rewrite not_true_iff_false. done. Qed.

#[global] Instance queue_order_trans : Transitive queue_order.
Proof. intros a b c. rewrite !queue_order_spec, !created_before_spec. lia. Qed.

#[global] Instance queue_order_total : Total queue_order.
Proof. intros a b. rewrite !queue_order_spec, !created_before_spec. lia. Qed.

(** The rows a claim's query matches. *)
Definition claimable_row (env : Env) (db : Db) (sel : RunRow -> bool) (id : Uuid) (r : RunRow) : Prop :=
  runs db !! id = Some r /\ sel r = true /\ has_open_predecessor db id r = false
  /\ row_locked env id = false.

(** The first candidate is the oldest of all rows the query matches. *)
Lemma claim_head_oldest env db sel n id r :
  head (claim_candidates env db sel n) = Some (id, r) ->
  forall id' r', claimable_row env db sel id' r' -> created_before (id', r') (id, r) = false.
Proof.
  unfold claim_candidates. set (l := merge_sort _ _).
  assert (Hl : forall kv, kv ∈ l <-> claimable_row env db sel kv.1 kv.2).
  { intros [k v]. subst l. rewrite merge_sort_Permutation, list_elem_of_filter,
      elem_of_map_to_list. unfold claimable_row. simpl. tauto. }
  assert (Hsort : StronglySorted queue_order l) by (apply StronglySorted_merge_sort; apply _).
  destruct n; [done|]. destruct l as [|x l']; [done|]. simpl. intros [= ->] id' r' Hc.
  apply (Hl (id', r')) in Hc. apply elem_of_cons in Hc as [->|Hin].
  - apply not_true_iff_false. rewrite created_before_spec. lia.
  - inversion Hsort as [|? ? _ Hall]. rewrite Forall_forall in Hall. by apply (Hall _ Hin).
Qed.

(** No run of the same thread that was created earlier is still open. *)
Definition predecessors_done (db : Db) (id : Uuid) (r : RunRow) : Prop :=
  forall pid p, runs db !! pid = Some p -> ins_thread_id (run_ins p) = ins_thread_id (run_ins r) ->
    created_before (pid, p) (id, r) = true -> is_terminal (run_state p) = true.

Lemma open_predecessor_spec db id r :
  has_open_predecessor db id r = false -> predecessors_done db id r.
Proof.
  unfold has_open_predecessor. rewrite row_exists_false. intros H pid p Hp Ht Hb.
  specialize (H _ _ Hp). rewrite Ht, Hb, bool_decide_true in H by done. simpl in H.
  by apply negb_false_iff in H.
Qed.

(** The claimed row in the tables a claim leaves behind. *)
Definition holds_lease (db : Db) (id owner token : Uuid) (expires_at : DateTime) : Prop :=
  exists r, runs db !! id = Some r /\ run_state r = Running /\ run_lease_owner r = Some owner
    /\ run_lease_token r = Some token /\ run_lease_expires_at r = Some expires_at
    /\ run_assigned_executor_id r = Some owner.

Lemma lease_row_holds env owner token expires rev r db db' id :
  touched (set_runs (<[id := lease_row env owner token expires rev r]> (runs db)) db) db' ->
  holds_lease db' id owner token expires.
Proof.
  intros [Hrows _ _ _ _ _ _].
  destruct (Hrows id (lease_row env owner token expires rev r)) as (r' & Hr' & n & _ & ->);
    [apply lookup_insert_eq|]. by eexists.
Qed.

Lemma claim_head_None env db sel n :
  (0 < n)%nat -> head (claim_candidates env db sel n) = None ->
  forall id r, ~ claimable_row env db sel id r.
Proof.
  unfold claim_candidates. set (l := merge_sort _ _). intros Hn Hh id r (Hr & Hs & Hp & Hlk).
  assert (Hin : (id, r) ∈ l).
  { subst l. rewrite merge_sort_Permutation, list_elem_of_filter, elem_of_map_to_list. done. }
  destruct n; [lia|]. destruct l; [set_solver|done].
Qed.

(** C13: what the server's worker loop may rely on. A claim that answers with a lease
    took a queued server run, the oldest of all that are claimable (by creation time,
    then id, among the rows no other transaction holds), whose earlier runs in the
    same thread are all finished; the run is now running and its row carries exactly
    the lease that was handed out. A claim that answers with nothing found no
    claimable run and changed nothing. *)
Theorem claim_server_run_correct db env worker secs db' answer :
  reachable db -> run_tx env db (claim_server_run worker secs) = (db', Ok answer) ->
  match answer with
  | Some lease =>
      exists id r, claimable_row env db server_match id r /\ run_state r = Queued
        /\ predecessors_done db id r
        /\ (forall id' r', claimable_row env db server_match id' r' ->
              created_before (id', r') (id, r) = false)
        /\ spec_id (rec_spec (lease_run lease)) = id
        /\ rec_state (lease_run lease) = Running
        /\ holds_lease db' id worker (lease_lease_token lease) (lease_lease_expires_at lease)
  | None => db' = db /\ forall id r, ~ claimable_row env db server_match id r
  end.
Proof.
  intros Hreach%reachable_Inv Hrun. run_post Hrun.
  unfold claim_server_run, put_run. wp_steps.
  destruct (head _) as [[id r]|] eqn:Hh; wp_steps.
  - pose proof Hh as Hin%head_elem%claim_candidates_spec. destruct Hin as (Hr & Hm & Hp & Hl).
    pose proof (server_match_state _ Hm) as Hq.
    destruct (lease_row_safe env worker (new_v4 env 0) (app_now env + seconds secs) r id db)
      as [HI1 _]; [done|by rewrite Hq|done|].
    eapply wp_frames; [apply append_event_appends|]. intros e1 s1 H1. wp_steps.
    eapply wp_frames; [apply append_event_appends|]. intros e2 s2 H2. wp_steps.
    exists id, r. destruct (H1 HI1) as [HI2 T1]. destruct (H2 HI2) as [_ T2].
    split_and!; try done.
    + by apply open_predecessor_spec.
    + by eapply claim_head_oldest.
    + by apply (ro_id _ _ (inv_runs _ Hreach _ _ Hr)).
    + eapply lease_row_holds. etrans; [exact T1|exact T2].
  - split; [done|]. by eapply claim_head_None; [|exact Hh]; lia.
Qed.

Lemma claim_server_run_correct_witness :
  exists id r, claimable_row (demo_env 2) sdb1 server_match id r /\ run_state r = Queued
    /\ predecessors_done sdb1 id r
    /\ (forall id' r', claimable_row (demo_env 2) sdb1 server_match id' r' ->
          created_before (id', r') (id, r) = false)
    /\ spec_id (rec_spec (row_to_run (row_of sdb2 100))) = id
    /\ rec_state (row_to_run (row_of sdb2 100)) = Running
    /\ holds_lease sdb2 id 7 1200%N 1032000000.
Proof.
  apply (claim_server_run_correct sdb1 (demo_env 2) 7 30 sdb2
    (Some (mk_lease (row_of sdb2 100) 1200%N 1032000000))); [apply sdb1_reachable|].
  vm_compute. reflexivity.
Defined.

(** The executor is the one the frozen spec's target names, or one of its pool. *)
Definition serves_target (executor_id : Uuid) (reg : ExecutorRegistration)
    (target : ExecutorTarget) : Prop :=
  match target with
  | ServerLinux _ => False
  | ManagedWindowsPool pool_id => reg_kind reg = KManagedWindows /\ reg_pool_id reg = Some pool_id
  | PersonalDevice device_id => reg_kind reg = KPersonalDevice /\ device_id = executor_id
  end.

Lemma external_match_target executor reg id r :
  run_ok id r -> external_match executor reg r = true ->
  serves_target executor reg (spec_executor_target (ins_spec (run_ins r))).
Proof.
  intros [_ Hcol _ _ _] Hm. unfold external_match in Hm. rewrite Hcol in Hm.
  unfold new_run_insert in Hm. unfold serves_target.
  destruct (spec_executor_target (ins_spec (run_ins r))) as [pool|pool|device];
    apply andb_true_iff in Hm as [_ Hm]; simpl in Hm; [done| |].
  - rewrite orb_false_r in Hm. apply andb_true_iff in Hm as [Hk Hp].
    apply bool_decide_eq_true in Hk. destruct (reg_pool_id reg) as [q|]; [|done].
    by apply bool_decide_eq_true in Hp as ->.
  - apply andb_true_iff in Hm as [Hk Hp]. apply bool_decide_eq_true in Hk, Hp.
    by simplify_eq.
Qed.

Lemma external_match_claimable executor reg r :
  external_match executor reg r = true -> is_claimable (run_state r) = true.
Proof.
  unfold external_match. rewrite andb_true_iff, orb_true_iff, !bool_decide_eq_true.
  by intros [[-> | ->] _].
Qed.

(** C14: an executor only ever receives runs it may execute. A claim that answers with
    a lease found the executor registered, not draining and below its concurrency
    limit; the run was queued or waiting for an executor, its frozen target is this
    executor's pool (managed Windows) or this very device (personal device), every
    required capability is advertised, and its earlier runs in the thread are
    finished; the stored row carries exactly the lease handed out. *)
Theorem claim_external_run_correct db env executor_id secs db' lease :
  reachable db -> run_tx env db (claim_external_run executor_id secs) = (db', Ok (Some lease)) ->
  exists e id r, executors db !! executor_id = Some e /\ exw_draining e = false
    /\ (exw_active_runs e < reg_max_concurrent_runs (exw_registration e))%Z
    /\ runs db !! id = Some r /\ is_claimable (run_state r) = true
    /\ serves_target executor_id (exw_registration e) (spec_executor_target (ins_spec (run_ins r)))
    /\ has_capabilities (exw_registration e)
         (spec_required_capabilities (ins_spec (run_ins r))) = true
    /\ predecessors_done db id r
    /\ spec_id (rec_spec (lease_run lease)) = id
    /\ holds_lease db' id executor_id (lease_lease_token lease) (lease_lease_expires_at lease).
Proof.
  intros Hreach%reachable_Inv Hrun. remember (Some lease) as answer eqn:Ha. revert Ha.
  run_post Hrun. unfold claim_external_run, put_run. wp_steps.
  rename a into e, a0 into x, H into He, H0 into Hx. unfold row_to_executor in Hx.
  destruct (in_u16 (exw_active_runs e)); [|done]. injection Hx as <-. simpl.
  destruct (exw_draining e || _) eqn:Hfree; wp_steps; [done|].
  apply orb_false_iff in Hfree as [Hdr Hact%bool_decide_eq_false].
  destruct (List.find _ _) as [[id r]|] eqn:Hf; wp_steps; [|done].
  apply find_some in Hf as [Hin Hsup]. apply list_elem_of_In, claim_candidates_spec in Hin
    as (Hr & Hm & Hp & Hl). simpl in Hsup.
  destruct (lease_row_safe env executor_id (new_v4 env 0) (app_now env + seconds secs) r id db)
    as [HI1 _]; [done|by eapply external_match_state|done|].
  eapply wp_frames; [apply same_appends, put_executor_same|]. intros _ s0 H0'. wp_steps.
  eapply wp_frames; [apply append_event_appends|]. intros e1 s1 H1'. wp_steps.
  eapply wp_frames; [apply append_event_appends|]. intros e2 s2 H2'. wp_steps.
  intros [= <-]. destruct (H0' HI1) as [HI2 T0]. destruct (H1' HI2) as [HI3 T1].
  destruct (H2' HI3) as [_ T2].
  exists e, id, r. split_and!; try done; try lia.
  - by eapply external_match_claimable.
  - eapply external_match_target; [|done]. by apply (inv_runs _ Hreach).
  - unfold supports_run in Hsup. by destruct (has_capabilities _ _).
  - by apply open_predecessor_spec.
  - by apply (ro_id _ _ (inv_runs _ Hreach _ _ Hr)).
  - eapply lease_row_holds. etrans; [exact T0|]. etrans; [exact T1|exact T2].
Qed.

Lemma claim_external_run_correct_witness :
  exists e id r, executors pdb1 !! 40%N = Some e /\ exw_draining e = false
    /\ (exw_active_runs e < reg_max_concurrent_runs (exw_registration e))%Z
    /\ runs pdb1 !! id = Some r /\ is_claimable (run_state r) = true
    /\ serves_target 40 (exw_registration e) (spec_executor_target (ins_spec (run_ins r)))
    /\ has_capabilities (exw_registration e)
         (spec_required_capabilities (ins_spec (run_ins r))) = true
    /\ predecessors_done pdb1 id r
    /\ spec_id (rec_spec (row_to_run (row_of pdb2 100))) = id
    /\ holds_lease pdb2 id 40 1200%N 1032000000.
Proof.
  apply (claim_external_run_correct pdb1 (demo_env 2) 40 30 pdb2
    (mk_lease (row_of pdb2 100) 1200%N 1032000000)); [apply pdb1_reachable|].
  vm_compute. reflexivity.
Defined.

(** ** Lease checks *)

(** The run's stored lease is not this executor's and token's, or it is over. *)
Definition lease_invalid (env : Env) (db : Db) (id executor token : Uuid) : Prop :=
  forall r, runs db !! id = Some r ->
    lease_held r executor token && lease_unexpired (db_now env) r = false.

Lemma verify_lease_invalid env s id executor token :
  lease_invalid env (tx_db s) id executor token ->
  verify_lease id executor token env s = Err lease_lost.
Proof.
  intros H. unfold verify_lease, mbind, tx_bind, get_db, ask. simpl.
  destruct (runs (tx_db s) !! id) as [r|] eqn:Hr; [|done]. by rewrite (H _ Hr).
Qed.

Lemma run_tx_fails {A} env db (m : Tx A) e :
  m env (MkTx db 0) = Err e -> run_tx env db m = (db, Err e).
Proof. unfold run_tx. by intros ->. Qed.

(** C4: a lost lease is worth nothing. When the stored lease names another executor or
    token, the run has left the leased states, or the lease has expired, then
    finishing the run in any way, appending an event, writing a checkpoint and asking
    for approval or input all fail and leave every table as it was. *)
Theorem stale_lease_rejected db env id executor token :
  lease_invalid env db id executor token ->
  (forall outcome, run_tx env db (finish_leased_run id executor token outcome)
     = (db, Err lease_lost))
  /\ (forall source kind payload, run_tx env db (append_leased_event
        {| lei_run_id := id; lei_executor_id := executor; lei_lease_token := token;
           lei_source_event_id := source; lei_kind := kind; lei_payload := payload |})
     = (db, Err lease_lost))
  /\ (forall b v, run_tx env db (create_worker_checkpoint executor id token b v)
     = (db, Err lease_lost))
  /\ (forall v, run_tx env db (request_worker_approval executor id token v)
     = (db, Err lease_lost))
  /\ (forall v, run_tx env db (request_worker_input executor id token v)
     = (db, Err lease_lost)).
Proof.
  intros Hinv.
  assert (Hv : forall n, verify_lease id executor token env (MkTx db n) = Err lease_lost)
    by (intros n; by apply verify_lease_invalid).
  split_and!; intros; apply run_tx_fails.
  - unfold finish_leased_run, mbind, tx_bind. by rewrite Hv.
  - unfold append_leased_event, append_leased_event_with_accounting, mbind, tx_bind. simpl.
    by rewrite Hv.
  - unfold create_worker_checkpoint, mbind, tx_bind. by rewrite Hv.
  - unfold request_worker_approval, mbind, tx_bind, fresh_uuid, ask. simpl. by rewrite Hv.
  - unfold request_worker_input, mbind, tx_bind, fresh_uuid, ask. simpl. by rewrite Hv.
Qed.

(** The run was canceled while the worker was computing. *)
Lemma stale_lease_rejected_witness :
  run_tx (demo_env 4) sdb3 (complete_leased_run 100 7 1200 JNull None JNull)
  = (sdb3, Err lease_lost).
Proof.
  apply (stale_lease_rejected sdb3 (demo_env 4) 100 7 1200).
  intros r Hr. vm_compute in Hr. injection Hr as <-. reflexivity.
Defined.

(** ** The lease reaper *)

(** after the reaper ran, no run has an overdue lease. Every run whose lease had
    expired is interrupted, without a lease, with a new revision and an error that
    says whether its latest checkpoint was safe to resume (no checkpoint counts as
    safe); every other run is as it was, its event cursor aside. *)
Theorem reaper_interrupts_expired db env db' n :
  reachable db -> run_tx env db interrupt_expired_leases = (db', Ok n) ->
  forall id r, runs db !! id = Some r -> exists r', runs db' !! id = Some r'
    /\ lease_is_past env r' = false
    /\ if lease_is_past env r then
         run_state r' = Interrupted /\ run_lease_token r' = None
         /\ run_revision r' = (run_revision r + 1)%Z
         /\ run_error r' = Some (lease_expired_error (checkpoint_safe db id))
       else touch r r'.
Proof.
  intros Hreach%reachable_Inv Hrun. run_post Hrun.
  unfold interrupt_expired_leases. wp_steps.
  eapply wp_mono; [apply interrupt_loop; intros id r Hin; by apply expired_runs_spec in Hin as [? _]|].
  intros u s1 [Hq Hr]. simpl in *. wp_steps.
  destruct (rows_moved_safe _ _ (interrupted_moved env _ _ _ Hq Hr) Hreach) as [HI1 _].
  eapply (wp_frames appends); [apply frames_tx_iter; [apply _|apply report_expired_appends]|].
  intros _ s2 Happ. wp_steps. destruct (Happ HI1) as [_ [Hrows _ _ _ _ _ _]].
  intros id r Hid. destruct (Hrows id (interrupted_of env (checkpoint_safe db)
    (expired_runs env db).*1 id r)) as (r' & Hr' & n' & Hn & ->); [by rewrite Hr, Hid|].
  exists (set_run_next_event_sequence n' (interrupted_of env (checkpoint_safe db)
    (expired_runs env db).*1 id r)). split; [done|].
  pose proof (expired_ids env db id r Hid) as Hexp. unfold interrupted_of in *.
  destruct (lease_is_past env r) eqn:Hp.
  - rewrite decide_True in * by tauto. done.
  - rewrite decide_False in * by naive_solver. split; [done|]. by exists n'.
Qed.

Lemma reaper_interrupts_expired_witness :
  exists r', runs (run_tx (demo_env 60) sdb2 interrupt_expired_leases).1 !! 100%N = Some r'
    /\ lease_is_past (demo_env 60) r' = false
    /\ (run_state r' = Interrupted /\ run_lease_token r' = None
         /\ run_revision r' = 3%Z
         /\ run_error r' = Some (lease_expired_error (checkpoint_safe sdb2 100))).
Proof.
  apply (reaper_interrupts_expired sdb2 (demo_env 60) _ 1 sdb2_reachable) with
    (id := 100%N) (r := row_of sdb2 100); vm_compute; reflexivity.
Defined.

(** ** Reconnecting executors *)

(** The row stored at [id], after events were appended. *)
Lemma touched_put id r db db' :
  touched (set_runs (<[id := r]> (runs db)) db) db' ->
  exists n, runs db' !! id = Some (set_run_next_event_sequence n r).
Proof.
  intros [Hrows _ _ _ _ _ _]. destruct (Hrows id r) as (r' & Hr' & n & _ & ->);
    [apply lookup_insert_eq|eauto].
Qed.

(** reconnecting never repeats an unsafe action. An executor that reconnects gets
    its most recently touched live run back under the token it already had, in the
    state it was in, unless the run's latest checkpoint says it is not safe to
    resume: then it gets nothing, and the run is interrupted for manual review. With
    no live run nothing changes. *)
Theorem recovery_respects_checkpoints db env executor_id secs db' answer :
  reachable db -> run_tx env db (recover_external_run executor_id secs) = (db', Ok answer) ->
  match latest_recoverable env db executor_id with
  | None => answer = None /\ db' = db
  | Some (id, r) =>
      if decide (latest_checkpoint_safe db id = Some false) then
        answer = None /\ exists r', runs db' !! id = Some r' /\ run_state r' = Interrupted
          /\ run_lease_owner r' = None /\ run_lease_token r' = None
          /\ run_error r' = Some reconnect_error
      else exists lease r', answer = Some lease /\ runs db' !! id = Some r'
          /\ run_state r' = run_state r /\ run_revision r' = run_revision r
          /\ run_lease_owner r' = Some executor_id
          /\ run_lease_token r = Some (lease_lease_token lease)
          /\ run_lease_token r' = run_lease_token r
          /\ run_lease_expires_at r' = Some (lease_lease_expires_at lease)
  end.
Proof.
  intros Hreach%reachable_Inv Hrun. run_post Hrun.
  unfold recover_external_run, put_run. wp_steps.
  destruct (latest_recoverable env db executor_id) as [[id r]|] eqn:Hf; wp_steps; [|done].
  apply latest_recoverable_spec in Hf as [Hr Hrec].
  pose proof (recoverable_state _ _ _ Hrec) as Hls.
  case_bool_decide as Hck; wp_steps.
  - destruct (interrupt_row_safe env reconnect_error r id db Hr Hls Hreach) as [HI1 _].
    eapply wp_frames; [apply same_appends, release_executor_same|]. intros _ s1 H1. wp_steps.
    eapply wp_frames; [apply append_event_appends|]. intros e s2 H2. wp_steps.
    destruct (H1 HI1) as [HI2 T1]. destruct (H2 HI2) as [_ T2].
    rewrite decide_True by done. split; [done|].
    destruct (touched_put id (interrupt_row env reconnect_error (run_revision r + 1) r) db
      (tx_db s2)) as [n Hn]; [by etrans; [exact T1|]|]. by eexists.
  - destruct (extend_lease_safe env (app_now env + seconds secs) r id db Hr Hls Hreach) as [HI1 _].
    eapply wp_frames; [apply append_event_appends|]. intros e s2 H2. wp_steps.
    destruct (H2 HI1) as [_ T2]. rewrite decide_False by done.
    destruct (touched_put _ _ _ _ T2) as [n Hn]. eexists _, _. split; [done|].
    split; [exact Hn|]. split_and!; try done. simpl. unfold recoverable in Hrec.
    rewrite !andb_true_iff, !bool_decide_eq_true in Hrec. tauto.
Qed.

(** Executor 40's run, with a checkpoint that is not safe to resume. *)
Definition pdb3 : Db :=
  (run_tx (demo_env 3) pdb2 (create_worker_checkpoint 40 100 1200 false JNull)).1.

Lemma pdb3_reachable : reachable pdb3.
Proof. eapply reachable_step; [apply pdb2_reachable|apply step_worker_checkpoint]. Qed.

Lemma recovery_respects_checkpoints_witness :
  match latest_recoverable (demo_env 4) pdb3 40 with
  | None => False
  | Some (id, r) =>
      if decide (latest_checkpoint_safe pdb3 id = Some false) then
        @None RunLease = None /\ exists r',
          runs (run_tx (demo_env 4) pdb3 (recover_external_run 40 30)).1 !! id = Some r'
          /\ run_state r' = Interrupted
          /\ run_lease_owner r' = None /\ run_lease_token r' = None
          /\ run_error r' = Some reconnect_error
      else False
  end.
Proof.
  exact (recovery_respects_checkpoints pdb3 (demo_env 4) 40 30
    (run_tx (demo_env 4) pdb3 (recover_external_run 40 30)).1 None pdb3_reachable
    ltac:(vm_compute; reflexivity)).
Defined.

(** ** Retried events *)

(** The event [eid] is stored with this content, and [ev] reports it. *)
Definition stored (db : Db) (eid run_id : Uuid) (kind : RunEventKind) (payload : Value)
    (ev : RunEvent) : Prop :=
  exists e, run_events db !! eid = Some e /\ evr_run_id e = run_id /\ evr_kind e = kind
    /\ evr_payload e = payload /\ ev = row_to_event eid e.

Lemma event_matches_spec e run_id kind payload :
  event_matches e run_id kind payload = true <->
  evr_run_id e = run_id /\ evr_kind e = kind /\ evr_payload e = payload.
Proof. unfold event_matches. rewrite !andb_true_iff, !bool_decide_eq_true. tauto. Qed.

Lemma append_event_stored env id eid kind payload s :
  wp env (append_event_tx_with_id id eid kind payload)
    (fun ev s' => stored (tx_db s') eid id kind payload ev) s.
Proof.
  unfold append_event_tx_with_id, put_run. wp_steps.
  destruct (run_events (tx_db s) !! eid) as [old|] eqn:He; wp_steps.
  - apply negb_false_iff, event_matches_spec in H0 as (? & ? & ?). by exists old.
  - destruct (should_push kind); wp_steps; [|eexists; simpl; by rewrite lookup_insert_eq].
    eapply wp_same; [apply insert_push_delivery_same|]. intros _ s1 Hsame. wp_steps.
    exists {| evr_run_id := id; evr_sequence := run_next_event_sequence a + 1 - 1;
              evr_kind := kind; evr_payload := payload; evr_created_at := db_now env |}.
    rewrite (sr_events _ _ Hsame). simpl. by rewrite lookup_insert_eq.
Qed.

(** A successful leased append with a source id leaves that event stored. *)
Lemma append_leased_stored env input acct sid s :
  lei_source_event_id input = Some sid ->
  wp env (append_leased_event_with_accounting input acct) (fun ev s' =>
    stored (tx_db s') sid (lei_run_id input) (lei_kind input) (lei_payload input) ev) s.
Proof.
  intros Hsid. unfold append_leased_event_with_accounting. rewrite Hsid. wp_steps.
  eapply wp_frames; [apply verify_lease_same|]. intros r s1 _. wp_steps.
  destruct (run_events (tx_db s1) !! sid) as [e|] eqn:He; wp_steps.
  - apply negb_false_iff, event_matches_spec in H0 as (? & ? & ?). by exists e.
  - eapply (wp_frames same_runs); [frames_steps|]. intros usage s2 _. wp_steps.
    eapply (wp_frames same_runs); [frames_steps|]. intros _ s3 _. wp_steps.
    eapply wp_mono; [apply append_event_stored|]. intros ev s4 Hst. simpl in *. wp_steps.
    eapply (wp_frames same_runs); [frames_steps|]. intros _ s5 Hsame. wp_steps.
    destruct Hst as (e & ? & ?). exists e. by rewrite (sr_events _ _ Hsame).
Qed.

(** An append that finds its event stored answers with it. *)
Lemma append_leased_again env db input acct sid ev r :
  lei_source_event_id input = Some sid ->
  stored db sid (lei_run_id input) (lei_kind input) (lei_payload input) ev ->
  runs db !! lei_run_id input = Some r ->
  lease_held r (lei_executor_id input) (lei_lease_token input) = true ->
  lease_unexpired (db_now env) r = true ->
  run_tx env db (append_leased_event_with_accounting input acct) = (db, Ok ev).
Proof.
  intros Hsid (e & He & Hrun & Hkind & Hpay & ->) Hr Hheld Hun.
  assert (Hm : event_matches e (lei_run_id input) (lei_kind input) (lei_payload input) = true)
    by (by apply event_matches_spec).
  unfold run_tx, append_leased_event_with_accounting, verify_lease, mbind, tx_bind, get_db, ask.
  rewrite Hsid, (bool_decide_false (Some sid = None)), andb_false_r by done. simpl.
  rewrite Hr, Hheld, Hun. simpl. rewrite He, Hm. done.
Qed.

(** reporting an event is safe to retry. After a leased append with a stable source
    id has succeeded, sending it again while the lease still holds answers with the
    same event and changes nothing: no second event, and no tokens charged twice. *)
Theorem append_retry_is_noop db env db' env' input acct sid ev :
  reachable db -> lei_source_event_id input = Some sid ->
  run_tx env db (append_leased_event_with_accounting input acct) = (db', Ok ev) ->
  (exists r, runs db !! lei_run_id input = Some r /\ lease_unexpired (db_now env') r = true) ->
  run_tx env' db' (append_leased_event_with_accounting input acct) = (db', Ok ev).
Proof.
  intros Hreach%reachable_Inv Hsid Hrun (r & Hr & Hun).
  assert (Hheld : lease_held r (lei_executor_id input) (lei_lease_token input) = true).
  { revert Hrun. unfold run_tx, append_leased_event_with_accounting, mbind, tx_bind.
    destruct (reject_if _ _ env _) as [[u s0]|] eqn:Hg; [|done].
    apply reject_if_inv in Hg as (_ & _ & ->). unfold verify_lease, mbind, tx_bind, get_db, ask.
    simpl. rewrite Hr. by destruct (lease_held r _ _). }
  destruct (frames_run_tx appends env db _ (append_leased_event_appends input acct) Hreach)
    as [_ [Hrows _ _ _ _ _ _]]. rewrite Hrun in Hrows. simpl in Hrows.
  destruct (Hrows _ _ Hr) as (r' & Hr' & n & _ & ->).
  eapply append_leased_again; [exact Hsid| |exact Hr'|exact Hheld|exact Hun].
  clear Hrows Hr'. run_post Hrun. by apply append_leased_stored.
Qed.

Definition demo_usage : LeasedEventInput :=
  {| lei_run_id := 100; lei_executor_id := 40; lei_lease_token := 1200;
     lei_source_event_id := Some 77%N; lei_kind := EvModelCompleted;
     lei_payload := json_obj [("usage", json_obj [("total_tokens", jint 12)])] |}.

Lemma append_retry_is_noop_witness :
  let db' := (run_tx (demo_env 3) pdb2 (append_external_leased_event demo_usage)).1 in
  exists ev, run_tx (demo_env 4) db' (append_external_leased_event demo_usage) = (db', Ok ev).
Proof.
  eexists. eapply (append_retry_is_noop pdb2 (demo_env 3) _ (demo_env 4) demo_usage true 77);
    [apply pdb2_reachable|reflexivity|vm_compute; reflexivity|].
  exists (row_of pdb2 100). split; vm_compute; reflexivity.
Defined.

(** ** Finishing *)

Lemma append_event_tx_stored env id kind payload s :
  wp env (append_event_tx id kind payload)
    (fun ev s' => exists eid, stored (tx_db s') eid id kind payload ev) s.
Proof.
  unfold append_event_tx. wp_steps. eapply wp_mono; [apply append_event_stored|].
  intros ev s' H. simpl in H. eauto.
Qed.

(** completing a run. A completion that succeeds found the run running under this
    very, unexpired lease; afterwards the run is completed for good, without a lease
    and without an error, it stores the result the answer reports, and the log holds
    a completion event with that result. *)
Theorem complete_leased_run_correct db env id executor token value manifest diff db' rec :
  reachable db ->
  run_tx env db (complete_leased_run id executor token value manifest diff) = (db', Ok rec) ->
  exists r r', runs db !! id = Some r /\ run_state r = Running
    /\ lease_held r executor token = true /\ lease_unexpired (db_now env) r = true
    /\ runs db' !! id = Some r' /\ row_to_run r' = rec /\ run_state r' = Completed
    /\ run_lease_token r' = None /\ run_error r' = None
    /\ exists result eid ev, run_result r' = Some result
         /\ (manifest = None -> result = value) /\ stored db' eid id EvCompleted result ev.
Proof.
  intros Hreach%reachable_Inv Hrun. run_post Hrun.
  unfold complete_leased_run, finish_leased_run, put_run. cbn [out_state out_error out_result
    out_result_snapshot_manifest_id out_result_diff_summary]. wp_steps.
  apply wp_verify_lease. intros r Hr Hheld Hun. wp_steps.
  apply map_err_Ok in H. destruct a. apply ensure_run_transition_Ok in H.
  assert (Hrun : run_state r = Running).
  { apply lease_held_state in Hheld. by destruct (run_state r). }
  eapply wp_mono with (P := fun res s1 => same_runs db (tx_db s1) /\ exists v, res = Some v
    /\ (manifest = None -> v = value)).
  { destruct manifest as [m|]; wp_steps; [|split; [reflexivity|eauto]].
    eapply wp_same; [apply create_run_result_version_same|]. intros vid s1 Hs. wp_steps.
    split; [done|eauto]. by eexists. }
  intros res s1 (Hsame & v & -> & Hv). wp_steps.
  assert (Hr1 : runs (tx_db s1) !! id = Some r) by (by rewrite (sr_runs _ _ Hsame)).
  pose proof (Inv_same _ _ Hsame Hreach) as HI0.
  set (r1 := finish_row env Completed (Some v) None (run_revision r + 1) r).
  assert (Hsafe : safe (tx_db s1) (set_runs (<[id:=r1]> (runs (tx_db s1))) (tx_db s1))).
  { apply put_run_safe with r; [done| |intros _; by apply lease_ok_finished|done].
    apply row_step_move; auto. }
  destruct (Hsafe HI0) as [HI1 _].
  eapply wp_frames; [apply same_appends, release_executor_same|]. intros _ s2 H2. wp_steps.
  destruct (H2 HI1) as [HI2 T2].
  eapply wp_mono; [apply wp_and; [apply append_event_tx_stored|apply append_event_appends]|].
  intros ev s3 [(eid & Hst) Happ]. simpl in Hst, Happ. destruct (Happ HI2) as [_ T3]. wp_steps.
  eapply wp_same; [apply append_assistant_message_same|]. intros _ s4 Hs4. wp_steps.
  destruct (touched_put id r1 (tx_db s1) (tx_db s3)) as [n Hn]; [by etrans; [exact T2|]|].
  exists r, (set_run_next_event_sequence n r1). rewrite (sr_runs _ _ Hs4).
  split_and!; try done. exists v, eid, ev. split_and!; try done.
  destruct Hst as (e & ? & ?). exists e. by rewrite (sr_events _ _ Hs4).
Qed.

Lemma complete_leased_run_correct_witness :
  let db' := (run_tx (demo_env 3) sdb2 (complete_leased_run 100 7 1200 (JString "done") None JNull)).1 in
  exists r r', runs sdb2 !! 100%N = Some r /\ run_state r = Running
    /\ lease_held r 7 1200 = true /\ lease_unexpired (db_now (demo_env 3)) r = true
    /\ runs db' !! 100%N = Some r' /\ row_to_run r' = row_to_run (row_of db' 100)
    /\ run_state r' = Completed /\ run_lease_token r' = None /\ run_error r' = None
    /\ exists result eid ev, run_result r' = Some result
         /\ (@None Uuid = None -> result = JString "done")
         /\ stored db' eid 100 EvCompleted result ev.
Proof.
  apply (complete_leased_run_correct sdb2 (demo_env 3) 100 7 1200 (JString "done") None JNull _
    _ sdb2_reachable). vm_compute. reflexivity.
Defined.

(** ** Reported usage *)

Lemma usage_field_spec usage name o :
  usage_field usage name = Ok o -> o = (map_get name usage ≫= as_u64).
Proof.
  unfold usage_field. destruct (map_get name usage) as [v|]; simpl; [|congruence].
  destruct (as_u64 v); congruence.
Qed.

(** external model usage is never understated. The number of tokens charged for a
    completed model call is at least the reported total and at least the reported
    prompt and completion tokens together (which saturate at the largest u64), and is
    no more than the larger of the two. *)
Theorem usage_tokens_not_understated kind payload n :
  external_model_usage_tokens kind payload = Ok (Some n) ->
  exists usage, kind = EvModelCompleted /\ get "usage" payload = Some (JObject usage) /\
    let field name := from_option id 0%Z (map_get name usage ≫= as_u64) in
    (field "total_tokens" ≤ n
     /\ Z.min u64_max (field "prompt_tokens" + field "completion_tokens") ≤ n
     /\ n ≤ Z.max (field "total_tokens") (field "prompt_tokens" + field "completion_tokens"))%Z.
Proof.
  unfold external_model_usage_tokens. case_bool_decide as Hk; [done|].
  destruct (get "usage" payload) as [u|]; [|done]. destruct u as [| | | | |usage]; try done.
  simpl. intros H.
  destruct (usage_field usage "prompt_tokens") as [p|] eqn:Hp; [|done].
  destruct (usage_field usage "completion_tokens") as [c|] eqn:Hc; [|done].
  destruct (usage_field usage "total_tokens") as [t|] eqn:Ht; [|done]. simpl in H.
  apply usage_field_spec in Hp, Hc, Ht. exists usage. split; [done|].
  split; [done|]. cbv zeta. rewrite <- Hp, <- Hc, <- Ht. unfold sat_add_u64 in H.
  destruct p, c, t; simpl in *; simplify_eq; lia.
Qed.

Lemma usage_tokens_not_understated_witness :
  exists usage, EvModelCompleted = EvModelCompleted
    /\ get "usage" (lei_payload demo_usage) = Some (JObject usage) /\
    let field name := from_option id 0%Z (map_get name usage ≫= as_u64) in
    (field "total_tokens" ≤ 12
     /\ Z.min u64_max (field "prompt_tokens" + field "completion_tokens") ≤ 12
     /\ 12 ≤ Z.max (field "total_tokens") (field "prompt_tokens" + field "completion_tokens"))%Z.
Proof.
  apply (usage_tokens_not_understated EvModelCompleted (lei_payload demo_usage) 12).
  reflexivity.
Defined.

(** ** The capacity counter *)

(** A run of the pool in its own thread. *)
Definition pool_spec (id : Uuid) : RunSpec :=
  {| spec_schema_version := SCHEMA_VERSION; spec_id := id; spec_thread_id := id;
     spec_project_id := 20%N; spec_project := {| ref_id := 20%N; ref_revision := 1 |};
     spec_project_privacy := TeamManaged; spec_task := None; spec_creator_user_id := 1%N;
     spec_executor_target := pool_target; spec_required_capabilities := [];
     spec_input := JObject []; spec_model_profile_id := None; spec_snapshot_id := None;
     spec_idempotency_key := uuid_to_string id; spec_created_at := Z.of_N id |}.

(** Run 101 is claimed and its lease expires; run 102 is claimed; run 101 is canceled;
    run 103 is claimed. *)
Definition odb1 := (run_tx (demo_env 1) demo_db (create_run (pool_spec 101) Queued)).1.
Definition odb2 := (run_tx (demo_env 2) odb1 (claim_external_run 40 30)).1.
Definition odb3 := (run_tx (demo_env 60) odb2 interrupt_expired_leases).1.
Definition odb4 := (run_tx (demo_env 61) odb3 (create_run (pool_spec 102) Queued)).1.
Definition odb5 := (run_tx (demo_env 62) odb4 (claim_external_run 40 30)).1.
Definition odb6 := (run_tx (demo_env 63) odb5 (cancel_run 101)).1.
Definition odb7 := (run_tx (demo_env 64) odb6 (create_run (pool_spec 103) Queued)).1.
Definition odb8 := (run_tx (demo_env 65) odb7 (claim_external_run 40 30)).1.

Lemma odb8_reachable : reachable odb8.
Proof.
  eapply reachable_step; [|apply step_claim_external].
  eapply reachable_step; [|apply step_create_run; by left].
  eapply reachable_step; [|apply step_cancel].
  eapply reachable_step; [|apply step_claim_external].
  eapply reachable_step; [|apply step_create_run; by left].
  eapply reachable_step; [|apply step_interrupt_expired].
  eapply reachable_step; [|apply step_claim_external].
  eapply reachable_step; [apply demo_reachable|apply step_create_run; by left].
Qed.

(** the concurrency limit of an executor can be exceeded. Interrupting a run gives
    its executor's slot back but leaves the run assigned, and canceling the
    interrupted run gives the slot back a second time, so between two heartbeats an
    executor registered for one run can hold live leases on two. *)
Theorem executor_can_be_overcommitted :
  exists db e r1 r2, reachable db /\ executors db !! 40%N = Some e
    /\ reg_max_concurrent_runs (exw_registration e) = 1%Z /\ exw_active_runs e = 1%Z
    /\ runs db !! 102%N = Some r1 /\ run_state r1 = Running /\ run_lease_owner r1 = Some 40%N
    /\ runs db !! 103%N = Some r2 /\ run_state r2 = Running /\ run_lease_owner r2 = Some 40%N.
Proof.
  exists odb8, (from_option (fun e => e) demo_executor (executors odb8 !! 40%N)),
    (row_of odb8 102), (row_of odb8 103).
  split; [apply odb8_reachable|]. split_and!; vm_compute; reflexivity.
Qed.
