(* ===== verification/ExecutorProperties.v ===== *)
(** * Executors that describe themselves

    What an executor can change with its own credential: its capabilities and health, and
    nothing that decides whose runs it is given. *)

From S2P Require Import Prelude.
From S2P Require Import Json.
From S2P Require Import Contracts.
From S2P Require Import Store.
From S2P Require Import Demo.
From S2P Require Import RunStore.

(** The part of a registration an administrator or owner decides. *)
Definition identity (reg : ExecutorRegistration)
    : Uuid * ExecutorKind * option Uuid * option Uuid :=
  (reg_executor_id reg, reg_kind reg, reg_pool_id reg, reg_owner_user_id reg).

(** The remote-control mode a registration grants; none on record means confirming
    each session. *)
Definition ceiling (reg : ExecutorRegistration) : option PersonalDeviceRemoteControlMode :=
  if bool_decide (reg_kind reg = KPersonalDevice)
  then Some (from_option id ConfirmEachSession (reg_personal_device_remote_control reg))
  else None.

Lemma refreshed_id existing reg :
  reg_executor_id (refreshed_registration existing reg) = reg_executor_id reg.
Proof. unfold refreshed_registration. by case_match. Qed.

Lemma refreshed_ceiling existing reg :
  reg_kind (refreshed_registration existing reg) = KPersonalDevice ->
  reg_personal_device_remote_control (refreshed_registration existing reg)
  = Some (from_option id ConfirmEachSession (reg_personal_device_remote_control existing)).
Proof. unfold refreshed_registration. by case_bool_decide. Qed.

(** refreshing a registration is not a way to gain anything. When an executor's own
    refresh is accepted, it was for this executor; its kind, pool, owner and, for a
    personal device, the owner's remote-control ceiling are the ones on record before, the
    columns that route runs to it, its load and its draining flag are untouched, it may
    run at least one run at a time, and no other row of any table changed. *)
Theorem refresh_cannot_escalate env db executor_id reg db' rec e :
  executors db !! executor_id = Some e -> reg_executor_id (exw_registration e) = executor_id ->
  run_tx env db (refresh_executor_registration executor_id reg) = (db', Ok rec) ->
  exists e', db' = set_executors (<[executor_id := e']> (executors db)) db
    /\ identity (exw_registration e') = identity (exw_registration e)
    /\ ceiling (exw_registration e') = ceiling (exw_registration e)
    /\ (exw_kind e', exw_pool_id e', exw_owner_user_id e', exw_active_runs e', exw_draining e')
       = (exw_kind e, exw_pool_id e, exw_owner_user_id e, exw_active_runs e, exw_draining e)
    /\ exw_max_concurrent_runs e' ≠ 0%Z
    /\ exr_registration rec = exw_registration e'.
Proof.
  intros He Hid Hrun. run_post Hrun. unfold refresh_executor_registration, put_executor. wp_steps.
  rewrite He in H1. injection H1 as <-. unfold row_to_executor in H2.
  destruct (in_u16 (exw_active_runs e)) eqn:Hu; [|done]. injection H2 as <-.
  simpl in *. set (reg' := refreshed_registration (exw_registration e) reg) in *.
  apply bool_decide_eq_false, dec_stable in H. apply bool_decide_eq_false in H5.
  rewrite !orb_false_iff, !bool_decide_eq_false in H4.
  destruct H4 as [[Hk%dec_stable Hp%dec_stable] Ho%dec_stable].
  unfold row_to_executor in H6. simpl in H6. rewrite Hu in H6. injection H6 as <-.
  eexists. split; [reflexivity|]. simpl. split_and!; try done.
  - unfold identity. rewrite Hk, Hp, Ho, Hid. unfold reg'. by rewrite refreshed_id, H.
  - unfold ceiling. rewrite <- Hk. destruct (bool_decide (reg_kind _ = _)) eqn:Hd; [|done].
    apply bool_decide_eq_true in Hd. unfold reg'. by rewrite refreshed_ceiling by (unfold reg' in Hk; congruence).
Qed.

Lemma refresh_cannot_escalate_witness :
  let reg := {| reg_schema_version := 1; reg_executor_id := 40%N; reg_kind := KManagedWindows;
                reg_pool_id := Some 50%N; reg_owner_user_id := None;
                reg_display_name := "renamed"; reg_protocol_version := 1;
                reg_capabilities := []; reg_labels := [];
                reg_personal_device_remote_control := None; reg_max_concurrent_runs := 9 |} in
  exists e', (run_tx (demo_env 1) demo_db (refresh_executor_registration 40 reg)).1
      = set_executors (<[40%N := e']> (executors demo_db)) demo_db
    /\ identity (exw_registration e') = identity demo_registration.
Proof.
  intros reg.
  destruct (refresh_cannot_escalate (demo_env 1) demo_db 40 reg
    (run_tx (demo_env 1) demo_db (refresh_executor_registration 40 reg)).1
    {| exr_registration := reg; exr_online := true; exr_draining := false; exr_active_runs := 0;
       exr_last_seen_at := db_now (demo_env 1) |} demo_executor eq_refl eq_refl)
    as (e' & Hdb & Hi & _); [vm_compute; reflexivity|].
  exists e'. split; [exact Hdb|exact Hi].
Defined.
