(* ===== verification/WorkflowProperties.v ===== *)
(** * Approvals, inputs and checkpoints

    Decisions are final and only users make them; a run resumes only from the state
    it waited in; the newest checkpoint decides whether a run may resume. *)

From S2P Require Import Prelude.
From S2P Require Import Json.
From S2P Require Import Contracts.
From S2P Require Import Store.
From S2P Require Import Demo.
From S2P Require Import Governance.
From S2P Require Import SyncPublish.
From S2P Require Import RunStore.
From S2P Require Import Workflow.
From S2P Require Import Routing.
From S2P Require Import RunInv.
From S2P Require Import RunSafety.
From S2P Require Import RunSystem.
From S2P Require Import Histories.

(** ** Who grants an approval *)

(** No approval is granted that was not granted before. *)
Definition no_grant (db db' : Db) : Prop :=
  forall id a, approval_requests db' !! id = Some a -> apr_state a = ApprovalApproved ->
    approval_requests db !! id = Some a.

(** A decided approval stays as it is. *)
Definition decisions_kept (db db' : Db) : Prop :=
  forall id a, approval_requests db !! id = Some a -> apr_state a ≠ ApprovalPending ->
    approval_requests db' !! id = Some a.

Definition approvals_quiet (db db' : Db) : Prop := no_grant db db' /\ decisions_kept db db'.

#[global] Instance approvals_quiet_preorder : PreOrder approvals_quiet.
Proof.
  split; [by split; intros ???|]. intros d1 d2 d3 [A1 A2] [B1 B2].
  split; intros id a Ha Hs; eauto.
Qed.

Lemma quiet_same db db' :
  approval_requests db' = approval_requests db -> approvals_quiet db db'.
Proof. intros H. split; intros id a; by rewrite H. Qed.

Lemma frames_quiet_modify f :
  (forall db, approval_requests (f db) = approval_requests db) ->
  frames approvals_quiet (modify f).
Proof. intros H. apply frames_modify. intros db. by apply quiet_same. Qed.

#[export] Hint Extern 3 (frames approvals_quiet (modify _)) =>
  apply frames_quiet_modify; intros ?; reflexivity : store.

Lemma same_quiet {A} (m : Tx A) : frames same_runs m -> frames approvals_quiet m.
Proof.
  intros Hm env s. eapply wp_mono; [apply Hm|]. intros a s' H. apply quiet_same, H.
Qed.
#[export] Hint Extern 5 (frames approvals_quiet _) =>
  apply same_quiet; solve [eauto with store] : store.

Lemma put_run_quiet id row : frames approvals_quiet (put_run id row).
Proof. unfold put_run. eauto with store. Qed.
Lemma put_input_quiet id row : frames approvals_quiet (put_input id row).
Proof. unfold put_input. eauto with store. Qed.
#[export] Hint Resolve put_run_quiet put_input_quiet : store.

Lemma append_event_quiet id kind payload : frames approvals_quiet (append_event_tx id kind payload).
Proof. unfold append_event_tx, append_event_tx_with_id. frames_steps. Qed.
Lemma append_event_id_quiet id eid kind payload :
  frames approvals_quiet (append_event_tx_with_id id eid kind payload).
Proof. unfold append_event_tx_with_id. frames_steps. Qed.
#[export] Hint Resolve append_event_quiet append_event_id_quiet : store.

(** A new request is pending and takes a free identifier. *)
Lemma insert_approval_quiet id row :
  apr_state row = ApprovalPending -> frames approvals_quiet (insert_approval id row).
Proof.
  intros Hrow env s. unfold insert_approval, put_approval. wp_steps.
  apply bool_decide_eq_false in H. apply eq_None_not_Some in H.
  split; intros id' a Ha Hs; simpl in *.
  - apply lookup_insert_Some in Ha as [[<- <-]|[? ?]]; [congruence|done].
  - rewrite lookup_insert_ne; [done|congruence].
Qed.
#[export] Hint Extern 3 (frames approvals_quiet (insert_approval _ _)) =>
  apply insert_approval_quiet; reflexivity : store.

(** Expiring pending requests. *)
Lemma expire_approvals_quiet now : frames approvals_quiet (expire_approvals now).
Proof.
  intros env s. unfold expire_approvals. wp_steps.
  eapply wp_mono; [apply (wp_tx_iter env _ _ (fun s' => approvals_quiet (tx_db s) (tx_db s')));
    [|reflexivity]|intros u s' H; by wp_steps].
  intros [id a] s1 Hin [Hg Hk]. apply list_elem_of_filter in Hin as [[Hp _] Hin].
  apply elem_of_map_to_list in Hin. unfold expire_approval, put_approval. wp_steps. simpl in Hp.
  split; intros id' a' Ha Hs; simpl in *.
  - apply lookup_insert_Some in Ha as [[<- <-]|[? ?]]; [done|eauto].
  - rewrite lookup_insert_ne; [eauto|congruence].
Qed.

Lemma resume_quiet id st : frames approvals_quiet (resume_waiting_run id st).
Proof. unfold resume_waiting_run, move_run_tx. frames_steps. Qed.
#[export] Hint Resolve resume_quiet : store.

(** A decision on a pending request keeps the others. *)
Lemma resolve_approval_kept id approval user request :
  frames decisions_kept (resolve_approval id approval user request).
Proof.
  intros env s. unfold resolve_approval, put_approval. wp_steps.
  apply bool_decide_eq_false, dec_stable in H0.
  destruct (approval_requests (tx_db s) !! approval) as [a0|] eqn:Ha; [|done].
  destruct (bool_decide _); simplify_eq.
  assert (Hk : decisions_kept (tx_db s) (set_approval_requests (<[approval :=
     set_approval approval (decision_state (rar_decision request)) (apr_revision a + 1)
       (Some user) (Some (db_now env)) a]> (approval_requests (tx_db s))) (tx_db s))).
  { intros id' a' Ha' Hs. simpl. rewrite lookup_insert_ne; [done|congruence]. }
  eapply wp_frames; [apply resume_quiet|]. intros _ s1 [_ K1]. wp_steps.
  eapply wp_frames; [apply append_event_quiet|]. intros e s2 [_ K2]. wp_steps.
  intros id' a' Ha' Hs. eauto.
Qed.

(** The steps that are not a user's decision. *)
Lemma step_quiet db db' :
  step db db' ->
  approvals_quiet db db' \/ exists env id approval user request,
    db' = (run_tx env db (resolve_approval id approval user request)).1.
Proof.
  assert (Hq : forall A env (m : Tx A), frames approvals_quiet m ->
    approvals_quiet db (run_tx env db m).1) by (intros; by apply frames_run_tx; [apply _|]).
  destruct 1; try (right; by eauto 10; fail); left; apply Hq.
  - unfold create_run, create_run_tx, enforce_run_quota_tx. frames_steps.
  - unfold create_thread_message_run, create_run_tx, enforce_run_quota_tx, put_message. frames_steps.
  - unfold claim_external_run. frames_steps.
  - unfold claim_server_run. frames_steps.
  - unfold recover_external_run. frames_steps.
  - unfold renew_lease. frames_steps.
  - unfold append_leased_event_with_accounting. frames_steps.
  - unfold complete_leased_run, finish_leased_run. frames_steps.
  - unfold fail_leased_run, finish_leased_run. frames_steps.
  - unfold interrupt_leased_run, finish_leased_run. frames_steps.
  - unfold cancel_run, transition_run. frames_steps.
  - unfold transition_run. frames_steps.
  - unfold transition_run. frames_steps.
  - unfold interrupt_expired_leases, interrupt_expired, report_expired. frames_steps.
  - unfold create_approval, announce_approval, move_run_tx. frames_steps.
  - unfold request_worker_approval, announce_approval, move_run_tx. frames_steps.
  - unfold create_input_request, announce_input, move_run_tx, insert_input. frames_steps.
  - unfold request_worker_input, announce_input, move_run_tx, insert_input. frames_steps.
  - unfold submit_input_response. frames_steps.
  - unfold create_checkpoint, insert_checkpoint. frames_steps.
  - unfold create_worker_checkpoint, insert_checkpoint. frames_steps.
  - apply expire_approvals_quiet.
  - unfold expire_inputs, expire_input. frames_steps.
  - unfold register_executor. frames_steps.
  - unfold refresh_executor_registration. frames_steps.
  - unfold heartbeat_executor. frames_steps.
  - unfold enforce_run_event_retention. frames_steps. apply frames_quiet_modify.
    intros d. generalize (expired_events a0 a now limit) as l. intros l. revert d.
    induction l as [|kv l IH]; intros d; [done|]. simpl. by rewrite IH.
Qed.

Lemma steps_decided db db' id a :
  rtc step db db' -> approval_requests db !! id = Some a -> apr_state a ≠ ApprovalPending ->
  approval_requests db' !! id = Some a.
Proof.
  induction 1 as [|d1 d2 d3 H12 _ IH]; [done|]. intros Ha Hs. apply IH; [|done].
  destruct (step_quiet _ _ H12) as [[_ Hk]|(env & rid & ap & u & req & ->)]; [by apply Hk|].
  assert (Hk : decisions_kept d1 (run_tx env d1 (resolve_approval rid ap u req)).1)
    by (apply frames_run_tx; [intros d i x; auto|apply resolve_approval_kept]).
  by apply Hk.
Qed.

(** A worker's request for approval, granted by user 1. *)
Definition wdb1 : Db :=
  (run_tx (demo_env 3) sdb2 (request_worker_approval 7 100 1200 (JString "rm"))).1.
Definition wdb2 : Db := (run_tx (demo_env 4) wdb1 (resolve_approval 100 1300 1
  {| rar_expected_revision := 1; rar_decision := DecisionApproved |})).1.

Definition approval_of (db : Db) (id : Uuid) : ApprovalRow :=
  from_option (fun a => a) (new_approval (demo_env 0) 0 0 JNull 0 None None)
    (approval_requests db !! id).

(** decisions are final. An approval request that was approved, rejected or expired
    is never changed or removed again, whatever transactions follow. *)
Theorem decisions_are_final db db' id a :
  rtc step db db' -> approval_requests db !! id = Some a -> apr_state a ≠ ApprovalPending ->
  approval_requests db' !! id = Some a.
Proof. apply steps_decided. Qed.

Lemma decisions_are_final_witness :
  approval_requests (run_tx (demo_env 5) wdb2 (cancel_run 100)).1 !! 1300%N
  = Some (approval_of wdb2 1300).
Proof.
  apply (decisions_are_final wdb2); [apply rtc_once, step_cancel| |].
  - vm_compute. reflexivity.
  - vm_compute. discriminate.
Defined.

(** The decision a user made on a pending request, as it is stored. *)
Lemma resolve_approval_grants env run approval user request s :
  wp env (resolve_approval run approval user request) (fun _ s' =>
    forall id a, approval_requests (tx_db s') !! id = Some a -> apr_state a = ApprovalApproved ->
      approval_requests (tx_db s) !! id ≠ Some a ->
      id = approval /\ rar_decision request = DecisionApproved /\ apr_resolved_by a = Some user
      /\ exists a0, approval_requests (tx_db s) !! id = Some a0 /\ apr_state a0 = ApprovalPending
           /\ apr_revision a0 = rar_expected_revision request /\ apr_run_id a0 = run) s.
Proof.
  unfold resolve_approval, put_approval. wp_steps.
  apply bool_decide_eq_false, dec_stable in H0. apply bool_decide_eq_false, dec_stable in H1.
  destruct (approval_requests (tx_db s) !! approval) as [a0|] eqn:Ha0; [|done].
  case_bool_decide as Hrun; simplify_eq.
  eapply wp_frames; [apply resume_quiet|]. intros _ s1 [G1 _]. wp_steps.
  eapply wp_frames; [apply append_event_quiet|]. intros e s2 [G2 _]. wp_steps.
  intros id' a' Ha Hs Hnew. pose proof (G1 _ _ (G2 _ _ Ha Hs) Hs) as Ha1. clear Ha.
  simpl in Ha1. rename Ha1 into Ha. apply lookup_insert_Some in Ha as [[<- <-]|[? ?]]; [|done]. simpl in *.
  split_and!; try done.
  - by destruct (rar_decision request).
  - exists a. by split_and!.
Qed.

(** C15: only a user grants an approval. The one transaction that makes a request
    approved is a user's decision to approve it, taken on the pending request at the
    revision the user saw, and the request records that user. *)
Theorem approval_needs_a_user db db' id a :
  step db db' -> approval_requests db' !! id = Some a -> apr_state a = ApprovalApproved ->
  approval_requests db !! id ≠ Some a ->
  exists env run user request,
    db' = (run_tx env db (resolve_approval run id user request)).1
    /\ rar_decision request = DecisionApproved /\ apr_resolved_by a = Some user
    /\ exists a0, approval_requests db !! id = Some a0 /\ apr_state a0 = ApprovalPending
         /\ apr_revision a0 = rar_expected_revision request /\ apr_run_id a0 = run.
Proof.
  intros Hstep Ha Hs Hnew. destruct (step_quiet _ _ Hstep) as [[Hg _]|Hres].
  { exfalso. apply Hnew. by apply Hg. }
  destruct Hres as (env & run & approval & user & request & ->).
  exists env, run, user, request.
  pose proof (resolve_approval_grants env run approval user request (MkTx db 0)) as Hwp.
  unfold run_tx in Ha |- *. unfold wp in Hwp.
  destruct (resolve_approval run approval user request env (MkTx db 0)) as [[rec s]|] eqn:Htx;
    [|done].
  destruct (Hwp _ _ Ha Hs Hnew) as (-> & ? & ? & ?). rewrite Htx. by split_and!.
Qed.

Lemma approval_needs_a_user_witness :
  exists env run user request,
    wdb2 = (run_tx env wdb1 (resolve_approval run 1300 user request)).1
    /\ rar_decision request = DecisionApproved
    /\ apr_resolved_by (approval_of wdb2 1300) = Some user
    /\ exists a0, approval_requests wdb1 !! 1300%N = Some a0 /\ apr_state a0 = ApprovalPending
         /\ apr_revision a0 = rar_expected_revision request /\ apr_run_id a0 = run.
Proof.
  apply (approval_needs_a_user wdb1); [apply step_resolve_approval|vm_compute; reflexivity..|].
  vm_compute. discriminate.
Defined.

(** a decision is taken at most once. After a user's answer was accepted, every
    later answer to the same request, by anyone and at any revision, is refused and
    changes nothing. *)
Theorem resolve_once db env run approval user request db' rec later env' user' request' :
  run_tx env db (resolve_approval run approval user request) = (db', Ok rec) ->
  rtc step db' later ->
  run_tx env' later (resolve_approval run approval user' request')
  = (later, Err (Conflict "approval is no longer pending")).
Proof.
  intros Hrun Hsteps.
  assert (exists a, approval_requests db' !! approval = Some a /\ apr_state a ≠ ApprovalPending
            /\ apr_run_id a = run) as (a & Ha & Hs & Hid).
  { clear Hsteps. run_post Hrun. unfold resolve_approval, put_approval. wp_steps.
    destruct (approval_requests db !! approval) as [a0|] eqn:Ha0; [|done].
    destruct (decide (apr_run_id a0 = run)) as [Hr|Hr];
      [rewrite bool_decide_true in H by done|rewrite bool_decide_false in H by done];
      simplify_eq.
    assert (Hne : decision_state (rar_decision request) ≠ ApprovalPending)
      by (by destruct (rar_decision request)).
    eapply wp_frames; [apply resume_quiet|]. intros _ s1 [_ K1]. wp_steps.
    eapply wp_frames; [apply append_event_quiet|]. intros e s2 [_ K2]. wp_steps.
    eexists. split; [exact (K2 _ _ (K1 _ _ (lookup_insert_eq _ _ _) Hne) Hne)|].
    by split. }
  apply (steps_decided _ _ _ _ Hsteps) in Ha; [|done].
  unfold run_tx, resolve_approval, mbind, tx_bind, get_db, ask. simpl.
  rewrite Ha, bool_decide_true by done. simpl. by rewrite bool_decide_true.
Qed.

Lemma resolve_once_witness :
  run_tx (demo_env 6) wdb2 (resolve_approval 100 1300 2
    {| rar_expected_revision := 2; rar_decision := DecisionRejected |})
  = (wdb2, Err (Conflict "approval is no longer pending")).
Proof.
  apply (resolve_once wdb1 (demo_env 4) 100 1300 1
    {| rar_expected_revision := 1; rar_decision := DecisionApproved |} wdb2
    (row_to_approval 1300 (approval_of wdb2 1300))); [vm_compute; reflexivity|apply rtc_refl].
Defined.

(** ** What an answer does to the run *)

Lemma move_run_row env id st r s :
  runs (tx_db s) !! id = Some r ->
  wp env (move_run_tx id st) (fun _ s' => tx_db s' =
    set_runs (<[id := move_row env st (run_revision r + 1) r]> (runs (tx_db s))) (tx_db s)) s.
Proof. intros Hr. unfold move_run_tx, put_run. wp_steps. rewrite Hr. by wp_steps. Qed.

(** an answer wakes exactly the run that asked. A user's decision is accepted only
    while the run waits for an approval; the run then continues if its lease has not
    run out, under the same lease, and is interrupted without a lease otherwise. *)
Theorem answer_resumes_run db env run approval user request db' rec :
  reachable db ->
  run_tx env db (resolve_approval run approval user request) = (db', Ok rec) ->
  exists r r', runs db !! run = Some r /\ run_state r = WaitingApproval
    /\ runs db' !! run = Some r'
    /\ if lease_unexpired (app_now env) r
       then run_state r' = Running /\ run_lease_owner r' = run_lease_owner r
            /\ run_lease_token r' = run_lease_token r
            /\ run_lease_expires_at r' = run_lease_expires_at r
       else run_state r' = Interrupted /\ run_lease_owner r' = None
            /\ run_lease_token r' = None /\ run_error r' = Some waiting_error.
Proof.
  intros Hreach%reachable_Inv Hrun. run_post Hrun. unfold resolve_approval. wp_steps.
  eapply (wp_frames same_log); [apply frames_modify; by intros d; split_and!|].
  intros _ s1 Hlog. destruct (same_log_appends _ _ Hlog Hreach) as [HI1 _].
  destruct Hlog as (Hruns & _). wp_step. unfold resume_waiting_run, put_run. wp_steps.
  apply bool_decide_eq_false, dec_stable in H4. rewrite Hruns in H3. simpl in H3.
  rename a0 into r.
  destruct (lease_unexpired (app_now env) r) eqn:Hun; wp_steps.
  - assert (Hr1 : runs (tx_db s1) !! run = Some r) by (by rewrite Hruns).
    eapply wp_mono; [by apply move_run_row|]. intros u s2 Hs2. simpl in Hs2. wp_steps.
    destruct (move_row_safe env Running r run (tx_db s1)) as [HI2 _];
      [done|by rewrite H4|by rewrite H4|done|done|]. rewrite <- Hs2 in HI2.
    eapply wp_frames; [apply append_event_appends|]. intros e s3 T3. wp_steps.
    eapply wp_frames; [apply append_event_appends|]. intros e' s4 T4. wp_steps.
    destruct (T3 HI2) as [HI3 T3']. destruct (T4 HI3) as [_ T4'].
    destruct (dr_rows _ _ _ _ (transitivity T3' T4') run (move_row env Running
      (run_revision r + 1) r)) as (r' & Hr' & n & _ & ->);
      [rewrite Hs2; apply lookup_insert_eq|]. eexists r, _. rewrite Hun. by split_and!.
  - assert (Hr1 : runs (tx_db s1) !! run = Some r) by (by rewrite Hruns).
    destruct (interrupt_row_safe env waiting_error r run (tx_db s1)) as [HI2 _];
      [done|by rewrite H4|done|].
    eapply wp_frames; [apply same_appends, release_assigned_same|]. intros u s2 T2. wp_steps.
    eapply wp_frames; [apply append_event_appends|]. intros e s3 T3. wp_steps.
    eapply wp_frames; [apply append_event_appends|]. intros e' s4 T4. wp_steps.
    destruct (T2 HI2) as [HI3 T2']. destruct (T3 HI3) as [HI4 T3']. destruct (T4 HI4) as [_ T4'].
    destruct (dr_rows _ _ _ _ (transitivity T2' (transitivity T3' T4')) run (interrupt_row env
      waiting_error (run_revision r + 1) r)) as (r' & Hr' & n & _ & ->);
      [apply lookup_insert_eq|]. eexists r, _. rewrite Hun. by split_and!.
Qed.

Lemma wdb1_reachable : reachable wdb1.
Proof. eapply reachable_step; [apply sdb2_reachable|apply step_worker_approval]. Qed.

Lemma answer_resumes_run_witness :
  exists r r', runs wdb1 !! 100%N = Some r /\ run_state r = WaitingApproval
    /\ runs wdb2 !! 100%N = Some r'
    /\ if lease_unexpired (app_now (demo_env 4)) r
       then run_state r' = Running /\ run_lease_owner r' = run_lease_owner r
            /\ run_lease_token r' = run_lease_token r
            /\ run_lease_expires_at r' = run_lease_expires_at r
       else run_state r' = Interrupted /\ run_lease_owner r' = None
            /\ run_lease_token r' = None /\ run_error r' = Some waiting_error.
Proof.
  apply (answer_resumes_run wdb1 (demo_env 4) 100 1300 1
    {| rar_expected_revision := 1; rar_decision := DecisionApproved |} wdb2
    (row_to_approval 1300 (approval_of wdb2 1300)) wdb1_reachable).
  vm_compute. reflexivity.
Defined.

(** ** Checkpoints *)

Lemma latest_by_max {V} (key : V -> Z) l v :
  latest_by key l = Some v -> forall w, w ∈ l -> (key w ≤ key v)%Z.
Proof.
  unfold latest_by. revert v. induction l as [|x l IH]; intros v; simpl; [done|].
  case_match eqn:Hl; intros [= Hv] w Hw.
  - destruct (_ <? _)%Z eqn:Hlt; simplify_eq; apply elem_of_cons in Hw as [->|Hw];
      try specialize (IH _ eq_refl _ Hw); lia.
  - subst. apply elem_of_cons in Hw as [->|Hw]; [lia|].
    destruct l as [|y l]; [set_solver|]. simpl in Hl. repeat case_match; done.
Qed.

Lemma latest_by_nil {V} (key : V -> Z) l : latest_by key l = None -> l = [].
Proof. destruct l as [|x l]; [done|]. unfold latest_by. simpl. repeat case_match; done. Qed.

Lemma latest_by_greatest {V} (key : V -> Z) l v :
  v ∈ l -> (forall w, w ∈ l -> w = v \/ (key w < key v)%Z) -> latest_by key l = Some v.
Proof.
  intros Hv Hmax. destruct (latest_by key l) as [w|] eqn:Hw.
  - pose proof (latest_by_max _ _ _ Hw _ Hv). apply latest_by_elem in Hw.
    destruct (Hmax _ Hw) as [->|]; [done|lia].
  - apply latest_by_nil in Hw as ->. set_solver.
Qed.

Lemma elem_of_checkpoints db id c :
  c ∈ run_checkpoints_of db id <->
  exists k, run_checkpoints db !! k = Some c /\ ck_run_id c = id.
Proof.
  unfold run_checkpoints_of. rewrite list_elem_of_filter, list_elem_of_fmap. split.
  - intros [? ([k c'] & -> & Hin)]. apply elem_of_map_to_list in Hin. eauto.
  - intros (k & Hk & ?). split; [done|]. exists (k, c). by rewrite elem_of_map_to_list.
Qed.

Lemma insert_checkpoint_latest env id run_id flag v s :
  wp env (insert_checkpoint id run_id flag v) (fun row s' =>
    ck_safe_to_resume row = flag
    /\ ck_sequence row = (last_checkpoint_sequence (tx_db s) run_id + 1)%Z
    /\ latest_by ck_sequence (run_checkpoints_of (tx_db s') run_id) = Some row) s.
Proof.
  unfold insert_checkpoint. wp_steps. split_and!; [done|done|]. set (row := {| ck_run_id := run_id |}).
  apply bool_decide_eq_false in H0. apply eq_None_not_Some in H0.
  apply latest_by_greatest.
  - apply elem_of_checkpoints. exists id. simpl. by rewrite lookup_insert_eq.
  - intros w (k & Hk & Hw)%elem_of_checkpoints. simpl in Hk.
    apply lookup_insert_Some in Hk as [[<- <-]|[? Hk]]; [by left|right]. simpl.
    assert (Hin : w ∈ run_checkpoints_of (tx_db s) run_id)
      by (apply elem_of_checkpoints; eauto).
    unfold last_checkpoint_sequence.
    destruct (latest_by _ _) as [m|] eqn:Hm.
    + pose proof (latest_by_max _ _ _ Hm _ Hin). simpl. lia.
    + apply latest_by_nil in Hm. rewrite Hm in Hin. set_solver.
Qed.

(** Nothing but a checkpoint's own insertion touches the table. *)
Definition same_checkpoints (db db' : Db) : Prop := run_checkpoints db' = run_checkpoints db.

#[global] Instance same_checkpoints_preorder : PreOrder same_checkpoints.
Proof. split; [done|]. intros d1 d2 d3 ??. unfold same_checkpoints in *. congruence. Qed.

#[export] Hint Extern 3 (frames same_checkpoints (modify _)) =>
  apply frames_modify; intros ?; reflexivity : store.

Lemma append_event_checkpoints id kind payload :
  frames same_checkpoints (append_event_tx id kind payload).
Proof.
  unfold append_event_tx, append_event_tx_with_id, insert_push_delivery, put_run. frames_steps.
Qed.

(** the newest checkpoint decides. A checkpoint that is written is numbered one
    after the run's last one, and from then on it is its flag that the lease reaper
    and a reconnecting executor consult. *)
Theorem checkpoint_decides db env worker id token flag v db' c :
  run_tx env db (create_worker_checkpoint worker id token flag v) = (db', Ok c) ->
  chk_sequence c = (last_checkpoint_sequence db id + 1)%Z /\ chk_safe_to_resume c = flag
  /\ latest_checkpoint_safe db' id = Some flag /\ checkpoint_safe db' id = flag.
Proof.
  intros Hrun. run_post Hrun. unfold create_worker_checkpoint. wp_steps.
  apply wp_verify_lease. intros r _ _ _. wp_steps.
  eapply wp_mono; [apply insert_checkpoint_latest|]. intros row s1 (Hf & Hs & Hl). simpl in *.
  wp_steps. eapply wp_frames; [apply append_event_checkpoints|]. intros e s2 H2. wp_steps.
  assert (Hlatest : latest_checkpoint_safe (tx_db s2) id = Some flag).
  { unfold latest_checkpoint_safe, run_checkpoints_of in *. rewrite H2, Hl. simpl. by rewrite Hf. }
  unfold checkpoint_safe. by rewrite Hlatest.
Qed.

Lemma checkpoint_decides_witness :
  let db' := (run_tx (demo_env 3) sdb2 (create_worker_checkpoint 7 100 1200 false JNull)).1 in
  chk_sequence {| chk_schema_version := SCHEMA_VERSION; chk_id := 1300; chk_run_id := 100;
     chk_sequence := 1; chk_safe_to_resume := false; chk_executor_state := JNull;
     chk_created_at := db_now (demo_env 3) |} = (last_checkpoint_sequence sdb2 100 + 1)%Z
  /\ false = false /\ latest_checkpoint_safe db' 100 = Some false
  /\ checkpoint_safe db' 100 = false.
Proof.
  apply (checkpoint_decides sdb2 (demo_env 3) 7 100 1200 false JNull _
    {| chk_schema_version := SCHEMA_VERSION; chk_id := 1300; chk_run_id := 100;
       chk_sequence := 1; chk_safe_to_resume := false; chk_executor_state := JNull;
       chk_created_at := db_now (demo_env 3) |}).
  vm_compute. reflexivity.
Defined.

Lemma validated_expiry_explicit now t t' :
  validated_expiry now (Some t) = Ok t' -> t' = t.
Proof. unfold validated_expiry. case_match; simpl; congruence. Qed.

(** a request's expiry lies more than one minute and at most seven days ahead, and
    a request that names none gets seven days. *)
Theorem validated_expiry_window now value :
  match validated_expiry now value with
  | Ok t => (now + minutes 1 < t ≤ now + days DEFAULT_WAIT_DAYS)%Z
            /\ t = from_option id (now + days DEFAULT_WAIT_DAYS)%Z value
  | Err _ => exists t, value = Some t
             /\ ~ (now + minutes 1 < t ≤ now + days DEFAULT_WAIT_DAYS)%Z
  end.
Proof.
  unfold validated_expiry. destruct (_ || _) eqn:Hc.
  - apply orb_true_iff in Hc. rewrite !bool_decide_eq_true in Hc.
    destruct value as [t|]; simpl in Hc; [exists t; split; [done|lia]|].
    unfold minutes, days, seconds, DEFAULT_WAIT_DAYS in Hc. lia.
  - apply orb_false_iff in Hc as [?%bool_decide_eq_false ?%bool_decide_eq_false].
    split; [lia|done].
Qed.

(** ** Retried requests *)

Definition same_approvals (db db' : Db) : Prop := approval_requests db' = approval_requests db.

#[global] Instance same_approvals_preorder : PreOrder same_approvals.
Proof. split; [done|]. intros d1 d2 d3 ??. unfold same_approvals in *. congruence. Qed.

#[export] Hint Extern 3 (frames same_approvals (modify _)) =>
  apply frames_modify; intros ?; reflexivity : store.

Lemma announce_approval_keeps id rid action expires :
  frames same_approvals (announce_approval id rid action expires).
Proof.
  unfold announce_approval, move_run_tx, append_event_tx, append_event_tx_with_id,
    insert_push_delivery, put_run. frames_steps.
Qed.

(** The one request of this run and source. *)
Definition sourced (db : Db) (run sid id : Uuid) (row : ApprovalRow) : Prop :=
  approval_by_source db run (Some sid) = Some (id, row).

Lemma insert_approval_sourced env id row sid s :
  apr_source_request_id row = Some sid ->
  wp env (insert_approval id row) (fun _ s' => sourced (tx_db s') (apr_run_id row) sid id row) s.
Proof.
  intros Hsid. unfold insert_approval, put_approval. wp_steps.
  rewrite Hsid, bool_decide_true, andb_true_l in H1 by done. rewrite row_exists_false in H1.
  unfold sourced, approval_by_source. destruct (select_one _ _) as [[k a]|] eqn:Hsel.
  - apply select_one_Some in Hsel as [Ha Hp]. simpl in Ha.
    apply lookup_insert_Some in Ha as [[<- <-]|[? Ha]]; [done|].
    specialize (H1 _ _ Ha). rewrite Hp in H1. done.
  - eapply select_one_None in Hsel; [|apply lookup_insert_eq].
    by rewrite Hsid, !bool_decide_true in Hsel.
Qed.

(** asking for approval is safe to retry when the request names its expiry. After a
    request with a source id and an explicit expiry was accepted, the same request,
    while the lease and the expiry window still hold, answers with the stored
    approval and changes nothing. *)
Theorem approval_retry_is_noop db env executor run sid action token t db' created rec env' :
  let request := {| car_lease_token := token; car_source_request_id := Some sid;
                    car_requested_action := action; car_expires_at := Some t |} in
  run_tx env db (create_approval executor run executor request) = (db', Ok (created, rec)) ->
  (exists r, runs db' !! run = Some r /\ lease_held r executor token = true
             /\ lease_unexpired (db_now env') r = true) ->
  validated_expiry (app_now env') (Some t) = Ok t ->
  run_tx env' db' (create_approval executor run executor request) = (db', Ok (false, rec)).
Proof.
  intros request Hrun (r & Hr & Hheld & Hun) Hexp.
  assert (exists id row, sourced db' run sid id row /\ apr_requested_action row = action
    /\ same_expiry (apr_expires_at row) t = true /\ rec = row_to_approval id row)
    as (id & row & Hsrc & Hact & Hsame & Hrec).
  { clear Hr Hheld Hun Hexp. remember (created, rec) as answer eqn:Ha.
    assert (rec = answer.2) as -> by (by subst). clear Ha. run_post Hrun.
    unfold create_approval. wp_steps. apply wp_verify_lease. intros r0 _ _ _. wp_steps.
    pose proof (validated_expiry_explicit _ _ _ H0) as ->.
    destruct (select_one _ (approval_requests db)) as [[id row]|] eqn:Hby; wp_steps.
    - apply orb_false_iff in H1 as [Hx Hy]. apply bool_decide_eq_false, dec_stable in Hx.
      apply negb_false_iff in Hy. by exists id, row.
    - eapply wp_mono; [by apply insert_approval_sourced|]. intros u s1 Hs1. simpl in Hs1. wp_steps.
      eapply wp_frames; [apply announce_approval_keeps|]. intros u' s2 Hs2. wp_steps.
      exists (new_v4 env 0), (new_approval env (new_v4 env 0) run action t (Some executor)
                                (Some sid)). split; [|split_and!; [done| |done]].
      + unfold sourced, approval_by_source in *. by rewrite Hs2.
      + simpl. unfold same_expiry. by rewrite Z.sub_diag. }
  unfold run_tx, create_approval, verify_lease, mbind, tx_bind, get_db, ask, ensure_executor_identity.
  rewrite bool_decide_true by done. simpl. rewrite Hexp. simpl. rewrite Hr, Hheld, Hun. simpl.
  unfold sourced, approval_by_source in Hsrc. rewrite Hsrc, bool_decide_false, Hsame by tauto.
  simpl. by rewrite Hrec.
Qed.

Lemma approval_retry_is_noop_witness :
  let request := {| car_lease_token := 1200; car_source_request_id := Some 88%N;
                    car_requested_action := JString "rm";
                    car_expires_at := Some 100000000000%Z |} in
  let db' := (run_tx (demo_env 3) pdb2 (create_approval 40 100 40 request)).1 in
  exists rec, run_tx (demo_env 4) db' (create_approval 40 100 40 request) = (db', Ok (false, rec)).
Proof.
  eexists. eapply (approval_retry_is_noop pdb2 (demo_env 3) 40 100 88 (JString "rm") 1200
    100000000000 _ _ _ (demo_env 4)); [vm_compute; reflexivity| |vm_compute; reflexivity].
  eexists. split; [vm_compute; reflexivity|]. split; vm_compute; reflexivity.
Defined.

(** ** Handlers that commit several transactions *)

Lemma expire_waiting_steps env w db id : rtc step db (expire_waiting_run env w db id).
Proof.
  unfold expire_waiting_run. destruct (get_run db id); [|done].
  case_bool_decide; [|done]. apply rtc_once, step_expire_run.
Qed.

Lemma expire_waiting_runs_steps envs n w ids db :
  rtc step db (expire_waiting_runs envs n w ids db).
Proof.
  revert n db. induction ids as [|id ids IH]; intros n db; simpl; [done|].
  etrans; [apply expire_waiting_steps|apply IH].
Qed.

Lemma expire_pending_steps envs now db : rtc step db (expire_pending_workflows envs now db).1.
Proof.
  unfold expire_pending_workflows.
  pose proof (step_expire_approvals db (envs 0) now) as H1.
  destruct (run_tx (envs 0) db (expire_approvals now)) as [db1 [l1|]]; simpl in *;
    [|by apply rtc_once].
  pose proof (step_expire_inputs db1 (envs 1) now) as H2.
  destruct (run_tx (envs 1) db1 (expire_inputs now)) as [db2 [l2|]]; simpl in *.
  - apply (rtc_l _ _ db1); [done|]. apply (rtc_l _ _ db2); [done|].
    etrans; apply expire_waiting_runs_steps.
  - apply (rtc_l _ _ db1); [done|]. by apply rtc_once.
Qed.

Lemma wake_run_steps env caps id manifest r db :
  runs db !! id = Some r -> ins_snapshot_id (run_ins r) = Some manifest ->
  rtc step db (wake_run env caps id db).1.
Proof.
  intros Hr Hm. unfold wake_run, get_run. rewrite Hr. simpl.
  destruct (wake_state env db caps (row_to_run r)) as [next|] eqn:Hw; simpl; [|done].
  assert (Hn : next = Queued \/ next = WaitingForExecutor).
  { revert Hw. unfold wake_state, mbind, result_bind.
    match goal with |- context [match ?x with Ok _ => _ | Err _ => _ end] =>
      destruct x as [[]|] end; naive_solver. }
  pose proof (step_wake db env id next r manifest Hr Hm Hn) as Hs.
  destruct (run_tx env db (transition_run id next None None)) as [db' [x|]]; by apply rtc_once.
Qed.

Lemma wake_runs_steps envs n caps manifest ids db :
  Inv db ->
  (forall id, id ∈ ids -> exists r, runs db !! id = Some r
                          /\ ins_snapshot_id (run_ins r) = Some manifest) ->
  rtc step db (wake_runs envs n caps ids db).1.
Proof.
  revert n db. induction ids as [|id ids IH]; intros n db HI Hids; simpl; [done|].
  destruct (Hids id) as (r & Hr & Hm); [by left|].
  pose proof (wake_run_steps (envs n) caps id manifest r db Hr Hm) as Hs.
  destruct (wake_run (envs n) caps id db) as [db1 [u|]]; simpl in *; [|done].
  etrans; [exact Hs|]. apply IH; [by eapply steps_Inv|].
  intros id' Hin. destruct (Hids id') as (r' & Hr' & Hm'); [by right|].
  destruct (steps_rows _ _ _ _ HI Hs Hr') as (r2 & Hr2 & [Hins _ _ _ _]).
  exists r2. by rewrite Hins.
Qed.

(** the background jobs are histories too. What the expiry reaper and the snapshot
    wake-up do, in several transactions of which some may fail, is a sequence of
    steps, so everything shown of histories holds across them. *)
Theorem jobs_are_histories db envs now caps manifest :
  reachable db ->
  rtc step db (expire_pending_workflows envs now db).1
  /\ rtc step db (resume_snapshot_runs envs caps manifest db).1.
Proof.
  intros Hreach%reachable_Inv. split; [apply expire_pending_steps|].
  apply (wake_runs_steps envs 0 caps manifest); [done|]. intros id Hin.
  unfold snapshot_waiters in Hin. apply list_elem_of_fmap in Hin as ([id' r] & -> & Hin).
  apply list_elem_of_filter in Hin as [[? _] Hin]. apply elem_of_map_to_list in Hin. eauto.
Qed.

Lemma jobs_are_histories_witness :
  rtc step wdb1 (expire_pending_workflows (fun n => demo_env (10 + N.of_nat n)) 999999999999 wdb1).1
  /\ rtc step wdb1 (resume_snapshot_runs (fun n => demo_env (10 + N.of_nat n)) [] 5 wdb1).1.
Proof. apply jobs_are_histories, wdb1_reachable. Defined.
