(* ===== verification/CapabilityModel.v ===== *)
(** * Desktop capability policy (app/src-tauri/src/capability_model.rs)

    The capabilities a runtime mode offers, which of them are dangerous, and the
    response a client sees: unsupported, disabled by default, or enabled. *)

From S2P Require Import Prelude.

Module CapabilityModel.

Inductive Capability : Type :=
| ServerHealthRead
| AuthLogin
| TenantRead
| TenantAdmin
| WorkspaceRead
| WorkspaceWrite
| ProjectRead
| ProjectWrite
| TaskRead
| TaskWrite
| ChatRead
| ChatWrite
| RunStart
| RunCancel
| SchedulerRead
| SchedulerWrite
| FileServerRead
| FileServerWrite
| FileClientPick
| FileClientReadSelected
| ToolMcpRead
| ToolMcpInvoke
| ToolShellExecute
| TerminalServerOpen
| TerminalAgentOpen
| DesktopScreenView
| DesktopInputControl
| DesktopWindowFocus
| DesktopClipboardRead
| DesktopClipboardWrite
| SyncOfflineRead
| SyncOfflinePush
| SyncCrossServer
| AdminAuthManage
| AdminScimManage
| AdminAuditView.

#[global] Instance Capability_eq_dec : EqDecision Capability.
Proof. solve_decision. Defined.

Inductive RuntimeMode : Type :=
| LocalSidecar
| RemoteDocker
| DesktopRemoteClient
| Browser
| Mobile
| PairedDesktopAgent.

Inductive CapabilityCategory : Type :=
| CatServer
| CatAuth
| CatTenant
| CatWorkspace
| CatProject
| CatTask
| CatChat
| CatRun
| CatScheduler
| CatFile
| CatTool
| CatTerminal
| CatDesktop
| CatSync
| CatAdmin.

Inductive CapabilityStatus : Type :=
| Enabled
| Disabled
| Unsupported.

#[global] Instance CapabilityStatus_eq_dec : EqDecision CapabilityStatus.
Proof. solve_decision. Defined.

Definition as_str (c : Capability) : string :=
  match c with
  | ServerHealthRead => "server.health.read"
  | AuthLogin => "auth.login"
  | TenantRead => "tenant.read"
  | TenantAdmin => "tenant.admin"
  | WorkspaceRead => "workspace.read"
  | WorkspaceWrite => "workspace.write"
  | ProjectRead => "project.read"
  | ProjectWrite => "project.write"
  | TaskRead => "task.read"
  | TaskWrite => "task.write"
  | ChatRead => "chat.read"
  | ChatWrite => "chat.write"
  | RunStart => "run.start"
  | RunCancel => "run.cancel"
  | SchedulerRead => "scheduler.read"
  | SchedulerWrite => "scheduler.write"
  | FileServerRead => "file.server.read"
  | FileServerWrite => "file.server.write"
  | FileClientPick => "file.client.pick"
  | FileClientReadSelected => "file.client.read_selected"
  | ToolMcpRead => "tool.mcp.read"
  | ToolMcpInvoke => "tool.mcp.invoke"
  | ToolShellExecute => "tool.shell.execute"
  | TerminalServerOpen => "terminal.server.open"
  | TerminalAgentOpen => "terminal.agent.open"
  | DesktopScreenView => "desktop.screen.view"
  | DesktopInputControl => "desktop.input.control"
  | DesktopWindowFocus => "desktop.window.focus"
  | DesktopClipboardRead => "desktop.clipboard.read"
  | DesktopClipboardWrite => "desktop.clipboard.write"
  | SyncOfflineRead => "sync.offline.read"
  | SyncOfflinePush => "sync.offline.push"
  | SyncCrossServer => "sync.cross_server"
  | AdminAuthManage => "admin.auth.manage"
  | AdminScimManage => "admin.scim.manage"
  | AdminAuditView => "admin.audit.view"
  end.

Definition from_str (value : string) : option Capability :=
  if String.eqb value "server.health.read" then Some ServerHealthRead
  else if String.eqb value "auth.login" then Some AuthLogin
  else if String.eqb value "tenant.read" then Some TenantRead
  else if String.eqb value "tenant.admin" then Some TenantAdmin
  else if String.eqb value "workspace.read" then Some WorkspaceRead
  else if String.eqb value "workspace.write" then Some WorkspaceWrite
  else if String.eqb value "project.read" then Some ProjectRead
  else if String.eqb value "project.write" then Some ProjectWrite
  else if String.eqb value "task.read" then Some TaskRead
  else if String.eqb value "task.write" then Some TaskWrite
  else if String.eqb value "chat.read" then Some ChatRead
  else if String.eqb value "chat.write" then Some ChatWrite
  else if String.eqb value "run.start" then Some RunStart
  else if String.eqb value "run.cancel" then Some RunCancel
  else if String.eqb value "scheduler.read" then Some SchedulerRead
  else if String.eqb value "scheduler.write" then Some SchedulerWrite
  else if String.eqb value "file.server.read" then Some FileServerRead
  else if String.eqb value "file.server.write" then Some FileServerWrite
  else if String.eqb value "file.client.pick" then Some FileClientPick
  else if String.eqb value "file.client.read_selected" then Some FileClientReadSelected
  else if String.eqb value "tool.mcp.read" then Some ToolMcpRead
  else if String.eqb value "tool.mcp.invoke" then Some ToolMcpInvoke
  else if String.eqb value "tool.shell.execute" then Some ToolShellExecute
  else if String.eqb value "terminal.server.open" then Some TerminalServerOpen
  else if String.eqb value "terminal.agent.open" then Some TerminalAgentOpen
  else if String.eqb value "desktop.screen.view" then Some DesktopScreenView
  else if String.eqb value "desktop.input.control" then Some DesktopInputControl
  else if String.eqb value "desktop.window.focus" then Some DesktopWindowFocus
  else if String.eqb value "desktop.clipboard.read" then Some DesktopClipboardRead
  else if String.eqb value "desktop.clipboard.write" then Some DesktopClipboardWrite
  else if String.eqb value "sync.offline.read" then Some SyncOfflineRead
  else if String.eqb value "sync.offline.push" then Some SyncOfflinePush
  else if String.eqb value "sync.cross_server" then Some SyncCrossServer
  else if String.eqb value "admin.auth.manage" then Some AdminAuthManage
  else if String.eqb value "admin.scim.manage" then Some AdminScimManage
  else if String.eqb value "admin.audit.view" then Some AdminAuditView
  else None.

Definition category (c : Capability) : CapabilityCategory :=
  match c with
  | ServerHealthRead => CatServer
  | AuthLogin => CatAuth
  | TenantRead | TenantAdmin => CatTenant
  | WorkspaceRead | WorkspaceWrite => CatWorkspace
  | ProjectRead | ProjectWrite => CatProject
  | TaskRead | TaskWrite => CatTask
  | ChatRead | ChatWrite => CatChat
  | RunStart | RunCancel => CatRun
  | SchedulerRead | SchedulerWrite => CatScheduler
  | FileServerRead | FileServerWrite | FileClientPick | FileClientReadSelected => CatFile
  | ToolMcpRead | ToolMcpInvoke | ToolShellExecute => CatTool
  | TerminalServerOpen | TerminalAgentOpen => CatTerminal
  | DesktopScreenView | DesktopInputControl | DesktopWindowFocus
  | DesktopClipboardRead | DesktopClipboardWrite => CatDesktop
  | SyncOfflineRead | SyncOfflinePush | SyncCrossServer => CatSync
  | AdminAuthManage | AdminScimManage | AdminAuditView => CatAdmin
  end.

Definition is_dangerous (c : Capability) : bool :=
  match c with
  | TenantAdmin | ToolMcpInvoke | ToolShellExecute
  | TerminalServerOpen | TerminalAgentOpen | DesktopScreenView
  | DesktopInputControl | DesktopWindowFocus | DesktopClipboardRead
  | DesktopClipboardWrite | SyncOfflinePush | SyncCrossServer
  | AdminAuthManage | AdminScimManage | AdminAuditView => true
  | _ => false
  end.

Definition ALL_CAPABILITIES : list Capability :=
  [ServerHealthRead; AuthLogin; TenantRead; TenantAdmin; WorkspaceRead; WorkspaceWrite;
   ProjectRead; ProjectWrite; TaskRead; TaskWrite; ChatRead; ChatWrite; RunStart;
   RunCancel; SchedulerRead; SchedulerWrite; FileServerRead; FileServerWrite;
   FileClientPick; FileClientReadSelected; ToolMcpRead; ToolMcpInvoke; ToolShellExecute;
   TerminalServerOpen; TerminalAgentOpen; DesktopScreenView; DesktopInputControl;
   DesktopWindowFocus; DesktopClipboardRead; DesktopClipboardWrite; SyncOfflineRead;
   SyncOfflinePush; SyncCrossServer; AdminAuthManage; AdminScimManage; AdminAuditView].

Definition BASE_SERVER_SUPPORTED : list Capability :=
  [ServerHealthRead; AuthLogin; TenantRead; WorkspaceRead; WorkspaceWrite; ProjectRead;
   ProjectWrite; TaskRead; TaskWrite; ChatRead; ChatWrite; RunStart; RunCancel;
   SchedulerRead; SchedulerWrite; FileServerRead; FileServerWrite; ToolMcpRead;
   ToolMcpInvoke; ToolShellExecute; TerminalServerOpen; SyncCrossServer;
   AdminAuthManage; AdminScimManage; AdminAuditView].

Definition LOCAL_SIDECAR_SUPPORTED : list Capability :=
  [ServerHealthRead; AuthLogin; TenantRead; TenantAdmin; WorkspaceRead; WorkspaceWrite;
   ProjectRead; ProjectWrite; TaskRead; TaskWrite; ChatRead; ChatWrite; RunStart;
   RunCancel; SchedulerRead; SchedulerWrite; FileServerRead; FileServerWrite;
   FileClientPick; FileClientReadSelected; ToolMcpRead; ToolMcpInvoke; ToolShellExecute;
   TerminalServerOpen; DesktopScreenView; DesktopInputControl; DesktopWindowFocus;
   DesktopClipboardRead; DesktopClipboardWrite; SyncOfflineRead; SyncOfflinePush;
   SyncCrossServer; AdminAuthManage; AdminScimManage; AdminAuditView].

Definition REMOTE_DOCKER_SUPPORTED : list Capability := BASE_SERVER_SUPPORTED.

Definition DESKTOP_REMOTE_CLIENT_SUPPORTED : list Capability :=
  [ServerHealthRead; AuthLogin; TenantRead; WorkspaceRead; WorkspaceWrite; ProjectRead;
   ProjectWrite; TaskRead; TaskWrite; ChatRead; ChatWrite; RunStart; RunCancel;
   SchedulerRead; SchedulerWrite; FileServerRead; FileServerWrite; FileClientPick;
   FileClientReadSelected; SyncOfflineRead; SyncOfflinePush; SyncCrossServer;
   DesktopScreenView; DesktopInputControl; DesktopWindowFocus; DesktopClipboardRead;
   DesktopClipboardWrite].

Definition BROWSER_SUPPORTED : list Capability :=
  [ServerHealthRead; AuthLogin; TenantRead; WorkspaceRead; WorkspaceWrite; ProjectRead;
   ProjectWrite; TaskRead; TaskWrite; ChatRead; ChatWrite; RunStart; RunCancel;
   SchedulerRead; FileServerRead; FileServerWrite; SyncOfflineRead; SyncOfflinePush;
   SyncCrossServer].

Definition MOBILE_SUPPORTED : list Capability :=
  [ServerHealthRead; AuthLogin; TenantRead; WorkspaceRead; ProjectRead; TaskRead;
   ChatRead; ChatWrite; RunCancel; SchedulerRead; FileServerRead; SyncOfflineRead].

Definition PAIRED_AGENT_SUPPORTED : list Capability :=
  [FileClientPick; FileClientReadSelected; TerminalAgentOpen; DesktopScreenView;
   DesktopInputControl; DesktopWindowFocus; DesktopClipboardRead; DesktopClipboardWrite].

Record CapabilityDescriptor := {
  capability : Capability;
  desc_category : CapabilityCategory;
  status : CapabilityStatus;
  dangerous : bool;
  reason : option string;
}.

Definition enabled (c : Capability) : CapabilityDescriptor :=
  {| capability := c; desc_category := category c; status := Enabled;
     dangerous := is_dangerous c; reason := None |}.

Definition disabled (c : Capability) (why : string) : CapabilityDescriptor :=
  {| capability := c; desc_category := category c; status := Disabled;
     dangerous := is_dangerous c; reason := Some why |}.

Definition unsupported (c : Capability) (why : string) : CapabilityDescriptor :=
  {| capability := c; desc_category := category c; status := Unsupported;
     dangerous := is_dangerous c; reason := Some why |}.

Definition descriptor_enabled (d : CapabilityDescriptor) : bool :=
  bool_decide (status d = Enabled).

Record CapabilityResponse := {
  runtime_mode : RuntimeMode;
  capabilities : list CapabilityDescriptor;
}.

Definition from_supported (mode : RuntimeMode) (supported : list Capability)
    : CapabilityResponse :=
  {| runtime_mode := mode;
     capabilities := (fun c =>
       if negb (bool_decide (c ∈ supported)) then unsupported c "unsupported_in_runtime"
       else if is_dangerous c then disabled c "dangerous_disabled_by_default"
       else enabled c) <$> ALL_CAPABILITIES |}.

Definition local_sidecar_default := from_supported LocalSidecar LOCAL_SIDECAR_SUPPORTED.
Definition remote_docker_default := from_supported RemoteDocker REMOTE_DOCKER_SUPPORTED.
Definition desktop_remote_client_default :=
  from_supported DesktopRemoteClient DESKTOP_REMOTE_CLIENT_SUPPORTED.
Definition browser_default := from_supported Browser BROWSER_SUPPORTED.
Definition mobile_default := from_supported Mobile MOBILE_SUPPORTED.
Definition paired_desktop_agent_default :=
  from_supported PairedDesktopAgent PAIRED_AGENT_SUPPORTED.

(** [iter_mut().find(...)]: the first descriptor of the capability is updated. *)
Fixpoint enable_first (c : Capability) (l : list CapabilityDescriptor)
    : list CapabilityDescriptor :=
  match l with
  | [] => []
  | d :: l' =>
      if bool_decide (capability d = c) then
        (if bool_decide (status d ≠ Unsupported) then
           {| capability := capability d; desc_category := desc_category d;
              status := Enabled; dangerous := dangerous d; reason := None |}
         else d) :: l'
      else d :: enable_first c l'
  end.

Definition with_explicit_enabled (self : CapabilityResponse) (c : Capability)
    : CapabilityResponse :=
  {| runtime_mode := runtime_mode self; capabilities := enable_first c (capabilities self) |}.

Definition descriptor (self : CapabilityResponse) (c : Capability)
    : option CapabilityDescriptor :=
  List.find (fun d => bool_decide (capability d = c)) (capabilities self).

Definition is_enabled (self : CapabilityResponse) (c : Capability) : bool :=
  from_option descriptor_enabled false (descriptor self c).

(** ** Names *)

Lemma from_as_str c : from_str (as_str c) = Some c.
Proof. by destruct c. Qed.

(** policy names are unambiguous: a name is accepted exactly when it is the name of
    a capability, and it stands for that one. *)
Theorem capability_names_round_trip value c : from_str value = Some c <-> value = as_str c.
Proof.
  split; [|intros ->; apply from_as_str]. unfold from_str.
  repeat match goal with
         | |- (if String.eqb value ?s then _ else _) = _ -> _ =>
             destruct (String.eqb_spec value s) as [->|_]; [intros [= <-]; reflexivity|]
         end. discriminate.
Qed.

(** ** The response *)

Lemma all_capabilities_complete c : c ∈ ALL_CAPABILITIES.
Proof. apply (bool_decide_unpack (c ∈ ALL_CAPABILITIES)). by destruct c. Qed.

Lemma find_fmap {A B} (f : A -> B) (p : B -> bool) l :
  List.find p (f <$> l) = f <$> List.find (fun x => p (f x)) l.
Proof. induction l as [|x l IH]; simpl; [done|]. by destruct (p (f x)). Qed.

Lemma find_ext {A} (p q : A -> bool) l :
  (forall x, p x = q x) -> List.find p l = List.find q l.
Proof. intros H. induction l as [|x l IH]; simpl; [done|]. rewrite H. by destruct (q x). Qed.

Lemma find_eq_elem (c : Capability) l :
  c ∈ l -> List.find (fun x => bool_decide (x = c)) l = Some c.
Proof.
  induction l as [|x l IH]; [set_solver|]. intros Hin. simpl.
  case_bool_decide as Hx; [by subst|]. apply IH. set_solver.
Qed.

(** The descriptor a fresh response has for a capability. *)
Lemma descriptor_from_supported mode supported c :
  descriptor (from_supported mode supported) c =
  Some (if negb (bool_decide (c ∈ supported)) then unsupported c "unsupported_in_runtime"
        else if is_dangerous c then disabled c "dangerous_disabled_by_default"
        else enabled c).
Proof.
  unfold descriptor, from_supported. cbn [capabilities]. rewrite find_fmap.
  rewrite (find_ext _ (fun x => bool_decide (x = c))) by (intros x; by repeat case_match).
  by rewrite (find_eq_elem c) by apply all_capabilities_complete.
Qed.

(** What an explicit enable does to each descriptor. *)
Lemma descriptor_with_enabled self c c' :
  descriptor (with_explicit_enabled self c) c' =
  (fun d => if bool_decide (c = c') && bool_decide (status d ≠ Unsupported)
            then {| capability := capability d; desc_category := desc_category d;
                    status := Enabled; dangerous := dangerous d; reason := None |}
            else d) <$> descriptor self c'.
Proof.
  unfold descriptor, with_explicit_enabled. simpl.
  induction (capabilities self) as [|d l IH]; [done|]. simpl.
  destruct (decide (capability d = c)) as [Hc|Hc].
  - rewrite (bool_decide_true (capability d = c)) by done. simpl.
    destruct (decide (c = c')) as [Heq|Hne].
    + rewrite (bool_decide_true (capability d = c')), (bool_decide_true (c = c')) by congruence.
      simpl. destruct (bool_decide (status d ≠ Unsupported)); simpl;
        rewrite (bool_decide_true (capability d = c')) by congruence; reflexivity.
    + rewrite (bool_decide_false (capability d = c')), (bool_decide_false (c = c')) by congruence.
      simpl. rewrite option_fmap_id. destruct (bool_decide (status d ≠ Unsupported)); simpl;
        rewrite (bool_decide_false (capability d = c')) by congruence; reflexivity.
  - rewrite (bool_decide_false (capability d = c)) by done. simpl.
    destruct (decide (capability d = c')) as [Hd|Hd].
    + rewrite (bool_decide_true (capability d = c')), (bool_decide_false (c = c')) by congruence.
      reflexivity.
    + rewrite (bool_decide_false (capability d = c')) by congruence. exact IH.
Qed.

(** Explicitly enabled capabilities, one after the other. *)
Definition with_all_enabled (self : CapabilityResponse) (l : list Capability) : CapabilityResponse :=
  foldl with_explicit_enabled self l.

Lemma with_all_enabled_status self l c d :
  descriptor self c = Some d -> exists d', descriptor (with_all_enabled self l) c = Some d'
  /\ status d' = if bool_decide (c ∈ l) && bool_decide (status d ≠ Unsupported)
                 then Enabled else status d.
Proof.
  revert self d. induction l as [|x l IH]; intros self d Hd; simpl.
  { by exists d. }
  edestruct IH as (d' & Hd' & Hs'); [rewrite descriptor_with_enabled, Hd; reflexivity|].
  exists d'. split; [exact Hd'|]. rewrite Hs'. clear.
  destruct (decide (x = c)) as [->|Hne].
  - rewrite (bool_decide_true (c = c)), (bool_decide_true (c ∈ c :: l)) by set_solver. simpl.
    destruct (bool_decide (c ∈ l)), (status d) eqn:Hst; simpl; rewrite ?Hst; reflexivity.
  - rewrite (bool_decide_false (x = c)) by done. simpl.
    by rewrite (bool_decide_ext (c ∈ l) (c ∈ x :: l)) by set_solver.
Qed.

(** the whole policy in one equation. Starting from a runtime mode's defaults and
    enabling any capabilities in any order, a capability is enabled exactly when the
    mode supports it and it is either harmless or was enabled explicitly: dangerous
    capabilities are never on by default, and nothing turns on an unsupported one. *)
Theorem enabled_iff_supported_and_allowed mode supported explicit c :
  is_enabled (with_all_enabled (from_supported mode supported) explicit) c
  = bool_decide (c ∈ supported) && (negb (is_dangerous c) || bool_decide (c ∈ explicit)).
Proof.
  destruct (with_all_enabled_status (from_supported mode supported) explicit c _
    (descriptor_from_supported mode supported c)) as (d & Hd & Hs).
  unfold is_enabled. rewrite Hd. simpl. unfold descriptor_enabled. rewrite Hs. clear.
  destruct (bool_decide (c ∈ supported)), (is_dangerous c), (bool_decide (c ∈ explicit));
    reflexivity.
Qed.

End CapabilityModel.
