(* ===== verification/NetworkSafety.v ===== *)
(** * Safe web fetches (app/src-tauri/src/network_safety.rs and
      agents/cowork-device-agent/src/network_safety.rs)

    The desktop app's policy for fetching public text: which URLs, host names and
    addresses may be contacted, how redirects are followed, and how much of a body is
    read; and the device agent's copy of the address classification. The url crate,
    DNS and the HTTP client are an interface of operations. *)

From S2P Require Import Prelude.

Module NetworkSafety.

Definition MAX_URL_LENGTH : Z := 4096.
Definition MAX_REDIRECTS : nat := 5.
Definition TOTAL_TIMEOUT : Z := 30000.
Definition DNS_TIMEOUT : Z := 5000.
Definition MAX_TEXT_RESPONSE_BYTES : Z := 2 * 1024 * 1024.

(** An address by its octets, or by its 16-bit segments. *)
Inductive IpAddr : Type :=
| V4 (a b c d : Z)
| V6 (s0 s1 s2 s3 s4 s5 s6 s7 : Z).

#[global] Instance IpAddr_eq_dec : EqDecision IpAddr.
Proof. solve_decision. Defined.

(** The error messages, with what they print. *)
Inductive NetError : Type :=
| RedirectLoop
| RequestTimedOut
| TooManyRedirects
| MissingLocation
| InvalidLocation
| UnsupportedRedirect (status : Z)
| MissingContentType
| BlockedContentType (content_type : string)
| EmptyUrl
| UrlTooLong
| InvalidUrl (reason : string)
| BlockedScheme
| BlockedCredentials
| NoPort
| BlockedPort (port : Z)
| NoHost
| BlockedHostname (name : string)
| BlockedAddress (address : IpAddr)
| DnsTimedOut
| DnsFailed (reason : string)
| DnsEmpty
| InvalidRedirectUrl (reason : string)
| BlockedDowngrade
| ClientError (reason : string).

(** ** Addresses *)

Definition between (lo hi x : Z) : bool := bool_decide (lo ≤ x ≤ hi)%Z.

Definition is_public_ipv4 (a b c d : Z) : bool :=
  negb ((a =? 0) || (a =? 10) || (a =? 127)
        || ((a =? 100) && between 64 127 b)
        || ((a =? 169) && (b =? 254))
        || ((a =? 172) && between 16 31 b)
        || ((a =? 192) && (b =? 0) && (c =? 0))
        || ((a =? 192) && (b =? 0) && (c =? 2))
        || ((a =? 192) && (b =? 88) && (c =? 99))
        || ((a =? 192) && (b =? 168))
        || ((a =? 198) && ((b =? 18) || (b =? 19)))
        || ((a =? 198) && (b =? 51) && (c =? 100))
        || ((a =? 203) && (b =? 0) && (c =? 113))
        || (224 <=? a))%Z.

(** [(segment >> 8) as u8] and [segment as u8] *)
Definition high_byte (s : Z) : Z := Z.land (Z.shiftr s 8) 255.
Definition low_byte (s : Z) : Z := Z.land s 255.

Definition is_mapped (s0 s1 s2 s3 s4 s5 : Z) : bool :=
  ((s0 =? 0) && (s1 =? 0) && (s2 =? 0) && (s3 =? 0) && (s4 =? 0) && (s5 =? 65535))%Z.

Definition is_public_ipv6 (s0 s1 s2 s3 s4 s5 s6 s7 : Z) : bool :=
  if is_mapped s0 s1 s2 s3 s4 s5
  then is_public_ipv4 (high_byte s6) (low_byte s6) (high_byte s7) (low_byte s7)
  else
    let in_global_unicast := (Z.land s0 57344 =? 8192)%Z in
    let ietf_special := ((s0 =? 8193) && (s1 <=? 511))%Z in
    let documentation := (((s0 =? 8193) && (s1 =? 3512))
                          || ((s0 =? 16383) && (s1 <=? 4095)))%Z in
    let transition_6to4 := (s0 =? 8194)%Z in
    in_global_unicast && negb ietf_special && negb documentation && negb transition_6to4.

Definition is_public_ip (address : IpAddr) : bool :=
  match address with
  | V4 a b c d => is_public_ipv4 a b c d
  | V6 s0 s1 s2 s3 s4 s5 s6 s7 => is_public_ipv6 s0 s1 s2 s3 s4 s5 s6 s7
  end.

Definition validate_public_ip (address : IpAddr) : result NetError unit :=
  if is_public_ip address then Ok tt else Err (BlockedAddress address).

(** The device agent's classification. *)
Definition agent_is_public_ipv6 (s0 s1 s2 s3 s4 s5 s6 s7 : Z) : bool :=
  if is_mapped s0 s1 s2 s3 s4 s5
  then is_public_ipv4 (high_byte s6) (low_byte s6) (high_byte s7) (low_byte s7)
  else
    ((Z.land s0 57344 =? 8192)
     && negb ((s0 =? 8193)
              && ((s1 =? 0) || (s1 =? 2) || (s1 =? 3512)
                  || (Z.land s1 65520 =? 16) || (Z.land s1 65520 =? 32)))
     && negb (s0 =? 8194))%Z.

Definition is_public_destination (address : IpAddr) : bool :=
  match address with
  | V4 a b c d => is_public_ipv4 a b c d
  | V6 s0 s1 s2 s3 s4 s5 s6 s7 => agent_is_public_ipv6 s0 s1 s2 s3 s4 s5 s6 s7
  end.

(** ** Host names *)

Definition LOCAL_SUFFIXES : list string :=
  [".localhost"; ".local"; ".localdomain"; ".internal"; ".home"; ".lan"].

Definition normalize_domain (domain : string) : string :=
  to_ascii_lowercase (trim_end_matches "." domain).

Definition validate_domain_name (domain : string) : result NetError unit :=
  let normalized := normalize_domain domain in
  if str_is_empty normalized
     || (String.eqb normalized "localhost" || String.eqb normalized "localhost.localdomain")
     || existsb (fun suffix => ends_with suffix normalized) LOCAL_SUFFIXES
  then Err (BlockedHostname normalized)
  else Ok tt.

(** ** Bodies and content types *)

Definition append_with_limit (buffer chunk : list ascii) (max_bytes : nat) : list ascii * bool :=
  let remaining_capacity := (max_bytes - length buffer)%nat in
  let accepted := (length chunk `min` remaining_capacity)%nat in
  (buffer ++ take accepted chunk, (accepted <? length chunk)%nat).

(** The read loop over the stream's chunks; an error of the stream ends it. *)
Fixpoint read_body (max_bytes : nat) (bytes : list ascii) (truncated : bool)
    (stream : list (result NetError (list ascii))) : result NetError (list ascii * bool) :=
  match stream with
  | [] => Ok (bytes, truncated)
  | Err e :: _ => Err e
  | Ok chunk :: rest =>
      let '(bytes', cut) := append_with_limit bytes chunk max_bytes in
      if cut : bool then Ok (bytes', true)
      else if (length bytes' =? max_bytes)%nat then
        match rest with
        | [] => Ok (bytes', truncated)
        | Err e :: _ => Err e
        | Ok _ :: _ => Ok (bytes', true)
        end
      else read_body max_bytes bytes' truncated rest
  end.

Definition normalize_content_type (value : string) : string :=
  to_ascii_lowercase (trim (split_first ";" value)).

Definition is_allowed_text_content_type (content_type : string) : bool :=
  starts_with "text/" content_type
  || str_mem content_type ["application/json"; "application/xml"; "application/xhtml+xml";
                           "application/rss+xml"; "application/atom+xml"]
  || ends_with "+json" content_type
  || ends_with "+xml" content_type.

Definition is_followable_redirect (status : Z) : bool :=
  ((status =? 301) || (status =? 302) || (status =? 303) || (status =? 307)
   || (status =? 308))%Z.

(** [StatusCode::is_redirection] *)
Definition is_redirection (status : Z) : bool := between 300 399 status.

(** ** The outside world *)

Inductive Host : Type :=
| Domain (name : string)
| Ip (address : IpAddr).

(** The operations of the url crate the code uses. *)
Class UrlOps (Url : Type) := {
  url_parse : string -> result string Url;
  url_as_str : Url -> string;
  url_scheme : Url -> string;
  url_username : Url -> string;
  url_password : Url -> option string;
  url_port_or_known_default : Url -> option Z;
  url_host : Url -> option Host;
  url_clear_fragment : Url -> Url;
  url_join : Url -> string -> result string Url;
}.

(** What its documentation says of clearing the fragment: the rest of the URL stays. *)
Class UrlLaws (Url : Type) `{UrlOps Url} := {
  clear_scheme : forall u, url_scheme (url_clear_fragment u) = url_scheme u;
  clear_username : forall u, url_username (url_clear_fragment u) = url_username u;
  clear_password : forall u, url_password (url_clear_fragment u) = url_password u;
  clear_port : forall u,
    url_port_or_known_default (url_clear_fragment u) = url_port_or_known_default u;
  clear_host : forall u, url_host (url_clear_fragment u) = url_host u;
}.

(** The headers and the body of an answer. A location header that is not text is
    [Some None]. *)
Record Response := {
  resp_status : Z;
  resp_location : option (option string);
  resp_content_type : option string;
  resp_content_length : option Z;
  resp_stream : list (result NetError (list ascii));
}.

Section fetch.
Context {Url : Type} `{UrlOps Url}.

Record ResolvedTarget := {
  target_url : Url;
  target_dns_domain : option string;
  target_addresses : list IpAddr;
}.

(** DNS answers to a lookup with a timeout, the clock (milliseconds since the start
    at each iteration), and the answer to the [n]-th request; the client connects
    to the target's addresses, or to the URL's own address. *)
Record Web := {
  web_lookup : string -> Z -> Z -> result NetError (list IpAddr);
  web_elapsed : nat -> Z;
  web_send : nat -> ResolvedTarget -> Z -> result NetError Response;
}.

(** The body before its lossy decoding to text. *)
Record SafeTextResponse := {
  final_url : string;
  final_status : Z;
  final_content_type : string;
  final_body : list ascii;
  final_truncated : bool;
}.

Definition parse_public_web_url (input : string) : result NetError Url :=
  let trimmed := trim input in
  if str_is_empty trimmed then Err EmptyUrl
  else if bool_decide (MAX_URL_LENGTH < str_len trimmed)%Z then Err UrlTooLong
  else
    url ← map_err InvalidUrl (url_parse trimmed);
    if negb (String.eqb (url_scheme url) "http" || String.eqb (url_scheme url) "https")
    then Err BlockedScheme
    else if negb (str_is_empty (url_username url)) || bool_decide (is_Some (url_password url))
    then Err BlockedCredentials
    else
      port ← ok_or NoPort (url_port_or_known_default url);
      if negb ((port =? 80) || (port =? 443))%Z then Err (BlockedPort port)
      else
        _ ← match url_host url with
            | Some (Domain domain) => validate_domain_name domain
            | Some (Ip address) => validate_public_ip address
            | None => Err NoHost
            end;
        Ok (url_clear_fragment url).

(** The addresses of a lookup, each once, in order; a non-public one fails. *)
Fixpoint collect_public (lookup : list IpAddr) (seen : list IpAddr) : result NetError (list IpAddr) :=
  match lookup with
  | [] => Ok []
  | ip :: lookup' =>
      _ ← validate_public_ip ip;
      if bool_decide (ip ∈ seen) then collect_public lookup' seen
      else
        rest ← collect_public lookup' (ip :: seen);
        Ok (ip :: rest)
  end.

Definition resolve_public_target (web : Web) (url : Url) (timeout : Z)
    : result NetError ResolvedTarget :=
  port ← ok_or NoPort (url_port_or_known_default url);
  match url_host url with
  | Some (Domain domain) =>
      _ ← validate_domain_name domain;
      lookup ← web_lookup web domain port timeout;
      addresses ← collect_public lookup [];
      match addresses with
      | [] => Err DnsEmpty
      | _ => Ok {| target_url := url; target_dns_domain := Some domain;
                   target_addresses := addresses |}
      end
  | Some (Ip address) =>
      _ ← validate_public_ip address;
      Ok {| target_url := url; target_dns_domain := None; target_addresses := [] |}
  | None => Err NoHost
  end.

Definition resolve_redirect (current : Url) (location : string) : result NetError Url :=
  next ← map_err InvalidRedirectUrl (url_join current location);
  next ← parse_public_web_url (url_as_str next);
  if String.eqb (url_scheme current) "https" && String.eqb (url_scheme next) "http"
  then Err BlockedDowngrade
  else Ok next.

(** The content type of an accepted answer, empty when there is none. *)
Definition accept_content_type (response : Response) : result NetError string :=
  let content_type := normalize_content_type <$> resp_content_type response in
  if bool_decide (resp_status response ≠ 204%Z) then
    match content_type with
    | None => Err MissingContentType
    | Some t => if is_allowed_text_content_type t then Ok t else Err (BlockedContentType t)
    end
  else Ok (from_option id EmptyString content_type).

(** What is made of an answer that is not a redirect. *)
Definition read_response (max_bytes : nat) (target : ResolvedTarget) (response : Response)
    : result NetError SafeTextResponse :=
  if is_redirection (resp_status response)
  then Err (UnsupportedRedirect (resp_status response))
  else
    content_type ← accept_content_type response;
    let truncated := match resp_content_length response with
                     | Some length => bool_decide (Z.of_nat max_bytes < length)%Z
                     | None => false
                     end in
    body ← read_body max_bytes [] truncated (resp_stream response);
    Ok {| final_url := url_as_str (target_url target);
          final_status := resp_status response;
          final_content_type := content_type;
          final_body := body.1; final_truncated := body.2 |}.

(** The next URL of a redirect answer. *)
Definition follow_redirect (target : ResolvedTarget) (response : Response) : result NetError Url :=
  header ← ok_or MissingLocation (resp_location response);
  location ← ok_or InvalidLocation header;
  resolve_redirect (target_url target) location.

(** One iteration up to the answer: the target that was contacted, and the answer. *)
Definition contact (web : Web) (n : nat) (current : Url) (visited : list string)
    : list ResolvedTarget * result NetError (ResolvedTarget * Response) :=
  if bool_decide (url_as_str current ∈ visited) then ([], Err RedirectLoop)
  else if bool_decide (TOTAL_TIMEOUT ≤ web_elapsed web n)%Z then ([], Err RequestTimedOut)
  else
    let remaining := (TOTAL_TIMEOUT - web_elapsed web n)%Z in
    match resolve_public_target web current (Z.min remaining DNS_TIMEOUT) with
    | Err e => ([], Err e)
    | Ok target =>
        ([target], response ← web_send web n target remaining; Ok (target, response))
    end.

(** The loop; [left] redirects may still be followed. The first component lists the
    targets that were contacted. *)
Fixpoint fetch_loop (web : Web) (max_bytes : nat) (left n : nat) (current : Url)
    (visited : list string) : list ResolvedTarget * result NetError SafeTextResponse :=
  match contact web n current visited with
  | (sent, Err e) => (sent, Err e)
  | (sent, Ok (target, response)) =>
      if is_followable_redirect (resp_status response) then
        match left with
        | O => (sent, Err TooManyRedirects)
        | S left' =>
            match follow_redirect target response with
            | Err e => (sent, Err e)
            | Ok next =>
                let '(more, r) := fetch_loop web max_bytes left' (S n) next
                                    (url_as_str current :: visited) in
                (sent ++ more, r)
            end
        end
      else (sent, read_response max_bytes target response)
  end.

Definition fetch_public_text (web : Web) (input : string) (max_bytes : Z)
    : list ResolvedTarget * result NetError SafeTextResponse :=
  let max := Z.to_nat (clamp 1024 MAX_TEXT_RESPONSE_BYTES max_bytes) in
  match parse_public_web_url input with
  | Err e => ([], Err e)
  | Ok url => fetch_loop web max MAX_REDIRECTS 0 url []
  end.
End fetch.

End NetworkSafety.
