(* ===== verification/NetworkProperties.v ===== *)
(** * What a safe fetch guarantees

    The address classification is the table of special-purpose blocks; a fetch only
    ever contacts validated public targets, follows a bounded number of redirects and
    keeps a bounded, faithful part of the body. *)

From S2P Require Import Prelude.
From S2P Require Import NetworkSafety.
Import NetworkSafety.

(** ** The classification as a table of blocks *)

(** A block of a [width]-bit address space: its first address and its prefix length. *)
Definition in_block (width : Z) (block : Z * Z) (address : Z) : bool :=
  (Z.shiftr address (width - block.2) =? Z.shiftr block.1 (width - block.2))%Z.

Definition ipv4 (a b c d : Z) : Z := (a * 16777216 + b * 65536 + c * 256 + d)%Z.

(** The special-purpose IPv4 blocks that are not public unicast. *)
Definition SPECIAL_IPV4 : list (Z * Z) :=
  [(ipv4 0 0 0 0, 8); (ipv4 10 0 0 0, 8); (ipv4 127 0 0 0, 8); (ipv4 100 64 0 0, 10);
   (ipv4 169 254 0 0, 16); (ipv4 172 16 0 0, 12); (ipv4 192 0 0 0, 24); (ipv4 192 0 2 0, 24);
   (ipv4 192 88 99 0, 24); (ipv4 192 168 0 0, 16); (ipv4 198 18 0 0, 15);
   (ipv4 198 51 100 0, 24); (ipv4 203 0 113 0, 24); (ipv4 224 0 0 0, 3)]%Z.

Definition octet (x : Z) : Prop := (0 ≤ x < 256)%Z.
Definition segment (x : Z) : Prop := (0 ≤ x < 65536)%Z.

Lemma in_block_div width net len address :
  (0 ≤ width - len)%Z ->
  in_block width (net, len) address
  = bool_decide (address / 2 ^ (width - len) = net / 2 ^ (width - len))%Z.
Proof.
  intros Hl. unfold in_block. simpl. rewrite !Z.shiftr_div_pow2 by done.
  destruct (Z.eqb_spec (address / 2 ^ (width - len)) (net / 2 ^ (width - len)));
    case_bool_decide; done.
Qed.

Lemma eq_bool_iff (b1 b2 : bool) : (b1 = true <-> b2 = true) -> b1 = b2.
Proof. destruct b1, b2; naive_solver. Qed.

Section ipv4_prefixes.
Context (a b c d : Z) (Ha : octet a) (Hb : octet b) (Hc : octet c) (Hd : octet d).

(** The leading bits of an address, by its octets. *)
Lemma prefix_within_first k :
  (0 < k)%Z -> (ipv4 a b c d / (16777216 * k) = a / k)%Z.
Proof using Ha Hb Hc Hd.
  intros Hk. unfold octet in *. rewrite <- Z.div_div by lia. f_equal. unfold ipv4.
  symmetry. apply Z.div_unique with (b * 65536 + c * 256 + d)%Z; lia.
Qed.

Lemma prefix_within_second k m :
  (0 < k)%Z -> (k * m = 256)%Z -> (ipv4 a b c d / (65536 * k) = a * m + b / k)%Z.
Proof using Ha Hb Hc Hd.
  intros Hk Hm. unfold octet in *. rewrite <- Z.div_div by lia.
  replace (ipv4 a b c d / 65536)%Z with (a * m * k + b)%Z.
  - rewrite Z.div_add_l by lia. done.
  - apply Z.div_unique with (c * 256 + d)%Z; unfold ipv4; nia.
Qed.

Lemma prefix_third : (ipv4 a b c d / 256 = a * 65536 + b * 256 + c)%Z.
Proof using Ha Hb Hc Hd.
  unfold octet in *. symmetry. apply Z.div_unique with d; unfold ipv4; lia.
Qed.
End ipv4_prefixes.

(** the IPv4 classification is exactly the table: an address is public when it lies
    in none of the fourteen special-purpose blocks (this network, private use,
    loopback, shared address space, link local, protocol assignments, documentation,
    6to4 relay, benchmarking, multicast and reserved). *)
Theorem public_ipv4_is_table a b c d :
  octet a -> octet b -> octet c -> octet d ->
  is_public_ipv4 a b c d
  = negb (existsb (fun block => in_block 32 block (ipv4 a b c d)) SPECIAL_IPV4).
Proof.
  intros Ha Hb Hc Hd. unfold is_public_ipv4, SPECIAL_IPV4, existsb, between.
  repeat rewrite in_block_div by lia. f_equal. rewrite <- !orb_assoc, orb_false_r.
  change (2 ^ (32 - 8))%Z with (16777216 * 1)%Z. change (2 ^ (32 - 3))%Z with (16777216 * 32)%Z.
  change (2 ^ (32 - 10))%Z with (65536 * 64)%Z. change (2 ^ (32 - 16))%Z with (65536 * 1)%Z.
  change (2 ^ (32 - 12))%Z with (65536 * 16)%Z. change (2 ^ (32 - 15))%Z with (65536 * 2)%Z.
  change (2 ^ (32 - 24))%Z with 256%Z.
  rewrite !(prefix_within_first a b c d), !prefix_third by (done || lia).
  rewrite (prefix_within_second a b c d Ha Hb Hc Hd 64 4),
    (prefix_within_second a b c d Ha Hb Hc Hd 1 256),
    (prefix_within_second a b c d Ha Hb Hc Hd 16 16),
    (prefix_within_second a b c d Ha Hb Hc Hd 2 128) by lia.
  unfold octet in *. unfold ipv4.
  repeat apply (f_equal2 orb); apply eq_bool_iff;
    rewrite ?andb_true_iff, ?orb_true_iff, ?bool_decide_eq_true, ?Z.eqb_eq, ?Z.leb_le;
    try match goal with |- _ <-> _ = ?r => let v := eval vm_compute in r in change r with v end;
    Z.div_mod_to_equations; lia.
Qed.

Lemma public_ipv4_is_table_witness :
  is_public_ipv4 100 127 0 1
  = negb (existsb (fun block => in_block 32 block (ipv4 100 127 0 1)) SPECIAL_IPV4).
Proof. apply public_ipv4_is_table; unfold octet; lia. Defined.

(** The first 32 bits of an IPv6 address. *)
Definition ipv6_head (s0 s1 : Z) : Z := (s0 * 65536 + s1)%Z.

(** The special-purpose blocks inside the global unicast space 2000::/3: protocol
    assignments 2001::/23, documentation 2001:db8::/32 and 3fff::/20, 6to4 2002::/16. *)
Definition SPECIAL_IPV6 : list (Z * Z) :=
  [(ipv6_head 8193 0, 23); (ipv6_head 8193 3512, 32); (ipv6_head 16383 0, 20);
   (ipv6_head 8194 0, 16)]%Z.

Definition GLOBAL_UNICAST : Z * Z := (ipv6_head 8192 0, 3%Z).

(** A mask of leading bits is a division. *)
Lemma land_leading n k x :
  (0 ≤ n)%Z -> (0 ≤ k)%Z -> (0 ≤ x < 2 ^ (n + k))%Z ->
  Z.land x (Z.shiftl (Z.ones k) n) = (2 ^ n * (x / 2 ^ n))%Z.
Proof.
  intros Hn Hk Hx. rewrite <- Z.shiftr_div_pow2, Z.mul_comm, <- Z.shiftl_mul_pow2 by done.
  apply Z.bits_inj'. intros i Hi. rewrite Z.land_spec, !Z.shiftl_spec by done.
  destruct (Z.lt_ge_cases i n) as [Hlt|Hge].
  - rewrite !(Z.testbit_neg_r _ (i - n)) by lia. by rewrite andb_false_r.
  - rewrite Z.shiftr_spec by lia. replace (i - n + n)%Z with i by lia.
    rewrite Z.testbit_ones by done. destruct (Z.lt_ge_cases (i - n) k) as [Hlt|Hge'].
    + replace (0 <=? i - n)%Z with true by lia. replace (i - n <? k)%Z with true by lia.
      by rewrite andb_true_r.
    + replace (Z.testbit x i) with false; [done|]. symmetry.
      rewrite <- (Z.mod_small x (2 ^ (n + k))) by done. apply Z.mod_pow2_bits_high. lia.
Qed.

Lemma land_high x : segment x -> Z.land x 57344 = (8192 * (x / 8192))%Z.
Proof. intros Hx. by apply (land_leading 13 3 x). Qed.

Lemma land_fff0 x : segment x -> Z.land x 65520 = (16 * (x / 16))%Z.
Proof. intros Hx. by apply (land_leading 4 12 x). Qed.

(** the IPv6 classification is the table: an IPv4-mapped address is classified by
    its IPv4 address, any other address is public when it is global unicast and lies
    in none of the special-purpose blocks. *)
Theorem public_ipv6_is_table s0 s1 s2 s3 s4 s5 s6 s7 :
  segment s0 -> segment s1 ->
  is_public_ipv6 s0 s1 s2 s3 s4 s5 s6 s7
  = if is_mapped s0 s1 s2 s3 s4 s5
    then is_public_ipv4 (high_byte s6) (low_byte s6) (high_byte s7) (low_byte s7)
    else in_block 32 GLOBAL_UNICAST (ipv6_head s0 s1)
         && negb (existsb (fun block => in_block 32 block (ipv6_head s0 s1)) SPECIAL_IPV6).
Proof.
  intros H0 H1. unfold is_public_ipv6. destruct (is_mapped _ _ _ _ _ _); [done|].
  rewrite land_high by done. unfold SPECIAL_IPV6, existsb, GLOBAL_UNICAST, segment in *.
  repeat rewrite in_block_div by lia. rewrite orb_false_r, !negb_orb, !andb_assoc.
  change (2 ^ (32 - 3))%Z with 536870912%Z. change (2 ^ (32 - 23))%Z with 512%Z.
  change (2 ^ (32 - 32))%Z with 1%Z. change (2 ^ (32 - 20))%Z with 4096%Z.
  change (2 ^ (32 - 16))%Z with 65536%Z. unfold ipv6_head.
  repeat apply (f_equal2 andb); try apply (f_equal negb); apply eq_bool_iff;
    rewrite ?andb_true_iff, ?orb_true_iff, ?bool_decide_eq_true, ?Z.eqb_eq, ?Z.leb_le;
    try match goal with |- _ <-> _ = ?r => let v := eval vm_compute in r in change r with v end;
    Z.div_mod_to_equations; lia.
Qed.

Lemma public_ipv6_is_table_witness :
  is_public_ipv6 9734 18176 0 0 0 0 0 4369
  = if is_mapped 9734 18176 0 0 0 0
    then is_public_ipv4 (high_byte 0) (low_byte 0) (high_byte 4369) (low_byte 4369)
    else in_block 32 GLOBAL_UNICAST (ipv6_head 9734 18176)
         && negb (existsb (fun block => in_block 32 block (ipv6_head 9734 18176)) SPECIAL_IPV6).
Proof. apply public_ipv6_is_table; unfold segment; lia. Defined.

(** The ranges of an address's parts. *)
Definition ip_ok (address : IpAddr) : Prop :=
  match address with
  | V4 a b c d => octet a /\ octet b /\ octet c /\ octet d
  | V6 s0 s1 s2 s3 s4 s5 s6 s7 => Forall segment [s0; s1; s2; s3; s4; s5; s6; s7]
  end.

(** the two classifications agree on the safe side: whatever the desktop app
    considers public, the device agent considers public too (the agent lets a few
    more IPv6 protocol-assignment and documentation addresses through). *)
Theorem desktop_public_implies_agent_public address :
  ip_ok address -> is_public_ip address = true -> is_public_destination address = true.
Proof.
  destruct address as [a b c d|s0 s1 s2 s3 s4 s5 s6 s7]; [done|]. simpl. intros Hok.
  assert (Hs1 : segment s1) by (by inversion Hok as [|? ? _ [|? ? H _]]).
  unfold is_public_ipv6, agent_is_public_ipv6. destruct (is_mapped _ _ _ _ _ _); [done|].
  rewrite (land_fff0 s1) by done. unfold segment in Hs1.
  rewrite !andb_true_iff, !negb_true_iff, !andb_false_iff, !orb_false_iff.
  rewrite !andb_false_iff, !Z.eqb_neq, !Z.leb_gt. intros [[[? ?] ?] ?].
  split_and!; auto. Z.div_mod_to_equations. lia.
Qed.

Lemma desktop_public_implies_agent_public_witness :
  is_public_destination (V6 9734 18176 18176 0 0 0 0 4369) = true.
Proof.
  apply desktop_public_implies_agent_public; [|reflexivity].
  repeat constructor; unfold segment; lia.
Defined.

(** ** Bodies *)

(** The bytes a stream delivers before it ends or fails. *)
Fixpoint stream_bytes (stream : list (result NetError (list ascii))) : list ascii :=
  match stream with
  | Ok chunk :: rest => chunk ++ stream_bytes rest
  | _ => []
  end.

Lemma append_with_limit_spec buffer chunk max :
  (length buffer ≤ max)%nat ->
  let r := append_with_limit buffer chunk max in
  (length r.1 ≤ max)%nat /\ r.1 `prefix_of` buffer ++ chunk
  /\ (r.2 = false -> r.1 = buffer ++ chunk).
Proof.
  intros Hb. unfold append_with_limit. cbn [fst snd].
  set (n := (length chunk `min` (max - length buffer))%nat). split_and!.
  - rewrite length_app, length_take. lia.
  - exists (drop n chunk). by rewrite <- app_assoc, take_drop.
  - intros Hc%Nat.ltb_ge. by rewrite take_ge by lia.
Qed.

Lemma read_body_spec max bytes truncated stream body t :
  (length bytes ≤ max)%nat -> read_body max bytes truncated stream = Ok (body, t) ->
  (length body ≤ max)%nat /\ body `prefix_of` bytes ++ stream_bytes stream
  /\ (truncated = true -> t = true)
  /\ (t = false -> body = bytes ++ stream_bytes stream).
Proof.
  revert bytes. induction stream as [|[chunk|e] rest IH]; intros bytes Hb;
    cbn [read_body stream_bytes]; [| |done].
  { intros [= <- <-]. rewrite app_nil_r. by split_and!. }
  pose proof (append_with_limit_spec bytes chunk max Hb) as (Hl & Hp & Heq).
  destruct (append_with_limit bytes chunk max) as [bytes' cut]. simpl in *.
  rewrite app_assoc. destruct cut.
  { intros Hx. simplify_eq/=. split_and!; [done|by apply prefix_app_r|done|done]. }
  specialize (Heq eq_refl). subst bytes'.
  destruct (length (bytes ++ chunk) =? max)%nat; [|by apply IH].
  destruct rest as [|[x|e] rest']; simpl; [| |done]; intros Hx; simplify_eq/=.
  - rewrite app_nil_r. by split_and!.
  - split_and!; [done|by apply prefix_app_r|done|done].
Qed.

(** ** Targets *)

Section fetch_properties.
Context {Url : Type} `{UrlOps Url} `{!UrlLaws Url}.
Implicit Types (u : Url) (web : Web (Url := Url)).

(** What the policy demands of a host. *)
Definition host_ok (h : option Host) : Prop :=
  match h with
  | Some (Domain name) => validate_domain_name name = Ok tt
  | Some (Ip address) => is_public_ip address = true
  | None => False
  end.

(** What the policy demands of a URL. *)
Record url_ok (u : Url) : Prop := {
  uo_scheme : url_scheme u = "http" \/ url_scheme u = "https";
  uo_username : url_username u = "";
  uo_password : url_password u = None;
  uo_port : url_port_or_known_default u = Some 80%Z
            \/ url_port_or_known_default u = Some 443%Z;
  uo_host : host_ok (url_host u);
}.

(** What it demands of a target: a validated URL, and for a host name at least one
    resolved address, all of them public. *)
Record target_ok (t : ResolvedTarget (Url := Url)) : Prop := {
  to_url : url_ok (target_url t);
  to_addresses : forall name, url_host (target_url t) = Some (Domain name) ->
    target_addresses t ≠ [] /\ Forall (fun ip => is_public_ip ip = true) (target_addresses t);
}.

Lemma validate_public_ip_Ok ip x : validate_public_ip ip = Ok x -> is_public_ip ip = true.
Proof. unfold validate_public_ip. by destruct (is_public_ip ip). Qed.

Lemma str_is_empty_true s : str_is_empty s = true -> s = EmptyString.
Proof. by destruct s. Qed.

Lemma parse_public_web_url_ok input u : parse_public_web_url input = Ok u -> url_ok u.
Proof using UrlLaws0.
  unfold parse_public_web_url. destruct (str_is_empty (trim input)); [done|].
  case_bool_decide; [done|]. destruct (url_parse (trim input)) as [v|]; [|done]. simpl.
  destruct (negb _) eqn:Hs; [done|]. destruct (negb _ || _) eqn:Hc; [done|].
  destruct (url_port_or_known_default v) as [port|] eqn:Hp; [|done]. simpl.
  destruct (negb ((port =? 80)%Z || _)) eqn:Hport; [done|].
  apply negb_false_iff, orb_true_iff in Hs. rewrite !String.eqb_eq in Hs.
  apply orb_false_iff in Hc as [Hu%negb_false_iff%str_is_empty_true Hpw%bool_decide_eq_false].
  apply negb_false_iff, orb_true_iff in Hport. rewrite !Z.eqb_eq in Hport.
  destruct (match url_host v with Some _ => _ | None => _ end) as [[]|] eqn:Hh; [|done].
  simpl. intros [= <-].
  split; rewrite ?clear_scheme, ?clear_username, ?clear_password, ?clear_port, ?clear_host; auto.
  - by apply eq_None_not_Some.
  - rewrite Hp. destruct Hport as [-> | ->]; auto.
  - destruct (url_host v) as [[name|ip]|]; [done| |done]. by eapply validate_public_ip_Ok.
Qed.

Lemma collect_public_ok lookup seen l :
  collect_public lookup seen = Ok l -> Forall (fun ip => is_public_ip ip = true) l.
Proof.
  revert seen l. induction lookup as [|ip lookup IH]; intros seen l; simpl.
  { intros [= <-]. constructor. }
  unfold validate_public_ip. destruct (is_public_ip ip) eqn:Hip; [|done]. simpl.
  case_bool_decide; [apply IH|].
  destruct (collect_public lookup (ip :: seen)) as [rest|] eqn:Hr; [|done]. simpl.
  intros [= <-]. constructor; [done|]. by eapply IH.
Qed.

Lemma resolve_public_target_ok web u timeout t :
  url_ok u -> resolve_public_target web u timeout = Ok t ->
  target_url t = u /\ target_ok t.
Proof.
  intros Hu. unfold resolve_public_target.
  destruct (url_port_or_known_default u) as [port|]; [|done]. simpl.
  destruct (url_host u) as [[name|ip]|] eqn:Hh; [| |done].
  - destruct (validate_domain_name name); [|done]. simpl.
    destruct (web_lookup web name port timeout) as [lookup|]; [|done]. simpl.
    destruct (collect_public lookup []) as [l|] eqn:Hl; [|done]. simpl.
    apply collect_public_ok in Hl. destruct l as [|ip l]; [done|]. intros [= <-].
    split; [done|]. split; [done|]. simpl. intros name' _. by split.
  - destruct (validate_public_ip ip); [|done]. simpl. intros [= <-].
    split; [done|]. split; [done|]. simpl. congruence.
Qed.

Lemma contact_ok web n u visited sent r :
  url_ok u -> contact web n u visited = (sent, r) ->
  (length sent ≤ 1)%nat /\ Forall target_ok sent
  /\ Forall (fun t => target_url t = u) sent
  /\ forall t response, r = Ok (t, response) -> sent = [t].
Proof.
  intros Hu.
  assert (Hnone : forall e : NetError, ([], Err e) = (sent, r) -> (length sent ≤ 1)%nat
    /\ Forall target_ok sent /\ Forall (fun t => target_url t = u) sent
    /\ forall t response, r = Ok (t, response) -> sent = [t]).
  { intros e [= <- <-]. split_and!; [simpl; lia|constructor|constructor|done]. }
  unfold contact. case_bool_decide; [apply Hnone|]. case_bool_decide; [apply Hnone|].
  destruct (resolve_public_target _ _ _) as [t|] eqn:Ht; [|apply Hnone].
  apply resolve_public_target_ok in Ht as [Hurl Ht]; [|done]. intros [= <- <-].
  split_and!; [simpl; lia|by constructor|by constructor|]. intros t' response Hr.
  destruct (web_send web n t _); simpl in Hr; congruence.
Qed.

Lemma follow_redirect_ok t response u :
  follow_redirect t response = Ok u ->
  url_ok u /\ (url_scheme (target_url t) = "https" -> url_scheme u = "https").
Proof using UrlLaws0.
  unfold follow_redirect, resolve_redirect. destruct (resp_location response) as [h|]; [|done].
  simpl. destruct h as [location|]; [|done]. simpl.
  destruct (url_join (target_url t) location) as [next|]; [|done]. simpl.
  destruct (parse_public_web_url _) as [v|] eqn:Hv; [|done]. simpl.
  apply parse_public_web_url_ok in Hv.
  destruct (String.eqb (url_scheme (target_url t)) "https" && _) eqn:Hd; [done|].
  intros [= <-]. split; [done|]. intros Hs. rewrite Hs in Hd. simpl in Hd.
  apply String.eqb_neq in Hd. by destruct (uo_scheme _ Hv).
Qed.

(** Once a request went over https, so do all later ones. *)
Fixpoint no_downgrade (l : list (ResolvedTarget (Url := Url))) : Prop :=
  match l with
  | t :: rest =>
      (url_scheme (target_url t) = "https" ->
         Forall (fun t' => url_scheme (target_url t') = "https") rest)
      /\ no_downgrade rest
  | [] => True
  end.

Lemma fetch_loop_ok web max left n u visited sent r :
  url_ok u -> fetch_loop web max left n u visited = (sent, r) ->
  (length sent ≤ S left)%nat /\ Forall target_ok sent /\ no_downgrade sent
  /\ (url_scheme u = "https" -> Forall (fun t => url_scheme (target_url t) = "https") sent).
Proof using UrlLaws0.
  revert n u visited sent r. induction left as [|left IH]; intros n u visited sent r Hu; simpl;
    destruct (contact web n u visited) as [s1 r1] eqn:Hc;
    destruct (contact_ok _ _ _ _ _ _ Hu Hc) as (Hlen & Hok & Hurl & Hone).
  all: assert (Hbase : (length s1 ≤ 1)%nat /\ Forall target_ok s1 /\ no_downgrade s1
         /\ (url_scheme u = "https" ->
             Forall (fun t => url_scheme (target_url t) = "https") s1));
    [split_and!; [lia|done| |intros Hs; eapply Forall_impl; [exact Hurl|]; by intros t ->];
     destruct s1 as [|x [|y l]]; [done|by split; [constructor|]|simpl in Hlen; lia]|].
  - destruct r1 as [[t response]|]; [|intros [= <- <-]; split_and!; (tauto || lia)].
    destruct (is_followable_redirect _); intros [= <- <-]; split_and!; (tauto || lia).
  - destruct r1 as [[t response]|]; [|intros [= <- <-]; split_and!; (tauto || lia)].
    destruct (is_followable_redirect _); [|intros [= <- <-]; split_and!; (tauto || lia)].
    destruct (follow_redirect t response) as [next|] eqn:Hf;
      [|intros [= <- <-]; split_and!; (tauto || lia)].
    apply follow_redirect_ok in Hf as [Hnext Hscheme].
    destruct (fetch_loop web max left (S n) next (url_as_str u :: visited)) as [more r'] eqn:Hl.
    destruct (IH _ _ _ _ _ Hnext Hl) as (Hlen' & Hok' & Hnd' & Hs').
    intros [= <- <-]. rewrite (Hone _ _ eq_refl) in *. simpl.
    inversion Hurl as [|? ? Hu' _]; subst.
    split_and!; [lia|constructor; [by inversion Hok|done]|auto|done|].
    intros Hs. constructor; auto.
Qed.

(** C39: the fetch never leaves the policy. Whatever the DNS, the servers and the clock
    answer, every target it contacts is an http or https URL without credentials, on
    port 80 or 443, whose host is a public address or a non-local name that resolved
    to public addresses only, which are the ones connected to; at most six requests
    are sent; and after an https request no plain http request follows. *)
Theorem fetch_stays_public web input max sent r :
  fetch_public_text web input max = (sent, r) ->
  (length sent ≤ 6)%nat /\ Forall target_ok sent /\ no_downgrade sent.
Proof using UrlLaws0.
  unfold fetch_public_text. destruct (parse_public_web_url input) as [u|] eqn:Hu.
  - apply parse_public_web_url_ok in Hu. intros Hl.
    destruct (fetch_loop_ok _ _ _ _ _ _ _ _ Hu Hl) as (Hlen & Hok & Hnd & _).
    unfold MAX_REDIRECTS in Hlen. auto.
  - intros [= <- <-]. split_and!; [simpl; lia|constructor|done].
Qed.

Lemma fetch_loop_body web max left n u visited sent resp :
  fetch_loop web max left n u visited = (sent, Ok resp) ->
  exists m t response, web_send web m t (TOTAL_TIMEOUT - web_elapsed web m)%Z = Ok response
    /\ read_response max t response = Ok resp.
Proof.
  revert n u visited sent. induction left as [|left IH]; intros n u visited sent; simpl;
    unfold contact; repeat (case_bool_decide; [done|]);
    (destruct (resolve_public_target _ _ _) as [t|]; [|done]); simpl;
    (destruct (web_send web n t _) as [response|] eqn:Hs; [|done]); simpl;
    (destruct (is_followable_redirect _); [|intros [= _ Hr]; eauto]); [done|].
  destruct (follow_redirect t response) as [next|]; [|done].
  destruct (fetch_loop _ _ left _ _ _) as [more [x|]] eqn:Hl; [|done].
  intros [= _ <-]. eauto.
Qed.

(** the body is bounded and honest. A fetched body has at most the clamped number of
    bytes (never more than two mebibytes), is a prefix of what the server streamed,
    is the whole stream unless it is marked truncated, and its content type is text
    unless the answer had no content. *)
Theorem fetched_body_is_bounded_prefix web input max sent resp :
  fetch_public_text web input max = (sent, Ok resp) ->
  (Z.of_nat (length (final_body resp)) ≤ clamp 1024 MAX_TEXT_RESPONSE_BYTES max)%Z
  /\ (final_status resp ≠ 204%Z ->
      is_allowed_text_content_type (final_content_type resp) = true)
  /\ exists n t response, web_send web n t (TOTAL_TIMEOUT - web_elapsed web n)%Z = Ok response
      /\ final_body resp `prefix_of` stream_bytes (resp_stream response)
      /\ (final_truncated resp = false -> final_body resp = stream_bytes (resp_stream response)).
Proof.
  unfold fetch_public_text. destruct (parse_public_web_url input) as [u|]; [|done].
  intros (n & t & response & Hs & Hr)%fetch_loop_body. unfold read_response in Hr.
  destruct (is_redirection _); [done|].
  destruct (accept_content_type response) as [ct|] eqn:Hct; [|done]. simpl in Hr.
  destruct (read_body _ _ _ _) as [[body tr]|] eqn:Hb; [|done]. injection Hr as <-. simpl.
  apply read_body_spec in Hb as (Hlen & Hp & _ & Ht); [|simpl; lia]. split_and!.
  - unfold clamp in *. lia.
  - intros Hst. unfold accept_content_type in Hct. rewrite bool_decide_true in Hct by done.
    destruct (normalize_content_type <$> _) as [c|]; [|done].
    destruct (is_allowed_text_content_type c) eqn:Hc; [|done]. by injection Hct as <-.
  - exists n, t, response. by split_and!.
Qed.
End fetch_properties.

(** ** A toy url crate *)

(** URLs of the form scheme and host, everything else absent. *)
Definition ToyUrl : Type := (string * string)%type.

#[global] Instance toy_ops : UrlOps ToyUrl := {
  url_parse s := if starts_with "https://" s
                 then Ok ("https", String.substring 8 (String.length s - 8) s)
                 else Err "unsupported";
  url_as_str u := u.1 +:+ "://" +:+ u.2;
  url_scheme u := u.1;
  url_username _ := "";
  url_password _ := None;
  url_port_or_known_default _ := Some 443%Z;
  url_host u := Some (Domain u.2);
  url_clear_fragment u := u;
  url_join u location := Ok (u.1, location);
}.

#[global] Instance toy_laws : UrlLaws ToyUrl.
Proof. by split. Qed.

(** One redirect, then a short text. *)
Definition toy_web : Web (Url := ToyUrl) :=
  {| web_lookup := fun _ _ _ => Ok [V4 8 8 8 8];
     web_elapsed := fun n => Z.of_nat n;
     web_send := fun n _ _ =>
       Ok match n with
          | O => {| resp_status := 302; resp_location := Some (Some "b.example");
                    resp_content_type := None; resp_content_length := None; resp_stream := [] |}
          | _ => {| resp_status := 200; resp_location := None;
                    resp_content_type := Some "Text/HTML; charset=utf-8";
                    resp_content_length := None;
                    resp_stream := [Ok ["h"%char]; Ok ["i"%char]] |}
          end |}.

Definition toy_fetch := fetch_public_text toy_web "https://a.example" 0.

Lemma fetch_stays_public_witness :
  (length toy_fetch.1 ≤ 6)%nat /\ Forall target_ok toy_fetch.1 /\ no_downgrade toy_fetch.1.
Proof.
  apply (fetch_stays_public toy_web "https://a.example" 0 toy_fetch.1 toy_fetch.2).
  vm_compute. reflexivity.
Defined.

Definition toy_response : SafeTextResponse :=
  {| final_url := "https://b.example"; final_status := 200; final_content_type := "text/html";
     final_body := ["h"%char; "i"%char]; final_truncated := false |}.

Lemma fetched_body_is_bounded_prefix_witness :
  (Z.of_nat (length (final_body toy_response)) ≤ clamp 1024 MAX_TEXT_RESPONSE_BYTES 0)%Z
  /\ (final_status toy_response ≠ 204%Z ->
      is_allowed_text_content_type (final_content_type toy_response) = true)
  /\ exists n t response,
      web_send toy_web n t (TOTAL_TIMEOUT - web_elapsed toy_web n)%Z = Ok response
      /\ final_body toy_response `prefix_of` stream_bytes (resp_stream response)
      /\ (final_truncated toy_response = false
          -> final_body toy_response = stream_bytes (resp_stream response)).
Proof.
  apply (fetched_body_is_bounded_prefix toy_web "https://a.example" 0 toy_fetch.1).
  vm_compute. reflexivity.
Defined.
