(* ===== verification/AgentProperties.v ===== *)
(** * Properties of the agent runtime

    A small logic for programs of the trace monad: a monitor reads the actions of a
    program, and [drives] says which monitor states a program leads to. Three monitors
    follow the runtime's loop: the protocol of effects, the shape of the conversation
    sent to the model, and the tally of the tokens. *)

From S2P Require Import Prelude.
From S2P Require Import Json.
From S2P Require Import Contracts.
From S2P Require Import Demo.
From S2P Require Import AgentRuntime.
Import AgentRuntime.

(** ** Monitors *)

Section monitors.
Context {W : Type} `{RuntimeHost W, ModelEndpoint W, SerdeJson}.
Context {S : Type} (mstep : S -> Action -> S -> Prop).

Inductive mruns : S -> list Action -> S -> Prop :=
| mruns_nil s : mruns s [] s
| mruns_cons s s1 s2 a t : mstep s a s1 -> mruns s1 t s2 -> mruns s (a :: t) s2.

Lemma mruns_one s a s' : mstep s a s' -> mruns s [a] s'.
Proof. intros. eapply mruns_cons; [done|constructor]. Qed.

Lemma mruns_app s s1 s2 t t' : mruns s t s1 -> mruns s1 t' s2 -> mruns s (t ++ t') s2.
Proof. induction 1; simpl; [done|]. intros. econstructor; eauto. Qed.

(** Every run of the program is accepted, and ends as [Q] says. *)
Definition drives {A} (m : Agent A) (s : S) (Q : result AgentError A -> S -> Prop) : Prop :=
  forall w : W, exists s', mruns s (m w).1.2 s' /\ Q (m w).1.1 s'.

Lemma drives_ret {A} (a : A) s (Q : _ -> _ -> Prop) : Q (Ok a) s -> drives (mret a) s Q.
Proof. intros HQ w. exists s. split; [constructor|done]. Qed.

Lemma drives_fail {A} e s (Q : result AgentError A -> S -> Prop) :
  Q (Err e) s -> drives (agent_fail e) s Q.
Proof. intros HQ w. exists s. split; [constructor|done]. Qed.

Lemma drives_lift {A} (r : result AgentError A) s (Q : _ -> _ -> Prop) :
  Q r s -> drives (agent_lift r) s Q.
Proof. intros HQ w. exists s. split; [constructor|done]. Qed.

Lemma drives_mono {A} (m : Agent A) s (Q Q' : _ -> _ -> Prop) :
  drives m s Q -> (forall r s', Q r s' -> Q' r s') -> drives m s Q'.
Proof. intros Hm HQ w. destruct (Hm w) as (s' & ? & ?). eauto. Qed.

(** Sequencing: an error skips the rest. *)
Lemma drives_bind {A B} (f : A -> Agent B) (m : Agent A) s (Q : _ -> _ -> Prop) :
  drives m s (fun r s' => match r with
                          | Ok a => drives (f a) s' Q
                          | Err e => Q (Err e) s'
                          end) ->
  drives (m ≫= f) s Q.
Proof.
  intros Hm w. unfold mbind, agent_bind. destruct (Hm w) as (s1 & Hr & HQ).
  destruct (m w) as [[[a|e] t] w']; simpl in *; [|by exists s1].
  destruct (HQ w') as (s2 & Hr2 & HQ2). destruct (f a w') as [[r t'] w'']; simpl in *.
  exists s2. split; [by eapply mruns_app|done].
Qed.

Lemma drives_emit kind payload s s' (Q : _ -> _ -> Prop) :
  mstep s (Emit kind payload) s' -> Q (Ok tt) s' ->
  (forall e, Q (Err (HostFailed e)) s') -> drives (emit kind payload) s Q.
Proof.
  intros Hs Hok Herr w. exists s'. unfold emit.
  destruct (host_emit kind payload w) as [[[]|e] w']; simpl; split; auto using mruns_one.
Qed.

Lemma drives_checkpoint st safe s s' (Q : _ -> _ -> Prop) :
  mstep s (Checkpoint st safe) s' -> Q (Ok tt) s' ->
  (forall e, Q (Err (HostFailed e)) s') -> drives (checkpoint st safe) s Q.
Proof.
  intros Hs Hok Herr w. exists s'. unfold checkpoint.
  destruct (host_checkpoint st safe w) as [[[]|e] w']; simpl; split; auto using mruns_one.
Qed.

Lemma drives_execute_tool invocation s (Q : _ -> _ -> Prop) :
  (forall output, exists s', mstep s (RunTool invocation output) s' /\ Q (Ok output) s') ->
  drives (execute_tool invocation) s Q.
Proof.
  intros Hs w. unfold execute_tool. destruct (host_execute_tool invocation w) as [r w']; simpl.
  match goal with |- context [RunTool _ ?o] => destruct (Hs o) as (s' & ? & ?) end.
  exists s'. auto using mruns_one.
Qed.

(** An execution is monitored when its loop is. *)
Lemma execute_monitored config run w s (Q : _ -> _ -> Prop) :
  (forall e, validate_tools (host_tools w) = Err e -> Q (Err e) s) ->
  drives (run_steps config (host_tools w) (cfg_max_steps config) 1 (initial_messages run) 0 0)
    s Q ->
  exists s', mruns s (execute config run w).1.2 s' /\ Q (execute config run w).1.1 s'.
Proof.
  intros Herr Hloop. unfold execute.
  pose (f := fun _ : unit => run_steps config (host_tools w) (cfg_max_steps config) 1
                               (initial_messages run) 0 0).
  apply (drives_bind f (agent_lift (validate_tools (host_tools w))) s Q).
  apply drives_lift. destruct (validate_tools (host_tools w)) as [[]|e]; auto.
Qed.

(** The request one step sends. *)
Definition request_of (config : ModelConfig) (messages : list ModelMessage)
    (tools : list ToolDefinition) : ChatCompletionRequest :=
  {| ccr_model := cfg_model config; ccr_messages := messages;
     ccr_tools := openai_tool <$> tools;
     ccr_tool_choice := match tools with [] => None | _ => Some "auto" end |}.

Definition decodes (answer : result AgentError ChatCompletionResponse) : Prop :=
  match answer with
  | Ok response => exists bytes, from_slice_completion bytes = Ok response
  | Err (UnsafeTool _) => False
  | Err _ => True
  end.

Lemma decode_response_decodes r : decodes (decode_response r).
Proof.
  unfold decode_response. destruct r as [response|]; simpl; [|done].
  destruct (match hr_content_length response with Some _ => _ | None => _ end); simpl; [done|].
  destruct (hr_bytes response) as [bytes|]; simpl; [|done].
  destruct (bool_decide _); simpl; [done|]. destruct (negb _); simpl; [done|].
  destruct (from_slice_completion bytes) eqn:E; simpl; eauto.
Qed.

Lemma drives_complete config messages tools s (Q : _ -> _ -> Prop) :
  (forall answer, decodes answer ->
    exists s', mstep s (CallModel (request_of config messages tools) answer) s'
               /\ Q answer s') ->
  drives (complete config messages tools) s Q.
Proof.
  intros Hs w. unfold complete. destruct (http_post _ _ _ w) as [r w']; simpl.
  destruct (Hs (decode_response r) (decode_response_decodes r)) as (s' & ? & ?).
  exists s'. auto using mruns_one.
Qed.
End monitors.

(** ** The protocol of effects *)

(** Where the runtime is: before or between calls, waiting for the model, having its
    answer, having announced or run a tool, having reported its output, and stopped. *)
Inductive Phase : Type :=
| Ready
| Asking
| Answered
| Refused
| Announced (invocation : ToolInvocation)
| Ran (invocation : ToolInvocation) (output : ToolOutput)
| Reported (output : ToolOutput)
| Stopped.

Inductive protocol (config : ModelConfig) (tools : list ToolDefinition)
    : nat * Phase -> Action -> nat * Phase -> Prop :=
| pr_start n payload :
    (n < cfg_max_steps config)%nat ->
    get "step" payload = Some (jint (Z.of_nat (S n))) ->
    protocol config tools (n, Ready) (Emit EvModelStarted payload) (n, Asking)
| pr_call n request response :
    ccr_model request = cfg_model config -> ccr_tools request = openai_tool <$> tools ->
    protocol config tools (n, Asking) (CallModel request (Ok response)) (S n, Answered)
| pr_refused n request e :
    protocol config tools (n, Asking) (CallModel request (Err e)) (S n, Refused)
| pr_answer n payload :
    protocol config tools (n, Answered) (Emit EvModelCompleted payload) (n, Ready)
| pr_announce n payload invocation definition :
    (1 ≤ n)%nat -> definition ∈ tools -> tool_name definition = inv_name invocation ->
    is_object (inv_arguments invocation) = true ->
    get "tool_call_id" payload = Some (JString (inv_id invocation)) ->
    get "tool" payload = Some (JString (inv_name invocation)) ->
    get "arguments" payload = Some (inv_arguments invocation) ->
    get "mutating" payload = Some (JBool (tool_mutating definition)) ->
    protocol config tools (n, Ready) (Emit EvToolStarted payload) (n, Announced invocation)
| pr_run n invocation output :
    protocol config tools (n, Announced invocation) (RunTool invocation output)
      (n, Ran invocation output)
| pr_report n invocation output payload :
    get "tool_call_id" payload = Some (JString (inv_id invocation)) ->
    get "safe_to_resume" payload = Some (JBool (to_safe_to_resume output)) ->
    protocol config tools (n, Ran invocation output)
      (Emit (if to_is_error output then EvToolFailed else EvToolCompleted) payload)
      (n, Reported output)
| pr_checkpoint n output state :
    get "step" state = Some (jint (Z.of_nat n)) ->
    protocol config tools (n, Reported output) (Checkpoint state (to_safe_to_resume output))
      (n, if to_safe_to_resume output then Ready else Stopped).

Lemma advertised_Some tools name d :
  advertised tools name = Some d -> d ∈ tools /\ tool_name d = name.
Proof.
  unfold advertised. intros [Hin Heq]%find_some. split; [|by apply String.eqb_eq].
  apply list_elem_of_In. by apply in_rev.
Qed.

Section protocol.
Context {W : Type} `{RuntimeHost W, ModelEndpoint W, SerdeJson}.
Context (config : ModelConfig) (tools : list ToolDefinition).

Local Abbreviation follows m s Q := (drives (W := W) (protocol config tools) m s Q).

Lemma parse_arguments_object text : is_object (parse_arguments text) = true.
Proof. unfold parse_arguments. by repeat case_match. Qed.

(** A part of the loop that starts and ends between calls, after [n] model calls. *)
Definition between {A} (n : nat) (r : result AgentError A) (s : nat * Phase) : Prop :=
  match r with
  | Ok _ => s = (n, Ready)
  | Err (UnsafeTool _) => s = (n, Stopped)
  | Err _ => s.1 = n
  end.

Lemma invoke_follows n messages call d :
  (1 ≤ n)%nat -> advertised tools (fc_name (tc_function call)) = Some d ->
  follows (invoke n messages call d) (n, Ready) (between n).
Proof.
  intros Hn [Hin Hname]%advertised_Some. unfold invoke.
  apply drives_bind. eapply drives_emit.
  { eapply (pr_announce _ _ n _ {| inv_id := tc_id call; inv_name := fc_name (tc_function call);
      inv_arguments := parse_arguments (fc_arguments (tc_function call)) |} d);
      simpl; auto using parse_arguments_object; by rewrite ?Hname. }
  2: by intros e.
  apply drives_bind, drives_execute_tool. intros output. eexists; split; [constructor|].
  apply drives_bind. eapply drives_emit; [by constructor| |by intros e].
  apply drives_bind. eapply drives_checkpoint; [by constructor| |by intros e].
  destruct (to_safe_to_resume output); simpl; [by apply drives_ret|by apply drives_fail].
Qed.

Lemma run_calls_follows n calls : forall messages, (1 ≤ n)%nat ->
  follows (run_calls tools n messages calls) (n, Ready) (between n).
Proof.
  induction calls as [|call calls IH]; intros messages Hn; simpl; [by apply drives_ret|].
  destruct (advertised _ _) as [d|] eqn:Had; [|by apply IH].
  apply drives_bind. eapply drives_mono; [by apply invoke_follows|].
  intros [m|e] s; simpl; [intros ->; by apply IH|done].
Qed.

Lemma ask_model_follows n messages :
  (n < cfg_max_steps config)%nat ->
  follows (ask_model config tools (S n) messages) (n, Ready)
    (fun r s => match r with
                | Ok _ => s = (S n, Ready)
                | Err (UnsafeTool _) => False
                | Err _ => s.1 = n \/ s.1 = S n
                end).
Proof.
  intros Hn. unfold ask_model. apply drives_bind.
  eapply drives_emit; [by apply pr_start| |simpl; auto].
  apply drives_bind, drives_complete. intros [response|e] Hdec; simpl.
  - eexists; split; [by apply pr_call|]. apply drives_bind, drives_lift.
    destruct (head (cc_choices response)) as [choice|]; simpl; [|auto].
    apply drives_bind. eapply drives_emit; [by constructor| |simpl; auto].
    by apply drives_ret.
  - eexists; split; [by apply pr_refused|]. destruct e; simpl in *; auto.
Qed.
End protocol.

Section protocol_theorem.
Context {W : Type} `{RuntimeHost W, ModelEndpoint W, SerdeJson}.

(** How a whole execution ends. *)
Definition ends (config : ModelConfig) (r : result AgentError AgentResult)
    (s : nat * Phase) : Prop :=
  (s.1 ≤ cfg_max_steps config)%nat /\
  match r with
  | Ok answer => s = (ar_steps answer, Ready)
  | Err (UnsafeTool _) => s.2 = Stopped
  | Err _ => True
  end.

Lemma run_steps_follows config tools left : forall n messages p c,
  (n + left)%nat = cfg_max_steps config ->
  drives (W := W) (protocol config tools) (run_steps config tools left (S n) messages p c)
    (n, Ready) (ends config).
Proof.
  induction left as [|left IH]; intros n messages p c Hn; simpl.
  { apply drives_fail. split; simpl; [lia|done]. }
  apply drives_bind. eapply drives_mono; [apply ask_model_follows; lia|].
  intros [[choice usage]|e] s; simpl.
  2: { destruct e; try done; intros [Hs|Hs]; split; simpl; (lia || done). }
  intros ->. destruct (rm_tool_calls (ch_message choice)) as [|call calls].
  { apply drives_ret. split; simpl; [lia|done]. }
  apply drives_bind. eapply drives_mono; [apply run_calls_follows; lia|].
  intros [messages'|e] s; simpl; [intros ->; apply IH; lia|].
  destruct e; intros Hs; subst; split; simpl; (lia || done).
Qed.

Lemma validate_tools_error tools e :
  validate_tools tools = Err e -> exists name,
    e = InvalidToolName name \/ e = DuplicateToolName name \/ e = SchemaNotObject name.
Proof.
  unfold validate_tools. generalize (@nil string).
  induction tools as [|t ts IH]; intros names; simpl; [done|].
  repeat case_match; try (apply IH); intros [= <-]; eauto.
Qed.

(** C5: the runtime keeps to its protocol, whatever the host, the model and the parser
    do. It announces a model step before asking the model, asks at most the configured
    number of times, runs a tool only after announcing it, only when the host advertised
    it and with an object as its arguments, reports the output of every tool it ran
    before the next action and writes a checkpoint that carries the tool's own flag;
    after a checkpoint that is not safe to resume it does nothing more and does not
    return an answer. An answer counts the model calls that were made. *)
Theorem execute_follows_protocol config run (w : W) :
  let r := (execute config run w).1.1 in
  let trace := (execute config run w).1.2 in
  exists s, mruns (protocol config (host_tools w)) (0%nat, Ready) trace s
    /\ ends config r s
    /\ (s.2 = Stopped -> forall answer, r ≠ Ok answer).
Proof.
  destruct (execute_monitored (protocol config (host_tools w)) config run w (0%nat, Ready)
    (ends config)) as (s & Hruns & Hends).
  - intros e He. split; simpl; [lia|].
    apply validate_tools_error in He as (name & [He | [He | He]]); by subst.
  - by apply run_steps_follows.
  - exists s. split_and!; [done|done|]. intros Hs answer Hr. rewrite Hr in Hends.
    destruct Hends as [_ ->]. done.
Qed.
End protocol_theorem.

(** ** The conversation *)

(** A tool message that answers a call. *)
Definition answers (call : ModelToolCall) (m : ModelMessage) : Prop :=
  mm_role m = "tool" /\ mm_tool_call_id m = Some (tc_id call) /\ mm_tool_calls m = [].

(** Conversations in which every assistant message that calls tools is directly followed
    by one tool message for each of its calls, in their order, and tool messages appear
    nowhere else: the form chat completion endpoints require. *)
Inductive answered : list ModelMessage -> Prop :=
| ans_nil : answered []
| ans_plain m l :
    mm_tool_calls m = [] -> mm_tool_call_id m = None -> answered l -> answered (m :: l)
| ans_calls m results l :
    mm_role m = "assistant" -> mm_tool_call_id m = None ->
    Forall2 answers (mm_tool_calls m) results -> answered l -> answered (m :: results ++ l).

Lemma answered_app l l' : answered l -> answered l' -> answered (l ++ l').
Proof.
  intros Hl Hl'. induction Hl; simpl; [done|by constructor|].
  rewrite <- app_assoc. by constructor.
Qed.

(** The monitor: each request carries a well-formed conversation that extends the one
    before it. *)
Inductive conversation : list ModelMessage -> Action -> list ModelMessage -> Prop :=
| conv_call sent request answer :
    answered (ccr_messages request) -> sent `prefix_of` ccr_messages request ->
    conversation sent (CallModel request answer) (ccr_messages request)
| conv_emit sent kind payload : conversation sent (Emit kind payload) sent
| conv_tool sent invocation output : conversation sent (RunTool invocation output) sent
| conv_checkpoint sent state safe : conversation sent (Checkpoint state safe) sent.

Section conversation.
Context {W : Type} `{RuntimeHost W, ModelEndpoint W, SerdeJson}.

Local Abbreviation converses m s Q := (drives (W := W) conversation m s Q).

Lemma history_message_plain item m :
  history_message item = Some m -> mm_tool_calls m = [] /\ mm_tool_call_id m = None.
Proof.
  unfold history_message. destruct (get_str "role" item) as [role|]; simpl; [|done].
  destruct (get_str "content" item) as [content|]; simpl; [|done].
  repeat case_match; intros [= <-]; done.
Qed.

Lemma initial_messages_answered run : answered (initial_messages run).
Proof.
  unfold initial_messages. apply answered_app; [by repeat constructor|].
  apply answered_app; [case_match; by repeat constructor|].
  apply answered_app; [|by repeat constructor].
  induction (from_option id [] (get_array "messages" (spec_input run))) as [|item l IH];
    [constructor|].
  simpl. destruct (history_message item) as [m|] eqn:Hm; [|done].
  apply history_message_plain in Hm as [? ?]. by constructor.
Qed.

(** Running the calls appends one answer for each. *)
Definition extended (messages : list ModelMessage) (calls : list ModelToolCall)
    (sent : list ModelMessage) (r : result AgentError (list ModelMessage))
    (s : list ModelMessage) : Prop :=
  s = sent /\ match r with
              | Ok messages' => exists results, messages' = messages ++ results
                                                /\ Forall2 answers calls results
              | Err _ => True
              end.

Lemma invoke_converses n messages call d sent :
  converses (invoke n messages call d) sent (extended messages [call] sent).
Proof.
  unfold invoke. apply drives_bind. eapply drives_emit; [constructor| |by intros e].
  apply drives_bind, drives_execute_tool. intros output. eexists; split; [constructor|].
  apply drives_bind. eapply drives_emit; [constructor| |by intros e].
  apply drives_bind. eapply drives_checkpoint; [constructor| |by intros e].
  destruct (to_safe_to_resume output); simpl; [apply drives_ret|by apply drives_fail].
  split; [done|]. eexists; split; [done|]. by repeat constructor.
Qed.

Lemma run_calls_converses tools n sent calls : forall messages,
  converses (run_calls tools n messages calls) sent (extended messages calls sent).
Proof.
  induction calls as [|call calls IH]; intros messages; simpl.
  { apply drives_ret. split; [done|]. exists []. split; [by rewrite app_nil_r|constructor]. }
  assert (forall m r s, answers call m -> extended (messages ++ [m]) calls sent r s ->
    extended messages (call :: calls) sent r s) as Hcons.
  { intros m [l|e] s Hm [-> Hr]; split; try done. destruct Hr as (results & -> & Hres).
    exists (m :: results). split; [by rewrite <- app_assoc|by constructor]. }
  destruct (advertised _ _) as [d|].
  - apply drives_bind. eapply drives_mono; [apply invoke_converses|].
    intros [messages'|e] s [-> Hr]; [|by split]. destruct Hr as (results & -> & Hres).
    inversion Hres as [|? m ? ? Hm Hnil]; subst. inversion Hnil; subst.
    eapply drives_mono; [apply IH|]. intros r s. by apply Hcons.
  - eapply drives_mono; [apply IH|]. intros r s. by apply Hcons.
Qed.

Lemma ask_model_converses config tools n messages sent :
  answered messages -> sent `prefix_of` messages ->
  converses (ask_model config tools n messages) sent
    (fun r s => match r with Ok _ => s = messages | Err _ => True end).
Proof.
  intros Ha Hp. unfold ask_model. apply drives_bind.
  eapply drives_emit; [constructor| |done].
  apply drives_bind, drives_complete. intros [response|e] _.
  - eexists; split; [by constructor|]. apply drives_bind, drives_lift.
    destruct (head (cc_choices response)) as [choice|]; simpl; [|done].
    apply drives_bind. eapply drives_emit; [constructor| |done]. by apply drives_ret.
  - eexists; split; [by constructor|done].
Qed.

Lemma run_steps_converses config tools left : forall step messages sent p c,
  answered messages -> sent `prefix_of` messages ->
  converses (run_steps config tools left step messages p c) sent (fun _ _ => True).
Proof.
  induction left as [|left IH]; intros step messages sent p c Ha Hp; simpl;
    [by apply drives_fail|].
  apply drives_bind. eapply drives_mono; [by apply ask_model_converses|].
  intros [[choice usage]|e] s; [|done]. intros ->. simpl.
  destruct (rm_tool_calls (ch_message choice)) as [|call calls] eqn:Hcalls;
    [by apply drives_ret|].
  apply drives_bind. eapply drives_mono; [apply run_calls_converses|].
  intros [messages'|e] s; [|done]. intros (-> & results & -> & Hres).
  apply IH.
  - rewrite <- app_assoc. apply answered_app; [done|].
    rewrite <- (app_nil_r results). apply (ans_calls _ results []); [done|done|done|constructor].
  - rewrite <- app_assoc. by apply prefix_app_r.
Qed.

(** every conversation sent to the model is well formed. Each request repeats the
    conversation of the request before it (the first one starts with the run's initial
    messages) and only appends to it, and in every request each tool call of an assistant
    message is answered by exactly one tool message with the call's identifier, directly
    after it and in the order of the calls, also for tools the model made up. *)
Theorem conversations_are_answered config run (w : W) :
  exists last, mruns conversation (initial_messages run) (execute config run w).1.2 last.
Proof.
  destruct (execute_monitored conversation config run w (initial_messages run)
    (fun _ _ => True)) as (last & Hruns & _); [done| |by exists last].
  apply run_steps_converses; [apply initial_messages_answered|done].
Qed.
End conversation.

(** ** The tally of tokens *)

(** serde_json reads the two counters of a completion into unsigned 64-bit integers. *)
Class SerdeLaws `{SerdeJson} : Prop := {
  usage_in_u64 bytes response :
    from_slice_completion bytes = Ok response ->
    in_u64 (us_prompt_tokens (cc_usage response)) = true
    /\ in_u64 (us_completion_tokens (cc_usage response)) = true;
}.

(** What the model answered in a trace: the tokens in all, without a bound, and the first
    choice of the last answer. *)
Record Tally := {
  ta_prompt : Z;
  ta_completion : Z;
  ta_last : option ChatChoice;
}.

Definition tally (t : Tally) (a : Action) : Tally :=
  match a with
  | CallModel _ (Ok response) =>
      {| ta_prompt := ta_prompt t + us_prompt_tokens (cc_usage response);
         ta_completion := ta_completion t + us_completion_tokens (cc_usage response);
         ta_last := head (cc_choices response) |}
  | _ => t
  end.

Definition no_answers : Tally := {| ta_prompt := 0; ta_completion := 0; ta_last := None |}.

Definition tallies (t : Tally) (a : Action) (t' : Tally) : Prop := t' = tally t a.

Lemma mruns_tallies t trace t' : mruns tallies t trace t' -> t' = foldl tally t trace.
Proof. induction 1 as [|s s1 s2 a trace Hs _ IH]; simpl; [done|]. by rewrite <- Hs. Qed.

Section tally.
Context {W : Type} `{RuntimeHost W, ModelEndpoint W} `{SJ : SerdeJson} `{!SerdeLaws}.

Local Abbreviation counts m s Q := (drives (W := W) tallies m s Q).

Lemma invoke_counts n messages call d t :
  counts (invoke n messages call d) t (fun _ t' => t' = t).
Proof.
  unfold invoke. apply drives_bind. eapply drives_emit; [done| |done].
  apply drives_bind, drives_execute_tool. intros output. eexists; split; [done|].
  apply drives_bind. eapply drives_emit; [done| |done].
  apply drives_bind. eapply drives_checkpoint; [done| |done].
  destruct (to_safe_to_resume output); simpl; [by apply drives_ret|by apply drives_fail].
Qed.

Lemma run_calls_counts tools n t calls : forall messages,
  counts (run_calls tools n messages calls) t (fun _ t' => t' = t).
Proof.
  induction calls as [|call calls IH]; intros messages; simpl; [by apply drives_ret|].
  destruct (advertised _ _) as [d|]; [|apply IH].
  apply drives_bind. eapply drives_mono; [apply invoke_counts|].
  intros [messages'|e] s ->; [apply IH|done].
Qed.

Lemma ask_model_counts config tools n messages t :
  counts (ask_model config tools n messages) t
    (fun r t' => match r with
                 | Ok (choice, usage) =>
                     in_u64 (us_prompt_tokens usage) = true
                     /\ in_u64 (us_completion_tokens usage) = true
                     /\ t' = {| ta_prompt := ta_prompt t + us_prompt_tokens usage;
                                ta_completion := ta_completion t + us_completion_tokens usage;
                                ta_last := Some choice |}
                 | Err _ => True
                 end).
Proof.
  unfold ask_model. apply drives_bind. eapply drives_emit; [done| |done].
  apply drives_bind, drives_complete. intros [response|e] Hdec; [|eexists; split; done].
  destruct Hdec as [bytes Hbytes%usage_in_u64].
  eexists; split; [done|]. apply drives_bind, drives_lift. simpl.
  destruct (head (cc_choices response)) as [choice|]; simpl; [|done].
  apply drives_bind. eapply drives_emit; [done| |done]. apply drives_ret.
  destruct Hbytes. by split_and!.
Qed.

(** The counters are the tally, cut off at the largest u64. *)
Definition counted_to (t : Tally) (p c : Z) : Prop :=
  p = Z.min u64_max (ta_prompt t) /\ c = Z.min u64_max (ta_completion t)
  /\ (0 ≤ ta_prompt t)%Z /\ (0 ≤ ta_completion t)%Z.

Definition accounted (r : result AgentError AgentResult) (t : Tally) : Prop :=
  match r with
  | Ok answer =>
      counted_to t (ar_prompt_tokens answer) (ar_completion_tokens answer)
      /\ exists choice, ta_last t = Some choice
         /\ rm_tool_calls (ch_message choice) = []
         /\ ar_content answer = text_content (ch_message choice)
  | Err _ => True
  end.

Lemma sat_add_tally a b : in_u64 b = true -> (0 ≤ a)%Z ->
  sat_add_u64 (Z.min u64_max a) b = Z.min u64_max (a + b) /\ (0 ≤ a + b)%Z.
Proof. unfold sat_add_u64, in_u64, u64_max. intros Hb%bool_decide_eq_true. lia. Qed.

Lemma run_steps_counts config tools left : forall step messages t p c,
  counted_to t p c ->
  counts (run_steps config tools left step messages p c) t accounted.
Proof.
  induction left as [|left IH]; intros step messages t p c (-> & -> & Hp & Hc); simpl;
    [by apply drives_fail|].
  apply drives_bind. eapply drives_mono; [apply ask_model_counts|].
  intros [[choice usage]|e] t'; [|done]. intros (Hpu & Hcu & ->). simpl.
  destruct (sat_add_tally _ _ Hpu Hp) as [-> Hp'], (sat_add_tally _ _ Hcu Hc) as [-> Hc'].
  destruct (rm_tool_calls (ch_message choice)) as [|call calls] eqn:Hcalls.
  { apply drives_ret. split; [done|]. by exists choice. }
  apply drives_bind. eapply drives_mono; [apply run_calls_counts|].
  intros [messages'|e] t' ->; [by apply IH|done].
Qed.

(** an answer accounts for the whole run. The tokens it reports are the tokens of all
    the model's answers together, cut off at the largest u64, and its text is the text of
    the last answer, which asked for no tools. *)
Theorem answer_accounts_for_trace config run (w : W) answer :
  (execute config run w).1.1 = Ok answer ->
  let t := foldl tally no_answers (execute config run w).1.2 in
  ar_prompt_tokens answer = Z.min u64_max (ta_prompt t)
  /\ ar_completion_tokens answer = Z.min u64_max (ta_completion t)
  /\ exists choice, ta_last t = Some choice /\ rm_tool_calls (ch_message choice) = []
       /\ ar_content answer = text_content (ch_message choice).
Proof.
  intros Hr. destruct (execute_monitored tallies config run w no_answers
    accounted) as (t & Hruns & Hq); [done|by apply run_steps_counts|].
  apply mruns_tallies in Hruns as ->. rewrite Hr in Hq.
  destruct Hq as ((Hp & Hc & _) & Hlast). by split_and!.
Qed.
End tally.

(** ** A scripted world

    The world is the script of what the model answers, one character for each call: [r]
    calls a tool that can be read again, [u] one whose outcome is uncertain, [x] a tool
    nobody advertised, and [d] is the final answer. *)
Module Scripted.

Definition tool_named (name : string) : ToolDefinition :=
  {| tool_name := name; tool_description := name; tool_input_schema := JObject [];
     tool_required_capability := None; tool_mutating := String.eqb name "Unsafe" |}.

#[global] Instance host : RuntimeHost string := {|
  host_tools _ := [tool_named "Read"; tool_named "Unsafe"];
  host_emit _ _ w := (Ok tt, w);
  host_execute_tool invocation w :=
    (Ok {| to_content := "output"; to_is_error := false;
           to_safe_to_resume := String.eqb (inv_name invocation) "Read";
           to_metadata := JNull |}, w);
  host_checkpoint _ _ w := (Ok tt, w);
|}.

#[global] Instance endpoint : ModelEndpoint string := {|
  http_post _ _ _ w :=
    match w with
    | EmptyString => (Err "connection refused", w)
    | String c w' => (Ok {| hr_status := 200; hr_content_length := None; hr_bytes := Ok [c] |}, w')
    end;
|}.

Definition calls (names : list string) : result string ChatCompletionResponse :=
  Ok {| cc_choices := [{| ch_message :=
          {| rm_content := Some (JString "text");
             rm_tool_calls := (fun name => {| tc_id := "call-" +:+ name; tc_type := "function";
               tc_function := {| fc_name := name; fc_arguments := "{}" |} |}) <$> names |};
          ch_finish_reason := None |}];
        cc_usage := {| us_prompt_tokens := 5; us_completion_tokens := 2 |} |}.

#[global] Instance serde : SerdeJson := {|
  from_str_value _ := Ok (JObject []);
  from_slice_completion bytes :=
    match bytes with
    | ["r"%char] => calls ["Read"]
    | ["u"%char] => calls ["Unsafe"; "Read"]
    | ["x"%char] => calls ["Made_up"]
    | ["d"%char] => calls []
    | _ => Err "expected value"
    end;
  print_f64 _ := "0.5";
|}.

#[global] Instance laws : SerdeLaws.
Proof.
  split. intros bytes response Hr.
  assert (exists names, calls names = Ok response) as [names Hn].
  { revert Hr. simpl. repeat case_match; subst; eauto; discriminate. }
  injection Hn as <-. split; reflexivity.
Qed.

Definition config : ModelConfig :=
  {| cfg_base_url := "https://models.example.test/v1/"; cfg_api_key := None;
     cfg_model := "test-model"; cfg_timeout := 5000; cfg_max_steps := 3;
     cfg_verify_tls_certificates := true |}.

(** The actions of a trace by their kind, with the flags of the checkpoints. *)
Definition summary (trace : list Action) : list string :=
  (fun a => match a with
            | Emit kind _ => event_kind_name kind
            | CallModel _ _ => "call"
            | RunTool invocation _ => "run " +:+ inv_name invocation
            | Checkpoint _ safe => if safe then "safe" else "unsafe"
            end) <$> trace.
End Scripted.

Definition scripted_run (script : string) : result AgentError AgentResult * list Action * string :=
  execute Scripted.config (demo_spec 100 "a" server_target) script.

(** After a tool whose outcome is uncertain nothing more is done: the second call of the
    same answer is not made, and the model is not asked again. *)
Example uncertain_tool_stops :
  (scripted_run "rud").1.1 = Err (UnsafeTool "Unsafe")
  /\ Scripted.summary (scripted_run "rud").1.2
     = ["model_started"; "call"; "model_completed"; "tool_started"; "run Read";
        "tool_completed"; "safe"; "model_started"; "call"; "model_completed"; "tool_started";
        "run Unsafe"; "tool_completed"; "unsafe"].
Proof. split; vm_compute; reflexivity. Qed.

(** A made-up tool is answered without running anything, and the steps run out. *)
Example steps_run_out :
  (scripted_run "xxxd").1.1 = Err (TooManySteps 3)
  /\ Scripted.summary (scripted_run "xxxd").1.2
     = ["model_started"; "call"; "model_completed"; "model_started"; "call"; "model_completed";
        "model_started"; "call"; "model_completed"].
Proof. split; vm_compute; reflexivity. Qed.

Lemma answer_accounts_for_trace_witness :
  exists answer, (scripted_run "rd").1.1 = Ok answer
    /\ ar_prompt_tokens answer
       = Z.min u64_max (ta_prompt (foldl tally no_answers (scripted_run "rd").1.2))
    /\ ar_prompt_tokens answer = 10%Z.
Proof.
  eexists. split; [vm_compute; reflexivity|]. split; [|reflexivity].
  refine (proj1 (answer_accounts_for_trace Scripted.config
    (demo_spec 100 "a" server_target) "rd" _ _)).
  vm_compute. reflexivity.
Defined.
