(* ===== verification/Crew.v ===== *)
(** * Crew requests (crates/cowork-runtime/src/crew.rs)

    How a frozen crew definition becomes the request of the pinned Python runtime: which
    tools an agent may use with an executor's capabilities, which capabilities a crew
    needs, and the rewriting of agents, tasks and provider settings. *)

From S2P Require Import Prelude.
From S2P Require Import Json.
From S2P Require Import Contracts.
From S2P Require Import AgentRuntime.
Import AgentRuntime(newline, frozen_runtime_context_text).

Module Crew.

Record CrewModelConfig := {
  cm_base_url : string;
  cm_api_key : option string;
  cm_model : string;
  cm_timeout_millis : Z;
  cm_verify_tls_certificates : bool;
}.

(** The error messages, with what they print. *)
Inductive CrewError : Type :=
| ToolNeedsCapability (tool required : string)
| NoAgents
| AgentNotObject
| ToolsNotArray
| TooManyTools
| BadToolName
| UnsupportedTool (tool : string)
| NotObject
| RequiresKey (key : string)
| KeyTooLong (key : string)
| ProfileNotResolved (profile_id : string)
| NoEnabledAgents
| NoTasks
| TaskNotObject
| NoAssignedTasks
| SelectionNotObject
| BackendUnavailable (backend : string)
| SelectedModelTooLong.

Definition crew_protocol_run_event_kind (event : Value) : RunEventKind :=
  match get_str "localAiCoworkEvent" event with
  | Some kind => if String.eqb kind "tool_started" then EvToolStarted
                 else if String.eqb kind "tool_completed" then EvToolCompleted
                 else EvModelDelta
  | None => EvModelDelta
  end.

(** ** Tools and capabilities *)

Definition canonical_crew_tool_id (value : string) : string :=
  let normalized := replace_char "-" "_" (to_ascii_lowercase (trim value)) in
  if str_mem normalized ["shell"; "bashtool"] then "bash"
  else if str_mem normalized ["read"; "filereadtool"] then "read_file"
  else if str_mem normalized ["edit"; "write"; "fileedittool"] then "edit_file"
  else if String.eqb normalized "webfetch" then "web_fetch"
  else if String.eqb normalized "websearch" then "web_search"
  else if String.eqb normalized "mcp_call" then "mcp"
  else if str_mem normalized ["generate_office_workflow"; "pptx_template_workflow";
                              "docx_template_workflow"] then "office_workflow"
  else if str_mem normalized ["microsoftoffice"; "office_microsoft"] then "microsoft_office"
  else normalized.

Definition crew_tool_capability (tool : string) : result CrewError (option string) :=
  if str_mem tool ["todo"; "delegate_task"; "mcp"] then Ok None
  else if str_mem tool ["read_file"; "edit_file"; "create_directory"; "move_path"; "copy_path";
                        "glob"; "grep"] then Ok (Some "files")
  else if String.eqb tool "bash" then Ok (Some "shell")
  else if str_mem tool ["web_fetch"; "web_search"] then Ok (Some "web.fetch")
  else if String.eqb tool "office_workflow" then Ok (Some "office.ooxml")
  else if String.eqb tool "microsoft_office" then Ok (Some "office.microsoft")
  else Err (UnsupportedTool tool).

Definition tool_id (value : Value) : result CrewError string :=
  match as_str value with
  | Some s =>
      let tool := canonical_crew_tool_id s in
      if negb (str_is_empty tool) && bool_decide (str_len tool ≤ 100)%Z then Ok tool
      else Err BadToolName
  | None => Err BadToolName
  end.

(** The loop; [result] holds the tools seen so far, in order. *)
Fixpoint collect_tools (result : list string) (tools : list Value)
    : Prelude.result CrewError (list string) :=
  match tools with
  | [] => Ok result
  | value :: rest =>
      tool ← tool_id value;
      collect_tools (if str_mem tool result then result else result ++ [tool]) rest
  end.

Definition crew_agent_tool_ids (agent : Map) : result CrewError (list string) :=
  match map_get "tools" agent with
  | None => Ok []
  | Some tools =>
      tools ← ok_or ToolsNotArray (as_array tools);
      if (64 <? length tools)%nat then Err TooManyTools else collect_tools [] tools
  end.

Fixpoint allow_tools (has_capability : string -> bool) (tools : list string)
    : result CrewError (list string) :=
  match tools with
  | [] => Ok []
  | tool :: rest =>
      if str_mem tool ["delegate_task"; "mcp"] then allow_tools has_capability rest
      else
        required ← crew_tool_capability tool;
        _ ← guard_err (match required with
                       | Some c => negb (has_capability c)
                       | None => false
                       end)
              (ToolNeedsCapability tool (from_option id "" required));
        allowed ← allow_tools has_capability rest;
        Ok (tool :: allowed)
  end.

(** The agent with delegation turned off, and the tools it may use. *)
Definition apply_crew_agent_tool_policy (agent : Map) (has_capability : string -> bool)
    : Map * result CrewError (list string) :=
  let agent := map_insert "allowDelegation" (JBool false) agent in
  (agent, tools ← crew_agent_tool_ids agent; allow_tools has_capability tools).

Fixpoint add_capabilities (required : list string) (tools : list string)
    : result CrewError (list string) :=
  match tools with
  | [] => Ok required
  | tool :: rest =>
      capability ← crew_tool_capability tool;
      add_capabilities
        (match capability with
         | Some c => if str_mem c required then required else required ++ [c]
         | None => required
         end) rest
  end.

Definition is_disabled (agent : Value) : bool := bool_decide (get_bool "enabled" agent = Some false).

Fixpoint add_agents (required : list string) (agents : list Value)
    : result CrewError (list string) :=
  match agents with
  | [] => Ok required
  | agent :: rest =>
      if is_disabled agent then add_agents required rest
      else
        agent ← ok_or AgentNotObject (as_object agent);
        tools ← crew_agent_tool_ids agent;
        required ← add_capabilities required tools;
        add_agents required rest
  end.

Definition required_crew_tool_capabilities (definition : Value)
    : result CrewError (list Capability) :=
  agents ← ok_or NoAgents (get_array "agents" definition);
  add_agents [] agents.

(** ** Preparing a request *)

Definition required_string (object : Map) (key : string) : result CrewError string :=
  value ← ok_or (RequiresKey key) (non_empty_trimmed (map_str key object));
  if bool_decide (4096 < str_len value)%Z then Err (KeyTooLong key) else Ok value.

Definition task_config_value (input : Value) (key : string) : option Value :=
  match get "task_config" input with
  | None => None
  | Some config =>
      let in_metadata := match get "sync_metadata" config with
                         | Some (JObject metadata) => map_get key metadata
                         | _ => None
                         end in
      match get key config with
      | Some value => if is_null value then in_metadata else Some value
      | None => in_metadata
      end
  end.

Definition timeout_ms (model : CrewModelConfig) : Z :=
  if in_u64 (cm_timeout_millis model) then cm_timeout_millis model else u64_max.

Definition crew_provider_json (model : CrewModelConfig) : Value :=
  json_obj [("baseUrl", JString (cm_base_url model));
            ("apiKey", JString (from_option id "localai-cowork" (cm_api_key model)));
            ("model", JString (cm_model model));
            ("models", JArray [JString (cm_model model)]);
            ("timeoutMs", jint (timeout_ms model));
            ("verifyTlsCertificates", JBool (cm_verify_tls_certificates model))].

Definition crew_backend_selection (selection : option Value)
    : result CrewError (option string * option string) :=
  match selection with
  | None => Ok (None, None)
  | Some selection =>
      object ← ok_or SelectionNotObject (as_object selection);
      let backend := from_option trim "openai-compatible" (map_str "backend" object) in
      if negb (String.eqb backend "openai-compatible") then Err (BackendUnavailable backend)
      else
        profile_id ← required_string object "profileId";
        match non_empty_trimmed (map_str "model" object) with
        | Some value => if bool_decide (4096 < str_len value)%Z then Err SelectedModelTooLong
                        else Ok (Some profile_id, Some value)
        | None => Ok (Some profile_id, None)
        end
  end.

(** One enabled agent: its id, and the agent as it is sent. *)
Definition prepare_agent (model : CrewModelConfig) (profile_models : gmap string CrewModelConfig)
    (honor_profile_selections : bool) (default_selection : option Value) (agent : Value)
    : result CrewError (string * Value) :=
  agent ← ok_or AgentNotObject (as_object agent);
  id ← required_string agent "id";
  let agent_selection := map_get "backendSelection" agent in
  let agent := map_remove "backendSelection" agent in
  let selection :=
    if honor_profile_selections
    then match agent_selection with Some s => Some s | None => default_selection end
    else None in
  selected ← crew_backend_selection selection;
  let '(profile_id, selected_model) := selected in
  selected_config ←
    (match profile_id with
     | Some p => config ← ok_or (ProfileNotResolved p) (profile_models !! p); Ok (Some config)
     | None => Ok None
     end);
  let existing_model :=
    if honor_profile_selections then non_empty_trimmed (map_str "modelOverride" agent)
    else None in
  let effective_model :=
    match selected_model, existing_model with
    | Some m, _ => m
    | None, Some m => m
    | None, None => cm_model (from_option (fun c => c) model selected_config)
    end in
  let agent := map_insert "providerKind" (JString "openai-compatible") agent in
  let agent := map_insert "modelOverride" (JString effective_model) agent in
  let agent := match profile_id with
               | Some p => map_insert "providerProfileId" (JString p) agent
               | None => map_remove "providerProfileId" agent
               end in
  Ok (id, JObject agent).

Definition assigned_to (active_agent_ids : list string) (task : Value) : bool :=
  match get_str "agentId" task with
  | Some id => str_mem id active_agent_ids
  | None => false
  end.

Definition is_active_task (active_task_ids : list string) (dependency : Value) : bool :=
  match as_str dependency with
  | Some id => str_mem id active_task_ids
  | None => false
  end.

(** One task that is kept: dependencies on tasks that are not kept are dropped. *)
Definition prepare_task (active_task_ids : list string) (task : Value) : result CrewError Value :=
  task ← ok_or TaskNotObject (as_object task);
  _ ← required_string task "id";
  Ok (JObject (match map_get "dependencies" task with
               | Some (JArray dependencies) =>
                   map_insert "dependencies"
                     (JArray (List.filter (is_active_task active_task_ids) dependencies)) task
               | _ => task
               end)).

(** The work task's request, appended to the crew's own guidelines. *)
Definition with_task_request (input : Value) (request : Map) : Map :=
  let source := match get "prompt" input with
                | Some v => Some v
                | None => get "task_instructions" input
                end in
  match non_empty_trimmed (match source with Some v => as_str v | None => None end) with
  | None => request
  | Some prompt =>
      let existing := non_empty_trimmed (map_str "executionGuidelines" request) in
      let expected := non_empty_trimmed
        (match task_config_value input "expected_output" with
         | Some v => as_str v
         | None => None
         end) in
      let guidelines := match existing with
                        | Some g => g +:+ newline +:+ newline
                        | None => ""
                        end in
      let guidelines := guidelines +:+ "Work task request:" +:+ newline +:+ prompt in
      let guidelines := match expected with
                        | Some e => guidelines +:+ newline +:+ newline
                                    +:+ "Expected overall result:" +:+ newline +:+ e
                        | None => guidelines
                        end in
      map_insert "executionGuidelines" (JString guidelines) request
  end.

(** The frozen context, appended to the guidelines. *)
Definition with_frozen_context (input : Value) (request : Map) : Map :=
  match frozen_runtime_context_text input with
  | None => request
  | Some context =>
      let guidelines := match non_empty_trimmed (map_str "executionGuidelines" request) with
                        | Some existing => existing +:+ newline +:+ newline +:+ context
                        | None => context
                        end in
      map_insert "executionGuidelines" (JString guidelines) request
  end.

(** The provider and run settings. *)
Definition with_settings (run : RunSpec) (model : CrewModelConfig)
    (profile_models : gmap string CrewModelConfig) (request : Map) : Map :=
  let profile_providers :=
    json_obj ((fun kv => (kv.1, crew_provider_json kv.2)) <$> map_to_list profile_models) in
  let request := map_insert "providerConfigs"
    (json_obj [("openAICompatible", crew_provider_json model);
               ("byProfile", profile_providers)]) request in
  let request := map_insert "config"
    (json_obj [("baseUrl", JString (cm_base_url model)); ("model", JString (cm_model model));
               ("timeoutMs", jint (timeout_ms model));
               ("verifyTlsCertificates", JBool (cm_verify_tls_certificates model))]) request in
  let request := map_insert "runId" (juuid (spec_id run)) request in
  let request := map_insert "streamId"
    (JString ("server-crew-" +:+ uuid_to_string (spec_id run))) request in
  map_insert "cwd" (JString "/workspace") request.

(** The agents that are not disabled, prepared, with their ids. *)
Definition prepare_agents (model : CrewModelConfig)
    (profile_models : gmap string CrewModelConfig) (honor_profile_selections : bool)
    (default_selection : option Value) (agents : list Value)
    : result CrewError (list (string * Value)) :=
  prepared ← res_mapM (prepare_agent model profile_models honor_profile_selections
                         default_selection)
                      (List.filter (fun agent => negb (is_disabled agent)) agents);
  match prepared with
  | [] => Err NoEnabledAgents
  | _ => Ok prepared
  end.

(** The tasks of enabled agents, with their dependencies on each other. *)
Definition prepare_tasks (active_agent_ids : list string) (tasks : list Value)
    : result CrewError (list Value) :=
  let tasks := List.filter (assigned_to active_agent_ids) tasks in
  let active_task_ids := omap (M := list) (get_str "id") tasks in
  prepared ← res_mapM (prepare_task active_task_ids) tasks;
  match prepared with
  | [] => Err NoAssignedTasks
  | _ => Ok prepared
  end.

Definition prepare_crew_request_internal (definition : Value) (run : RunSpec)
    (model : CrewModelConfig) (profile_models : gmap string CrewModelConfig)
    (honor_profile_selections : bool) : result CrewError Value :=
  request ← ok_or NotObject (as_object definition);
  crew_id ← required_string request "id";
  _ ← required_string request "name";
  let default_selection := map_get "defaultBackendSelection" request in
  let request := map_remove "defaultBackendSelection" request in
  agents ← ok_or NoAgents (get_array "agents" (JObject request));
  prepared ← prepare_agents model profile_models honor_profile_selections default_selection
               agents;
  let request := map_insert "agents" (JArray prepared.*2) request in
  tasks ← ok_or NoTasks (get_array "tasks" (JObject request));
  prepared_tasks ← prepare_tasks prepared.*1 tasks;
  let request := map_insert "tasks" (JArray prepared_tasks) request in
  let request := with_settings run model profile_models request in
  let request := with_task_request (spec_input run) request in
  let request := with_frozen_context (spec_input run) request in
  Ok (JObject (map_insert "id" (JString crew_id) request)).

Definition prepare_crew_request (definition : Value) (run : RunSpec) (model : CrewModelConfig)
    : result CrewError Value :=
  prepare_crew_request_internal definition run model ∅ false.

Definition prepare_crew_request_with_agent_models (definition : Value) (run : RunSpec)
    (model : CrewModelConfig) (profile_models : gmap string CrewModelConfig)
    : result CrewError Value :=
  prepare_crew_request_internal definition run model profile_models true.

End Crew.
