(* ===== verification/CrewProperties.v ===== *)
(** * Properties of crew requests

    What routing and dispatch may rely on: the capabilities a crew is said to need are the
    ones its tools need, and a prepared request is closed. *)

From S2P Require Import Prelude.
From S2P Require Import Json.
From S2P Require Import Contracts.
From S2P Require Import Demo.
From S2P Require Import Crew.
Import Crew.

(** ** Capabilities *)

(** The capability a tool needs, if any. *)
Definition needs (tool c : string) : Prop := crew_tool_capability tool = Ok (Some c).

Definition supported_tool (tool : string) : Prop := is_ok (crew_tool_capability tool) = true.

Lemma elem_of_add_new x y (l : list string) :
  x ∈ (if str_mem y l then l else l ++ [y]) <-> x ∈ l \/ x = y.
Proof.
  destruct (str_mem y l) eqn:Hm.
  - apply str_mem_spec in Hm. naive_solver.
  - rewrite elem_of_app, list_elem_of_singleton. done.
Qed.

Lemma exists_elem_of_cons {A} (P : A -> Prop) a l :
  (exists x, x ∈ a :: l /\ P x) <-> P a \/ exists x, x ∈ l /\ P x.
Proof. setoid_rewrite elem_of_cons. naive_solver. Qed.

Lemma exists_elem_of_nil {A} (P : A -> Prop) : (exists x, x ∈ [] /\ P x) <-> False.
Proof. split; [|done]. intros (x & Hx & _). by apply elem_of_nil in Hx. Qed.

Lemma add_capabilities_spec required tools caps :
  add_capabilities required tools = Ok caps ->
  Forall supported_tool tools
  /\ forall c, c ∈ caps <-> c ∈ required \/ exists tool, tool ∈ tools /\ needs tool c.
Proof.
  revert required. induction tools as [|tool tools IH]; intros required; cbn [add_capabilities].
  { intros [= <-]. split; [done|]. intros c. rewrite exists_elem_of_nil. tauto. }
  destruct (crew_tool_capability tool) as [cap|e] eqn:Hc; [|done].
  simpl.
  intros [Hall Hin]%IH. split; [constructor; [unfold supported_tool; by rewrite Hc|done]|].
  intros c. rewrite Hin, exists_elem_of_cons.
  assert (needs tool c <-> cap = Some c) as ->
    by (unfold needs; rewrite Hc; split; congruence).
  destruct cap as [c0|]; rewrite ?elem_of_add_new.
  - assert (Some c0 = Some c <-> c = c0) as -> by (split; congruence). tauto.
  - assert (@None string = Some c <-> False) as -> by done. tauto.
Qed.

(** An agent whose tools are known, and one tool of which needs the capability. *)
Definition agent_tools (agent : Value) (tools : list string) : Prop :=
  exists m, agent = JObject m /\ crew_agent_tool_ids m = Ok tools.

Definition agent_needs (c : string) (agent : Value) : Prop :=
  is_disabled agent = false /\ exists tools, agent_tools agent tools
    /\ exists tool, tool ∈ tools /\ needs tool c.

Definition agent_ok (agent : Value) : Prop :=
  is_disabled agent = false -> exists tools, agent_tools agent tools /\ Forall supported_tool tools.

Lemma add_agents_spec required agents caps :
  add_agents required agents = Ok caps ->
  Forall agent_ok agents
  /\ forall c, c ∈ caps <-> c ∈ required \/ exists agent, agent ∈ agents /\ agent_needs c agent.
Proof.
  revert required. induction agents as [|agent agents IH]; intros required; cbn [add_agents].
  { intros [= <-]. split; [done|]. intros c. rewrite exists_elem_of_nil. tauto. }
  destruct (is_disabled agent) eqn:Hd.
  { intros [Hall Hin]%IH. split; [constructor; [intros ?; congruence|done]|].
    intros c. rewrite Hin, exists_elem_of_cons.
    assert (agent_needs c agent <-> False) as -> by (unfold agent_needs; split; [|done];
      intros [? _]; congruence). tauto. }
  destruct agent as [| | | | |m]; try done. simpl.
  destruct (crew_agent_tool_ids m) as [tools|] eqn:Ht; simpl; [|done].
  destruct (add_capabilities required tools) as [required'|] eqn:Hc; simpl; [|done].
  apply add_capabilities_spec in Hc as [Hsup Hreq]. intros [Hall Hin]%IH. split.
  { constructor; [|done]. intros _. exists tools. split; [by exists m|done]. }
  intros c. rewrite Hin, Hreq, exists_elem_of_cons.
  assert (agent_needs c (JObject m) <-> exists tool, tool ∈ tools /\ needs tool c) as ->; [|tauto].
  unfold agent_needs. split.
  - intros (_ & tools' & (m' & [= <-] & Ht') & Hex). rewrite Ht in Ht'. by injection Ht' as ->.
  - intros Hex. split; [done|]. exists tools. split; [by exists m|done].
Qed.

(** ** The tool policy *)

Definition delegates (tool : string) : bool := str_mem tool ["delegate_task"; "mcp"].

Lemma delegates_need_nothing tool : delegates tool = true -> crew_tool_capability tool = Ok None.
Proof.
  unfold delegates. intros Hd. apply str_mem_spec in Hd.
  rewrite !elem_of_cons, elem_of_nil in Hd. by destruct Hd as [->|[->|[]]].
Qed.

(** The tools an executor with these capabilities may run. *)
Definition permitted (has : string -> bool) (tool : string) : Prop :=
  forall c, needs tool c -> has c = true.

Lemma allow_tools_spec has tools :
  Forall supported_tool tools ->
  (Forall (permitted has) tools -> allow_tools has tools
     = Ok (List.filter (fun tool => negb (delegates tool)) tools))
  /\ (is_ok (allow_tools has tools) = true -> Forall (permitted has) tools).
Proof.
  induction 1 as [|tool tools Hsup _ [IH1 IH2]]; [by split|]. cbn [allow_tools List.filter].
  change (str_mem tool ["delegate_task"; "mcp"]) with (delegates tool).
  unfold permitted, needs in *. destruct (delegates tool) eqn:Hd; simpl.
  { apply delegates_need_nothing in Hd. split.
    - intros [_ Hall]%Forall_cons. by apply IH1.
    - intros Hok. constructor; [intros c; by rewrite Hd|by apply IH2]. }
  unfold supported_tool in Hsup.
  destruct (crew_tool_capability tool) as [[c|]|e] eqn:Hcap; simpl in *; [..|done]; split.
  - intros [Hp Hall]%Forall_cons. rewrite (Hp c Hcap). simpl. by rewrite IH1.
  - destruct (has c) eqn:Hc; simpl; [|done]. intros Hok. constructor; [intros c'; by rewrite Hcap; intros [= <-]|].
    apply IH2. by destruct (allow_tools has tools).
  - intros [_ Hall]%Forall_cons. simpl. by rewrite IH1.
  - intros Hok. constructor; [intros c; by rewrite Hcap|]. apply IH2. by destruct (allow_tools has tools).
Qed.

(** An enabled agent of a crew whose capabilities could be determined: its tools are known
    and supported, the crew's capabilities cover them, and the policy looks at these tools. *)
Lemma enabled_agent_policy definition agents caps has m :
  get_array "agents" definition = Some agents ->
  required_crew_tool_capabilities definition = Ok caps ->
  JObject m ∈ agents -> is_disabled (JObject m) = false ->
  exists tools, crew_agent_tool_ids m = Ok tools /\ Forall supported_tool tools
    /\ (apply_crew_agent_tool_policy m has).2 = allow_tools has tools
    /\ forall tool c, tool ∈ tools -> needs tool c -> c ∈ caps.
Proof.
  intros Hagents Hreq Hm Hd. unfold required_crew_tool_capabilities in Hreq.
  rewrite Hagents in Hreq. simpl in Hreq. apply add_agents_spec in Hreq as [Hok Hcaps].
  rewrite Forall_forall in Hok. destruct (Hok _ Hm Hd) as (tools & (m' & [= <-] & Ht) & Hsup).
  exists tools. split_and!; [done..| |].
  - unfold apply_crew_agent_tool_policy, crew_agent_tool_ids. simpl.
    rewrite map_get_insert_ne by done. fold (crew_agent_tool_ids m). by rewrite Ht.
  - intros tool c Htool Hc. apply Hcaps. right. exists (JObject m). split; [done|].
    split; [done|]. exists tools. split; [by exists m|by exists tool].
Qed.

Lemma required_capabilities_suffice definition agents caps has m :
  get_array "agents" definition = Some agents ->
  required_crew_tool_capabilities definition = Ok caps ->
  (forall c, c ∈ caps -> has c = true) ->
  JObject m ∈ agents -> is_disabled (JObject m) = false ->
  is_ok (apply_crew_agent_tool_policy m has).2 = true.
Proof.
  intros Hagents Hreq Hhas Hm Hd.
  destruct (enabled_agent_policy _ _ _ has _ Hagents Hreq Hm Hd) as (tools & _ & Hsup & -> & Hc).
  rewrite (proj1 (allow_tools_spec has tools Hsup)); [done|]. apply Forall_forall.
  intros tool Htool c Hneed. eauto.
Qed.

(** routing and dispatch agree on crews. When a crew's required capabilities could be
    determined, an executor offers all of them exactly when the tool policy accepts every
    enabled agent of the crew on it; and what the policy then grants an agent is its own
    tools in their order, without the delegation and MCP tools. *)
Theorem crew_capabilities_exact definition agents caps has :
  get_array "agents" definition = Some agents ->
  required_crew_tool_capabilities definition = Ok caps ->
  ((forall c, c ∈ caps -> has c = true) <->
   forall m, JObject m ∈ agents -> is_disabled (JObject m) = false ->
     is_ok (apply_crew_agent_tool_policy m has).2 = true)
  /\ forall m tools allowed, JObject m ∈ agents -> is_disabled (JObject m) = false ->
       crew_agent_tool_ids m = Ok tools ->
       (apply_crew_agent_tool_policy m has).2 = Ok allowed ->
       allowed = List.filter (fun tool => negb (delegates tool)) tools
       /\ Forall (permitted has) tools.
Proof.
  intros Hagents Hreq. split; [split|].
  - intros Hhas m. by eapply required_capabilities_suffice.
  - intros Hall c Hc. pose proof Hreq as Hspec. unfold required_crew_tool_capabilities in Hspec.
    rewrite Hagents in Hspec. simpl in Hspec. apply add_agents_spec in Hspec as [_ Hcaps].
    apply Hcaps in Hc as [Hnil|(agent & Ha & Hd & tools & (m & -> & Ht) & tool & Htool & Hc)];
      [by apply elem_of_nil in Hnil|].
    destruct (enabled_agent_policy _ _ _ has _ Hagents Hreq Ha Hd)
      as (tools' & Ht' & Hsup & Hp & _).
    rewrite Ht in Ht'. injection Ht' as <-. specialize (Hall m Ha Hd). rewrite Hp in Hall.
    apply allow_tools_spec in Hall; [|done]. rewrite Forall_forall in Hall. by eapply Hall.
  - intros m tools allowed Hm Hd Ht Hal.
    destruct (enabled_agent_policy _ _ _ has _ Hagents Hreq Hm Hd)
      as (tools' & Ht' & Hsup & Hp & _).
    rewrite Ht in Ht'. injection Ht' as <-. rewrite Hp in Hal.
    assert (Forall (permitted has) tools) as Hperm
      by (apply allow_tools_spec; [done|by rewrite Hal]).
    split; [|done]. rewrite (proj1 (allow_tools_spec has tools Hsup)) in Hal by done. congruence.
Qed.

(** ** Closed requests *)

Ltac json_get := repeat (rewrite ?map_get_insert, ?map_get_remove; simpl).

(** The id by which an agent is known. *)
Definition agent_id (agent : Value) : option string := non_empty_trimmed (get_str "id" agent).

(** An agent as it is sent: enabled, on the one supported kind of provider, without its
    backend selection, and with a provider profile only if that profile was resolved. *)
Definition agent_prepared (profiles : gmap string CrewModelConfig) (honor : bool)
    (agent : Value) : Prop :=
  is_disabled agent = false /\ get "backendSelection" agent = None
  /\ get_str "providerKind" agent = Some "openai-compatible"
  /\ (forall v, get "providerProfileId" agent = Some v ->
        honor = true /\ exists p, v = JString p /\ is_Some (profiles !! p)).

Lemma required_string_Ok object key v :
  required_string object key = Ok v -> non_empty_trimmed (map_str key object) = Some v.
Proof.
  unfold required_string. destruct (non_empty_trimmed _) as [s|]; simpl; [|done].
  case_match; congruence.
Qed.

Lemma prepare_agent_spec model profiles honor default agent id agent' :
  is_disabled agent = false ->
  prepare_agent model profiles honor default agent = Ok (id, agent') ->
  agent_prepared profiles honor agent' /\ agent_id agent' = Some id.
Proof.
  intros Hd. unfold prepare_agent. destruct agent as [| | | | |m]; simpl; try done.
  destruct (required_string m "id") as [i|] eqn:Hid; simpl; [|done].
  apply required_string_Ok in Hid.
  destruct (crew_backend_selection _) as [[profile selected]|] eqn:Hsel; simpl; [|done].
  assert (profile ≠ None -> honor = true) as Hhonor.
  { intros Hp. destruct honor; [done|]. simpl in Hsel. congruence. }
  set (config := match profile with Some p => _ | None => _ end).
  destruct config as [c|] eqn:Hc; simpl; [|done]. intros [= <- <-].
  assert (forall p, profile = Some p -> is_Some (profiles !! p)) as Hres.
  { intros p ->. unfold config in Hc. destruct (profiles !! p); [by eexists|done]. }
  clear config Hc Hsel. unfold agent_prepared, agent_id, is_disabled in *.
  unfold get_bool, get_str, map_str, get in *.
  split_and!; destruct profile as [p|]; json_get; try done; intros v [= <-]; eauto 10.
Qed.

Lemma prepare_agents_spec model profiles honor default agents prepared :
  prepare_agents model profiles honor default agents = Ok prepared ->
  prepared ≠ []
  /\ Forall (fun p => agent_prepared profiles honor p.2 /\ agent_id p.2 = Some p.1) prepared.
Proof.
  unfold prepare_agents. destruct (res_mapM _ _) as [l|] eqn:Hl; simpl; [|done].
  intros Hp. assert (l = prepared /\ l ≠ []) as [-> Hne] by (destruct l; naive_solver).
  split; [done|]. apply res_mapM_Ok in Hl. apply Forall_forall. intros [id agent'] Hin.
  apply list_elem_of_lookup in Hin as [i Hi].
  destruct (Forall2_lookup_r _ _ _ _ _ Hl Hi) as (agent & Ha & Hprep).
  apply list_elem_of_lookup_2, list_elem_of_In, filter_In in Ha as [_ Hd].
  apply negb_true_iff in Hd. by eapply prepare_agent_spec.
Qed.

Lemma prepare_task_spec ids task task' :
  prepare_task ids task = Ok task' ->
  get_str "id" task' = get_str "id" task /\ get_str "agentId" task' = get_str "agentId" task
  /\ forall deps d, get_array "dependencies" task' = Some deps -> d ∈ deps ->
       exists id, d = JString id /\ id ∈ ids.
Proof.
  unfold prepare_task. destruct task as [| | | | |m]; simpl; try done.
  destruct (required_string m "id"); simpl; [|done]. intros [= <-].
  unfold get_str, get_array, get. destruct (map_get "dependencies" m) as [v|] eqn:Hv; [|by rewrite Hv].
  destruct v as [| | | |deps0|]; rewrite ?Hv; json_get; try done.
  split_and!; [done..|]. intros deps d [= <-]. intros Hd%list_elem_of_In.
  apply filter_In in Hd as [_ Hd]. unfold is_active_task in Hd.
  destruct d as [| | |s| |]; try done. exists s. split; [done|]. by apply str_mem_spec.
Qed.

(** The tasks of a request belong to the given agents and depend on each other only. *)
Definition tasks_closed (agent_ids : list string) (tasks : list Value) : Prop :=
  forall task, task ∈ tasks ->
    (exists id, get_str "agentId" task = Some id /\ id ∈ agent_ids)
    /\ forall deps d, get_array "dependencies" task = Some deps -> d ∈ deps ->
         exists other id, other ∈ tasks /\ get_str "id" other = Some id /\ d = JString id.

Lemma prepare_tasks_spec agent_ids tasks prepared :
  prepare_tasks agent_ids tasks = Ok prepared -> prepared ≠ [] /\ tasks_closed agent_ids prepared.
Proof.
  unfold prepare_tasks. destruct (res_mapM _ _) as [l|] eqn:Hl; simpl; [|done].
  intros Hp. assert (l = prepared /\ l ≠ []) as [-> Hne] by (destruct l; naive_solver).
  split; [done|]. apply res_mapM_Ok in Hl. intros task' Hin.
  apply list_elem_of_lookup in Hin as [i Hi].
  destruct (Forall2_lookup_r _ _ _ _ _ Hl Hi) as (task & Ht & Hprep).
  apply prepare_task_spec in Hprep as (_ & -> & Hdeps). split.
  - apply list_elem_of_lookup_2, list_elem_of_In, filter_In in Ht as [_ Ha].
    unfold assigned_to in Ha. destruct (get_str "agentId" task) as [id|]; [|done].
    exists id. split; [done|]. by apply str_mem_spec.
  - intros deps d Hd Hin. destruct (Hdeps deps d Hd Hin) as (id & -> & Hid).
    apply list_elem_of_omap in Hid as (other & Hother & Hget).
    apply list_elem_of_lookup in Hother as [j Hj].
    destruct (Forall2_lookup_l _ _ _ _ _ Hl Hj) as (other' & Hj' & Hprep').
    apply prepare_task_spec in Hprep' as (Hids & _). exists other', id.
    split_and!; [by eapply list_elem_of_lookup_2|by rewrite Hids|done].
Qed.

(** Writing the settings and guidelines leaves every other entry alone. *)
Lemma guidelines_keep k input request :
  k ≠ "executionGuidelines" ->
  map_get k (with_frozen_context input (with_task_request input request)) = map_get k request.
Proof.
  intros Hk. unfold with_frozen_context, with_task_request.
  repeat case_match; rewrite ?map_get_insert_ne; done.
Qed.

Lemma settings_keep k run model profiles request :
  k ∉ ["providerConfigs"; "config"; "runId"; "streamId"; "cwd"] ->
  map_get k (with_settings run model profiles request) = map_get k request.
Proof.
  rewrite !not_elem_of_cons. intros (? & ? & ? & ? & ? & _). unfold with_settings.
  by rewrite !map_get_insert_ne.
Qed.

(** a prepared crew request is closed. It has agents and tasks; every agent is enabled,
    runs on the supported kind of provider and refers to a provider profile only if that
    profile was resolved for this dispatch; every task is assigned to one of these agents
    and depends only on tasks of the request; and no backend selection is left for the
    runtime to interpret. *)
Theorem crew_request_closed definition run model profiles honor request :
  prepare_crew_request_internal definition run model profiles honor = Ok request ->
  get "defaultBackendSelection" request = None /\
  exists agents ids tasks, get_array "agents" request = Some agents
    /\ get_array "tasks" request = Some tasks /\ agents ≠ [] /\ tasks ≠ []
    /\ Forall (agent_prepared profiles honor) agents /\ agent_id <$> agents = Some <$> ids
    /\ tasks_closed ids tasks.
Proof.
  unfold prepare_crew_request_internal. destruct definition as [| | | | |m]; simpl; try done.
  destruct (required_string m "id") as [crew_id|]; simpl; [|done].
  destruct (required_string m "name"); simpl; [|done].
  set (m1 := map_remove "defaultBackendSelection" m).
  destruct (get_array "agents" (JObject m1)) as [agents|]; simpl; [|done].
  destruct (prepare_agents _ _ _ _ _) as [prepared|] eqn:Hp; simpl; [|done].
  set (m2 := map_insert "agents" (JArray prepared.*2) m1).
  destruct (get_array "tasks" (JObject m2)) as [tasks0|]; simpl; [|done].
  destruct (prepare_tasks _ _) as [tasks|] eqn:Ht; simpl; [|done]. intros [= <-].
  apply prepare_agents_spec in Hp as [Hne Hall]. apply prepare_tasks_spec in Ht as [Htne Hclosed].
  assert (forall k, k ∉ ["providerConfigs"; "config"; "runId"; "streamId"; "cwd"] ->
    k ≠ "executionGuidelines" -> k ≠ "id" -> forall r,
    get k (JObject (map_insert "id" (JString crew_id) (with_frozen_context (spec_input run)
      (with_task_request (spec_input run) (with_settings run model profiles r)))))
    = map_get k r) as Hget.
  { intros k ? ? ? r. simpl. by rewrite map_get_insert_ne, guidelines_keep, settings_keep. }
  unfold get_array. rewrite !Hget by (rewrite ?not_elem_of_cons; split_and?; (done || apply not_elem_of_nil)).
  unfold m2, m1. json_get. split; [done|].
  exists prepared.*2, prepared.*1, tasks. split_and!; try done.
  - by intros ?%fmap_nil_inv.
  - apply Forall_fmap. eapply Forall_impl; [exact Hall|]. by intros p [? _].
  - rewrite <- !list_fmap_compose. apply list_fmap_ext. intros i p Hi.
    rewrite Forall_forall in Hall. by destruct (Hall p (list_elem_of_lookup_2 _ _ _ Hi)).
Qed.

(** ** A crew *)

Definition demo_agent (id : string) (enabled : bool) (tools : list string) : Value :=
  json_obj [("id", JString id); ("enabled", JBool enabled);
            ("tools", JArray (JString <$> tools))].

Definition demo_task (id agent : string) (dependencies : list string) : Value :=
  json_obj [("id", JString id); ("agentId", JString agent);
            ("dependencies", JArray (JString <$> dependencies))].

Definition demo_agents : list Value :=
  [demo_agent "writer" true ["read_file"; "office-workflow"; "Microsoft_Office"; "todo"];
   demo_agent "researcher" true ["websearch"; "bash"; "read"; "mcp"];
   demo_agent "disabled" false ["unsupported_tool"]].

Definition demo_crew : Value :=
  json_obj [("id", JString " reviewers "); ("name", JString "Review crew");
            ("defaultBackendSelection", JNull); ("agents", JArray demo_agents);
            ("tasks", JArray [demo_task "review" "researcher" ["disabled-task"; "draft"];
                              demo_task "draft" "writer" [];
                              demo_task "disabled-task" "disabled" []])].

Definition demo_model : CrewModelConfig :=
  {| cm_base_url := "https://models.example.test/v1"; cm_api_key := None;
     cm_model := "review-model"; cm_timeout_millis := 30000; cm_verify_tls_certificates := true |}.

Lemma crew_capabilities_exact_witness :
  let offered := ["files"; "office.ooxml"; "office.microsoft"; "web.fetch"; "shell"] in
  required_crew_tool_capabilities demo_crew = Ok offered
  /\ is_ok (apply_crew_agent_tool_policy
              (from_option id [] (as_object (demo_agent "researcher" true
                 ["websearch"; "bash"; "read"; "mcp"]))) (fun c => str_mem c offered)).2 = true.
Proof.
  intros offered. assert (required_crew_tool_capabilities demo_crew = Ok offered) as Hr
    by (vm_compute; reflexivity).
  split; [exact Hr|].
  refine (proj1 (proj1 (crew_capabilities_exact demo_crew demo_agents offered
    (fun c => str_mem c offered) _ Hr)) _ _ _ _).
  - vm_compute. reflexivity.
  - intros c Hc. by apply str_mem_spec.
  - apply list_elem_of_lookup_2 with 1%nat. vm_compute. reflexivity.
  - vm_compute. reflexivity.
Defined.

(** The request keeps the two enabled agents and the two tasks that are theirs, and drops
    the dependency on the task that is not sent. *)
Lemma crew_request_closed_witness :
  exists request, prepare_crew_request demo_crew (demo_spec 100 "a" server_target) demo_model
      = Ok request
    /\ get "defaultBackendSelection" request = None
    /\ get_array "tasks" request
       = Some [demo_task "review" "researcher" ["draft"]; demo_task "draft" "writer" []].
Proof.
  eexists. split; [vm_compute; reflexivity|]. split; [|vm_compute; reflexivity].
  refine (proj1 (crew_request_closed demo_crew (demo_spec 100 "a" server_target) demo_model ∅
    false _ _)).
  vm_compute. reflexivity.
Defined.
