(* ===== verification/TaskConfig.v ===== *)
(** * Task configuration (server/cowork-server/src/workflow.rs)

    What a task definition asks of a run: its runner, the capabilities it needs, the input
    that is frozen into a run, the refusal of credentials in its configuration, and the
    count of the occurrences a schedule missed. *)

From S2P Require Import Prelude.
From S2P Require Import Json.
From S2P Require Import Contracts.
From S2P Require Import Store.
From S2P Require Import Crew.

Module TaskConfig.

Definition MAX_SCHEDULE_CATCH_UPS : Z := 10000.

Definition validate_task_fields (name instructions : string) : result ApiError unit :=
  if str_is_empty (trim name) || bool_decide (200 < str_len name)%Z
  then Err (Unprocessable "task name must contain 1 to 200 characters")
  else if str_is_empty (trim instructions) || bool_decide (1000000 < str_len instructions)%Z
  then Err (Unprocessable "task instructions must contain 1 to 1000000 characters")
  else Ok tt.

(** ** The runner *)

Definition task_config_value (config : Value) (key : string) : option Value :=
  let in_metadata := match get "sync_metadata" config with
                     | Some (JObject metadata) => map_get key metadata
                     | _ => None
                     end in
  match get key config with
  | Some value => if is_null value then in_metadata else Some value
  | None => in_metadata
  end.

Definition config_str (config : Value) (key : string) : option string :=
  match task_config_value config key with
  | Some value => as_str value
  | None => None
  end.

Definition task_runner (config : Value) : result ApiError string :=
  let runner := from_option id "model" (config_str config "runner") in
  if str_mem runner ["model"; "crew"] then Ok runner
  else Err (Unprocessable "task config runner must be model or crew").

Definition task_crew_id (config : Value) : result ApiError (option string) :=
  runner ← task_runner config;
  if negb (String.eqb runner "crew") then Ok None
  else
    crew_id ← ok_or (Unprocessable "crew tasks require a non-empty crew_id")
                (non_empty_trimmed (config_str config "crew_id"));
    Ok (Some crew_id).

(** ** Credentials *)

Definition SECRET_KEYS : list string :=
  ["apikey"; "accesstoken"; "refreshtoken"; "clientsecret"; "password"; "authorization";
   "credential"].

Definition secret_key (key : string) : bool :=
  str_mem (to_ascii_lowercase (string_filter is_ascii_alphanumeric key)) SECRET_KEYS.

Definition is_secret (key : string) (value : Value) : bool :=
  secret_key key && match as_str value with
                    | Some secret => negb (str_is_empty (trim secret))
                    | None => false
                    end.

(** The path of the first credential, depth first. *)
Fixpoint visit (value : Value) (path : list string) : option string :=
  match value with
  | JObject object =>
      (fix in_object (m : list (string * Value)) : option string :=
         match m with
         | [] => None
         | (key, v) :: rest =>
             let found := if is_secret key v then Some (join "." (path ++ [key]))
                          else visit v (path ++ [key]) in
             match found with
             | Some p => Some p
             | None => in_object rest
             end
         end) object
  | JArray values =>
      (fix in_array (index : nat) (l : list Value) : option string :=
         match l with
         | [] => None
         | v :: rest =>
             match visit v (path ++ [pretty index]) with
             | Some p => Some p
             | None => in_array (S index) rest
             end
         end) 0%nat values
  | _ => None
  end.

Definition cleartext (path : string) : ApiError :=
  Unprocessable ("task config must not contain cleartext credentials (" +:+ path
                 +:+ "); reference a provider profile instead").

Definition reject_cleartext_task_secrets (value : Value) : result ApiError unit :=
  match visit value [] with
  | Some path => Err (cleartext path)
  | None => Ok tt
  end.

(** ** Capabilities *)

(** Push a capability unless it is there. *)
Definition push_new (capabilities : list Capability) (capability : Capability)
    : list Capability :=
  if str_mem capability capabilities then capabilities else capabilities ++ [capability].

Fixpoint push_requested (capabilities requested : list Capability)
    : result ApiError (list Capability) :=
  match requested with
  | [] => Ok capabilities
  | capability :: rest =>
      if str_is_empty (trim capability) || bool_decide (100 < str_len capability)%Z
      then Err (Unprocessable "capability names must contain 1 to 100 characters")
      else push_requested (push_new capabilities capability) rest
  end.

Definition effective_task_capabilities (requested : list Capability) (config : Value)
    : result ApiError (list Capability) :=
  _ ← reject_cleartext_task_secrets config;
  capabilities ← push_requested [] requested;
  crew_id ← task_crew_id config;
  Ok (match crew_id with
      | Some _ => push_new capabilities capabilities.crew_python
      | None => capabilities
      end).

Section frozen_crew.
(** How an error of the crew library prints. *)
Variable crew_error_text : Crew.CrewError -> string.

Definition apply_frozen_crew_capabilities (capabilities : list Capability) (input : Value)
    : result ApiError (list Capability) :=
  if bool_decide (get_str "task_runner" input ≠ Some "crew") then Ok capabilities
  else
    definition ← ok_or (Unprocessable "the Crew run has no frozen crew_definition")
                   (get "crew_definition" input);
    required ← map_err (fun e => Unprocessable (crew_error_text e))
                 (Crew.required_crew_tool_capabilities definition);
    Ok (foldl push_new capabilities (capabilities.crew_python :: required)).
End frozen_crew.

(** ** Inputs *)

Definition freeze_task_input (input : Value) (instructions : string) (config : Value)
    : result ApiError Map :=
  runner ← task_runner config;
  crew_id ← task_crew_id config;
  let object := match input with
                | JObject object => object
                | JNull => []
                | other => [("input", other)]
                end in
  let object := map_insert "task_instructions" (JString instructions) object in
  let object := map_insert "task_config" config object in
  let object := map_insert "task_runner" (JString runner) object in
  Ok (match crew_id with
      | Some crew_id =>
          map_insert "resolve_current_crew_provider_bindings" (JBool true)
            (map_insert "crew_id" (JString crew_id) object)
      | None => object
      end).

Record ScheduledTriggerContext := {
  stc_schedule_id : Uuid;
  stc_due_at : DateTime;
  stc_triggered_at : DateTime;
  stc_missed_occurrences : Z;
  stc_catch_up_truncated : bool;
}.

Definition scheduled_input (env : Env) (input : Value) (instructions : string) (config : Value)
    (trigger : ScheduledTriggerContext) : result ApiError Value :=
  object ← freeze_task_input input instructions config;
  let object := if map_has "prompt" object then object
                else map_insert "prompt" (JString instructions) object in
  Ok (JObject (map_insert "_schedule"
    (json_obj [("schedule_id", juuid (stc_schedule_id trigger));
               ("first_due_at", JString (rfc3339 env (stc_due_at trigger)));
               ("triggered_at", JString (rfc3339 env (stc_triggered_at trigger)));
               ("missed_occurrences", jint (stc_missed_occurrences trigger));
               ("catch_up_truncated", JBool (stc_catch_up_truncated trigger))]) object)).

(** ** Missed occurrences *)

(** The loop over the occurrences of the cron expression from the first due one on. *)
Fixpoint count_until (now : DateTime) (count : Z) (occurrences : list DateTime) : Z * bool :=
  match occurrences with
  | [] => (Z.max count 1, false)
  | occurrence :: rest =>
      if bool_decide (now < occurrence)%Z then (Z.max count 1, false)
      else if bool_decide (count + 1 = MAX_SCHEDULE_CATCH_UPS)%Z then (count + 1, true)%Z
      else count_until now (count + 1) rest
  end.

(** [occurrences] is what the cron crate makes of the expression: the occurrences after
    just before the first due time, or why it does not parse. *)
Definition count_occurrences (occurrences : result string (list DateTime)) (now : DateTime)
    : result ApiError (Z * bool) :=
  l ← map_err (fun error => Unprocessable ("invalid cron expression: " +:+ error)) occurrences;
  Ok (count_until now 0 l).

(** ** Cron expressions *)

Definition invalid_cron (error : string) : ApiError :=
  Unprocessable ("invalid cron expression: " +:+ error).

Definition normalized_cron (env : Env) (expression : string) : result ApiError string :=
  let expression := trim expression in
  normalized ← match count_words false expression with
               | 5%nat => Ok ("0 " +:+ expression)
               | 6%nat | 7%nat => Ok expression
               | _ => Err (Unprocessable "cron must have five, six, or seven fields")
               end;
  match cron_error env normalized with
  | Some error => Err (invalid_cron error)
  | None => Ok normalized
  end.

(** The name of the zone stands for the zone. *)
Definition validated_timezone (env : Env) (value : string) : result ApiError string :=
  ok_or (Unprocessable (value +:+ " is not a recognized IANA timezone"))
    (parse_timezone env value).

Definition next_occurrence_normalized (env : Env) (expression timezone : string)
    (after : DateTime) : result ApiError DateTime :=
  match cron_error env expression with
  | Some error => Err (invalid_cron error)
  | None => ok_or (Unprocessable "cron has no future occurrence")
              (cron_next env expression timezone after)
  end.

Definition next_occurrence (env : Env) (expression timezone : string) (after : DateTime)
    : result ApiError DateTime :=
  cron ← normalized_cron env expression;
  timezone ← validated_timezone env timezone;
  next_occurrence_normalized env cron timezone after.

End TaskConfig.
