(* ===== verification/TaskProperties.v ===== *)
(** * Properties of task configuration

    Task configurations never carry credentials into a run, and the capabilities a run is
    routed by are enough for everything its crew may do. *)

From S2P Require Import Prelude.
From S2P Require Import Json.
From S2P Require Import Contracts.
From S2P Require Import Store.
From S2P Require Import Demo.
From S2P Require Import SyncPublish.
From S2P Require Import RunStore.
From S2P Require Import Crew.
From S2P Require Import CrewProperties.
From S2P Require Import TaskConfig.
Import TaskConfig.

(** ** Credentials *)

(** The value at a path of keys and indices. *)
Inductive at_path : Value -> list string -> Value -> Prop :=
| at_here v : at_path v [] v
| at_key m k x path v : (k, x) ∈ m -> at_path x path v -> at_path (JObject m) (k :: path) v
| at_index l i x path v :
    l !! i = Some x -> at_path x path v -> at_path (JArray l) (pretty i :: path) v.

(** An object at [path] holds a credential under [key]. *)
Definition credential_at (config : Value) (path : list string) (key : string) : Prop :=
  exists m v, at_path config path (JObject m) /\ (key, v) ∈ m /\ is_secret key v = true.

(** What a visit below [prefix] must answer. *)
Definition visited (config : Value) (prefix : list string) (answer : option string) : Prop :=
  match answer with
  | Some text => exists path key, credential_at config path key
                   /\ text = join "." (prefix ++ path ++ [key])
  | None => forall path key, ~ credential_at config path key
  end.

(** The two loops of a visit. *)
Fixpoint visit_entries (prefix : list string) (m : Map) : option string :=
  match m with
  | [] => None
  | (key, v) :: rest =>
      match (if is_secret key v then Some (join "." (prefix ++ [key]))
             else visit v (prefix ++ [key])) with
      | Some p => Some p
      | None => visit_entries prefix rest
      end
  end.

Fixpoint visit_items (prefix : list string) (index : nat) (l : list Value) : option string :=
  match l with
  | [] => None
  | v :: rest =>
      match visit v (prefix ++ [pretty index]) with
      | Some p => Some p
      | None => visit_items prefix (S index) rest
      end
  end.

Lemma visit_object m prefix : visit (JObject m) prefix = visit_entries prefix m.
Proof. simpl. induction m as [|[key v] m IH]; simpl; [done|]. by rewrite IH. Qed.

Lemma visit_array l prefix : visit (JArray l) prefix = visit_items prefix 0 l.
Proof.
  simpl. generalize 0%nat as i. induction l as [|v l IH]; intros i; simpl; [done|]. by rewrite IH.
Qed.

Lemma credential_in_entry m k x path key :
  (k, x) ∈ m -> credential_at x path key -> credential_at (JObject m) (k :: path) key.
Proof. intros Hin (o & v & Hat & ?). exists o, v. split; [by econstructor|done]. Qed.

Lemma credential_in_item l i x path key :
  l !! i = Some x -> credential_at x path key -> credential_at (JArray l) (pretty i :: path) key.
Proof. intros Hi (o & v & Hat & ?). exists o, v. split; [by econstructor|done]. Qed.

Lemma visit_entries_spec prefix m m0 :
  Forall (fun kv => forall prefix, visited kv.2 prefix (visit kv.2 prefix)) m ->
  (forall kv, kv ∈ m -> kv ∈ m0) ->
  match visit_entries prefix m with
  | Some text => exists path key, credential_at (JObject m0) path key
                   /\ text = join "." (prefix ++ path ++ [key])
  | None => forall k x, (k, x) ∈ m -> is_secret k x = false
              /\ forall path key, ~ credential_at x path key
  end.
Proof.
  induction 1 as [|[k x] m Hx _ IH]; intros Hsub; simpl.
  { intros k x Hin. by apply elem_of_nil in Hin. }
  assert ((k, x) ∈ m0) as Hkx by (apply Hsub; left).
  destruct (is_secret k x) eqn:Hs.
  { exists [], k. split; [|done]. exists m0, x. split; [constructor|done]. }
  specialize (Hx (prefix ++ [k])). simpl in Hx. destruct (visit x (prefix ++ [k])) as [text|].
  { destruct Hx as (path & key & Hc & ->). exists (k :: path), key.
    split; [by eapply credential_in_entry|]. by rewrite <- app_assoc. }
  destruct (visit_entries prefix m) as [text|]; [apply IH; intros kv ?; apply Hsub; by right|].
  intros k' x' [[= -> ->]|Hin]%elem_of_cons; [done|]. apply IH; [|done].
  intros kv ?. apply Hsub. by right.
Qed.

Lemma visit_items_spec prefix l l0 : forall pre,
  Forall (fun x => forall prefix, visited x prefix (visit x prefix)) l -> l0 = pre ++ l ->
  match visit_items prefix (length pre) l with
  | Some text => exists path key, credential_at (JArray l0) path key
                   /\ text = join "." (prefix ++ path ++ [key])
  | None => forall x, x ∈ l -> forall path key, ~ credential_at x path key
  end.
Proof.
  induction l as [|x l IH]; intros pre Hall ->; simpl.
  { intros x Hin. by apply elem_of_nil in Hin. }
  apply Forall_cons in Hall as [Hx Hall]. specialize (Hx (prefix ++ [pretty (length pre)])).
  destruct (visit x _) as [text|].
  { destruct Hx as (path & key & Hc & ->). exists (pretty (length pre) :: path), key.
    split; [|by rewrite <- app_assoc]. eapply credential_in_item; [|done].
    by apply list_lookup_middle. }
  specialize (IH (pre ++ [x]) Hall). rewrite length_app, Nat.add_1_r in IH.
  specialize (IH ltac:(by rewrite <- app_assoc)).
  destruct (visit_items prefix (S (length pre)) l) as [text|]; [exact IH|].
  intros x' [->|Hin]%elem_of_cons; [exact Hx|by apply IH].
Qed.

Lemma visit_spec config : forall prefix, visited config prefix (visit config prefix).
Proof.
  induction config as [| | | |l IH|m IH] using Value_nested_ind; intros prefix.
  1-4: intros path key (m & v & Hat & _); by inversion Hat.
  - rewrite visit_array. pose proof (visit_items_spec prefix l l [] IH eq_refl) as Hs.
    simpl in Hs. destruct (visit_items prefix 0 l); [exact Hs|].
    intros path key (o & v & Hat & Hin & Hv). inversion Hat as [| |? i x p ? Hi Hx]; subst.
    eapply Hs; [by eapply list_elem_of_lookup_2|]. exists o, v. eauto.
  - rewrite visit_object. pose proof (visit_entries_spec prefix m m IH (fun _ H => H)) as Hs.
    destruct (visit_entries prefix m); [exact Hs|].
    intros path key (o & v & Hat & Hin & Hv). inversion Hat as [|? k x p ? Hk Hx|]; subst.
    + destruct (Hs key v Hin) as [? _]. congruence.
    + destruct (Hs k x Hk) as [_ Hno]. eapply Hno. exists o, v. eauto.
Qed.

(** no credential passes. A task configuration is refused exactly when some object
    anywhere inside it, under keys or in lists, holds a non-blank string under a key that
    spells a credential (whatever its case and punctuation), and the refusal names the
    path to one. *)
Theorem credentials_are_refused config :
  match reject_cleartext_task_secrets config with
  | Ok _ => forall path key, ~ credential_at config path key
  | Err e => exists path key, credential_at config path key
               /\ e = cleartext (join "." (path ++ [key]))
  end.
Proof.
  unfold reject_cleartext_task_secrets. pose proof (visit_spec config []) as Hs.
  destruct (visit config []) as [text|]; [|exact Hs].
  destruct Hs as (path & key & Hc & ->). by exists path, key.
Qed.

Example credential_found :
  reject_cleartext_task_secrets
    (json_obj [("steps", JArray [JNull; json_obj [("API-Key", JString "sk-1")]])])
  = Err (cleartext "steps.1.API-Key").
Proof. vm_compute. reflexivity. Qed.

(** ** Capabilities of crew runs *)

Lemma push_all_spec l capabilities :
  capabilities `prefix_of` foldl push_new capabilities l
  /\ (forall c, c ∈ foldl push_new capabilities l <-> c ∈ capabilities \/ c ∈ l)
  /\ (NoDup capabilities -> NoDup (foldl push_new capabilities l)).
Proof.
  revert capabilities. induction l as [|a l IH]; intros capabilities; simpl.
  { split; [done|]. split; [|done]. intros c. rewrite elem_of_nil. tauto. }
  destruct (IH (push_new capabilities a)) as (Hp & Hin & Hnd). split_and!.
  - etrans; [|exact Hp]. unfold push_new. case_match; [done|by apply prefix_app_r].
  - intros c. rewrite Hin, elem_of_cons. unfold push_new. rewrite elem_of_add_new. tauto.
  - intros Hc. apply Hnd. unfold push_new. destruct (str_mem a capabilities) eqn:Hm; [done|].
    apply NoDup_app. split_and!; [done| |apply NoDup_singleton].
    intros x Hx ->%list_elem_of_singleton. apply str_mem_spec in Hx. congruence.
Qed.

Lemma has_capabilities_spec reg required c :
  has_capabilities reg required = true -> c ∈ required ->
  str_mem c (capability_names reg) = true.
Proof.
  unfold has_capabilities. rewrite forallb_forall. intros Hall Hc. apply Hall.
  by apply list_elem_of_In.
Qed.

Lemma supports_run_capabilities reg required input :
  supports_run reg required input = true -> has_capabilities reg required = true.
Proof. unfold supports_run. by destruct (has_capabilities reg required). Qed.

(** a crew run only goes where it can run. The capabilities a crew run is created with
    extend the requested ones without repeating any, include the crew runtime's, and are
    enough: an executor that the server may route the run to accepts the tools of every
    enabled agent of the frozen crew. *)
Theorem crew_runs_are_routable text requested input required :
  get_str "task_runner" input = Some "crew" ->
  apply_frozen_crew_capabilities text requested input = Ok required ->
  requested `prefix_of` required /\ (NoDup requested -> NoDup required)
  /\ capabilities.crew_python ∈ required
  /\ exists definition agents, get "crew_definition" input = Some definition
       /\ get_array "agents" definition = Some agents
       /\ forall reg m, supports_run reg required input = true ->
            JObject m ∈ agents -> Crew.is_disabled (JObject m) = false ->
            is_ok (Crew.apply_crew_agent_tool_policy m
                     (fun c => str_mem c (capability_names reg))).2 = true.
Proof.
  intros Hrunner. unfold apply_frozen_crew_capabilities.
  rewrite bool_decide_false by tauto. destruct (get "crew_definition" input) as [definition|];
    [|done].
  intros Happly. cbn in Happly.
  destruct (Crew.required_crew_tool_capabilities definition) as [derived|] eqn:Hreq; [|done].
  injection Happly as <-.
  destruct (push_all_spec (capabilities.crew_python :: derived) requested) as (Hp & Hin & Hnd).
  split_and!; [done|done|apply Hin; right; left|]. exists definition.
  destruct (get_array "agents" definition) as [agents|] eqn:Hagents;
    [|unfold Crew.required_crew_tool_capabilities in Hreq; by rewrite Hagents in Hreq].
  exists agents. split_and!; [done..|]. intros reg m Hsup%supports_run_capabilities Hm Hd.
  eapply required_capabilities_suffice; [done|done| |done|done].
  intros c Hc. eapply has_capabilities_spec; [done|]. apply Hin. right. by right.
Qed.

Definition crew_input : Value :=
  json_obj [("task_runner", JString "crew"); ("crew_definition", demo_crew)].

Lemma crew_runs_are_routable_witness :
  exists required, apply_frozen_crew_capabilities (fun _ => "") ["git"] crew_input = Ok required
    /\ ["git"] `prefix_of` required /\ capabilities.crew_python ∈ required.
Proof.
  eexists. split; [vm_compute; reflexivity|].
  destruct (crew_runs_are_routable (fun _ => "") ["git"] crew_input
    ["git"; "crew.python"; "files"; "office.ooxml"; "office.microsoft"; "web.fetch"; "shell"])
    as (Hp & _ & Hc & _); [vm_compute; reflexivity..|]. split; [exact Hp|exact Hc].
Defined.
