(* ===== verification/SyncMaterialize.v ===== *)
(** * Materialisation of synced metadata (server/cowork-server/src/sync.rs)

    What a change pushed by a device does to the canonical tables: a project, thread,
    message, task, schedule or provider profile of its owner is created, updated or
    soft-deleted, and the entities that wait for it are materialised with it. Rows the
    sync bridge did not create are never touched. *)

From S2P Require Import Prelude.
From S2P Require Import Json.
From S2P Require Import Contracts.
From S2P Require Import Store.
From S2P Require Import Governance.
From S2P Require Import SyncPublish.
From S2P Require Import TaskConfig.

Module Materialize.

(** ** Payload fields *)

Definition object_payload (payload : option Value) (entity_type : string)
    : result ApiError Map :=
  ok_or (Unprocessable (entity_type +:+ " sync payload must be a JSON object"))
    (payload ≫= as_object).

(** [keys.iter().find_map(...)] *)
Fixpoint first_text (object : Map) (keys : list string) : option string :=
  match keys with
  | [] => None
  | key :: rest =>
      match map_str key object with
      | Some value => Some value
      | None => first_text object rest
      end
  end.

Definition required_text (object : Map) (keys : list string) (label : string) (maximum : Z)
    : result ApiError string :=
  let value := trim (from_option id "" (first_text object keys)) in
  if str_is_empty value || bool_decide (maximum < str_len value)%Z
  then Err (Unprocessable (label +:+ " must contain 1 to " +:+ pretty maximum +:+ " characters"))
  else Ok value.

Definition optional_text (object : Map) (keys : list string) (maximum : Z)
    : result ApiError string :=
  let value := from_option id "" (first_text object keys) in
  if bool_decide (maximum < str_len value)%Z
  then Err (Unprocessable ("metadata text must not exceed " +:+ pretty maximum +:+ " characters"))
  else Ok value.

(** [object.get(key).and_then(as_str).map(Uuid::parse_str).transpose()] *)
Definition optional_uuid (env : Env) (object : Map) (key message : string)
    : result ApiError (option Uuid) :=
  match map_str key object with
  | None => Ok None
  | Some value =>
      match parse_uuid env value with
      | Some u => Ok (Some u)
      | None => Err (Unprocessable message)
      end
  end.

Definition required_uuid (env : Env) (object : Map) (key label : string)
    : result ApiError Uuid :=
  ok_or (Unprocessable (label +:+ " must be a UUID string"))
    (map_str key object ≫= parse_uuid env).

(** ** Rows of the tables *)

Definition is_materialized (user_id : Uuid) (entity_type : string) (entity_id : Uuid) : Tx bool :=
  db ← get_db;
  mret (bool_decide (is_Some (sync_materializations db !! (user_id, entity_type, entity_id)))).

(** [EXISTS(SELECT 1 FROM projects WHERE id, owner_user_id, privacy = 'private_local',
    deleted_at IS NULL)] *)
Definition private_project (db : Db) (user_id project_id : Uuid) : bool :=
  match live_project db project_id with
  | Some p => bool_decide (pr_owner_user_id p = user_id)
              && bool_decide (pr_privacy p = PrivateLocal)
  | None => false
  end.

(** The same for the project of a live thread. *)
Definition private_thread_project (db : Db) (user_id thread_id : Uuid) : option Uuid :=
  match live_thread_project db thread_id with
  | Some (t, p) =>
      if bool_decide (pr_owner_user_id p = user_id) && bool_decide (pr_privacy p = PrivateLocal)
      then Some (th_project_id t) else None
  | None => None
  end.

(** The join of a thread with its project, deleted or not. *)
Definition thread_owned (db : Db) (user_id thread_id : Uuid) : bool :=
  match threads db !! thread_id with
  | Some t =>
      match projects db !! th_project_id t with
      | Some p => bool_decide (pr_owner_user_id p = user_id)
                  && bool_decide (pr_privacy p = PrivateLocal)
      | None => false
      end
  | None => false
  end.

(** An UPDATE that raises the revision of every row it selects. *)
Definition bump_where {V} (revision : V -> Z) (p : Uuid -> V -> bool) (f : Uuid -> V -> V)
    (t : gmap Uuid V) : Tx (gmap Uuid V) :=
  _ ← reject_if (row_exists (fun id v => p id v && negb (in_i64 (revision v + 1))) t)
        (Database NumericOutOfRange);
  mret (update_where p f t).

Definition update_messages (p : Uuid -> MessageRow -> bool)
    (f : Uuid -> MessageRow -> MessageRow) : Tx unit :=
  db ← get_db;
  t ← bump_where mr_revision p f (messages db);
  modify (set_messages t).

Definition update_threads (p : Uuid -> ThreadRow -> bool)
    (f : Uuid -> ThreadRow -> ThreadRow) : Tx unit :=
  db ← get_db;
  t ← bump_where th_revision p f (threads db);
  modify (set_threads t).

Definition update_projects (p : Uuid -> ProjectRow -> bool)
    (f : Uuid -> ProjectRow -> ProjectRow) : Tx unit :=
  db ← get_db;
  t ← bump_where pr_revision p f (projects db);
  modify (set_projects t).

Definition update_schedules (p : Uuid -> ScheduleRow -> bool)
    (f : Uuid -> ScheduleRow -> ScheduleRow) : Tx unit :=
  db ← get_db;
  t ← bump_where sh_revision p f (schedules db);
  modify (set_schedules t).

(** ** The columns the UPDATE statements set *)

Definition delete_message (now : DateTime) (id : Uuid) (m : MessageRow) : MessageRow :=
  {| mr_revision := mr_revision m + 1; mr_etag := version_etag id (mr_revision m + 1);
     mr_thread_id := mr_thread_id m; mr_author_user_id := mr_author_user_id m;
     mr_role := mr_role m; mr_content := mr_content m; mr_run_id := mr_run_id m;
     mr_created_at := mr_created_at m; mr_updated_at := now; mr_deleted_at := Some now |}.

Definition rewrite_message (now : DateTime) (thread_id : Uuid) (author : option Uuid)
    (role : MessageRole) (content : Value) (id : Uuid) (m : MessageRow) : MessageRow :=
  {| mr_revision := mr_revision m + 1; mr_etag := version_etag id (mr_revision m + 1);
     mr_thread_id := thread_id; mr_author_user_id := author; mr_role := role;
     mr_content := content; mr_run_id := None; mr_created_at := mr_created_at m;
     mr_updated_at := now; mr_deleted_at := None |}.

Definition rewrite_thread (now : DateTime) (project_id : Uuid) (title : string)
    (deleted_at : option DateTime) (id : Uuid) (t : ThreadRow) : ThreadRow :=
  {| th_revision := th_revision t + 1; th_etag := version_etag id (th_revision t + 1);
     th_project_id := project_id; th_created_by := th_created_by t; th_title := title;
     th_created_at := th_created_at t; th_updated_at := now; th_deleted_at := deleted_at |}.

Definition delete_thread (now : DateTime) (id : Uuid) (t : ThreadRow) : ThreadRow :=
  rewrite_thread now (th_project_id t) (th_title t) (Some now) id t.

Definition rewrite_project (now : DateTime) (name description : string)
    (target : option Value) (policy : Value) (deleted_at : option DateTime)
    (id : Uuid) (p : ProjectRow) : ProjectRow :=
  {| pr_revision := pr_revision p + 1; pr_etag := version_etag id (pr_revision p + 1);
     pr_owner_user_id := pr_owner_user_id p; pr_team_id := pr_team_id p;
     pr_privacy := pr_privacy p; pr_name := name; pr_description := description;
     pr_preferred_executor_target := target; pr_policy := policy;
     pr_current_version_id := pr_current_version_id p;
     pr_created_at := pr_created_at p; pr_updated_at := now; pr_deleted_at := deleted_at |}.

Definition delete_project (now : DateTime) (id : Uuid) (p : ProjectRow) : ProjectRow :=
  rewrite_project now (pr_name p) (pr_description p) (pr_preferred_executor_target p)
    (pr_policy p) (Some now) id p.

(** A schedule that is disabled for a reason; [revision] says whether the statement raises
    the revision. *)
Definition block_schedule (now : DateTime) (bump : bool) (reason : option string)
    (deleted_at : option DateTime) (id : Uuid) (h : ScheduleRow) : ScheduleRow :=
  {| sh_revision := if bump then sh_revision h + 1 else sh_revision h;
     sh_etag := if bump then version_etag id (sh_revision h + 1) else sh_etag h;
     sh_task_id := sh_task_id h; sh_project_id := sh_project_id h;
     sh_thread_id := sh_thread_id h; sh_cron_expression := sh_cron_expression h;
     sh_timezone := sh_timezone h; sh_executor_target := sh_executor_target h;
     sh_input := sh_input h; sh_model_profile_id := sh_model_profile_id h;
     sh_enabled := false; sh_next_run_at := None;
     sh_last_triggered_at := sh_last_triggered_at h; sh_blocked_reason := reason;
     sh_created_by := sh_created_by h; sh_created_at := sh_created_at h;
     sh_updated_at := now; sh_deleted_at := deleted_at |}.

(** A revision of a task that is no longer released. *)
Definition unrelease_task (deleted_at : TaskRow -> option DateTime) (t : TaskRow) : TaskRow :=
  {| td_etag := td_etag t; td_project_id := td_project_id t; td_name := td_name t;
     td_instructions := td_instructions t; td_required_capabilities := td_required_capabilities t;
     td_default_executor_target := td_default_executor_target t; td_config := td_config t;
     td_released := false; td_created_by := td_created_by t; td_created_at := td_created_at t;
     td_deleted_at := deleted_at t |}.

(** The live entities of a user and type whose payload has this string in a field, in the
    order of their identifiers: [payload ->> key = value]. *)
Definition entities_where (p : SyncEntityRow -> bool) (db : Db) (user_id : Uuid)
    (entity_type : string) : list Uuid :=
  merge_sort N.le
    (omap (fun kv => if bool_decide (kv.1.1.1 = user_id) && bool_decide (kv.1.1.2 = entity_type)
                        && p kv.2
                     then Some kv.1.2 else None)
          (map_to_list (sync_entities db))).

Definition payload_refers (key : string) (reference : Uuid) (e : SyncEntityRow) : bool :=
  bool_decide ((se_payload e ≫= get_str key) = Some (uuid_to_string reference)).

Definition entity_operation (e : SyncEntityRow) : SyncOperation :=
  if se_tombstone e then Delete else Upsert.

(** Materialises the entities a query selected before the loop. *)
Definition for_entities (db : Db) (user_id : Uuid) (entity_type : string) (ids : list Uuid)
    (materialize : Uuid -> SyncOperation -> option Value -> Tx unit) : Tx unit :=
  tx_iter (fun entity_id =>
      match sync_entities db !! (user_id, entity_type, entity_id) with
      | Some e => materialize entity_id (entity_operation e) (se_payload e)
      | None => mret tt
      end) ids.

(** ** Messages *)

Definition touch_materialized_thread (thread_id : Uuid) : Tx unit :=
  env ← ask;
  update_threads (fun id t => bool_decide (id = thread_id) && not_deleted (th_deleted_at t))
    (fun id t => rewrite_thread (db_now env) (th_project_id t) (th_title t) (th_deleted_at t) id t).

Definition parse_role (role : string) : result ApiError MessageRole :=
  if String.eqb role "user" then Ok RoleUser
  else if String.eqb role "assistant" then Ok RoleAssistant
  else if String.eqb role "system" then Ok RoleSystem
  else if String.eqb role "tool" then Ok RoleTool
  else Err (Unprocessable "message role is not supported").

Definition materialize_message (user_id message_id : Uuid) (operation : SyncOperation)
    (payload : option Value) : Tx unit :=
  env ← ask;
  tracked ← is_materialized user_id "message" message_id;
  db ← get_db;
  let current := messages db !! message_id in
  _ ← reject_if (bool_decide (is_Some current) && negb tracked)
        (Conflict "synced message ID collides with an independent server message");
  match operation with
  | Delete =>
      match current with
      | Some m =>
          when tracked
            (_ ← update_messages (fun id _ => bool_decide (id = message_id))
                   (delete_message (db_now env));
             touch_materialized_thread (mr_thread_id m))
      | None => mret tt
      end
  | Upsert =>
      object ← lift (object_payload payload "message");
      thread_id ← require (map_str "thread_id" object ≫= parse_uuid env)
                    (Unprocessable "message thread_id must be a UUID string");
      role ← lift (parse_role (from_option id "assistant" (map_str "role" object)));
      if negb (bool_decide (is_Some (private_thread_project db user_id thread_id)))
      then mret tt
      else
        let content := from_option id (JObject []) payload in
        let author : option Uuid := if bool_decide (role = RoleUser) then Some user_id else None in
        let created_at := from_option id (app_now env)
          ((map_get "timestamp" object ≫= as_i64) ≫= from_timestamp_millis env) in
        _ ← (if bool_decide (is_Some current)
             then update_messages (fun id _ => bool_decide (id = message_id))
                    (rewrite_message (db_now env) thread_id author role content)
             else modify (fun db => set_messages
                    (<[message_id :=
                        {| mr_revision := 1; mr_etag := version_etag message_id 1;
                           mr_thread_id := thread_id; mr_author_user_id := author;
                           mr_role := role; mr_content := content; mr_run_id := None;
                           mr_created_at := created_at; mr_updated_at := created_at;
                           mr_deleted_at := None |}]> (messages db)) db));
        _ ← remember_materialization user_id "message" message_id;
        touch_materialized_thread thread_id
  end.

(** ** Schedules *)

Definition pool_granted (db : Db) (kind : ExecutorKind) (pool_id project_id : Uuid) : bool :=
  match executor_pools db !! pool_id with
  | Some pool => bool_decide (po_kind pool = kind) && not_deleted (po_deleted_at pool)
                 && bool_decide (is_Some (pool_project_grants db !! (pool_id, project_id)))
  | None => false
  end.

Definition validate_synced_schedule_target (user_id project_id : Uuid)
    (target : ExecutorTarget) : Tx unit :=
  db ← get_db;
  let allowed :=
    match target with
    | ServerLinux None => true
    | ServerLinux (Some pool_id) => pool_granted db KServerLinux pool_id project_id
    | ManagedWindowsPool pool_id => pool_granted db KManagedWindows pool_id project_id
    | PersonalDevice device_id =>
        match executors db !! device_id with
        | Some e => bool_decide (exw_owner_user_id e = Some user_id)
                    && bool_decide (exw_kind e = KPersonalDevice)
        | None => false
        end
    end in
  reject_if (negb allowed)
    (Unauthorized "schedule executor target is not available to this private project").

(** [serde_json::to_value(&target)] *)
Definition executor_target_to_value (target : ExecutorTarget) : Value :=
  match target with
  | ServerLinux pool_id =>
      json_obj [("kind", JString "server_linux"); ("pool_id", jopt juuid pool_id)]
  | ManagedWindowsPool pool_id =>
      json_obj [("kind", JString "managed_windows_pool"); ("pool_id", juuid pool_id)]
  | PersonalDevice device_id =>
      json_obj [("kind", JString "personal_device"); ("device_id", juuid device_id)]
  end.

Definition decode_target_as (env : Env) (label : string) (v : Value)
    : result ApiError ExecutorTarget :=
  map_err (fun error => Unprocessable ("invalid " +:+ label +:+ ": " +:+ error))
    (decode_target env v).

(** A profile that the owner may use and its defaults. *)
Definition owned_profile_defaults (db : Db) (user_id : Uuid) (profile_id : Uuid)
    : option Value :=
  match live_profile db profile_id with
  | Some f => if bool_decide (pf_owner_user_id f = Some user_id)
              then Some (pf_model_defaults f) else None
  | None => None
  end.

(** The profile a schedule may use on this target, and why it has to wait otherwise. *)
Definition schedule_profile (db : Db) (user_id : Uuid) (target : ExecutorTarget)
    (requested : option Uuid) : option Uuid * option string :=
  let expected := match target with PersonalDevice _ => "per_device" | _ => "server" end in
  match requested with
  | None => (None, None)
  | Some profile_id =>
      match owned_profile_defaults db user_id profile_id with
      | None => (None, Some "waiting for model profile metadata")
      | Some defaults =>
          if bool_decide (get_str "endpoint_binding" defaults = Some expected)
          then (Some profile_id, None)
          else (None, Some "model profile is bound to a different executor class")
      end
  end.

(** The fields of a schedule payload. *)
Record ScheduleFields := {
  sf_task_id : Uuid;
  sf_project_id : Uuid;
  sf_thread_id : Uuid;
  sf_cron : string;
  sf_timezone : string;
  sf_target : Value;
  sf_input : Value;
  sf_model_profile_id : option Uuid;
  sf_enabled : bool;
}.

Definition schedule_unchanged (h : ScheduleRow) (f : ScheduleFields) : bool :=
  bool_decide (sh_task_id h = sf_task_id f) && bool_decide (sh_project_id h = sf_project_id f)
  && bool_decide (sh_thread_id h = sf_thread_id f)
  && String.eqb (sh_cron_expression h) (sf_cron f)
  && String.eqb (sh_timezone h) (sf_timezone f)
  && bool_decide (sh_executor_target h = sf_target f) && bool_decide (sh_input h = sf_input f)
  && bool_decide (sh_model_profile_id h = sf_model_profile_id f)
  && Bool.eqb (sh_enabled h) (sf_enabled f) && not_deleted (sh_deleted_at h).

(** The columns INSERT and UPDATE write; [created_by] and the times of the old row stay. *)
Definition schedule_row (now : DateTime) (user_id schedule_id : Uuid) (revision : Z)
    (f : ScheduleFields) (next_run_at : option DateTime) (blocked_reason : option string)
    (current : option ScheduleRow) : ScheduleRow :=
  {| sh_revision := revision; sh_etag := version_etag schedule_id revision;
     sh_task_id := sf_task_id f; sh_project_id := sf_project_id f;
     sh_thread_id := sf_thread_id f; sh_cron_expression := sf_cron f;
     sh_timezone := sf_timezone f; sh_executor_target := sf_target f; sh_input := sf_input f;
     sh_model_profile_id := sf_model_profile_id f; sh_enabled := sf_enabled f;
     sh_next_run_at := next_run_at;
     sh_last_triggered_at := current ≫= sh_last_triggered_at;
     sh_blocked_reason := blocked_reason;
     sh_created_by := from_option sh_created_by user_id current;
     sh_created_at := from_option sh_created_at now current;
     sh_updated_at := now; sh_deleted_at := None |}.

Definition live_task (db : Db) (task_id project_id : Uuid) : bool :=
  existsb (fun kv => bool_decide (kv.1.1 = task_id) && bool_decide (td_project_id kv.2 = project_id)
                     && not_deleted (td_deleted_at kv.2)) (map_to_list (task_definitions db)).

Definition live_thread_in (db : Db) (thread_id project_id : Uuid) : bool :=
  match threads db !! thread_id with
  | Some t => bool_decide (th_project_id t = project_id) && not_deleted (th_deleted_at t)
  | None => false
  end.

(** The rest of the upsert once its references are there. *)
Definition write_schedule (user_id schedule_id task_id project_id thread_id : Uuid)
    (object : Map) (current : option ScheduleRow) : Tx unit :=
  env ← ask;
  db ← get_db;
  cron_text ← lift (required_text object ["cron"; "cron_expression"] "schedule cron" 500);
  cron ← lift (TaskConfig.normalized_cron env cron_text);
  zone_text ← lift (required_text object ["timezone"] "schedule timezone" 200);
  timezone ← lift (TaskConfig.validated_timezone env zone_text);
  target_value ← require (map_get "executor_target" object)
                   (Unprocessable "schedule executor_target is required");
  target ← lift (decode_target_as env "schedule executor_target" target_value);
  _ ← validate_synced_schedule_target user_id project_id target;
  requested ← lift (optional_uuid env object "model_profile_id"
                      "schedule model_profile_id must be a UUID string");
  let '(model_profile_id, blocked_reason) := schedule_profile db user_id target requested in
  let fields :=
    {| sf_task_id := task_id; sf_project_id := project_id; sf_thread_id := thread_id;
       sf_cron := cron; sf_timezone := timezone; sf_target := executor_target_to_value target;
       sf_input := from_option id (JObject []) (map_get "input" object);
       sf_model_profile_id := model_profile_id;
       sf_enabled := from_option id true (map_get "enabled" object ≫= as_bool) |} in
  if from_option (fun h => schedule_unchanged h fields) false current
  then remember_materialization user_id "schedule" schedule_id
  else
    revision ← sql_bigint (from_option sh_revision 0%Z current + 1);
    next_run_at ←
      (if sf_enabled fields && bool_decide (blocked_reason = None)
       then (next ← lift (TaskConfig.next_occurrence_normalized env cron timezone (app_now env));
             mret (Some next))
       else mret None);
    _ ← modify (fun db => set_schedules
          (<[schedule_id := schedule_row (db_now env) user_id schedule_id revision fields
                              next_run_at blocked_reason current]> (schedules db)) db);
    remember_materialization user_id "schedule" schedule_id.

Definition materialize_schedule (user_id schedule_id : Uuid) (operation : SyncOperation)
    (payload : option Value) : Tx unit :=
  env ← ask;
  tracked ← is_materialized user_id "schedule" schedule_id;
  db ← get_db;
  let current := schedules db !! schedule_id in
  _ ← reject_if (bool_decide (is_Some current) && negb tracked)
        (Conflict "synced schedule ID collides with an independent server schedule");
  match operation with
  | Delete =>
      when tracked
        (update_schedules
           (fun id h => bool_decide (id = schedule_id) && not_deleted (sh_deleted_at h))
           (fun id h => block_schedule (db_now env) true (sh_blocked_reason h)
                          (Some (db_now env)) id h))
  | Upsert =>
      object ← lift (object_payload payload "schedule");
      task_id ← lift (required_uuid env object "task_id" "schedule task_id");
      project_id ← lift (required_uuid env object "project_id" "schedule project_id");
      thread_id ← lift (required_uuid env object "thread_id" "schedule thread_id");
      if private_project db user_id project_id && live_task db task_id project_id
         && live_thread_in db thread_id project_id
      then write_schedule user_id schedule_id task_id project_id thread_id object current
      else mret tt
  end.

Definition reconcile_schedules_for_reference (user_id : Uuid) (reference_key : string)
    (reference_id : Uuid) : Tx unit :=
  _ ← reject_if (negb (str_mem reference_key
                         ["task_id"; "thread_id"; "project_id"; "model_profile_id"]))
        (Internal ("unsupported schedule reference key " +:+ reference_key));
  db ← get_db;
  for_entities db user_id "schedule"
    (entities_where (payload_refers reference_key reference_id) db user_id "schedule")
    (materialize_schedule user_id).

(** ** Tasks *)

(** The project a task payload names, itself or through its thread, if the user may use it. *)
Definition private_task_project (user_id : Uuid) (object : Map) : Tx (option Uuid) :=
  env ← ask;
  explicit ← lift (optional_uuid env object "project_id" "task project_id must be a UUID string");
  thread_id ← lift (optional_uuid env object "thread_id" "task thread_id must be a UUID string");
  db ← get_db;
  let of_thread := thread_id ≫= private_thread_project db user_id in
  _ ← reject_if (bool_decide (is_Some explicit) && bool_decide (is_Some of_thread)
                 && bool_decide (explicit ≠ of_thread))
        (Conflict "task project_id and thread_id refer to different projects");
  let project_id := match explicit with Some p => Some p | None => of_thread end in
  mret (match project_id with
        | Some p => if private_project db user_id p then Some p else None
        | None => None
        end).

Definition task_projection_config (object : Map) : result ApiError Value :=
  let task_kind := from_option id "work" (map_str "task_kind" object) in
  let runner := from_option id "model" (map_str "runner" object) in
  let field key := (key, from_option id JNull (map_get key object)) in
  if negb (str_mem task_kind ["work"; "plan"])
  then Err (Unprocessable "task_kind must be work or plan")
  else if negb (str_mem runner ["model"; "crew"])
  then Err (Unprocessable "task runner must be model or crew")
  else Ok (json_obj
    [("sync_metadata", json_obj
       [("task_kind", JString task_kind); field "expected_output"; field "thread_id";
        ("runner", JString runner); field "crew_id"; field "model"; field "backend_selection";
        field "schedule_expression";
        ("schedule_enabled", from_option id (JBool false) (map_get "schedule_enabled" object));
        field "status"; field "note"])]).

(** The fields of a task payload. *)
Record TaskFields := {
  tf_project_id : Uuid;
  tf_name : string;
  tf_instructions : string;
  tf_required_capabilities : Value;
  tf_default_target : option Value;
  tf_config : Value;
}.

Definition task_unchanged (t : TaskRow) (f : TaskFields) : bool :=
  bool_decide (td_project_id t = tf_project_id f) && String.eqb (td_name t) (tf_name f)
  && String.eqb (td_instructions t) (tf_instructions f)
  && bool_decide (td_required_capabilities t = tf_required_capabilities f)
  && bool_decide (td_default_executor_target t = tf_default_target f)
  && bool_decide (td_config t = tf_config f) && not_deleted (td_deleted_at t).

Definition task_fields (env : Env) (project_id : Uuid) (object : Map)
    : result ApiError TaskFields :=
  name ← required_text object ["title"; "name"] "task name" 200;
  instructions ← required_text object ["description"; "instructions"] "task instructions" 1000000;
  requested ← map_err (fun error =>
                  Unprocessable ("invalid task required_capabilities: " +:+ error))
                (decode_capabilities env
                  (from_option id (JArray []) (map_get "required_capabilities" object)));
  let default_target := map_get "default_executor_target" object in
  _ ← match default_target with
      | Some target => decode_target_as env "task default_executor_target" target
      | None => Ok (ServerLinux None)
      end;
  config ← task_projection_config object;
  capabilities ← TaskConfig.effective_task_capabilities requested config;
  Ok {| tf_project_id := project_id; tf_name := name; tf_instructions := instructions;
        tf_required_capabilities := JArray (JString <$> capabilities);
        tf_default_target := default_target; tf_config := config |}.

(** [SELECT * FROM task_definitions WHERE id = $1 ORDER BY revision DESC LIMIT 1] *)
Definition current_task (db : Db) (task_id : Uuid) : option (Z * TaskRow) :=
  head (task_revisions (fun _ => true) db task_id).

(** [UPDATE task_definitions] over the revisions of a task or of a project. *)
Definition update_tasks (p : Uuid -> TaskRow -> bool) (deleted_at : TaskRow -> option DateTime)
    : Tx unit :=
  modify (fun db => set_task_definitions
    (update_where (fun k t => p k.1 t) (fun _ => unrelease_task deleted_at)
      (task_definitions db)) db).

Definition schedules_of (p : ScheduleRow -> bool) (db : Db) : list Uuid :=
  ids_where (fun _ h => p h && not_deleted (sh_deleted_at h)) (schedules db).

Definition publish_schedules (ids : list Uuid) : Tx unit :=
  tx_iter (fun schedule_id => _ ← publish_canonical_schedule_tx schedule_id; mret tt) ids.

Definition delete_synced_task (task_id : Uuid) : Tx unit :=
  env ← ask;
  db ← get_db;
  let of_task h := bool_decide (sh_task_id h = task_id) in
  let schedule_ids := schedules_of of_task db in
  _ ← update_tasks (fun id _ => bool_decide (id = task_id))
        (fun t => Some (from_option id (db_now env) (td_deleted_at t)));
  _ ← modify (fun db => set_schedules
        (update_where (fun _ h => of_task h && not_deleted (sh_deleted_at h))
          (fun id h => block_schedule (db_now env) false (Some "task deleted") (sh_deleted_at h) id h)
          (schedules db)) db);
  publish_schedules schedule_ids.

Definition materialize_task (user_id task_id : Uuid) (operation : SyncOperation)
    (payload : option Value) : Tx unit :=
  env ← ask;
  tracked ← is_materialized user_id "task" task_id;
  db ← get_db;
  let current := current_task db task_id in
  _ ← reject_if (bool_decide (is_Some current) && negb tracked)
        (Conflict "synced task ID collides with an independent server task");
  match operation with
  | Delete => when tracked (delete_synced_task task_id)
  | Upsert =>
      object ← lift (object_payload payload "task");
      found ← private_task_project user_id object;
      match found with
      | None => mret tt
      | Some project_id =>
          fields ← lift (task_fields env project_id object);
          _ ← (if from_option (fun rt => task_unchanged rt.2 fields) false current then mret tt
               else
                 revision ← sql_bigint (from_option fst 0%Z current + 1);
                 _ ← update_tasks (fun id t => bool_decide (id = task_id) && td_released t)
                       td_deleted_at;
                 modify (fun db => set_task_definitions
                   (<[(task_id, revision) :=
                       {| td_etag := version_etag task_id revision;
                          td_project_id := tf_project_id fields; td_name := tf_name fields;
                          td_instructions := tf_instructions fields;
                          td_required_capabilities := tf_required_capabilities fields;
                          td_default_executor_target := tf_default_target fields;
                          td_config := tf_config fields; td_released := true;
                          td_created_by := user_id; td_created_at := db_now env;
                          td_deleted_at := None |}]> (task_definitions db)) db));
          _ ← remember_materialization user_id "task" task_id;
          reconcile_schedules_for_reference user_id "task_id" task_id
      end
  end.

Definition reconcile_thread_tasks (user_id thread_id : Uuid) : Tx unit :=
  db ← get_db;
  for_entities db user_id "task"
    (entities_where (payload_refers "thread_id" thread_id) db user_id "task")
    (materialize_task user_id).

(** ** Threads *)

Definition soft_delete_thread (user_id thread_id : Uuid) : Tx unit :=
  env ← ask;
  db ← get_db;
  let owned := thread_owned db user_id thread_id in
  _ ← update_messages
        (fun _ m => bool_decide (mr_thread_id m = thread_id) && owned
                    && not_deleted (mr_deleted_at m))
        (delete_message (db_now env));
  _ ← update_schedules
        (fun _ h => bool_decide (sh_thread_id h = thread_id) && owned
                    && not_deleted (sh_deleted_at h))
        (block_schedule (db_now env) true (Some "thread unavailable") (Some (db_now env)));
  update_threads (fun id _ => bool_decide (id = thread_id) && owned) (delete_thread (db_now env)).

(** The project whose synced payload lists the thread. *)
Definition project_for_thread (user_id thread_id : Uuid) : Tx (option Uuid) :=
  db ← get_db;
  let lists e :=
    negb (se_tombstone e)
    && match se_payload e ≫= get_array "thread_ids" with
       | Some ids => bool_decide (JString (uuid_to_string thread_id) ∈ ids)
       | None => false
       end in
  match entities_where lists db user_id "project" with
  | _ :: _ :: _ =>
      fail (Conflict ("thread " +:+ uuid_to_string thread_id
                      +:+ " is assigned to more than one synced project"))
  | found => mret (head found)
  end.

Definition delete_synced_thread (user_id thread_id : Uuid) : Tx unit :=
  db ← get_db;
  let message_ids := ids_where (fun _ m => bool_decide (mr_thread_id m = thread_id)
                                           && not_deleted (mr_deleted_at m)) (messages db) in
  let schedule_ids := schedules_of (fun h => bool_decide (sh_thread_id h = thread_id)) db in
  _ ← soft_delete_thread user_id thread_id;
  _ ← tx_iter (publish_server_tombstone_tx user_id "message") message_ids;
  tx_iter (publish_server_tombstone_tx user_id "schedule") schedule_ids.

Definition write_thread (user_id thread_id project_id : Uuid) (title : string) : Tx unit :=
  env ← ask;
  db ← get_db;
  _ ← (if bool_decide (is_Some (threads db !! thread_id))
       then update_threads (fun id _ => bool_decide (id = thread_id))
              (rewrite_thread (db_now env) project_id title None)
       else modify (fun db => set_threads
              (<[thread_id :=
                  {| th_revision := 1; th_etag := version_etag thread_id 1;
                     th_project_id := project_id; th_created_by := user_id; th_title := title;
                     th_created_at := db_now env; th_updated_at := db_now env;
                     th_deleted_at := None |}]> (threads db)) db));
  remember_materialization user_id "thread" thread_id.

Definition materialize_thread (user_id thread_id : Uuid) (operation : SyncOperation)
    (payload : option Value) : Tx unit :=
  tracked ← is_materialized user_id "thread" thread_id;
  db ← get_db;
  _ ← reject_if (bool_decide (is_Some (threads db !! thread_id)) && negb tracked)
        (Conflict "synced thread ID collides with an independent server thread");
  match operation with
  | Delete => when tracked (delete_synced_thread user_id thread_id)
  | Upsert =>
      object ← lift (object_payload payload "thread");
      title ← lift (required_text object ["title"] "thread title" 200);
      found ← project_for_thread user_id thread_id;
      match found with
      | None => when tracked (soft_delete_thread user_id thread_id)
      | Some project_id =>
          when (private_project db user_id project_id)
            (_ ← write_thread user_id thread_id project_id title;
             db ← get_db;
             _ ← for_entities db user_id "message"
                   (entities_where (payload_refers "thread_id" thread_id) db user_id "message")
                   (materialize_message user_id);
             _ ← reconcile_thread_tasks user_id thread_id;
             reconcile_schedules_for_reference user_id "thread_id" thread_id)
      end
  end.

(** ** Projects *)

(** The thread identifiers in a project payload, after those already there. *)
Fixpoint push_thread_ids (env : Env) (thread_ids : list Uuid) (values : list Value)
    : result ApiError (list Uuid) :=
  match values with
  | [] => Ok thread_ids
  | value :: rest =>
      thread_id ← ok_or (Unprocessable "project thread_ids must contain UUID strings")
                    (as_str value ≫= parse_uuid env);
      push_thread_ids env
        (if bool_decide (thread_id ∈ thread_ids) then thread_ids else thread_ids ++ [thread_id])
        rest
  end.

Definition reconcile_project_threads (user_id project_id : Uuid) : Tx unit :=
  env ← ask;
  db ← get_db;
  let known := ids_where (fun id t => bool_decide (th_project_id t = project_id)
                 && bool_decide (is_Some (sync_materializations db !! (user_id, "thread", id))))
                 (threads db) in
  let desired :=
    match sync_entities db !! (user_id, "project", project_id) with
    | Some e => if se_tombstone e then []
                else from_option id [] (se_payload e ≫= get_array "thread_ids")
    | None => []
    end in
  thread_ids ← lift (push_thread_ids env known desired);
  tx_iter (fun thread_id =>
      db ← get_db;
      match sync_entities db !! (user_id, "thread", thread_id) with
      | Some e => materialize_thread user_id thread_id (entity_operation e) (se_payload e)
      | None =>
          tracked ← is_materialized user_id "thread" thread_id;
          when tracked (soft_delete_thread user_id thread_id)
      end) thread_ids.

(** [Vec::dedup] *)
Fixpoint dedup (l : list Uuid) : list Uuid :=
  match l with
  | x :: ((y :: _) as rest) => if bool_decide (x = y) then dedup rest else x :: dedup rest
  | _ => l
  end.

(** The tasks of a project with a live revision. *)
Definition project_task_ids (db : Db) (project_id : Uuid) : list Uuid :=
  dedup (merge_sort N.le
    (omap (fun kv => if bool_decide (td_project_id kv.2 = project_id) && not_deleted (td_deleted_at kv.2)
                     then Some kv.1.1 else None) (map_to_list (task_definitions db)))).

Definition delete_synced_project (user_id project_id : Uuid) : Tx unit :=
  env ← ask;
  db ← get_db;
  let now := db_now env in
  let in_project thread_id :=
    bool_decide (th_project_id <$> threads db !! thread_id = Some project_id) in
  let live_thread (_ : Uuid) t := bool_decide (th_project_id t = project_id)
                                  && not_deleted (th_deleted_at t) in
  let live_message (_ : Uuid) m := in_project (mr_thread_id m) && not_deleted (mr_deleted_at m) in
  let of_project h := bool_decide (sh_project_id h = project_id) in
  let thread_ids := ids_where live_thread (threads db) in
  let message_ids := ids_where live_message (messages db) in
  let task_ids := project_task_ids db project_id in
  let schedule_ids := schedules_of of_project db in
  _ ← update_messages live_message (delete_message now);
  _ ← update_schedules (fun _ h => of_project h && not_deleted (sh_deleted_at h))
        (block_schedule now true (Some "project deleted") (Some now));
  _ ← update_tasks (fun _ t => bool_decide (td_project_id t = project_id)
                               && not_deleted (td_deleted_at t)) (fun _ => Some now);
  _ ← update_threads live_thread (delete_thread now);
  _ ← update_projects (fun id p => bool_decide (id = project_id)
                                   && bool_decide (pr_owner_user_id p = user_id)
                                   && bool_decide (pr_privacy p = PrivateLocal))
        (delete_project now);
  _ ← tx_iter (publish_server_tombstone_tx user_id "message") message_ids;
  _ ← tx_iter (publish_server_tombstone_tx user_id "thread") thread_ids;
  _ ← tx_iter (publish_server_tombstone_tx user_id "schedule") schedule_ids;
  tx_iter (publish_server_tombstone_tx user_id "task") task_ids.

Record ProjectFields := {
  pf_title : string;
  pf_description : string;
  pf_policy : Value;
  pf_target : option Value;
}.

Definition project_fields (env : Env) (object : Map) : result ApiError ProjectFields :=
  _ ← guard_err (match map_str "project_kind" object with
                 | Some kind => negb (str_mem kind ["private"; "private_local"])
                 | None => false
                 end) (Unprocessable "personal metadata sync cannot create team projects");
  name ← required_text object ["title"; "name"] "project name" 200;
  description ← optional_text object ["instructions"; "description"] 200000;
  let policy := from_option id (JObject []) (map_get "policy" object) in
  _ ← guard_err (negb (is_object policy)) (Unprocessable "project policy must be a JSON object");
  let target := map_get "preferred_executor_target" object in
  _ ← match target with
      | Some v => decode_target_as env "preferred executor target" v
      | None => Ok (ServerLinux None)
      end;
  Ok {| pf_title := name; pf_description := description; pf_policy := policy;
        pf_target := target |}.

Definition materialize_project (user_id project_id : Uuid) (operation : SyncOperation)
    (payload : option Value) : Tx unit :=
  env ← ask;
  tracked ← is_materialized user_id "project" project_id;
  db ← get_db;
  let current := projects db !! project_id in
  _ ← reject_if (bool_decide (is_Some current) && negb tracked)
        (Conflict "synced project ID collides with an independent server project");
  _ ← reject_if (match current with
                 | Some p => negb (bool_decide (pr_owner_user_id p = user_id)
                                   && bool_decide (pr_privacy p = PrivateLocal))
                 | None => false
                 end)
        (Conflict "synced projects may only materialize into their owner's private project");
  match operation with
  | Delete => when tracked (delete_synced_project user_id project_id)
  | Upsert =>
      object ← lift (object_payload payload "project");
      fields ← lift (project_fields env object);
      _ ← (if bool_decide (is_Some current)
           then update_projects (fun id _ => bool_decide (id = project_id))
                  (rewrite_project (db_now env) (pf_title fields) (pf_description fields)
                    (pf_target fields) (pf_policy fields) None)
           else modify (fun db => set_projects
                  (<[project_id :=
                      {| pr_revision := 1; pr_etag := version_etag project_id 1;
                         pr_owner_user_id := user_id; pr_team_id := None;
                         pr_privacy := PrivateLocal; pr_name := pf_title fields;
                         pr_description := pf_description fields;
                         pr_preferred_executor_target := pf_target fields;
                         pr_policy := pf_policy fields; pr_current_version_id := None;
                         pr_created_at := db_now env;
                         pr_updated_at := db_now env; pr_deleted_at := None |}]>
                    (projects db)) db));
      _ ← remember_materialization user_id "project" project_id;
      reconcile_project_threads user_id project_id
  end.

(** ** Provider profiles *)

Definition MAX_PROFILE_NAME : Z := 200.

Definition validated_name (value : string) : result ApiError string :=
  let value := trim value in
  if str_is_empty value || bool_decide (MAX_PROFILE_NAME < str_len value)%Z
  then Err (Unprocessable ("provider profile name must contain 1 to "
                           +:+ pretty MAX_PROFILE_NAME +:+ " characters"))
  else Ok value.

Definition normalized_provider_kind (value : string) : result ApiError string :=
  let value := trim value in
  if str_mem value ["openai-compatible"; "openai_compatible"] then Ok "openai_compatible"
  else Err (Unprocessable ("unsupported provider_kind " +:+ value
                           +:+ "; expected openai_compatible")).

Definition normalized_synced_profile (payload : Value) : result ApiError (string * string * Value) :=
  object ← ok_or (Unprocessable "provider profile sync payload must be an object")
             (as_object payload);
  name ← validated_name (from_option id "" (map_str "name" object));
  let provider := match map_get "provider" object with
                  | Some v => Some v
                  | None => map_get "provider_kind" object
                  end in
  provider_kind ← normalized_provider_kind
                    (from_option id "openai-compatible" (provider ≫= as_str));
  let defaults := foldl (fun m key => map_remove key m) object
                    ["_cowork_local_entity_id"; "name"; "provider"; "provider_kind"] in
  let defaults := map_insert "endpoint_binding" (JString "per_device") defaults in
  Ok (name, provider_kind, JObject (map_insert "source" (JString "desktop") defaults)).

(** The defaults of a server-bound profile keep their connection settings. *)
Definition merged_defaults (existing incoming : Value) : Value :=
  if bool_decide (get_str "endpoint_binding" existing = Some "server")
  then JObject (foldl (fun merged key =>
                  match get key incoming with
                  | Some value => map_insert key value merged
                  | None => merged
                  end) (from_option id [] (as_object existing))
                ["model"; "timeout_ms"; "verify_tls_certificates"; "context_window";
                 "temperature"; "preset"])
  else incoming.

(** A profile row without its secret, deleted. *)
Definition delete_profile (now : DateTime) (id : Uuid) (f : ProfileRow) : ProfileRow :=
  {| pf_revision := pf_revision f + 1; pf_etag := version_etag id (pf_revision f + 1);
     pf_owner_user_id := pf_owner_user_id f; pf_team_id := pf_team_id f;
     pf_name := pf_name f; pf_provider_kind := pf_provider_kind f;
     pf_model_defaults := pf_model_defaults f; pf_secret := None;
     pf_updated_at := now; pf_deleted_at := Some now |}.

Definition delete_synced_profile (user_id profile_id : Uuid) : Tx unit :=
  env ← ask;
  db ← get_db;
  let of_profile h := bool_decide (sh_model_profile_id h = Some profile_id) in
  let schedule_ids := schedules_of of_profile db in
  profiles ← bump_where pf_revision
               (fun id f => bool_decide (id = profile_id)
                            && bool_decide (pf_owner_user_id f = Some user_id)
                            && not_deleted (pf_deleted_at f))
               (delete_profile (db_now env)) (provider_profiles db);
  _ ← modify (set_provider_profiles profiles);
  _ ← update_schedules (fun _ h => of_profile h && not_deleted (sh_deleted_at h))
        (fun id h => block_schedule (db_now env) true (Some "model profile was deleted")
                       (sh_deleted_at h) id h);
  publish_schedules schedule_ids.

Definition materialize_provider_profile (user_id profile_id : Uuid) (operation : SyncOperation)
    (payload : option Value) : Tx unit :=
  env ← ask;
  tracked ← is_materialized user_id "provider_profile" profile_id;
  db ← get_db;
  let current := provider_profiles db !! profile_id in
  _ ← reject_if (bool_decide (is_Some current) && negb tracked)
        (Conflict "synced provider profile ID collides with an independent server profile");
  _ ← reject_if (match current with
                 | Some f => negb (bool_decide (pf_owner_user_id f = Some user_id)
                                   && bool_decide (pf_team_id f = None))
                 | None => false
                 end)
        (Conflict "synced provider profiles may only modify their owner's personal profile");
  match operation with
  | Delete => when tracked (delete_synced_profile user_id profile_id)
  | Upsert =>
      value ← require payload (Unprocessable "provider profile sync payload is required");
      normalized ← lift (normalized_synced_profile value);
      let '(name, provider_kind, incoming) := normalized in
      let defaults := match current with
                      | Some f => merged_defaults (pf_model_defaults f) incoming
                      | None => incoming
                      end in
      let unchanged f := String.eqb (pf_name f) name && String.eqb (pf_provider_kind f) provider_kind
                         && bool_decide (pf_model_defaults f = defaults)
                         && not_deleted (pf_deleted_at f) in
      _ ← (if from_option unchanged false current then mret tt
           else
             revision ← sql_bigint (from_option pf_revision 0%Z current + 1);
             modify (fun db => set_provider_profiles
               (<[profile_id :=
                   {| pf_revision := revision; pf_etag := version_etag profile_id revision;
                      pf_owner_user_id := from_option pf_owner_user_id (Some user_id) current;
                      pf_team_id := from_option pf_team_id None current;
                      pf_name := name; pf_provider_kind := provider_kind;
                      pf_model_defaults := defaults;
                      pf_secret := from_option pf_secret None current;
                      pf_updated_at := db_now env; pf_deleted_at := None |}]>
                 (provider_profiles db)) db));
      _ ← remember_materialization user_id "provider_profile" profile_id;
      reconcile_schedules_for_reference user_id "model_profile_id" profile_id
  end.

(** ** The dispatcher *)

Definition materialize_canonical_entity (user_id : Uuid) (entity_type : string)
    (entity_id : Uuid) (operation : SyncOperation) (payload : option Value) : Tx unit :=
  if String.eqb entity_type "project" then materialize_project user_id entity_id operation payload
  else if String.eqb entity_type "thread" then materialize_thread user_id entity_id operation payload
  else if String.eqb entity_type "message" then
    materialize_message user_id entity_id operation payload
  else if String.eqb entity_type "task" then materialize_task user_id entity_id operation payload
  else if String.eqb entity_type "schedule" then
    materialize_schedule user_id entity_id operation payload
  else if String.eqb entity_type "provider_profile" then
    materialize_provider_profile user_id entity_id operation payload
  else mret tt.

End Materialize.
