(* ===== verification/SyncProtocol.v ===== *)
(** * The sync protocol of the server (server/cowork-server/src/sync.rs)

    A device pushes batches of changes, each against the revision it last saw, pulls the
    change log from a cursor on, and lists the current entities page by page. A push that
    was already applied is answered from the stored result. Sessions push for their
    device, personal executors for their owner. *)

From S2P Require Import Prelude.
From S2P Require Import Json.
From S2P Require Import Contracts.
From S2P Require Import Auth.
From S2P Require Import Store.
From S2P Require Import Governance.
From S2P Require Import SyncPublish.
From S2P Require Import SyncMaterialize.

Module Sync.

Definition MAX_SYNC_BATCH : nat := 100.

(** ** Who is syncing *)

(** The owner of the personal executor that calls, as an answer without a transaction. *)
Definition personal_executor_owner (db : Db) (executor_id : Uuid) (principal : ExecutorPrincipal)
    : result ApiError Uuid :=
  _ ← guard_err (negb (bool_decide (ep_executor_id principal = executor_id)))
        (Unauthorized "executor credential does not match the requested executor");
  ok_or (Unauthorized "metadata sync is only available to owner-bound personal executors")
    (match executors db !! executor_id with
     | Some e => if bool_decide (exw_kind e = KPersonalDevice) then exw_owner_user_id e else None
     | None => None
     end).

Definition session_device_id (env : AuthEnv) (db : AuthDb) (principal : Principal)
    : result ApiError Uuid :=
  session_id ← ok_or (Unauthorized "metadata sync requires an authenticated device session")
                 (pr_session_id principal);
  ok_or (Unauthorized "device session is no longer active")
    (match au_auth_sessions db !! session_id with
     | Some session =>
         if bool_decide (ss_user_id session = pr_user_id principal)
            && session_live (ae_db_now env) session
         then Some (ss_device_id session) else None
     | None => None
     end).

(** ** Validation *)

Definition CLEARTEXT_KEYS : list string :=
  ["api_key"; "access_token"; "refresh_token"; "password"; "secret"; "client_secret";
   "authorization"].

Fixpoint contains_cleartext_secret_field (value : Value) : bool :=
  match value with
  | JObject object =>
      (fix in_object (m : list (string * Value)) : bool :=
         match m with
         | [] => false
         | (key, v) :: rest =>
             str_mem (to_ascii_lowercase key) CLEARTEXT_KEYS
             || contains_cleartext_secret_field v || in_object rest
         end) object
  | JArray items =>
      (fix in_array (l : list Value) : bool :=
         match l with
         | [] => false
         | v :: rest => contains_cleartext_secret_field v || in_array rest
         end) items
  | _ => false
  end.

(** The clock in the nanoseconds of a client timestamp. *)
Definition nanoseconds (t : DateTime) : Z := (t * 1000)%Z.

Definition validate_change (env : Env) (change : SyncChange) (session_device_id : Uuid)
    : result ApiError unit :=
  _ ← map_err (fun e => Unprocessable (contract_error_to_string e))
        (ensure_compatible (ch_schema_version change));
  _ ← guard_err (negb (bool_decide (ch_device_id change = session_device_id)))
        (Unauthorized "sync change device_id does not match the authenticated session");
  _ ← validate_entity_type (ch_entity_type change);
  _ ← guard_err (bool_decide (ch_base_revision change < 0)%Z)
        (Unprocessable "base_revision must not be negative");
  _ ← match ch_operation change, ch_payload change with
      | Upsert, None => Err (Unprocessable "upsert changes require a payload")
      | Delete, Some _ => Err (Unprocessable "delete changes must not contain a payload")
      | _, _ => Ok tt
      end;
  _ ← guard_err (from_option (fun payload => bool_decide (MAX_SYNC_PAYLOAD_BYTES < json_len env payload)%Z)
                   false (ch_payload change))
        (Unprocessable ("sync payload must not exceed " +:+ pretty MAX_SYNC_PAYLOAD_BYTES
                        +:+ " bytes"));
  _ ← guard_err (str_mem (ch_entity_type change)
                   ["provider_profile"; "secret_metadata"; "mcp_metadata"]
                 && from_option contains_cleartext_secret_field false (ch_payload change))
        (Unprocessable "metadata sync must not contain cleartext secret fields");
  guard_err (bool_decide (nanoseconds (app_now env + minutes 5) < ch_client_timestamp change)%Z)
    (Unprocessable "client_timestamp is too far in the future").

(** ** Applying one change *)

(** What a TIMESTAMPTZ column keeps of a timestamp: whole microseconds. *)
Definition stored_timestamp (nanos : Z) : DateTime := Z.quot nanos 1000.

Definition row_to_synced_entity (entity_type : string) (entity_id : Uuid) (row : SyncEntityRow)
    : SyncedEntity :=
  {| sd_entity_type := entity_type; sd_entity_id := entity_id; sd_revision := se_revision row;
     sd_etag := se_etag row; sd_payload := se_payload row; sd_tombstone := se_tombstone row;
     sd_updated_at := se_updated_at row |}.

Definition ensure_replayed_operation_matches (row : OperationRow) (user_id : Uuid)
    (change : SyncChange) : result ApiError unit :=
  let matches :=
    bool_decide (op_user_id row = user_id)
    && bool_decide (op_device_id row = ch_device_id change)
    && String.eqb (op_entity_type row) (ch_entity_type change)
    && bool_decide (op_entity_id row = ch_entity_id change)
    && bool_decide (op_base_revision row = ch_base_revision change)
    && String.eqb (op_operation row) (operation_name (ch_operation change))
    && bool_decide (op_payload row = ch_payload change)
    && bool_decide (nanoseconds (op_client_timestamp row) = ch_client_timestamp change) in
  if matches then Ok tt
  else Err (Conflict "operation_id was already used for a different sync change").

Definition payload_bytes (env : Env) (payload : option Value) : Z :=
  from_option (json_len env) 0%Z payload.

(** The branch that applies the change: the answer is the new entity. *)
Definition accept_change (user_id : Uuid) (change : SyncChange) (current : option SyncEntityRow)
    : Tx SyncedEntity :=
  env ← ask;
  let entity_type := ch_entity_type change in
  let entity_id := ch_entity_id change in
  let payload := ch_payload change in
  revision ← sql_bigint (from_option se_revision 0%Z current + 1);
  let tombstone := bool_decide (ch_operation change = Delete) in
  let current_bytes := payload_bytes env (current ≫= se_payload) in
  _ ← enforce_storage_quota_tx "user" user_id
        (Z.max 0 (payload_bytes env payload - current_bytes));
  _ ← put_sync_entity user_id entity_type entity_id revision payload tombstone;
  _ ← Materialize.materialize_canonical_entity user_id entity_type entity_id
        (ch_operation change) payload;
  _ ← append_sync_change user_id entity_type entity_id revision
        (operation_name (ch_operation change)) payload;
  mret {| sd_entity_type := entity_type; sd_entity_id := entity_id; sd_revision := revision;
          sd_etag := version_etag entity_id revision; sd_payload := payload;
          sd_tombstone := tombstone; sd_updated_at := db_now env |}.

Definition record_operation (user_id : Uuid) (change : SyncChange) (answer : SyncApplyResult)
    : Tx unit :=
  modify (fun db => set_sync_operations
    (<[ch_operation_id change :=
        {| op_device_id := ch_device_id change; op_user_id := user_id;
           op_entity_type := ch_entity_type change; op_entity_id := ch_entity_id change;
           op_base_revision := ch_base_revision change;
           op_operation := operation_name (ch_operation change);
           op_payload := ch_payload change;
           op_client_timestamp := stored_timestamp (ch_client_timestamp change);
           op_server_revision := sd_revision <$> sa_entity answer;
           op_result := answer |}]> (sync_operations db)) db).

(** The transaction of [apply_change]. *)
Definition apply_change (user_id : Uuid) (change : SyncChange) : Tx SyncApplyResult :=
  db ← get_db;
  match sync_operations db !! ch_operation_id change with
  | Some row =>
      _ ← lift (ensure_replayed_operation_matches row user_id change);
      mret (op_result row)
  | None =>
      let current := sync_entities db !! (user_id, ch_entity_type change, ch_entity_id change) in
      answer ←
        (if bool_decide (from_option se_revision 0%Z current ≠ ch_base_revision change)
         then mret {| sa_operation_id := ch_operation_id change; sa_status := SyncConflict;
                      sa_entity := row_to_synced_entity (ch_entity_type change)
                                     (ch_entity_id change) <$> current |}
         else
           entity ← accept_change user_id change current;
           mret {| sa_operation_id := ch_operation_id change; sa_status := Applied;
                   sa_entity := Some entity |});
      _ ← record_operation user_id change answer;
      mret answer
  end.

(** ** Pushing a batch

    Each change is a transaction of its own: those before a failing one stay applied, and
    the answer is the error. The environment of the [k]-th transaction is [envs k]. *)
Fixpoint apply_changes (envs : nat -> Env) (k : nat) (db : Db) (user_id : Uuid)
    (changes : list SyncChange) : Db * result ApiError (list SyncApplyResult) :=
  match changes with
  | [] => (db, Ok [])
  | change :: rest =>
      match run_tx (envs k) db (apply_change user_id change) with
      | (db', Err e) => (db', Err e)
      | (db', Ok answer) =>
          match apply_changes envs (S k) db' user_id rest with
          | (db'', Err e) => (db'', Err e)
          | (db'', Ok answers) => (db'', Ok (answer :: answers))
          end
      end
  end.

Fixpoint validate_changes (env : Env) (device_id : Uuid) (changes : list SyncChange)
    : result ApiError unit :=
  match changes with
  | [] => Ok tt
  | change :: rest =>
      _ ← validate_change env change device_id;
      validate_changes env device_id rest
  end.

Definition push_changes_for_device (envs : nat -> Env) (db : Db) (user_id device_id : Uuid)
    (changes : list SyncChange) : Db * result ApiError (list SyncApplyResult) :=
  if Nat.eqb (length changes) 0 || Nat.ltb MAX_SYNC_BATCH (length changes)
  then (db, Err (Unprocessable ("sync batch must contain 1 to "
                                +:+ pretty MAX_SYNC_BATCH +:+ " changes")))
  else
    match validate_changes (envs 0%nat) device_id changes with
    | Err e => (db, Err e)
    | Ok _ => apply_changes envs 1 db user_id changes
    end.

(** ** Pulling changes *)

Definition row_to_server_change (row : SyncChangeRow) : result ApiError ServerSyncChange :=
  operation ← ok_or (Internal ("unknown sync operation " +:+ sc_operation row))
                (parse_operation (sc_operation row));
  Ok {| sv_cursor := sc_cursor row; sv_entity_type := sc_entity_type row;
        sv_entity_id := sc_entity_id row; sv_revision := sc_revision row;
        sv_operation := operation; sv_payload := sc_payload row;
        sv_created_at := sc_created_at row |}.

Definition before_cursor (a b : SyncChangeRow) : Prop := (sc_cursor a ≤ sc_cursor b)%Z.

#[global] Instance before_cursor_dec a b : Decision (before_cursor a b).
Proof. unfold before_cursor. apply _. Defined.

(** [WHERE user_id = $1 AND cursor > $2 ORDER BY cursor LIMIT $3] *)
Definition select_changes (db : Db) (user_id : Uuid) (after : Z) (limit : nat)
    : list SyncChangeRow :=
  take limit (merge_sort before_cursor
    (filter (fun row => sc_user_id row = user_id /\ (after < sc_cursor row)%Z) (sync_changes db))).

Record PullResponse := {
  pl_changes : list ServerSyncChange;
  pl_next_cursor : Z;
}.

Definition next_cursor (after : Z) (changes : list ServerSyncChange) : Z :=
  from_option sv_cursor after (last changes).

Definition page_limit (limit : option Z) : nat :=
  Z.to_nat (clamp 1 1000 (from_option id 200%Z limit)).

(** The transaction of [pull_changes_for_device]. *)
Definition pull_changes_for_device (user_id device_id : Uuid) (after limit : option Z)
    : Tx PullResponse :=
  let after := from_option id 0%Z after in
  _ ← reject_if (bool_decide (after < 0)%Z) (Unprocessable "sync cursor must not be negative");
  db ← get_db;
  changes ← lift (res_mapM row_to_server_change
                    (select_changes db user_id after (page_limit limit)));
  let next := next_cursor after changes in
  let registered := sync_device_cursors db !! device_id in
  _ ← reject_if (from_option (fun c => negb (bool_decide (c.1 = user_id))) false registered)
        (Conflict "device identifier is already registered to another account");
  _ ← modify (fun db => set_sync_device_cursors
        (<[device_id := (user_id, from_option (fun c => Z.max c.2 next) next registered)]>
          (sync_device_cursors db)) db);
  mret {| pl_changes := changes; pl_next_cursor := next |}.

(** One poll of the event stream: the changes it sends, up to the first row that does not
    decode, and the cursor after them. *)
Fixpoint send_changes (cursor : Z) (rows : list SyncChangeRow) : list ServerSyncChange * Z :=
  match rows with
  | [] => ([], cursor)
  | row :: rest =>
      match row_to_server_change row with
      | Ok change => let '(sent, cursor) := send_changes (sv_cursor change) rest in
                     (change :: sent, cursor)
      | Err _ => ([], cursor)
      end
  end.

Definition poll_change_events (db : Db) (user_id : Uuid) (cursor : Z)
    : list ServerSyncChange * Z :=
  send_changes cursor (select_changes db user_id cursor 250).

(** ** Listing entities *)

Record EntityPage := {
  pg_items : list SyncedEntity;
  pg_next_after : option Uuid;
  pg_watermark_cursor : Z;
}.

Definition list_entities_for_user (db : Db) (user_id : Uuid) (entity_type : string)
    (after : option Uuid) (limit : option Z) : result ApiError EntityPage :=
  _ ← validate_entity_type entity_type;
  let limit := page_limit limit in
  let ids := take limit
    (filter (fun id => from_option (fun a => (a <? id)%N) true after = true)
      (Materialize.entities_where (fun _ => true) db user_id entity_type)) in
  let items := omap (fun id => row_to_synced_entity entity_type id
                                 <$> sync_entities db !! (user_id, entity_type, id)) ids in
  let watermark := foldr Z.max 0%Z
    (sc_cursor <$> filter (fun row => sc_user_id row = user_id) (sync_changes db)) in
  Ok {| pg_items := items;
        pg_next_after := if Nat.eqb (length items) limit then sd_entity_id <$> last items else None;
        pg_watermark_cursor := watermark |}.

(** ** The handlers *)

Section handlers.
Variables (auth_env : AuthEnv) (auth_db : AuthDb) (envs : nat -> Env) (db : Db).

Definition or_error {A} (who : result ApiError A) (go : A -> Db * result ApiError (list SyncApplyResult))
    : Db * result ApiError (list SyncApplyResult) :=
  match who with
  | Ok a => go a
  | Err e => (db, Err e)
  end.

Definition push_changes (principal : Principal) (changes : list SyncChange) :=
  or_error (session_device_id auth_env auth_db principal) (fun device_id =>
    push_changes_for_device envs db (pr_user_id principal) device_id changes).

Definition agent_push_changes (executor_id : Uuid) (principal : ExecutorPrincipal)
    (changes : list SyncChange) :=
  or_error (personal_executor_owner db executor_id principal) (fun user_id =>
    push_changes_for_device envs db user_id executor_id changes).

Definition pull_changes (principal : Principal) (after limit : option Z) : Tx PullResponse :=
  device_id ← lift (session_device_id auth_env auth_db principal);
  pull_changes_for_device (pr_user_id principal) device_id after limit.

Definition agent_pull_changes (executor_id : Uuid) (principal : ExecutorPrincipal)
    (after limit : option Z) : Tx PullResponse :=
  db ← get_db;
  user_id ← lift (personal_executor_owner db executor_id principal);
  pull_changes_for_device user_id executor_id after limit.

Definition list_entities (principal : Principal) (entity_type : string) (after : option Uuid)
    (limit : option Z) : result ApiError EntityPage :=
  _ ← session_device_id auth_env auth_db principal;
  list_entities_for_user db (pr_user_id principal) entity_type after limit.

Definition agent_list_entities (executor_id : Uuid) (principal : ExecutorPrincipal)
    (entity_type : string) (after : option Uuid) (limit : option Z) : result ApiError EntityPage :=
  user_id ← personal_executor_owner db executor_id principal;
  list_entities_for_user db user_id entity_type after limit.
End handlers.

End Sync.
