(* ===== verification/SyncLog.v ===== *)
(** * The sync log is the history of the entities

    Every transaction of the sync component extends the change log by publications: the
    next revision of one entity, under the next cursor. Hence replaying the log gives the
    entity table. [log_grows P] says that a transaction only published entities of the
    types [P] allows. *)

From S2P Require Import Prelude.
From S2P Require Import Json.
From S2P Require Import Contracts.
From S2P Require Import Store.
From S2P Require Import Governance.
From S2P Require Import SyncPublish.
From S2P Require Import SyncMaterialize.
From S2P Require Import SyncProtocol.

Import Materialize Sync.

(** ** Replaying a log *)

Abbreviation Key := (Uuid * string * Uuid)%type (only parsing).

(** What a device knows of an entity. *)
Record Version := {
  vs_revision : Z;
  vs_payload : option Value;
  vs_tombstone : bool;
}.

Definition change_key (c : SyncChangeRow) : Uuid * string * Uuid :=
  (sc_user_id c, sc_entity_type c, sc_entity_id c).

Definition change_version (c : SyncChangeRow) : Version :=
  {| vs_revision := sc_revision c; vs_payload := sc_payload c;
     vs_tombstone := String.eqb (sc_operation c) "delete" |}.

Definition row_version (e : SyncEntityRow) : Version :=
  {| vs_revision := se_revision e; vs_payload := se_payload e; vs_tombstone := se_tombstone e |}.

Definition replay_change (m : gmap Key Version) (c : SyncChangeRow) : gmap Key Version :=
  <[change_key c := change_version c]> m.

Definition replay (changes : list SyncChangeRow) : gmap Key Version :=
  foldl replay_change ∅ changes.

Definition versions (db : Db) : gmap Key Version := row_version <$> sync_entities db.

(** An upsert carries a payload, a deletion none. *)
Definition well_formed_change (c : SyncChangeRow) : Prop :=
  (sc_operation c = "upsert" /\ is_Some (sc_payload c))
  \/ (sc_operation c = "delete" /\ sc_payload c = None).

Definition next_revision (m : gmap Key Version) (key : Key) : Z :=
  (from_option vs_revision 0 (m !! key) + 1)%Z.

(** A log whose entries carry increasing cursors up to [seq] and, per entity, the
    revisions 1, 2, ..., with the state it replays to. *)
Inductive log_ok : Z -> list SyncChangeRow -> gmap Key Version -> Prop :=
| log_nil seq : (0 ≤ seq)%Z -> log_ok seq [] ∅
| log_snoc seq changes m c :
    log_ok seq changes m -> (seq < sc_cursor c)%Z -> well_formed_change c ->
    sc_revision c = next_revision m (change_key c) ->
    log_ok (sc_cursor c) (changes ++ [c]) (replay_change m c).

Definition sync_ok (db : Db) : Prop :=
  log_ok (sync_sequence db) (sync_changes db) (versions db).

(** ** Publications *)

(** One publication: the entity's next revision and its log entry. *)
Record published (db db' : Db) (key : Key) (c : SyncChangeRow) (e : SyncEntityRow) : Prop := {
  pb_key : change_key c = key;
  pb_cursor : sc_cursor c = (sync_sequence db + 1)%Z;
  pb_sequence : sync_sequence db' = sc_cursor c;
  pb_changes : sync_changes db' = sync_changes db ++ [c];
  pb_entities : sync_entities db' = <[key := e]> (sync_entities db);
  pb_version : row_version e = change_version c;
  pb_form : well_formed_change c;
  pb_revision : sc_revision c = next_revision (versions db) key;
}.

(** The sync tables are untouched. *)
Record same_log (db db' : Db) : Prop := {
  sl_sequence : sync_sequence db' = sync_sequence db;
  sl_changes : sync_changes db' = sync_changes db;
  sl_entities : sync_entities db' = sync_entities db;
}.

#[global] Instance same_log_preorder : PreOrder same_log.
Proof. split; [done|]. intros d1 d2 d3 [] []. split; by etrans. Qed.

Inductive log_grows (P : string -> Prop) (db : Db) : Db -> Prop :=
| grows_same db' : same_log db db' -> log_grows P db db'
| grows_more db1 db' key c e :
    log_grows P db db1 -> P key.1.2 -> published db1 db' key c e -> log_grows P db db'.

Lemma published_same_r db d1 d2 key c e :
  published db d1 key c e -> same_log d1 d2 -> published db d2 key c e.
Proof. intros [] []. split; congruence. Qed.

Lemma log_grows_same_r P db d1 d2 : log_grows P db d1 -> same_log d1 d2 -> log_grows P db d2.
Proof.
  intros Hg Hs. destruct Hg as [d1 H|d0 d1 key c e H HP Hp].
  - apply grows_same. by etrans.
  - eapply grows_more; [done|done|by eapply published_same_r].
Qed.

#[global] Instance log_grows_preorder P : PreOrder (log_grows P).
Proof.
  split; [intros db; apply grows_same; reflexivity|].
  intros d1 d2 d3 H12 H23. induction H23 as [d3 Hs|d3 d4 key c e _ IH HP Hp].
  - by eapply log_grows_same_r.
  - by eapply grows_more.
Qed.

Lemma log_grows_mono (P Q : string -> Prop) db db' :
  (forall t, P t -> Q t) -> log_grows P db db' -> log_grows Q db db'.
Proof.
  intros HPQ. induction 1; [by apply grows_same|].
  eapply grows_more; [done|by apply HPQ|done].
Qed.

(** ** A publication keeps the log well formed

    [held] is an entity whose row is ahead of its log entry, with the version the log
    knows: a pushed change is logged after it is materialised. *)
Definition log_ok_held (held : option (Key * option Version)) (db : Db) : Prop :=
  log_ok (sync_sequence db) (sync_changes db)
    (match held with
     | Some (key, v) => partial_alter (fun _ => v) key (versions db)
     | None => versions db
     end).

Lemma versions_published db db' key c e :
  published db db' key c e -> versions db' = <[key := change_version c]> (versions db).
Proof. intros []. unfold versions. rewrite pb_entities0, fmap_insert. by rewrite pb_version0. Qed.

Lemma published_ok db db' key c e held :
  published db db' key c e -> (forall k v, held = Some (k, v) -> k ≠ key) ->
  log_ok_held held db -> log_ok_held held db'.
Proof.
  intros Hp Hk Hok. pose proof (versions_published _ _ _ _ _ Hp) as Hv.
  destruct Hp as [Hkey Hc Hseq Hch _ _ Hform Hrev]. unfold log_ok_held in *.
  rewrite Hseq, Hch, Hv.
  destruct held as [[k v]|].
  - specialize (Hk k v eq_refl).
    assert (<[key := change_version c]> (partial_alter (fun _ => v) k (versions db))
            = partial_alter (fun _ => v) k (<[key := change_version c]> (versions db))) as <-.
    { symmetry. by apply partial_alter_insert_ne. }
    rewrite <- Hkey. apply (log_snoc (sync_sequence db)); [done|lia|done|].
    rewrite Hrev, Hkey. unfold next_revision. by rewrite lookup_partial_alter_ne.
  - rewrite <- Hkey. apply (log_snoc (sync_sequence db)); [done|lia|done|]. by rewrite Hkey.
Qed.

Lemma same_log_ok held db db' : same_log db db' -> log_ok_held held db -> log_ok_held held db'.
Proof. intros [Hs Hc He]. unfold log_ok_held, versions. by rewrite Hs, Hc, He. Qed.

Lemma log_grows_held P db db' key v :
  log_grows P db db' -> ~ P key.1.2 ->
  sync_entities db' !! key = sync_entities db !! key
  /\ (log_ok_held (Some (key, v)) db -> log_ok_held (Some (key, v)) db').
Proof.
  intros Hg HP. induction Hg as [db' Hs|d1 db' k c e Hg [He Hok] Hk Hp].
  - split; [by rewrite (sl_entities _ _ Hs)|by apply same_log_ok].
  - assert (k ≠ key) by (intros ->; done). split.
    + rewrite <- He, (pb_entities _ _ _ _ _ Hp). by apply lookup_insert_ne.
    + intros Hlog. eapply published_ok; [done| |by apply Hok]. intros ?? [= <- <-]. done.
Qed.

Lemma log_grows_ok P db db' : log_grows P db db' -> sync_ok db -> sync_ok db'.
Proof.
  intros Hg. induction Hg as [db' Hs|d1 db' k c e Hg IH Hk Hp]; intros H.
  - by apply (same_log_ok None db).
  - eapply (published_ok _ _ _ _ _ None); [done|done|by apply IH].
Qed.

(** ** What a well-formed log says *)

Lemma log_ok_replay seq changes m : log_ok seq changes m -> replay changes = m.
Proof.
  induction 1 as [|seq changes m c _ IH]; [done|].
  unfold replay in *. by rewrite foldl_app, IH.
Qed.

Lemma log_ok_cursors seq changes m c :
  log_ok seq changes m -> c ∈ changes -> (0 < sc_cursor c ≤ seq)%Z.
Proof.
  intros H. assert (0 ≤ seq)%Z as Hseq by (induction H; lia).
  induction H as [|seq changes m c' H IH Hlt]; [set_solver|].
  assert (0 ≤ seq)%Z by (clear - H; induction H; lia).
  intros [Hin| ->%list_elem_of_singleton]%elem_of_app; [specialize (IH ltac:(done) Hin); lia|lia].
Qed.

Lemma log_ok_sorted seq changes m :
  log_ok seq changes m -> StronglySorted (fun a b => (sc_cursor a < sc_cursor b)%Z) changes.
Proof.
  induction 1 as [|seq changes m c H IH Hlt _ _]; [constructor|].
  apply StronglySorted_app_2; [|done|repeat constructor].
  intros x1 x2 Hin ->%list_elem_of_singleton. pose proof (log_ok_cursors _ _ _ _ H Hin). lia.
Qed.

(** ** What each transaction publishes *)

Lemma frames_same_grows {A} P (m : Tx A) : frames same_log m -> frames (log_grows P) m.
Proof. intros Hm env s. eapply wp_frames; [exact Hm|]. intros a s' H. by apply grows_same. Qed.

#[export] Hint Extern 3 (frames same_log (modify _)) =>
  apply frames_modify; intros ?; split; reflexivity : store.
#[export] Hint Extern 4 (frames (log_grows _) (modify _)) =>
  apply frames_same_grows, frames_modify; intros ?; split; reflexivity : store.

Lemma enforce_storage_quota_log t i b : frames same_log (enforce_storage_quota_tx t i b).
Proof. unfold enforce_storage_quota_tx. frames_steps. Qed.

Lemma remember_materialization_log u t i : frames same_log (remember_materialization u t i).
Proof. unfold remember_materialization. frames_steps. Qed.

Lemma is_materialized_log u t i : frames same_log (is_materialized u t i).
Proof. unfold is_materialized. frames_steps. Qed.

Lemma update_messages_log p f : frames same_log (update_messages p f).
Proof. unfold update_messages, bump_where. frames_steps. Qed.

Lemma update_threads_log p f : frames same_log (update_threads p f).
Proof. unfold update_threads, bump_where. frames_steps. Qed.

Lemma update_projects_log p f : frames same_log (update_projects p f).
Proof. unfold update_projects, bump_where. frames_steps. Qed.

Lemma update_schedules_log p f : frames same_log (update_schedules p f).
Proof. unfold update_schedules, bump_where. frames_steps. Qed.

#[export] Hint Resolve enforce_storage_quota_log remember_materialization_log is_materialized_log
  update_messages_log update_threads_log update_projects_log update_schedules_log : store.
#[export] Hint Resolve frames_same_grows | 8 : store.

Lemma wp_write_entity_version u t i r op payload env s (Q : unit -> TxState -> Prop) :
  r = next_revision (versions (tx_db s)) (u, t, i) ->
  (op = "upsert" /\ is_Some payload) \/ (op = "delete" /\ payload = None) ->
  (forall s' c e, published (tx_db s) (tx_db s') (u, t, i) c e -> Q tt s') ->
  wp env (write_entity_version u t i r op payload) Q s.
Proof.
  intros Hr Hform HQ. unfold write_entity_version, put_sync_entity, append_sync_change. wp_steps.
  eapply HQ. split. all: cycle 3.
  1,2: reflexivity.
  all: done.
Qed.

Lemma next_revision_row db key :
  next_revision (versions db) key = (from_option se_revision 0 (sync_entities db !! key) + 1)%Z.
Proof.
  unfold next_revision, versions. rewrite lookup_fmap.
  by destruct (sync_entities db !! key).
Qed.

Section publications.
Variable P : string -> Prop.

Lemma published_grows db db' u t i c e :
  P t -> published db db' (u, t, i) c e -> log_grows P db db'.
Proof. intros HP Hp. eapply grows_more; [by apply grows_same| |done]. done. Qed.

Lemma publish_server_entity_grows u t i payload :
  P t -> frames (log_grows P) (publish_server_entity_tx u t i payload).
Proof.
  intros HP env s. unfold publish_server_entity_tx. wp_steps.
  case_match; [by wp_step|]. wp_step.
  eapply wp_frames; [apply enforce_storage_quota_log|]. intros [] s1 Hs1. simpl.
  wp_steps. eapply wp_write_entity_version; [|by left|].
  - rewrite next_revision_row. by rewrite (sl_entities _ _ Hs1).
  - intros s' c e Hp. etrans; [by apply grows_same|by eapply published_grows].
Qed.

Lemma publish_server_tombstone_grows u t i :
  P t -> frames (log_grows P) (publish_server_tombstone_tx u t i).
Proof.
  intros HP env s. unfold publish_server_tombstone_tx. wp_steps.
  case_match; [by wp_step|]. wp_steps. eapply wp_write_entity_version; [|by right|].
  - by rewrite next_revision_row.
  - intros s' c e Hp. eapply wp_frames; [apply remember_materialization_log|].
    intros [] s2 Hs2. eapply log_grows_same_r; [by eapply published_grows|done].
Qed.
End publications.
#[export] Hint Resolve publish_server_entity_grows publish_server_tombstone_grows : store.

(** A transaction that publishes one entity and remembers it. *)
Ltac grows_steps :=
  repeat (frames_step; cbv beta zeta); try solve [eauto 10 with store typeclass_instances].

Section canonical.
Variable P : string -> Prop.

Lemma publish_canonical_project_grows id :
  P "project" -> frames (log_grows P) (publish_canonical_project_tx id).
Proof. intros HP. unfold publish_canonical_project_tx. grows_steps. Qed.

Lemma publish_canonical_schedule_grows id :
  P "schedule" -> frames (log_grows P) (publish_canonical_schedule_tx id).
Proof. intros HP. unfold publish_canonical_schedule_tx. grows_steps. Qed.
End canonical.

Section materialize.
Variable P : string -> Prop.

Lemma touch_materialized_thread_log id : frames same_log (touch_materialized_thread id).
Proof. unfold touch_materialized_thread. frames_steps. Qed.

Lemma for_entities_grows db u t ids m :
  (forall i op p, frames (log_grows P) (m i op p)) ->
  frames (log_grows P) (for_entities db u t ids m).
Proof. intros Hm. unfold for_entities. repeat (frames_step; cbv beta zeta). Qed.

Lemma for_entities_log db u t ids m :
  (forall i op p, frames same_log (m i op p)) -> frames same_log (for_entities db u t ids m).
Proof. intros Hm. unfold for_entities. repeat (frames_step; cbv beta zeta). Qed.
End materialize.
#[export] Hint Resolve touch_materialized_thread_log for_entities_grows for_entities_log : store.

Lemma materialize_message_log u i op p : frames same_log (materialize_message u i op p).
Proof. unfold materialize_message. grows_steps. Qed.

Lemma write_schedule_log u i t pr th o c : frames same_log (write_schedule u i t pr th o c).
Proof. unfold write_schedule, validate_synced_schedule_target. grows_steps. Qed.
#[export] Hint Resolve write_schedule_log : store.

Lemma materialize_schedule_log u i op p : frames same_log (materialize_schedule u i op p).
Proof. unfold materialize_schedule. grows_steps. Qed.
#[export] Hint Resolve materialize_message_log materialize_schedule_log : store.

Lemma reconcile_schedules_log u k r : frames same_log (reconcile_schedules_for_reference u k r).
Proof. unfold reconcile_schedules_for_reference. grows_steps. Qed.

Lemma update_tasks_log p d : frames same_log (update_tasks p d).
Proof. unfold update_tasks. grows_steps. Qed.

Lemma private_task_project_log u o : frames same_log (private_task_project u o).
Proof. unfold private_task_project. grows_steps. Qed.

Lemma soft_delete_thread_log u i : frames same_log (soft_delete_thread u i).
Proof. unfold soft_delete_thread. grows_steps. Qed.

Lemma project_for_thread_log u i : frames same_log (project_for_thread u i).
Proof. unfold project_for_thread. grows_steps. Qed.

Lemma write_thread_log u i p t : frames same_log (write_thread u i p t).
Proof. unfold write_thread. grows_steps. Qed.
#[export] Hint Resolve reconcile_schedules_log update_tasks_log private_task_project_log
  soft_delete_thread_log project_for_thread_log write_thread_log : store.

Section materialize_types.
Variable P : string -> Prop.
Hypothesis Hmessage : P "message".
Hypothesis Hschedule : P "schedule".

Lemma publish_schedules_grows ids : frames (log_grows P) (publish_schedules ids).
Proof. pose proof publish_canonical_schedule_grows. unfold publish_schedules. grows_steps. Qed.
Hint Resolve publish_schedules_grows : store.

Lemma materialize_task_grows u i op p : frames (log_grows P) (materialize_task u i op p).
Proof. unfold materialize_task, delete_synced_task. grows_steps. Qed.
Hint Resolve materialize_task_grows : store.

Lemma reconcile_thread_tasks_grows u i : frames (log_grows P) (reconcile_thread_tasks u i).
Proof. unfold reconcile_thread_tasks. grows_steps. Qed.
Hint Resolve reconcile_thread_tasks_grows : store.

Lemma materialize_thread_grows u i op p : frames (log_grows P) (materialize_thread u i op p).
Proof. unfold materialize_thread, delete_synced_thread. grows_steps. Qed.
Hint Resolve materialize_thread_grows : store.

Lemma reconcile_project_threads_grows u i :
  frames (log_grows P) (reconcile_project_threads u i).
Proof. unfold reconcile_project_threads. grows_steps. Qed.
Hint Resolve reconcile_project_threads_grows : store.

Lemma materialize_provider_profile_grows u i op p :
  frames (log_grows P) (materialize_provider_profile u i op p).
Proof. unfold materialize_provider_profile, delete_synced_profile, bump_where. grows_steps. Qed.

Lemma materialize_project_grows u i op p :
  P "thread" -> P "task" -> frames (log_grows P) (materialize_project u i op p).
Proof. intros Ht Hk. unfold materialize_project, delete_synced_project. grows_steps. Qed.
End materialize_types.

(** A pushed change publishes entities of other types only while it is materialised. *)
Lemma materialize_canonical_grows u t i op p :
  frames (log_grows (fun t' => t' ≠ t)) (materialize_canonical_entity u t i op p).
Proof.
  unfold materialize_canonical_entity.
  repeat match goal with
  | |- frames _ (if String.eqb t ?name then _ else _) =>
      destruct (String.eqb_spec t name) as [->|_]
  end.
  - by apply materialize_project_grows.
  - by apply materialize_thread_grows.
  - apply frames_same_grows, materialize_message_log.
  - by apply materialize_task_grows.
  - apply frames_same_grows, materialize_schedule_log.
  - by apply materialize_provider_profile_grows.
  - apply frames_ret, _.
Qed.

(** ** Pushes and pulls keep the log well formed *)

(** The versions a push of revision [base] leaves: a register that is written only against
    its current revision. *)
Definition register_push (current : option Version) (base : Z) (operation : SyncOperation)
    (payload : option Value) : option Version * SyncApplyStatus :=
  if bool_decide (from_option vs_revision 0%Z current = base)
  then (Some {| vs_revision := base + 1; vs_payload := payload;
                vs_tombstone := bool_decide (operation = Delete) |}, Applied)
  else (current, SyncConflict).

Definition entity_version (e : SyncedEntity) : Version :=
  {| vs_revision := sd_revision e; vs_payload := sd_payload e; vs_tombstone := sd_tombstone e |}.

Definition key_of (u : Uuid) (ch : SyncChange) : Key := (u, ch_entity_type ch, ch_entity_id ch).

(** What validation guarantees of the payload. *)
Definition change_shape (ch : SyncChange) : Prop :=
  match ch_operation ch with
  | Upsert => is_Some (ch_payload ch)
  | Delete => ch_payload ch = None
  end.

Lemma bind_Ok {E A B} (m : result E A) (f : A -> result E B) b :
  m ≫= f = Ok b -> exists a, m = Ok a /\ f a = Ok b.
Proof. destruct m; naive_solver. Qed.

Lemma validated_shape env ch d : validate_change env ch d = Ok tt -> change_shape ch.
Proof.
  unfold validate_change, change_shape. intros H.
  do 4 apply bind_Ok in H as (? & _ & H). apply bind_Ok in H as ([] & Hs & _).
  by destruct (ch_operation ch), (ch_payload ch).
Qed.

Lemma operation_is_delete op : String.eqb (operation_name op) "delete" = bool_decide (op = Delete).
Proof. by destruct op. Qed.

Lemma versions_lookup db key : versions db !! key = row_version <$> sync_entities db !! key.
Proof. apply lookup_fmap. Qed.

Lemma current_revision_version db key :
  from_option se_revision 0%Z (sync_entities db !! key)
  = from_option vs_revision 0%Z (versions db !! key).
Proof. rewrite versions_lookup. by destruct (sync_entities db !! key). Qed.

(** The row is written ahead of its log entry ... *)
Lemma wp_put_held u t i r p d env s (Q : unit -> TxState -> Prop) :
  sync_ok (tx_db s) ->
  (forall s' e, sync_entities (tx_db s') = <[(u, t, i) := e]> (sync_entities (tx_db s)) ->
     row_version e = {| vs_revision := r; vs_payload := p; vs_tombstone := d |} ->
     log_ok_held (Some ((u, t, i), versions (tx_db s) !! (u, t, i))) (tx_db s') -> Q tt s') ->
  wp env (put_sync_entity u t i r p d) Q s.
Proof.
  intros Hok HQ. unfold put_sync_entity. wp_steps.
  eapply HQ; [reflexivity|reflexivity|]. unfold log_ok_held, versions in *. simpl.
  rewrite fmap_insert, partial_alter_insert_eq, partial_alter_self. done.
Qed.

(** ... and the entry makes the log catch up with the row. *)
Lemma append_held u t i r op p v e env s :
  log_ok_held (Some ((u, t, i), v)) (tx_db s) ->
  sync_entities (tx_db s) !! (u, t, i) = Some e ->
  row_version e = {| vs_revision := r; vs_payload := p; vs_tombstone := String.eqb op "delete" |} ->
  r = (from_option vs_revision 0%Z v + 1)%Z ->
  (op = "upsert" /\ is_Some p) \/ (op = "delete" /\ p = None) ->
  wp env (append_sync_change u t i r op p)
    (fun _ s' => sync_ok (tx_db s') /\ sync_entities (tx_db s') = sync_entities (tx_db s)) s.
Proof.
  intros Hok He Hv Hr Hform. unfold append_sync_change. wp_steps. split; [|done].
  unfold sync_ok, log_ok_held, versions in *; simpl.
  set (c := {| sc_cursor := _ |}).
  assert (row_version <$> sync_entities (tx_db s)
          = replay_change (partial_alter (fun _ => v) (u, t, i)
              (row_version <$> sync_entities (tx_db s))) c) as ->.
  { unfold replay_change, change_key, change_version. simpl. rewrite <- Hv.
    rewrite insert_partial_alter_eq. symmetry. apply insert_id. by rewrite lookup_fmap, He. }
  eapply (log_snoc (sync_sequence (tx_db s)) _ _ c); [done|simpl; lia|done|].
  unfold next_revision, change_key. simpl. by rewrite lookup_partial_alter_eq.
Qed.

(** Accepting a change: the row, the other publications, the log entry. *)
Lemma wp_accept_change u ch env s :
  change_shape ch -> sync_ok (tx_db s) ->
  wp env (accept_change u ch (sync_entities (tx_db s) !! key_of u ch))
    (fun entity s' =>
       sync_ok (tx_db s') /\ versions (tx_db s') !! key_of u ch = Some (entity_version entity)
       /\ entity_version entity
          = {| vs_revision := from_option vs_revision 0%Z (versions (tx_db s) !! key_of u ch) + 1;
               vs_payload := ch_payload ch;
               vs_tombstone := bool_decide (ch_operation ch = Delete) |}
       /\ (forall key, versions (tx_db s') !! key = versions (tx_db s) !! key
                       \/ key = key_of u ch \/ key.1.2 ≠ ch_entity_type ch)) s.
Proof.
  intros Hshape Hok. unfold accept_change. wp_steps.
  eapply wp_frames; [apply enforce_storage_quota_log|]. intros [] s1 Hs1. simpl.
  assert (sync_ok (tx_db s1)) as Hok1 by (by apply (same_log_ok None (tx_db s))).
  wp_step. apply wp_put_held; [done|]. intros s2 e He2 Hv2 Hheld.
  change (u, ch_entity_type ch, ch_entity_id ch) with (key_of u ch) in *.
  wp_step. eapply wp_frames; [apply materialize_canonical_grows|]. intros [] s3 Hg. simpl.
  assert (forall key, key.1.2 = ch_entity_type ch ->
            sync_entities (tx_db s3) !! key = sync_entities (tx_db s2) !! key) as Hsame.
  { intros key Hkey. eapply (log_grows_held _ _ _ _ None); [exact Hg|]. intros H'. by apply H'. }
  destruct (log_grows_held _ _ _ (key_of u ch) (versions (tx_db s1) !! key_of u ch) Hg)
    as [_ Hheld3]; [intros H'; by apply H'|].
  specialize (Hheld3 Hheld). wp_step.
  assert (versions (tx_db s1) = versions (tx_db s)) as Hv1.
  { unfold versions. by rewrite (sl_entities _ _ Hs1). }
  assert (Hcur : forall key, key.1.2 = ch_entity_type ch ->
    versions (tx_db s3) !! key = (if bool_decide (key = key_of u ch) then Some (row_version e)
                                  else versions (tx_db s) !! key)).
  { intros key Hkey. rewrite versions_lookup, (Hsame key Hkey), He2. rewrite <- Hv1.
    destruct (decide (key = key_of u ch)) as [->|Hd].
    - by rewrite bool_decide_eq_true_2, lookup_insert_eq.
    - by rewrite bool_decide_eq_false_2, lookup_insert_ne, versions_lookup. }
  assert (sync_entities (tx_db s3) !! key_of u ch = Some e) as He3.
  { rewrite Hsame by done. by rewrite He2, lookup_insert_eq. }
  eapply wp_mono.
  - eapply append_held; [exact Hheld3|exact He3| | |].
    + by rewrite Hv2, operation_is_delete.
    + by rewrite Hv1, current_revision_version.
    + unfold change_shape in Hshape. destruct (ch_operation ch); [by left|by right].
  - intros [] s4 [Hok4 He4]. wp_step.
    assert (versions (tx_db s4) = versions (tx_db s3)) as Hv4 by (unfold versions; by rewrite He4).
    split; [done|]. rewrite Hv4. rewrite Hcur, bool_decide_eq_true_2 by done. rewrite Hv2. simpl.
    unfold entity_version; simpl. rewrite current_revision_version. split; [done|].
    split; [done|]. intros key. destruct (decide (key.1.2 = ch_entity_type ch)) as [Hk|]; [|by auto].
    rewrite (Hcur _ Hk). destruct (decide (key = key_of u ch)); [by auto|].
    rewrite bool_decide_eq_false_2 by done. auto.
Qed.
