(* ===== verification/SyncSystem.v ===== *)
(** * The sync component inside the control plane

    [sync_step]: one transaction that touches the sync tables or the run store: a pushed
    batch, a pull, a publication or tombstone the other components ask for, or any
    transaction of the run store. The change log stays the history of the entities along
    every sequence of them. *)

From S2P Require Import Prelude.
From S2P Require Import Json.
From S2P Require Import Contracts.
From S2P Require Import Store.
From S2P Require Import Governance.
From S2P Require Import SyncPublish.
From S2P Require Import RunStore.
From S2P Require Import Workflow.
From S2P Require Import RunSystem.
From S2P Require Import SyncMaterialize.
From S2P Require Import SyncProtocol.
From S2P Require Import SyncLog.

Import Materialize Sync.

(** ** The run store only publishes *)

Create HintDb runops.
#[export] Hint Unfold put_run put_executor insert_push_delivery append_event_tx
  append_event_tx_with_id create_run_tx create_run put_message touch_thread_tx
  create_thread_message_run append_assistant_message_tx claim_external_run claim_server_run
  verify_lease renew_lease append_leased_event_with_accounting release_executor
  release_assigned recover_external_run interrupt_expired report_expired
  interrupt_expired_leases create_run_result_version_tx finish_leased_run
  complete_leased_run fail_leased_run interrupt_leased_run transition_run cancel_run
  register_executor refresh_executor_registration heartbeat_executor
  enforce_run_event_retention move_run_tx put_approval insert_approval announce_approval
  create_approval request_worker_approval resume_waiting_run set_approval resolve_approval
  put_input insert_input announce_input create_input_request request_worker_input set_input
  submit_input_response insert_checkpoint create_checkpoint create_worker_checkpoint
  expire_approval expire_input expire_approvals expire_inputs enforce_run_scope
  enforce_run_quota_tx ensure_model_scope ensure_model_quota_for_run_tx run_quota_scopes_tx
  add_usage record_model_usage_for_run_tx : runops.

Definition any_type (t : string) : Prop := True.

Lemma publish_thread_grows id : frames (log_grows any_type) (publish_canonical_thread_tx id).
Proof.
  pose proof (publish_canonical_project_grows any_type) as H.
  unfold publish_canonical_thread_tx. assert (forall t, any_type t) by done. grows_steps.
Qed.

Lemma publish_message_grows id : frames (log_grows any_type) (publish_canonical_message_tx id).
Proof.
  pose proof publish_thread_grows as H.
  unfold publish_canonical_message_tx. assert (forall t, any_type t) by done. grows_steps.
Qed.
#[export] Hint Resolve publish_thread_grows publish_message_grows : store.

Lemma delete_events_log l : forall db, same_log db (foldl delete_event db l).
Proof.
  induction l as [|kv l IH]; intros db; simpl; [done|].
  etrans; [|apply IH]. by destruct kv.
Qed.

Lemma run_step_grows db db' : step db db' -> log_grows any_type db db'.
Proof.
  destruct 1; apply (frames_run_tx (log_grows any_type)); autounfold with runops; grows_steps.
  apply frames_same_grows, frames_modify. intros d. apply delete_events_log.
Qed.

(** ** Pushes, pulls and publications *)

Lemma apply_change_grows u ch env db :
  change_shape ch -> sync_ok db -> sync_ok (run_tx env db (apply_change u ch)).1.
Proof.
  intros Hs Hok. apply (run_tx_wp env db _ sync_ok); [done|]. unfold apply_change. wp_steps.
  case_match; [wp_steps; done|]. wp_steps. case_bool_decide; [wp_steps; done|].
  wp_step. eapply wp_mono; [by apply (wp_accept_change u ch env (MkTx db 0))|].
  intros entity s' (Hok' & _). wp_steps. done.
Qed.

Lemma apply_changes_ok envs u changes : forall k db,
  Forall change_shape changes -> sync_ok db -> sync_ok (apply_changes envs k db u changes).1.
Proof.
  induction changes as [|ch rest IH]; intros k db Hs Hok; [done|]. inversion_clear Hs.
  simpl. pose proof (apply_change_grows u ch (envs k) db H Hok) as Hok'.
  destruct (run_tx _ _ _) as [db' [answer|e]]; [|done]. simpl in Hok'.
  specialize (IH (S k) db' H0 Hok'). by destruct (apply_changes _ _ _ _ _) as [db'' []].
Qed.

Lemma validate_changes_shape env d changes :
  validate_changes env d changes = Ok tt -> Forall change_shape changes.
Proof.
  induction changes as [|ch rest IH]; intros H; [constructor|]. simpl in H.
  apply bind_Ok in H as ([] & Hc & H). constructor; [by eapply validated_shape|auto].
Qed.

Lemma push_changes_ok envs db u d changes :
  sync_ok db -> sync_ok (push_changes_for_device envs db u d changes).1.
Proof.
  intros Hok. unfold push_changes_for_device. case_match; [done|].
  destruct (validate_changes _ _ _) as [[]|] eqn:Hv; [|done].
  apply apply_changes_ok; [by eapply validate_changes_shape|done].
Qed.

Lemma pull_changes_log u d a l : frames same_log (pull_changes_for_device u d a l).
Proof. unfold pull_changes_for_device. grows_steps. Qed.

Inductive sync_step (db : Db) : Db -> Prop :=
| sync_push envs u d changes : sync_step db (push_changes_for_device envs db u d changes).1
| sync_pull env u d after limit :
    sync_step db (run_tx env db (pull_changes_for_device u d after limit)).1
| sync_run db' : step db db' -> sync_step db db'
| sync_publish_project env id : sync_step db (run_tx env db (publish_canonical_project_tx id)).1
| sync_publish_thread env id : sync_step db (run_tx env db (publish_canonical_thread_tx id)).1
| sync_publish_task env id : sync_step db (run_tx env db (publish_canonical_task_tx id)).1
| sync_publish_schedule env id :
    sync_step db (run_tx env db (publish_canonical_schedule_tx id)).1
| sync_publish_profile env id :
    sync_step db (run_tx env db (publish_canonical_provider_profile_tx id)).1
| sync_publish_team env team u :
    sync_step db (run_tx env db (publish_team_provider_profiles_for_user_tx team u)).1
| sync_unpublish_team env team u :
    sync_step db (run_tx env db (publish_team_provider_profile_tombstones_for_user_tx team u)).1
| sync_unpublish_profile env id owner team :
    sync_step db (run_tx env db (publish_provider_profile_tombstones_tx id owner team)).1
| sync_tombstone env u t id :
    sync_step db (run_tx env db (publish_server_tombstone_tx u t id)).1
| sync_other db' : same_log db db' -> sync_step db db'.

Lemma sync_step_ok db db' : sync_step db db' -> sync_ok db -> sync_ok db'.
Proof.
  assert (forall t, any_type t) as Hany by done.
  assert (forall A env (m : Tx A), frames (log_grows any_type) m ->
            sync_ok db -> sync_ok (run_tx env db m).1) as Hm.
  { intros A env m Hm. eapply log_grows_ok, (frames_run_tx (log_grows any_type)), Hm. }
  destruct 1.
  - apply push_changes_ok.
  - apply Hm, frames_same_grows, pull_changes_log.
  - by eapply log_grows_ok, run_step_grows.
  - by apply Hm, publish_canonical_project_grows.
  - apply Hm, publish_thread_grows.
  - apply Hm. unfold publish_canonical_task_tx. grows_steps.
  - by apply Hm, publish_canonical_schedule_grows.
  - apply Hm. unfold publish_canonical_provider_profile_tx. grows_steps.
  - apply Hm. unfold publish_team_provider_profiles_for_user_tx. grows_steps.
  - apply Hm. unfold publish_team_provider_profile_tombstones_for_user_tx. grows_steps.
  - apply Hm. unfold publish_provider_profile_tombstones_tx. grows_steps.
  - by apply Hm, publish_server_tombstone_grows.
  - by eapply (log_grows_ok any_type), grows_same.
Qed.

(** A database without sync data. *)
Definition initial_sync (db : Db) : Prop :=
  sync_sequence db = 0%Z /\ sync_changes db = [] /\ sync_entities db = ∅.

Lemma initial_sync_ok db : initial_sync db -> sync_ok db.
Proof.
  intros (Hs & Hc & He). unfold sync_ok, versions. rewrite Hs, Hc, He, fmap_empty.
  by constructor.
Qed.

Lemma sync_steps_ok db db' : rtc sync_step db db' -> sync_ok db -> sync_ok db'.
Proof. induction 1 as [|d1 d2 d3 H12 _ IH]; [done|]. intros H. by apply IH, (sync_step_ok d1). Qed.
