(* ===== verification/SyncProperties.v ===== *)
(** * What the sync protocol guarantees *)

From S2P Require Import Prelude.
From S2P Require Import Json.
From S2P Require Import Contracts.
From S2P Require Import Store.
From S2P Require Import Demo.
From S2P Require Import Governance.
From S2P Require Import SyncPublish.
From S2P Require Import SyncMaterialize.
From S2P Require Import SyncProtocol.
From S2P Require Import SyncLog.
From S2P Require Import SyncSystem.

Import Materialize Sync.

(** ** The log *)

(** The log entries of one entity. *)
Definition entity_history (key : Uuid * string * Uuid) (changes : list SyncChangeRow)
    : list SyncChangeRow :=
  filter (fun c => change_key c = key) changes.

Lemma log_ok_nonnegative seq changes m key :
  log_ok seq changes m -> (0 ≤ from_option vs_revision 0%Z (m !! key))%Z.
Proof.
  induction 1 as [|seq changes m c _ IH _ _ Hrev]; [done|]. unfold replay_change.
  destruct (decide (change_key c = key)) as [<-|Hne]; [|by rewrite lookup_insert_ne].
  rewrite lookup_insert_eq. simpl. rewrite Hrev. unfold next_revision. lia.
Qed.

Lemma log_ok_history seq changes m key :
  log_ok seq changes m ->
  sc_revision <$> entity_history key changes
  = seqZ 1 (from_option vs_revision 0%Z (m !! key)).
Proof.
  unfold entity_history. induction 1 as [|seq changes m c Hok IH _ _ Hrev]; [done|].
  rewrite filter_app, fmap_app, IH. unfold replay_change.
  destruct (decide (change_key c = key)) as [<-|Hne].
  - rewrite filter_cons_True, filter_nil by done. simpl. rewrite lookup_insert_eq. simpl.
    rewrite Hrev. unfold next_revision.
    pose proof (log_ok_nonnegative _ _ _ (change_key c) Hok).
    rewrite seqZ_app by lia. f_equal. rewrite seqZ_cons, seqZ_nil by lia. f_equal. lia.
  - rewrite filter_cons_False, filter_nil by done. simpl. rewrite app_nil_r.
    by rewrite lookup_insert_ne.
Qed.

(** C7: however pushes, pulls, publications and run-store transactions interleave, the
    change log is the history of the entity table: replaying it gives every entity's
    current revision, payload and deletion mark, each entity's entries carry the revisions
    1, 2, 3, ... without a gap, and cursors strictly increase. *)
Theorem sync_log_is_history db0 db key :
  initial_sync db0 -> rtc sync_step db0 db ->
  replay (sync_changes db) = versions db
  /\ sc_revision <$> entity_history key (sync_changes db)
     = seqZ 1 (from_option vs_revision 0%Z (versions db !! key))
  /\ StronglySorted (fun a b => sc_cursor a < sc_cursor b)%Z (sync_changes db).
Proof.
  intros Hi Hs. assert (sync_ok db) as Hok by (by eapply sync_steps_ok, initial_sync_ok).
  split; [by eapply log_ok_replay|]. split; [by eapply log_ok_history|by eapply log_ok_sorted].
Qed.

(** ** Pushing *)

(** What applying a new change does. *)
Lemma apply_change_register env db u ch db' answer :
  sync_ok db -> change_shape ch -> sync_operations db !! ch_operation_id ch = None ->
  run_tx env db (apply_change u ch) = (db', Ok answer) ->
  let written := register_push (versions db !! key_of u ch) (ch_base_revision ch)
                   (ch_operation ch) (ch_payload ch) in
  versions db' !! key_of u ch = written.1
  /\ sa_status answer = written.2
  /\ entity_version <$> sa_entity answer = written.1
  /\ (written.2 = SyncConflict -> db' = set_sync_operations (sync_operations db') db)
  /\ (forall key, key ≠ key_of u ch -> key.1.2 = ch_entity_type ch ->
        versions db' !! key = versions db !! key)
  /\ sync_ok db'.
Proof.
  intros Hok Hs Hnew Hrun. simpl. run_post Hrun. unfold apply_change. wp_steps.
  rewrite Hnew. wp_steps. change (u, ch_entity_type ch, ch_entity_id ch) with (key_of u ch).
  unfold register_push. rewrite <- current_revision_version.
  destruct (decide (from_option se_revision 0%Z (sync_entities db !! key_of u ch)
                    = ch_base_revision ch)) as [Hbase|Hbase].
  - rewrite bool_decide_eq_false_2, bool_decide_eq_true_2 by tauto. wp_step.
    eapply wp_mono; [by apply (wp_accept_change u ch env (MkTx db 0))|].
    intros entity s' (Hok' & Hv & Hev & Hother). unfold record_operation. wp_steps.
    change (versions (set_sync_operations _ (tx_db s'))) with (versions (tx_db s')).
    rewrite Hv, Hev. simpl. rewrite <- Hbase, current_revision_version.
    split_and!; try done. intros key Hk Ht. by destruct (Hother key) as [?|[?|?]].
  - rewrite bool_decide_eq_true_2, bool_decide_eq_false_2 by tauto.
    unfold record_operation. wp_steps.
    split_and!; try done.
    rewrite versions_lookup. by destruct (sync_entities db !! key_of u ch).
Qed.

(** C8: a push is a write to a register guarded by its revision. An applied change was
    made against the current revision and becomes the next one; otherwise the answer is a
    conflict that carries the current version, and no table changes but the record of the
    operation. The other entities of the type are untouched, and the log stays the history
    of the entities. *)
Theorem push_is_register_write env db u ch db' answer :
  sync_ok db -> change_shape ch -> sync_operations db !! ch_operation_id ch = None ->
  run_tx env db (apply_change u ch) = (db', Ok answer) ->
  let written := register_push (versions db !! key_of u ch) (ch_base_revision ch)
                   (ch_operation ch) (ch_payload ch) in
  versions db' !! key_of u ch = written.1
  /\ sa_status answer = written.2
  /\ entity_version <$> sa_entity answer = written.1
  /\ (written.2 = SyncConflict -> db' = set_sync_operations (sync_operations db') db)
  /\ (forall key, key ≠ key_of u ch -> key.1.2 = ch_entity_type ch ->
        versions db' !! key = versions db !! key)
  /\ sync_ok db'.
Proof. apply apply_change_register. Qed.

(** ** Retrying *)

Lemma stored_timestamp_exact n :
  nanoseconds (stored_timestamp n) = n <-> (n mod 1000 = 0)%Z.
Proof.
  unfold nanoseconds, stored_timestamp. pose proof (Z.quot_rem' n 1000).
  rewrite <- Z.rem_mod_eq_0 by done. lia.
Qed.

(** retrying a change that was applied, or refused, before changes nothing, in whatever
    state the server is meanwhile. But the answer is the stored one only when the client
    timestamp was in whole microseconds; any finer timestamp was cut when it was stored, so
    the retry is refused as a different change. *)
Theorem retry_matches_whole_microseconds env db u ch db1 answer env' db2 :
  sync_operations db !! ch_operation_id ch = None ->
  run_tx env db (apply_change u ch) = (db1, Ok answer) ->
  sync_operations db2 !! ch_operation_id ch = sync_operations db1 !! ch_operation_id ch ->
  run_tx env' db2 (apply_change u ch)
  = (db2, if bool_decide (ch_client_timestamp ch mod 1000 = 0)%Z then Ok answer
          else Err (Conflict "operation_id was already used for a different sync change")).
Proof.
  intros Hnew Hrun Hsame.
  assert (exists row, sync_operations db1 !! ch_operation_id ch = Some row
    /\ op_result row = answer
    /\ ensure_replayed_operation_matches row u ch
       = (if bool_decide (ch_client_timestamp ch mod 1000 = 0)%Z then Ok tt
          else Err (Conflict "operation_id was already used for a different sync change")))
    as (row & Hrow & Hres & Hmatch).
  { clear Hsame. run_post Hrun. unfold apply_change. wp_steps. rewrite Hnew. wp_step.
    eapply wp_mono; [apply wp_true|].
    intros a s _. unfold record_operation. wp_steps. eexists.
    split; [apply lookup_insert_eq|]. split; [done|].
    unfold ensure_replayed_operation_matches. simpl.
    rewrite !bool_decide_eq_true_2, !String.eqb_refl by done. simpl.
    rewrite (bool_decide_ext _ _ (stored_timestamp_exact (ch_client_timestamp ch))).
    by case_bool_decide. }
  unfold run_tx, apply_change, mbind, tx_bind, get_db. simpl. rewrite Hsame, Hrow, Hmatch.
  case_bool_decide; simpl; [by rewrite Hres|done].
Qed.

(** ** Pulling *)

(** A log row as a device receives it. *)
Definition server_change (row : SyncChangeRow) : ServerSyncChange :=
  {| sv_cursor := sc_cursor row; sv_entity_type := sc_entity_type row;
     sv_entity_id := sc_entity_id row; sv_revision := sc_revision row;
     sv_operation := if String.eqb (sc_operation row) "delete" then Delete else Upsert;
     sv_payload := sc_payload row; sv_created_at := sc_created_at row |}.

Lemma well_formed_decodes row :
  well_formed_change row -> row_to_server_change row = Ok (server_change row).
Proof.
  unfold row_to_server_change, server_change. by intros [[-> _]|[-> _]].
Qed.

Lemma log_ok_forms seq changes m :
  log_ok seq changes m -> Forall well_formed_change changes.
Proof. induction 1; [done|]. apply Forall_app. by split; [|constructor]. Qed.

Lemma decode_rows taken :
  Forall well_formed_change taken -> res_mapM row_to_server_change taken = Ok (server_change <$> taken).
Proof.
  induction 1 as [|row taken Hrow _ IH]; [done|]. simpl.
  rewrite (well_formed_decodes _ Hrow). simpl. by rewrite IH.
Qed.

(** The user's entries after a cursor, in the order of the log. *)
Definition changes_after (db : Db) (u : Uuid) (after : Z) : list SyncChangeRow :=
  filter (fun row => sc_user_id row = u /\ (after < sc_cursor row)%Z) (sync_changes db).

Lemma strongly_sorted_filter {A} (R : relation A) (p : A -> Prop) `{forall x, Decision (p x)} l :
  StronglySorted R l -> StronglySorted R (filter p l).
Proof.
  induction 1 as [|x l _ IH Hx]; [constructor|]. rewrite filter_cons.
  case_decide; [|done]. constructor; [done|]. apply Forall_forall. intros y Hy.
  apply list_elem_of_filter in Hy as [_ Hy]. by eapply Forall_forall in Hx.
Qed.

Lemma cursors_injective l x y :
  StronglySorted (fun a b => sc_cursor a < sc_cursor b)%Z l ->
  x ∈ l -> y ∈ l -> sc_cursor x = sc_cursor y -> x = y.
Proof.
  induction 1 as [|z l _ IH Hz]; [set_solver|]. rewrite Forall_forall in Hz.
  intros [->|Hx]%elem_of_cons [->|Hy]%elem_of_cons Heq; [done| | |by auto].
  - specialize (Hz _ Hy). lia.
  - specialize (Hz _ Hx). lia.
Qed.

Lemma sort_sorted_log l :
  StronglySorted (fun a b => sc_cursor a < sc_cursor b)%Z l -> merge_sort before_cursor l = l.
Proof.
  intros Hl. apply (StronglySorted_unique_strong before_cursor).
  - intros x y Hx Hy Hxy Hyx. rewrite merge_sort_Permutation in Hx.
    unfold before_cursor in *. eapply cursors_injective; [exact Hl|done|done|lia].
  - apply StronglySorted_merge_sort. { intros x y z. unfold before_cursor. lia. }
    intros x y. unfold before_cursor. lia.
  - induction Hl as [|x l _ IH Hx]; constructor; [done|].
    eapply Forall_impl; [exact Hx|]. unfold before_cursor. simpl. lia.
  - apply merge_sort_Permutation.
Qed.

Lemma filter_all {A} (p : A -> Prop) `{forall x, Decision (p x)} l :
  Forall p l -> filter p l = l.
Proof. induction 1 as [|x l Hx _ IH]; [done|]. by rewrite filter_cons_True, IH. Qed.

Lemma filter_keeps {A} (p q : A -> Prop) `{forall x, Decision (p x)} l :
  Forall q l -> Forall q (filter p l).
Proof. induction 1; [constructor|]. rewrite filter_cons. case_decide; auto. Qed.

(** The rest of a sorted list after its first [n] entries. *)
Lemma sorted_rest n : forall l start,
  StronglySorted (fun a b => sc_cursor a < sc_cursor b)%Z l ->
  Forall (fun r => start < sc_cursor r)%Z l ->
  filter (fun r => from_option sc_cursor start (last (take n l)) < sc_cursor r)%Z l = drop n l.
Proof.
  induction n as [|n IH]; intros l start Hl Hs; [by apply filter_all|].
  destruct Hl as [|x l Hl Hx]; [done|]. apply Forall_cons in Hs as [Hx0 _]. simpl.
  assert (from_option sc_cursor start (last (x :: take n l))
          = from_option sc_cursor (sc_cursor x) (last (take n l))) as ->.
  { rewrite last_cons. by destruct (last (take n l)). }
  rewrite filter_cons_False; [by apply IH|].
  destruct (last (take n l)) as [y|] eqn:Hy; simpl; [|lia].
  apply last_Some_elem_of, elem_of_take in Hy as (i & Hy%list_elem_of_lookup_2 & _). rewrite Forall_forall in Hx. specialize (Hx _ Hy). lia.
Qed.

Lemma changes_after_after db u k start :
  (start ≤ k)%Z ->
  changes_after db u k = filter (fun r => k < sc_cursor r)%Z (changes_after db u start).
Proof.
  intros Hk. unfold changes_after. rewrite list_filter_filter.
  apply list_filter_iff. intros r. split; [intros [? ?]|intros (? & ? & ?)]; split_and!; (done || lia).
Qed.

Lemma changes_after_split db u start n :
  sync_ok db ->
  let taken := take n (changes_after db u start) in
  changes_after db u start
  = taken ++ changes_after db u (from_option sc_cursor start (last taken)).
Proof.
  intros Hok taken. pose proof (log_ok_sorted _ _ _ Hok) as Hsorted.
  assert (Forall (fun r => start < sc_cursor r)%Z (changes_after db u start)) as Hafter.
  { apply Forall_forall. intros r [[_ ?] _]%list_elem_of_filter. done. }
  assert (start ≤ from_option sc_cursor start (last taken))%Z as Hle.
  { destruct (last taken) as [y|] eqn:Hy; simpl; [|lia].
    apply last_Some_elem_of, elem_of_take in Hy as (i & Hy%list_elem_of_lookup_2 & _). rewrite Forall_forall in Hafter.
    specialize (Hafter _ Hy). lia. }
  rewrite (changes_after_after db u _ start Hle).
  rewrite <- (take_drop n (changes_after db u start)) at 1. f_equal. symmetry.
  apply sorted_rest; [by apply strongly_sorted_filter|done].
Qed.

Lemma server_change_cursor x o :
  from_option sv_cursor x (server_change <$> o) = from_option sc_cursor x o.
Proof. by destruct o. Qed.

Lemma page_limit_pos limit : (0 < page_limit limit)%nat.
Proof. unfold page_limit, clamp. lia. Qed.

(** a pull answers exactly the caller's next log entries, oldest first, and moves the
    cursor to the last of them: entries of other accounts and entries the cursor has passed
    are never delivered, and a page is empty only when nothing is left after the cursor. *)
Theorem pull_page_is_exact env db u d after limit db' page :
  sync_ok db -> run_tx env db (pull_changes_for_device u d after limit) = (db', Ok page) ->
  let start := from_option id 0%Z after in
  let taken := take (page_limit limit) (changes_after db u start) in
  pl_changes page = server_change <$> taken
  /\ pl_next_cursor page = from_option sc_cursor start (last taken)
  /\ changes_after db u start = taken ++ changes_after db u (pl_next_cursor page)
  /\ (pl_changes page = [] <-> changes_after db u start = [])
  /\ versions db' = versions db /\ sync_changes db' = sync_changes db.
Proof.
  intros Hok Hrun. simpl. run_post Hrun. unfold pull_changes_for_device. wp_steps.
  pose proof (log_ok_sorted _ _ _ Hok) as Hsorted.
  assert (select_changes db u (from_option id 0%Z after) (page_limit limit)
          = take (page_limit limit) (changes_after db u (from_option id 0%Z after))) as Hsel.
  { unfold select_changes. f_equal. by apply sort_sorted_log, strongly_sorted_filter. }
  rewrite Hsel in *.
  set (taken := take (page_limit limit) (changes_after db u (from_option id 0%Z after))) in *.
  rewrite decode_rows in H0 by (apply Forall_take, filter_keeps, (log_ok_forms _ _ _ Hok)).
  simplify_eq. unfold next_cursor. rewrite fmap_last.
  rewrite server_change_cursor.
  split_and!; try done; [by apply changes_after_split|].
  pose proof (page_limit_pos limit).
  destruct (changes_after db u _), (page_limit limit); simpl; [done|done|lia|done].
Qed.
