(* ===== verification/LocalDaemon.v ===== *)
(** * The entity store of the local daemon (agents/cowork-local-daemon)

    The daemon keeps the device's metadata in SQLite: one row per entity with a revision,
    and an outbox of the local writes (main.rs). Its sync calls (sync_ipc.rs) tell a peer's
    cursors, acknowledge delivered writes, apply the peer's entities, and record and
    resolve conflicts. The tables are finite maps; a failed SQLite transaction leaves them
    as they were. *)

From S2P Require Import Prelude.
From S2P Require Import Json.

Module Daemon.

(** What a call reads from outside: the clock as [Utc::now().to_rfc3339()] prints it, the
    UUID it draws, and serde_json's float printer. *)
Record DaemonEnv := {
  de_now : string;
  de_new_id : string;
  de_f64_repr : Z -> string;
}.

(** ** The tables *)

(** A row of [daemon_entities], keyed by type and id. *)
Record EntityRow := {
  en_revision : Z;
  en_etag : string;
  en_payload : Value;
  en_tombstone : bool;
  en_created_at : string;
  en_updated_at : string;
}.

(** A row of [daemon_sync_changes]; [lc_entity] is the stored entity, decoded. *)
Record LocalChange := {
  lc_cursor : Z;
  lc_entity_type : string;
  lc_entity_id : string;
  lc_revision : Z;
  lc_operation : string;
  lc_entity : EntityRow;
  lc_created_at : string;
}.

Record ConflictRow := {
  cf_peer_id : string;
  cf_entity_type : string;
  cf_entity_id : string;
  cf_local_entity : option Value;
  cf_remote_entity : Value;
  cf_created_at : string;
  cf_resolved_at : option string;
  cf_resolution : option string;
}.

(** [daemon_entities], the outbox with its AUTOINCREMENT counter, [daemon_sync_peers] with
    the local and the remote cursor, and [daemon_sync_conflicts]. *)
Record DaemonDb := MkDaemon {
  daemon_entities : gmap (string * string) EntityRow;
  daemon_changes : list LocalChange;
  daemon_sequence : Z;
  daemon_peers : gmap string (Z * Z);
  daemon_conflicts : gmap string ConflictRow;
}.

Definition set_daemon_entities (x : gmap (string * string) EntityRow) (d : DaemonDb) : DaemonDb :=
  MkDaemon x (daemon_changes d) (daemon_sequence d) (daemon_peers d) (daemon_conflicts d).

Definition set_daemon_changes (x : list LocalChange) (n : Z) (d : DaemonDb) : DaemonDb :=
  MkDaemon (daemon_entities d) x n (daemon_peers d) (daemon_conflicts d).

Definition set_daemon_peers (x : gmap string (Z * Z)) (d : DaemonDb) : DaemonDb :=
  MkDaemon (daemon_entities d) (daemon_changes d) (daemon_sequence d) x (daemon_conflicts d).

Definition set_daemon_conflicts (x : gmap string ConflictRow) (d : DaemonDb) : DaemonDb :=
  MkDaemon (daemon_entities d) (daemon_changes d) (daemon_sequence d) (daemon_peers d) x.

(** ** Local writes (main.rs) *)

Definition DAEMON_ENTITY_TYPES : list string :=
  ["project"; "thread"; "message"; "task"; "schedule"; "crew"; "skill"; "memory";
   "provider_profile"; "secret_metadata"; "mcp_metadata"].

Definition nul : ascii := Ascii.ascii_of_N 0.

Definition validate_daemon_entity_identity (entity_type id : string) : result string unit :=
  _ ← guard_err (negb (str_mem entity_type DAEMON_ENTITY_TYPES))
        ("unsupported daemon entity type " +:+ entity_type);
  guard_err (str_is_empty (trim id) || bool_decide (500 < str_len id)%Z
             || negb (string_forallb (fun c => negb (Ascii.eqb c nul)) id))
    "daemon entity id is invalid".

(** [W/"type:id:revision"] *)
Definition entity_etag (entity_type id : string) (revision : Z) : string :=
  "W/" +:+ quote +:+ entity_type +:+ ":" +:+ id +:+ ":" +:+ pretty revision +:+ quote.

Definition daemon_entity_json (entity_type id : string) (row : EntityRow) : Value :=
  json_obj
    [("entity_type", JString entity_type); ("id", JString id);
     ("revision", jint (en_revision row)); ("etag", JString (en_etag row));
     ("payload", en_payload row); ("tombstone", JBool (en_tombstone row));
     ("created_at", JString (en_created_at row)); ("updated_at", JString (en_updated_at row))].

Definition change_logged (d : DaemonDb) (entity_type id : string) (revision : Z) : bool :=
  existsb (fun c => String.eqb (lc_entity_type c) entity_type && String.eqb (lc_entity_id c) id
                    && bool_decide (lc_revision c = revision)) (daemon_changes d).

(** [INSERT INTO daemon_sync_changes], with UNIQUE (entity_type, entity_id, revision) *)
Definition log_change (entity_type id operation now : string) (row : EntityRow) (d : DaemonDb)
    : result string DaemonDb :=
  _ ← guard_err (change_logged d entity_type id (en_revision row))
        "UNIQUE constraint failed: daemon_sync_changes.entity_type, daemon_sync_changes.entity_id, daemon_sync_changes.revision";
  let cursor := (daemon_sequence d + 1)%Z in
  Ok (set_daemon_changes
    (daemon_changes d ++
      [{| lc_cursor := cursor; lc_entity_type := entity_type; lc_entity_id := id;
          lc_revision := en_revision row; lc_operation := operation; lc_entity := row;
          lc_created_at := now |}]) cursor d).

Definition put_entity (entity_type id : string) (row : EntityRow) (d : DaemonDb) : DaemonDb :=
  set_daemon_entities (<[(entity_type, id) := row]> (daemon_entities d)) d.

(** [entity revision conflict: expected ..., actual ...] *)
Definition check_expected (expected : option Z) (actual : Z) : result string unit :=
  match expected with
  | Some n => guard_err (negb (bool_decide (actual = n)))
                ("entity revision conflict: expected " +:+ pretty n +:+ ", actual " +:+ pretty actual)
  | None => Ok tt
  end.

(** The committed tables and the row answered. *)
Definition write_daemon_entity (env : DaemonEnv) (entity_type id : string) (payload : Value)
    (expected_revision : option Z) (d : DaemonDb) : result string (DaemonDb * EntityRow) :=
  _ ← validate_daemon_entity_identity entity_type id;
  _ ← guard_err (negb (is_object payload)) "daemon entity payload must be an object";
  let current := daemon_entities d !! (entity_type, id) in
  _ ← check_expected expected_revision (from_option en_revision 0%Z current);
  match current with
  | Some row =>
      if negb (en_tombstone row) && bool_decide (en_payload row = payload) then Ok (d, row)
      else
        let row' := {| en_revision := en_revision row + 1;
                       en_etag := entity_etag entity_type id (en_revision row + 1);
                       en_payload := payload; en_tombstone := false;
                       en_created_at := en_created_at row; en_updated_at := de_now env |} in
        d' ← log_change entity_type id "upsert" (de_now env) row' (put_entity entity_type id row' d);
        Ok (d', row')
  | None =>
      let row' := {| en_revision := 1; en_etag := entity_etag entity_type id 1;
                     en_payload := payload; en_tombstone := false;
                     en_created_at := de_now env; en_updated_at := de_now env |} in
      d' ← log_change entity_type id "upsert" (de_now env) row' (put_entity entity_type id row' d);
      Ok (d', row')
  end.

Definition tombstone_daemon_entity (env : DaemonEnv) (entity_type id : string)
    (expected_revision : option Z) (d : DaemonDb) : result string (DaemonDb * EntityRow) :=
  _ ← validate_daemon_entity_identity entity_type id;
  row ← ok_or "entity does not exist" (daemon_entities d !! (entity_type, id));
  _ ← check_expected expected_revision (en_revision row);
  let row' := {| en_revision := en_revision row + 1;
                 en_etag := entity_etag entity_type id (en_revision row + 1);
                 en_payload := en_payload row; en_tombstone := true;
                 en_created_at := en_created_at row; en_updated_at := de_now env |} in
  d' ← log_change entity_type id "delete" (de_now env) row' (put_entity entity_type id row' d);
  Ok (d', row').

(** [ORDER BY updated_at DESC] *)
Definition updated_later (a b : string * EntityRow) : Prop :=
  String.leb (en_updated_at b.2) (en_updated_at a.2) = true.

#[global] Instance updated_later_dec a b : Decision (updated_later a b).
Proof. unfold updated_later. apply _. Defined.

Definition list_daemon_entities (d : DaemonDb) (entity_type : string) (include_tombstones : bool)
    : result string (list (string * EntityRow)) :=
  _ ← validate_daemon_entity_identity entity_type "list";
  Ok (merge_sort updated_later
    (omap (fun kv => if String.eqb kv.1.1 entity_type
                        && (include_tombstones || negb (en_tombstone kv.2))
                     then Some (kv.1.2, kv.2) else None)
          (map_to_list (daemon_entities d)))).

Definition earlier_cursor (a b : LocalChange) : Prop := (lc_cursor a ≤ lc_cursor b)%Z.

#[global] Instance earlier_cursor_dec a b : Decision (earlier_cursor a b).
Proof. unfold earlier_cursor. apply _. Defined.

(** [entities.changes]: the page and the cursor after it. *)
Definition list_entity_changes (d : DaemonDb) (after limit : option Z) : list LocalChange * Z :=
  let after := Z.max 0 (from_option id 0%Z after) in
  let limit := Z.to_nat (clamp 1 1000 (from_option id 200%Z limit)) in
  let changes := take limit (merge_sort earlier_cursor
    (filter (fun c => (after < lc_cursor c)%Z) (daemon_changes d))) in
  (changes, from_option lc_cursor after (last changes)).

(** ** Requests (sync_ipc.rs) *)

Definition MAX_PEER_ID_BYTES : Z := 2048.
Definition MAX_SYNC_PAYLOAD_BYTES : Z := 512 * 1024.

Definition required_text (params : Value) (key : string) (maximum : Z) : result string string :=
  value ← ok_or (key +:+ " is required") (non_empty_trimmed (get_str key params));
  _ ← guard_err (bool_decide (maximum < str_len value)%Z)
        (key +:+ " exceeds " +:+ pretty maximum +:+ " bytes");
  Ok value.

Definition peer_id (params : Value) : result string string :=
  value ← required_text params "peer_id" MAX_PEER_ID_BYTES;
  _ ← guard_err (negb (string_forallb (fun c => negb (Ascii.eqb c nul)) value)) "peer_id is invalid";
  Ok value.

Definition nonnegative_integer (params : Value) (key : string) : result string Z :=
  value ← ok_or (key +:+ " must be an integer") (get key params ≫= as_i64);
  _ ← guard_err (bool_decide (value < 0)%Z) (key +:+ " must not be negative");
  Ok value.

(** An entity as the peer sends it. *)
Record RemoteEntity := {
  re_entity_type : string;
  re_entity_id : string;
  re_revision : Z;
  re_payload : option Value;
  re_tombstone : bool;
  re_updated_at : string;
}.

Definition first_of (value : Value) (key other : string) : option Value :=
  match get key value with
  | Some v => Some v
  | None => get other value
  end.

Definition remote_from_value (env : DaemonEnv) (value : Value) : result string RemoteEntity :=
  entity_type ← required_text value "entity_type" 64;
  entity_id ← ok_or "entity_id is required"
                (non_empty_trimmed (first_of value "entity_id" "id" ≫= as_str));
  revision ← ok_or "entity revision must be an integer" (get "revision" value ≫= as_i64);
  _ ← guard_err (bool_decide (revision < 1)%Z) "entity revision must be positive";
  let tombstone := from_option id (bool_decide (get_str "operation" value = Some "delete"))
                     (get_bool "tombstone" value) in
  let payload := match get "payload" value with
                 | Some item => if is_null item then None else Some item
                 | None => None
                 end in
  _ ← guard_err (negb tombstone && negb (from_option is_object false payload))
        "remote upsert payload must be an object";
  _ ← guard_err (from_option (fun p => bool_decide
                    (MAX_SYNC_PAYLOAD_BYTES < str_len (print_value (de_f64_repr env) p))%Z)
                   false payload)
        ("remote payload exceeds " +:+ pretty MAX_SYNC_PAYLOAD_BYTES +:+ " bytes");
  let updated_at := from_option id "" (first_of value "updated_at" "created_at" ≫= as_str) in
  Ok {| re_entity_type := entity_type; re_entity_id := entity_id; re_revision := revision;
        re_payload := payload; re_tombstone := tombstone;
        re_updated_at := if str_is_empty updated_at then de_now env else updated_at |}.

Definition remote_from_params (env : DaemonEnv) (params : Value) : result string RemoteEntity :=
  value ← ok_or "entity is required" (get "entity" params);
  remote_from_value env value.

Definition remote_as_value (remote : RemoteEntity) : Value :=
  json_obj
    [("entity_type", JString (re_entity_type remote));
     ("entity_id", JString (re_entity_id remote));
     ("revision", jint (re_revision remote)); ("payload", from_option id JNull (re_payload remote));
     ("tombstone", JBool (re_tombstone remote)); ("updated_at", JString (re_updated_at remote))].

(** ** Peers *)

Definition ensure_peer (peer : string) (d : DaemonDb) : DaemonDb :=
  match daemon_peers d !! peer with
  | Some _ => d
  | None => set_daemon_peers (<[peer := (0, 0)%Z]> (daemon_peers d)) d
  end.

Definition cursors (d : DaemonDb) (peer : string) : Z * Z :=
  from_option id (0, 0)%Z (daemon_peers d !! peer).

Record SyncState := {
  ls_local_cursor : Z;
  ls_remote_cursor : Z;
  ls_open_conflicts : Z;
}.

Definition open_conflicts (d : DaemonDb) (peer : string) : Z :=
  Z.of_nat (size (filter (fun kv => cf_peer_id kv.2 = peer /\ cf_resolved_at kv.2 = None)
                    (daemon_conflicts d))).

Definition state (params : Value) (d : DaemonDb) : DaemonDb * result string SyncState :=
  match peer_id params with
  | Err e => (d, Err e)
  | Ok peer =>
      let d := ensure_peer peer d in
      (d, Ok {| ls_local_cursor := (cursors d peer).1; ls_remote_cursor := (cursors d peer).2;
                ls_open_conflicts := open_conflicts d peer |})
  end.

Definition acknowledge_local (params : Value) (d : DaemonDb) : DaemonDb * result string (Z * Z) :=
  match (peer ← peer_id params; cursor ← nonnegative_integer params "cursor"; Ok (peer, cursor)) with
  | Err e => (d, Err e)
  | Ok (peer, cursor) =>
      let d := ensure_peer peer d in
      let '(local, remote) := cursors d peer in
      let d := set_daemon_peers (<[peer := (Z.max local cursor, remote)]> (daemon_peers d)) d in
      (d, Ok (cursors d peer))
  end.

Definition advance_remote_cursor (peer : string) (cursor : Z) (d : DaemonDb) : DaemonDb :=
  let '(local, remote) := cursors d peer in
  set_daemon_peers (<[peer := (local, Z.max remote cursor)]> (daemon_peers d)) d.

(** ** Applying a remote entity *)

Definition unresolved_conflict (d : DaemonDb) (peer entity_type entity_id : string)
    : option string :=
  fst <$> head (filter (fun kv => cf_peer_id kv.2 = peer /\ cf_entity_type kv.2 = entity_type
                                  /\ cf_entity_id kv.2 = entity_id /\ cf_resolved_at kv.2 = None)
                  (map_to_list (daemon_conflicts d))).

Definition record_conflict (env : DaemonEnv) (peer : string) (existing : option string)
    (local : option EntityRow) (remote : RemoteEntity) (d : DaemonDb)
    : result string (DaemonDb * string) :=
  let local_json := daemon_entity_json (re_entity_type remote) (re_entity_id remote) <$> local in
  let put id created_at :=
    set_daemon_conflicts
      (<[id := {| cf_peer_id := peer; cf_entity_type := re_entity_type remote;
                  cf_entity_id := re_entity_id remote; cf_local_entity := local_json;
                  cf_remote_entity := remote_as_value remote; cf_created_at := created_at;
                  cf_resolved_at := None; cf_resolution := None |}]> (daemon_conflicts d)) d in
  match existing with
  | Some id =>
      Ok (put id (from_option cf_created_at (de_now env) (daemon_conflicts d !! id)), id)
  | None =>
      let id := de_new_id env in
      _ ← guard_err (bool_decide (is_Some (daemon_conflicts d !! id)))
            "UNIQUE constraint failed: daemon_sync_conflicts.id";
      Ok (put id (de_now env), id)
  end.

Definition write_remote_entity (remote : RemoteEntity) (d : DaemonDb) : result string DaemonDb :=
  let existing := daemon_entities d !! (re_entity_type remote, re_entity_id remote) in
  payload ← (if re_tombstone remote then Ok (from_option en_payload (JObject []) existing)
             else ok_or "remote upsert is missing its payload" (re_payload remote));
  Ok (put_entity (re_entity_type remote) (re_entity_id remote)
    {| en_revision := re_revision remote;
       en_etag := entity_etag (re_entity_type remote) (re_entity_id remote) (re_revision remote);
       en_payload := payload; en_tombstone := re_tombstone remote;
       en_created_at := from_option en_created_at (re_updated_at remote) existing;
       en_updated_at := re_updated_at remote |} d).

Inductive ApplyStatus : Type :=
| RemoteConflict (conflict_id : string)
| IgnoredStale
| RemoteApplied.

#[global] Instance ApplyStatus_eq_dec : EqDecision ApplyStatus.
Proof. solve_decision. Defined.

Definition pending_local (d : DaemonDb) (local_cursor : Z) (entity_type id : string) : bool :=
  existsb (fun c => bool_decide (local_cursor < lc_cursor c)%Z
                    && String.eqb (lc_entity_type c) entity_type && String.eqb (lc_entity_id c) id)
    (daemon_changes d).

Definition same_revision_diverged (current : option EntityRow) (remote : RemoteEntity) : bool :=
  match current with
  | Some local =>
      bool_decide (en_revision local = re_revision remote)
      && (negb (Bool.eqb (en_tombstone local) (re_tombstone remote))
          || (negb (re_tombstone remote) && negb (bool_decide (re_payload remote = Some (en_payload local)))))
  | None => false
  end.

(** The SQLite transaction of [apply_remote]. *)
Definition apply_remote_tx (env : DaemonEnv) (peer : string) (remote_cursor : Z)
    (remote : RemoteEntity) (d : DaemonDb) : result string (DaemonDb * ApplyStatus) :=
  let current := daemon_entities d !! (re_entity_type remote, re_entity_id remote) in
  let unresolved := unresolved_conflict d peer (re_entity_type remote) (re_entity_id remote) in
  if pending_local d (cursors d peer).1 (re_entity_type remote) (re_entity_id remote)
     || bool_decide (is_Some unresolved) || same_revision_diverged current remote
  then
    recorded ← record_conflict env peer unresolved current remote d;
    Ok (advance_remote_cursor peer remote_cursor recorded.1, RemoteConflict recorded.2)
  else if from_option (fun local => bool_decide (re_revision remote < en_revision local)%Z) false current
  then Ok (advance_remote_cursor peer remote_cursor d, IgnoredStale)
  else
    d' ← write_remote_entity remote d;
    Ok (advance_remote_cursor peer remote_cursor d', RemoteApplied).

Definition apply_remote (env : DaemonEnv) (params : Value) (d : DaemonDb)
    : DaemonDb * result string ApplyStatus :=
  match (remote ← remote_from_params env params; peer ← peer_id params;
         cursor ← nonnegative_integer params "remote_cursor"; Ok (remote, peer, cursor)) with
  | Err e => (d, Err e)
  | Ok (remote, peer, cursor) =>
      let d := ensure_peer peer d in
      match apply_remote_tx env peer cursor remote d with
      | Ok (d', status) => (d', Ok status)
      | Err e => (d, Err e)
      end
  end.

(** ** Resolving a conflict *)

Definition write_local_resolution (env : DaemonEnv) (local : Value) (remote_revision : Z)
    (d : DaemonDb) : result string DaemonDb :=
  entity_type ← required_text local "entity_type" 64;
  entity_id ← required_text local "id" 500;
  payload ← ok_or "local conflict payload is missing" (get "payload" local);
  let tombstone := from_option id false (get_bool "tombstone" local) in
  let revision := (remote_revision + 1)%Z in
  let now := de_now env in
  let row := {| en_revision := revision; en_etag := entity_etag entity_type entity_id revision;
                en_payload := payload; en_tombstone := tombstone;
                en_created_at := from_option en_created_at now
                                   (daemon_entities d !! (entity_type, entity_id));
                en_updated_at := now |} in
  log_change entity_type entity_id (if tombstone then "delete" else "upsert") now row
    (put_entity entity_type entity_id row d).

Definition resolve_conflict (env : DaemonEnv) (params : Value) (d : DaemonDb)
    : DaemonDb * result string unit :=
  let resolved :=
    peer ← peer_id params;
    conflict_id ← required_text params "conflict_id" 100;
    resolution ← required_text params "resolution" 32;
    _ ← guard_err (negb (str_mem resolution ["use_remote"; "keep_local"]))
          "resolution must be use_remote or keep_local";
    row ← ok_or "open sync conflict was not found"
            (match daemon_conflicts d !! conflict_id with
             | Some row => if String.eqb (cf_peer_id row) peer && bool_decide (cf_resolved_at row = None)
                           then Some row else None
             | None => None
             end);
    remote ← remote_from_value env (cf_remote_entity row);
    d' ← (if String.eqb resolution "use_remote" then write_remote_entity remote d
          else
            local ← ok_or "the conflicting local entity no longer exists" (cf_local_entity row);
            write_local_resolution env local (re_revision remote) d);
    Ok (set_daemon_conflicts
      (<[conflict_id := {| cf_peer_id := cf_peer_id row; cf_entity_type := cf_entity_type row;
                           cf_entity_id := cf_entity_id row;
                           cf_local_entity := cf_local_entity row;
                           cf_remote_entity := cf_remote_entity row;
                           cf_created_at := cf_created_at row;
                           cf_resolved_at := Some (de_now env);
                           cf_resolution := Some resolution |}]> (daemon_conflicts d')) d') in
  match resolved with
  | Ok d' => (d', Ok tt)
  | Err e => (d, Err e)
  end.

(** [sync.conflicts], in the order of their creation. *)
Definition conflict_before (a b : string * ConflictRow) : Prop :=
  String.ltb (cf_created_at a.2) (cf_created_at b.2) = true
  \/ (cf_created_at a.2 = cf_created_at b.2 /\ String.leb a.1 b.1 = true).

#[global] Instance conflict_before_dec a b : Decision (conflict_before a b).
Proof. unfold conflict_before. solve_decision. Defined.

Definition list_conflicts (params : Value) (d : DaemonDb) : result string (list (string * ConflictRow)) :=
  peer ← peer_id params;
  let include_resolved := from_option id false (get_bool "include_resolved" params) in
  Ok (merge_sort conflict_before
    (filter (fun kv => cf_peer_id kv.2 = peer
                       /\ (include_resolved = true \/ cf_resolved_at kv.2 = None))
      (map_to_list (daemon_conflicts d)))).

End Daemon.
