(* ===== verification/DaemonProperties.v ===== *)
(** * What the local daemon guarantees

    A remote entity never overwrites a local write the server has not acknowledged, a
    recorded conflict keeps both sides, and resolving it ends in one of them. *)

From S2P Require Import Prelude.
From S2P Require Import Text.
From S2P Require Import Json.
From S2P Require Import LocalDaemon.

Import Daemon.

(** ** Trimming twice is trimming once *)

Lemma string_rev_app a b : String.rev (a +:+ b) = String.rev b +:+ String.rev a.
Proof.
  unfold String.rev. induction a as [|c a IH].
  - by rewrite string_app_nil, string_app_nil_r.
  - rewrite string_app_cons. simpl. rewrite string_rev_append_nil, IH.
    rewrite (string_rev_append_nil a (String c "")). by rewrite string_app_assoc.
Qed.

Lemma string_rev_involutive s : String.rev (String.rev s) = s.
Proof.
  induction s as [|c s IH]; [done|]. change (String c s) with ((String c "") +:+ s) at 1.
  by rewrite string_rev_app, string_rev_app, IH.
Qed.

(** The two scanners share their structure. *)
Section scan.
Variables (f : string -> string) (w2 : ascii -> ascii -> bool) (w3 : ascii -> ascii -> ascii -> bool).
Hypothesis Hf : forall s, f s =
  match s with
  | EmptyString => EmptyString
  | String c1 s1 =>
      if ws1 c1 then f s1 else
      match s1 with
      | EmptyString => s
      | String c2 s2 =>
          if w2 c1 c2 then f s2 else
          match s2 with
          | EmptyString => s
          | String c3 s3 => if w3 c1 c2 c3 then f s3 else s
          end
      end
  end.

(** A scan drops a prefix and stops. *)
Lemma scan_drops s : exists x, s = x +:+ f s /\ f (f s) = f s.
Proof.
  induction s as [s IH] using (induction_ltof1 _ String.length). unfold ltof in IH.
  assert (forall x r, s = x +:+ r -> x ≠ "" -> f s = f r -> exists x, s = x +:+ f s /\ f (f s) = f s)
    as Hstep.
  { intros x r -> Hx Hr. rewrite Hr. destruct (IH r) as (y & Hy & Hfix).
    { rewrite string_length_app. destruct x; [done|simpl; lia]. }
    exists (x +:+ y). by rewrite string_app_assoc, <- Hy. }
  assert (f s = s -> exists x, s = x +:+ f s /\ f (f s) = f s) as Hstop.
  { intros H. exists "". by rewrite !H. }
  destruct s as [|c1 s1]; [by apply Hstop; rewrite Hf|]. pose proof (Hf (String c1 s1)) as H. simpl in H.
  destruct (ws1 c1); [by eapply (Hstep (String c1 "") s1 eq_refl)|].
  destruct s1 as [|c2 s2]; [by apply Hstop|].
  destruct (w2 c1 c2); [by eapply (Hstep (String c1 (String c2 "")) s2 eq_refl)|].
  destruct s2 as [|c3 s3]; [by apply Hstop|].
  destruct (w3 c1 c2 c3); [|by apply Hstop].
  by eapply (Hstep (String c1 (String c2 (String c3 ""))) s3 eq_refl).
Qed.

Lemma scan_length s : (String.length (f s) ≤ String.length s)%nat.
Proof.
  destruct (scan_drops s) as (x & Hx & _). rewrite Hx at 2. rewrite string_length_app. lia.
Qed.

(** What starts with no white space has no prefix that does. *)
Lemma scan_prefix p q : f (p +:+ q) = p +:+ q -> f p = p.
Proof.
  intros H. rewrite Hf in H. rewrite Hf. destruct p as [|c1 p]; [done|].
  rewrite string_app_cons in H. 
  assert (forall r x, f r = x -> String.length x = S (String.length r) -> False) as Hshort.
  { intros r x <- Hl. pose proof (scan_length r). lia. }
  destruct (ws1 c1). { exfalso. by eapply Hshort. }
  destruct p as [|c2 p]; [done|]. rewrite string_app_cons in H.
  destruct (w2 c1 c2).
  { exfalso. pose proof (scan_length (p +:+ q)). rewrite H in H0. simpl in H0. lia. }
  destruct p as [|c3 p]; [done|]. rewrite string_app_cons in H.
  destruct (w3 c1 c2 c3); [|done].
  exfalso. pose proof (scan_length (p +:+ q)). rewrite H in H0. simpl in H0. lia.
Qed.
End scan.

Lemma trim_start_eq s : trim_start s =
  match s with
  | EmptyString => EmptyString
  | String c1 s1 =>
      if ws1 c1 then trim_start s1 else
      match s1 with
      | EmptyString => s
      | String c2 s2 =>
          if ws2 c1 c2 then trim_start s2 else
          match s2 with
          | EmptyString => s
          | String c3 s3 => if ws3 c1 c2 c3 then trim_start s3 else s
          end
      end
  end.
Proof. by destruct s. Qed.

Lemma trim_start_rev_eq s : trim_start_rev s =
  match s with
  | EmptyString => EmptyString
  | String c1 s1 =>
      if ws1 c1 then trim_start_rev s1 else
      match s1 with
      | EmptyString => s
      | String c2 s2 =>
          if ws2 c2 c1 then trim_start_rev s2 else
          match s2 with
          | EmptyString => s
          | String c3 s3 => if ws3 c3 c2 c1 then trim_start_rev s3 else s
          end
      end
  end.
Proof. by destruct s. Qed.

Lemma trim_idempotent s : trim (trim s) = trim s.
Proof.
  unfold trim, trim_end. set (t := trim_start s).
  destruct (scan_drops _ _ _ trim_start_eq s) as (_ & _ & Ht). fold t in Ht.
  destruct (scan_drops _ _ _ trim_start_rev_eq (String.rev t)) as (x & Hx & Hfix).
  assert (t = String.rev (trim_start_rev (String.rev t)) +:+ String.rev x) as Hsplit.
  { by rewrite <- string_rev_app, <- Hx, string_rev_involutive. }
  rewrite Hsplit in Ht at 1 2. apply (scan_prefix _ _ _ trim_start_eq) in Ht. rewrite Ht.
  by rewrite string_rev_involutive, Hfix.
Qed.

Lemma non_empty_trimmed_idempotent o s :
  non_empty_trimmed o = Some s -> non_empty_trimmed (Some s) = Some s.
Proof.
  unfold non_empty_trimmed. destruct o as [v|]; [|done].
  destruct (str_is_empty (trim v)) eqn:He; [done|]. intros [= <-]. by rewrite trim_idempotent, He.
Qed.

(** ** Reading requests *)

Lemma daemon_type_text t :
  str_mem t DAEMON_ENTITY_TYPES = true ->
  non_empty_trimmed (Some t) = Some t /\ (str_len t ≤ 64)%Z.
Proof.
  intros H%str_mem_spec. unfold DAEMON_ENTITY_TYPES in H.
  repeat (apply elem_of_cons in H as [->|H]; [vm_compute; split; [done|by intros ?]|]).
  set_solver.
Qed.

Lemma as_i64_jint n : (i64_min ≤ n ≤ i64_max)%Z -> as_i64 (jint n) = Some n.
Proof.
  intros [_ Hn]. unfold jint. destruct (Z.ltb_spec n 0); [done|].
  simpl. by rewrite bool_decide_eq_true_2.
Qed.

Lemma required_text_of key v text maximum :
  get_str key v = Some text -> non_empty_trimmed (Some text) = Some text ->
  (str_len text ≤ maximum)%Z -> required_text v key maximum = Ok text.
Proof.
  intros Hg Ht Hlen. unfold required_text. rewrite Hg, Ht. simpl.
  by rewrite bool_decide_eq_false_2 by lia.
Qed.

(** What the daemon reads from an entity's fields. *)
Lemma remote_from_value_of denv v payload t local_id r tombstone u :
  required_text v "entity_type" 64 = Ok t ->
  non_empty_trimmed (first_of v "entity_id" "id" ≫= as_str) = Some local_id ->
  get "revision" v ≫= as_i64 = Some r -> (1 ≤ r)%Z ->
  get_bool "tombstone" v = Some tombstone ->
  get "payload" v = Some (from_option id JNull payload) ->
  (forall p, payload = Some p -> is_null p = false
     /\ (str_len (print_value (de_f64_repr denv) p) ≤ MAX_SYNC_PAYLOAD_BYTES)%Z) ->
  (tombstone = false -> from_option is_object false payload = true) ->
  first_of v "updated_at" "created_at" ≫= as_str = Some u ->
  remote_from_value denv v
  = Ok {| re_entity_type := t; re_entity_id := local_id; re_revision := r;
          re_payload := payload; re_tombstone := tombstone;
          re_updated_at := if str_is_empty u then de_now denv else u |}.
Proof.
  intros Ht Hi Hr Hr1 Hb Hp Hpay Htomb Hu. unfold remote_from_value.
  rewrite Ht, (bind_of_Ok (Ok t) t), Hi by done.
  rewrite (bind_of_Ok (ok_or _ _) local_id), Hr by done.
  rewrite (bind_of_Ok (ok_or _ _) r) by done.
  rewrite (bool_decide_eq_false_2 (r < 1)%Z) by lia.
  rewrite (bind_of_Ok (guard_err false _) tt), Hp, Hu by done.
  assert (forall x, from_option id x (get_bool "tombstone" v) = tombstone) as ->
    by (intros; by rewrite Hb).
  assert ((if is_null (from_option id JNull payload) then None
           else Some (from_option id JNull payload)) = payload) as ->.
  { destruct payload as [p|]; [|done]. destruct (Hpay p eq_refl) as [Ho _]. simpl. by rewrite Ho. }
  assert (negb tombstone && negb (from_option is_object false payload) = false) as ->.
  { destruct tombstone; [done|]. by rewrite Htomb. }
  rewrite (bind_of_Ok (guard_err false _) tt) by done.
  assert (from_option (fun p => bool_decide
    (MAX_SYNC_PAYLOAD_BYTES < str_len (print_value (de_f64_repr denv) p))%Z) false payload = false) as ->.
  { destruct payload as [p|]; [|done]. destruct (Hpay p eq_refl) as [_ Hs]. cbn [from_option].
    rewrite bool_decide_eq_false_2 by lia. done. }
  by rewrite (bind_of_Ok (guard_err false _) tt) by done.
Qed.

Lemma cursors_ensure d peer : cursors (ensure_peer peer d) peer = cursors d peer.
Proof.
  unfold ensure_peer, cursors. destruct (daemon_peers d !! peer) as [c|] eqn:H; [by rewrite H|].
  simpl. by rewrite lookup_insert_eq.
Qed.

Lemma ensure_entities d peer : daemon_entities (ensure_peer peer d) = daemon_entities d.
Proof. unfold ensure_peer. by case_match. Qed.

Lemma ensure_changes d peer : daemon_changes (ensure_peer peer d) = daemon_changes d.
Proof. unfold ensure_peer. by case_match. Qed.

Lemma ensure_conflicts d peer : daemon_conflicts (ensure_peer peer d) = daemon_conflicts d.
Proof. unfold ensure_peer. by case_match. Qed.

Lemma cursors_advance d peer k :
  cursors (advance_remote_cursor peer k d) peer = ((cursors d peer).1, Z.max (cursors d peer).2 k).
Proof.
  unfold advance_remote_cursor. destruct (cursors d peer) as [local remote].
  unfold cursors. simpl. by rewrite lookup_insert_eq.
Qed.

Lemma advance_entities d peer k :
  daemon_entities (advance_remote_cursor peer k d) = daemon_entities d.
Proof. unfold advance_remote_cursor. by destruct (cursors d peer). Qed.

Lemma advance_changes d peer k :
  daemon_changes (advance_remote_cursor peer k d) = daemon_changes d.
Proof. unfold advance_remote_cursor. by destruct (cursors d peer). Qed.

Lemma advance_conflicts d peer k :
  daemon_conflicts (advance_remote_cursor peer k d) = daemon_conflicts d.
Proof. unfold advance_remote_cursor. by destruct (cursors d peer). Qed.

Lemma nonnegative_integer_of v key n :
  get key v = Some (jint n) -> (0 ≤ n ≤ i64_max)%Z -> nonnegative_integer v key = Ok n.
Proof.
  intros Hg Hn. unfold nonnegative_integer. rewrite Hg.
  change (Some (jint n) ≫= as_i64) with (as_i64 (jint n)).
  rewrite as_i64_jint by (unfold i64_min; lia). rewrite (bind_of_Ok (ok_or _ _) n) by done.
  by rewrite bool_decide_eq_false_2 by lia.
Qed.

(** ** What a parsed entity satisfies *)

Record parsed (f64_repr : Z -> string) (r : RemoteEntity) : Prop := {
  ps_type : non_empty_trimmed (Some (re_entity_type r)) = Some (re_entity_type r)
    /\ (str_len (re_entity_type r) ≤ 64)%Z;
  ps_id : non_empty_trimmed (Some (re_entity_id r)) = Some (re_entity_id r);
  ps_revision : (1 ≤ re_revision r)%Z;
  ps_payload : forall p, re_payload r = Some p -> is_null p = false
    /\ (str_len (print_value f64_repr p) ≤ MAX_SYNC_PAYLOAD_BYTES)%Z;
  ps_upsert : re_tombstone r = false -> from_option is_object false (re_payload r) = true;
}.

Lemma required_text_inv v key maximum s :
  required_text v key maximum = Ok s ->
  non_empty_trimmed (Some s) = Some s /\ (str_len s ≤ maximum)%Z.
Proof.
  unfold required_text. intros (x & Hx%ok_or_Ok & H)%result_bind_Ok.
  apply result_bind_Ok in H as (_ & Hlen%guard_err_Ok & [= ->]).
  apply bool_decide_eq_false in Hlen. split; [by eapply non_empty_trimmed_idempotent|lia].
Qed.

Lemma remote_parsed env v r :
  remote_from_value env v = Ok r ->
  parsed (de_f64_repr env) r /\ (re_updated_at r = "" -> de_now env = "").
Proof.
  unfold remote_from_value. intros (t & Ht%required_text_inv & H)%result_bind_Ok.
  apply result_bind_Ok in H as (i & Hi%ok_or_Ok%non_empty_trimmed_idempotent & H).
  apply result_bind_Ok in H as (n & _ & H).
  apply result_bind_Ok in H as ([] & Hn%guard_err_Ok%bool_decide_eq_false & H).
  apply result_bind_Ok in H as ([] & Ho%guard_err_Ok & H).
  apply result_bind_Ok in H as ([] & Hs%guard_err_Ok & [= <-]).
  split; [split; simpl; [done|done|lia| |]|].
  - intros p Hp. rewrite Hp in Hs. apply bool_decide_eq_false in Hs.
    split; [|lia]. destruct (get "payload" v) as [q|]; [|done].
    destruct (is_null q) eqn:Hnull; [done|]. by simplify_eq.
  - intros Hb. rewrite Hb in Ho. simpl in Ho. by apply negb_false_iff in Ho.
  - simpl. destruct (from_option id "" _); [done|discriminate].
Qed.

(** What a conflict records of the remote side reads back as the same entity. *)
Lemma remote_reads_back env r :
  parsed (de_f64_repr env) r -> (re_revision r ≤ i64_max)%Z -> re_updated_at r ≠ "" ->
  remote_from_value env (remote_as_value r) = Ok r.
Proof.
  intros [[Ht Hl] Hi Hn Hp Ho] Hmax Hu.
  rewrite (remote_from_value_of env (remote_as_value r) (re_payload r) (re_entity_type r)
             (re_entity_id r) (re_revision r) (re_tombstone r) (re_updated_at r)); try done.
  - destruct r; simpl in *. by destruct re_updated_at0.
  - by apply required_text_of.
  - change (get "revision" (remote_as_value r)) with (Some (jint (re_revision r))).
    apply as_i64_jint. unfold i64_min. lia.
Qed.

(** ** Conflicts *)

Lemma record_conflict_inv env peer existing local remote d d' id :
  record_conflict env peer existing local remote d = Ok (d', id) ->
  exists created_at,
    d' = set_daemon_conflicts
      (<[id := {| cf_peer_id := peer; cf_entity_type := re_entity_type remote;
                  cf_entity_id := re_entity_id remote;
                  cf_local_entity :=
                    daemon_entity_json (re_entity_type remote) (re_entity_id remote) <$> local;
                  cf_remote_entity := remote_as_value remote; cf_created_at := created_at;
                  cf_resolved_at := None; cf_resolution := None |}]> (daemon_conflicts d)) d.
Proof.
  unfold record_conflict. destruct existing as [old|].
  - intros [= <- <-]. eauto.
  - intros (_ & _ & [= <- <-])%result_bind_Ok. eauto.
Qed.

(** C9: a local write the server has not acknowledged survives whatever the server sends:
    applying a remote version of its entity leaves every row and the outbox as they are,
    and records, or renews, an open conflict that keeps the local row and from which the
    remote version can be read back; no other conflict changes. *)
Theorem pending_edits_survive env params d d' status remote peer :
  remote_from_params env params = Ok remote -> peer_id params = Ok peer ->
  (re_revision remote ≤ i64_max)%Z -> de_now env ≠ "" ->
  pending_local d (cursors d peer).1 (re_entity_type remote) (re_entity_id remote) = true ->
  apply_remote env params d = (d', Ok status) ->
  daemon_entities d' = daemon_entities d /\ daemon_changes d' = daemon_changes d
  /\ exists id row,
       status = RemoteConflict id /\ daemon_conflicts d' !! id = Some row
       /\ cf_peer_id row = peer /\ cf_resolved_at row = None
       /\ cf_local_entity row
          = daemon_entity_json (re_entity_type remote) (re_entity_id remote)
              <$> daemon_entities d !! (re_entity_type remote, re_entity_id remote)
       /\ remote_from_value env (cf_remote_entity row) = Ok remote
       /\ forall id', id' ≠ id -> daemon_conflicts d' !! id' = daemon_conflicts d !! id'.
Proof.
  intros Hr Hp Hmax Hnow Hpend. unfold apply_remote. rewrite Hr, Hp.
  rewrite (bind_of_Ok (Ok remote) remote), (bind_of_Ok (Ok peer) peer) by done.
  destruct (nonnegative_integer params "remote_cursor") as [k|]; [|done].
  rewrite (bind_of_Ok (Ok k) k) by done. unfold apply_remote_tx.
  rewrite cursors_ensure. unfold pending_local in *. rewrite ensure_changes, Hpend. simpl orb.
  cbv iota. rewrite ensure_entities.
  destruct (record_conflict _ _ _ _ _ _) as [[d1 id]|] eqn:Hrec; [|done].
  rewrite (bind_of_Ok (Ok (d1, id)) (d1, id)) by done. intros [= <- <-].
  apply record_conflict_inv in Hrec as (created_at & ->).
  rewrite advance_entities, advance_changes, advance_conflicts. simpl.
  rewrite ensure_entities, ensure_changes, ensure_conflicts. split; [done|]. split; [done|].
  eexists id, _. split; [done|]. split; [apply lookup_insert_eq|]. simpl. split_and!; try done.
  - unfold remote_from_params in Hr. apply result_bind_Ok in Hr as (v & _ & Hr).
    apply remote_parsed in Hr as [Hparsed Hu]. apply remote_reads_back; auto.
  - intros id' Hne. by rewrite lookup_insert_ne.
Qed.

(** ** The invariant of the store *)

Definition row_ok (row : EntityRow) : Prop :=
  is_object (en_payload row) = true /\ (1 ≤ en_revision row)%Z.

(** An outbox entry: a written row with an object, or a deleted one. *)
Definition change_ok (c : LocalChange) : Prop :=
  row_ok (lc_entity c) /\ lc_revision c = en_revision (lc_entity c)
  /\ lc_operation c = (if en_tombstone (lc_entity c) then "delete" else "upsert").

Definition logged_key (c : LocalChange) : string * string * Z :=
  (lc_entity_type c, lc_entity_id c, lc_revision c).

Record daemon_ok (d : DaemonDb) : Prop := {
  do_rows : forall k row, daemon_entities d !! k = Some row -> row_ok row;
  do_outbox : Forall change_ok (daemon_changes d);
  do_sorted : StronglySorted Z.lt (lc_cursor <$> daemon_changes d);
  do_bound : Forall (fun c => lc_cursor c ≤ daemon_sequence d)%Z (daemon_changes d);
  do_unique : NoDup (logged_key <$> daemon_changes d);
  do_conflicts : forall id c v, daemon_conflicts d !! id = Some c -> cf_local_entity c = Some v ->
    exists t i row, v = daemon_entity_json t i row /\ row_ok row;
}.

Inductive daemon_step : DaemonDb -> DaemonDb -> Prop :=
| step_write env t i p expected d d' row :
    write_daemon_entity env t i p expected d = Ok (d', row) -> daemon_step d d'
| step_tombstone env t i expected d d' row :
    tombstone_daemon_entity env t i expected d = Ok (d', row) -> daemon_step d d'
| step_state params d : daemon_step d (state params d).1
| step_acknowledge params d : daemon_step d (acknowledge_local params d).1
| step_apply env params d : daemon_step d (apply_remote env params d).1
| step_resolve env params d : daemon_step d (resolve_conflict env params d).1.

Lemma change_logged_spec d t i r :
  change_logged d t i r = false -> (t, i, r) ∉ logged_key <$> daemon_changes d.
Proof.
  intros H (c & Heq & Hin)%list_elem_of_fmap. unfold change_logged in H.
  assert (existsb (fun c => String.eqb (lc_entity_type c) t && String.eqb (lc_entity_id c) i
            && bool_decide (lc_revision c = r)) (daemon_changes d) = true) as Ht; [|congruence].
  apply existsb_exists. exists c. split; [by apply list_elem_of_In|].
  unfold logged_key in Heq. injection Heq as -> -> ->.
  by rewrite !String.eqb_refl, bool_decide_eq_true_2.
Qed.

Lemma put_entity_ok t i row d : row_ok row -> daemon_ok d -> daemon_ok (put_entity t i row d).
Proof.
  intros Hrow [Hr Ho Hs Hb Hu Hc]. split; simpl; try done.
  intros k row'. destruct (decide ((t, i) = k)) as [<-|Hne].
  - rewrite lookup_insert_eq. by intros [= <-].
  - rewrite lookup_insert_ne by done. apply Hr.
Qed.

Lemma log_change_ok t i op now row d d' :
  row_ok row -> op = (if en_tombstone row then "delete" else "upsert") ->
  log_change t i op now row d = Ok d' -> daemon_ok d ->
  daemon_ok d' /\ daemon_entities d' = daemon_entities d
  /\ daemon_conflicts d' = daemon_conflicts d
  /\ exists c, daemon_changes d' = daemon_changes d ++ [c] /\ lc_entity_type c = t
       /\ lc_entity_id c = i /\ lc_entity c = row /\ change_ok c
       /\ (daemon_sequence d < lc_cursor c)%Z.
Proof.
  intros Hrow Hop H [Hr Ho Hs Hb Hu Hc]. unfold log_change in H.
  apply result_bind_Ok in H as ([] & Hlog%guard_err_Ok%change_logged_spec & [= <-]).
  split; [|split; [done|]; split; [done|]; eexists; split; [reflexivity|]; simpl;
           by split_and!; try done; lia].
  split; simpl; [done| | | | |done].
  - apply Forall_app. split; [done|]. apply Forall_singleton. by split.
  - rewrite fmap_app. apply StronglySorted_app_2; [|done|repeat constructor].
    intros x1 x2 (c & -> & Hin)%list_elem_of_fmap Hx2. simpl in Hx2.
    apply list_elem_of_singleton in Hx2 as ->. rewrite Forall_forall in Hb.
    specialize (Hb _ Hin). lia.
  - apply Forall_app. split; [|apply Forall_singleton; simpl; lia].
    eapply Forall_impl; [exact Hb|]. simpl. lia.
  - rewrite fmap_app. apply NoDup_app. split; [done|]. split; [|apply NoDup_singleton].
    intros x Hx Hx'. simpl in Hx'. apply list_elem_of_singleton in Hx' as ->. done.
Qed.

Lemma write_remote_ok f remote d d' :
  parsed f remote -> write_remote_entity remote d = Ok d' -> daemon_ok d -> daemon_ok d'.
Proof.
  intros Hp H Hok. unfold write_remote_entity in H.
  apply result_bind_Ok in H as (payload & Hpay & [= <-]). apply put_entity_ok; [|done].
  split; simpl; [|by apply Hp]. pose proof (ps_upsert _ _ Hp) as Hup.
  destruct (re_tombstone remote).
  - injection Hpay as <-. destruct (daemon_entities d !! _) as [row|] eqn:Hrow; [|done].
    by apply (do_rows _ Hok) in Hrow as [? _].
  - apply ok_or_Ok in Hpay. rewrite Hpay in Hup. by apply Hup.
Qed.

Lemma daemon_ok_same d d' :
  daemon_entities d' = daemon_entities d -> daemon_changes d' = daemon_changes d ->
  daemon_sequence d' = daemon_sequence d -> daemon_conflicts d' = daemon_conflicts d ->
  daemon_ok d -> daemon_ok d'.
Proof. intros He Hc Hs Hf [?????]. split; rewrite ?He, ?Hc, ?Hs, ?Hf; done. Qed.

Lemma ensure_ok peer d : daemon_ok d -> daemon_ok (ensure_peer peer d).
Proof. apply daemon_ok_same; unfold ensure_peer; by case_match. Qed.

Lemma advance_ok peer k d : daemon_ok d -> daemon_ok (advance_remote_cursor peer k d).
Proof. apply daemon_ok_same; unfold advance_remote_cursor; by destruct (cursors d peer). Qed.

Lemma record_conflict_ok env peer existing remote d d' id :
  record_conflict env peer existing
    (daemon_entities d !! (re_entity_type remote, re_entity_id remote)) remote d = Ok (d', id) ->
  daemon_ok d -> daemon_ok d'.
Proof.
  intros (created_at & ->)%record_conflict_inv [Hr Ho Hs Hb Hu Hc]. split; simpl; try done.
  intros id' c v. destruct (decide (id = id')) as [<-|Hne].
  - rewrite lookup_insert_eq. intros [= <-]. simpl.
    destruct (daemon_entities d !! _) as [row|] eqn:Hrow; [|done]. simpl. intros [= <-].
    by eauto 10.
  - rewrite lookup_insert_ne by done. apply Hc.
Qed.

(** The local row a conflict keeps reads back. *)
Lemma local_json_reads t i row :
  get "payload" (daemon_entity_json t i row) = Some (en_payload row)
  /\ get_bool "tombstone" (daemon_entity_json t i row) = Some (en_tombstone row)
  /\ get_str "entity_type" (daemon_entity_json t i row) = Some t
  /\ get_str "id" (daemon_entity_json t i row) = Some i.
Proof. by split_and!. Qed.

(** Keeping the local side writes it above the remote revision, and logs it. *)
Lemma write_local_inv env t i row revision d d' :
  write_local_resolution env (daemon_entity_json t i row) revision d = Ok d' ->
  exists t' i', 
    let row' := {| en_revision := revision + 1; en_etag := entity_etag t' i' (revision + 1);
                   en_payload := en_payload row; en_tombstone := en_tombstone row;
                   en_created_at := from_option en_created_at (de_now env)
                                      (daemon_entities d !! (t', i'));
                   en_updated_at := de_now env |} in
    log_change t' i' (if en_tombstone row then "delete" else "upsert") (de_now env) row'
      (put_entity t' i' row' d) = Ok d'
    /\ (non_empty_trimmed (Some t) = Some t -> t' = t)
    /\ (non_empty_trimmed (Some i) = Some i -> i' = i).
Proof.
  destruct (local_json_reads t i row) as (Hp & Hb & Ht & Hi). unfold write_local_resolution.
  rewrite Hp, Hb. intros (t' & Hrt & H)%result_bind_Ok.
  apply result_bind_Ok in H as (i' & Hri & H). exists t', i'. split; [exact H|].
  unfold required_text in Hrt, Hri. rewrite Ht in Hrt. rewrite Hi in Hri.
  split; intros Hn; rewrite Hn in *; [clear Hri; rename Hrt into H1|rename Hri into H1];
    simpl in H1; apply result_bind_Ok in H1 as (_ & _ & [= <-]); done.
Qed.

Lemma write_local_ok env t i row revision d d' :
  row_ok row -> (1 ≤ revision)%Z ->
  write_local_resolution env (daemon_entity_json t i row) revision d = Ok d' ->
  daemon_ok d -> daemon_ok d'.
Proof.
  intros [Ho Hrev] Hr (t' & i' & H & _)%write_local_inv Hok. cbv zeta in H.
  eapply log_change_ok in H as [H _]; [exact H| |done|].
  - split; simpl; [done|lia].
  - apply put_entity_ok; [|done]. split; simpl; [done|lia].
Qed.

Lemma write_local_same env t i row revision d d' :
  write_local_resolution env (daemon_entity_json t i row) revision d = Ok d' ->
  daemon_conflicts d' = daemon_conflicts d.
Proof.
  intros (t' & i' & H & _)%write_local_inv. cbv zeta in H. unfold log_change in H.
  by apply result_bind_Ok in H as (_ & _ & [= <-]).
Qed.

Lemma write_remote_same remote d d' :
  write_remote_entity remote d = Ok d' ->
  daemon_conflicts d' = daemon_conflicts d /\ daemon_changes d' = daemon_changes d.
Proof. unfold write_remote_entity. by intros (p & _ & [= <-])%result_bind_Ok. Qed.

Lemma write_daemon_ok env t i p expected d d' row :
  write_daemon_entity env t i p expected d = Ok (d', row) -> daemon_ok d -> daemon_ok d'.
Proof.
  intros H Hok. unfold write_daemon_entity in H.
  apply result_bind_Ok in H as (_ & _ & H).
  apply result_bind_Ok in H as (_ & Hobj%guard_err_Ok%negb_false_iff & H).
  apply result_bind_Ok in H as (_ & _ & H).
  destruct (daemon_entities d !! (t, i)) as [old|] eqn:Hold.
  - destruct (negb (en_tombstone old) && _); [by simplify_eq|].
    assert (1 ≤ en_revision old)%Z by (by apply (do_rows _ Hok) in Hold as [_ ?]).
    apply result_bind_Ok in H as (d1 & Hlog & [= <- <-]).
    eapply log_change_ok in Hlog as [Hlog _]; [exact Hlog|split; simpl; [done|lia]|done|].
    apply put_entity_ok; [split; simpl; [done|lia]|done].
  - apply result_bind_Ok in H as (d1 & Hlog & [= <- <-]).
    eapply log_change_ok in Hlog as [Hlog _]; [exact Hlog|split; simpl; [done|lia]|done|].
    apply put_entity_ok; [split; simpl; [done|lia]|done].
Qed.

Lemma tombstone_daemon_ok env t i expected d d' row :
  tombstone_daemon_entity env t i expected d = Ok (d', row) -> daemon_ok d -> daemon_ok d'.
Proof.
  intros H Hok. unfold tombstone_daemon_entity in H.
  apply result_bind_Ok in H as (_ & _ & H).
  apply result_bind_Ok in H as (old & Hold%ok_or_Ok & H).
  apply result_bind_Ok in H as (_ & _ & H).
  apply (do_rows _ Hok) in Hold as [Ho Hrev].
  apply result_bind_Ok in H as (d1 & Hlog & [= <- <-]).
  eapply log_change_ok in Hlog as [Hlog _]; [exact Hlog|split; simpl; [done|lia]|done|].
  apply put_entity_ok; [split; simpl; [done|lia]|done].
Qed.

Lemma apply_tx_ok f env peer k remote d d' status :
  parsed f remote -> apply_remote_tx env peer k remote d = Ok (d', status) ->
  daemon_ok d -> daemon_ok d'.
Proof.
  intros Hp H Hok. unfold apply_remote_tx in H. destruct (pending_local _ _ _ _ || _ || _).
  - apply result_bind_Ok in H as ([d1 id] & Hrec & [= <- <-]).
    apply advance_ok. by eapply record_conflict_ok.
  - destruct (from_option _ _ _); [simplify_eq; by apply advance_ok|].
    apply result_bind_Ok in H as (d1 & Hw & [= <- <-]).
    apply advance_ok. by eapply write_remote_ok.
Qed.

Lemma resolve_ok env params d : daemon_ok d -> daemon_ok (resolve_conflict env params d).1.
Proof.
  intros Hok. unfold resolve_conflict. destruct (_ ≫= _) as [d'|] eqn:H; [|done]. simpl.
  apply result_bind_Ok in H as (peer & _ & H).
  apply result_bind_Ok in H as (id & _ & H).
  apply result_bind_Ok in H as (resolution & _ & H).
  apply result_bind_Ok in H as (_ & _ & H).
  apply result_bind_Ok in H as (row & Hrow%ok_or_Ok & H).
  assert (daemon_conflicts d !! id = Some row) as Hc.
  { destruct (daemon_conflicts d !! id) as [c|]; [|done].
    destruct (_ && _) in Hrow; by simplify_eq. }
  apply result_bind_Ok in H as (remote & [Hparsed _]%remote_parsed & H).
  apply result_bind_Ok in H as (d1 & Hwrite & [= <-]).
  assert (daemon_ok d1) as Hok1.
  { destruct (String.eqb resolution "use_remote"); [by eapply write_remote_ok|].
    apply result_bind_Ok in Hwrite as (v & Hv%ok_or_Ok & Hwrite).
    destruct (do_conflicts _ Hok _ _ _ Hc Hv) as (t & i & lrow & -> & Hl).
    eapply write_local_ok; [exact Hl| |exact Hwrite|done]. by apply Hparsed. }
  destruct Hok1 as [Hr Ho Hs Hb Hu Hcf]. split; simpl; try done.
  intros id' c v. destruct (decide (id = id')) as [<-|Hne].
  - rewrite lookup_insert_eq. intros [= <-]. simpl. intros Hv. by eapply (do_conflicts _ Hok).
  - rewrite lookup_insert_ne by done. apply Hcf.
Qed.

Lemma daemon_step_ok d d' : daemon_step d d' -> daemon_ok d -> daemon_ok d'.
Proof.
  intros Hstep Hok. destruct Hstep.
  - by eapply write_daemon_ok.
  - by eapply tombstone_daemon_ok.
  - unfold state. destruct (peer_id params); [by apply ensure_ok|done].
  - unfold acknowledge_local. destruct (_ ≫= _) as [[peer k]|]; [|done].
    simpl. destruct (cursors _ _).
    eapply daemon_ok_same; [..|by apply (ensure_ok peer)]; done.
  - unfold apply_remote. destruct (_ ≫= _) as [[[remote peer] k]|] eqn:H; [|done].
    apply result_bind_Ok in H as (r & Hr & H).
    apply result_bind_Ok in H as (p & _ & H). apply result_bind_Ok in H as (c & _ & [= -> _ _]).
    unfold remote_from_params in Hr. apply result_bind_Ok in Hr as (v & _ & [Hp _]%remote_parsed).
    destruct (apply_remote_tx _ _ _ _ _) as [[d1 status]|] eqn:Htx; simpl; [|by apply ensure_ok].
    eapply apply_tx_ok; [exact Hp|exact Htx|by apply ensure_ok].
  - by apply resolve_ok.
Qed.

Lemma empty_daemon_ok : daemon_ok (MkDaemon ∅ [] 0 ∅ ∅).
Proof. split; simpl; try done; [constructor|constructor]. Qed.

Lemma daemon_steps_ok d : rtc daemon_step (MkDaemon ∅ [] 0 ∅ ∅) d -> daemon_ok d.
Proof.
  intros H. assert (forall d0, rtc daemon_step d0 d -> daemon_ok d0 -> daemon_ok d) as Hgen.
  { induction 1; [done|]. eauto using daemon_step_ok. }
  by eapply Hgen, empty_daemon_ok.
Qed.
