(* ===== verification/DeviceSync.v ===== *)
(** * Metadata sync of the device agent (agents/cowork-device-agent/src/main.rs)

    Every two seconds the agent of a personal device pushes the local daemon's outbox to
    the server and pulls the server's changes back, a few pages at a time. The two stores
    are the state; a call that fails ends the cycle and leaves what the calls before it
    did. A request to the server may get lost, or its response. *)

From S2P Require Import Prelude.
From S2P Require Import Json.
From S2P Require Import Contracts.
From S2P Require Import AuthCodes.
From S2P Require Import Auth.
From S2P Require Import Store.
From S2P Require Import SyncProtocol.
From S2P Require Import LocalDaemon.

Import Daemon.

Module DeviceSync.

(** ** The world of a cycle *)

Inductive Delivery : Type := Delivered | RequestLost | ResponseLost.

(** What the [k]-th call of an agent sees: the server's and the daemon's environment, the
    fate of the request, and the agent's clock in nanoseconds. *)
Record CallEnv := {
  ce_server : nat -> Env;
  ce_daemon : DaemonEnv;
  ce_network : Delivery;
  ce_now_nanos : Z;
}.

(** The agent's configuration, with the code of its libraries: SHA-256, [Uuid::parse_str],
    chrono's parser (in nanoseconds) and printer of RFC 3339 times. *)
Record Agent := {
  ag_user_id : Uuid;
  ag_executor_id : Uuid;
  ag_credential_id : Uuid;
  ag_server_url : string;
  ag_sha256 : string -> string;
  ag_parse_uuid : string -> option Uuid;
  ag_parse_rfc3339 : string -> option Z;
  ag_rfc3339 : DateTime -> string;
}.

Record World := MkWorld {
  w_server : Db;
  w_daemon : DaemonDb;
  w_calls : nat;
}.

(** A cycle's actions: what they leave, and their answer or error. *)
Definition Cycle (A : Type) : Type := (nat -> CallEnv) -> World -> World * result string A.

#[global] Instance cycle_ret : MRet Cycle := fun A a envs w => (w, Ok a).

#[global] Instance cycle_bind : MBind Cycle := fun A B f m envs w =>
  match m envs w with
  | (w', Ok a) => f a envs w'
  | (w', Err e) => (w', Err e)
  end.

Definition bail {A} (e : string) : Cycle A := fun envs w => (w, Err e).

Definition of_result {A} (r : result string A) : Cycle A := fun envs w => (w, r).

(** A call of the daemon. *)
Definition call {A} (f : DaemonEnv -> DaemonDb -> DaemonDb * result string A) : Cycle A :=
  fun envs w =>
    let '(d, r) := f (ce_daemon (envs (w_calls w))) (w_daemon w) in
    (MkWorld (w_server w) d (S (w_calls w)), r).

(** A request to the server. *)
Definition request {A} (f : (nat -> Env) -> Db -> Db * result ApiError A) : Cycle A :=
  fun envs w =>
    let env := envs (w_calls w) in
    let next db := MkWorld db (w_daemon w) (S (w_calls w)) in
    match ce_network env with
    | RequestLost => (next (w_server w), Err "request failed")
    | ResponseLost => (next (f (ce_server env) (w_server w)).1, Err "response lost")
    | Delivered =>
        match f (ce_server env) (w_server w) with
        | (db, Ok a) => (next db, Ok a)
        | (db, Err _) => (next db, Err "control plane rejected the request")
        end
    end.

Section agent.
Context (ag : Agent).

Definition peer_name : string :=
  ag_server_url ag +:+ "#" +:+ uuid_to_string (ag_executor_id ag).

Definition principal : ExecutorPrincipal :=
  {| ep_executor_id := ag_executor_id ag; ep_credential_id := ag_credential_id ag |}.

(** ** Stable identifiers *)

(** The big-endian bytes of an integer. *)
Fixpoint be_bytes (k : nat) (n : N) : string :=
  match k with
  | O => ""
  | S k => be_bytes k (n / 256) +:+ String (Ascii.ascii_of_N (n mod 256)) ""
  end.

Fixpoint of_be_bytes (acc : N) (k : nat) (s : string) : N :=
  match k, s with
  | S k, String c s => of_be_bytes (acc * 256 + byte_of c) k s
  | _, _ => acc
  end.

(** The first 16 bytes of a digest with the version and variant bits of a UUID. *)
Definition uuid_of_digest (digest : string) : Uuid :=
  let n := of_be_bytes 0 16 digest in
  let with_version := N.lor (N.ldiff n (N.shiftl 0xf0 72)) (N.shiftl 0x80 72) in
  N.lor (N.ldiff with_version (N.shiftl 0xc0 56)) (N.shiftl 0x80 56).

Definition nul_byte : string := String nul "".

Definition stable_sync_entity_id (entity_type local_entity_id : string) : Uuid :=
  match ag_parse_uuid ag local_entity_id with
  | Some id => id
  | None =>
      uuid_of_digest (ag_sha256 ag
        ("open-cowork-global-entity-id-v1" +:+ nul_byte +:+ be_bytes 16 (ag_user_id ag)
         +:+ nul_byte +:+ entity_type +:+ nul_byte +:+ local_entity_id))
  end.

Definition stable_sync_operation_id (cursor : Z) : Uuid :=
  uuid_of_digest (ag_sha256 ag
    ("open-cowork-device-sync-operation-v1" +:+ nul_byte +:+ be_bytes 16 (ag_executor_id ag)
     +:+ be_bytes 8 (Z.to_N (cursor mod 2 ^ 64)))).

(** ** Payloads *)

Definition LOCAL_ID : string := "_cowork_local_entity_id".
Definition LOCAL_PROFILE_ID : string := "_cowork_local_model_profile_id".

Definition is_uuid (s : string) : bool := bool_decide (is_Some (ag_parse_uuid ag s)).

Definition sync_payload_for_server (entity_type local_entity_id : string) (payload : Value)
    : result string Value :=
  object ← ok_or ("local " +:+ entity_type +:+ " payload must be a JSON object") (as_object payload);
  let object := if is_uuid local_entity_id then object
                else map_insert LOCAL_ID (JString local_entity_id) object in
  Ok (JObject
    (match (if String.eqb entity_type "schedule" then map_str "model_profile_id" object else None) with
     | Some profile_id =>
         if is_uuid profile_id then object
         else map_insert "model_profile_id"
                (juuid (stable_sync_entity_id "provider_profile" profile_id))
                (map_insert LOCAL_PROFILE_ID (JString profile_id) object)
     | None => object
     end)).

Definition sync_payload_for_local (entity_type : string) (payload : Value) : Value :=
  match payload with
  | JObject object =>
      let object := map_remove LOCAL_ID object in
      let removed := map_remove LOCAL_PROFILE_ID object in
      JObject
        (if String.eqb entity_type "schedule" then
           match map_str LOCAL_PROFILE_ID object with
           | Some profile_id => map_insert "model_profile_id" (JString profile_id) removed
           | None => removed
           end
         else removed)
  | _ => payload
  end.

(** ** Pushing *)

Definition local_change_for_server (now_nanos : Z) (change : LocalChange)
    : result string SyncChange :=
  operation ←
    (if String.eqb (lc_operation change) "upsert" && negb (en_tombstone (lc_entity change))
     then Ok Upsert
     else if String.eqb (lc_operation change) "delete" && en_tombstone (lc_entity change)
     then Ok Delete
     else Err ("invalid local sync operation " +:+ lc_operation change));
  payload ←
    (if bool_decide (operation = Upsert)
     then p ← sync_payload_for_server (lc_entity_type change) (lc_entity_id change)
                (en_payload (lc_entity change));
          Ok (Some p)
     else Ok None);
  Ok {| ch_schema_version := SCHEMA_VERSION;
        ch_operation_id := stable_sync_operation_id (lc_cursor change);
        ch_device_id := ag_executor_id ag; ch_entity_type := lc_entity_type change;
        ch_entity_id := stable_sync_entity_id (lc_entity_type change) (lc_entity_id change);
        ch_base_revision := lc_revision change - 1; ch_operation := operation;
        ch_payload := payload;
        ch_client_timestamp :=
          from_option id now_nanos (ag_parse_rfc3339 ag (lc_created_at change)) |}.

Definition now_nanos : Cycle Z := fun envs w => (w, Ok (ce_now_nanos (envs (w_calls w)))).

Definition push_sync_changes (changes : list SyncChange) : Cycle (list SyncApplyResult) :=
  request (fun envs db =>
    Sync.agent_push_changes envs db (ag_executor_id ag) principal changes).

Definition pull_sync_changes (after : Z) : Cycle Sync.PullResponse :=
  request (fun envs db =>
    run_tx (envs 0%nat) db
      (Sync.agent_pull_changes (ag_executor_id ag) principal (Some (Z.max after 0)) (Some 100%Z))).

Definition sync_state : Cycle SyncState :=
  call (fun _ d => state (json_obj [("peer_id", JString peer_name)]) d).

(** ** Applying what the server answers *)

Definition find_local_id (entity_type : string) (entity_id : Uuid)
    (items : list (string * EntityRow)) : option string :=
  fst <$> List.find (fun kv => bool_decide (stable_sync_entity_id entity_type kv.1 = entity_id)) items.

(** The local identifier a payload carries. *)
Definition carried_local_id (payload : option Value) : option string :=
  match payload ≫= get_str LOCAL_ID with
  | Some local_id => if str_is_empty (trim local_id) then None else Some local_id
  | None => None
  end.

Definition local_entity_id_for_remote (entity_type : string) (entity_id : Uuid)
    (payload : option Value) : Cycle string :=
  match carried_local_id payload with
  | Some local_id => mret local_id
  | None =>
      items ← call (fun _ d => (d, list_daemon_entities d entity_type true));
      mret (from_option id (uuid_to_string entity_id) (find_local_id entity_type entity_id items))
  end.

Record RemoteEntityInput := {
  ri_entity_type : string;
  ri_entity_id : Uuid;
  ri_revision : Z;
  ri_payload : option Value;
  ri_tombstone : bool;
  ri_updated_at : DateTime;
}.

(** The parameters of the [sync.apply_remote] call. *)
Definition apply_params (remote_cursor : Z) (entity : RemoteEntityInput) (local_id : string) : Value :=
  json_obj
    [("peer_id", JString peer_name); ("remote_cursor", jint remote_cursor);
     ("entity", json_obj
        [("entity_type", JString (ri_entity_type entity)); ("entity_id", JString local_id);
         ("revision", jint (ri_revision entity));
         ("payload", jopt (sync_payload_for_local (ri_entity_type entity)) (ri_payload entity));
         ("tombstone", JBool (ri_tombstone entity));
         ("updated_at", JString (ag_rfc3339 ag (ri_updated_at entity)))])].

Definition apply_remote_entity (remote_cursor : Z) (entity : RemoteEntityInput) : Cycle ApplyStatus :=
  local_id ← local_entity_id_for_remote (ri_entity_type entity) (ri_entity_id entity)
               (ri_payload entity);
  call (fun denv d => apply_remote denv (apply_params remote_cursor entity local_id) d).

Definition of_synced_entity (entity : SyncedEntity) : RemoteEntityInput :=
  {| ri_entity_type := sd_entity_type entity; ri_entity_id := sd_entity_id entity;
     ri_revision := sd_revision entity; ri_payload := sd_payload entity;
     ri_tombstone := sd_tombstone entity; ri_updated_at := sd_updated_at entity |}.

Definition of_server_change (change : ServerSyncChange) : RemoteEntityInput :=
  {| ri_entity_type := sv_entity_type change; ri_entity_id := sv_entity_id change;
     ri_revision := sv_revision change; ri_payload := sv_payload change;
     ri_tombstone := bool_decide (sv_operation change = Delete);
     ri_updated_at := sv_created_at change |}.

Definition acknowledge (cursor : Z) : Cycle (Z * Z) :=
  call (fun _ d =>
    acknowledge_local (json_obj [("peer_id", JString peer_name); ("cursor", jint cursor)]) d).

(** The loop over a batch and its answers. *)
Fixpoint settle (remote_cursor : Z) (answered : list (LocalChange * SyncApplyResult)) : Cycle unit :=
  match answered with
  | [] => mret tt
  | (local, answer) :: rest =>
      _ ← match sa_status answer with
          | SyncConflict =>
              match sa_entity answer with
              | Some entity =>
                  _ ← apply_remote_entity remote_cursor (of_synced_entity entity); mret tt
              | None => bail "metadata conflict response omitted the current server entity"
              end
          | Applied => mret tt
          end;
      _ ← acknowledge (lc_cursor local);
      settle remote_cursor rest
  end.

Definition PAGE : nat := 100.

(** [for _ in 0..pages]: push the outbox page by page. *)
Fixpoint push_pages (pages : nat) : Cycle unit :=
  match pages with
  | O => mret tt
  | S pages =>
      state ← sync_state;
      page ← call (fun _ d => (d, Ok (list_entity_changes d (Some (ls_local_cursor state)) (Some 100%Z)).1));
      match page with
      | [] => mret tt
      | _ =>
          now ← now_nanos;
          changes ← of_result (res_mapM (local_change_for_server now) page);
          results ← push_sync_changes changes;
          if negb (Nat.eqb (length results) (length page))
          then bail "metadata sync response length does not match its request"
          else
            _ ← settle (ls_remote_cursor state) (zip page results);
            if Nat.ltb (length page) PAGE then mret tt else push_pages pages
      end
  end.

Fixpoint apply_all (changes : list ServerSyncChange) : Cycle unit :=
  match changes with
  | [] => mret tt
  | change :: rest =>
      _ ← apply_remote_entity (sv_cursor change) (of_server_change change);
      apply_all rest
  end.

(** [for _ in 0..pages]: pull the server's changes page by page. *)
Fixpoint pull_pages (pages : nat) : Cycle unit :=
  match pages with
  | O => mret tt
  | S pages =>
      state ← sync_state;
      response ← pull_sync_changes (ls_remote_cursor state);
      match Sync.pl_changes response with
      | [] => mret tt
      | changes =>
          _ ← apply_all changes;
          if Nat.ltb (length changes) PAGE then mret tt else pull_pages pages
      end
  end.

Definition synchronize_metadata_once : Cycle unit :=
  _ ← push_pages 5;
  pull_pages 5.

(** The first [ticks] rounds of the loop, which goes on after a failed cycle. *)
Fixpoint metadata_sync_loop (ticks : nat) (envs : nat -> CallEnv) (w : World) : World :=
  match ticks with
  | O => w
  | S ticks => metadata_sync_loop ticks envs (synchronize_metadata_once envs w).1
  end.
End agent.

End DeviceSync.
