(* ===== verification/DeviceDemo.v ===== *)
(** * Two devices of one user

    Concrete agents, daemons and a server the examples of the sync files evaluate. *)

From S2P Require Import Prelude.
From S2P Require Import Json.
From S2P Require Import Contracts.
From S2P Require Import Store.
From S2P Require Import Demo.
From S2P Require Import SyncProtocol.
From S2P Require Import LocalDaemon.
From S2P Require Import DeviceSync.

Import Daemon DeviceSync.

(** A stand-in for a digest: the last 16 bytes, which hold the cursor and the device. *)
Definition demo_digest (s : string) : string := String.substring 0 16 (String.rev s).

Definition device (n : N) : Agent :=
  {| ag_user_id := 1%N; ag_executor_id := n; ag_credential_id := 7%N;
     ag_server_url := "https://cowork"; ag_sha256 := demo_digest;
     ag_parse_uuid := fun s => demo_hex s 0 0;
     ag_parse_rfc3339 := fun s => if String.eqb s "fine" then Some 1000001%Z else Some 1000000%Z;
     ag_rfc3339 := fun t => pretty t |}.

Definition demo_device (n : N) : ExecutorRow :=
  {| exw_kind := KPersonalDevice; exw_pool_id := None; exw_owner_user_id := Some 1%N;
     exw_registration := demo_registration; exw_protocol_version := 1;
     exw_max_concurrent_runs := 1; exw_active_runs := 0; exw_draining := false;
     exw_last_seen_at := 0; exw_updated_at := 0 |}.

Definition sync_server : Db :=
  set_executors {[ 41%N := demo_device 41; 42%N := demo_device 42 ]} demo_db.

Definition empty_daemon : DaemonDb := MkDaemon ∅ [] 0 ∅ ∅.

(** Clocks whose times have whole microseconds, or nanoseconds. *)
Definition daemon_env (now id : string) : DaemonEnv :=
  {| de_now := now; de_new_id := id; de_f64_repr := fun z => pretty z |}.

Definition calls (network : nat -> Delivery) (k : nat) : CallEnv :=
  {| ce_server := fun n => demo_env (N.of_nat (10 * k + n));
     ce_daemon := daemon_env "t" ("conflict-" +:+ pretty k);
     ce_network := network k; ce_now_nanos := 0 |}.

Definition reliable : nat -> CallEnv := calls (fun _ => Delivered).

Definition note_id : string := uuid_to_string 77.

Definition note (text : string) : Value := json_obj [("text", JString text)].

Definition write_note (now text : string) (d : DaemonDb) : DaemonDb :=
  match write_daemon_entity (daemon_env now "") "memory" note_id (note text) None d with
  | Ok (d', _) => d'
  | Err _ => d
  end.

Definition sync_device (n : N) (db : Db) (d : DaemonDb) : World * result string unit :=
  synchronize_metadata_once (device n) reliable (MkWorld db d 0).

Definition note_on (d : DaemonDb) : option (Z * Value) :=
  (fun row => (en_revision row, en_payload row)) <$> daemon_entities d !! ("memory", note_id).

Definition note_at (db : Db) : option (Z * option Value) :=
  (fun row => (se_revision row, se_payload row)) <$> sync_entities db !! (1%N, "memory", 77%N).
