(* ===== verification/DeviceConvergence.v ===== *)
(** * A device that pulls converges to the server

    A device whose outbox is delivered and that has no open conflict is the replay of the
    log entries its cursor has passed. Every cycle moves the cursor, and when the log is
    exhausted the device holds exactly the user's entities. *)

From S2P Require Import Prelude.
From S2P Require Import Json.
From S2P Require Import Contracts.
From S2P Require Import AuthCodes.
From S2P Require Import Auth.
From S2P Require Import Store.
From S2P Require Import Demo.
From S2P Require Import SyncProtocol.
From S2P Require Import SyncLog.
From S2P Require Import SyncProperties.
From S2P Require Import LocalDaemon.
From S2P Require Import DaemonProperties.
From S2P Require Import DeviceSync.
From S2P Require Import DeviceDemo.

Import Daemon DeviceSync Sync.

(** ** The log of one user *)

Definition user_log (u : Uuid) (changes : list SyncChangeRow) : list SyncChangeRow :=
  filter (fun row => sc_user_id row = u) changes.

Lemma user_log_ok u seq changes m :
  log_ok seq changes m ->
  exists seq' m', log_ok seq' (user_log u changes) m' /\ (seq' ≤ seq)%Z
    /\ (forall key, key.1.1 = u -> m' !! key = m !! key).
Proof.
  induction 1 as [seq Hseq|seq changes m c _ IH Hlt Hform Hrev].
  { exists seq, ∅. by repeat constructor. }
  destruct IH as (seq' & m' & Hok & Hle & Hm). unfold user_log in *. rewrite filter_app.
  destruct (decide (sc_user_id c = u)) as [Hu|Hu].
  - rewrite filter_cons_True, filter_nil by done.
    exists (sc_cursor c), (replay_change m' c). split; [|split; [lia|]].
    + apply (log_snoc seq'); [done|lia|done|]. unfold next_revision in *. by rewrite Hm.
    + intros key Hkey. unfold replay_change.
      destruct (decide (change_key c = key)) as [<-|]; [by rewrite !lookup_insert_eq|].
      rewrite !lookup_insert_ne by done. auto.
  - rewrite filter_cons_False, filter_nil, app_nil_r by done. exists seq', m'.
    split; [done|]. split; [lia|]. intros key Hkey. unfold replay_change.
    rewrite lookup_insert_ne; [auto|]. intros <-. by destruct Hu.
Qed.

Lemma log_ok_prefix seq l1 l2 m :
  log_ok seq (l1 ++ l2) m -> exists seq', log_ok seq' l1 (replay l1).
Proof.
  revert seq m. induction l2 as [|c l2 IH] using rev_ind; intros seq m Hok.
  - rewrite app_nil_r in Hok. rewrite (log_ok_replay _ _ _ Hok). eauto.
  - rewrite app_assoc in Hok. inversion Hok as [|seq' l' m' c' Hok' Hlt Hform Hrev Heq1 Heq2].
    { by destruct (l1 ++ l2). }
    apply app_inj_tail in Heq2 as [-> ->]. by eapply IH.
Qed.

(** The next entry after a prefix carries the next revision of its entity. *)
Lemma log_ok_next seq l1 c l2 m :
  log_ok seq (l1 ++ c :: l2) m ->
  sc_revision c = next_revision (replay l1) (change_key c) /\ well_formed_change c.
Proof.
  intros Hok. change (c :: l2) with ([c] ++ l2) in Hok. rewrite app_assoc in Hok.
  apply log_ok_prefix in Hok as [seq' Hok].
  inversion Hok as [|seq1 l' m' c' Hok' Hlt Hform Hrev Heq1 Heq2]; [by destruct l1|].
  apply app_inj_tail in Heq2 as [-> ->]. by rewrite (log_ok_replay _ _ _ Hok').
Qed.

(** ** Requests of the agent *)

Section agent.
Context (ag : Agent).

(** The name the agent gives the server fits the daemon's rules. *)
Definition peer_ok : Prop :=
  peer_id (json_obj [("peer_id", JString (peer_name ag))]) = Ok (peer_name ag).

Lemma peer_id_of v :
  peer_ok -> get_str "peer_id" v = Some (peer_name ag) -> peer_id v = Ok (peer_name ag).
Proof.
  unfold peer_ok, peer_id, required_text. intros H Hg.
  assert (get_str "peer_id" (json_obj [("peer_id", JString (peer_name ag))])
          = Some (peer_name ag)) as Hg0 by reflexivity.
  rewrite Hg0 in H. by rewrite Hg.
Qed.

(** What the daemon reads from the agent's parameters. *)
Lemma remote_from_agent denv cursor e local_id :
  str_mem (ri_entity_type e) DAEMON_ENTITY_TYPES = true ->
  non_empty_trimmed (Some local_id) = Some local_id ->
  (1 ≤ ri_revision e ≤ i64_max)%Z ->
  match ri_payload e with
  | Some p => ri_tombstone e = false /\ is_object p = true
              /\ (str_len (print_value (de_f64_repr denv)
                    (sync_payload_for_local (ri_entity_type e) p)) ≤ MAX_SYNC_PAYLOAD_BYTES)%Z
  | None => ri_tombstone e = true
  end ->
  exists updated_at,
    remote_from_params denv (apply_params ag cursor e local_id)
    = Ok {| re_entity_type := ri_entity_type e; re_entity_id := local_id;
            re_revision := ri_revision e;
            re_payload := sync_payload_for_local (ri_entity_type e) <$> ri_payload e;
            re_tombstone := ri_tombstone e; re_updated_at := updated_at |}.
Proof.
  intros Ht Hid Hrev Hp. destruct (daemon_type_text _ Ht) as [Htrim Hlen].
  unfold remote_from_params.
  assert (exists v, get "entity" (apply_params ag cursor e local_id) = Some v
    /\ get_str "entity_type" v = Some (ri_entity_type e)
    /\ first_of v "entity_id" "id" = Some (JString local_id)
    /\ get "revision" v = Some (jint (ri_revision e))
    /\ get_bool "tombstone" v = Some (ri_tombstone e)
    /\ get "payload" v = Some (jopt (sync_payload_for_local (ri_entity_type e)) (ri_payload e))
    /\ first_of v "updated_at" "created_at" = Some (JString (ag_rfc3339 ag (ri_updated_at e))))
    as (v & -> & Hvt & Hvi & Hvr & Hvb & Hvp & Hvu).
  { eexists. split; [reflexivity|]. split_and!; reflexivity. }
  eexists. eapply (remote_from_value_of denv v (sync_payload_for_local (ri_entity_type e) <$> ri_payload e)).
  - by apply required_text_of.
  - by rewrite Hvi.
  - rewrite Hvr. apply as_i64_jint. unfold i64_min. lia.
  - lia.
  - done.
  - rewrite Hvp. by destruct (ri_payload e).
  - destruct (ri_payload e) as [p|]; simpl; [|done]. intros q [= <-].
    destruct Hp as (_ & Ho & Hs). split; [|done]. by destruct p.
  - destruct (ri_payload e) as [p|]; [|congruence]. destruct Hp as (_ & Ho & _). by destruct p.
  - by rewrite Hvu.
Qed.
End agent.

(** ** A device that follows the log *)

(** The row of a device shows a version of an entity. *)
Record shows (t : string) (v : Version) (row : EntityRow) : Prop := {
  sh_revision : en_revision row = vs_revision v;
  sh_tombstone : en_tombstone row = vs_tombstone v;
  sh_payload : forall p, vs_payload v = Some p -> en_payload row = sync_payload_for_local t p;
}.

(** The device holds the user's entities of [m], under their local identifiers, and
    nothing else. *)
Record replica (u : Uuid) (lid : string -> Uuid -> string) (m : gmap Key Version)
    (d : DaemonDb) : Prop := {
  rp_rows : forall t i v, m !! (u, t, i) = Some v ->
    exists row, daemon_entities d !! (t, lid t i) = Some row /\ shows t v row;
  rp_only : forall t s row, daemon_entities d !! (t, s) = Some row ->
    exists i v, s = lid t i /\ m !! (u, t, i) = Some v;
}.

(** The peer has acknowledged every local write, and no conflict with it is open. *)
Record quiet (peer : string) (d : DaemonDb) : Prop := {
  qt_outbox : forall c, c ∈ daemon_changes d -> (lc_cursor c ≤ (cursors d peer).1)%Z;
  qt_conflicts : forall id row, daemon_conflicts d !! id = Some row ->
    cf_peer_id row = peer -> cf_resolved_at row ≠ None;
}.

Lemma quiet_sub peer d d' :
  daemon_changes d' = daemon_changes d -> daemon_conflicts d' = daemon_conflicts d ->
  (cursors d' peer).1 = (cursors d peer).1 -> quiet peer d -> quiet peer d'.
Proof. intros Hc Hf Hl [H1 H2]. split; rewrite ?Hc, ?Hf, ?Hl; done. Qed.

(** A log entry the daemon can store: a type it knows, an object within its size limit,
    integers it can read, and the local identifier the agent will find for it. *)
Record deliverable (ag : Agent) (f64_repr : Z -> string) (lid : string -> Uuid -> string)
    (c : SyncChangeRow) : Prop := {
  dl_type : str_mem (sc_entity_type c) DAEMON_ENTITY_TYPES = true;
  dl_payload : forall p, sc_payload c = Some p -> is_object p = true
    /\ (str_len (print_value f64_repr (sync_payload_for_local (sc_entity_type c) p))
        ≤ MAX_SYNC_PAYLOAD_BYTES)%Z;
  dl_revision : (1 ≤ sc_revision c ≤ i64_max)%Z;
  dl_cursor : (0 < sc_cursor c ≤ i64_max)%Z;
  dl_trimmed : let s := lid (sc_entity_type c) (sc_entity_id c) in
    non_empty_trimmed (Some s) = Some s;
  dl_stable : stable_sync_entity_id ag (sc_entity_type c) (lid (sc_entity_type c) (sc_entity_id c))
    = sc_entity_id c;
  dl_carried : forall s, carried_local_id (sc_payload c) = Some s ->
    s = lid (sc_entity_type c) (sc_entity_id c);
  dl_first : carried_local_id (sc_payload c) = None -> sc_revision c = 1%Z ->
    lid (sc_entity_type c) (sc_entity_id c) = uuid_to_string (sc_entity_id c);
}.

Lemma replay_entry l key v :
  replay l !! key = Some v -> exists c, c ∈ l /\ change_key c = key /\ change_version c = v.
Proof.
  unfold replay. induction l as [|c l IH] using rev_ind; [done|]. rewrite foldl_app. simpl.
  unfold replay_change at 1. destruct (decide (change_key c = key)) as [<-|Hne].
  - rewrite lookup_insert_eq. intros [= <-]. exists c. split; [set_solver|done].
  - rewrite lookup_insert_ne by done. intros (c' & ? & ?)%IH. exists c'. set_solver.
Qed.

Lemma filter_none {A} (p : A -> Prop) `{forall x, Decision (p x)} l :
  Forall (fun x => ~ p x) l -> filter p l = [].
Proof. induction 1 as [|x l Hx _ IH]; [done|]. by rewrite filter_cons_False. Qed.

Lemma replay_snoc l c : replay (l ++ [c]) = replay_change (replay l) c.
Proof. unfold replay. by rewrite foldl_app. Qed.

Lemma elem_of_listed d t items s row :
  list_daemon_entities d t true = Ok items ->
  (s, row) ∈ items <-> daemon_entities d !! (t, s) = Some row.
Proof.
  unfold list_daemon_entities. intros (_ & _ & [= <-])%result_bind_Ok.
  rewrite merge_sort_Permutation, list_elem_of_omap. split.
  - intros ([[t' s'] row'] & Hin%elem_of_map_to_list & Hif). simpl in Hif.
    destruct (String.eqb_spec t' t) as [->|]; [|done]. by simplify_eq/=.
  - intros H%elem_of_map_to_list. exists ((t, s), row). split; [done|]. simpl.
    by rewrite String.eqb_refl.
Qed.

Section follow.
Context (ag : Agent) (u : Uuid) (lid : string -> Uuid -> string) (f64_repr : Z -> string).
Abbreviation entry_id c := (lid (sc_entity_type c) (sc_entity_id c)).

Lemma listed_ok t d :
  str_mem t DAEMON_ENTITY_TYPES = true -> exists items, list_daemon_entities d t true = Ok items.
Proof.
  intros Ht. unfold list_daemon_entities, validate_daemon_entity_identity. rewrite Ht.
  eexists. reflexivity.
Qed.

(** The identifier the agent finds for the next entry. *)
Lemma local_id_found l c rest seq m d items :
  log_ok seq (l ++ c :: rest) m -> Forall (deliverable ag f64_repr lid) (l ++ c :: rest) ->
  sc_user_id c = u -> replica u lid (replay l) d ->
  list_daemon_entities d (sc_entity_type c) true = Ok items ->
  carried_local_id (sc_payload c) = None ->
  from_option id (uuid_to_string (sc_entity_id c))
    (find_local_id ag (sc_entity_type c) (sc_entity_id c) items) = entry_id c.
Proof.
  intros Hok Hall Hu Hrep Hitems Hcarried.
  assert (deliverable ag f64_repr lid c) as Hc by (eapply Forall_forall; [done|set_solver]).
  assert (forall i v, replay l !! (u, sc_entity_type c, i) = Some v ->
    stable_sync_entity_id ag (sc_entity_type c) (lid (sc_entity_type c) i) = i) as Hstable.
  { intros i v (c' & Hin & Hkey & _)%replay_entry.
    assert (deliverable ag f64_repr lid c') as Hc' by (eapply Forall_forall; [done|set_solver]).
    pose proof (dl_stable _ _ _ _ Hc') as Hs. unfold change_key in Hkey.
    injection Hkey as _ Ht Hi. by rewrite Ht, Hi in Hs. }
  destruct (find_local_id ag _ _ items) as [s|] eqn:Hfind; simpl.
  - unfold find_local_id in Hfind. destruct (List.find _ items) as [[s' row]|] eqn:Hf; [|done].
    simplify_eq/=. apply List.find_some in Hf as [Hin Heq%bool_decide_eq_true]. simpl in Heq.
    apply list_elem_of_In, (elem_of_listed _ _ _ _ _ Hitems) in Hin.
    destruct (rp_only _ _ _ _ Hrep _ _ _ Hin) as (i & v & -> & Hv).
    rewrite (Hstable _ _ Hv) in Heq. by subst.
  - symmetry. apply (dl_first _ _ _ _ Hc Hcarried).
    destruct (log_ok_next _ _ _ _ _ Hok) as [-> _]. unfold next_revision.
    destruct (replay l !! change_key c) as [v|] eqn:Hv; [exfalso|done].
    unfold change_key in Hv. rewrite Hu in Hv.
    destruct (rp_rows _ _ _ _ Hrep _ _ _ Hv) as (row & Hrow & _).
    apply (elem_of_listed _ _ _ _ _ Hitems) in Hrow.
    unfold find_local_id in Hfind. destruct (List.find _ items) eqn:Hf; [done|].
    apply list_elem_of_In in Hrow. pose proof (List.find_none _ _ Hf _ Hrow) as Hn.
    simpl in Hn. rewrite (Hstable _ _ Hv) in Hn. by apply bool_decide_eq_false in Hn.
Qed.

Lemma entry_id_of l c rest seq m envs w :
  log_ok seq (l ++ c :: rest) m -> Forall (deliverable ag f64_repr lid) (l ++ c :: rest) ->
  sc_user_id c = u -> replica u lid (replay l) (w_daemon w) ->
  exists n, (w_calls w ≤ n)%nat /\
    local_entity_id_for_remote ag (sc_entity_type c) (sc_entity_id c) (sc_payload c) envs w
    = (MkWorld (w_server w) (w_daemon w) n, Ok (entry_id c)).
Proof.
  intros Hok Hall Hu Hrep. unfold local_entity_id_for_remote.
  assert (deliverable ag f64_repr lid c) as Hc by (eapply Forall_forall; [done|set_solver]).
  destruct (carried_local_id (sc_payload c)) as [s|] eqn:Hcarried.
  - rewrite (dl_carried _ _ _ _ Hc s Hcarried). exists (w_calls w). by destruct w.
  - destruct (listed_ok (sc_entity_type c) (w_daemon w) (dl_type _ _ _ _ Hc)) as [items Hitems].
    exists (S (w_calls w)). split; [lia|]. unfold mbind, cycle_bind, call. rewrite Hitems.
    unfold mret, cycle_ret. by erewrite local_id_found.
Qed.

(** ** Applying the next entry *)

Definition entry_input (c : SyncChangeRow) : RemoteEntityInput := of_server_change (server_change c).

Lemma entry_tombstone c :
  ri_tombstone (entry_input c) = String.eqb (sc_operation c) "delete".
Proof. unfold entry_input. simpl. by destruct (String.eqb (sc_operation c) "delete"). Qed.

Lemma no_conflict_open peer d t s : quiet peer d -> unresolved_conflict d peer t s = None.
Proof.
  intros Hq. unfold unresolved_conflict. destruct (filter _ _) as [|kv l] eqn:Hf; [done|exfalso].
  assert (kv ∈ kv :: l) as Hin by set_solver. rewrite <- Hf in Hin.
  apply list_elem_of_filter in Hin as [(Hp & _ & _ & Hr) Hin].
  destruct kv as [id row]. apply elem_of_map_to_list in Hin.
  by apply (qt_conflicts _ _ Hq _ _ Hin Hp).
Qed.

Lemma nothing_pending peer d t s : quiet peer d -> pending_local d (cursors d peer).1 t s = false.
Proof.
  intros Hq. unfold pending_local. apply not_true_is_false. intros H.
  apply existsb_exists in H as (c & Hin%list_elem_of_In & Hif).
  pose proof (qt_outbox _ _ Hq _ Hin). rewrite bool_decide_eq_false_2 in Hif by lia. done.
Qed.

Lemma replica_entities m d d' :
  daemon_entities d' = daemon_entities d -> replica u lid m d -> replica u lid m d'.
Proof. intros He [Hr Ho]. split; rewrite He; done. Qed.

Lemma replica_insert m d t i v row :
  replica u lid m d -> shows t v row ->
  (forall i' v', m !! (u, t, i') = Some v' -> lid t i' = lid t i -> i' = i) ->
  replica u lid (<[(u, t, i) := v]> m) (put_entity t (lid t i) row d).
Proof.
  intros [Hrows Honly] Hshows Hinj. unfold put_entity. split; simpl.
  - intros t' i' v'. destruct (decide ((u, t, i) = (u, t', i'))) as [Heq|Hne].
    + injection Heq as <- <-. rewrite !lookup_insert_eq. intros [= <-]. eauto.
    + rewrite lookup_insert_ne by done. intros Hv.
      rewrite lookup_insert_ne; [by apply Hrows|]. intros [= <- Heq]. apply Hne.
      symmetry in Heq. by rewrite (Hinj _ _ Hv Heq).
  - intros t' s row'. destruct (decide ((t, lid t i) = (t', s))) as [Heq|Hne].
    + injection Heq as <- <-. intros _. exists i, v. by rewrite lookup_insert_eq.
    + rewrite lookup_insert_ne by done. intros (i' & v' & -> & Hv)%Honly.
      destruct (decide ((u, t, i) = (u, t', i'))) as [Heq|Hne'].
      * injection Heq as <- <-. exists i, v. by rewrite lookup_insert_eq.
      * exists i', v'. by rewrite lookup_insert_ne.
Qed.

Lemma entry_ids_distinct l c rest t i v :
  Forall (deliverable ag f64_repr lid) (l ++ c :: rest) ->
  t = sc_entity_type c -> replay l !! (u, t, i) = Some v -> lid t i = entry_id c ->
  i = sc_entity_id c.
Proof.
  intros Hall -> (c' & Hin & Hkey & _)%replay_entry Hid.
  assert (deliverable ag f64_repr lid c') as Hc' by (eapply Forall_forall; [done|set_solver]).
  assert (deliverable ag f64_repr lid c) as Hc by (eapply Forall_forall; [done|set_solver]).
  pose proof (dl_stable _ _ _ _ Hc') as Hs'. pose proof (dl_stable _ _ _ _ Hc) as Hs.
  unfold change_key in Hkey. injection Hkey as _ Ht Hi. rewrite Ht, Hi, Hid in Hs'. congruence.
Qed.

(** The entity the daemon reads for an entry. *)
Definition entry_remote (c : SyncChangeRow) (updated_at : string) : RemoteEntity :=
  {| re_entity_type := sc_entity_type c; re_entity_id := entry_id c;
     re_revision := sc_revision c;
     re_payload := sync_payload_for_local (sc_entity_type c) <$> sc_payload c;
     re_tombstone := String.eqb (sc_operation c) "delete"; re_updated_at := updated_at |}.

Lemma write_next l c rest d updated_at :
  Forall (deliverable ag f64_repr lid) (l ++ c :: rest) -> well_formed_change c ->
  sc_user_id c = u -> replica u lid (replay l) d ->
  exists row, write_remote_entity (entry_remote c updated_at) d
              = Ok (put_entity (sc_entity_type c) (entry_id c) row d)
    /\ replica u lid (replay (l ++ [c])) (put_entity (sc_entity_type c) (entry_id c) row d).
Proof.
  intros Hall Hform Hu Hrep. unfold write_remote_entity. cbn [entry_remote re_tombstone re_payload
    re_entity_type re_entity_id re_revision re_updated_at].
  rewrite replay_snoc. unfold replay_change, change_key. rewrite Hu.
  destruct Hform as [[Hop [p Hp]]|[Hop Hp]]; rewrite Hop, Hp; eexists; (split; [reflexivity|]);
    (apply replica_insert; [done| |intros; by eapply entry_ids_distinct]).
  - split; simpl; [done|by rewrite Hop|]. rewrite Hp. by intros ? [= <-].
  - split; simpl; [done|by rewrite Hop|]. by rewrite Hp.
Qed.

Lemma apply_tx_next denv l c rest seq m d updated_at :
  let peer := peer_name ag in
  log_ok seq (l ++ c :: rest) m -> Forall (deliverable ag f64_repr lid) (l ++ c :: rest) ->
  sc_user_id c = u -> replica u lid (replay l) d -> quiet peer d ->
  exists d', apply_remote_tx denv peer (sc_cursor c) (entry_remote c updated_at) d
             = Ok (d', RemoteApplied)
    /\ replica u lid (replay (l ++ [c])) d' /\ quiet peer d'
    /\ (cursors d' peer).2 = Z.max (cursors d peer).2 (sc_cursor c).
Proof.
  intros peer Hok Hall Hu Hrep Hq. unfold apply_remote_tx.
  rewrite (nothing_pending _ _ _ _ Hq), (no_conflict_open _ _ _ _ Hq).
  destruct (log_ok_next _ _ _ _ _ Hok) as [Hrev Hform].
  assert (forall row, daemon_entities d !! (sc_entity_type c, entry_id c) = Some row ->
    sc_revision c = (en_revision row + 1)%Z) as Hcur.
  { intros row Hrow. destruct (rp_only _ _ _ _ Hrep _ _ _ Hrow) as (i & v & Hid & Hv).
    assert (i = sc_entity_id c) as -> by (by eapply entry_ids_distinct).
    destruct (rp_rows _ _ _ _ Hrep _ _ _ Hv) as (row' & Hrow' & Hs).
    rewrite Hrow in Hrow'. injection Hrow' as <-. rewrite Hrev, (sh_revision _ _ _ Hs).
    unfold next_revision, change_key. by rewrite Hu, Hv. }
  cbn [re_entity_type re_entity_id entry_remote].
  assert (same_revision_diverged (daemon_entities d !! (sc_entity_type c, entry_id c))
            (entry_remote c updated_at) = false) as ->.
  { unfold same_revision_diverged. destruct (daemon_entities d !! _) as [row|]; [|done].
    rewrite bool_decide_eq_false_2; [done|]. simpl. specialize (Hcur row eq_refl). lia. }
  assert (from_option (fun local => bool_decide
            (re_revision (entry_remote c updated_at) < en_revision local)%Z) false
            (daemon_entities d !! (sc_entity_type c, entry_id c)) = false) as ->.
  { destruct (daemon_entities d !! _) as [row|]; [|done]. simpl.
    rewrite bool_decide_eq_false_2; [done|]. specialize (Hcur row eq_refl). lia. }
  destruct (write_next _ _ _ _ updated_at Hall Hform Hu Hrep) as (row & Hw & Hrep').
  rewrite Hw. rewrite (bool_decide_eq_false_2 (is_Some None)) by apply is_Some_None.
  eexists. split; [reflexivity|]. rewrite cursors_advance. split; [|split; [|done]].
  - eapply replica_entities; [|exact Hrep']. by rewrite advance_entities.
  - eapply quiet_sub; [..|exact Hq]; rewrite ?cursors_advance, ?advance_changes, ?advance_conflicts;
      done.
Qed.

(** The daemon's answer to the next entry. *)
Lemma apply_next denv l c rest seq m d :
  let peer := peer_name ag in
  peer_ok ag -> de_f64_repr denv = f64_repr ->
  log_ok seq (l ++ c :: rest) m -> Forall (deliverable ag f64_repr lid) (l ++ c :: rest) ->
  sc_user_id c = u -> replica u lid (replay l) d -> quiet peer d ->
  exists d', apply_remote denv (apply_params ag (sc_cursor c) (entry_input c) (entry_id c)) d
             = (d', Ok RemoteApplied)
    /\ replica u lid (replay (l ++ [c])) d' /\ quiet peer d'
    /\ (cursors d' peer).2 = Z.max (cursors d peer).2 (sc_cursor c).
Proof.
  intros peer Hpeer Hf Hok Hall Hu Hrep Hq.
  assert (deliverable ag f64_repr lid c) as Hc by (eapply Forall_forall; [done|set_solver]).
  destruct (log_ok_next _ _ _ _ _ Hok) as [_ Hform].
  destruct (remote_from_agent ag denv (sc_cursor c) (entry_input c) (entry_id c)) as [x Hx].
  { apply Hc. } { apply Hc. } { apply Hc. }
  { rewrite entry_tombstone, Hf. simpl.
    destruct Hform as [[-> [p Hp]]|[-> ->]]; [|done]. rewrite Hp. split; [done|]. by apply Hc. }
  rewrite entry_tombstone in Hx. unfold apply_remote. rewrite Hx.
  rewrite (bind_of_Ok (Ok _) _) by done.
  rewrite (bind_of_Ok (peer_id _) peer) by (by apply peer_id_of).
  rewrite (bind_of_Ok (nonnegative_integer _ _) (sc_cursor c)).
  2: { apply nonnegative_integer_of; [reflexivity|]. pose proof (dl_cursor _ _ _ _ Hc). lia. }
  destruct (apply_tx_next denv l c rest seq m (ensure_peer peer d) x) as (d' & Hd' & H1 & H2 & H3);
    [done|done|done|..].
  - eapply replica_entities; [|exact Hrep]. by rewrite ensure_entities.
  - eapply quiet_sub; [..|exact Hq]; rewrite ?cursors_ensure, ?ensure_changes, ?ensure_conflicts;
      done.
  - exists d'. rewrite cursors_ensure in H3. split; [|done]. fold peer in Hd'.
    unfold entry_remote in Hd'.
    cbn [entry_input of_server_change server_change ri_entity_type ri_revision ri_payload
         sv_entity_type sv_revision sv_payload]. by rewrite Hd'.
Qed.

(** ** The cycles of an agent

    [changes] is the server's log while the device catches up. *)
Context (changes : list SyncChangeRow).

(** The executor is the user's device, and its cursor row, if any, is the user's. *)
Record serves (db : Db) : Prop := {
  sr_changes : sync_changes db = changes;
  sr_owner : personal_executor_owner db (ag_executor_id ag) (principal ag) = Ok u;
  sr_registered : forall c, sync_device_cursors db !! ag_executor_id ag = Some c -> c.1 = u;
}.

(** The device has applied the entries [l] of the user's log, and [rest] is to come. *)
Record follows (l rest : list SyncChangeRow) (w : World) : Prop := {
  fl_server : serves (w_server w);
  fl_log : user_log u changes = l ++ rest;
  fl_replica : replica u lid (replay l) (w_daemon w);
  fl_quiet : quiet (peer_name ag) (w_daemon w);
  fl_cursor : (cursors (w_daemon w) (peer_name ag)).2 = from_option sc_cursor 0%Z (last l);
}.

Hypothesis Hpeer : peer_ok ag.
Hypothesis Hlog : exists seq m, log_ok seq changes m.
Hypothesis Hall : Forall (deliverable ag f64_repr lid) (user_log u changes).
Context (envs : nat -> CallEnv).
Hypothesis Hf64 : forall k, de_f64_repr (ce_daemon (envs k)) = f64_repr.

Lemma user_entry c l rest :
  user_log u changes = l ++ c :: rest ->
  sc_user_id c = u /\ (from_option sc_cursor 0 (last l) < sc_cursor c)%Z.
Proof.
  intros Hl. split.
  - assert (c ∈ user_log u changes) as Hin by (rewrite Hl; set_solver).
    by apply list_elem_of_filter in Hin as [? _].
  - destruct Hlog as (seq & m & Hok). apply (user_log_ok u) in Hok as (seq' & m' & Hok & _).
    rewrite Hl in Hok. destruct (last l) as [x|] eqn:Hx; simpl.
    + apply log_ok_sorted, StronglySorted_app_1_elem_of with (x1 := x) (x2 := c) in Hok; [done| |].
      * by apply last_Some_elem_of.
      * set_solver.
    + eapply (log_ok_cursors _ _ _ c) in Hok; [lia|set_solver].
Qed.

Lemma follow_entry c l rest w :
  follows l (c :: rest) w ->
  exists w', (w_calls w < w_calls w')%nat /\ follows (l ++ [c]) rest w'
    /\ apply_remote_entity ag (sc_cursor c) (entry_input c) envs w = (w', Ok RemoteApplied).
Proof.
  intros [Hserve Hl Hrep Hq Hcur]. destruct (user_entry _ _ _ Hl) as [Hu Hlt].
  pose proof Hall as Hall'. rewrite Hl in Hall'.
  destruct Hlog as (seq & m & Hok). apply (user_log_ok u) in Hok as (seq' & m' & Hok & _).
  rewrite Hl in Hok.
  destruct (entry_id_of _ _ _ _ _ envs w Hok Hall' Hu Hrep) as (n & Hn & Hid).
  destruct (apply_next (ce_daemon (envs n)) _ _ _ _ _ (w_daemon w) Hpeer (Hf64 n) Hok Hall' Hu Hrep Hq)
    as (d' & Hd' & Hrep' & Hq' & Hcur').
  exists (MkWorld (w_server w) d' (S n)). split; [simpl; lia|]. split.
  - split; simpl; [done| |done|done|].
    + by rewrite <- app_assoc.
    + rewrite Hcur', Hcur, last_snoc. simpl. lia.
  - unfold apply_remote_entity, mbind, cycle_bind.
    change (ri_entity_type (entry_input c)) with (sc_entity_type c).
    change (ri_entity_id (entry_input c)) with (sc_entity_id c).
    change (ri_payload (entry_input c)) with (sc_payload c).
    rewrite Hid. unfold call. simpl. by rewrite Hd'.
Qed.

Lemma follow_page taken : forall l rest w,
  follows l (taken ++ rest) w ->
  exists w', (w_calls w ≤ w_calls w')%nat /\ follows (l ++ taken) rest w'
    /\ apply_all ag (server_change <$> taken) envs w = (w', Ok tt).
Proof.
  induction taken as [|c taken IH]; intros l rest w Hf.
  - exists w. rewrite app_nil_r. split; [done|]. by split.
  - apply follow_entry in Hf as (w1 & Hn1 & Hf & Hstep).
    apply IH in Hf as (w2 & Hn2 & Hf & Hall2). exists w2. split; [lia|].
    rewrite <- app_assoc in Hf. split; [done|]. cbn [fmap list_fmap apply_all].
    unfold mbind, cycle_bind. cbn [sv_cursor server_change]. 
    change (of_server_change _) with (entry_input c). by rewrite Hstep.
Qed.

(** The entries after the device's cursor are those it has not applied. *)
Lemma rest_of_log l rest :
  user_log u changes = l ++ rest ->
  filter (fun row => sc_user_id row = u /\ (from_option sc_cursor 0 (last l) < sc_cursor row)%Z) changes
  = rest.
Proof.
  clear Hall. intros Hl. destruct Hlog as (seq & m & Hok).
  apply (user_log_ok u) in Hok as (seq' & m' & Hok & _). rewrite Hl in Hok.
  assert (filter (fun row => from_option sc_cursor 0 (last (take (length l) (l ++ rest)))
            < sc_cursor row)%Z (l ++ rest) = drop (length l) (l ++ rest)) as Hrest.
  { apply sorted_rest; [by eapply log_ok_sorted|]. apply Forall_forall. intros c Hc.
    eapply log_ok_cursors in Hok; [|done]. lia. }
  rewrite take_app_length, drop_app_length, <- Hl in Hrest. rewrite <- Hrest.
  unfold user_log. rewrite list_filter_filter. apply list_filter_iff. intros row. naive_solver.
Qed.

Lemma agent_pull env db l rest :
  serves db -> user_log u changes = l ++ rest ->
  exists db' page,
    run_tx env db (agent_pull_changes (ag_executor_id ag) (principal ag)
      (Some (Z.max (from_option sc_cursor 0%Z (last l)) 0)) (Some 100%Z)) = (db', Ok page)
    /\ serves db' /\ sync_entities db' = sync_entities db
    /\ pl_changes page = server_change <$> take 100 rest.
Proof.
  clear Hall. intros [Hch Hown Hreg] Hl. set (r := from_option sc_cursor 0%Z (last l)).
  assert (0 ≤ r)%Z as Hr.
  { unfold r. destruct (last l) as [c|] eqn:Hc; simpl; [|lia].
    apply last_Some_elem_of in Hc. destruct Hlog as (seq & m & Hok).
    apply (user_log_ok u) in Hok as (seq' & m' & Hok & _). rewrite Hl in Hok.
    eapply log_ok_cursors in Hok; [|by apply elem_of_app; left]. lia. }
  assert (select_changes db u r (page_limit (Some 100%Z)) = take 100 rest) as Hsel.
  { unfold select_changes. change (page_limit (Some 100%Z)) with 100%nat. rewrite Hch. f_equal.
    unfold r. rewrite (rest_of_log l rest) by done. apply sort_sorted_log.
    destruct Hlog as (seq & m & Hok). apply (user_log_ok u) in Hok as (seq' & m' & Hok & _).
    rewrite Hl in Hok. by eapply log_ok_sorted, StronglySorted_app_1_r in Hok. }
  assert (res_mapM row_to_server_change (take 100 rest) = Ok (server_change <$> take 100 rest)) as Hdec.
  { apply decode_rows, Forall_take. destruct Hlog as (seq & m & Hok).
    apply (user_log_ok u) in Hok as (seq' & m' & Hok & _). rewrite Hl in Hok.
    apply log_ok_forms in Hok. by apply Forall_app in Hok as [_ ?]. }
  rewrite Z.max_l by done.
  unfold run_tx, agent_pull_changes.
  rewrite (tx_bind_run env get_db _ (MkTx db 0) (MkTx db 0) db) by done.
  rewrite (tx_bind_run env (lift _) _ (MkTx db 0) (MkTx db 0) u) by (unfold lift; by rewrite Hown).
  unfold pull_changes_for_device. cbn [from_option id].
  rewrite (bool_decide_eq_false_2 (r < 0)%Z) by lia.
  rewrite (tx_bind_run env (reject_if false _) _ (MkTx db 0) (MkTx db 0) tt) by done.
  rewrite (tx_bind_run env get_db _ (MkTx db 0) (MkTx db 0) db) by done.
  rewrite Hsel, Hdec.
  rewrite (tx_bind_run env (lift _) _ (MkTx db 0) (MkTx db 0) (server_change <$> take 100 rest)) by done.
  set (next := next_cursor r _).
  assert (from_option (fun c => negb (bool_decide (c.1 = u))) false
            (sync_device_cursors db !! ag_executor_id ag) = false) as ->.
  { destruct (sync_device_cursors db !! ag_executor_id ag) as [c|] eqn:Hc; [|done]. simpl.
    by rewrite bool_decide_eq_true_2 by auto. }
  rewrite (tx_bind_run env (reject_if false _) _ (MkTx db 0) (MkTx db 0) tt) by done.
  erewrite (tx_bind_run env (modify _) _ (MkTx db 0) _ tt) by reflexivity.
  eexists _, _. split; [reflexivity|]. split; [|done]. split; [done|done|].
  simpl. rewrite lookup_insert_eq. by intros c [= <-].
Qed.

(** What a request does to a device that follows the log. *)
Lemma follow_request l rest w :
  follows l rest w ->
  exists w' answer,
    pull_sync_changes ag (cursors (w_daemon w) (peer_name ag)).2 envs w = (w', answer)
    /\ (w_calls w < w_calls w')%nat /\ follows l rest w'
    /\ (forall page, answer = Ok page -> pl_changes page = server_change <$> take 100 rest)
    /\ (ce_network (envs (w_calls w)) = Delivered -> exists page, answer = Ok page).
Proof.
  intros [Hserve Hl Hrep Hq Hcur]. unfold pull_sync_changes, request. rewrite Hcur.
  destruct (agent_pull (ce_server (envs (w_calls w)) 0%nat) _ _ _ Hserve Hl)
    as (db' & page & Hrun & Hserve' & _ & Hpage).
  rewrite Hrun. destruct (ce_network (envs (w_calls w))).
  - eexists _, _. split; [reflexivity|]. split; [simpl; lia|]. split; [by split|].
    split; [by intros ? [= <-]|eauto].
  - eexists _, _. split; [reflexivity|]. split; [simpl; lia|]. split; [by split|]. by split.
  - eexists _, _. split; [reflexivity|]. split; [simpl; lia|]. split; [by split|]. by split.
Qed.

Lemma follow_state l rest w :
  follows l rest w ->
  exists w' st, sync_state ag envs w = (w', Ok st) /\ (w_calls w < w_calls w')%nat
    /\ follows l rest w' /\ ls_local_cursor st = (cursors (w_daemon w') (peer_name ag)).1
    /\ ls_remote_cursor st = (cursors (w_daemon w') (peer_name ag)).2.
Proof.
  intros [Hserve Hl Hrep Hq Hcur]. unfold sync_state, call, state.
  rewrite Hpeer. eexists _, _. split; [reflexivity|]. simpl. split; [lia|].
  split; [|done]. split; simpl; [done|done| | |].
  - eapply replica_entities; [|exact Hrep]. apply ensure_entities.
  - eapply quiet_sub; [..|exact Hq]; rewrite ?cursors_ensure, ?ensure_changes, ?ensure_conflicts; done.
  - by rewrite cursors_ensure.
Qed.

(** A quiet device has nothing to push. *)
Lemma follow_push l rest w pages :
  follows l rest w ->
  exists w', push_pages ag (S pages) envs w = (w', Ok tt) /\ (w_calls w < w_calls w')%nat
    /\ follows l rest w'.
Proof.
  intros (w1 & st & Hst & Hn & Hf & Hlocal & _)%follow_state.
  exists (MkWorld (w_server w1) (w_daemon w1) (S (w_calls w1))).
  split; [|split; [simpl; lia|by destruct Hf]].
  cbn [push_pages]. unfold mbind at 1, cycle_bind at 1. rewrite Hst.
  unfold mbind at 1, cycle_bind at 1, call at 1.
  assert ((list_entity_changes (w_daemon w1) (Some (ls_local_cursor st)) (Some 100%Z)).1 = []) as ->.
  { unfold list_entity_changes. cbn [from_option id fst].
    assert (filter (fun c => Z.max 0 (ls_local_cursor st) < lc_cursor c)%Z
              (daemon_changes (w_daemon w1)) = []) as ->; [|by destruct (Z.to_nat _)].
    apply filter_none, Forall_forall. intros c Hc.
    pose proof (qt_outbox _ _ (fl_quiet _ _ _ Hf) _ Hc). rewrite Hlocal. lia. }
  reflexivity.
Qed.

(** Pulling pages moves the device along the log, by whole pages while the network holds. *)
Lemma follow_pull pages : forall l rest w,
  follows l rest w ->
  exists taken rest' w' answer,
    pull_pages ag (S pages) envs w = (w', answer) /\ rest = taken ++ rest'
    /\ (w_calls w < w_calls w')%nat /\ follows (l ++ taken) rest' w'
    /\ ((forall k, (w_calls w ≤ k)%nat -> ce_network (envs k) = Delivered) ->
        (length rest - 100 * S pages ≥ length rest')%nat).
Proof.
  induction pages as [pages IH] using lt_wf_ind.
  intros l rest w (w1 & st & Hst & Hn1 & Hf & _ & Hremote)%follow_state.
  destruct (follow_request _ _ _ Hf) as (w2 & answer & Hreq & Hn2 & Hf2 & Hpage & Hdelivered).
  rewrite <- Hremote in Hreq. cbn [pull_pages].
  unfold mbind at 1, cycle_bind at 1. rewrite Hst.
  unfold mbind at 1, cycle_bind at 1. rewrite Hreq.
  destruct answer as [page|e].
  2: { exists [], rest, w2, (Err e). rewrite app_nil_r. split_and!; try done; [lia|].
       intros Hnet. destruct Hdelivered as [? ?]; [apply Hnet; lia|done]. }
  specialize (Hpage page eq_refl).
  destruct (server_change <$> take 100 rest) as [|sc scs] eqn:Htake.
  { rewrite Hpage. exists [], rest, w2, (Ok tt). rewrite app_nil_r.
    split_and!; try done; [lia|]. intros _. destruct rest; simpl; [lia|done]. }
  rewrite Hpage, <- Htake.
  pose proof Hf2 as Hf2'. rewrite <- (take_drop 100 rest) in Hf2'.
  apply follow_page in Hf2' as (w3 & Hn3 & Hf3 & Happly).
  unfold mbind, cycle_bind. rewrite Happly, length_fmap, length_take.
  destruct (Nat.ltb (100 `min` length rest) PAGE) eqn:Hlast.
  - apply Nat.ltb_lt in Hlast. unfold PAGE in Hlast.
    exists (take 100 rest), (drop 100 rest), w3, (Ok tt). rewrite take_drop, length_drop.
    split_and!; try done; lia.
  - apply Nat.ltb_ge in Hlast. unfold PAGE in Hlast. destruct pages as [|pages].
    { exists (take 100 rest), (drop 100 rest), w3, (Ok tt). rewrite take_drop, length_drop.
      split_and!; try done; lia. }
    destruct (IH pages ltac:(lia) _ _ _ Hf3) as (taken & rest' & w4 & answer & Hp & Hr & Hn4 & Hf4 & Hlen).
    exists (take 100 rest ++ taken), rest', w4, answer. rewrite <- app_assoc, <- Hr, take_drop.
    rewrite app_assoc. split_and!; try done; [lia|].
    intros Hnet. rewrite length_drop in Hlen.
    assert (length rest - 100 - 100 * S pages ≥ length rest')%nat by (apply Hlen; intros; apply Hnet; lia).
    lia.
Qed.

(** A cycle, and any number of them. *)
Lemma follow_cycle l rest w :
  follows l rest w ->
  exists taken rest', rest = taken ++ rest'
    /\ let w' := (synchronize_metadata_once ag envs w).1 in
       (w_calls w < w_calls w')%nat /\ follows (l ++ taken) rest' w'
       /\ ((forall k, (w_calls w ≤ k)%nat -> ce_network (envs k) = Delivered) ->
           (length rest - 500 ≥ length rest')%nat).
Proof.
  intros (w1 & Hpush & Hn1 & Hf1)%(follow_push l rest w 4).
  destruct (follow_pull 4 _ _ _ Hf1) as (taken & rest' & w2 & answer & Hpull & Hr & Hn2 & Hf2 & Hlen).
  exists taken, rest'. split; [done|]. unfold synchronize_metadata_once, mbind, cycle_bind.
  rewrite Hpush, Hpull. split; [simpl; lia|]. split; [done|].
  intros Hnet. simpl in Hlen. apply Hlen. intros. apply Hnet. lia.
Qed.

Lemma follow_loop ticks : forall l rest w,
  follows l rest w ->
  exists taken rest', rest = taken ++ rest'
    /\ let w' := metadata_sync_loop ag ticks envs w in
       (w_calls w + ticks ≤ w_calls w')%nat /\ follows (l ++ taken) rest' w'
       /\ ((forall k, (w_calls w ≤ k)%nat -> ce_network (envs k) = Delivered) ->
           (length rest - 500 * ticks ≥ length rest')%nat).
Proof.
  induction ticks as [|ticks IH]; intros l rest w Hf.
  - exists [], rest. rewrite app_nil_r. split; [done|]. simpl. split; [lia|]. split; [done|lia].
  - destruct (follow_cycle _ _ _ Hf) as (t1 & r1 & Hr1 & Hn1 & Hf1 & Hl1).
    destruct (IH _ _ _ Hf1) as (t2 & r2 & Hr2 & Hn2 & Hf2 & Hl2).
    exists (t1 ++ t2), r2. rewrite <- app_assoc, <- Hr2, app_assoc. split; [done|].
    cbn [metadata_sync_loop]. split; [lia|]. split; [done|]. intros Hnet.
    specialize (Hl1 Hnet). assert (length r1 - 500 * ticks ≥ length r2)%nat; [|lia].
    apply Hl2. intros. apply Hnet. lia.
Qed.
End follow.

Lemma metadata_sync_loop_add ag m n envs w :
  metadata_sync_loop ag (m + n) envs w = metadata_sync_loop ag n envs (metadata_sync_loop ag m envs w).
Proof. revert w. induction m as [|m IH]; intros w; [done|]. apply IH. Qed.

Lemma sync_ok_log db : sync_ok db -> exists seq m, log_ok seq (sync_changes db) m.
Proof. intros H. by exists (sync_sequence db), (versions db). Qed.

(** ** The theorems *)

Section theorems.
Context (ag : Agent) (u : Uuid) (lid : string -> Uuid -> string) (f64_repr : Z -> string)
  (envs : nat -> CallEnv) (w : World).
Let changes := sync_changes (w_server w).

(** The device [ag] of the user [u], whose agent reaches its daemon and can store all of
    the user's log, is at [l] with [rest] to come. *)
Record catching_up (l rest : list SyncChangeRow) : Prop := {
  cu_peer : peer_ok ag;
  cu_log : sync_ok (w_server w);
  cu_deliverable : Forall (deliverable ag f64_repr lid) (user_log u changes);
  cu_f64 : forall k, de_f64_repr (ce_daemon (envs k)) = f64_repr;
  cu_follows : follows ag u lid changes l rest w;
}.

(** C36: a device never leaves the log. Let the device start as a replica of a prefix of
    the user's log, without unacknowledged edits or open conflicts ([follows]), let the daemon
    accept every entry of the log ([deliverable]: a known type, an object within the size
    limit, a local identifier that is the entity's own and consistent over its revisions), and
    let nothing but the sync loop change the device or the log. Then, however requests and
    answers get lost, the device holds exactly the entities of the prefix of the log its
    cursor has passed, never goes back, and leaves no conflict open. Both conditions matter:
    see [refused_entry_stalls] and [misnamed_entity_is_split]. *)
Theorem device_stays_on_log l rest ticks :
  catching_up l rest ->
  let w' := metadata_sync_loop ag ticks envs w in
  exists l' rest', user_log u changes = l' ++ rest' /\ l `prefix_of` l'
    /\ replica u lid (replay l') (w_daemon w')
    /\ (cursors (w_daemon w') (peer_name ag)).2 = from_option sc_cursor 0%Z (last l')
    /\ quiet (peer_name ag) (w_daemon w').
Proof.
  intros [Hpeer Hok Hall Hf64 Hf].
  destruct (follow_loop ag u lid f64_repr changes Hpeer (sync_ok_log _ Hok) Hall envs Hf64
              ticks _ _ _ Hf) as (taken & rest' & Hr & _ & [_ Hl Hrep Hq Hcur] & _).
  exists (l ++ taken), rest'. split_and!; try done. by exists taken.
Qed.

(** C6: once requests get through again, the device converges. Under the same conditions
    ([catching_up]: a device at a prefix of the log without unacknowledged edits or open
    conflicts, a daemon that accepts every entry, a log that does not change meanwhile): after
    the cycles of an outage and then one cycle for each 500 log entries it misses, it holds
    exactly the current entities of the user on the server: their revisions, payloads and
    deletion marks, under their local identifiers, and nothing else. *)
Theorem device_converges l rest outage n :
  catching_up l rest ->
  (forall k, (outage ≤ k)%nat -> ce_network (envs k) = Delivered) ->
  (length rest ≤ 500 * n)%nat ->
  replica u lid (versions (w_server w)) (w_daemon (metadata_sync_loop ag (outage + n) envs w)).
Proof.
  intros [Hpeer Hok Hall Hf64 Hf] Hnet Hlen. rewrite metadata_sync_loop_add.
  pose proof (follow_loop ag u lid f64_repr changes Hpeer (sync_ok_log _ Hok) Hall envs Hf64)
    as Hloop.
  destruct (Hloop outage _ _ _ Hf) as (t1 & r1 & Hr1 & Hn1 & Hf1 & _).
  destruct (Hloop n _ _ _ Hf1) as (t2 & r2 & Hr2 & _ & Hf2 & Hdone).
  assert (r2 = []) as ->.
  { apply length_zero_iff_nil. assert (length rest = length t1 + length r1)%nat
      by (by rewrite Hr1, length_app).
    assert (length r1 - 500 * n ≥ length r2)%nat; [|lia]. apply Hdone. intros. apply Hnet. lia. }
  destruct Hf2 as [_ Hl Hrep _ _]. rewrite app_nil_r in Hl. rewrite <- Hl in Hrep.
  destruct (user_log_ok u _ _ _ Hok) as (seq' & m' & Hok' & _ & Hm).
  assert (replay (user_log u changes) = m') as Hm' by (by eapply log_ok_replay).
  rewrite Hm' in Hrep. destruct Hrep as [Hrows Honly].
  split.
  - intros t i v. rewrite <- Hm by done. apply Hrows.
  - intros t s row (i & v & Hs & Hv)%Honly. exists i, v. by rewrite <- Hm.
Qed.
End theorems.
