(* ===== verification/DeviceSyncProperties.v ===== *)
(** * What the device's metadata sync guarantees, and where it loses

    The outbox can always be sent, payloads survive the way to the server and back, and a
    resolved conflict settles. Two offline edits can overwrite an edit of another device,
    and a log entry the daemon refuses stops the device for good. *)

From Stdlib Require Import Structures.OrdersEx.
From S2P Require Import Prelude.
From S2P Require Import Text.
From S2P Require Import Json.
From S2P Require Import Contracts.
From S2P Require Import Store.
From S2P Require Import SyncProtocol.
From S2P Require Import SyncLog.
From S2P Require Import SyncProperties.
From S2P Require Import LocalDaemon.
From S2P Require Import DaemonProperties.
From S2P Require Import DeviceSync.
From S2P Require Import DeviceConvergence.

Import Daemon DeviceSync Sync.

(** ** Objects are ordered by key *)

Definition key_before (a b : string * Value) : Prop := String.compare a.1 b.1 = Lt.

Definition map_sorted (m : list (string * Value)) : Prop := StronglySorted key_before m.

Lemma string_lt_trans a b c :
  String.compare a b = Lt -> String.compare b c = Lt -> String.compare a c = Lt.
Proof.
  change (String_as_OT.lt a b -> String_as_OT.lt b c -> String_as_OT.lt a c).
  by apply StrictOrder_Transitive.
Qed.

Lemma map_get_before k a m :
  Forall (key_before a) m -> String.compare k a.1 ≠ Gt -> map_get k m = None.
Proof.
  induction 1 as [|[k' v] m Hx _ IH]; [done|]. intros Hk. simpl.
  destruct (String.eqb_spec k k') as [->|]; [|by apply IH]. exfalso.
  unfold key_before in Hx. simpl in Hx. rewrite String.compare_antisym, Hx in Hk. done.
Qed.

Lemma map_insert_Forall (P : string * Value -> Prop) k v m :
  P (k, v) -> Forall P m -> Forall P (map_insert k v m).
Proof.
  intros Hk. induction 1 as [|[k' v'] m Hx Hm IH]; simpl; [by constructor|].
  destruct (String.compare k k'); repeat constructor; auto.
Qed.

Lemma map_insert_sorted k v m : map_sorted m -> map_sorted (map_insert k v m).
Proof.
  induction 1 as [|[k' v'] m Hm IH Hx]; simpl; [repeat constructor|].
  destruct (String.compare k k') eqn:Hc.
  - apply String.compare_eq_iff in Hc as ->. by constructor.
  - constructor; [by constructor|]. constructor; [done|].
    eapply Forall_impl; [exact Hx|]. intros [k'' v''] H. unfold key_before in *. simpl in *.
    by eapply string_lt_trans.
  - constructor; [done|]. apply map_insert_Forall; [|done].
    unfold key_before. simpl. by rewrite String.compare_antisym, Hc.
Qed.

Lemma map_remove_sorted k m : map_sorted m -> map_sorted (map_remove k m).
Proof. apply strongly_sorted_filter. Qed.

(** Ordered objects with the same entries are equal. *)
Lemma map_sorted_ext m1 m2 :
  map_sorted m1 -> map_sorted m2 -> (forall k, map_get k m1 = map_get k m2) -> m1 = m2.
Proof.
  intros H1. revert m2. induction H1 as [|[k1 v1] m1 Hm1 IH Hx1]; intros m2 H2 Hext.
  - destruct m2 as [|[k2 v2] m2]; [done|]. specialize (Hext k2). simpl in Hext.
    by rewrite String.eqb_refl in Hext.
  - destruct H2 as [|[k2 v2] m2 Hm2 Hx2].
    { specialize (Hext k1). simpl in Hext. by rewrite String.eqb_refl in Hext. }
    assert (k1 = k2) as ->.
    { destruct (String.compare k1 k2) eqn:Hc.
      - by apply String.compare_eq_iff.
      - specialize (Hext k1). simpl in Hext. rewrite String.eqb_refl in Hext.
        destruct (String.eqb_spec k1 k2) as [->|]; [done|].
        rewrite (map_get_before k1 (k2, v2)) in Hext; [done|done|]. simpl. by rewrite Hc.
      - specialize (Hext k2). simpl in Hext. rewrite String.eqb_refl in Hext.
        destruct (String.eqb_spec k2 k1) as [->|]; [done|].
        rewrite (map_get_before k2 (k1, v1)) in Hext; [done|done|]. simpl.
        by rewrite String.compare_antisym, Hc. }
    assert (v1 = v2) as ->.
    { specialize (Hext k2). simpl in Hext. rewrite String.eqb_refl in Hext. congruence. }
    f_equal. apply IH; [done|]. intros k. specialize (Hext k). simpl in Hext.
    destruct (String.eqb_spec k k2) as [Hk|]; [rewrite Hk|done].
    rewrite !(map_get_before k2 (k2, v2)); try done; simpl; by rewrite string_compare_refl.
Qed.

(** ** Payloads *)

Section agent.
Context (ag : Agent).

(** C37: what a device sends comes back. For an object payload without the two keys the
    protocol reserves, and a local identifier that is not blank: the payload that reaches the
    server carries the local identifier exactly when it is no UUID, so every device finds the
    identifier; and once it is localised again it is the payload the first device stored, a
    schedule's provider profile included. *)
Theorem payload_round_trip t local_id m sent :
  map_sorted m -> map_get LOCAL_ID m = None -> map_get LOCAL_PROFILE_ID m = None ->
  str_is_empty (trim local_id) = false ->
  sync_payload_for_server ag t local_id (JObject m) = Ok sent ->
  sync_payload_for_local t sent = JObject m
  /\ carried_local_id (Some sent) = (if is_uuid ag local_id then None else Some local_id).
Proof.
  intros Hm Hid Hprofile Hblank. unfold sync_payload_for_server.
  rewrite (bind_of_Ok (ok_or _ _) m) by done.
  set (o := if is_uuid ag local_id then m else map_insert LOCAL_ID (JString local_id) m).
  assert (map_sorted o) as Ho by (unfold o; destruct (is_uuid ag local_id); auto using map_insert_sorted).
  assert (forall k, k ≠ LOCAL_ID -> map_get k o = map_get k m) as Hget.
  { intros k Hk. unfold o. destruct (is_uuid ag local_id); [done|]. by apply map_get_insert_ne. }
  assert (map_get LOCAL_ID o = if is_uuid ag local_id then None else Some (JString local_id)) as Hlocal.
  { unfold o. destruct (is_uuid ag local_id); [done|]. apply map_get_insert_eq. }
  set (profile := if String.eqb t "schedule" then map_str "model_profile_id" o else None).
  intros [= <-].
  set (sent := match profile with Some _ => _ | None => _ end).
  assert (map_sorted sent) as Hs.
  { unfold sent. destruct profile as [p|]; [|done]. destruct (is_uuid ag p); [done|].
    by repeat apply map_insert_sorted. }
  split.
  - assert (map_remove LOCAL_PROFILE_ID (map_remove LOCAL_ID o) = m) as Hplain.
    { apply map_sorted_ext; [by apply map_remove_sorted, map_remove_sorted|done|]. intros k.
      rewrite !map_get_remove. destruct (String.eqb_spec k LOCAL_PROFILE_ID) as [->|]; [done|].
      destruct (String.eqb_spec k LOCAL_ID) as [->|]; [done|auto]. }
    assert (map_str LOCAL_PROFILE_ID (map_remove LOCAL_ID o) = None) as Hno.
    { unfold map_str. rewrite map_get_remove_ne, Hget, Hprofile by done. done. }
    unfold sync_payload_for_local. f_equal.
    destruct (String.eqb t "schedule") eqn:Ht; unfold sent, profile; rewrite ?Ht; [|done].
    destruct (map_str "model_profile_id" o) as [p|] eqn:Hp; [|by rewrite Hno].
    destruct (is_uuid ag p); [by rewrite Hno|].
    set (o' := map_insert "model_profile_id" _ _).
    assert (map_str LOCAL_PROFILE_ID (map_remove LOCAL_ID o') = Some p) as ->.
    { unfold map_str, o'. rewrite map_get_remove_ne, map_get_insert_ne, map_get_insert_eq by done.
      done. }
    apply map_sorted_ext; [|done|].
    { by repeat first [apply map_insert_sorted|apply map_remove_sorted]. }
    intros k. unfold map_str in Hp. rewrite Hget in Hp by done.
    rewrite map_get_insert. destruct (String.eqb_spec k "model_profile_id") as [->|Hk].
    { destruct (map_get "model_profile_id" m) as [v|]; [|done]. by destruct v; simplify_eq/=. }
    etrans; [|exact (f_equal (map_get k) Hplain)]. unfold o'. rewrite !map_get_remove.
    destruct (String.eqb_spec k LOCAL_PROFILE_ID); [done|].
    destruct (String.eqb_spec k LOCAL_ID); [done|]. by rewrite !map_get_insert_ne by done.
  - assert (map_get LOCAL_ID sent = map_get LOCAL_ID o) as Hsame.
    { unfold sent. destruct profile as [p|]; [|done]. destruct (is_uuid ag p); [done|].
      by rewrite !map_get_insert_ne by done. }
    unfold carried_local_id, get_str. simpl. rewrite Hsame, Hlocal.
    destruct (is_uuid ag local_id); [done|]. simpl. by rewrite Hblank.
Qed.

(** ** Sending the outbox *)

Lemma increasing_NoDup l : StronglySorted Z.lt l -> NoDup l.
Proof.
  induction 1 as [|x l _ IH Hx]; constructor; [|done]. intros Hin.
  rewrite Forall_forall in Hx. specialize (Hx _ Hin). lia.
Qed.

Lemma sort_outbox l :
  StronglySorted Z.lt (lc_cursor <$> l) -> merge_sort earlier_cursor l = l.
Proof.
  intros Hl. apply (StronglySorted_unique_strong earlier_cursor).
  - intros x y Hx Hy Hxy Hyx. rewrite merge_sort_Permutation in Hx.
    unfold earlier_cursor in *. assert (lc_cursor x = lc_cursor y) as Heq by lia.
    apply list_elem_of_lookup_1 in Hx as [i Hi]. apply list_elem_of_lookup_1 in Hy as [j Hj].
    assert (i = j) as ->; [|congruence].
    eapply (NoDup_lookup (lc_cursor <$> l)); [|by rewrite list_lookup_fmap, Hi|].
    + by apply increasing_NoDup.
    + by rewrite list_lookup_fmap, Hj, Heq.
  - apply StronglySorted_merge_sort. { intros x y z. unfold earlier_cursor. lia. }
    intros x y. unfold earlier_cursor. lia.
  - induction l as [|x l IH]; [constructor|]. inversion Hl as [|? ? Hl' Hx]; subst.
    constructor; [by apply IH|].
    change (Forall (Z.lt (lc_cursor x)) (lc_cursor <$> l)) in Hx. rewrite Forall_fmap in Hx.
    eapply Forall_impl; [exact Hx|]. unfold earlier_cursor. simpl. lia.
  - apply merge_sort_Permutation.
Qed.

Lemma sendable now c :
  change_ok c -> exists ch, local_change_for_server ag now c = Ok ch /\ change_shape ch
    /\ ch_base_revision ch = (lc_revision c - 1)%Z /\ (0 ≤ ch_base_revision ch)%Z
    /\ ch_device_id ch = ag_executor_id ag /\ ch_entity_type ch = lc_entity_type c
    /\ ch_entity_id ch = stable_sync_entity_id ag (lc_entity_type c) (lc_entity_id c).
Proof.
  intros ([Hobj Hrev] & Heq & Hop). unfold local_change_for_server. rewrite Hop.
  destruct (en_tombstone (lc_entity c)).
  - eexists. split; [reflexivity|]. simpl. split_and!; try done; lia.
  - unfold sync_payload_for_server. destruct (en_payload (lc_entity c)) as [| | | | |m]; try done.
    eexists. split; [reflexivity|]. simpl. split_and!; try done; [by eexists|lia].
Qed.

(** whatever local writes, deletions, remote entities and resolutions a daemon has
    seen, a page of its outbox is exactly the next writes after the cursor, in the order
    they were made, none twice, and the agent can turn the whole page into changes the
    server finds well formed: no entry blocks the outbox by its shape. *)
Theorem outbox_is_sendable now d after limit :
  rtc daemon_step (MkDaemon ∅ [] 0 ∅ ∅) d ->
  let page := (list_entity_changes d after limit).1 in
  page = take (Z.to_nat (clamp 1 1000 (from_option id 200%Z limit)))
           (filter (fun c => Z.max 0 (from_option id 0 after) < lc_cursor c)%Z (daemon_changes d))
  /\ StronglySorted Z.lt (lc_cursor <$> daemon_changes d)
  /\ NoDup (logged_key <$> daemon_changes d)
  /\ exists changes, res_mapM (local_change_for_server ag now) page = Ok changes
       /\ Forall (fun ch => change_shape ch /\ 0 ≤ ch_base_revision ch)%Z changes
       /\ length changes = length page.
Proof.
  intros Hok%daemon_steps_ok page. pose proof (do_sorted _ Hok) as Hsorted.
  assert (page = take (Z.to_nat (clamp 1 1000 (from_option id 200%Z limit)))
    (filter (fun c => Z.max 0 (from_option id 0 after) < lc_cursor c)%Z (daemon_changes d))) as Hpage.
  { unfold page, list_entity_changes. cbn [fst]. f_equal. apply sort_outbox.
    clear page. induction (daemon_changes d) as [|c l IH]; [constructor|].
    inversion Hsorted as [|? ? Hl Hx]; subst. rewrite filter_cons. case_decide; [|by apply IH].
    change (Forall (Z.lt (lc_cursor c)) (lc_cursor <$> l)) in Hx. rewrite Forall_fmap in Hx.
    rewrite fmap_cons. constructor; [by apply IH|]. apply Forall_fmap.
    by apply filter_keeps. }
  split; [done|]. split; [done|]. split; [apply (do_unique _ Hok)|].
  assert (Forall change_ok page) as Hall.
  { rewrite Hpage. apply Forall_take, filter_keeps, (do_outbox _ Hok). }
  clear Hpage. clearbody page. induction Hall as [|c page Hc _ (changes & Hch & Hshape & Hlen)].
  - by exists [].
  - destruct (sendable now _ Hc) as (ch & Hs & Hsh & _ & Hb & _).
    exists (ch :: changes). simpl. rewrite Hs. simpl. rewrite Hch. simpl.
    split; [done|]. split; [by constructor|]. by rewrite Hlen.
Qed.

(** ** Two edits behind a foreign one *)

Lemma conflict_operations env db u ch db' answer :
  sync_operations db !! ch_operation_id ch = None ->
  from_option vs_revision 0%Z (versions db !! key_of u ch) ≠ ch_base_revision ch ->
  run_tx env db (apply_change u ch) = (db', Ok answer) ->
  forall i, i ≠ ch_operation_id ch -> sync_operations db' !! i = sync_operations db !! i.
Proof.
  intros Hnew Hbase Hrun i Hi. run_post Hrun. unfold apply_change. wp_steps. rewrite Hnew. wp_steps.
  change (u, ch_entity_type ch, ch_entity_id ch) with (key_of u ch).
  rewrite current_revision_version, bool_decide_eq_true_2 by done.
  unfold record_operation. wp_steps. by rewrite lookup_insert_ne.
Qed.

(** an edit of another device can be overwritten by one who has not seen it. The
    device made two edits of an entity offline; the other device's edit took the revision
    of the first. Then the first is refused as a conflict, but the second, made on top of
    the first, carries the revision of the foreign edit as its base, and is applied: its
    payload replaces the foreign one. *)
Theorem second_offline_edit_overwrites now envs k db u l1 l2 c1 c2 v db' answers :
  sync_ok db -> change_ok l1 -> change_ok l2 ->
  lc_entity_type l2 = lc_entity_type l1 -> lc_entity_id l2 = lc_entity_id l1 ->
  lc_revision l2 = (lc_revision l1 + 1)%Z ->
  local_change_for_server ag now l1 = Ok c1 -> local_change_for_server ag now l2 = Ok c2 ->
  versions db !! key_of u c1 = Some v -> vs_revision v = lc_revision l1 ->
  sync_operations db !! ch_operation_id c1 = None ->
  sync_operations db !! ch_operation_id c2 = None -> ch_operation_id c1 ≠ ch_operation_id c2 ->
  apply_changes envs k db u [c1; c2] = (db', Ok answers) ->
  exists a1 a2, answers = [a1; a2] /\ sa_status a1 = SyncConflict /\ sa_status a2 = Applied
    /\ versions db' !! key_of u c1
       = Some {| vs_revision := vs_revision v + 1; vs_payload := ch_payload c2;
                 vs_tombstone := bool_decide (ch_operation c2 = Delete) |}.
Proof.
  intros Hok Hl1 Hl2 Ht Hi Hrev Hc1 Hc2 Hv Hvr Hn1 Hn2 Hdist Hrun.
  destruct (sendable now _ Hl1) as (x & Hx & Hs1 & Hb1 & _ & _ & Ht1 & Hi1).
  rewrite Hc1 in Hx. injection Hx as <-.
  destruct (sendable now _ Hl2) as (x & Hx & Hs2 & Hb2 & _ & _ & Ht2 & Hi2).
  rewrite Hc2 in Hx. injection Hx as <-.
  assert (key_of u c2 = key_of u c1) as Hkey.
  { unfold key_of. by rewrite Ht1, Ht2, Hi1, Hi2, Ht, Hi. }
  simpl in Hrun.
  destruct (run_tx (envs k) db (apply_change u c1)) as [db1 [a1|]] eqn:Hr1; [|done].
  destruct (run_tx (envs (S k)) db1 (apply_change u c2)) as [db2 [a2|]] eqn:Hr2; [|done].
  injection Hrun as <- <-.
  destruct (apply_change_register _ _ _ _ _ _ Hok Hs1 Hn1 Hr1) as (Hv1 & Hst1 & _ & _ & _ & Hok1).
  unfold register_push in Hv1, Hst1. rewrite Hv in Hv1, Hst1. cbn [from_option] in Hv1, Hst1.
  rewrite bool_decide_eq_false_2 in Hv1, Hst1 by lia. cbn [fst snd] in Hv1, Hst1.
  rewrite <- (conflict_operations _ _ _ _ _ _ Hn1 ltac:(rewrite Hv; simpl; lia) Hr1
                (ch_operation_id c2)) in Hn2 by done.
  destruct (apply_change_register _ _ _ _ _ _ Hok1 Hs2 Hn2 Hr2) as (Hv2 & Hst2 & _).
  unfold register_push in Hv2, Hst2. rewrite Hkey, Hv1 in Hv2, Hst2. cbn [from_option] in Hv2, Hst2.
  rewrite bool_decide_eq_true_2 in Hv2, Hst2 by lia. cbn [fst snd] in Hv2, Hst2.
  exists a1, a2. split_and!; try done. rewrite Hv2. do 2 f_equal. lia.
Qed.

(** ** Resolving a conflict *)

(** resolving a conflict settles it. Taking the remote side makes the row the recorded
    remote version; keeping the local side writes the recorded local row above the remote
    revision and logs it as the last entry of the outbox, and the change the agent sends
    for it is based on exactly the remote revision, so a server that still has this
    revision applies it. Either way the conflict is closed with the choice, and no other
    conflict changes. *)
Theorem resolution_settles now env params d d' id resolution row remote :
  daemon_ok d -> required_text params "conflict_id" 100 = Ok id ->
  required_text params "resolution" 32 = Ok resolution ->
  daemon_conflicts d !! id = Some row -> remote_from_value env (cf_remote_entity row) = Ok remote ->
  resolve_conflict env params d = (d', Ok tt) ->
  (exists row', daemon_conflicts d' !! id = Some row' /\ cf_resolved_at row' = Some (de_now env)
     /\ cf_resolution row' = Some resolution)
  /\ (forall id', id' ≠ id -> daemon_conflicts d' !! id' = daemon_conflicts d !! id')
  /\ (resolution = "use_remote" ->
      daemon_changes d' = daemon_changes d
      /\ exists e, daemon_entities d' !! (re_entity_type remote, re_entity_id remote) = Some e
          /\ en_revision e = re_revision remote /\ en_tombstone e = re_tombstone remote
          /\ (re_tombstone remote = false -> re_payload remote = Some (en_payload e)))
  /\ (resolution = "keep_local" ->
      exists t i e c ch, cf_local_entity row = Some (daemon_entity_json t i e)
        /\ daemon_changes d' = daemon_changes d ++ [c]
        /\ en_payload (lc_entity c) = en_payload e
        /\ en_tombstone (lc_entity c) = en_tombstone e
        /\ daemon_entities d' !! (lc_entity_type c, lc_entity_id c) = Some (lc_entity c)
        /\ local_change_for_server ag now c = Ok ch
        /\ ch_base_revision ch = re_revision remote).
Proof.
  intros Hok Hid Hres Hrow Hremote. unfold resolve_conflict. rewrite Hid, Hres.
  destruct (peer_id params) as [peer|]; [|done].
  rewrite (bind_of_Ok (Ok peer) peer), (bind_of_Ok (Ok id) id), (bind_of_Ok (Ok resolution) resolution) by done.
  rewrite Hrow.
  destruct (str_mem resolution ["use_remote"; "keep_local"]) eqn:Hmem; [|done].
  rewrite (bind_of_Ok (guard_err (negb true) _) tt) by done.
  destruct (String.eqb (cf_peer_id row) peer && _); [|done].
  rewrite (bind_of_Ok (ok_or _ _) row), Hremote, (bind_of_Ok (Ok remote) remote) by done.
  destruct (if String.eqb resolution "use_remote" then _ else _) as [d1|] eqn:Hw; [|done].
  rewrite (bind_of_Ok (Ok d1) d1) by done. intros [= <-].
  assert (daemon_conflicts d1 = daemon_conflicts d
    /\ (resolution = "use_remote" -> write_remote_entity remote d = Ok d1)
    /\ (resolution = "keep_local" -> exists t i e,
          cf_local_entity row = Some (daemon_entity_json t i e) /\ row_ok e
          /\ write_local_resolution env (daemon_entity_json t i e) (re_revision remote) d = Ok d1))
    as (Hsame & Huse & Hkeep).
  { destruct (String.eqb_spec resolution "use_remote") as [->|Hne].
    - split; [|done]. by eapply write_remote_same.
    - apply result_bind_Ok in Hw as (v & Hv%ok_or_Ok & Hw).
      destruct (do_conflicts _ Hok _ _ _ Hrow Hv) as (t & i & e & -> & He).
      split; [by eapply write_local_same|]. split; [done|]. intros _. by exists t, i, e. }
  simpl. split; [eexists; split; [apply lookup_insert_eq|done]|]. split.
  { intros id' Hne. by rewrite lookup_insert_ne, Hsame. }
  split.
  - intros Hr. specialize (Huse Hr). split; [by eapply write_remote_same|].
    unfold write_remote_entity in Huse. apply result_bind_Ok in Huse as (p & Hp & [= <-]).
    unfold put_entity. simpl. eexists. split; [apply lookup_insert_eq|]. simpl.
    split; [done|]. split; [done|]. intros Ht. rewrite Ht in Hp. by apply ok_or_Ok in Hp.
  - intros Hr. destruct (Hkeep Hr) as (t & i & e & Hv & [Ho _] & Hwl).
    apply write_local_inv in Hwl as (t' & i' & Hlog & _). cbv zeta in Hlog.
    set (row' := {| en_revision := _ |}) in Hlog.
    assert (1 ≤ re_revision remote)%Z by (by apply remote_parsed in Hremote as [[] _]).
    assert (row_ok row') as Hrow' by (split; simpl; [done|lia]).
    eapply log_change_ok in Hlog as (_ & Hent & _ & c & Hc & <- & <- & Hce & Hcok & _);
      [|done|done|by apply put_entity_ok].
    destruct (sendable now c Hcok) as (ch & Hch & _ & Hbase & _).
    exists t, i, e, c, ch. rewrite Hent, Hc, Hce. split_and!; try done.
    + unfold put_entity. simpl. by rewrite lookup_insert_eq.
    + rewrite Hbase. destruct Hcok as (_ & -> & _). rewrite Hce. simpl. lia.
Qed.
End agent.

(** ** An entry the daemon refuses *)

(** A log entry whose payload is no object, or whose type the daemon does not know and
    whose payload names no local identifier. The server accepts both. *)
Definition refused (c : SyncChangeRow) : Prop :=
  (exists p, sc_payload c = Some p /\ is_object p = false)
  \/ (str_mem (sc_entity_type c) DAEMON_ENTITY_TYPES = false /\ carried_local_id (sc_payload c) = None).

Lemma refused_params ag denv c local_id p k d :
  sc_payload c = Some p -> is_object p = false -> sc_operation c = "upsert" ->
  exists e, apply_remote denv (apply_params ag k (entry_input c) local_id) d = (d, Err e).
Proof.
  intros Hp Ho Hop. unfold apply_remote.
  destruct (remote_from_params denv _) as [r|e] eqn:Hr; [exfalso|by exists e].
  unfold remote_from_params in Hr. apply result_bind_Ok in Hr as (v & Hv%ok_or_Ok & Hr).
  assert (get "payload" v = Some p /\ get_bool "tombstone" v = Some false) as [Hvp Hvt].
  { assert (get "entity" (apply_params ag k (entry_input c) local_id) = Some (json_obj
        [("entity_type", JString (ri_entity_type (entry_input c))); ("entity_id", JString local_id);
         ("revision", jint (ri_revision (entry_input c)));
         ("payload", jopt (sync_payload_for_local (ri_entity_type (entry_input c)))
                       (ri_payload (entry_input c)));
         ("tombstone", JBool (ri_tombstone (entry_input c)));
         ("updated_at", JString (ag_rfc3339 ag (ri_updated_at (entry_input c))))])) as Hentity
      by reflexivity.
    rewrite Hentity in Hv. apply (inj Some) in Hv. subst v. rewrite entry_tombstone, Hop.
    change (ri_payload (entry_input c)) with (sc_payload c). rewrite Hp. split; [|reflexivity].
    by destruct p. }
  unfold remote_from_value in Hr. rewrite Hvp in Hr.
  apply result_bind_Ok in Hr as (? & _ & Hr). apply result_bind_Ok in Hr as (? & _ & Hr).
  apply result_bind_Ok in Hr as (? & _ & Hr). apply result_bind_Ok in Hr as (? & _ & Hr).
  apply result_bind_Ok in Hr as (? & Hguard%guard_err_Ok & _).
  rewrite Hvt in Hguard. simpl in Hguard. destruct (is_null p) eqn:Hn; simpl in Hguard; [done|].
  by rewrite Ho in Hguard.
Qed.

Lemma refused_fails ag c envs w :
  well_formed_change c -> refused c ->
  exists n e, apply_remote_entity ag (sc_cursor c) (entry_input c) envs w
              = (MkWorld (w_server w) (w_daemon w) n, Err e).
Proof.
  intros Hform Hc. unfold apply_remote_entity, local_entity_id_for_remote.
  change (ri_entity_type (entry_input c)) with (sc_entity_type c).
  change (ri_entity_id (entry_input c)) with (sc_entity_id c).
  change (ri_payload (entry_input c)) with (sc_payload c).
  assert (carried_local_id (sc_payload c) = None) as ->.
  { destruct Hc as [(p & -> & Ho)|[_ ?]]; [|done]. by destruct p. }
  unfold mbind, cycle_bind, call, mret, cycle_ret.
  destruct (list_daemon_entities (w_daemon w) (sc_entity_type c) true) as [items|e] eqn:Hlist;
    [|by eexists _, _].
  destruct Hc as [(p & Hp & Ho)|[Ht _]].
  - assert (sc_operation c = "upsert") as Hop by (destruct Hform as [[? _]|[_ ?]]; congruence).
    simpl. destruct (refused_params ag (ce_daemon (envs (S (w_calls w)))) c
      (from_option id (uuid_to_string (sc_entity_id c))
         (find_local_id ag (sc_entity_type c) (sc_entity_id c) items)) p (sc_cursor c) (w_daemon w)
      Hp Ho Hop) as (e & ->). by eexists _, _.
  - unfold list_daemon_entities, validate_daemon_entity_identity in Hlist. by rewrite Ht in Hlist.
Qed.

Lemma refused_cycle ag u lid changes l c rest envs w :
  peer_ok ag -> (exists seq m, log_ok seq changes m) -> well_formed_change c -> refused c ->
  follows ag u lid changes l (c :: rest) w ->
  follows ag u lid changes l (c :: rest) (synchronize_metadata_once ag envs w).1.
Proof.
  intros Hpeer Hlog Hform Hrefused Hf. unfold synchronize_metadata_once.
  destruct (follow_push _ _ _ _ Hpeer envs _ _ _ 4 Hf) as (w1 & Hpush & _ & Hf1).
  unfold mbind at 1, cycle_bind at 1. rewrite Hpush. cbn [pull_pages].
  destruct (follow_state _ _ _ _ Hpeer envs _ _ _ Hf1) as (w2 & st & Hst & _ & Hf2 & _ & Hremote).
  unfold mbind at 1, cycle_bind at 1. rewrite Hst.
  destruct (follow_request _ _ _ _ Hlog envs _ _ _ Hf2) as (w3 & answer & Hreq & _ & Hf3 & Hpage & _).
  rewrite Hremote. unfold mbind at 1, cycle_bind at 1. rewrite Hreq.
  destruct answer as [page|e]; [|done]. rewrite (Hpage page eq_refl).
  cbn [take fmap list_fmap apply_all]. unfold mbind, cycle_bind.
  change (sv_cursor (server_change c)) with (sc_cursor c).
  change (of_server_change (server_change c)) with (entry_input c).
  destruct (refused_fails ag c envs w3 Hform Hrefused) as (n & e & ->).
  by destruct Hf3.
Qed.

(** one such entry stops a device for good. When it is the next one in the user's log,
    no number of cycles, over whatever network, moves the device past it: its cursor and
    its entities stay, and the entries behind it never arrive. *)
Theorem refused_entry_stalls ag u lid envs w l c rest ticks :
  peer_ok ag -> sync_ok (w_server w) ->
  follows ag u lid (sync_changes (w_server w)) l (c :: rest) w -> refused c ->
  let w' := metadata_sync_loop ag ticks envs w in
  (cursors (w_daemon w') (peer_name ag)).2 = (cursors (w_daemon w) (peer_name ag)).2
  /\ replica u lid (replay l) (w_daemon w').
Proof.
  intros Hpeer Hok Hf Hrefused. pose proof (sync_ok_log _ Hok) as Hlog.
  set (changes := sync_changes (w_server w)) in *.
  assert (well_formed_change c) as Hform.
  { destruct Hlog as (seq & m & Hl). apply (user_log_ok u) in Hl as (seq' & m' & Hl & _).
    rewrite (fl_log _ _ _ _ _ _ _ Hf) in Hl. by apply log_ok_next in Hl as [_ ?]. }
  assert (follows ag u lid changes l (c :: rest) (metadata_sync_loop ag ticks envs w)) as Hf'.
  { clearbody changes. clear Hok. revert w Hf. induction ticks as [|ticks IH]; intros w Hf; [done|].
    simpl. apply IH.
    by apply refused_cycle. }
  destruct Hf as [_ Hl _ _ Hcur]. destruct Hf' as [_ _ Hrep _ Hcur']. split; [|done].
  by rewrite Hcur', Hcur.
Qed.
