(* ===== verification/DeviceWitness.v ===== *)
(** * The sync theorems at concrete inputs

    A server on which a device has written a note, and two devices of the same user. *)

From S2P Require Import Prelude.
From S2P Require Import Json.
From S2P Require Import Contracts.
From S2P Require Import Store.
From S2P Require Import Demo.
From S2P Require Import SyncProtocol.
From S2P Require Import SyncLog.
From S2P Require Import SyncSystem.
From S2P Require Import SyncProperties.
From S2P Require Import LocalDaemon.
From S2P Require Import DaemonProperties.
From S2P Require Import DeviceSync.
From S2P Require Import DeviceDemo.
From S2P Require Import DeviceConvergence.
From S2P Require Import DeviceSyncProperties.

Import Daemon DeviceSync Sync.

(** ** The server *)

Definition note_change (operation : Uuid) (nanos : Z) (payload : Value) : SyncChange :=
  {| ch_schema_version := SCHEMA_VERSION; ch_operation_id := operation; ch_device_id := 41%N;
     ch_entity_type := "memory"; ch_entity_id := 77%N; ch_base_revision := 0;
     ch_operation := Upsert; ch_payload := Some payload; ch_client_timestamp := nanos |}.

Definition push_note (db : Db) (ch : SyncChange) : Db * result ApiError SyncApplyResult :=
  run_tx (demo_env 0) db (apply_change 1%N ch).

Definition note_answer (operation : Uuid) (payload : Value) : SyncApplyResult :=
  {| sa_operation_id := operation; sa_status := Applied;
     sa_entity := Some {| sd_entity_type := "memory"; sd_entity_id := 77%N; sd_revision := 1;
       sd_etag := version_etag 77%N 1; sd_payload := Some payload; sd_tombstone := false;
       sd_updated_at := db_now (demo_env 0) |} |}.

Definition fine_change : SyncChange := note_change 900%N 1000001 (note "a").
Definition fine_server : Db := (push_note sync_server fine_change).1.

Lemma sync_server_initial : initial_sync sync_server.
Proof. split_and!; reflexivity. Qed.

Lemma sync_server_ok : sync_ok sync_server.
Proof. exact (initial_sync_ok _ sync_server_initial). Qed.

Lemma push_is_register_write_witness :
  let written := register_push (versions sync_server !! key_of 1%N fine_change) 0 Upsert (Some (note "a")) in
  versions fine_server !! key_of 1%N fine_change = written.1 /\ written.2 = Applied.
Proof.
  split; [|reflexivity].
  refine (proj1 (push_is_register_write (demo_env 0) sync_server 1%N fine_change fine_server
    (note_answer 900%N (note "a")) sync_server_ok _ _ _)).
  - by eexists.
  - by vm_compute.
  - by vm_compute.
Defined.

Lemma retry_matches_whole_microseconds_witness :
  run_tx (demo_env 5) fine_server (apply_change 1%N fine_change)
  = (fine_server, Err (Conflict "operation_id was already used for a different sync change")).
Proof.
  refine (retry_matches_whole_microseconds (demo_env 0) sync_server 1%N fine_change fine_server
    (note_answer 900%N (note "a")) (demo_env 5) fine_server _ _ _); by vm_compute.
Defined.

(** The same server after pushes of the device through its session. *)
Definition pushed (db : Db) (changes : list SyncChange) : Db :=
  (push_changes_for_device (fun k => demo_env (N.of_nat k)) db 1%N 41%N changes).1.

Definition note_server : Db := pushed sync_server [note_change 900%N 1000000 (note "a")].

Lemma note_server_ok : sync_ok note_server.
Proof. apply push_changes_ok, sync_server_ok. Qed.

Lemma sync_log_is_history_witness :
  replay (sync_changes note_server) = versions note_server
  /\ versions note_server !! (1%N, "memory", 77%N)
     = Some {| vs_revision := 1; vs_payload := Some (note "a"); vs_tombstone := false |}.
Proof.
  split; [|by vm_compute].
  refine (proj1 (sync_log_is_history sync_server note_server (1%N, "memory", 77%N) sync_server_initial _)).
  apply rtc_once, sync_push.
Defined.

Definition note_page : PullResponse :=
  {| pl_changes := server_change <$> sync_changes note_server; pl_next_cursor := 1 |}.

Lemma pull_page_is_exact_witness :
  pl_changes note_page = server_change <$> take 200 (changes_after note_server 1%N 0)
  /\ length (pl_changes note_page) = 1%nat.
Proof.
  split; [|by vm_compute].
  refine (proj1 (pull_page_is_exact (demo_env 3) note_server 1%N 42%N None None
    (run_tx (demo_env 3) note_server (pull_changes_for_device 1%N 42%N None None)).1 note_page
    note_server_ok _)).
  by vm_compute.
Defined.

(** ** A device that catches up *)

Definition local_name (t : string) (id : Uuid) : string := uuid_to_string id.

Definition note_row : SyncChangeRow :=
  {| sc_cursor := 1; sc_user_id := 1%N; sc_entity_type := "memory"; sc_entity_id := 77%N;
     sc_revision := 1; sc_operation := "upsert"; sc_payload := Some (note "a");
     sc_created_at := db_now (demo_env 1) |}.

Definition outage (k : nat) : Delivery := if Nat.ltb k 5 then RequestLost else Delivered.

Definition catch_up_world : World := MkWorld note_server empty_daemon 0.

Lemma note_deliverable : deliverable (device 42) (fun z => pretty z) local_name note_row.
Proof.
  split.
  - done.
  - intros p [= <-]. split; [done|]. by vm_compute.
  - by vm_compute.
  - by vm_compute.
  - by vm_compute.
  - by vm_compute.
  - discriminate.
  - done.
Qed.

Lemma empty_replica u lid : replica u lid (replay []) empty_daemon.
Proof.
  split; [intros t i v|intros t s row]; unfold replay, empty_daemon; simpl; by rewrite lookup_empty.
Qed.

Lemma empty_quiet peer : quiet peer empty_daemon.
Proof.
  split; [intros c Hc; by apply elem_of_nil in Hc|].
  intros id row. unfold empty_daemon. simpl. by rewrite lookup_empty.
Qed.

Lemma follows_from_empty ag db rest :
  serves ag 1%N (sync_changes db) db -> user_log 1%N (sync_changes db) = rest ->
  follows ag 1%N local_name (sync_changes db) [] rest (MkWorld db empty_daemon 0).
Proof. intros Hs Hl. split; simpl; [done|done|apply empty_replica|apply empty_quiet|done]. Qed.

Lemma note_serves : serves (device 42) 1%N (sync_changes note_server) note_server.
Proof.
  split; [done|by vm_compute|].
  assert (sync_device_cursors note_server !! ag_executor_id (device 42) = None) as -> by by vm_compute.
  done.
Qed.

Lemma note_catching_up :
  catching_up (device 42) 1%N local_name (fun z => pretty z) (calls outage) catch_up_world [] [note_row].
Proof.
  split.
  - by vm_compute.
  - exact note_server_ok.
  - assert (user_log 1%N (sync_changes (w_server catch_up_world)) = [note_row]) as -> by by vm_compute.
    apply Forall_singleton, note_deliverable.
  - done.
  - apply follows_from_empty; [exact note_serves|by vm_compute].
Qed.

Lemma device_converges_witness :
  replica 1%N local_name (versions note_server)
    (w_daemon (metadata_sync_loop (device 42) 6 (calls outage) catch_up_world)).
Proof.
  refine (device_converges (device 42) 1%N local_name (fun z => pretty z) (calls outage) catch_up_world
    [] [note_row] 5 1 note_catching_up _ _).
  - intros k Hk. unfold calls, outage. simpl. by rewrite (proj2 (Nat.ltb_ge k 5) Hk).
  - simpl. lia.
Defined.

Lemma device_stays_on_log_witness :
  exists l' rest', user_log 1%N (sync_changes note_server) = l' ++ rest'
    /\ replica 1%N local_name (replay l')
         (w_daemon (metadata_sync_loop (device 42) 2 (calls outage) catch_up_world)).
Proof.
  destruct (device_stays_on_log (device 42) 1%N local_name (fun z => pretty z) (calls outage)
    catch_up_world [] [note_row] 2 note_catching_up) as (l' & rest' & Hl & _ & Hr & _).
  exists l', rest'. split; [exact Hl|exact Hr].
Defined.

(** ** An entry the daemon refuses *)

(** A memory whose payload is a string. *)
Definition text_row : SyncChangeRow :=
  {| sc_cursor := 1; sc_user_id := 1%N; sc_entity_type := "memory"; sc_entity_id := 77%N;
     sc_revision := 1; sc_operation := "upsert"; sc_payload := Some (JString "a");
     sc_created_at := db_now (demo_env 1) |}.

Definition text_server : Db :=
  pushed sync_server [note_change 900%N 1000000 (JString "a"); note_change 901%N 1000000 (note "b")].

Lemma refused_entry_stalls_witness :
  sync_changes text_server = [text_row]
  /\ (cursors (w_daemon (metadata_sync_loop (device 42) 3 reliable (MkWorld text_server empty_daemon 0)))
        (peer_name (device 42))).2 = 0%Z.
Proof.
  split; [by vm_compute|].
  refine (proj1 (refused_entry_stalls (device 42) 1%N local_name reliable
    (MkWorld text_server empty_daemon 0) [] text_row [] 3 _ _ _ _)).
  - by vm_compute.
  - apply push_changes_ok, sync_server_ok.
  - apply follows_from_empty; [|by vm_compute]. split; [done|by vm_compute|].
    assert (sync_device_cursors text_server !! ag_executor_id (device 42) = None) as -> by by vm_compute.
    done.
  - left. by exists (JString "a").
Defined.

(** ** Local writes and conflicts *)

Definition no_change : LocalChange :=
  {| lc_cursor := 0; lc_entity_type := ""; lc_entity_id := ""; lc_revision := 0;
     lc_operation := ""; lc_entity := {| en_revision := 0; en_etag := ""; en_payload := JNull;
       en_tombstone := false; en_created_at := ""; en_updated_at := "" |}; lc_created_at := "" |}.

Definition one_edit : DaemonDb := write_note "t" "mine" empty_daemon.
Definition two_edits : DaemonDb := write_note "t" "mine too" one_edit.

Definition edit_row (d : DaemonDb) : EntityRow :=
  from_option id (lc_entity no_change) (daemon_entities d !! ("memory", note_id)).

(** An equation whose sides evaluate to the same value. *)
Ltac run_eq :=
  match goal with
  | |- _ = ?b => vm_cast_no_check (eq_refl b)
  | |- _ => vm_compute; done
  end.

Lemma two_edits_reachable : rtc daemon_step (MkDaemon ∅ [] 0 ∅ ∅) two_edits.
Proof.
  apply (rtc_l _ _ one_edit).
  - apply (step_write (daemon_env "t" "") "memory" note_id (note "mine") None _ _ (edit_row one_edit)).
    by run_eq.
  - apply rtc_once, (step_write (daemon_env "t" "") "memory" note_id (note "mine too") None _ _
      (edit_row two_edits)). by run_eq.
Qed.

Lemma outbox_is_sendable_witness :
  StronglySorted Z.lt (lc_cursor <$> daemon_changes two_edits)
  /\ length (list_entity_changes two_edits None None).1 = 2%nat.
Proof.
  split; [|by vm_compute].
  exact (proj1 (proj2 (outbox_is_sendable (device 42) 0 two_edits None None two_edits_reachable))).
Defined.

Definition edit (k : nat) : LocalChange := nth k (daemon_changes two_edits) no_change.

Definition sent (k : nat) : SyncChange :=
  match local_change_for_server (device 42) 0 (edit k) with
  | Ok ch => ch
  | Err _ => fine_change
  end.

Definition both_sent : Db * result ApiError (list SyncApplyResult) :=
  apply_changes (fun k => demo_env (N.of_nat (k + 5))) 0 note_server 1%N [sent 0; sent 1].

Definition both_answers : list SyncApplyResult :=
  match both_sent.2 with
  | Ok answers => answers
  | Err _ => []
  end.

Lemma second_offline_edit_overwrites_witness :
  versions note_server !! key_of 1%N (sent 0)
    = Some {| vs_revision := 1; vs_payload := Some (note "a"); vs_tombstone := false |}
  /\ exists a1 a2, both_answers = [a1; a2] /\ sa_status a1 = SyncConflict /\ sa_status a2 = Applied.
Proof.
  split; [by vm_compute|].
  destruct (second_offline_edit_overwrites (device 42) 0 (fun k => demo_env (N.of_nat (k + 5))) 0
    note_server 1%N (edit 0) (edit 1) (sent 0) (sent 1)
    {| vs_revision := 1; vs_payload := Some (note "a"); vs_tombstone := false |}
    both_sent.1 both_answers) as (a1 & a2 & H & H1 & H2 & _).
  1: exact note_server_ok.
  1,2: split; by vm_compute.
  1: reflexivity. 1: reflexivity. 1: by vm_compute. 1: reflexivity. 1: by vm_compute.
  1-5: by vm_compute.
  - by vm_compute.
  - exists a1, a2. split; [exact H|]. split; [exact H1|exact H2].
Defined.

Definition foreign_params : Value := apply_params (device 42) 1 (entry_input note_row) note_id.

Definition foreign : RemoteEntity :=
  {| re_entity_type := "memory"; re_entity_id := note_id; re_revision := 1;
     re_payload := Some (note "a"); re_tombstone := false;
     re_updated_at := pretty (db_now (demo_env 1)) |}.

Definition conflicted : DaemonDb := (apply_remote (daemon_env "t" "c1") foreign_params one_edit).1.

Lemma pending_edits_survive_witness :
  daemon_entities conflicted = daemon_entities one_edit.
Proof.
  refine (proj1 (pending_edits_survive (daemon_env "t" "c1") foreign_params one_edit conflicted
    (RemoteConflict "c1") foreign (peer_name (device 42)) _ _ _ _ _ _)).
  - by run_eq.
  - by run_eq.
  - by run_eq.
  - by run_eq.
  - by run_eq.
  - by run_eq.
Defined.

Lemma conflicted_ok : daemon_ok conflicted.
Proof.
  apply daemon_steps_ok.
  apply (rtc_l _ _ one_edit).
  - apply (step_write (daemon_env "t" "") "memory" note_id (note "mine") None _ _ (edit_row one_edit)).
    by run_eq.
  - apply rtc_once, (step_apply (daemon_env "t" "c1") foreign_params one_edit).
Qed.

Definition keep_params : Value :=
  json_obj [("peer_id", JString (peer_name (device 42))); ("conflict_id", JString "c1");
            ("resolution", JString "keep_local")].

Definition resolved : DaemonDb := (resolve_conflict (daemon_env "t" "") keep_params conflicted).1.

Definition note_conflict : ConflictRow :=
  {| cf_peer_id := peer_name (device 42); cf_entity_type := "memory"; cf_entity_id := note_id;
     cf_local_entity := daemon_entity_json "memory" note_id <$> daemon_entities one_edit !! ("memory", note_id);
     cf_remote_entity := remote_as_value foreign; cf_created_at := "t"; cf_resolved_at := None;
     cf_resolution := None |}.

Lemma resolution_settles_witness :
  exists row', daemon_conflicts resolved !! "c1" = Some row' /\ cf_resolved_at row' = Some "t"
    /\ cf_resolution row' = Some "keep_local".
Proof.
  refine (proj1 (resolution_settles (device 42) 0 (daemon_env "t" "") keep_params conflicted resolved
    "c1" "keep_local" note_conflict foreign conflicted_ok _ _ _ _ _)).
  - by run_eq.
  - by run_eq.
  - by run_eq.
  - by run_eq.
  - by run_eq.
Defined.

Definition schedule_payload : list (string * Value) :=
  json_map [("cron", JString "0 9 * * *"); ("model_profile_id", JString "local-profile")].

Lemma payload_round_trip_witness :
  exists p, sync_payload_for_server (device 42) "schedule" "daily" (JObject schedule_payload) = Ok p
    /\ sync_payload_for_local "schedule" p = JObject schedule_payload
    /\ carried_local_id (Some p) = Some "daily".
Proof.
  eexists. split; [reflexivity|].
  refine (payload_round_trip (device 42) "schedule" "daily" schedule_payload _ _ _ _ _ _);
    [|reflexivity..].
  unfold schedule_payload, json_map. simpl. by repeat constructor.
Defined.

(** ** A local identifier the server does not check

    A push names a local identifier that is not the entity's own, the next one names none: the
    device stores the two revisions of one entity under two identifiers. The theorems on
    devices therefore ask for consistent identifiers ([dl_carried], [dl_stable]). *)

Definition misnamed (text : string) : Value :=
  json_obj [("text", JString text); (LOCAL_ID, JString "zz")].

Definition next_note (operation : Uuid) (base : Z) (payload : Value) : SyncChange :=
  {| ch_schema_version := SCHEMA_VERSION; ch_operation_id := operation; ch_device_id := 41%N;
     ch_entity_type := "memory"; ch_entity_id := 77%N; ch_base_revision := base;
     ch_operation := Upsert; ch_payload := Some payload; ch_client_timestamp := 1000000 |}.

Definition misnamed_server : Db :=
  pushed sync_server [next_note 900%N 0 (misnamed "a"); next_note 901%N 1 (note "b")].

Definition misnamed_device : DaemonDb :=
  w_daemon (sync_device 42 misnamed_server empty_daemon).1.

Lemma misnamed_entity_is_split :
  (se_revision <$> sync_entities misnamed_server !! (1%N, "memory", 77%N)) = Some 2%Z
  /\ (en_revision <$> daemon_entities misnamed_device !! ("memory", "zz")) = Some 1%Z
  /\ note_on misnamed_device = Some (2%Z, note "b").
Proof. by vm_compute. Qed.
