(* ===== verification/Organization.v ===== *)
(** * Roles and grants (server/cowork-server/src/organization.rs)

    Who may do what in a project: the role a user has as owner, project member or team
    member, the support grants that let others look (governance.rs), the executor pools
    granted to a project, the model profiles a user may use there (providers.rs), and the
    check of a run's context that combines them. *)

From S2P Require Import Prelude.
From S2P Require Import Json.
From S2P Require Import Contracts.
From S2P Require Import Store.
From S2P Require Import Governance.
From S2P Require Import SyncPublish.
From S2P Require Import RunStore.
From S2P Require Import SyncMaterialize.

Module Organization.

Inductive ProjectRole := Viewer | Runner | Editor.

#[global] Instance ProjectRole_eq_dec : EqDecision ProjectRole.
Proof. solve_decision. Defined.

Definition role_rank (role : ProjectRole) : Z :=
  match role with
  | Viewer => 0
  | Runner => 1
  | Editor => 2
  end.

Definition project_role_name (role : ProjectRole) : string :=
  match role with
  | Viewer => "viewer"
  | Runner => "runner"
  | Editor => "editor"
  end.

Definition parse_project_role (value : string) : result ApiError ProjectRole :=
  if String.eqb value "viewer" then Ok Viewer
  else if String.eqb value "runner" then Ok Runner
  else if String.eqb value "editor" then Ok Editor
  else Err (Internal ("unknown project role " +:+ value)).

(** ** Support grants *)

Definition grant_before (a b : Uuid * SupportGrantRow) : Prop :=
  (sg_expires_at a.2 < sg_expires_at b.2)%Z
  \/ (sg_expires_at a.2 = sg_expires_at b.2 /\ (a.1 ≤ b.1)%N).

#[global] Instance grant_before_dec a b : Decision (grant_before a b).
Proof. unfold grant_before. solve_decision. Defined.

(** [... revoked_at IS NULL AND expires_at > now() ORDER BY expires_at LIMIT 1] *)
Definition active_grant (env : Env) (db : Db) (p : SupportGrantRow -> bool) : option Uuid :=
  fst <$> head (merge_sort grant_before
    (filter (fun kv => p kv.2 && not_deleted (sg_revoked_at kv.2)
                       && bool_decide (db_now env < sg_expires_at kv.2)%Z = true)
            (map_to_list (support_grants db)))).

Definition active_project_support_grant (env : Env) (db : Db) (user_id project_id : Uuid)
    : option Uuid :=
  active_grant env db (fun g => bool_decide (sg_support_user_id g = user_id)
                                && bool_decide (sg_project_id g = Some project_id)
                                && bool_decide (sg_thread_id g = None)).

Definition active_thread_support_grant (env : Env) (db : Db) (user_id thread_id : Uuid)
    : option Uuid :=
  active_grant env db (fun g => bool_decide (sg_support_user_id g = user_id)
                                && bool_decide (sg_thread_id g = Some thread_id)
                                && bool_decide (sg_project_id g = None)).

Definition audit_support_access (user_id grant_id : Uuid) (target_type : string)
    (target_id : Uuid) : Tx unit :=
  env ← ask;
  event_id ← fresh_uuid;
  db ← get_db;
  _ ← reject_if (bool_decide (is_Some (audit_events db !! event_id)))
        (Database (UniqueViolation "audit_events_pkey"));
  modify (fun db => set_audit_events
    (<[event_id := {| ae_actor_user_id := Some user_id; ae_action := "support_grant.access";
                      ae_target_type := target_type; ae_target_id := Some target_id;
                      ae_metadata := json_obj [("support_grant_id", juuid grant_id)];
                      ae_created_at := db_now env |}]> (audit_events db)) db).

(** ** Roles *)

(** The role a user has in a project, without support grants. *)
Definition member_role (db : Db) (user_id project_id : Uuid) (p : ProjectRow)
    : result ApiError (option ProjectRole) :=
  if bool_decide (pr_owner_user_id p = user_id) then Ok (Some Editor)
  else
    match project_members db !! (project_id, user_id) with
    | Some role => role ← parse_project_role role; Ok (Some role)
    | None =>
        Ok (match (pr_team_id p ≫= fun team_id => team_members db !! (team_id, user_id)) with
            | Some role =>
                if str_mem role ["owner"; "admin"] then Some Editor
                else if String.eqb role "member" then Some Viewer else None
            | None => None
            end)
    end.

Definition no_access : ApiError :=
  Unauthorized "the current user cannot access this project".

Definition project_not_found (project_id : Uuid) : ApiError :=
  NotFound ("project " +:+ uuid_to_string project_id +:+ " was not found").

Definition ensure_project_role (user_id project_id : Uuid) (required : ProjectRole)
    : Tx ProjectRole :=
  db ← get_db;
  env ← ask;
  p ← require (live_project db project_id) (project_not_found project_id);
  found ← lift (member_role db user_id project_id p);
  role ← match found with
         | Some role => mret role
         | None =>
             if bool_decide (required = Viewer) then
               match active_project_support_grant env db user_id project_id with
               | Some grant_id =>
                   _ ← audit_support_access user_id grant_id "project" project_id;
                   mret Viewer
               | None => fail no_access
               end
             else fail no_access
         end;
  _ ← reject_if (bool_decide (role_rank role < role_rank required)%Z)
        (Unauthorized ("project role " +:+ project_role_name required +:+ " is required"));
  mret role.

Definition ensure_thread_project (thread_id project_id : Uuid) : Tx unit :=
  db ← get_db;
  reject_if (negb (Materialize.live_thread_in db thread_id project_id))
    (Unprocessable "thread does not belong to the selected project").

(** [match m { Err(ApiError::Unauthorized(_)) => handler, outcome => outcome }]: nothing is
    changed by the refused check, so the handler goes on from the tables it started with. *)
Definition if_unauthorized {A} (m handler : Tx A) : Tx A := fun env s =>
  match m env s with
  | Err (Unauthorized _) => handler env s
  | outcome => outcome
  end.

Definition ensure_thread_role (user_id project_id thread_id : Uuid) (required : ProjectRole)
    : Tx ProjectRole :=
  _ ← ensure_thread_project thread_id project_id;
  if bool_decide (required = Viewer) then
    if_unauthorized (ensure_project_role user_id project_id required)
      (env ← ask;
       db ← get_db;
       grant_id ← require (active_thread_support_grant env db user_id thread_id)
                    (Unauthorized "the current user cannot access this thread");
       _ ← audit_support_access user_id grant_id "thread" thread_id;
       mret Viewer)
  else ensure_project_role user_id project_id required.

(** ** Executor pools and model profiles *)

Definition ensure_pool_allowed_for_project (pool_id project_id : Uuid)
    (expected_kind : ExecutorKind) : Tx unit :=
  db ← get_db;
  reject_if (negb (Materialize.pool_granted db expected_kind pool_id project_id))
    (Unauthorized "executor pool is not granted to this project").

(** The check of a target that run contexts (organization.rs) and tasks and schedules
    (workflow.rs) share. *)
Definition validate_target_for_project (user_id project_id : Uuid) (target : ExecutorTarget)
    : Tx unit :=
  db ← get_db;
  match target with
  | ServerLinux (Some pool_id) => ensure_pool_allowed_for_project pool_id project_id KServerLinux
  | ManagedWindowsPool pool_id => ensure_pool_allowed_for_project pool_id project_id KManagedWindows
  | PersonalDevice device_id =>
      reject_if (negb (user_can_target_personal_device db user_id device_id))
        (Unauthorized "personal devices can only be targeted by their owner")
  | ServerLinux None => mret tt
  end.

Definition ensure_run_context (user_id project_id thread_id : Uuid) (project_revision : Z)
    (privacy : ProjectPrivacy) (target : ExecutorTarget) : Tx unit :=
  _ ← ensure_project_role user_id project_id Runner;
  _ ← ensure_thread_project thread_id project_id;
  db ← get_db;
  p ← require (live_project db project_id) (Database RowNotFound);
  _ ← reject_if (bool_decide (pr_revision p ≠ project_revision))
        (Conflict ("project revision changed from " +:+ pretty project_revision +:+ " to "
                   +:+ pretty (pr_revision p)));
  _ ← reject_if (bool_decide (pr_privacy p ≠ privacy))
        (Conflict "project privacy does not match the persisted project");
  validate_target_for_project user_id project_id target.

(** A profile is the user's own, or one of the project's team that the user is in. *)
Definition accessible_profile (user_id project_id profile_id : Uuid) : Tx ProfileRow :=
  db ← get_db;
  require
    (match live_profile db profile_id, live_project db project_id with
     | Some f, Some p =>
         if bool_decide (pf_owner_user_id f = Some user_id)
            || match pf_team_id f with
               | Some team_id => bool_decide (pr_team_id p = Some team_id)
                                 && bool_decide (is_Some (team_members db !! (team_id, user_id)))
               | None => false
               end
         then Some f else None
     | _, _ => None
     end)
    (Unprocessable ("model profile " +:+ uuid_to_string profile_id
                    +:+ " is unavailable to the selected project")).

Definition required_binding (target : ExecutorTarget) : string :=
  match target with
  | PersonalDevice _ => "per_device"
  | _ => "server"
  end.

Definition ensure_profile_for_target (user_id project_id : Uuid) (profile_id : option Uuid)
    (target : ExecutorTarget) : Tx unit :=
  match profile_id with
  | None => mret tt
  | Some profile_id =>
      f ← accessible_profile user_id project_id profile_id;
      let binding := from_option id "server" (get_str "endpoint_binding" (pf_model_defaults f)) in
      reject_if (negb (String.eqb binding (required_binding target)))
        (Unprocessable ("model profile " +:+ uuid_to_string profile_id +:+ " is bound to "
                        +:+ binding +:+ ", but the selected executor requires "
                        +:+ required_binding target))
  end.

End Organization.
