(* ===== verification/FrozenContext.v ===== *)
(** * The frozen context of a run (server/cowork-server/src/sync.rs)

    Before a run is created, the skills, memories, MCP metadata and crew definition its
    input refers to are copied out of the user's synchronised entities into the input, so
    that later edits do not reach it. Only listed fields are copied, fields the client sent
    under the reserved names are dropped, and the model profiles and MCP servers a crew
    names are checked (providers.rs, mcp_bindings.rs). *)

From S2P Require Import Prelude.
From S2P Require Import Json.
From S2P Require Import Contracts.
From S2P Require Import Store.
From S2P Require Import SyncPublish.
From S2P Require Import Crew.
From S2P Require Import Organization.

(** Texts the libraries produce: the Display of a crew error and of a database error,
    Rust's [{:?}] of a string, and PostgreSQL's text of a JSON value that is no string. *)
Class LibTexts := {
  crew_error_text : Crew.CrewError -> string;
  db_error_text : DbError -> string;
  debug_str : string -> string;
  jsonb_text : Value -> string;
}.

Module Frozen.

(** ** The synchronised entities of a user *)

(** A row a query on [sync_entities] returns: the table's CHECK gives every row that is no
    tombstone a payload. *)
Record EntityRow := {
  er_entity_id : Uuid;
  er_revision : Z;
  er_updated_at : DateTime;
  er_payload : Value;
}.

Definition entity_before (a b : EntityRow) : Prop := (er_entity_id a ≤ er_entity_id b)%N.

#[global] Instance entity_before_dec a b : Decision (entity_before a b).
Proof. unfold entity_before. apply _. Defined.

Definition entity_row (user_id : Uuid) (entity_type : string)
    (kv : (Uuid * string * Uuid) * SyncEntityRow) : option EntityRow :=
  if bool_decide (kv.1.1.1 = user_id) && bool_decide (kv.1.1.2 = entity_type)
     && negb (se_tombstone kv.2)
  then payload ← se_payload kv.2;
       Some {| er_entity_id := kv.1.2; er_revision := se_revision kv.2;
               er_updated_at := se_updated_at kv.2; er_payload := payload |}
  else None.

(** [SELECT ... WHERE user_id = $1 AND entity_type = $2 AND NOT tombstone]; SQL leaves the
    order open, here it is the order of the identifiers. *)
Definition user_entities (db : Db) (user_id : Uuid) (entity_type : string) : list EntityRow :=
  merge_sort entity_before (omap (entity_row user_id entity_type) (map_to_list (sync_entities db))).

Section texts.
Context {texts : LibTexts}.

(** [payload ->> key] *)
Definition payload_text (key : string) (payload : Value) : option string :=
  match get key payload with
  | None | Some JNull => None
  | Some (JString s) => Some s
  | Some v => Some (jsonb_text v)
  end.

Definition text_in (o : option string) (references : list string) : bool :=
  match o with
  | Some s => str_mem s references
  | None => false
  end.

Definition referenced (references : list string) (e : EntityRow) : bool :=
  str_mem (uuid_to_string (er_entity_id e)) references
  || text_in (payload_text "_cowork_local_entity_id" (er_payload e)) references.

(** The listed fields of an object. *)
Definition pick_fields (allowed_fields : list string) (object : Map) : Map :=
  json_map (omap (fun key => (fun value => (key, value)) <$> map_get key object) allowed_fields).

(** ** Skills, memories and MCP metadata *)

Definition CONTEXT_TYPES : list (string * string * list string) :=
  [("skill_ids", "skill",
    ["name"; "description"; "prompt_template"; "trigger_pattern"; "run_mode"; "auto_generated";
     "parent_skill_id"; "source_task_ids"]);
   ("memory_ids", "memory",
    ["scope"; "scope_ref"; "category"; "key"; "content"; "target"; "source_run_id";
     "confidence"; "source"]);
   ("mcp_metadata_ids", "mcp_metadata",
    ["name"; "transport"; "executable_hint"; "environment_keys"; "device_binding_required";
     "source"])].

Definition RESERVED_FIELDS : list string :=
  ["frozen_runtime_context"; "crew_definition"; "crew_entity_id"; "crew_revision"].

Definition strip_client_frozen_fields (input : Value) : Value :=
  match input with
  | JObject object => JObject (foldl (fun o key => map_remove key o) object RESERVED_FIELDS)
  | other => other
  end.

Fixpoint unique_references (key : string) (seen : list string) (values : list Value)
    : result ApiError (list string) :=
  match values with
  | [] => Ok []
  | value :: rest =>
      reference ← ok_or (Unprocessable (key +:+ " entries must contain 1 to 200 characters"))
        (match trim <$> as_str value with
         | Some reference =>
             if negb (str_is_empty reference) && bool_decide (str_len reference ≤ 200)%Z
             then Some reference else None
         | None => None
         end);
      if str_mem reference seen then unique_references key seen rest
      else
        more ← unique_references key (reference :: seen) rest;
        Ok (reference :: more)
  end.

(** [a.or_else(|| b)] *)
Definition or_else {A} (a b : option A) : option A :=
  match a with
  | Some x => Some x
  | None => b
  end.

Definition runtime_metadata_references (input : Value) (key : string)
    : result ApiError (list string) :=
  let in_config := get "task_config" input ≫= fun config =>
    or_else (get key config) (get "sync_metadata" config ≫= get key) in
  match or_else (get key input) in_config with
  | None => Ok []
  | Some value =>
      values ← ok_or (Unprocessable (key +:+ " must be an array of synchronized entity IDs"))
                 (as_array value);
      if bool_decide (32 < length values)%nat
      then Err (Unprocessable (key +:+ " cannot contain more than 32 entries"))
      else unique_references key [] values
  end.

Definition required_metadata (entity_type : string) : list string :=
  if String.eqb entity_type "skill" then ["name"; "prompt_template"]
  else if String.eqb entity_type "memory" then ["key"; "content"]
  else if String.eqb entity_type "mcp_metadata" then ["name"]
  else [].

(** [value.is_none_or(|value| value.trim().is_empty())] *)
Definition blank_text (o : option string) : bool :=
  match o with
  | Some value => str_is_empty (trim value)
  | None => true
  end.

Definition sanitized_runtime_metadata (payload : Value) (entity_type : string)
    (allowed_fields : list string) : result ApiError Value :=
  object ← ok_or (Unprocessable (entity_type +:+ " metadata must be an object"))
             (as_object payload);
  let sanitized := pick_fields allowed_fields object in
  match find (fun key => blank_text (map_str key sanitized)) (required_metadata entity_type) with
  | Some key => Err (Unprocessable (entity_type +:+ " metadata requires " +:+ key))
  | None => Ok (JObject sanitized)
  end.

(** What is stored of one entity. *)
Definition frozen_entity (e : EntityRow) (definition : Value) : Value :=
  json_obj [("entity_id", juuid (er_entity_id e)); ("revision", jint (er_revision e));
            ("definition", definition)].

Fixpoint index_entities (entity_type : string) (allowed_fields : list string)
    (rows : list EntityRow) (by_reference : gmap string Value)
    : result ApiError (gmap string Value) :=
  match rows with
  | [] => Ok by_reference
  | e :: rest =>
      definition ← sanitized_runtime_metadata (er_payload e) entity_type allowed_fields;
      let frozen := frozen_entity e definition in
      let by_reference := <[uuid_to_string (er_entity_id e) := frozen]> by_reference in
      index_entities entity_type allowed_fields rest
        (match get_str "_cowork_local_entity_id" (er_payload e) with
         | Some local_id => <[local_id := frozen]> by_reference
         | None => by_reference
         end)
  end.

Definition freeze_metadata_entities (db : Db) (user_id : Uuid) (entity_type : string)
    (references : list string) (allowed_fields : list string) : result ApiError (list Value) :=
  by_reference ← index_entities entity_type allowed_fields
    (filter (fun e => referenced references e = true) (user_entities db user_id entity_type)) ∅;
  res_mapM
    (fun reference => ok_or (Unprocessable (entity_type +:+ " metadata " +:+ reference
                                            +:+ " is unavailable or deleted"))
                        (by_reference !! reference)) references.

(** ** Crew definitions *)

Definition copy_optional_crew_selection_string (source target : Map) (key : string)
    (max_len : Z) (label : string) : result ApiError Map :=
  match map_get key source with
  | None => Ok target
  | Some value =>
      value ← ok_or (Unprocessable ("Crew " +:+ label +:+ " " +:+ key +:+ " must be a string"))
                (as_str value);
      let value := trim value in
      if bool_decide (max_len < str_len value)%Z
      then Err (Unprocessable ("Crew " +:+ label +:+ " " +:+ key +:+ " exceeds "
                               +:+ pretty max_len +:+ " characters"))
      else Ok (if str_is_empty value then target else map_insert key (JString value) target)
  end.

Definition sanitized_crew_backend_selection (value : Value) (label : string)
    : result ApiError Value :=
  object ← ok_or (Unprocessable ("Crew " +:+ label +:+ " must be an object")) (as_object value);
  let backend := from_option id "openai-compatible" (non_empty_trimmed (map_str "backend" object)) in
  let sanitized := map_insert "backend" (JString backend) [] in
  if String.eqb backend "openai-compatible" then
    profile_id ← ok_or (Unprocessable ("Crew " +:+ label +:+
        " requires an OpenAI-compatible profileId of at most 200 characters"))
      (match non_empty_trimmed (map_str "profileId" object) with
       | Some profile_id => if bool_decide (str_len profile_id ≤ 200)%Z then Some profile_id else None
       | None => None
       end);
    let sanitized := map_insert "profileId" (JString profile_id) sanitized in
    sanitized ← copy_optional_crew_selection_string object sanitized "model" 4096 label;
    Ok (JObject sanitized)
  else if String.eqb backend "codex" then
    sanitized ← copy_optional_crew_selection_string object sanitized "authProfileId" 200 label;
    sanitized ← copy_optional_crew_selection_string object sanitized "model" 4096 label;
    sanitized ← copy_optional_crew_selection_string object sanitized "reasoningEffort" 100 label;
    Ok (JObject sanitized)
  else Err (Unprocessable ("Crew " +:+ label +:+ " backend must be openai-compatible or codex")).

Definition sanitized_crew_array (value : option Value) (name : string)
    (allowed_fields : list string) : result ApiError (list Map) :=
  values ← ok_or (Unprocessable ("crew definition requires " +:+ name)) (value ≫= as_array);
  if bool_decide (1000 < length values)%nat
  then Err (Unprocessable ("crew definition " +:+ name +:+ " exceeds 1000 entries"))
  else
    res_mapM
      (fun value =>
         object ← ok_or (Unprocessable ("crew definition " +:+ name +:+ " must contain objects"))
                    (as_object value);
         Ok (pick_fields allowed_fields object)) values.

Definition CREW_FIELDS : list string :=
  ["id"; "name"; "description"; "executionSubject"; "executionGuidelines"; "knowledgeFocus";
   "governanceMode"; "outputMode"; "stopOnFailure"; "retryCount"; "managerReviewEnabled";
   "managerReviewGuidelines"; "shareAllTaskOutputs"; "sharedOutputCharLimit"; "tasks";
   "process"; "managerAgentId"; "verbose"; "maxRpm"; "maxParallelTasks"].

Definition AGENT_FIELDS : list string :=
  ["id"; "name"; "role"; "goal"; "backstory"; "skillsMarkdown"; "personalityId";
   "modelOverride"; "backendSelection"; "tools"; "mcpServerNames"; "enabled";
   "allowDelegation"; "verbose"; "maxIterations"; "maxRpm"].

Definition CREW_TASK_FIELDS : list string :=
  ["id"; "title"; "name"; "description"; "expectedOutput"; "agentId"; "context";
   "dependencies"; "asyncExecution"].

(** The body of the loop over the agents. *)
Definition sanitized_crew_agent (agent : Map) : result ApiError Map :=
  agent ← match map_get "backendSelection" agent with
          | None => Ok agent
          | Some selection =>
              selection ← sanitized_crew_backend_selection selection "agent backendSelection";
              Ok (map_insert "backendSelection" selection agent)
          end;
  let too_long := match map_get "modelOverride" agent with
                  | None => false
                  | Some value => match as_str value with
                                  | Some value => bool_decide (4096 < str_len value)%Z
                                  | None => true
                                  end
                  end in
  if too_long
  then Err (Unprocessable "Crew agent modelOverride must be a string of at most 4096 characters")
  else Ok agent.

Definition sanitized_crew_definition (env : Env) (definition : Value) (expected_id : string)
    : result ApiError Map :=
  object ← ok_or (Unprocessable "crew definition must be an object") (as_object definition);
  id ← ok_or (Unprocessable "crew definition is missing id")
         (non_empty_trimmed (map_str "id" object));
  _ ← guard_err (negb (String.eqb id expected_id))
        (Unprocessable ("crew definition id " +:+ id +:+ " does not match task crew_id "
                        +:+ expected_id));
  let sanitized := pick_fields CREW_FIELDS object in
  sanitized ← match map_get "defaultBackendSelection" object with
              | None => Ok sanitized
              | Some selection =>
                  selection ← sanitized_crew_backend_selection selection "defaultBackendSelection";
                  Ok (map_insert "defaultBackendSelection" selection sanitized)
              end;
  agents ← sanitized_crew_array (map_get "agents" object) "agents" AGENT_FIELDS;
  agents ← res_mapM sanitized_crew_agent agents;
  let sanitized := map_insert "agents" (JArray (JObject <$> agents)) sanitized in
  tasks ← sanitized_crew_array (map_get "tasks" object) "tasks" CREW_TASK_FIELDS;
  let sanitized := map_insert "tasks" (JArray (JObject <$> tasks)) sanitized in
  if bool_decide (MAX_SYNC_PAYLOAD_BYTES < json_len env (JObject sanitized))%Z
  then Err (Unprocessable ("crew definition exceeds " +:+ pretty MAX_SYNC_PAYLOAD_BYTES
                           +:+ " bytes"))
  else Ok sanitized.

(** The selections of a definition: the default one, then the agents'. *)
Definition crew_selections (definition : Map) (agents : list Value) : list Value :=
  option_list (map_get "defaultBackendSelection" definition)
  ++ omap (get "backendSelection") agents.

(** A sanitised OpenAI-compatible selection has a profileId. *)
Fixpoint selected_profiles (seen : list string) (selections : list Value) : list string :=
  match selections with
  | [] => []
  | selection :: rest =>
      if bool_decide (get_str "backend" selection = Some "openai-compatible") then
        match get_str "profileId" selection with
        | Some profile_id =>
            if str_mem profile_id seen then selected_profiles seen rest
            else profile_id :: selected_profiles (profile_id :: seen) rest
        | None => selected_profiles seen rest
        end
      else selected_profiles seen rest
  end.

Definition crew_provider_profile_references (definition : Map) : result ApiError (list string) :=
  agents ← ok_or (Unprocessable "Crew definition requires agents")
             (map_get "agents" definition ≫= as_array);
  Ok (selected_profiles [] (crew_selections definition agents)).

Definition rewrite_crew_profile_reference (canonical : gmap string string) (selection : Map) : Map :=
  match map_str "profileId" selection with
  | None => selection
  | Some profile_id =>
      match canonical !! profile_id with
      | Some canonical_id => map_insert "profileId" (JString canonical_id) selection
      | None => selection
      end
  end.

(** Rewrites the object under a key, if there is one. *)
Definition rewrite_selection_at (canonical : gmap string string) (key : string) (object : Map)
    : Map :=
  match map_get key object with
  | Some (JObject selection) =>
      map_insert key (JObject (rewrite_crew_profile_reference canonical selection)) object
  | _ => object
  end.

Definition rewrite_agent (canonical : gmap string string) (agent : Value) : Value :=
  match agent with
  | JObject object => JObject (rewrite_selection_at canonical "backendSelection" object)
  | other => other
  end.

Definition rewrite_crew_profile_references (canonical : gmap string string) (definition : Map)
    : Map :=
  let definition := rewrite_selection_at canonical "defaultBackendSelection" definition in
  match map_get "agents" definition with
  | Some (JArray agents) =>
      map_insert "agents" (JArray (rewrite_agent canonical <$> agents)) definition
  | _ => definition
  end.

(** The identifiers and local identifiers of the profiles, with their canonical names. *)
Definition canonical_profiles (rows : list EntityRow) : gmap string string :=
  foldl (fun canonical e =>
      let name := uuid_to_string (er_entity_id e) in
      let canonical := <[name := name]> canonical in
      match get_str "_cowork_local_entity_id" (er_payload e) with
      | Some local_id => <[local_id := name]> canonical
      | None => canonical
      end) ∅ rows.

Fixpoint complete_canonical (env : Env) (canonical : gmap string string)
    (references : list string) : result ApiError (gmap string string) :=
  match references with
  | [] => Ok canonical
  | reference :: rest =>
      match canonical !! reference with
      | Some _ => complete_canonical env canonical rest
      | None =>
          match parse_uuid env reference with
          | Some profile_id =>
              complete_canonical env (<[reference := uuid_to_string profile_id]> canonical) rest
          | None => Err (Unprocessable ("Crew provider profile " +:+ reference
                                        +:+ " is unavailable or deleted"))
          end
      end
  end.

Definition canonicalize_crew_provider_profile_references (env : Env) (db : Db) (user_id : Uuid)
    (definition : Map) : result ApiError Map :=
  references ← crew_provider_profile_references definition;
  if bool_decide (references = []) then Ok definition
  else if bool_decide (64 < length references)%nat
  then Err (Unprocessable "a Crew may select at most 64 provider profiles")
  else
    canonical ← complete_canonical env
      (canonical_profiles (filter (fun e => referenced references e = true)
         (user_entities db user_id "provider_profile"))) references;
    Ok (rewrite_crew_profile_references canonical definition).

(** [ORDER BY updated_at DESC, revision DESC] *)
Definition newer_crew (a b : EntityRow) : Prop :=
  (er_updated_at b < er_updated_at a)%Z
  \/ (er_updated_at a = er_updated_at b /\ (er_revision b ≤ er_revision a)%Z).

#[global] Instance newer_crew_dec a b : Decision (newer_crew a b).
Proof. unfold newer_crew. solve_decision. Defined.

Definition is_crew (crew_id : string) (e : EntityRow) : bool :=
  String.eqb (uuid_to_string (er_entity_id e)) crew_id
  || bool_decide (payload_text "_cowork_local_entity_id" (er_payload e) = Some crew_id)
  || bool_decide ((get "definition" (er_payload e) ≫= payload_text "id") = Some crew_id).

Definition find_crew (db : Db) (user_id : Uuid) (crew_id : string) : option EntityRow :=
  head (merge_sort newer_crew
    (filter (fun e => is_crew crew_id e = true) (user_entities db user_id "crew"))).

(** The definition a crew run uses, and the entity it came from unless the task's
    configuration embeds it. *)
Definition crew_source (db : Db) (user_id : Uuid) (input : Value) (crew_id : string)
    : result ApiError (option (Uuid * Z) * Value) :=
  let embedded := get "task_config" input ≫= fun config =>
    or_else (get "crew_definition" config) (get "crew_request" config) in
  match embedded with
  | Some definition => Ok (None, definition)
  | None =>
      e ← ok_or (Unprocessable ("crew " +:+ crew_id
                                +:+ " is unavailable in the user's synchronized metadata"))
            (find_crew db user_id crew_id);
      definition ← ok_or (Unprocessable ("crew " +:+ crew_id +:+ " has no definition"))
                     (get "definition" (er_payload e));
      Ok (Some (er_entity_id e, er_revision e), definition)
  end.

(** An input with a task runner is an object. *)
Definition freeze_crew_definition_for_run (env : Env) (db : Db) (user_id : Uuid) (input : Value)
    : result ApiError Value :=
  match input with
  | JObject object =>
      if bool_decide (map_str "task_runner" object ≠ Some "crew") then Ok input
      else
        crew_id ← ok_or (Unprocessable "crew run is missing crew_id")
                    (non_empty_trimmed (map_str "crew_id" object));
        source ← crew_source db user_id input crew_id;
        definition ← sanitized_crew_definition env source.2 crew_id;
        definition ← canonicalize_crew_provider_profile_references env db user_id definition;
        let object := map_insert "crew_definition" (JObject definition) object in
        Ok (JObject
          (match source.1 with
           | Some (entity_id, revision) =>
               map_insert "crew_revision" (jint revision)
                 (map_insert "crew_entity_id" (juuid entity_id) object)
           | None => object
           end))
  | other => Ok other
  end.

(** ** The whole context *)

Fixpoint freeze_types (db : Db) (user_id : Uuid) (input : Value)
    (types : list (string * string * list string)) (frozen : Map) : result ApiError Map :=
  match types with
  | [] => Ok frozen
  | (reference_key, entity_type, allowed_fields) :: rest =>
      references ← runtime_metadata_references input reference_key;
      match references with
      | [] => freeze_types db user_id input rest frozen
      | _ =>
          values ← freeze_metadata_entities db user_id entity_type references allowed_fields;
          freeze_types db user_id input rest (map_insert entity_type (JArray values) frozen)
      end
  end.

Definition MAX_CONTEXT_BYTES : Z := 256 * 1024.

(** Metadata references only come from object inputs. *)
Definition freeze_runtime_context_for_run (env : Env) (db : Db) (user_id : Uuid) (input : Value)
    : result ApiError Value :=
  let input := strip_client_frozen_fields input in
  input ← freeze_crew_definition_for_run env db user_id input;
  frozen ← freeze_types db user_id input CONTEXT_TYPES [];
  if bool_decide (frozen = []) then Ok input
  else if bool_decide (MAX_CONTEXT_BYTES < json_len env (JObject frozen))%Z
  then Err (Unprocessable "selected synchronized runtime context exceeds 256 KiB")
  else
    match input with
    | JObject object => Ok (JObject (map_insert "frozen_runtime_context" (JObject frozen) object))
    | other => Ok other
    end.

End texts.
End Frozen.
