(* ===== verification/RunRequest.v ===== *)
(** * From a request to a run (server/cowork-server/src/routes.rs)

    The handlers that create runs: the checks of a crew's model profiles (providers.rs) and
    MCP servers (mcp_bindings.rs), the preparation of the run's specification from the
    request, the released task and the user's metadata, and the creation of the run, alone
    or with a chat message. *)

From S2P Require Import Prelude.
From S2P Require Import Json.
From S2P Require Import Contracts.
From S2P Require Import Store.
From S2P Require Import Governance.
From S2P Require Import SyncPublish.
From S2P Require Import RunStore.
From S2P Require Import Routing.
From S2P Require Import TaskConfig.
From S2P Require Import Organization.
From S2P Require Import FrozenContext.

Module RunRequest.

Definition is_server_linux (target : ExecutorTarget) : bool :=
  match target with
  | ServerLinux _ => true
  | _ => false
  end.

(** ** Model profiles of a crew *)

Definition agent_enabled (agent : Value) : bool :=
  negb (bool_decide (get_bool "enabled" agent = Some false)).

Fixpoint agent_profiles (env : Env) (default_selection : option Value) (seen : list Uuid)
    (agents : list Value) : result ApiError (list Uuid) :=
  match agents with
  | [] => Ok []
  | agent :: rest =>
      if negb (agent_enabled agent) then agent_profiles env default_selection seen rest
      else
        match Frozen.or_else (get "backendSelection" agent) default_selection with
        | None => agent_profiles env default_selection seen rest
        | Some selection =>
            let backend := from_option id "openai-compatible" (get_str "backend" selection) in
            _ ← guard_err (negb (String.eqb backend "openai-compatible"))
                  (Unprocessable ("Crew backend " +:+ backend
                                  +:+ " is unavailable to Linux server executors"));
            text ← ok_or (Unprocessable "an OpenAI-compatible Crew backend is missing profileId")
                     (get_str "profileId" selection);
            profile_id ← ok_or (Unprocessable
                             "Crew provider profile references must be canonical UUIDs")
                           (parse_uuid env text);
            if bool_decide (profile_id ∈ seen)
            then agent_profiles env default_selection seen rest
            else
              more ← agent_profiles env default_selection (profile_id :: seen) rest;
              Ok (profile_id :: more)
        end
  end.

Definition crew_profile_ids_for_server (env : Env) (input : Value)
    : result ApiError (list Uuid) :=
  match get "crew_definition" input with
  | None => Ok []
  | Some definition =>
      agents ← ok_or (Unprocessable "the frozen Crew definition requires agents")
                 (get_array "agents" definition);
      agent_profiles env (get "defaultBackendSelection" definition) [] agents
  end.

Definition ensure_crew_profiles_for_target (user_id project_id : Uuid) (input : Value)
    (target : ExecutorTarget) : Tx unit :=
  if negb (is_server_linux target) then mret tt
  else
    env ← ask;
    profile_ids ← lift (crew_profile_ids_for_server env input);
    tx_iter (fun profile_id =>
        Organization.ensure_profile_for_target user_id project_id (Some profile_id) target)
      profile_ids.

(** ** MCP servers *)

Definition MAX_NAME_BYTES : Z := 256.
Definition MAX_CREW_MCP_SERVERS : nat := 64.

Definition frozen_mcp (input : Value) : option (list Value) :=
  get "frozen_runtime_context" input ≫= get_array "mcp_metadata".

Definition mcp_reference (env : Env) (value : Value) : result ApiError (Uuid * string) :=
  text ← ok_or (Unprocessable "frozen MCP metadata is missing its entity_id")
           (get_str "entity_id" value);
  entity_id ← ok_or (Unprocessable "frozen MCP metadata contains an invalid entity_id")
                (parse_uuid env text);
  name ← ok_or (Unprocessable "frozen MCP metadata is missing its name")
           (non_empty_trimmed (get "definition" value ≫= get_str "name"));
  Ok (entity_id, name).

Definition frozen_mcp_references (env : Env) (input : Value)
    : result ApiError (list (Uuid * string)) :=
  match frozen_mcp input with
  | None => Ok []
  | Some values => res_mapM (mcp_reference env) values
  end.

Definition run_selects_mcp (input : Value) : bool :=
  match frozen_mcp input with
  | Some (_ :: _) => true
  | _ => false
  end.

Definition check_binding (db : Db) (project_id : Uuid) (reference : Uuid * string) : Tx unit :=
  match server_mcp_bindings db !! (project_id, reference.1) with
  | None =>
      fail (Unprocessable ("MCP metadata " +:+ uuid_to_string reference.1
                           +:+ " has no encrypted Linux server binding for this project"))
  | Some name =>
      reject_if (negb (String.eqb name reference.2))
        (Unprocessable ("MCP metadata " +:+ uuid_to_string reference.1
           +:+ " was renamed; replace its Linux server binding before running it"))
  end.

Definition ensure_server_bindings_for_run (project_id : Uuid) (input : Value) : Tx unit :=
  env ← ask;
  db ← get_db;
  references ← lift (frozen_mcp_references env input);
  tx_iter (check_binding db project_id) references.

(** Inserting into a [BTreeSet<String>]. *)
Fixpoint name_insert (name : string) (names : list string) : list string :=
  match names with
  | [] => [name]
  | other :: rest =>
      match String.compare name other with
      | Lt => name :: names
      | Eq => names
      | Gt => other :: name_insert name rest
      end
  end.

Definition name_set (names : list string) : list string :=
  foldl (fun set name => name_insert name set) [] names.

(** [char::is_control]: U+0000 to U+001F and U+007F to U+009F, in UTF-8. *)
Fixpoint has_control (s : string) : bool :=
  match s with
  | "" => false
  | String c rest =>
      in_byte_range 0 31 c || in_byte_range 127 127 c
      || (in_byte_range 194 194 c && match rest with
                                     | String c2 _ => in_byte_range 128 159 c2
                                     | "" => false
                                     end)
      || has_control rest
  end.

Definition mcp_server_name (value : Value) : option string :=
  match non_empty_trimmed (as_str value) with
  | Some name => if bool_decide (str_len name ≤ MAX_NAME_BYTES)%Z && negb (has_control name)
                 then Some name else None
  | None => None
  end.

Fixpoint insert_names (names : list string) (values : list Value)
    : result ApiError (list string) :=
  match values with
  | [] => Ok names
  | value :: rest =>
      name ← ok_or (Unprocessable "Crew agent mcpServerNames contains an invalid name")
               (mcp_server_name value);
      let names := name_insert name names in
      if bool_decide (MAX_CREW_MCP_SERVERS < length names)%nat
      then Err (Unprocessable ("Crew definitions may reference at most "
                               +:+ pretty MAX_CREW_MCP_SERVERS +:+ " MCP servers"))
      else insert_names names rest
  end.

Fixpoint agents_names (names : list string) (agents : list Value)
    : result ApiError (list string) :=
  match agents with
  | [] => Ok names
  | agent :: rest =>
      if negb (agent_enabled agent) then agents_names names rest
      else
        match get "mcpServerNames" agent with
        | None => agents_names names rest
        | Some values =>
            values ← ok_or (Unprocessable "Crew agent mcpServerNames must be an array")
                       (as_array values);
            names ← insert_names names values;
            agents_names names rest
        end
  end.

Definition crew_requested_mcp_names (input : Value) : result ApiError (list string) :=
  if bool_decide (get_str "task_runner" input ≠ Some "crew") then Ok []
  else
    agents ← ok_or (Unprocessable "the frozen Crew definition must contain an agents array")
               (get "crew_definition" input ≫= get_array "agents");
    agents_names [] agents.

Section texts.
Context {texts : LibTexts}.

Definition display_names (names : list string) : string :=
  match names with
  | [] => "none"
  | _ => join ", " (debug_str <$> names)
  end.

Definition ensure_crew_mcp_selection (env : Env) (input : Value) : result ApiError unit :=
  if bool_decide (get_str "task_runner" input ≠ Some "crew") then Ok tt
  else
    requested ← crew_requested_mcp_names input;
    references ← frozen_mcp_references env input;
    let selected := name_set references.*2 in
    let minus a b := filter (fun name => str_mem name b = false) a in
    guard_err (negb (bool_decide (requested = selected)))
      (Unprocessable ("Crew MCP selection must exactly match enabled agent mcpServerNames; "
         +:+ "missing selections: " +:+ display_names (minus requested selected)
         +:+ "; selected but unused: " +:+ display_names (minus selected requested))).

(** The capability a run needs for the MCP servers it selects, once they are checked. *)
Definition require_mcp (project_id : Uuid) (target : ExecutorTarget) (input : Value)
    (required : list Capability) : Tx (list Capability) :=
  if run_selects_mcp input then
    _ ← (if is_server_linux target then ensure_server_bindings_for_run project_id input
         else mret tt);
    mret (TaskConfig.push_new required capabilities.mcp_invoke)
  else mret required.

(** ** Preparing a run *)

(** [serde_json::from_value] with its error *)
Definition decode_capabilities_json (env : Env) (v : Value) : result ApiError (list Capability) :=
  map_err (fun error => Store.Json error) (decode_capabilities env v).

Definition ensure_released_task_reference (project_id : Uuid) (task : option FrozenReference)
    : Tx (option (string * list Capability * Value)) :=
  match task with
  | None => mret None
  | Some task =>
      env ← ask;
      db ← get_db;
      t ← require
            (match task_definitions db !! (ref_id task, ref_revision task) with
             | Some t => if bool_decide (td_project_id t = project_id) && td_released t
                            && not_deleted (td_deleted_at t)
                         then Some t else None
             | None => None
             end)
            (Unprocessable ("task " +:+ uuid_to_string (ref_id task) +:+ " revision "
               +:+ pretty (ref_revision task)
               +:+ " is missing, belongs to another project, or is not released"));
      required ← lift (decode_capabilities_json env (td_required_capabilities t));
      mret (Some (td_instructions t, required, td_config t))
  end.

Definition with_input (request : CreateRunRequest) (required : list Capability) (input : Value)
    : CreateRunRequest :=
  {| crr_thread_id := crr_thread_id request; crr_project_id := crr_project_id request;
     crr_project_revision := crr_project_revision request;
     crr_project_privacy := crr_project_privacy request; crr_task := crr_task request;
     crr_executor_target := crr_executor_target request;
     crr_required_capabilities := required; crr_input := input;
     crr_model_profile_id := crr_model_profile_id request;
     crr_snapshot_id := crr_snapshot_id request;
     crr_idempotency_key := crr_idempotency_key request |}.

Definition run_spec_of (run_id user_id : Uuid) (now : DateTime) (request : CreateRunRequest)
    : RunSpec :=
  {| spec_schema_version := SCHEMA_VERSION; spec_id := run_id;
     spec_thread_id := crr_thread_id request; spec_project_id := crr_project_id request;
     spec_project := {| ref_id := crr_project_id request;
                        ref_revision := crr_project_revision request |};
     spec_project_privacy := crr_project_privacy request; spec_task := crr_task request;
     spec_creator_user_id := user_id; spec_executor_target := crr_executor_target request;
     spec_required_capabilities := crr_required_capabilities request;
     spec_input := crr_input request; spec_model_profile_id := crr_model_profile_id request;
     spec_snapshot_id := crr_snapshot_id request;
     spec_idempotency_key := crr_idempotency_key request; spec_created_at := now |}.

(** The request with the instructions, configuration and capabilities of its task. *)
Definition apply_task (request : CreateRunRequest) : Tx CreateRunRequest :=
  task ← ensure_released_task_reference (crr_project_id request) (crr_task request);
  match task with
  | None => mret request
  | Some (instructions, required, config) =>
      required ← lift (TaskConfig.effective_task_capabilities
                         (crr_required_capabilities request ++ required) config);
      input ← lift (TaskConfig.freeze_task_input (crr_input request) instructions config);
      mret (with_input request required (JObject input))
  end.

Definition prepare_run (server_capabilities : list Capability) (user_id : Uuid)
    (request : CreateRunRequest) : Tx (RunSpec * RunState) :=
  env ← ask;
  _ ← lift (validate_create_run request);
  let project_id := crr_project_id request in
  let target := crr_executor_target request in
  _ ← Organization.ensure_run_context user_id project_id (crr_thread_id request)
        (crr_project_revision request) (crr_project_privacy request) target;
  request ← apply_task request;
  db ← get_db;
  input ← lift (Frozen.freeze_runtime_context_for_run env db user_id (crr_input request));
  required ← lift (TaskConfig.apply_frozen_crew_capabilities crew_error_text
                     (crr_required_capabilities request) input);
  _ ← lift (ensure_crew_mcp_selection env input);
  required ← require_mcp project_id target input required;
  _ ← Organization.ensure_profile_for_target user_id project_id (crr_model_profile_id request)
        target;
  _ ← ensure_crew_profiles_for_target user_id project_id input target;
  run_id ← fresh_uuid;
  let request := with_input request required input in
  initial_state ← lift (initial_run_state env db server_capabilities request);
  mret (run_spec_of run_id user_id (app_now env) request, initial_state).

(** ** Handlers *)

(** The preparation only reads; the run is created in a transaction of its own. *)
Definition create_run (server_capabilities : list Capability) (user_id : Uuid)
    (request : CreateRunRequest) : Tx RunRecord :=
  prepared ← prepare_run server_capabilities user_id request;
  RunStore.create_run prepared.1 prepared.2.

Definition create_thread_message (server_capabilities : list Capability)
    (thread_id user_id : Uuid) (content : Value) (request : CreateRunRequest)
    : Tx (MessageRecord * RunRecord) :=
  env ← ask;
  _ ← lift (validate_message_content env content);
  _ ← reject_if (bool_decide (crr_thread_id request ≠ thread_id))
        (Unprocessable "run.thread_id must match the thread in the request path");
  prepared ← prepare_run server_capabilities user_id request;
  create_thread_message_run prepared.1 prepared.2 content.

End texts.
End RunRequest.
