(* ===== verification/TaskStore.v ===== *)
(** * Tasks and schedules (server/cowork-server/src/workflow.rs)

    Task definitions are revisions that are never rewritten: a new version is a new row, and
    releasing or deleting only changes flags. Schedules are rows with a revision that an
    update has to name. Every change is published to the owner's devices. *)

From S2P Require Import Prelude.
From S2P Require Import Json.
From S2P Require Import Contracts.
From S2P Require Import Store.
From S2P Require Import Governance.
From S2P Require Import SyncPublish.
From S2P Require Import TaskConfig.
From S2P Require Import SyncMaterialize.
From S2P Require Import Organization.
From S2P Require Import RunRequest.

Import Organization.

Module TaskStore.

(** ** Answers *)

Record TaskDefinition := {
  tk_id : Uuid;
  tk_revision : Z;
  tk_etag : string;
  tk_project_id : Uuid;
  tk_name : string;
  tk_instructions : string;
  tk_required_capabilities : list Capability;
  tk_default_target : option ExecutorTarget;
  tk_config : Value;
  tk_released : bool;
  tk_created_at : DateTime;
  tk_deleted_at : option DateTime;
}.

Definition decode_target_json (env : Env) (v : Value) : result ApiError ExecutorTarget :=
  map_err (fun error => Store.Json error) (decode_target env v).

Definition row_to_task (env : Env) (id : Uuid) (revision : Z) (t : TaskRow)
    : result ApiError TaskDefinition :=
  required ← RunRequest.decode_capabilities_json env (td_required_capabilities t);
  target ← match td_default_executor_target t with
           | Some v => target ← decode_target_json env v; Ok (Some target)
           | None => Ok None
           end;
  Ok {| tk_id := id; tk_revision := revision; tk_etag := td_etag t;
        tk_project_id := td_project_id t; tk_name := td_name t;
        tk_instructions := td_instructions t; tk_required_capabilities := required;
        tk_default_target := target; tk_config := td_config t; tk_released := td_released t;
        tk_created_at := td_created_at t; tk_deleted_at := td_deleted_at t |}.

Record ScheduleRecord := {
  sd_id : Uuid;
  sd_revision : Z;
  sd_etag : string;
  sd_task_id : Uuid;
  sd_project_id : Uuid;
  sd_thread_id : Uuid;
  sd_cron : string;
  sd_timezone : string;
  sd_executor_target : ExecutorTarget;
  sd_input : Value;
  sd_model_profile_id : option Uuid;
  sd_enabled : bool;
  sd_next_run_at : option DateTime;
  sd_last_triggered_at : option DateTime;
  sd_blocked_reason : option string;
  sd_created_at : DateTime;
  sd_updated_at : DateTime;
  sd_deleted_at : option DateTime;
}.

Definition row_to_schedule (env : Env) (id : Uuid) (h : ScheduleRow)
    : result ApiError ScheduleRecord :=
  target ← decode_target_json env (sh_executor_target h);
  Ok {| sd_id := id; sd_revision := sh_revision h; sd_etag := sh_etag h;
        sd_task_id := sh_task_id h; sd_project_id := sh_project_id h;
        sd_thread_id := sh_thread_id h; sd_cron := sh_cron_expression h;
        sd_timezone := sh_timezone h; sd_executor_target := target; sd_input := sh_input h;
        sd_model_profile_id := sh_model_profile_id h; sd_enabled := sh_enabled h;
        sd_next_run_at := sh_next_run_at h; sd_last_triggered_at := sh_last_triggered_at h;
        sd_blocked_reason := sh_blocked_reason h; sd_created_at := sh_created_at h;
        sd_updated_at := sh_updated_at h; sd_deleted_at := sh_deleted_at h |}.

(** ** Tasks *)

Record TaskRequest := {
  tr_name : string;
  tr_instructions : string;
  tr_required_capabilities : list Capability;
  tr_default_target : option ExecutorTarget;
  tr_config : Value;
  tr_release : bool;
}.

Definition task_not_found (task_id : Uuid) : ApiError :=
  NotFound ("task " +:+ uuid_to_string task_id +:+ " was not found").

(** The row a request inserts. *)
Definition new_task_row (now : DateTime) (user_id id : Uuid) (revision : Z) (project_id : Uuid)
    (required : list Capability) (request : TaskRequest) : TaskRow :=
  {| td_etag := version_etag id revision; td_project_id := project_id;
     td_name := trim (tr_name request); td_instructions := tr_instructions request;
     td_required_capabilities := JArray (JString <$> required);
     td_default_executor_target :=
       Materialize.executor_target_to_value <$> tr_default_target request;
     td_config := tr_config request; td_released := tr_release request;
     td_created_by := user_id; td_created_at := now; td_deleted_at := None |}.

(** A revision of the task that the partial unique index counts. *)
Definition released_revision (db : Db) (task_id : Uuid) : bool :=
  existsb (fun kv => bool_decide (kv.1.1 = task_id) && td_released kv.2
                     && not_deleted (td_deleted_at kv.2)) (map_to_list (task_definitions db)).

(** [INSERT INTO task_definitions ... RETURNING *] *)
Definition insert_task (id : Uuid) (revision : Z) (row : TaskRow) : Tx unit :=
  db ← get_db;
  _ ← reject_if (bool_decide (is_Some (task_definitions db !! (id, revision))))
        (Database (UniqueViolation "task_definitions_pkey"));
  _ ← reject_if (td_released row && released_revision db id)
        (Database (UniqueViolation "task_definitions_current_release"));
  modify (fun db => set_task_definitions (<[(id, revision) := row]> (task_definitions db)) db).

Definition validate_default_target (user_id project_id : Uuid) (target : option ExecutorTarget)
    : Tx unit :=
  match target with
  | Some target => validate_target_for_project user_id project_id target
  | None => mret tt
  end.

(** Answers with a row and publishes its task. *)
Definition answer_task (task_id : Uuid) (revision : Z) (row : TaskRow) : Tx TaskDefinition :=
  env ← ask;
  task ← lift (row_to_task env task_id revision row);
  _ ← publish_canonical_task_tx task_id;
  mret task.

Definition create_task (user_id project_id : Uuid) (request : TaskRequest) : Tx TaskDefinition :=
  env ← ask;
  _ ← ensure_project_role user_id project_id Editor;
  _ ← lift (TaskConfig.validate_task_fields (tr_name request) (tr_instructions request));
  required ← lift (TaskConfig.effective_task_capabilities (tr_required_capabilities request)
                     (tr_config request));
  _ ← validate_default_target user_id project_id (tr_default_target request);
  id ← fresh_uuid;
  let row := new_task_row (db_now env) user_id id 1 project_id required request in
  _ ← insert_task id 1 row;
  answer_task id 1 row.

(** [... WHERE id = $1 AND deleted_at IS NULL ORDER BY revision DESC LIMIT 1] *)
Definition latest_task (db : Db) (task_id : Uuid) : option (Z * TaskRow) :=
  head (task_revisions (fun t => not_deleted (td_deleted_at t)) db task_id).

Definition live_revision (db : Db) (task_id : Uuid) (revision : Z) : option TaskRow :=
  match task_definitions db !! (task_id, revision) with
  | Some t => if not_deleted (td_deleted_at t) then Some t else None
  | None => None
  end.

Definition get_task (user_id task_id : Uuid) (revision : option Z) : Tx TaskDefinition :=
  env ← ask;
  db ← get_db;
  found ← require (match revision with
                   | Some revision => (fun t => (revision, t)) <$> live_revision db task_id revision
                   | None => latest_task db task_id
                   end) (task_not_found task_id);
  task ← lift (row_to_task env task_id found.1 found.2);
  _ ← ensure_project_role user_id (tk_project_id task) Viewer;
  mret task.

(** [SELECT DISTINCT ON (id) * ... ORDER BY id, revision DESC] *)
Definition project_tasks (db : Db) (project_id : Uuid) : list (Uuid * (Z * TaskRow)) :=
  let live t := bool_decide (td_project_id t = project_id) && not_deleted (td_deleted_at t) in
  omap (fun id => (fun rt => (id, rt)) <$> head (task_revisions live db id))
    (Materialize.dedup (merge_sort N.le (map_to_list (task_definitions db)).*1.*1)).

(** The role check commits its audit entry before the rows are read. *)
Definition list_tasks (env : Env) (db : Db) (user_id project_id : Uuid)
    : Db * result ApiError (list TaskDefinition) :=
  let '(db, role) := run_tx env db (ensure_project_role user_id project_id Viewer) in
  (db, _ ← role;
       res_mapM (fun row => row_to_task env row.1 row.2.1 row.2.2)
         (project_tasks db project_id)).

(** [UPDATE task_definitions SET released = FALSE WHERE id = $1 AND released] *)
Definition unrelease (task_id : Uuid) : Tx unit :=
  Materialize.update_tasks (fun id t => bool_decide (id = task_id) && td_released t) td_deleted_at.

Definition create_task_version (user_id task_id : Uuid) (base_revision : Z)
    (request : TaskRequest) : Tx TaskDefinition :=
  env ← ask;
  _ ← lift (TaskConfig.validate_task_fields (tr_name request) (tr_instructions request));
  required ← lift (TaskConfig.effective_task_capabilities (tr_required_capabilities request)
                     (tr_config request));
  db ← get_db;
  current ← require (latest_task db task_id) (task_not_found task_id);
  let current_revision := current.1 in
  let project_id := td_project_id current.2 in
  _ ← ensure_project_role user_id project_id Editor;
  _ ← reject_if (bool_decide (current_revision ≠ base_revision))
        (Conflict ("task revision changed from " +:+ pretty base_revision +:+ " to "
                   +:+ pretty current_revision));
  _ ← validate_default_target user_id project_id (tr_default_target request);
  _ ← when (tr_release request) (unrelease task_id);
  revision ← sql_bigint (current_revision + 1);
  let row := new_task_row (db_now env) user_id task_id revision project_id required request in
  _ ← insert_task task_id revision row;
  answer_task task_id revision row.

Definition release_row (t : TaskRow) : TaskRow :=
  {| td_etag := td_etag t; td_project_id := td_project_id t; td_name := td_name t;
     td_instructions := td_instructions t; td_required_capabilities := td_required_capabilities t;
     td_default_executor_target := td_default_executor_target t; td_config := td_config t;
     td_released := true; td_created_by := td_created_by t; td_created_at := td_created_at t;
     td_deleted_at := td_deleted_at t |}.

Definition release_task_version (user_id task_id : Uuid) (revision : Z) : Tx TaskDefinition :=
  db ← get_db;
  t ← require (live_revision db task_id revision)
        (NotFound ("task " +:+ uuid_to_string task_id +:+ " revision " +:+ pretty revision
                   +:+ " was not found"));
  _ ← ensure_project_role user_id (td_project_id t) Editor;
  _ ← unrelease task_id;
  _ ← modify (fun db => set_task_definitions
        (alter release_row (task_id, revision) (task_definitions db)) db);
  answer_task task_id revision (release_row t).

Definition delete_task (user_id task_id : Uuid) (expected_revision : Z) : Tx unit :=
  env ← ask;
  _ ← reject_if (bool_decide (expected_revision < 1)%Z)
        (Unprocessable "expected_revision must be positive");
  db ← get_db;
  current ← require
    (match head (task_revisions
              (fun t => not_deleted (td_deleted_at t)
                        && bool_decide (is_Some (live_project db (td_project_id t)))) db task_id) with
     | Some (revision, t) => (fun p => (revision, t, p)) <$> live_project db (td_project_id t)
     | None => None
     end) (task_not_found task_id);
  let '(revision, t, p) := current in
  let changed := Conflict "task revision changed; reload before deleting" in
  _ ← ensure_project_role user_id (td_project_id t) Editor;
  _ ← reject_if (bool_decide (revision ≠ expected_revision)) changed;
  db ← get_db;
  locked ← require (latest_task db task_id) (task_not_found task_id);
  _ ← reject_if (bool_decide (locked.1 ≠ expected_revision)) changed;
  let of_task h := bool_decide (sh_task_id h = task_id) in
  let schedule_ids := Materialize.schedules_of of_task db in
  _ ← Materialize.update_tasks
        (fun id t => bool_decide (id = task_id) && not_deleted (td_deleted_at t))
        (fun _ => Some (db_now env));
  _ ← modify (fun db => set_schedules
        (update_where (fun _ h => of_task h && not_deleted (sh_deleted_at h))
          (fun id h => Materialize.block_schedule (db_now env) false (Some "task deleted")
                         (sh_deleted_at h) id h) (schedules db)) db);
  when (bool_decide (pr_privacy p = PrivateLocal))
    (_ ← publish_server_tombstone_tx (pr_owner_user_id p) "task" task_id;
     Materialize.publish_schedules schedule_ids).

(** ** Schedules *)

Definition ensure_task_project (task_id project_id : Uuid) : Tx unit :=
  db ← get_db;
  reject_if (negb (Materialize.live_task db task_id project_id))
    (Unprocessable "task does not belong to the selected project").

Record ScheduleRequest := {
  sq_cron : string;
  sq_timezone : string;
  sq_executor_target : ExecutorTarget;
  sq_input : Value;
  sq_model_profile_id : option Uuid;
  sq_enabled : bool;
}.

(** Answers with a row and publishes its schedule. *)
Definition answer_schedule (id : Uuid) (row : ScheduleRow) : Tx ScheduleRecord :=
  env ← ask;
  schedule ← lift (row_to_schedule env id row);
  _ ← publish_canonical_schedule_tx id;
  mret schedule.

Definition put_schedule (id : Uuid) (row : ScheduleRow) : Tx unit :=
  modify (fun db => set_schedules (<[id := row]> (schedules db)) db).

(** The columns INSERT and UPDATE write. *)
Definition schedule_fields (task_id project_id thread_id : Uuid) (cron timezone : string)
    (request : ScheduleRequest) : Materialize.ScheduleFields :=
  {| Materialize.sf_task_id := task_id; Materialize.sf_project_id := project_id;
     Materialize.sf_thread_id := thread_id; Materialize.sf_cron := cron;
     Materialize.sf_timezone := timezone;
     Materialize.sf_target := Materialize.executor_target_to_value (sq_executor_target request);
     Materialize.sf_input := sq_input request;
     Materialize.sf_model_profile_id := sq_model_profile_id request;
     Materialize.sf_enabled := sq_enabled request |}.

Definition create_schedule (user_id task_id project_id thread_id : Uuid)
    (request : ScheduleRequest) : Tx ScheduleRecord :=
  env ← ask;
  _ ← ensure_project_role user_id project_id Runner;
  _ ← ensure_thread_project thread_id project_id;
  _ ← ensure_task_project task_id project_id;
  _ ← validate_target_for_project user_id project_id (sq_executor_target request);
  _ ← ensure_profile_for_target user_id project_id (sq_model_profile_id request)
        (sq_executor_target request);
  next_run_at ←
    (if sq_enabled request
     then (next ← lift (TaskConfig.next_occurrence env (sq_cron request) (sq_timezone request)
                          (app_now env));
           mret (Some next))
     else mret None);
  id ← fresh_uuid;
  cron ← lift (TaskConfig.normalized_cron env (sq_cron request));
  timezone ← lift (TaskConfig.validated_timezone env (sq_timezone request));
  db ← get_db;
  _ ← reject_if (bool_decide (is_Some (schedules db !! id)))
        (Database (UniqueViolation "schedules_pkey"));
  let row := Materialize.schedule_row (db_now env) user_id id 1
               (schedule_fields task_id project_id thread_id cron timezone request)
               next_run_at None None in
  _ ← put_schedule id row;
  answer_schedule id row.

Definition created_before (a b : Uuid * ScheduleRow) : Prop :=
  (sh_created_at a.2 < sh_created_at b.2)%Z
  \/ (sh_created_at a.2 = sh_created_at b.2 /\ (a.1 ≤ b.1)%N).

#[global] Instance created_before_dec a b : Decision (created_before a b).
Proof. unfold created_before. solve_decision. Defined.

Definition list_schedules (env : Env) (db : Db) (user_id project_id : Uuid)
    : Db * result ApiError (list ScheduleRecord) :=
  let '(db, role) := run_tx env db (ensure_project_role user_id project_id Viewer) in
  (db, _ ← role;
       res_mapM (fun row => row_to_schedule env row.1 row.2)
         (merge_sort created_before
           (filter (fun kv => bool_decide (sh_project_id kv.2 = project_id)
                              && not_deleted (sh_deleted_at kv.2) = true)
                   (map_to_list (schedules db))))).

Definition live_schedule (db : Db) (schedule_id : Uuid) : option ScheduleRow :=
  match schedules db !! schedule_id with
  | Some h => if not_deleted (sh_deleted_at h) then Some h else None
  | None => None
  end.

Definition schedule_not_found (schedule_id : Uuid) : ApiError :=
  NotFound ("schedule " +:+ uuid_to_string schedule_id +:+ " was not found").

Definition update_schedule (user_id schedule_id : Uuid) (expected_revision : Z)
    (request : ScheduleRequest) : Tx ScheduleRecord :=
  env ← ask;
  db ← get_db;
  h ← require (live_schedule db schedule_id) (schedule_not_found schedule_id);
  let project_id := sh_project_id h in
  _ ← ensure_project_role user_id project_id Runner;
  _ ← validate_target_for_project user_id project_id (sq_executor_target request);
  _ ← ensure_profile_for_target user_id project_id (sq_model_profile_id request)
        (sq_executor_target request);
  cron ← lift (TaskConfig.normalized_cron env (sq_cron request));
  timezone ← lift (TaskConfig.validated_timezone env (sq_timezone request));
  next_run_at ←
    (if sq_enabled request
     then (next ← lift (TaskConfig.next_occurrence_normalized env cron timezone (app_now env));
           mret (Some next))
     else mret None);
  _ ← reject_if (bool_decide (sh_revision h ≠ expected_revision))
        (Conflict "schedule revision changed; reload before updating");
  revision ← sql_bigint (sh_revision h + 1);
  let row := Materialize.schedule_row (db_now env) (sh_created_by h) schedule_id revision
               (schedule_fields (sh_task_id h) project_id (sh_thread_id h) cron timezone request)
               next_run_at None (Some h) in
  _ ← put_schedule schedule_id row;
  answer_schedule schedule_id row.

(** A deleted schedule keeps its etag. *)
Definition end_schedule (now : DateTime) (h : ScheduleRow) : ScheduleRow :=
  {| sh_revision := sh_revision h + 1; sh_etag := sh_etag h; sh_task_id := sh_task_id h;
     sh_project_id := sh_project_id h; sh_thread_id := sh_thread_id h;
     sh_cron_expression := sh_cron_expression h; sh_timezone := sh_timezone h;
     sh_executor_target := sh_executor_target h; sh_input := sh_input h;
     sh_model_profile_id := sh_model_profile_id h; sh_enabled := false;
     sh_next_run_at := None; sh_last_triggered_at := sh_last_triggered_at h;
     sh_blocked_reason := sh_blocked_reason h; sh_created_by := sh_created_by h;
     sh_created_at := sh_created_at h; sh_updated_at := now; sh_deleted_at := Some now |}.

Definition delete_schedule (user_id schedule_id : Uuid) : Tx unit :=
  env ← ask;
  db ← get_db;
  found ← require
    (match live_schedule db schedule_id with
     | Some h => (fun p => (h, p)) <$> live_project db (sh_project_id h)
     | None => None
     end) (schedule_not_found schedule_id);
  let '(h, p) := found in
  _ ← ensure_project_role user_id (sh_project_id h) Runner;
  _ ← sql_bigint (sh_revision h + 1);
  _ ← put_schedule schedule_id (end_schedule (db_now env) h);
  when (bool_decide (pr_privacy p = PrivateLocal))
    (_ ← publish_server_tombstone_tx (pr_owner_user_id p) "schedule" schedule_id; mret tt).

End TaskStore.
