(* ===== verification/Schedules.v ===== *)
(** * Triggering of schedules (server/cowork-server/src/workflow.rs)

    The worker polls for due schedules. For each it prepares a run from the task's released
    revision, creates it in a transaction of its own under a key that names the occurrence,
    and then moves the schedule to its next occurrence; a schedule that cannot run keeps the
    reason. A pass stops at the first error. *)

From S2P Require Import Prelude.
From S2P Require Import Json.
From S2P Require Import Contracts.
From S2P Require Import Store.
From S2P Require Import Governance.
From S2P Require Import SyncPublish.
From S2P Require Import RunStore.
From S2P Require Import Routing.
From S2P Require Import TaskConfig.
From S2P Require Import SyncMaterialize.
From S2P Require Import Organization.
From S2P Require Import FrozenContext.
From S2P Require Import RunRequest.
From S2P Require Import TaskStore.

Import Organization TaskStore.

Module Schedules.
Section texts.
Context {texts : LibTexts}.

(** The Display of an error, which is all a blocked schedule keeps of it. *)
Definition api_error_text (e : ApiError) : string :=
  match e with
  | BadRequest message | Unauthorized message | NotFound message | Conflict message
  | Unprocessable message | Quota message => message
  | Database error => db_error_text error
  | Store.Json message => message
  | Internal _ => "internal server error"
  end.

(** [ScheduleBlock(reason)]: an error with this text. *)
Definition blocked (reason : string) : ApiError := Unprocessable reason.

(** ** Occurrences *)

(** The cron crate's iterator: each occurrence is the next one after the one before. The
    count stops at [MAX_SCHEDULE_CATCH_UPS] occurrences, which bounds [n]. *)
Fixpoint occurrences (env : Env) (cron timezone : string) (n : nat) (after : DateTime)
    : list DateTime :=
  match n with
  | O => []
  | S n =>
      match cron_next env cron timezone after with
      | Some t => t :: occurrences env cron timezone n t
      | None => []
      end
  end.

(** The occurrences from the first due one to now: instants are whole microseconds, so the
    ones after a nanosecond before [first_due] are the ones after a microsecond before it. *)
Definition count_due (env : Env) (cron timezone : string) (first_due now : DateTime)
    : result ApiError (Z * bool) :=
  TaskConfig.count_occurrences
    (match cron_error env cron with
     | Some error => Err error
     | None => Ok (occurrences env cron timezone (Z.to_nat TaskConfig.MAX_SCHEDULE_CATCH_UPS)
                     (first_due - 1))
     end) now.

(** ** Preparing a scheduled run *)

Definition newer_manifest (a b : Uuid * ManifestRow) : Prop :=
  (mf_created_at b.2 ≤ mf_created_at a.2)%Z.

#[global] Instance newer_manifest_dec a b : Decision (newer_manifest a b).
Proof. unfold newer_manifest. apply _. Defined.

Definition ready_snapshot (env : Env) (db : Db) (project_id : Uuid) : option Uuid :=
  fst <$> head (merge_sort newer_manifest
    (filter (fun kv => bool_decide (mf_project_id kv.2 = project_id)
                       && bool_decide (mf_status kv.2 = "ready")
                       && match mf_expires_at kv.2 with
                          | None => true
                          | Some expires_at => bool_decide (db_now env < expires_at)%Z
                          end = true)
            (map_to_list (snapshot_manifests db)))).

Definition schedule_created_by (schedule_id : Uuid) : Tx Uuid :=
  db ← get_db;
  h ← require (schedules db !! schedule_id) (schedule_not_found schedule_id);
  mret (sh_created_by h).

(** [... WHERE id = $1 AND project_id = $2 AND released AND deleted_at IS NULL LIMIT 1] *)
Definition released_task (db : Db) (task_id project_id : Uuid) : option (Z * TaskRow) :=
  head (task_revisions (fun t => bool_decide (td_project_id t = project_id) && td_released t
                                 && not_deleted (td_deleted_at t)) db task_id).

Definition ensure_pool_of_target (project_id : Uuid) (target : ExecutorTarget) : Tx unit :=
  match target with
  | ServerLinux (Some pool_id) => ensure_pool_allowed_for_project pool_id project_id KServerLinux
  | ManagedWindowsPool pool_id => ensure_pool_allowed_for_project pool_id project_id KManagedWindows
  | PersonalDevice _ | ServerLinux None => mret tt
  end.

Definition occurrence_key (schedule_id : Uuid) (due_at : DateTime) : string :=
  "schedule:" +:+ uuid_to_string schedule_id +:+ ":" +:+ pretty (due_at / 1000)%Z.

Definition scheduled_snapshot (env : Env) (db : Db) (p : ProjectRow) (project_id : Uuid)
    (target : ExecutorTarget) : Tx (option Uuid) :=
  if bool_decide (pr_privacy p = PrivateLocal) && negb (is_personal_device target) then
    snapshot ← require (ready_snapshot env db project_id)
                 (blocked "private_project_snapshot_required");
    mret (Some snapshot)
  else
    mret (version_id ← pr_current_version_id p;
          pv_snapshot_manifest_id <$> project_versions db !! version_id).

Definition prepare_scheduled_run (server_capabilities : list Capability)
    (schedule : ScheduleRecord) (due_at now : DateTime) (missed_occurrences : Z)
    (catch_up_truncated : bool) : Tx RunSpec :=
  env ← ask;
  let project_id := sd_project_id schedule in
  let target := sd_executor_target schedule in
  created_by ← schedule_created_by (sd_id schedule);
  _ ← ensure_project_role created_by project_id Runner;
  db ← get_db;
  p ← require (live_project db project_id) (blocked "project_missing");
  found ← require (released_task db (sd_task_id schedule) project_id)
            (blocked "task_has_no_released_version");
  task ← lift (row_to_task env (sd_task_id schedule) found.1 found.2);
  required ← lift (TaskConfig.effective_task_capabilities (tk_required_capabilities task)
                     (tk_config task));
  creator_user_id ← schedule_created_by (sd_id schedule);
  input ← lift (TaskConfig.scheduled_input env (sd_input schedule) (tk_instructions task)
                  (tk_config task)
                  {| TaskConfig.stc_schedule_id := sd_id schedule;
                     TaskConfig.stc_due_at := due_at; TaskConfig.stc_triggered_at := now;
                     TaskConfig.stc_missed_occurrences := missed_occurrences;
                     TaskConfig.stc_catch_up_truncated := catch_up_truncated |});
  input ← lift (Frozen.freeze_runtime_context_for_run env db creator_user_id input);
  _ ← RunRequest.ensure_crew_profiles_for_target creator_user_id project_id input target;
  required ← lift (TaskConfig.apply_frozen_crew_capabilities crew_error_text required input);
  _ ← lift (RunRequest.ensure_crew_mcp_selection env input);
  required ← RunRequest.require_mcp project_id target input required;
  _ ← ensure_pool_of_target project_id target;
  available ← (if RunRequest.is_server_linux target
               then mret (server_supports server_capabilities required)
               else lift (target_has_executor env db target required input));
  _ ← reject_if (negb available) (blocked "required_executor_or_capability_unavailable");
  snapshot_id ← scheduled_snapshot env db p project_id target;
  id ← fresh_uuid;
  mret {| spec_schema_version := SCHEMA_VERSION; spec_id := id;
          spec_thread_id := sd_thread_id schedule; spec_project_id := project_id;
          spec_project := {| ref_id := project_id; ref_revision := pr_revision p |};
          spec_project_privacy := pr_privacy p;
          spec_task := Some {| ref_id := tk_id task; ref_revision := tk_revision task |};
          spec_creator_user_id := creator_user_id; spec_executor_target := target;
          spec_required_capabilities := required; spec_input := input;
          spec_model_profile_id := sd_model_profile_id schedule;
          spec_snapshot_id := snapshot_id;
          spec_idempotency_key := occurrence_key (sd_id schedule) due_at;
          spec_created_at := now |}.

(** ** Triggering *)

Definition due_before (a b : Uuid * ScheduleRow) : Prop :=
  let due kv := from_option id 0%Z (sh_next_run_at kv.2) in
  (due a < due b)%Z \/ (due a = due b /\ (a.1 ≤ b.1)%N).

#[global] Instance due_before_dec a b : Decision (due_before a b).
Proof. unfold due_before. solve_decision. Defined.

Definition is_due (now : DateTime) (h : ScheduleRow) : bool :=
  sh_enabled h && not_deleted (sh_deleted_at h)
  && match sh_next_run_at h with
     | Some due_at => bool_decide (due_at ≤ now)%Z
     | None => false
     end.

(** The due schedules that no other worker holds, in the order they are taken. *)
Definition due_schedules (env : Env) (db : Db) (now : DateTime) : list (Uuid * ScheduleRow) :=
  merge_sort due_before
    (filter (fun kv => is_due now kv.2 && negb (row_locked env kv.1) = true)
            (map_to_list (schedules db))).

(** A schedule after its occurrence ran or was blocked. *)
Definition moved (now : DateTime) (next_run_at : DateTime) (triggered_at : option DateTime)
    (blocked_reason : option string) (h : ScheduleRow) : ScheduleRow :=
  {| sh_revision := sh_revision h; sh_etag := sh_etag h; sh_task_id := sh_task_id h;
     sh_project_id := sh_project_id h; sh_thread_id := sh_thread_id h;
     sh_cron_expression := sh_cron_expression h; sh_timezone := sh_timezone h;
     sh_executor_target := sh_executor_target h; sh_input := sh_input h;
     sh_model_profile_id := sh_model_profile_id h; sh_enabled := sh_enabled h;
     sh_next_run_at := Some next_run_at;
     sh_last_triggered_at := Frozen.or_else triggered_at (sh_last_triggered_at h);
     sh_blocked_reason := blocked_reason; sh_created_by := sh_created_by h;
     sh_created_at := sh_created_at h; sh_updated_at := now; sh_deleted_at := sh_deleted_at h |}.

Definition move_schedule (schedule_id : Uuid) (next_run_at : DateTime)
    (triggered_at : option DateTime) (reason : option string) : Tx unit :=
  env ← ask;
  _ ← modify (fun db => set_schedules
        (alter (moved (db_now env) next_run_at triggered_at reason) schedule_id (schedules db)) db);
  _ ← publish_canonical_schedule_tx schedule_id;
  mret tt.

(** What an iteration computes of the row it took before it changes anything. *)
Record Occurrence := {
  oc_schedule : ScheduleRecord;
  oc_due_at : DateTime;
  oc_missed : Z;
  oc_truncated : bool;
  oc_next_run_at : DateTime;
}.

Definition read_occurrence (env : Env) (id : Uuid) (row : ScheduleRow) (now : DateTime)
    : result ApiError Occurrence :=
  schedule ← row_to_schedule env id row;
  due_at ← ok_or (Internal "due schedule has no next_run_at") (sd_next_run_at schedule);
  timezone ← TaskConfig.validated_timezone env (sd_timezone schedule);
  cron ← TaskConfig.normalized_cron env (sd_cron schedule);
  missed ← count_due env cron timezone due_at now;
  next_run_at ← TaskConfig.next_occurrence_normalized env cron timezone now;
  Ok {| oc_schedule := schedule; oc_due_at := due_at; oc_missed := missed.1;
        oc_truncated := missed.2; oc_next_run_at := next_run_at |}.

(** The environments of the queries, of the transaction that creates the run and of the one
    that holds the schedule's lock. *)
Record TriggerEnv := { te_read : Env; te_create : Env; te_move : Env }.

Definition prepare_occurrence (env : Env) (db : Db) (server_capabilities : list Capability)
    (o : Occurrence) (now : DateTime) : result ApiError RunSpec :=
  (run_tx env db (prepare_scheduled_run server_capabilities (oc_schedule o) (oc_due_at o) now
                    (oc_missed o) (oc_truncated o))).2.

(** The tables after the run of an occurrence is created, before its schedule moves. *)
Definition create_occurrence (envs : TriggerEnv) (db : Db) (spec : RunSpec)
    : Db * result ApiError RunRecord :=
  run_tx (te_create envs) db (create_run spec Queued).

(** One iteration of the loop: [None] when nothing is due, else whether a run was
    created. *)
Definition trigger_one (envs : TriggerEnv) (db : Db) (server_capabilities : list Capability)
    (now : DateTime) : Db * result ApiError (option bool) :=
  match head (due_schedules (te_read envs) db now) with
  | None => (db, Ok None)
  | Some (id, row) =>
      match read_occurrence (te_read envs) id row now with
      | Err e => (db, Err e)
      | Ok o =>
          match prepare_occurrence (te_read envs) db server_capabilities o now with
          | Ok spec =>
              let '(db, created) := create_occurrence envs db spec in
              match created with
              | Err e => (db, Err e)
              | Ok _ =>
                  run_tx (te_move envs) db
                    (_ ← move_schedule id (oc_next_run_at o) (Some now) None; mret (Some true))
              end
          | Err e =>
              run_tx (te_move envs) db
                (_ ← move_schedule id (oc_next_run_at o) None (Some (api_error_text e));
                 mret (Some false))
          end
      end
  end.

Fixpoint trigger_loop (envs : nat -> TriggerEnv) (n : nat) (db : Db)
    (server_capabilities : list Capability) (now : DateTime) (triggered : nat)
    : Db * result ApiError nat :=
  match n with
  | O => (db, Ok triggered)
  | S n =>
      match trigger_one (envs n) db server_capabilities now with
      | (db, Err e) => (db, Err e)
      | (db, Ok None) => (db, Ok triggered)
      | (db, Ok (Some ran)) =>
          trigger_loop envs n db server_capabilities now
            (if ran : bool then S triggered else triggered)
      end
  end.

Definition trigger_due_schedules (envs : nat -> TriggerEnv) (db : Db)
    (server_capabilities : list Capability) (now : DateTime) (limit : Z)
    : Db * result ApiError nat :=
  trigger_loop envs (Z.to_nat (clamp 1 100 limit)) db server_capabilities now 0.

End texts.
End Schedules.
