(* ===== verification/TaskSafety.v ===== *)
(** * Task revisions are a history

    [tasks_grow]: what every transaction does to the table of task definitions. A revision
    keeps its content for ever, a deleted one stays deleted, and a task has at most one
    released revision. *)

From S2P Require Import Prelude.
From S2P Require Import Json.
From S2P Require Import Contracts.
From S2P Require Import Store.
From S2P Require Import Governance.
From S2P Require Import SyncPublish.
From S2P Require Import RunStore.
From S2P Require Import Workflow.
From S2P Require Import RunSystem.
From S2P Require Import SyncMaterialize.
From S2P Require Import SyncProtocol.
From S2P Require Import SyncLog.
From S2P Require Import SyncSystem.
From S2P Require Import Organization.
From S2P Require Import TaskStore.

Import Materialize Sync Organization TaskStore.

(** ** The relation *)

(** Everything but the flags. *)
Record same_content (t t' : TaskRow) : Prop := {
  sm_etag : td_etag t' = td_etag t;
  sm_project : td_project_id t' = td_project_id t;
  sm_name : td_name t' = td_name t;
  sm_instructions : td_instructions t' = td_instructions t;
  sm_capabilities : td_required_capabilities t' = td_required_capabilities t;
  sm_target : td_default_executor_target t' = td_default_executor_target t;
  sm_config : td_config t' = td_config t;
  sm_author : td_created_by t' = td_created_by t;
  sm_created : td_created_at t' = td_created_at t;
}.

(** A later state of a revision. *)
Record revision_later (t t' : TaskRow) : Prop := {
  rl_content : same_content t t';
  rl_deleted : forall d, td_deleted_at t = Some d ->
               td_deleted_at t' = Some d /\ (td_released t' = true -> td_released t = true);
}.

#[global] Instance same_content_preorder : PreOrder same_content.
Proof. split; [done|]. intros t1 t2 t3 [] []. split; congruence. Qed.

#[global] Instance revision_later_preorder : PreOrder revision_later.
Proof.
  split; [done|]. intros t1 t2 t3 [] [H2 Hd2]. split; [by etrans|].
  intros d Hd. destruct (rl_deleted0 d Hd) as [Hd' ?]. destruct (Hd2 d Hd'). auto.
Qed.

(** A revision the scheduler may run. *)
Definition runnable (t : TaskRow) : Prop := td_released t = true /\ td_deleted_at t = None.

Definition one_release (db : Db) : Prop :=
  forall id r1 r2 t1 t2,
    task_definitions db !! (id, r1) = Some t1 -> runnable t1 ->
    task_definitions db !! (id, r2) = Some t2 -> runnable t2 -> r1 = r2.

Record tasks_grow (db db' : Db) : Prop := {
  tg_kept : forall key t, task_definitions db !! key = Some t ->
            exists t', task_definitions db' !! key = Some t' /\ revision_later t t';
  tg_release : one_release db -> one_release db';
}.

#[global] Instance tasks_grow_preorder : PreOrder tasks_grow.
Proof.
  split.
  - intros db. split; [|done]. intros key t Hk. exists t. split; [done|reflexivity].
  - intros d1 d2 d3 [Hk1 Hr1] [Hk2 Hr2]. split; [|auto].
    intros key t Ht. destruct (Hk1 _ _ Ht) as (t' & Ht' & ?).
    destruct (Hk2 _ _ Ht') as (t'' & ? & ?). exists t''. split; [done|by etrans].
Qed.

Lemma same_tasks_grow db db' : task_definitions db' = task_definitions db -> tasks_grow db db'.
Proof.
  intros H. split; unfold one_release; rewrite H; [|done].
  intros key t Hk. exists t. split; [done|reflexivity].
Qed.

#[export] Hint Extern 3 (frames tasks_grow (modify _)) =>
  apply frames_modify; intros ?; apply same_tasks_grow; reflexivity : store.

(** Changing flags of rows so that no revision becomes runnable. *)
Lemma update_where_grow db f (p : Uuid * Z -> TaskRow -> bool) :
  (forall k t, p k t = true -> revision_later t (f k t)) ->
  (forall k t, runnable (f k t) -> runnable t) ->
  tasks_grow db (set_task_definitions (update_where p f (task_definitions db)) db).
Proof.
  intros Hf Hr. assert (forall k t', update_where p f (task_definitions db) !! k = Some t' ->
    exists t, task_definitions db !! k = Some t /\ (runnable t' -> runnable t)) as Hback.
  { intros k t'. unfold update_where. rewrite map_lookup_imap.
    destruct (task_definitions db !! k) as [t|]; [|done]. simpl. intros [= <-].
    exists t. split; [done|]. destruct (p k t); [apply Hr|done]. }
  split; simpl.
  - intros k t Hk. unfold update_where. rewrite map_lookup_imap, Hk. simpl. eexists.
    split; [done|]. destruct (p k t) eqn:Hp; [by apply Hf|reflexivity].
  - intros Hone id r1 r2 t1 t2 H1 Hr1 H2 Hr2.
    apply Hback in H1 as (u1 & ? & ?). apply Hback in H2 as (u2 & ? & ?).
    eapply Hone; eauto.
Qed.

Lemma update_tasks_grow p d :
  (forall i t x, p i t = true -> td_deleted_at t = Some x -> d t = Some x) ->
  frames tasks_grow (update_tasks p d).
Proof.
  intros Hd. unfold update_tasks. apply frames_modify. intros db. apply update_where_grow.
  - intros k t Hp. split; [done|]. simpl. intros x Hx. split; [by eapply Hd|done].
  - intros k t [Hr _]. done.
Qed.

(** After the released revision of a task is withdrawn none is left. *)
Definition withdrawn (db : Db) (task_id : Uuid) : Prop :=
  forall r t, task_definitions db !! (task_id, r) = Some t -> ~ runnable t.

(** Inserting a new revision. *)
Lemma insert_grow db id r t :
  task_definitions db !! (id, r) = None -> (runnable t -> withdrawn db id) ->
  tasks_grow db (set_task_definitions (<[(id, r) := t]> (task_definitions db)) db).
Proof.
  intros Hnew Hw. split; simpl.
  - intros k u Hk. exists u. split; [|reflexivity]. rewrite lookup_insert_ne; [done|].
    intros <-. congruence.
  - intros Hone i r1 r2 t1 t2 H1 Hr1 H2 Hr2. simpl in H1, H2.
    apply lookup_insert_Some in H1 as [[? ?]|[Hn1 H1]];
      apply lookup_insert_Some in H2 as [[? ?]|[Hn2 H2]]; simplify_eq; try done.
    + by destruct (Hw Hr1 _ _ H2).
    + by destruct (Hw Hr2 _ _ H1).
    + by eapply Hone.
Qed.

(** ** The newest revision *)

Lemma newer_task_total : Total newer_task.
Proof. intros [] []. unfold newer_task. lia. Qed.

Lemma newer_task_trans : Transitive newer_task.
Proof. intros [] [] []. unfold newer_task. simpl. lia. Qed.

Lemma task_revisions_elem p db id r t :
  (r, t) ∈ task_revisions p db id <-> task_definitions db !! (id, r) = Some t /\ p t = true.
Proof.
  unfold task_revisions. rewrite (merge_sort_Permutation newer_task), list_elem_of_omap. split.
  - intros ([[id' r'] t'] & Hin & Heq). apply elem_of_map_to_list in Hin. simpl in *.
    destruct (bool_decide_reflect (id' = id)) as [->|]; simpl in Heq; [|done].
    destruct (p t') eqn:Hp; [|done]. by simplify_eq.
  - intros [Hk Hp]. exists ((id, r), t). split; [by apply elem_of_map_to_list|].
    simpl. by rewrite bool_decide_eq_true_2, Hp.
Qed.

Lemma task_revisions_head p db id r t :
  head (task_revisions p db id) = Some (r, t) ->
  task_definitions db !! (id, r) = Some t /\ p t = true
  /\ forall r' t', task_definitions db !! (id, r') = Some t' -> p t' = true -> (r' ≤ r)%Z.
Proof.
  intros Hh. pose proof (task_revisions_elem p db id) as Helem.
  assert (StronglySorted newer_task (task_revisions p db id)) as Hs.
  { unfold task_revisions. apply StronglySorted_merge_sort; apply _ || apply newer_task_trans
      || apply newer_task_total. }
  destruct (task_revisions p db id) as [|x l]; [done|]. injection Hh as ->.
  destruct (proj1 (Helem r t)) as [Hk Hp]; [by constructor|]. split; [done|]. split; [done|].
  intros r' t' Hk' Hp'. pose proof (proj2 (Helem r' t') (conj Hk' Hp')) as Hin.
  apply StronglySorted_inv in Hs as [_ Hall].
  apply elem_of_cons in Hin as [[= -> ->]|Hin]; [lia|].
  by apply (proj1 (Forall_forall _ _) Hall) in Hin.
Qed.

Lemma task_revisions_none p db id r t :
  head (task_revisions p db id) = None -> task_definitions db !! (id, r) = Some t -> p t = false.
Proof.
  intros Hh Hk. destruct (p t) eqn:Hp; [|done].
  pose proof (proj2 (task_revisions_elem p db id r t) (conj Hk Hp)).
  destruct (task_revisions p db id); [set_solver|done].
Qed.

(** ** Publications and checks keep the tasks *)

Create HintDb orgops.
#[export] Hint Unfold audit_support_access ensure_project_role ensure_thread_project
  ensure_pool_allowed_for_project validate_target_for_project accessible_profile
  ensure_profile_for_target validate_default_target ensure_task_project : orgops.

Lemma publish_server_entity_tasks u t i p : frames tasks_grow (publish_server_entity_tx u t i p).
Proof.
  unfold publish_server_entity_tx, write_entity_version, put_sync_entity, append_sync_change,
    enforce_storage_quota_tx. frames_steps.
Qed.

Lemma remember_materialization_tasks u t i : frames tasks_grow (remember_materialization u t i).
Proof. unfold remember_materialization. frames_steps. Qed.
#[export] Hint Resolve publish_server_entity_tasks remember_materialization_tasks : store.

Lemma publish_server_tombstone_tasks u t i : frames tasks_grow (publish_server_tombstone_tx u t i).
Proof.
  unfold publish_server_tombstone_tx, write_entity_version, put_sync_entity, append_sync_change.
  frames_steps.
Qed.

Lemma publish_task_tasks id : frames tasks_grow (publish_canonical_task_tx id).
Proof. unfold publish_canonical_task_tx. frames_steps. Qed.

Lemma publish_schedule_tasks id : frames tasks_grow (publish_canonical_schedule_tx id).
Proof. unfold publish_canonical_schedule_tx. frames_steps. Qed.

Lemma publish_project_tasks id : frames tasks_grow (publish_canonical_project_tx id).
Proof. unfold publish_canonical_project_tx. frames_steps. Qed.
#[export] Hint Resolve publish_server_tombstone_tasks publish_task_tasks publish_schedule_tasks
  publish_project_tasks : store.

Lemma publish_schedules_tasks ids : frames tasks_grow (publish_schedules ids).
Proof. unfold publish_schedules. frames_steps. Qed.

Lemma publish_thread_tasks id : frames tasks_grow (publish_canonical_thread_tx id).
Proof. unfold publish_canonical_thread_tx. frames_steps. Qed.
#[export] Hint Resolve publish_schedules_tasks publish_thread_tasks : store.

Lemma publish_message_tasks id : frames tasks_grow (publish_canonical_message_tx id).
Proof. unfold publish_canonical_message_tx. frames_steps. Qed.
#[export] Hint Resolve publish_message_tasks : store.

Lemma delete_events_tasks l : forall db, task_definitions (foldl delete_event db l) = task_definitions db.
Proof. induction l as [|[] l IH]; intros db; simpl; [done|]. by rewrite IH. Qed.

Lemma run_step_tasks db db' : step db db' -> tasks_grow db db'.
Proof.
  destruct 1; apply (frames_run_tx tasks_grow); autounfold with runops; frames_steps.
  apply frames_modify. intros d. apply same_tasks_grow, delete_events_tasks.
Qed.

(** ** Pushed metadata *)

#[export] Hint Extern 4 (frames tasks_grow (update_tasks _ _)) =>
  let Hd := fresh in apply update_tasks_grow; intros ? ? ? ? Hd; rewrite ?Hd in *; simpl in *;
  rewrite ?andb_false_r in *; done : store.

Lemma update_messages_tasks p f : frames tasks_grow (update_messages p f).
Proof. unfold update_messages, bump_where. frames_steps. Qed.

Lemma update_threads_tasks p f : frames tasks_grow (update_threads p f).
Proof. unfold update_threads, bump_where. frames_steps. Qed.

Lemma update_projects_tasks p f : frames tasks_grow (update_projects p f).
Proof. unfold update_projects, bump_where. frames_steps. Qed.

Lemma update_schedules_tasks p f : frames tasks_grow (update_schedules p f).
Proof. unfold update_schedules, bump_where. frames_steps. Qed.

Lemma is_materialized_tasks u t i : frames tasks_grow (is_materialized u t i).
Proof. unfold is_materialized. frames_steps. Qed.

Lemma for_entities_tasks db u t ids m :
  (forall i op p, frames tasks_grow (m i op p)) -> frames tasks_grow (for_entities db u t ids m).
Proof. intros Hm. unfold for_entities. frames_steps. Qed.
#[export] Hint Resolve update_messages_tasks update_threads_tasks update_projects_tasks
  update_schedules_tasks is_materialized_tasks for_entities_tasks : store.

Lemma materialize_message_tasks u i op p : frames tasks_grow (materialize_message u i op p).
Proof. unfold materialize_message, touch_materialized_thread. frames_steps. Qed.

Lemma materialize_schedule_tasks u i op p : frames tasks_grow (materialize_schedule u i op p).
Proof.
  unfold materialize_schedule, write_schedule, validate_synced_schedule_target. frames_steps.
Qed.
#[export] Hint Resolve materialize_message_tasks materialize_schedule_tasks : store.

Lemma reconcile_schedules_tasks u k r : frames tasks_grow (reconcile_schedules_for_reference u k r).
Proof. unfold reconcile_schedules_for_reference. frames_steps. Qed.
#[export] Hint Resolve reconcile_schedules_tasks : store.

Lemma delete_synced_task_tasks i : frames tasks_grow (delete_synced_task i).
Proof. unfold delete_synced_task. frames_steps. Qed.
#[export] Hint Resolve delete_synced_task_tasks : store.

(** No revision is as new as the one after the newest. *)
Lemma current_task_next db id :
  task_definitions db !! (id, from_option fst 0%Z (current_task db id) + 1)%Z = None.
Proof.
  destruct (task_definitions db !! _) as [t|] eqn:Ht; [|done]. exfalso.
  unfold current_task in Ht. destruct (head _) as [[r t']|] eqn:Hh; simpl in Ht.
  - apply task_revisions_head in Hh as (_ & _ & Hmax). specialize (Hmax _ _ Ht eq_refl). lia.
  - by eapply task_revisions_none in Hh.
Qed.

(** Withdrawing the released revisions of a task. *)
Lemma wp_withdraw id env s (Q : unit -> TxState -> Prop) :
  (forall s', tasks_grow (tx_db s) (tx_db s') ->
     (forall r t', task_definitions (tx_db s') !! (id, r) = Some t' ->
        exists t, task_definitions (tx_db s) !! (id, r) = Some t
                  /\ td_deleted_at t' = td_deleted_at t) ->
     withdrawn (tx_db s') id -> Q tt s') ->
  wp env (update_tasks (fun i t => bool_decide (i = id) && td_released t) td_deleted_at) Q s.
Proof.
  intros HQ. unfold update_tasks. apply wp_modify, HQ.
  - apply update_where_grow; [|by intros k t []]. intros k t _. split; [done|]. naive_solver.
  - intros r t'. simpl. unfold update_where. rewrite map_lookup_imap.
    destruct (task_definitions (tx_db s) !! (id, r)) as [t|]; [|done]. simpl. intros [= <-].
    exists t. by destruct (_ && _).
  - intros r t. simpl. unfold update_where. rewrite map_lookup_imap.
    destruct (task_definitions (tx_db s) !! (id, r)) as [u|]; [|done]. simpl.
    rewrite bool_decide_eq_true_2 by done. simpl.
    destruct (td_released u) eqn:Hu; intros [= <-] [Hrel _]; simpl in Hrel; congruence.
Qed.

Lemma private_task_project_tasks u o : frames tasks_grow (private_task_project u o).
Proof. unfold private_task_project. frames_steps. Qed.

Lemma private_task_project_same u o env s (Q : option Uuid -> TxState -> Prop) :
  (forall found, Q found s) -> wp env (private_task_project u o) Q s.
Proof. intros HQ. unfold private_task_project. wp_steps; repeat (case_match; wp_steps); auto. Qed.

Lemma materialize_task_tasks u i op p : frames tasks_grow (materialize_task u i op p).
Proof.
  destruct op; [|unfold materialize_task; frames_steps].
  intros env s. unfold materialize_task, is_materialized. wp_steps.
  apply private_task_project_same. intros [project_id|]; wp_steps; [|done].
  apply wp_mono with (P := fun _ s' => tasks_grow (tx_db s) (tx_db s')).
  - case_match; wp_steps; [done|]. apply wp_withdraw. intros s' Hg Hback Hw. wp_steps.
    etrans; [exact Hg|]. apply insert_grow; [|done]. apply eq_None_not_Some. intros [t Ht].
    apply Hback in Ht as (t' & Ht & _). by rewrite current_task_next in Ht.
  - intros [] s' Hg. eapply wp_mono; [|intros ? s''; apply (transitivity (R := tasks_grow) Hg)].
    apply (frames_bind tasks_grow); intros; eauto with store.
Qed.
#[export] Hint Resolve materialize_task_tasks private_task_project_tasks : store.

Lemma materialize_thread_tasks u i op p : frames tasks_grow (materialize_thread u i op p).
Proof.
  unfold materialize_thread, delete_synced_thread, soft_delete_thread, reconcile_thread_tasks,
    project_for_thread, write_thread. frames_steps.
Qed.
#[export] Hint Resolve materialize_thread_tasks : store.

Lemma materialize_provider_profile_tasks u i op p :
  frames tasks_grow (materialize_provider_profile u i op p).
Proof. unfold materialize_provider_profile, delete_synced_profile, bump_where. frames_steps. Qed.

Lemma reconcile_project_threads_tasks u i : frames tasks_grow (reconcile_project_threads u i).
Proof. unfold reconcile_project_threads, soft_delete_thread. frames_steps. Qed.
#[export] Hint Resolve materialize_provider_profile_tasks reconcile_project_threads_tasks : store.

Lemma materialize_project_tasks u i op p : frames tasks_grow (materialize_project u i op p).
Proof.
  unfold materialize_project, delete_synced_project. frames_steps.
Qed.
#[export] Hint Resolve materialize_project_tasks : store.

Lemma apply_change_tasks u ch : frames tasks_grow (apply_change u ch).
Proof.
  unfold apply_change, accept_change, materialize_canonical_entity, enforce_storage_quota_tx,
    put_sync_entity, append_sync_change, record_operation. frames_steps.
Qed.

(** ** The handlers on tasks *)

(** A role above viewer is a member's, and nothing is recorded. *)
Lemma wp_role u i required env s (Q : ProjectRole -> TxState -> Prop) :
  required ≠ Viewer ->
  (forall role p, live_project (tx_db s) i = Some p ->
     member_role (tx_db s) u i p = Ok (Some role) ->
     (role_rank required ≤ role_rank role)%Z -> Q role s) ->
  wp env (ensure_project_role u i required) Q s.
Proof.
  intros Hreq HQ. unfold ensure_project_role. wp_steps. destruct a0 as [role|]; wp_steps.
  - case_bool_decide; [done|]. eapply HQ; [done|done|lia].
  - rewrite bool_decide_eq_false_2 by done. wp_steps.
Qed.

Lemma released_revision_withdrawn db id : released_revision db id = false -> withdrawn db id.
Proof.
  unfold released_revision. intros H r t Hk [Hr Hd]. rewrite <- not_true_iff_false, existsb_exists in H.
  apply H. exists ((id, r), t). split; [by apply list_elem_of_In, elem_of_map_to_list|].
  simpl. by rewrite bool_decide_eq_true_2, Hr, Hd.
Qed.

Lemma insert_task_tasks id r row : frames tasks_grow (insert_task id r row).
Proof.
  intros env s. unfold insert_task. wp_steps. apply insert_grow.
  - apply eq_None_not_Some. by case_bool_decide.
  - intros [Hr _]. apply released_revision_withdrawn. rewrite Hr in *. done.
Qed.

Lemma answer_task_tasks id r row : frames tasks_grow (answer_task id r row).
Proof. unfold answer_task. frames_steps. Qed.

Lemma ensure_project_role_tasks u i r : frames tasks_grow (ensure_project_role u i r).
Proof. autounfold with orgops. frames_steps. Qed.

Lemma validate_default_target_tasks u i t : frames tasks_grow (validate_default_target u i t).
Proof. autounfold with orgops. frames_steps. Qed.
#[export] Hint Resolve insert_task_tasks answer_task_tasks ensure_project_role_tasks
  validate_default_target_tasks : store.

Lemma create_task_tasks u i request : frames tasks_grow (create_task u i request).
Proof. unfold create_task. frames_steps. Qed.

Lemma create_task_version_tasks u i b request :
  frames tasks_grow (create_task_version u i b request).
Proof. unfold create_task_version, unrelease. frames_steps. Qed.

Lemma delete_task_tasks u i r : frames tasks_grow (delete_task u i r).
Proof. unfold delete_task. frames_steps. Qed.

(** Releasing a live revision once the others are withdrawn. *)
Lemma release_grow db id r t :
  task_definitions db !! (id, r) = Some t -> td_deleted_at t = None -> withdrawn db id ->
  tasks_grow db (set_task_definitions (alter release_row (id, r) (task_definitions db)) db).
Proof.
  intros Ht Hd Hw. split; simpl.
  - intros key u Hu. destruct (decide (key = (id, r))) as [->|Hne].
    + rewrite lookup_alter_eq, Hu. simpl. eexists. split; [done|]. simplify_eq.
      split; [done|]. congruence.
    + rewrite lookup_alter_ne by done. exists u. split; [done|reflexivity].
  - intros Hone i r1 r2 t1 t2 H1 Hr1 H2 Hr2. simpl in H1, H2.
    apply lookup_alter_Some in H1 as [(? & u1 & H1 & ?)|[Hn1 H1]];
      apply lookup_alter_Some in H2 as [(? & u2 & H2 & ?)|[Hn2 H2]]; simplify_eq; try done.
    + by destruct (Hw _ _ H2).
    + by destruct (Hw _ _ H1).
    + by eapply Hone.
Qed.

Lemma live_revision_Some db id r t :
  live_revision db id r = Some t ->
  task_definitions db !! (id, r) = Some t /\ td_deleted_at t = None.
Proof.
  unfold live_revision, not_deleted. intros H. case_match; [|done].
  by destruct (td_deleted_at _) eqn:Hd; simplify_eq.
Qed.

Lemma release_task_version_tasks u i r : frames tasks_grow (release_task_version u i r).
Proof.
  intros env s. unfold release_task_version. wp_steps.
  apply live_revision_Some in H as [Ht Hd]. apply wp_role; [done|]. intros role p _ _ _.
  wp_step. apply wp_withdraw. intros s1 Hg Hback Hw. wp_steps.
  destruct (tg_kept _ _ Hg _ _ Ht) as (t1 & Ht1 & _). destruct (Hback _ _ Ht1) as (t & Ht' & Hd1).
  eapply (wp_frames tasks_grow); [apply answer_task_tasks|]. intros task s2 Hg2.
  etrans; [exact Hg|]. etrans; [|exact Hg2]. eapply release_grow; [done| |done]. congruence.
Qed.

(** ** The system of everything that touches tasks *)

Lemma push_changes_tasks envs db u d changes :
  tasks_grow db (push_changes_for_device envs db u d changes).1.
Proof.
  unfold push_changes_for_device. case_match; [reflexivity|].
  destruct (validate_changes _ _ _); [|reflexivity]. clear. generalize 1%nat as k.
  revert db. induction changes as [|ch rest IH]; intros db k; [reflexivity|].
  simpl. pose proof (frames_run_tx tasks_grow (envs k) db _ (apply_change_tasks u ch)) as Hg.
  destruct (run_tx _ _ _) as [db' [answer|e]]; [|done]. simpl in Hg.
  specialize (IH db' (S k)). destruct (apply_changes _ _ _ _ _) as [db'' []]; simpl in *; by etrans.
Qed.

Inductive task_step (db : Db) : Db -> Prop :=
| task_create env u project request :
    task_step db (run_tx env db (create_task u project request)).1
| task_version env u id base request :
    task_step db (run_tx env db (create_task_version u id base request)).1
| task_release env u id revision :
    task_step db (run_tx env db (release_task_version u id revision)).1
| task_delete env u id revision :
    task_step db (run_tx env db (delete_task u id revision)).1
| task_push envs u d changes : task_step db (push_changes_for_device envs db u d changes).1
| task_run db' : step db db' -> task_step db db'
| task_other db' : task_definitions db' = task_definitions db -> task_step db db'.

Lemma task_step_grow db db' : task_step db db' -> tasks_grow db db'.
Proof.
  destruct 1.
  - apply (frames_run_tx tasks_grow), create_task_tasks.
  - apply (frames_run_tx tasks_grow), create_task_version_tasks.
  - apply (frames_run_tx tasks_grow), release_task_version_tasks.
  - apply (frames_run_tx tasks_grow), delete_task_tasks.
  - apply push_changes_tasks.
  - by apply run_step_tasks.
  - by apply same_tasks_grow.
Qed.

Lemma task_steps_grow db db' : rtc task_step db db' -> tasks_grow db db'.
Proof. induction 1; [reflexivity|]. etrans; [by apply task_step_grow|done]. Qed.
