(* ===== verification/FrozenProperties.v ===== *)
(** * What is frozen into a run

    The frozen context of a run is made of listed fields of the user's own live entities,
    whatever the client sent; a frozen crew definition has listed fields at every level and
    names its model profiles by identifiers. *)

From S2P Require Import Prelude.
From S2P Require Import Json.
From S2P Require Import Contracts.
From S2P Require Import Store.
From S2P Require Import SyncPublish.
From S2P Require Import FrozenContext.

Import Frozen.

(** ** Objects with listed fields *)

(** Membership in one of the source's lists of names. *)
Ltac listed := apply str_mem_spec; reflexivity.

Definition keys_in (allowed : list string) (m : Map) : Prop :=
  forall k v, map_get k m = Some v -> k ∈ allowed.

Lemma keys_in_nil allowed : keys_in allowed [].
Proof. done. Qed.

Lemma keys_in_insert allowed k v m :
  k ∈ allowed -> keys_in allowed m -> keys_in allowed (map_insert k v m).
Proof.
  intros Hk Hm k' v'. rewrite map_get_insert. destruct (String.eqb_spec k' k); [by subst|apply Hm].
Qed.

Lemma keys_in_mono a b m : (forall k, k ∈ a -> k ∈ b) -> keys_in a m -> keys_in b m.
Proof. intros Hab Hm k v Hk. eapply Hab, Hm, Hk. Qed.

(** The fields that are picked are the listed ones the object has. *)
Lemma pick_fields_get allowed object k :
  map_get k (pick_fields allowed object) = if str_mem k allowed then map_get k object else None.
Proof.
  unfold pick_fields, json_map.
  assert (forall m, map_get k (foldl (fun m kv => map_insert kv.1 kv.2 m) m
      (omap (fun key => (fun value => (key, value)) <$> map_get key object) allowed))
    = if str_mem k allowed then or_else (map_get k object) (map_get k m) else map_get k m) as H.
  { induction allowed as [|a l IH]; intros m; [done|]. simpl.
    destruct (map_get a object) as [v|] eqn:Ha; simpl; rewrite IH; simpl;
      destruct (String.eqb_spec k a) as [->|Hne]; simpl.
    - rewrite Ha, map_get_insert_eq. by destruct (str_mem a l).
    - by rewrite map_get_insert_ne.
    - rewrite Ha. by destruct (str_mem a l).
    - done. }
  rewrite H. simpl. destruct (str_mem k allowed); [|done]. by destruct (map_get k object).
Qed.

Lemma pick_fields_keys allowed object : keys_in allowed (pick_fields allowed object).
Proof.
  intros k v. rewrite pick_fields_get. destruct (str_mem k allowed) eqn:Hk; [|done].
  intros _. by apply str_mem_spec.
Qed.

(** ** The user's entities *)

Definition live_entity (db : Db) (user_id : Uuid) (entity_type : string) (e : EntityRow) : Prop :=
  exists row, sync_entities db !! (user_id, entity_type, er_entity_id e) = Some row
    /\ se_tombstone row = false /\ se_payload row = Some (er_payload e)
    /\ se_revision row = er_revision e.

Lemma user_entities_live db user_id entity_type e :
  e ∈ user_entities db user_id entity_type -> live_entity db user_id entity_type e.
Proof.
  unfold user_entities. rewrite merge_sort_Permutation, list_elem_of_omap.
  intros ([[[u ty] id] row] & Hin & Heq). apply elem_of_map_to_list in Hin.
  unfold entity_row in Heq. simpl in Heq.
  destruct (bool_decide_reflect (u = user_id)) as [->|]; [|done].
  destruct (bool_decide_reflect (ty = entity_type)) as [->|]; [|done]. simpl in Heq.
  destruct (se_tombstone row) eqn:Ht; [done|]. simpl in Heq.
  destruct (se_payload row) as [payload|] eqn:Hp; [|done]. simpl in Heq. simplify_eq.
  exists row. by rewrite Hp.
Qed.

(** ** Metadata *)

(** A frozen value: the listed fields of a live entity of the user. *)
Definition frozen_from (db : Db) (user_id : Uuid) (entity_type : string)
    (allowed_fields : list string) (v : Value) : Prop :=
  exists e object, live_entity db user_id entity_type e /\ er_payload e = JObject object
    /\ v = frozen_entity e (JObject (pick_fields allowed_fields object)).

Section texts.
Context {texts : LibTexts}.

Lemma sanitized_metadata_Ok payload entity_type allowed v :
  sanitized_runtime_metadata payload entity_type allowed = Ok v ->
  exists object, payload = JObject object /\ v = JObject (pick_fields allowed object).
Proof.
  unfold sanitized_runtime_metadata. intros H. bind_steps H.
  destruct payload; simplify_eq/=. case_match; [done|]. by simplify_eq; eauto.
Qed.

Lemma index_entities_Ok db u ty allowed rows : forall m m',
  index_entities ty allowed rows m = Ok m' ->
  Forall (live_entity db u ty) rows ->
  map_Forall (fun _ v => frozen_from db u ty allowed v) m ->
  map_Forall (fun _ v => frozen_from db u ty allowed v) m'.
Proof.
  induction rows as [|e rows IH]; intros m m' H Hl Hm; simpl in H; [by simplify_eq|].
  bind_steps H. inversion_clear Hl as [|? ? He Hrest].
  apply sanitized_metadata_Ok in E as (object & Hp & ->).
  assert (frozen_from db u ty allowed (frozen_entity e (JObject (pick_fields allowed object))))
    as Hf by (by exists e, object).
  eapply IH; [exact H|done|]. case_match; repeat apply map_Forall_insert_2; auto.
Qed.

Lemma freeze_metadata_Ok db u ty references allowed values :
  freeze_metadata_entities db u ty references allowed = Ok values ->
  Forall (frozen_from db u ty allowed) values /\ length values = length references.
Proof.
  unfold freeze_metadata_entities. intros H. bind_steps H. apply res_mapM_Ok in H.
  eapply index_entities_Ok in E; [| |apply map_Forall_empty].
  - split; [|symmetry; by eapply Forall2_length].
    eapply Forall2_Forall_r; [exact H|]. apply Forall_forall. intros reference _ v Hv.
    apply ok_or_Ok in Hv. by apply (E reference).
  - apply Forall_forall. intros e He. apply list_elem_of_filter in He as [_ He].
    by apply user_entities_live.
Qed.

Lemma unique_references_length key values : forall seen l,
  unique_references key seen values = Ok l -> (length l ≤ length values)%nat.
Proof.
  induction values as [|v values IH]; intros seen l H; simpl in H; [by simplify_eq|].
  bind_steps H. destruct (str_mem _ _); [apply IH in H; simpl; lia|].
  bind_steps H. simplify_eq. apply IH in E0. simpl. lia.
Qed.

Lemma references_length input key l :
  runtime_metadata_references input key = Ok l -> (length l ≤ 32)%nat.
Proof.
  unfold runtime_metadata_references. intros H. case_match; [|simplify_eq; simpl; lia].
  bind_steps H. case_bool_decide; [done|]. apply unique_references_length in H. lia.
Qed.

(** What a frozen context holds: for each kind of metadata at most 32 values. *)
Definition context_ok (db : Db) (user_id : Uuid) (frozen : Map) : Prop :=
  forall entity_type v, map_get entity_type frozen = Some v ->
  exists reference_key allowed values,
    (reference_key, entity_type, allowed) ∈ CONTEXT_TYPES /\ v = JArray values
    /\ (length values ≤ 32)%nat /\ Forall (frozen_from db user_id entity_type allowed) values.

Lemma freeze_types_Ok db u input types : forall frozen frozen',
  (forall t, t ∈ types -> t ∈ CONTEXT_TYPES) ->
  freeze_types db u input types frozen = Ok frozen' ->
  context_ok db u frozen -> context_ok db u frozen'.
Proof.
  induction types as [|[[key ty] allowed] types IH]; intros frozen frozen' Hin H Hok; simpl in H;
    [by simplify_eq|].
  bind_steps H. assert (forall t, t ∈ types -> t ∈ CONTEXT_TYPES) as Hin'
    by (intros; apply Hin; by constructor).
  destruct a as [|r references]; [by eapply IH|]. bind_steps H.
  eapply IH; [done|exact H|]. intros ty' v. rewrite map_get_insert.
  destruct (String.eqb_spec ty' ty) as [->|]; [|apply Hok]. intros [= <-].
  apply freeze_metadata_Ok in E0 as [Hf Hlen]. apply references_length in E.
  exists key, allowed, a. rewrite Hlen. split; [apply Hin; by constructor|]. done.
Qed.

(** ** Crew definitions *)

Definition SELECTION_FIELDS : list string :=
  ["backend"; "profileId"; "model"; "authProfileId"; "reasoningEffort"].

(** A backend selection has listed fields; an OpenAI-compatible one names a profile that
    satisfies [P]. *)
Definition selection_ok (P : string -> Prop) (v : Value) : Prop :=
  exists m, v = JObject m /\ keys_in SELECTION_FIELDS m
    /\ (map_str "backend" m = Some "openai-compatible" ->
        exists profile_id, map_str "profileId" m = Some profile_id /\ P profile_id).

Definition object_in (allowed : list string) (v : Value) : Prop :=
  exists m, v = JObject m /\ keys_in allowed m.

Definition agent_ok (P : string -> Prop) (v : Value) : Prop :=
  exists m, v = JObject m /\ keys_in AGENT_FIELDS m
    /\ forall selection, map_get "backendSelection" m = Some selection -> selection_ok P selection.

Record crew_ok (P : string -> Prop) (id : string) (definition : Map) : Prop := {
  co_id : non_empty_trimmed (map_str "id" definition) = Some id;
  co_keys : keys_in (CREW_FIELDS ++ ["defaultBackendSelection"; "agents"]) definition;
  co_default : forall selection, map_get "defaultBackendSelection" definition = Some selection ->
               selection_ok P selection;
  co_agents : exists agents, map_get "agents" definition = Some (JArray agents)
              /\ Forall (agent_ok P) agents;
  co_tasks : exists tasks, map_get "tasks" definition = Some (JArray tasks)
             /\ Forall (object_in CREW_TASK_FIELDS) tasks;
}.

Lemma copy_optional_Ok source target key n label m :
  copy_optional_crew_selection_string source target key n label = Ok m ->
  m = target \/ exists v, m = map_insert key (JString v) target.
Proof.
  unfold copy_optional_crew_selection_string. intros H. case_match; [|by left; simplify_eq].
  bind_steps H. case_bool_decide; [done|]. simplify_eq. case_match; [by left|right; eauto].
Qed.

Lemma copy_optional_keys source target key n label m allowed :
  copy_optional_crew_selection_string source target key n label = Ok m ->
  key ∈ allowed -> keys_in allowed target -> keys_in allowed m.
Proof.
  intros H Hk Ht. apply copy_optional_Ok in H as [->|[v ->]]; [done|by apply keys_in_insert].
Qed.

Lemma copy_optional_get source target key n label m k :
  copy_optional_crew_selection_string source target key n label = Ok m ->
  k ≠ key -> map_get k m = map_get k target.
Proof.
  intros H Hk. apply copy_optional_Ok in H as [->|[v ->]]; [done|by apply map_get_insert_ne].
Qed.

Lemma sanitized_selection_ok value label v :
  sanitized_crew_backend_selection value label = Ok v -> selection_ok (fun _ => True) v.
Proof.
  unfold sanitized_crew_backend_selection. intros H. bind_steps H. destruct (String.eqb _ _).
  - bind_steps H. simplify_eq. eexists. split; [done|]. split.
    + eapply copy_optional_keys; [exact E1|listed|]. apply keys_in_insert; [listed|].
      apply keys_in_insert; [listed|apply keys_in_nil].
    + intros _. exists a0. split; [|done]. unfold map_str.
      erewrite copy_optional_get by (exact E1 || done). by rewrite map_get_insert_eq.
  - destruct (String.eqb _ _) eqn:Hb; [|done]. apply String.eqb_eq in Hb.
    bind_steps H. simplify_eq. eexists. split; [done|]. split.
    + eapply copy_optional_keys; [exact E2|listed|]. eapply copy_optional_keys; [exact E1|listed|].
      eapply copy_optional_keys; [exact E0|listed|]. apply keys_in_insert; [listed|]. apply keys_in_nil.
    + unfold map_str. rewrite (copy_optional_get _ _ _ _ _ _ "backend" E2) by done.
      rewrite (copy_optional_get _ _ _ _ _ _ "backend" E1) by done.
      rewrite (copy_optional_get _ _ _ _ _ _ "backend" E0) by done.
      rewrite map_get_insert_eq, Hb. done.
Qed.

Lemma sanitized_array_ok value name allowed l :
  sanitized_crew_array value name allowed = Ok l -> Forall (keys_in allowed) l.
Proof.
  unfold sanitized_crew_array. intros H. bind_steps H. case_bool_decide; [done|].
  apply res_mapM_Ok in H. eapply Forall2_Forall_r; [exact H|]. apply Forall_forall.
  intros v _ m Hm. bind_steps Hm. simplify_eq. apply pick_fields_keys.
Qed.

Lemma sanitized_agent_ok agent m :
  sanitized_crew_agent agent = Ok m -> keys_in AGENT_FIELDS agent ->
  agent_ok (fun _ => True) (JObject m).
Proof.
  unfold sanitized_crew_agent. intros H Hk. bind_steps H. cbv zeta in H.
  match type of H with (if ?b then _ else _) = _ => destruct b; [done|] end.
  simplify_eq. exists m. split; [done|].
  destruct (map_get "backendSelection" agent) as [v|] eqn:Hv.
  - bind_steps E. simplify_eq. split; [apply keys_in_insert; [listed|done]|].
    rewrite map_get_insert_eq. intros ? [= <-]. by eapply sanitized_selection_ok.
  - simplify_eq. split; [done|]. congruence.
Qed.

Lemma crew_definition_ok env definition id m :
  sanitized_crew_definition env definition id = Ok m -> crew_ok (fun _ => True) id m.
Proof.
  unfold sanitized_crew_definition. intros H. bind_steps H. case_bool_decide; [done|]. simplify_eq.
  apply negb_false_iff, String.eqb_eq in E1 as ->.
  apply sanitized_array_ok in E3. apply sanitized_array_ok in E5. apply res_mapM_Ok in E4.
  assert (keys_in (CREW_FIELDS ++ ["defaultBackendSelection"; "agents"]) a2
          /\ map_get "id" a2 = map_get "id" a
          /\ forall v, map_get "defaultBackendSelection" a2 = Some v ->
              selection_ok (fun _ => True) v) as (Hk & Hid & Hd).
  { assert (keys_in (CREW_FIELDS ++ ["defaultBackendSelection"; "agents"])
              (pick_fields CREW_FIELDS a)) as Hp.
    { eapply keys_in_mono; [|apply pick_fields_keys]. intros k Hin. apply elem_of_app. by left. }
    destruct (map_get "defaultBackendSelection" a) as [v|] eqn:Hv.
    - bind_steps E2. simplify_eq. split; [apply keys_in_insert; [listed|done]|].
      rewrite map_get_insert_ne, map_get_insert_eq by done. split; [by rewrite pick_fields_get|].
      intros ? [= <-]. by eapply sanitized_selection_ok.
    - simplify_eq. split; [done|]. rewrite !pick_fields_get. done. }
  split.
  - unfold map_str. rewrite !map_get_insert_ne by done. by rewrite Hid.
  - apply keys_in_insert; [listed|]. by apply keys_in_insert; [listed|].
  - rewrite !map_get_insert_ne by done. done.
  - rewrite map_get_insert_ne, map_get_insert_eq by done. eexists. split; [done|].
    apply Forall_fmap. eapply Forall2_Forall_r; [exact E4|]. eapply Forall_impl; [exact E3|].
    simpl. intros agent Ha m Hm. by eapply sanitized_agent_ok.
  - rewrite map_get_insert_eq. eexists. split; [done|]. apply Forall_fmap.
    eapply Forall_impl; [exact E5|]. simpl. intros t Ht. by exists t.
Qed.

(** ** Canonical profile names *)

Definition is_uuid (s : string) : Prop := exists u, s = uuid_to_string u.

Definition all_uuid (m : gmap string string) : Prop := map_Forall (fun _ name => is_uuid name) m.

Lemma canonical_profiles_uuid rows :
  all_uuid (canonical_profiles rows).
Proof.
  unfold canonical_profiles.
  assert (forall m, all_uuid m ->
    all_uuid (foldl (fun canonical e =>
      let name := uuid_to_string (er_entity_id e) in
      let canonical := <[name := name]> canonical in
      match get_str "_cowork_local_entity_id" (er_payload e) with
      | Some local_id => <[local_id := name]> canonical
      | None => canonical
      end) m rows)) as H.
  { induction rows as [|e rows IH]; intros m Hm; simpl; [done|]. apply IH.
    case_match; repeat apply map_Forall_insert_2; try done; by eexists. }
  apply H, map_Forall_empty.
Qed.

Lemma complete_canonical_ok env references : forall m m',
  complete_canonical env m references = Ok m' ->
  all_uuid m ->
  all_uuid m'
  /\ (forall r, is_Some (m !! r) -> is_Some (m' !! r))
  /\ forall r, r ∈ references -> is_Some (m' !! r).
Proof.
  induction references as [|r references IH]; intros m m' H Hm; simpl in H.
  { simplify_eq. split_and!; [done|done|]. intros r Hr. by apply elem_of_nil in Hr. }
  destruct (m !! r) as [name|] eqn:Hr.
  - apply IH in H as (Hu & Hmono & Hall); [|done]. split_and!; [done|done|].
    intros r' [->|Hin]%elem_of_cons; [|by apply Hall]. apply Hmono. by rewrite Hr.
  - destruct (parse_uuid env r) as [u|]; [|done].
    apply IH in H as (Hu & Hmono & Hall); [|apply map_Forall_insert_2; [by eexists|done]].
    split_and!; [done| |].
    + intros r' Hr'. apply Hmono. destruct (decide (r = r')) as [->|].
      * by rewrite lookup_insert_eq.
      * by rewrite lookup_insert_ne.
    + intros r' [->|Hin]%elem_of_cons; [|by apply Hall]. apply Hmono. by rewrite lookup_insert_eq.
Qed.

Lemma selected_profiles_all selections : forall seen v p,
  v ∈ selections -> get_str "backend" v = Some "openai-compatible" ->
  get_str "profileId" v = Some p -> p ∈ seen \/ p ∈ selected_profiles seen selections.
Proof.
  induction selections as [|w selections IH]; intros seen v p Hin Hb Hp;
    [by apply elem_of_nil in Hin|]. simpl. apply elem_of_cons in Hin as [<-|Hin].
  - rewrite bool_decide_eq_true_2, Hp by done. destruct (str_mem p seen) eqn:Hs.
    + left. by apply str_mem_spec.
    + right. by constructor.
  - destruct (bool_decide _); [|by eapply IH]. destruct (get_str "profileId" w) as [q|]; [|by eapply IH].
    destruct (str_mem q seen); [by eapply IH|].
    destruct (IH (q :: seen) v p Hin Hb Hp) as [[->|?]%elem_of_cons|]; [right; by constructor|by left|].
    right. by constructor.
Qed.

(** Rewriting a selection whose profile has a canonical name. *)
Lemma rewrite_selection_ok canonical m :
  all_uuid canonical ->
  (map_str "backend" m = Some "openai-compatible" ->
   forall p, map_str "profileId" m = Some p -> is_Some (canonical !! p)) ->
  selection_ok (fun _ => True) (JObject m) ->
  selection_ok is_uuid (JObject (rewrite_crew_profile_reference canonical m)).
Proof.
  intros Hu Hc (m' & [= <-] & Hk & Hp). eexists. split; [done|].
  unfold rewrite_crew_profile_reference.
  destruct (map_str "profileId" m) as [p|] eqn:Hm.
  - destruct (canonical !! p) as [name|] eqn:Hn.
    + split; [apply keys_in_insert; [listed|done]|]. intros _. exists name.
      unfold map_str. rewrite map_get_insert_eq. split; [done|]. by apply (Hu p).
    + split; [done|]. intros Hb. destruct (Hc Hb p eq_refl) as [? Hsome]. congruence.
  - split; [done|]. intros Hb. destruct (Hp Hb) as (p & Hp' & _). congruence.
Qed.

Lemma rewrite_at_ne canonical key object k :
  k ≠ key -> map_get k (rewrite_selection_at canonical key object) = map_get k object.
Proof.
  intros Hk. unfold rewrite_selection_at. destruct (map_get key object) as [[]|]; try done.
  by apply map_get_insert_ne.
Qed.

Lemma rewrite_at_keys canonical key object allowed :
  key ∈ allowed -> keys_in allowed object ->
  keys_in allowed (rewrite_selection_at canonical key object).
Proof.
  intros Hk Ho. unfold rewrite_selection_at. destruct (map_get key object) as [[]|]; try done.
  by apply keys_in_insert.
Qed.

(** The selection under a key after rewriting. *)
Lemma rewrite_at_ok canonical key object :
  all_uuid canonical ->
  (forall v p, map_get key object = Some v -> get_str "backend" v = Some "openai-compatible" ->
     get_str "profileId" v = Some p -> is_Some (canonical !! p)) ->
  (forall v, map_get key object = Some v -> selection_ok (fun _ => True) v) ->
  forall v, map_get key (rewrite_selection_at canonical key object) = Some v ->
  selection_ok is_uuid v.
Proof.
  intros Hu Hc Ho v. unfold rewrite_selection_at.
  destruct (map_get key object) as [w|] eqn:Hw; [|by rewrite Hw].
  destruct (Ho w eq_refl) as (m & -> & Hm). rewrite map_get_insert_eq. intros [= <-].
  apply rewrite_selection_ok; [done| |by exists m].
  intros Hb p Hp. by eapply Hc.
Qed.

(** A definition without OpenAI-compatible selections names no profile. *)
Lemma crew_ok_no_profiles id definition agents :
  crew_ok (fun _ => True) id definition -> map_get "agents" definition = Some (JArray agents) ->
  selected_profiles [] (crew_selections definition agents) = [] -> crew_ok is_uuid id definition.
Proof.
  intros [Hid Hk Hd (agents' & Ha' & Hag) Ht] Ha Hnil. rewrite Ha in Ha'. injection Ha' as <-.
  assert (forall v, v ∈ crew_selections definition agents -> selection_ok (fun _ => True) v ->
            selection_ok is_uuid v) as Hsel.
  { intros v Hin (m & -> & Hm & Hp). exists m. split_and!; [done|done|]. intros Hb.
    destruct (Hp Hb) as (p & Hp' & _).
    destruct (selected_profiles_all _ [] _ p Hin Hb Hp') as [Hn|Hn]; rewrite ?Hnil in Hn;
      by apply elem_of_nil in Hn. }
  split; [done|done| |exists agents; split; [done|]|done].
  - intros v Hv. apply Hsel; [|by apply Hd]. unfold crew_selections. rewrite Hv. by constructor.
  - apply Forall_forall. intros agent Hin. pose proof (proj1 (Forall_forall _ _) Hag _ Hin)
      as (m & -> & Hm & Hs). exists m. split_and!; [done|done|]. intros v Hv.
    apply Hsel; [|by apply Hs]. unfold crew_selections. apply elem_of_app. right.
    apply list_elem_of_omap. by exists (JObject m).
Qed.

Lemma rewrite_crew_ok canonical id definition agents :
  all_uuid canonical ->
  (forall v p, v ∈ crew_selections definition agents ->
     get_str "backend" v = Some "openai-compatible" -> get_str "profileId" v = Some p ->
     is_Some (canonical !! p)) ->
  crew_ok (fun _ => True) id definition -> map_get "agents" definition = Some (JArray agents) ->
  crew_ok is_uuid id (rewrite_crew_profile_references canonical definition).
Proof.
  intros Hu Hc [Hid Hk Hd (agents' & Ha' & Hag) (tasks & Ht & Htk)] Ha.
  rewrite Ha in Ha'. injection Ha' as <-. unfold rewrite_crew_profile_references.
  rewrite rewrite_at_ne, Ha by done. split.
  - unfold map_str. by rewrite map_get_insert_ne, rewrite_at_ne.
  - apply keys_in_insert; [listed|]. by apply rewrite_at_keys; [listed|].
  - rewrite map_get_insert_ne by done. apply rewrite_at_ok; [done| |done].
    intros v p Hv. apply Hc. unfold crew_selections. rewrite Hv. by constructor.
  - rewrite map_get_insert_eq. eexists. split; [done|]. apply Forall_fmap, Forall_forall.
    intros agent Hin. pose proof (proj1 (Forall_forall _ _) Hag _ Hin) as (m & -> & Hm & Hs).
    simpl. eexists. split; [done|]. split; [by apply rewrite_at_keys; [listed|]|].
    apply rewrite_at_ok; [done| |done]. intros v p Hv. apply Hc. unfold crew_selections.
    apply elem_of_app. right. apply list_elem_of_omap. by exists (JObject m).
  - rewrite map_get_insert_ne, rewrite_at_ne by done. by exists tasks.
Qed.

Lemma canonicalize_ok env db u id definition m :
  canonicalize_crew_provider_profile_references env db u definition = Ok m ->
  crew_ok (fun _ => True) id definition -> crew_ok is_uuid id m.
Proof.
  unfold canonicalize_crew_provider_profile_references, crew_provider_profile_references.
  intros H Hok. destruct (co_agents _ _ _ Hok) as (agents & Ha & _). bind_steps H. bind_steps E.
  rewrite Ha in E0. simpl in E0. injection E0 as <-. injection E as <-.
  case_bool_decide as Hnil; [simplify_eq; by eapply crew_ok_no_profiles|].
  case_bool_decide; [done|]. bind_steps H. injection H as <-.
  apply complete_canonical_ok in E as (Hu & _ & Hall); [|apply canonical_profiles_uuid].
  eapply rewrite_crew_ok; [done| |done|done]. intros v p Hv Hb Hp. apply Hall.
  by destruct (selected_profiles_all _ [] _ p Hv Hb Hp) as [Hn%elem_of_nil|].
Qed.

(** ** The input of a run *)

Lemma map_get_remove_all key l : forall m,
  map_get key (foldl (fun o k => map_remove k o) m l)
  = if str_mem key l then None else map_get key m.
Proof.
  induction l as [|k l IH]; intros m; [done|]. cbn [foldl]. rewrite IH, map_get_remove.
  unfold str_mem. simpl. destruct (String.eqb key k); simpl; [|done]. by destruct (existsb _ _).
Qed.

Lemma strip_get input key :
  get key (strip_client_frozen_fields input)
  = if str_mem key RESERVED_FIELDS then None else get key input.
Proof.
  destruct input; [by destruct (str_mem key _)..|]. apply map_get_remove_all.
Qed.

(** What [freeze_crew_definition_for_run] adds. *)
Lemma freeze_crew_Ok env db u input out :
  freeze_crew_definition_for_run env db u input = Ok out ->
  (forall key, key ∉ RESERVED_FIELDS -> get key out = get key input)
  /\ get "frozen_runtime_context" out = get "frozen_runtime_context" input
  /\ (out = input
      \/ get_str "task_runner" input = Some "crew"
         /\ exists id definition, get "crew_definition" out = Some (JObject definition)
            /\ non_empty_trimmed (get_str "crew_id" input) = Some id
            /\ crew_ok is_uuid id definition).
Proof.
  unfold freeze_crew_definition_for_run. intros H.
  destruct input as [| | | | |object]; [by injection H as <-; auto..|].
  case_bool_decide as Hr; [injection H as <-; auto|]. bind_steps H. injection H as <-.
  apply crew_definition_ok in E1. eapply canonicalize_ok in E2; [|done].
  split_and!.
  - intros key Hkey. simpl. assert (forall k, k ∈ RESERVED_FIELDS -> key ≠ k) as Hne
      by (intros k Hk ->; done).
    destruct a0 as [[[entity_id revision]|] definition]; simpl;
      rewrite ?map_get_insert_ne by (apply Hne; listed); done.
  - simpl. by destruct a0 as [[[entity_id revision]|] definition]; simpl;
      rewrite ?map_get_insert_ne by done.
  - right. split; [done|]. exists a, a2. simpl.
    destruct a0 as [[[entity_id revision]|] definition]; simpl;
      rewrite ?map_get_insert_ne, ?map_get_insert_eq by done; done.
Qed.

Lemma context_ok_nil db u : context_ok db u [].
Proof. done. Qed.

(** What the whole freezing adds to an input. *)
Lemma freeze_context_Ok env db u input out :
  freeze_runtime_context_for_run env db u input = Ok out ->
  exists middle, freeze_crew_definition_for_run env db u (strip_client_frozen_fields input) = Ok middle
    /\ (forall key, key ≠ "frozen_runtime_context" -> get key out = get key middle)
    /\ forall context, get "frozen_runtime_context" out = Some context ->
       get "frozen_runtime_context" middle = Some context
       \/ (json_len env context ≤ MAX_CONTEXT_BYTES)%Z
          /\ exists frozen, context = JObject frozen /\ context_ok db u frozen.
Proof.
  unfold freeze_runtime_context_for_run. intros H. bind_steps H. exists a. split; [done|].
  apply (freeze_types_Ok db u) in E0; [|done|apply context_ok_nil].
  case_bool_decide as Hnil; [injection H as <-; auto|].
  case_bool_decide as Hlen; [done|]. destruct a as [| | | | |object]; injection H as <-; auto.
  split.
  - intros key Hkey. simpl. by rewrite map_get_insert_ne.
  - simpl. rewrite map_get_insert_eq. intros ? [= <-]. right. split; [lia|]. by exists a0.
Qed.

Lemma strip_keeps input key :
  key ∉ RESERVED_FIELDS -> get key (strip_client_frozen_fields input) = get key input.
Proof.
  intros Hkey. rewrite strip_get. destruct (str_mem key _) eqn:Hs; [|done].
  by apply str_mem_spec in Hs.
Qed.

Lemma freeze_keeps env db u input out :
  freeze_runtime_context_for_run env db u input = Ok out ->
  forall key, key ∉ RESERVED_FIELDS -> get key out = get key input.
Proof.
  intros (middle & Hm & Hkeep & _)%freeze_context_Ok key Hkey.
  apply freeze_crew_Ok in Hm as (Hk & _ & _).
  rewrite Hkeep, Hk, strip_keeps by (try done; intros ->; apply Hkey; listed). done.
Qed.
End texts.

(** C23: What is frozen into a run's input. Whatever fields the client sent: the frozen
    metadata are, for each kind, at most 32 values made of the listed fields of live
    entities of the user, at most 256 KiB together; a crew definition is there only for crew
    runs, is the one the input names, has listed fields at every level and names every
    OpenAI-compatible profile by a UUID; and no field of the input changes but the reserved
    ones ([RESERVED_FIELDS]). *)
Theorem frozen_context_is_sanitized `{LibTexts} env db user_id input out :
  freeze_runtime_context_for_run env db user_id input = Ok out ->
  (forall key, key ∉ RESERVED_FIELDS -> get key out = get key input)
  /\ (forall context, get "frozen_runtime_context" out = Some context ->
      (json_len env context ≤ MAX_CONTEXT_BYTES)%Z
      /\ exists frozen, context = JObject frozen /\ context_ok db user_id frozen)
  /\ (forall definition, get "crew_definition" out = Some definition ->
      get_str "task_runner" input = Some "crew"
      /\ exists id m, non_empty_trimmed (get_str "crew_id" input) = Some id
         /\ definition = JObject m /\ crew_ok is_uuid id m).
Proof.
  intros Hf. pose proof (freeze_keeps _ _ _ _ _ Hf) as Hkeeps.
  apply freeze_context_Ok in Hf as (middle & Hm & Hkeep & Hctx).
  apply freeze_crew_Ok in Hm as (Hk & Hc & Hcrew). pose proof (strip_keeps input) as Hstrip.
  assert (("task_runner" ∉ RESERVED_FIELDS) /\ ("crew_id" ∉ RESERVED_FIELDS)) as [Hn1 Hn2].
  { split; rewrite <- str_mem_spec; done. }
  split_and!.
  - exact Hkeeps.
  - intros context Hout. destruct (Hctx _ Hout) as [Hin|]; [|done].
    by rewrite Hc, strip_get in Hin.
  - intros definition Hout. rewrite Hkeep in Hout by done. destruct Hcrew as [->|(Hr & id & m & Hd & Hid & Hok)].
    + by rewrite strip_get in Hout.
    + unfold get_str in *. rewrite Hstrip in Hr, Hid by done. split; [done|].
      exists id, m. split; [done|]. split; [congruence|done].
Qed.
