(* ===== verification/RequestProperties.v ===== *)
(** * Which runs are created

    A prepared run is one its creator may start: the role, the thread, the executor target,
    the model profile and the task revision are checked against the tables, and the
    capabilities of everything it selects are required. *)

From S2P Require Import Prelude.
From S2P Require Import Json.
From S2P Require Import Contracts.
From S2P Require Import Store.
From S2P Require Import Governance.
From S2P Require Import SyncPublish.
From S2P Require Import RunStore.
From S2P Require Import Routing.
From S2P Require Import Crew.
From S2P Require Import TaskConfig.
From S2P Require Import TaskProperties.
From S2P Require Import SyncMaterialize.
From S2P Require Import Organization.
From S2P Require Import FrozenContext.
From S2P Require Import FrozenProperties.
From S2P Require Import RunRequest.
From S2P Require Import TaskStore.
From S2P Require Import TaskSafety.

Import Organization RunRequest.

(** ** Checks *)

Lemma wp_thread_project thread_id project_id env s (Q : unit -> TxState -> Prop) :
  (Materialize.live_thread_in (tx_db s) thread_id project_id = true -> Q tt s) ->
  wp env (ensure_thread_project thread_id project_id) Q s.
Proof. intros HQ. unfold ensure_thread_project. wp_steps. by apply HQ, negb_false_iff. Qed.

(** The targets a user may send a run of a project to. *)
Definition target_allowed (db : Db) (user_id project_id : Uuid) (target : ExecutorTarget) : Prop :=
  match target with
  | ServerLinux None => True
  | ServerLinux (Some pool_id) => Materialize.pool_granted db KServerLinux pool_id project_id = true
  | ManagedWindowsPool pool_id =>
      Materialize.pool_granted db KManagedWindows pool_id project_id = true
  | PersonalDevice device_id => user_can_target_personal_device db user_id device_id = true
  end.

Lemma wp_validate_target u i target env s (Q : unit -> TxState -> Prop) :
  (target_allowed (tx_db s) u i target -> Q tt s) ->
  wp env (validate_target_for_project u i target) Q s.
Proof.
  intros HQ. unfold validate_target_for_project. wp_steps.
  destruct target as [[pool|]|pool|device]; unfold ensure_pool_allowed_for_project; wp_steps;
    apply HQ; simpl; first [done|by apply negb_false_iff].
Qed.

(** The profiles a user may use in a project, on the side that has their credentials. *)
Definition profile_allowed (db : Db) (user_id project_id profile_id : Uuid)
    (target : ExecutorTarget) : Prop :=
  exists f p, live_profile db profile_id = Some f /\ live_project db project_id = Some p
    /\ (pf_owner_user_id f = Some user_id
        \/ exists team_id, pf_team_id f = Some team_id /\ pr_team_id p = Some team_id
                           /\ is_Some (team_members db !! (team_id, user_id)))
    /\ from_option id "server" (get_str "endpoint_binding" (pf_model_defaults f))
       = required_binding target.

Lemma wp_profile u i profile_id target env s (Q : unit -> TxState -> Prop) :
  ((forall f, profile_id = Some f -> profile_allowed (tx_db s) u i f target) -> Q tt s) ->
  wp env (ensure_profile_for_target u i profile_id target) Q s.
Proof.
  intros HQ. unfold ensure_profile_for_target. destruct profile_id as [profile_id|];
    [|wp_steps; by apply HQ].
  unfold accessible_profile. wp_steps. apply HQ. intros ? [= <-].
  destruct (live_profile _ _) as [f|] eqn:Hf; [|done].
  destruct (live_project _ _) as [p|] eqn:Hp; [|done].
  destruct (_ || _) eqn:Hacc; [|done]. simplify_eq. exists a, p. split_and!; [done|done| |].
  - apply orb_true_iff in Hacc as [Ho|Ht]; [left; by case_bool_decide|right].
    destruct (pf_team_id a) as [team|]; [|done]. apply andb_true_iff in Ht as [Ht Hm].
    exists team. by rewrite bool_decide_eq_true in Ht, Hm.
  - by apply negb_false_iff, String.eqb_eq in H0.
Qed.

Lemma wp_released_task project_id task env s
    (Q : option (string * list Capability * Value) -> TxState -> Prop) :
  match task with
  | None => Q None s
  | Some ref =>
      forall t required, task_definitions (tx_db s) !! (ref_id ref, ref_revision ref) = Some t ->
        td_project_id t = project_id -> runnable t ->
        decode_capabilities env (td_required_capabilities t) = Ok required ->
        Q (Some (td_instructions t, required, td_config t)) s
  end -> wp env (ensure_released_task_reference project_id task) Q s.
Proof.
  intros HQ. unfold ensure_released_task_reference. destruct task as [ref|]; wp_steps; [|done].
  destruct (task_definitions _ !! _) as [t|] eqn:Ht; [|done].
  destruct (_ && _) eqn:Hp; [|done]. simplify_eq.
  apply andb_true_iff in Hp as [[Hp Hr]%andb_true_iff Hd]. rewrite bool_decide_eq_true in Hp.
  unfold decode_capabilities_json in H0. destruct (decode_capabilities env _) eqn:Hc; [|done].
  simplify_eq/=. eapply HQ; [done|done| |done]. split; [done|].
  unfold not_deleted in Hd. by destruct (td_deleted_at a).
Qed.

Lemma ensure_crew_profiles_same u i input target :
  frames eq (ensure_crew_profiles_for_target u i input target).
Proof.
  unfold ensure_crew_profiles_for_target, ensure_profile_for_target, accessible_profile. frames_steps.
Qed.

(** ** Capabilities *)

Lemma push_new_incl l c : forall x, x ∈ l \/ x = c -> x ∈ TaskConfig.push_new l c.
Proof.
  intros x Hx. destruct (push_all_spec [c] l) as (_ & Hin & _). apply (Hin x).
  rewrite list_elem_of_singleton. done.
Qed.

Lemma push_requested_incl requested : forall l l',
  TaskConfig.push_requested l requested = Ok l' -> forall x, x ∈ l \/ x ∈ requested -> x ∈ l'.
Proof.
  induction requested as [|c requested IH]; intros l l' H x Hx; simpl in H.
  { simplify_eq. by destruct Hx as [|Hx%elem_of_nil]. }
  destruct (_ || _); [done|]. eapply IH; [exact H|].
  rewrite elem_of_cons in Hx. destruct Hx as [Hx|[->|Hx]]; [left|left|by right];
    apply push_new_incl; auto.
Qed.

(** A task's run requires everything the request and the task ask for. *)
Lemma effective_capabilities_incl requested config l :
  TaskConfig.effective_task_capabilities requested config = Ok l ->
  forall x, x ∈ requested -> x ∈ l.
Proof.
  unfold TaskConfig.effective_task_capabilities. intros H x Hx. bind_steps H.
  eapply push_requested_incl in E0; [|by right]. simplify_eq.
  destruct a1; [apply push_new_incl; by left|done].
Qed.

Lemma frozen_capabilities_incl text required input l :
  TaskConfig.apply_frozen_crew_capabilities text required input = Ok l ->
  forall x, x ∈ required -> x ∈ l.
Proof.
  unfold TaskConfig.apply_frozen_crew_capabilities. intros H x Hx.
  case_bool_decide; [by simplify_eq|]. bind_steps H. simplify_eq.
  destruct (push_all_spec (capabilities.crew_python :: a0) required) as (_ & Hin & _).
  apply (Hin x). by left.
Qed.

(** A run that selects MCP servers requires the capability for them, and on the server their
    bindings. *)
Definition mcp_bound (env : Env) (db : Db) (project_id : Uuid) (target : ExecutorTarget)
    (input : Value) : Prop :=
  is_server_linux target = true ->
  exists references, frozen_mcp_references env input = Ok references
    /\ Forall (fun r => server_mcp_bindings db !! (project_id, r.1) = Some r.2) references.

Lemma wp_server_bindings project_id input env s (Q : unit -> TxState -> Prop) :
  (forall references, frozen_mcp_references env input = Ok references ->
     Forall (fun r => server_mcp_bindings (tx_db s) !! (project_id, r.1) = Some r.2) references ->
     Q tt s) ->
  wp env (ensure_server_bindings_for_run project_id input) Q s.
Proof.
  intros HQ. unfold ensure_server_bindings_for_run. wp_steps.
  eapply wp_mono; [apply (wp_tx_iter_done _ _ _
    (fun checked s' => s' = s /\ Forall (fun r =>
       server_mcp_bindings (tx_db s) !! (project_id, r.1) = Some r.2) checked))|].
  - intros checked r s' _ [-> Hc]. unfold check_binding.
    destruct (server_mcp_bindings (tx_db s) !! _) as [name|] eqn:Hn; wp_steps. split; [done|].
    apply Forall_app. split; [done|]. constructor; [|done].
    apply negb_false_iff, String.eqb_eq in H0. congruence.
  - by split.
  - intros [] s' [-> Hc]. by eapply HQ.
Qed.

Lemma wp_require_mcp `{LibTexts} project_id target input required env s
    (Q : list Capability -> TxState -> Prop) :
  (forall l, (forall x, x ∈ required -> x ∈ l) ->
     (run_selects_mcp input = true ->
      capabilities.mcp_invoke ∈ l /\ mcp_bound env (tx_db s) project_id target input) -> Q l s) ->
  wp env (require_mcp project_id target input required) Q s.
Proof.
  intros HQ. unfold require_mcp. destruct (run_selects_mcp input) eqn:Hsel;
    [|wp_steps; by apply HQ].
  wp_step. unfold mcp_bound in HQ.
  destruct (is_server_linux target).
  - apply wp_server_bindings. intros references Hr Hall. wp_steps. apply HQ.
    + intros x Hx. apply push_new_incl. by left.
    + intros _. split; [apply push_new_incl; by right|]. eauto.
  - wp_steps. apply HQ; [|split; [apply push_new_incl; by right|done]].
    intros x Hx. apply push_new_incl. by left.
Qed.

(** ** Authorized runs *)

(** What the tables say of the run a user prepares. *)
Record run_authorized (env : Env) (db : Db) (user_id : Uuid) (spec : RunSpec) : Prop := {
  ra_creator : spec_creator_user_id spec = user_id;
  ra_role : exists p role, live_project db (spec_project_id spec) = Some p
            /\ member_role db user_id (spec_project_id spec) p = Ok (Some role)
            /\ role ≠ Viewer /\ pr_revision p = ref_revision (spec_project spec)
            /\ pr_privacy p = spec_project_privacy spec;
  ra_thread : Materialize.live_thread_in db (spec_thread_id spec) (spec_project_id spec) = true;
  ra_target : target_allowed db user_id (spec_project_id spec) (spec_executor_target spec);
  ra_profile : forall f, spec_model_profile_id spec = Some f ->
               profile_allowed db user_id (spec_project_id spec) f (spec_executor_target spec);
  ra_task : forall ref, spec_task spec = Some ref ->
            exists t required, task_definitions db !! (ref_id ref, ref_revision ref) = Some t
              /\ td_project_id t = spec_project_id spec /\ runnable t
              /\ get "task_instructions" (spec_input spec) = Some (JString (td_instructions t))
              /\ get "task_config" (spec_input spec) = Some (td_config t)
              /\ decode_capabilities env (td_required_capabilities t) = Ok required
              /\ forall c, c ∈ required -> c ∈ spec_required_capabilities spec;
  ra_mcp : run_selects_mcp (spec_input spec) = true ->
           capabilities.mcp_invoke ∈ spec_required_capabilities spec
           /\ mcp_bound env db (spec_project_id spec) (spec_executor_target spec) (spec_input spec);
}.

(** The input a task freezes. *)
Lemma freeze_task_input_get input instructions config m :
  TaskConfig.freeze_task_input input instructions config = Ok m ->
  map_get "task_instructions" m = Some (JString instructions)
  /\ map_get "task_config" m = Some config.
Proof.
  unfold TaskConfig.freeze_task_input. intros H. bind_steps H. injection H as <-.
  destruct a0; rewrite ?map_get_insert_ne, map_get_insert_eq by done;
    rewrite ?map_get_insert_ne by done; by rewrite ?map_get_insert_eq.
Qed.

(** What a task adds to a request. *)
Record with_task (env : Env) (db : Db) (request request' : CreateRunRequest) : Prop := {
  wt_request : request' = with_input request (crr_required_capabilities request') (crr_input request');
  wt_task : forall ref, crr_task request = Some ref ->
    exists t required, task_definitions db !! (ref_id ref, ref_revision ref) = Some t
      /\ td_project_id t = crr_project_id request /\ runnable t
      /\ get "task_instructions" (crr_input request') = Some (JString (td_instructions t))
      /\ get "task_config" (crr_input request') = Some (td_config t)
      /\ decode_capabilities env (td_required_capabilities t) = Ok required
      /\ forall c, c ∈ required -> c ∈ crr_required_capabilities request';
}.

Lemma wp_apply_task env s request (Q : CreateRunRequest -> TxState -> Prop) :
  (forall request', with_task env (tx_db s) request request' -> Q request' s) ->
  wp env (apply_task request) Q s.
Proof.
  intros HQ. unfold apply_task. wp_step. apply wp_released_task.
  destruct (crr_task request) as [ref|] eqn:Href.
  - intros t required Ht Hp Hr Hc. wp_steps. apply HQ.
    split; [done|]. rewrite Href. intros ? [= <-]. exists t, required. simpl.
    apply freeze_task_input_get in H0 as [Hi Hcfg]. split_and!; try done.
    intros c Hin. eapply effective_capabilities_incl; [exact H|]. apply elem_of_app. by right.
  - wp_steps. apply HQ. split; [by destruct request|]. congruence.
Qed.

(** How a prepared run relates to its request. *)
Record prepared (env : Env) (db : Db) (user_id : Uuid) (request : CreateRunRequest)
    (answer : RunSpec * RunState) (db' : Db) : Prop := {
  pp_db : db' = db;
  pp_authorized : run_authorized env db user_id answer.1;
  pp_project : spec_project_id answer.1 = crr_project_id request;
  pp_thread : spec_thread_id answer.1 = crr_thread_id request;
  pp_target : spec_executor_target answer.1 = crr_executor_target request;
  pp_task : spec_task answer.1 = crr_task request;
  pp_key : spec_idempotency_key answer.1 = crr_idempotency_key request;
}.

Lemma wp_prepare_run `{LibTexts} env db server_capabilities user_id request :
  wp env (prepare_run server_capabilities user_id request)
    (fun answer s => prepared env db user_id request answer (tx_db s)) (MkTx db 0).
Proof.
  unfold prepare_run, ensure_run_context. wp_steps.
  apply wp_role; [done|]. intros role p Hp Hrole Hrank. wp_steps. simpl in *.
  apply wp_thread_project. intros Hthread. wp_steps. simpl in *.
  apply wp_validate_target. intros Htarget. simpl in *. wp_step.
  apply wp_apply_task. intros request' [Hreq Htask]. wp_steps. simpl in *.
  apply wp_require_mcp. intros required Hincl Hmcp. simpl in *. wp_step.
  apply wp_profile. intros Hprofile. simpl in *. wp_step.
  eapply (wp_frames eq); [apply ensure_crew_profiles_same|]. intros [] s1 Hs1. simpl in *. wp_steps.
  assert (crr_model_profile_id request' = crr_model_profile_id request
          /\ crr_executor_target request' = crr_executor_target request
          /\ crr_task request' = crr_task request
          /\ crr_project_id request' = crr_project_id request
          /\ crr_thread_id request' = crr_thread_id request
          /\ crr_project_revision request' = crr_project_revision request
          /\ crr_project_privacy request' = crr_project_privacy request
          /\ crr_idempotency_key request' = crr_idempotency_key request)
    as (Hf & Ht & Hk & Hpr & Hth & Hrev & Hpriv & Hkey) by (rewrite Hreq; done).
  split; try done. split; simpl; rewrite ?Hf, ?Ht, ?Hk, ?Hpr, ?Hth in *; try done.
  - exists a0, role. rewrite Hp in H1. simplify_eq. rewrite bool_decide_eq_false in H2, H3.
    split_and!; [done|done|by intros ->|rewrite Hrev|rewrite Hpriv]; by apply dec_stable.
  - intros ref Href. destruct (Htask ref Href) as (t & req & Hrow & Hproj & Hrun & Hi & Hc & Hd & Hin).
    exists t, req. split_and!; try done.
    + rewrite <- Hi. eapply freeze_keeps; [exact H4|]. by rewrite <- str_mem_spec.
    + rewrite <- Hc. eapply freeze_keeps; [exact H4|]. by rewrite <- str_mem_spec.
    + intros c Hc'. eapply Hincl, frozen_capabilities_incl; [exact H5|]. by apply Hin.
Qed.

(** C22: A run request is authorized. Preparing a run changes no table, and a prepared run
    satisfies, by the tables at that moment: its creator is the requesting user, who is owner
    or at least runner in the live project of the named revision and privacy; the thread is a
    live thread of the project; the executor target and the model profile are ones the user
    may use there; a named task is the released revision, whose instructions and
    configuration are in the input and whose capabilities are required; and MCP servers are
    only selected with their capability and, on the server, their bindings. *)
Theorem prepared_run_is_authorized `{LibTexts} env db server_capabilities user_id request
    db' spec state :
  run_tx env db (prepare_run server_capabilities user_id request) = (db', Ok (spec, state)) ->
  db' = db /\ run_authorized env db user_id spec
  /\ spec_project_id spec = crr_project_id request /\ spec_thread_id spec = crr_thread_id request
  /\ spec_executor_target spec = crr_executor_target request
  /\ spec_task spec = crr_task request
  /\ spec_idempotency_key spec = crr_idempotency_key request.
Proof.
  intros Hrun.
  destruct (run_tx_post _ _ _ _ _ (prepared env db user_id request) Hrun (wp_prepare_run _ _ _ _ _)).
  split_and!; done.
Qed.
