(* ===== verification/ScheduleProperties.v ===== *)
(** * Schedules run their occurrences once

    What an iteration of the trigger loop does, and the loop over crashes between its
    transactions: every occurrence gets one run, a pass leaves nothing due, and the run is
    the released revision of the task in the name of the schedule's creator. *)

From S2P Require Import Prelude.
From S2P Require Import Json.
From S2P Require Import Contracts.
From S2P Require Import Store.
From S2P Require Import Governance.
From S2P Require Import SyncPublish.
From S2P Require Import RunStore.
From S2P Require Import Routing.
From S2P Require Import RunInv.
From S2P Require Import RunSafety.
From S2P Require Import RunSystem.
From S2P Require Import RunProperties.
From S2P Require Import TaskConfig.
From S2P Require Import SyncSystem.
From S2P Require Import SyncMaterialize.
From S2P Require Import Organization.
From S2P Require Import FrozenContext.
From S2P Require Import FrozenProperties.
From S2P Require Import RunRequest.
From S2P Require Import TaskStore.
From S2P Require Import Schedules.
From S2P Require Import TaskSafety.
From S2P Require Import RequestProperties.

Import Organization TaskStore Schedules.

(** ** What the transactions of an iteration keep *)

Definition same_schedules (db db' : Db) : Prop := schedules db' = schedules db.

#[global] Instance same_schedules_preorder : PreOrder same_schedules.
Proof. split; [done|]. intros d1 d2 d3 H1 H2. unfold same_schedules in *. congruence. Qed.

#[export] Hint Extern 3 (frames same_schedules (modify _)) =>
  apply frames_modify; intros ?; reflexivity : store.

Lemma create_run_schedules spec s : frames same_schedules (create_run spec s).
Proof. autounfold with runops. frames_steps. Qed.

Lemma publish_schedule_schedules id : frames same_schedules (publish_canonical_schedule_tx id).
Proof.
  unfold publish_canonical_schedule_tx, publish_server_entity_tx, write_entity_version,
    put_sync_entity, append_sync_change, enforce_storage_quota_tx, remember_materialization.
  frames_steps.
Qed.

Lemma publish_schedule_same id : frames same_runs (publish_canonical_schedule_tx id).
Proof. unfold publish_canonical_schedule_tx. frames_steps. Qed.

Section texts.
Context {texts : LibTexts}.

(** A schedule that moved is the only row that changed, and no run did. *)
Lemma move_schedule_post {A} env db id next triggered reason (x : A) db' y :
  run_tx env db (_ ← move_schedule id next triggered reason; mret x) = (db', Ok y) ->
  y = x /\ same_runs db db'
  /\ schedules db' = alter (moved (db_now env) next triggered reason) id (schedules db).
Proof.
  intros Hrun. run_post Hrun. unfold move_schedule. wp_steps.
  eapply wp_mono.
  { apply wp_and; [apply (publish_schedule_schedules id)|apply (publish_schedule_same id)]. }
  intros b s' [Hs Hr]. wp_steps. split; [done|]. split; [|exact Hs].
  etrans; [|exact Hr]. by split.
Qed.

Lemma create_occurrence_schedules envs db spec :
  schedules (create_occurrence envs db spec).1 = schedules db.
Proof. apply (frames_run_tx same_schedules), create_run_schedules. Qed.

(** ** Due schedules *)

Lemma due_schedules_elem env db now id row :
  (id, row) ∈ due_schedules env db now
  <-> schedules db !! id = Some row /\ is_due now row = true /\ row_locked env id = false.
Proof.
  unfold due_schedules. rewrite (merge_sort_Permutation due_before), list_elem_of_filter,
    elem_of_map_to_list. simpl. rewrite andb_true_iff, negb_true_iff. tauto.
Qed.

Lemma is_due_inv now row :
  is_due now row = true ->
  sh_enabled row = true /\ sh_deleted_at row = None
  /\ exists due_at, sh_next_run_at row = Some due_at /\ (due_at ≤ now)%Z.
Proof.
  unfold is_due, not_deleted. intros [[He Hd]%andb_true_iff Hn]%andb_true_iff.
  destruct (sh_deleted_at row); [done|]. destruct (sh_next_run_at row) as [t|]; [|done].
  rewrite bool_decide_eq_true in Hn. eauto.
Qed.

(** The cron crate's occurrences come after the instant they are asked for. *)
Definition cron_advances (env : Env) : Prop :=
  forall cron zone t t', cron_next env cron zone t = Some t' -> (t < t')%Z.

Lemma read_occurrence_Ok env id row now o :
  read_occurrence env id row now = Ok o ->
  sd_id (oc_schedule o) = id /\ sd_task_id (oc_schedule o) = sh_task_id row
  /\ sd_project_id (oc_schedule o) = sh_project_id row
  /\ sd_thread_id (oc_schedule o) = sh_thread_id row
  /\ sh_next_run_at row = Some (oc_due_at o)
  /\ (cron_advances env -> (now < oc_next_run_at o)%Z).
Proof.
  unfold read_occurrence, row_to_schedule, TaskConfig.next_occurrence_normalized. intros H.
  bind_steps H. bind_steps E. injection H as <-. injection E as <-. simpl in *.
  split_and!; try done. intros Hc. destruct (cron_error env a2); [done|].
  apply ok_or_Ok in E4. by eapply Hc.
Qed.

(** ** The run of an occurrence *)

(** What a scheduled run is: the released revision of the schedule's task, for the
    schedule's creator, who has to be at least runner when it is due. *)
Record scheduled_run (env : Env) (db : Db) (id : Uuid) (row : ScheduleRow) (due_at : DateTime)
    (spec : RunSpec) : Prop := {
  sr_creator : spec_creator_user_id spec = sh_created_by row;
  sr_key : spec_idempotency_key spec = occurrence_key id due_at;
  sr_project : spec_project_id spec = sh_project_id row;
  sr_thread : spec_thread_id spec = sh_thread_id row;
  sr_role : exists p role, live_project db (sh_project_id row) = Some p
            /\ member_role db (sh_created_by row) (sh_project_id row) p = Ok (Some role)
            /\ role ≠ Viewer /\ pr_revision p = ref_revision (spec_project spec)
            /\ pr_privacy p = spec_project_privacy spec
            /\ (pr_privacy p = PrivateLocal ->
                is_personal_device (spec_executor_target spec) = false ->
                exists snapshot m, spec_snapshot_id spec = Some snapshot
                  /\ snapshot_manifests db !! snapshot = Some m
                  /\ mf_project_id m = sh_project_id row /\ mf_status m = "ready");
  sr_task : exists revision t,
            spec_task spec = Some {| ref_id := sh_task_id row; ref_revision := revision |}
            /\ task_definitions db !! (sh_task_id row, revision) = Some t
            /\ td_project_id t = sh_project_id row /\ runnable t
            /\ get "task_instructions" (spec_input spec) = Some (JString (td_instructions t))
            /\ get "task_config" (spec_input spec) = Some (td_config t);
  sr_mcp : RunRequest.run_selects_mcp (spec_input spec) = true ->
           capabilities.mcp_invoke ∈ spec_required_capabilities spec;
}.

Lemma scheduled_input_get env input instructions config trigger v :
  TaskConfig.scheduled_input env input instructions config trigger = Ok v ->
  get "task_instructions" v = Some (JString instructions) /\ get "task_config" v = Some config.
Proof.
  unfold TaskConfig.scheduled_input. intros H. bind_steps H. injection H as <-.
  apply freeze_task_input_get in E as [Hi Hc]. unfold get. cbv zeta.
  rewrite !(map_get_insert_ne _ "_schedule") by done.
  destruct (map_has "prompt" a); rewrite ?map_get_insert_ne by done; done.
Qed.

Lemma ready_snapshot_Some env db project_id snapshot :
  ready_snapshot env db project_id = Some snapshot ->
  exists m, snapshot_manifests db !! snapshot = Some m /\ mf_project_id m = project_id
    /\ mf_status m = "ready".
Proof.
  unfold ready_snapshot. intros H. apply fmap_Some in H as ([id m] & Hh & ->).
  assert ((id, m) ∈ merge_sort newer_manifest (filter (fun kv =>
    bool_decide (mf_project_id kv.2 = project_id) && bool_decide (mf_status kv.2 = "ready")
    && match mf_expires_at kv.2 with
       | None => true
       | Some expires_at => bool_decide (db_now env < expires_at)%Z
       end = true) (map_to_list (snapshot_manifests db)))) as Hin
    by (destruct (merge_sort _ _); simplify_eq/=; by constructor).
  rewrite (merge_sort_Permutation newer_manifest), list_elem_of_filter, elem_of_map_to_list in Hin.
  simpl in Hin. destruct Hin as [[[Hp Hs]%andb_true_iff _]%andb_true_iff Hm].
  rewrite bool_decide_eq_true in Hp, Hs. eauto.
Qed.

Lemma released_task_Some db task_id project_id revision t :
  released_task db task_id project_id = Some (revision, t) ->
  task_definitions db !! (task_id, revision) = Some t /\ td_project_id t = project_id /\ runnable t.
Proof.
  intros (Ht & Hp & _)%task_revisions_head.
  apply andb_true_iff in Hp as [[Hp Hr]%andb_true_iff Hd]. rewrite bool_decide_eq_true in Hp.
  split_and!; [done|done|]. split; [done|]. unfold not_deleted in Hd. by destruct (td_deleted_at t).
Qed.

Lemma ensure_pool_same i target : frames eq (ensure_pool_of_target i target).
Proof. unfold ensure_pool_of_target, ensure_pool_allowed_for_project. frames_steps. Qed.

Lemma row_to_task_Ok env id revision t task :
  row_to_task env id revision t = Ok task ->
  tk_id task = id /\ tk_revision task = revision /\ tk_instructions task = td_instructions t
  /\ tk_config task = td_config t.
Proof. unfold row_to_task. intros H. bind_steps H. by injection H as <-. Qed.

Lemma wp_scheduled_snapshot env db p project_id target s (Q : option Uuid -> TxState -> Prop) :
  (forall snapshot,
     (pr_privacy p = PrivateLocal -> is_personal_device target = false ->
      exists m, snapshot = Some m /\ ready_snapshot env db project_id = Some m) ->
     Q snapshot s) ->
  wp env (scheduled_snapshot env db p project_id target) Q s.
Proof.
  intros HQ. unfold scheduled_snapshot. destruct (_ && _) eqn:Hremote; wp_steps.
  - apply HQ. eauto.
  - apply HQ. intros Hp Ht. by rewrite bool_decide_eq_true_2, Ht in Hremote.
Qed.

Lemma wp_prepare_scheduled env db server_capabilities id row o now :
  schedules db !! id = Some row -> read_occurrence env id row now = Ok o ->
  wp env (prepare_scheduled_run server_capabilities (oc_schedule o) (oc_due_at o) now
            (oc_missed o) (oc_truncated o))
    (fun spec _ => scheduled_run env db id row (oc_due_at o) spec) (MkTx db 0).
Proof.
  intros Hrow (Hid & Htask & Hproject & Hthread & Hdue & _)%read_occurrence_Ok.
  unfold prepare_scheduled_run, schedule_created_by. rewrite Hid. wp_steps.
  rewrite Hrow in *. simplify_eq.
  apply wp_role; [done|]. intros role p Hp Hrole Hrank. simpl in *. wp_steps.
  eapply (wp_frames eq); [apply ensure_crew_profiles_same|]. intros [] s1 Hs1. wp_steps.
  apply wp_require_mcp. intros required Hincl Hmcp. wp_steps.
  eapply (wp_frames eq); [apply ensure_pool_same|]. intros [] s2 Hs2. wp_step.
  eapply wp_mono; [apply wp_true|]. intros available s3 _. wp_steps.
  apply wp_scheduled_snapshot. intros snapshot Hsnap. wp_steps.
  destruct a1 as [revision t]. apply released_task_Some in H0 as (Ht & Htp & Hrun).
  apply row_to_task_Ok in H1 as (Hti & Htr & Htin & Htc). simpl in *.
  apply scheduled_input_get in H4 as [Hi Hc]. rewrite Hproject, Htask in *. simplify_eq.
  split; simpl; try done; try (by rewrite Hproject).
  - exists p, role. split_and!; [done|done|by intros ->|done|done|]. intros Hpriv Hdev.
    destruct (Hsnap Hpriv Hdev) as (m & -> & Hm). apply ready_snapshot_Some in Hm as (m' & ?).
    by exists m, m'.
  - exists (tk_revision a2), t. rewrite Hti. split_and!; try done.
    + rewrite <- Htin, <- Hi. eapply freeze_keeps; [exact H5|]. by rewrite <- str_mem_spec.
    + rewrite <- Htc, <- Hc. eapply freeze_keeps; [exact H5|]. by rewrite <- str_mem_spec.
  - intros Hsel. by apply Hmcp.
Qed.

(** ** One iteration *)

(** How an iteration ends: nothing is due, the occurrence ran, or it was blocked. *)
Inductive iteration (envs : TriggerEnv) (db : Db) (server_capabilities : list Capability)
    (now : DateTime) : Db -> option bool -> Prop :=
| iteration_idle :
    head (due_schedules (te_read envs) db now) = None ->
    iteration envs db server_capabilities now db None
| iteration_ran id row o spec db1 run db' :
    head (due_schedules (te_read envs) db now) = Some (id, row) ->
    read_occurrence (te_read envs) id row now = Ok o ->
    scheduled_run (te_read envs) db id row (oc_due_at o) spec ->
    create_occurrence envs db spec = (db1, Ok run) -> same_runs db1 db' ->
    schedules db' = alter (moved (db_now (te_move envs)) (oc_next_run_at o) (Some now) None) id
                      (schedules db) ->
    iteration envs db server_capabilities now db' (Some true)
| iteration_blocked id row o reason db' :
    head (due_schedules (te_read envs) db now) = Some (id, row) ->
    read_occurrence (te_read envs) id row now = Ok o -> same_runs db db' ->
    schedules db' = alter (moved (db_now (te_move envs)) (oc_next_run_at o) None (Some reason)) id
                      (schedules db) ->
    iteration envs db server_capabilities now db' (Some false).

Lemma due_head env db now id row :
  head (due_schedules env db now) = Some (id, row) ->
  schedules db !! id = Some row /\ is_due now row = true.
Proof.
  intros Hh. pose proof (due_schedules_elem env db now id row) as [He _].
  destruct (due_schedules env db now); simplify_eq/=. destruct He as (? & ? & _); [by constructor|done].
Qed.

Lemma trigger_one_iteration envs db server_capabilities now db' answer :
  trigger_one envs db server_capabilities now = (db', Ok answer) ->
  iteration envs db server_capabilities now db' answer.
Proof.
  unfold trigger_one. destruct (head _) as [[id row]|] eqn:Hh;
    [|intros [= <- <-]; by apply iteration_idle].
  destruct (due_head _ _ _ _ _ Hh) as [Hrow _].
  destruct (read_occurrence _ _ _ _) as [o|e] eqn:Ho; [|done].
  destruct (prepare_occurrence _ _ _ _ _) as [spec|e] eqn:Hp.
  - destruct (create_occurrence _ _ _) as [db1 [run|e]] eqn:Hc; [|done]. intros Hm.
    apply move_schedule_post in Hm as (-> & Hsame & Hsch).
    eapply iteration_ran; try done.
    + unfold prepare_occurrence, run_tx in Hp.
      pose proof (wp_prepare_scheduled _ _ server_capabilities _ _ _ _ Hrow Ho) as Hwp.
      unfold wp in Hwp. destruct (prepare_scheduled_run _ _ _ _ _ _ _ _) as [[spec' s']|];
        simplify_eq/=. done.
    + rewrite Hsch. f_equal. pose proof (create_occurrence_schedules envs db spec) as Hs.
      by rewrite Hc in Hs.
  - intros Hm. apply move_schedule_post in Hm as (-> & Hsame & Hsch).
    by eapply iteration_blocked.
Qed.

(** ** Passes, crashes and everything else that happens to runs *)

Inductive pass_step (server_capabilities : list Capability) (db : Db) : Db -> Prop :=
| pass_iteration envs now :
    pass_step server_capabilities db (trigger_one envs db server_capabilities now).1
| pass_crash envs now id row o spec :
    head (due_schedules (te_read envs) db now) = Some (id, row) ->
    read_occurrence (te_read envs) id row now = Ok o ->
    prepare_occurrence (te_read envs) db server_capabilities o now = Ok spec ->
    pass_step server_capabilities db (create_occurrence envs db spec).1
| pass_run db' : step db db' -> pass_step server_capabilities db db'
| pass_other db' : same_runs db db' -> pass_step server_capabilities db db'.

Lemma create_occurrence_Inv envs db spec : Inv db -> Inv (create_occurrence envs db spec).1.
Proof.
  intros HI. assert (initial_state Queued) as Hq by (by left).
  apply (step_good _ _ (step_create_run db (te_create envs) spec Queued Hq) HI).
Qed.

Lemma move_schedule_same id next triggered reason :
  frames same_runs (move_schedule id next triggered reason).
Proof.
  pose proof (publish_schedule_same id) as Hp. unfold move_schedule.
  frames_steps.
Qed.

Lemma move_same {A} env db id next triggered reason (x : A) :
  same_runs db (run_tx env db (_ ← move_schedule id next triggered reason; mret x)).1.
Proof.
  apply (frames_run_tx same_runs). pose proof (move_schedule_same id next triggered reason).
  frames_steps.
Qed.

Lemma pass_step_Inv server_capabilities db db' :
  pass_step server_capabilities db db' -> Inv db -> Inv db'.
Proof.
  destruct 1 as [envs now|envs now id row o spec _ _ _|db' Hs|db' Hs]; intros HI.
  - unfold trigger_one. destruct (head _) as [[id row]|]; [|done].
    destruct (read_occurrence _ _ _ _) as [o|]; [|done].
    destruct (prepare_occurrence _ _ _ _ _) as [spec|e].
    + pose proof (create_occurrence_Inv envs db spec HI) as HI1.
      destruct (create_occurrence _ _ _) as [db1 [run|e]]; [|done].
      eapply Inv_same; [apply move_same|done].
    + eapply Inv_same; [apply move_same|done].
  - by apply create_occurrence_Inv.
  - by apply (step_good _ _ Hs).
  - by eapply Inv_same.
Qed.

Lemma pass_steps_Inv server_capabilities db db' :
  rtc (pass_step server_capabilities) db db' -> Inv db -> Inv db'.
Proof. induction 1; [done|]. intros HI. by eapply IHrtc, pass_step_Inv. Qed.

(** A creation under a key that is not taken answers with the run it was asked for. *)
Lemma create_run_first env spec st :
  run_by_key (tx_db st) (spec_creator_user_id spec) (spec_idempotency_key spec) = None ->
  wp env (create_run spec Queued) (fun rec _ => rec_spec rec = spec) st.
Proof.
  intros Hkey. unfold create_run, create_run_tx, put_run. wp_steps. rewrite Hkey. wp_steps.
  unfold wp at 1. destruct (enforce_run_quota_tx _ _ env st) as [[u s1]|] eqn:Hq; [|done].
  destruct (quota_admits _ _ _ _ _ _ Hq (or_introl eq_refl)) as [-> _]. wp_steps. rewrite Hkey. wp_steps.
  eapply wp_mono; [apply wp_true|]. intros e s2 _. wp_steps. apply new_run_insert_spec.
Qed.

(** The run of an occurrence after its creation: the stored one if there was one. *)
Lemma create_occurrence_post envs db spec db1 run :
  Inv db -> create_occurrence envs db spec = (db1, Ok run) ->
  holds_key db1 (spec_creator_user_id spec) (spec_idempotency_key spec) (rec_spec run)
  /\ (forall spec0, holds_key db (spec_creator_user_id spec) (spec_idempotency_key spec) spec0 ->
      db1 = db /\ rec_spec run = spec0)
  /\ ((forall spec0, ~ holds_key db (spec_creator_user_id spec) (spec_idempotency_key spec) spec0) ->
      rec_spec run = spec).
Proof.
  intros HI Hc. split_and!.
  - apply (run_tx_post _ _ _ _ _ (fun rec d => holds_key d (spec_creator_user_id spec)
      (spec_idempotency_key spec) (rec_spec rec)) Hc). apply create_run_stored; [done|by left].
  - intros spec0 Hk. destruct (holds_key_answer (te_create envs) db _ _ spec0 spec Queued HI Hk
      eq_refl eq_refl) as (r & Hr & Hs & Hrun).
    unfold create_occurrence in Hc. rewrite Hrun in Hc. by simplify_eq.
  - intros Hnone. unfold create_occurrence in Hc. run_post Hc. apply create_run_first.
    destruct (run_by_key _ _ _) as [[i r]|] eqn:Hkey; [|done].
    by destruct (Hnone _ (run_by_key_holds _ _ _ _ _ HI Hkey)).
Qed.

Lemma holds_key_same db db' creator key spec :
  same_runs db db' -> holds_key db creator key spec -> holds_key db' creator key spec.
Proof. intros [Hr _ _ _ _ _ _] H. unfold holds_key. by rewrite Hr. Qed.
End texts.

(** C21: An occurrence of a schedule runs exactly once. Take any history of passes over the
    schedules, of crashes after a run was created and before its schedule moved on, and of
    everything else that happens to runs; an iteration that then runs an occurrence leaves
    exactly one run under the occurrence's key: the one a crashed iteration created if there
    is one, and then no run is added, or else the run the schedule describes; and the schedule
    has moved to a later time than now. *)
Theorem occurrence_runs_once `{LibTexts} server_capabilities db0 db envs now db' :
  Inv db0 -> rtc (pass_step server_capabilities) db0 db -> cron_advances (te_read envs) ->
  trigger_one envs db server_capabilities now = (db', Ok (Some true)) ->
  exists id row due_at spec row' next,
    schedules db !! id = Some row /\ sh_next_run_at row = Some due_at /\ (due_at ≤ now)%Z
    /\ holds_key db' (sh_created_by row) (occurrence_key id due_at) spec
    /\ (forall i r, runs db' !! i = Some r -> ins_creator_user_id (run_ins r) = sh_created_by row ->
        ins_idempotency_key (run_ins r) = occurrence_key id due_at -> i = spec_id spec)
    /\ (forall spec0, holds_key db (sh_created_by row) (occurrence_key id due_at) spec0 ->
        spec = spec0 /\ runs db' = runs db)
    /\ ((forall spec0, ~ holds_key db (sh_created_by row) (occurrence_key id due_at) spec0) ->
        scheduled_run (te_read envs) db id row due_at spec)
    /\ schedules db' !! id = Some row' /\ sh_next_run_at row' = Some next /\ (now < next)%Z
    /\ sh_last_triggered_at row' = Some now.
Proof.
  intros HI0 Hsteps Hcron Hone. pose proof (pass_steps_Inv _ _ _ Hsteps HI0) as HI.
  pose proof (pass_step_Inv _ _ _ (pass_iteration server_capabilities db envs now) HI) as HI'.
  rewrite Hone in HI'. simpl in HI'. apply trigger_one_iteration in Hone.
  inversion Hone as [|id row o spec db1 run d' Hh Ho Hspec Hc Hsame Hsch|]; subst.
  destruct (due_head _ _ _ _ _ Hh) as [Hrow Hdue].
  destruct (read_occurrence_Ok _ _ _ _ _ Ho) as (_ & _ & _ & _ & Hnext & Hlater).
  apply is_due_inv in Hdue as (_ & _ & due_at & Hdue & Hle). rewrite Hnext in Hdue. simplify_eq.
  destruct (create_occurrence_post _ _ _ _ _ HI Hc) as (Hkey & Honce & Hfirst).
  rewrite (sr_creator _ _ _ _ _ _ Hspec), (sr_key _ _ _ _ _ _ Hspec) in *.
  apply (holds_key_same _ _ _ _ _ Hsame) in Hkey.
  exists id, row, (oc_due_at o), (rec_spec run),
    (moved (db_now (te_move envs)) (oc_next_run_at o) (Some now) None row), (oc_next_run_at o).
  split_and!; try done.
  - intros i r Hr Hcr Hk. destruct Hkey as (r0 & Hr0 & _ & Hcr0 & Hk0).
    eapply (inv_key _ HI'); [exact Hr|exact Hr0|congruence|congruence].
  - intros spec0 H0. destruct (Honce _ H0) as [-> ->]. split; [done|]. by destruct Hsame.
  - intros Hnone. rewrite Hfirst; [done|]. intros spec0 H0. by apply (Hnone spec0).
  - by rewrite Hsch, lookup_alter_eq, Hrow.
  - by apply Hlater.
Qed.

(** ** A whole pass *)

Section pass.
Context {texts : LibTexts}.

Definition due_map (db : Db) (now : DateTime) : gmap Uuid ScheduleRow :=
  filter (fun kv => is_due now kv.2 = true) (schedules db).

(** A schedule an iteration dealt with: it ran, or it keeps the reason it did not. *)
Definition handled (now : DateTime) (row : ScheduleRow) : Prop :=
  exists next, sh_next_run_at row = Some next /\ (now < next)%Z
    /\ (sh_last_triggered_at row = Some now \/ is_Some (sh_blocked_reason row)).

Definition dealt (now : DateTime) (db db' : Db) : Prop :=
  forall id row, schedules db !! id = Some row ->
  exists row', schedules db' !! id = Some row' /\ (row' = row \/ handled now row').

#[global] Instance dealt_preorder now : PreOrder (dealt now).
Proof.
  split; [intros db id row Hr; exists row; auto|].
  intros d1 d2 d3 H12 H23 id row Hr. destruct (H12 _ _ Hr) as (row1 & H1 & Hd1).
  destruct (H23 _ _ H1) as (row2 & H2 & Hd2). exists row2. split; [done|].
  destruct Hd2 as [->|]; auto.
Qed.

(** The row an iteration moves is no longer due. *)
Lemma moved_progress now move_time next triggered reason db db' id row :
  schedules db !! id = Some row -> is_due now row = true -> (now < next)%Z ->
  triggered = Some now \/ is_Some reason ->
  schedules db' = alter (moved move_time next triggered reason) id (schedules db) ->
  dealt now db db' /\ due_map db' now = delete id (due_map db now).
Proof.
  intros Hrow Hdue Hlt Hwhy Hs.
  assert (is_due now (moved move_time next triggered reason row) = false) as Hnot.
  { unfold is_due. simpl. rewrite bool_decide_eq_false_2 by lia. by rewrite andb_false_r. }
  assert (handled now (moved move_time next triggered reason row)) as Hh.
  { exists next. split_and!; [done|done|]. simpl. destruct Hwhy as [->|?]; [by left|by right]. }
  split.
  - intros i r Hi. rewrite Hs. destruct (decide (i = id)) as [->|Hne].
    + rewrite lookup_alter_eq, Hi. simplify_eq. eexists. split; [done|by right].
    + rewrite lookup_alter_ne by done. exists r. auto.
  - apply map_eq. intros i. unfold due_map. destruct (decide (i = id)) as [->|Hne].
    + rewrite lookup_delete_eq. apply map_lookup_filter_None. right. intros r.
      rewrite Hs, lookup_alter_eq, Hrow. intros [= <-]. simpl. by rewrite Hnot.
    + rewrite lookup_delete_ne by done. apply option_eq. intros r.
      rewrite !map_lookup_filter_Some, Hs, lookup_alter_ne by done. done.
Qed.

Lemma due_head_none env db now :
  (forall id, row_locked env id = false) ->
  head (due_schedules env db now) = None -> due_map db now = ∅.
Proof.
  intros Hlock Hh. apply map_eq. intros i. rewrite lookup_empty. unfold due_map.
  apply map_lookup_filter_None. right. intros row Hrow Hdue. simpl in Hdue.
  assert ((i, row) ∈ due_schedules env db now) as Hin
    by (by apply due_schedules_elem).
  destruct (due_schedules env db now); [by apply elem_of_nil in Hin|done].
Qed.

Lemma trigger_loop_clears envs server_capabilities now n : forall db triggered db' m,
  (forall k, cron_advances (te_read (envs k))) ->
  (forall k id, row_locked (te_read (envs k)) id = false) ->
  (size (due_map db now) < n)%nat ->
  trigger_loop envs n db server_capabilities now triggered = (db', Ok m) ->
  dealt now db db' /\ due_map db' now = ∅.
Proof.
  induction n as [|n IH]; intros db triggered db' m Hcron Hlock Hsize Hrun; [lia|].
  simpl in Hrun. destruct (trigger_one _ _ _ _) as [db1 [[ran|]|e]] eqn:Hone; [| |done].
  - apply trigger_one_iteration in Hone.
    assert (dealt now db db1 /\ exists id, is_Some (due_map db now !! id)
            /\ due_map db1 now = delete id (due_map db now)) as (Hd & id & Hin & Hdue).
    { inversion Hone as [|id row o spec d1 run d' Hh Ho _ _ _ Hsch
                         |id row o reason d' Hh Ho _ Hsch]; subst;
        destruct (due_head _ _ _ _ _ Hh) as [Hrow Hdue];
        destruct (read_occurrence_Ok _ _ _ _ _ Ho) as (_ & _ & _ & _ & _ & Hlater);
        specialize (Hlater (Hcron _));
        eapply moved_progress in Hsch as [Hd Hm]; eauto; (split; [done|]); exists id;
        (split; [|done]); exists row; by apply map_lookup_filter_Some. }
    destruct (IH db1 (if ran then S triggered else triggered) db' m Hcron Hlock) as [Hd' Hm'];
      [|done|split; [by etrans|done]].
    rewrite Hdue, map_size_delete. destruct Hin as [row Hin]. rewrite Hin.
    assert (size (due_map db now) ≠ 0)%nat; [|lia].
    rewrite map_size_empty_iff. intros Hempty. by rewrite Hempty in Hin.
  - injection Hrun as <- <-. apply trigger_one_iteration in Hone. inversion Hone; subst.
    split; [reflexivity|]. by eapply due_head_none.
Qed.
End pass.

(** C25: A pass that succeeds leaves nothing due. When no other worker holds schedules and
    fewer are due than the pass may handle, every schedule that was due has moved to a later
    time than now, and either ran or keeps the reason why it could not. *)
Theorem pass_clears_due `{LibTexts} envs server_capabilities now limit db db' n :
  (forall k, cron_advances (te_read (envs k))) ->
  (forall k id, row_locked (te_read (envs k)) id = false) ->
  (Z.of_nat (size (due_map db now)) < clamp 1 100 limit)%Z ->
  trigger_due_schedules envs db server_capabilities now limit = (db', Ok n) ->
  due_map db' now = ∅
  /\ forall id row, schedules db !! id = Some row -> is_due now row = true ->
     exists row', schedules db' !! id = Some row' /\ handled now row'.
Proof.
  intros Hcron Hlock Hsize Hrun.
  apply trigger_loop_clears in Hrun as [Hd Hm]; [|done|done|lia]. split; [done|].
  intros id row Hrow Hdue. destruct (Hd _ _ Hrow) as (row' & Hrow' & [->|Hh]); [|eauto].
  assert (due_map db' now !! id = Some row) as Hin by (by apply map_lookup_filter_Some).
  by rewrite Hm in Hin.
Qed.

(** C26: A spent schedule stops all others. When the earliest due schedule has no occurrence
    after now (a cron expression with years, at its last one), the pass ends with an error
    before it runs that occurrence, and changes nothing; so every later pass does the same,
    and no other schedule runs any more. *)
Theorem spent_schedule_stops_all `{LibTexts} envs db server_capabilities now limit id row target
    zone cron :
  let env := te_read (envs (Nat.pred (Z.to_nat (clamp 1 100 limit)))) in
  head (due_schedules env db now) = Some (id, row) ->
  decode_target env (sh_executor_target row) = Ok target ->
  parse_timezone env (sh_timezone row) = Some zone ->
  TaskConfig.normalized_cron env (sh_cron_expression row) = Ok cron ->
  cron_next env cron zone now = None ->
  trigger_due_schedules envs db server_capabilities now limit
  = (db, Err (Unprocessable "cron has no future occurrence")).
Proof.
  intros env Hh Ht Hz Hn Hnext. unfold trigger_due_schedules, env in *. clear env.
  destruct (Z.to_nat (clamp 1 100 limit)) as [|n] eqn:Hn'; [unfold clamp in Hn'; lia|].
  simpl in Hh, Ht, Hz, Hn, Hnext |- *. unfold trigger_one. rewrite Hh.
  destruct (due_head _ _ _ _ _ Hh) as [_ (_ & _ & due_at & Hdue & _)%is_due_inv].
  assert (cron_error (te_read (envs n)) cron = None) as Hok.
  { unfold TaskConfig.normalized_cron in Hn. bind_steps Hn. case_match; [done|].
    injection Hn as <-. done. }
  assert (read_occurrence (te_read (envs n)) id row now
          = Err (Unprocessable "cron has no future occurrence")) as ->; [|done].
  unfold read_occurrence, row_to_schedule, decode_target_json. rewrite Ht. simpl. rewrite Hdue. simpl.
  unfold TaskConfig.validated_timezone. rewrite Hz. simpl. rewrite Hn. simpl.
  unfold count_due, TaskConfig.count_occurrences, TaskConfig.next_occurrence_normalized.
  rewrite Hok. simpl. by rewrite Hnext.
Qed.

(** A refused run stops all other schedules. When the run of the earliest due schedule cannot
    be created (an exhausted quota of its creator, for instance), the pass ends with that
    error and changes nothing: the schedule stays the earliest due one. *)
Theorem refused_run_stops_all `{LibTexts} envs db server_capabilities now limit id row o spec
    db' e :
  let env := envs (Nat.pred (Z.to_nat (clamp 1 100 limit))) in
  head (due_schedules (te_read env) db now) = Some (id, row) ->
  read_occurrence (te_read env) id row now = Ok o ->
  prepare_occurrence (te_read env) db server_capabilities o now = Ok spec ->
  create_occurrence env db spec = (db', Err e) ->
  trigger_due_schedules envs db server_capabilities now limit = (db, Err e).
Proof.
  intros env Hh Ho Hp Hc. unfold trigger_due_schedules, env in *. clear env.
  destruct (Z.to_nat (clamp 1 100 limit)) as [|n] eqn:Hn'; [unfold clamp in Hn'; lia|].
  simpl in Hh, Ho, Hp, Hc |- *. unfold trigger_one. rewrite Hh, Ho, Hp, Hc.
  unfold create_occurrence in Hc. by rewrite (run_tx_Err _ _ _ _ _ Hc).
Qed.

(** C24: A task's revisions are a history. Over any sequence of requests on tasks, pushed
    changes, run transactions and others, a revision keeps its content, so a reference to
    (task, revision) always names the same instructions, configuration and capabilities; a
    deleted revision stays deleted; and no task ever has two released revisions. *)
Theorem task_revisions_are_immutable db db' :
  rtc task_step db db' -> one_release db ->
  one_release db'
  /\ forall key t, task_definitions db !! key = Some t ->
     exists t', task_definitions db' !! key = Some t' /\ same_content t t'
       /\ (td_deleted_at t ≠ None -> td_deleted_at t' = td_deleted_at t).
Proof.
  intros Hs Hone. apply task_steps_grow in Hs as [Hk Hr]. split; [by apply Hr|].
  intros key t Ht. destruct (Hk _ _ Ht) as (t' & Ht' & [Hc Hd]). exists t'. split_and!; [done|done|].
  intros Hdel. destruct (td_deleted_at t) as [d|]; [|done]. by destruct (Hd d eq_refl).
Qed.
