(* ===== verification/ScheduleWitness.v ===== *)
(** * The theorems on tasks, schedules and run requests at concrete inputs

    A project with a released task, a schedule that is due every minute, and a user with a
    synchronised skill. *)

From S2P Require Import Prelude.
From S2P Require Import Json.
From S2P Require Import Contracts.
From S2P Require Import Store.
From S2P Require Import Demo.
From S2P Require Import Histories.
From S2P Require Import RunStore.
From S2P Require Import Routing.
From S2P Require Import RunInv.
From S2P Require Import RunSystem.
From S2P Require Import RunProperties.
From S2P Require Import SyncPublish.
From S2P Require Import SyncMaterialize.
From S2P Require Import Organization.
From S2P Require Import FrozenContext.
From S2P Require Import FrozenProperties.
From S2P Require Import RunRequest.
From S2P Require Import RequestProperties.
From S2P Require Import TaskStore.
From S2P Require Import TaskSafety.
From S2P Require Import Schedules.
From S2P Require Import ScheduleProperties.

Import Organization Frozen TaskStore Schedules.

(** An equation the kernel decides by evaluation. *)
Ltac run_eq := match goal with |- _ = ?b => vm_cast_no_check (eq_refl b) end.

Lemma answer_is {A B} (p : A * B) b : p.2 = b -> p = (p.1, b).
Proof. destruct p. simpl. by intros ->. Qed.

#[global] Instance demo_texts : LibTexts :=
  {| crew_error_text := fun _ => "crew"; db_error_text := fun _ => "database";
     debug_str := fun s => s; jsonb_text := fun _ => "" |}.

(** ** A schedule *)

(** An expression that has no occurrence after the year it names. *)
Definition spent_cron : string := "0 0 0 1 1 * 2020".

Definition sched_env (k : N) : Env :=
  let e := demo_env k in
  {| db_now := db_now e; app_now := app_now e; new_v4 := new_v4 e; row_locked := row_locked e;
     rfc3339 := rfc3339 e; first_of_month := first_of_month e; f64_repr := f64_repr e;
     pg_column_size := pg_column_size e; parse_uuid := parse_uuid e;
     from_timestamp_millis := from_timestamp_millis e; cron_error := cron_error e;
     parse_timezone := parse_timezone e;
     cron_next := fun cron _ t => if String.eqb cron spent_cron then None else Some (t + 60000000)%Z;
     decode_target := decode_target e; decode_capabilities := decode_capabilities e |}.

Lemma sched_env_advances k : cron_advances (sched_env k).
Proof.
  intros cron zone t t'. simpl. destruct (String.eqb cron spent_cron); [done|].
  intros [= <-]. lia.
Qed.

Definition minute_task : TaskRow :=
  {| td_etag := ""; td_project_id := 20%N; td_name := "report"; td_instructions := "Write it.";
     td_required_capabilities := JArray []; td_default_executor_target := None;
     td_config := JObject []; td_released := true; td_created_by := 1%N; td_created_at := 0;
     td_deleted_at := None |}.

Definition schedule_at (cron : string) (due_at : DateTime) : ScheduleRow :=
  {| sh_revision := 1; sh_etag := ""; sh_task_id := 60%N; sh_project_id := 20%N;
     sh_thread_id := 30%N; sh_cron_expression := cron; sh_timezone := "UTC";
     sh_executor_target := json_obj [("kind", JString "server_linux")]; sh_input := JNull;
     sh_model_profile_id := None; sh_enabled := true; sh_next_run_at := Some due_at;
     sh_last_triggered_at := None; sh_blocked_reason := None; sh_created_by := 1%N;
     sh_created_at := 0; sh_updated_at := 0; sh_deleted_at := None |}.

Definition task_db : Db := set_task_definitions {[ (60%N, 1%Z) := minute_task ]} demo_db.

Definition sched_db : Db := set_schedules {[ 70%N := schedule_at "* * * * *" 60000000 ]} task_db.

Definition trigger_envs (k : nat) : TriggerEnv :=
  let n := N.of_nat k in
  {| te_read := sched_env (3 * n); te_create := sched_env (3 * n + 1); te_move := sched_env (3 * n + 2) |}.

Definition poll : DateTime := 100000000.

Definition minute_schedule : ScheduleRow := schedule_at "* * * * *" 60000000.

(** The occurrence of second 60, read at second 100. *)
Definition minute_occurrence : result ApiError Occurrence :=
  read_occurrence (sched_env 0) 70%N minute_schedule poll.

Definition minute_run : result ApiError RunSpec :=
  match minute_occurrence with
  | Ok o => prepare_occurrence (sched_env 0) sched_db [] o poll
  | Err e => Err e
  end.

(** The first worker crashes after it created the run. *)
Definition crashed_db : Db :=
  match minute_run with
  | Ok spec => (create_occurrence (trigger_envs 0) sched_db spec).1
  | Err _ => sched_db
  end.

Lemma sched_db_Inv : Inv sched_db.
Proof. apply initial_Inv. by split. Qed.

Lemma crash_step : pass_step [] sched_db crashed_db.
Proof.
  unfold crashed_db. destruct minute_run as [spec|e] eqn:Hrun; [|exfalso; by vm_compute in Hrun].
  unfold minute_run in Hrun. destruct minute_occurrence as [o|] eqn:Ho; [|done].
  by eapply (pass_crash [] sched_db (trigger_envs 0) poll 70%N minute_schedule o spec).
Qed.

(** The next worker runs the same occurrence: the run of the crashed one is the only one. *)
Lemma occurrence_runs_once_witness :
  size (runs crashed_db) = 1%nat
  /\ exists row', schedules (trigger_one (trigger_envs 1) crashed_db [] poll).1 !! 70%N = Some row'
     /\ sh_last_triggered_at row' = Some poll.
Proof.
  split; [by vm_compute|].
  destruct (occurrence_runs_once [] sched_db crashed_db (trigger_envs 1) poll
    (trigger_one (trigger_envs 1) crashed_db [] poll).1) as
    (id & row & due_at & spec & row' & next & Hrow & _ & _ & _ & _ & _ & _ & Hrow' & _ & _ & Hlast).
  - exact sched_db_Inv.
  - apply rtc_once, crash_step.
  - apply sched_env_advances.
  - apply answer_is. run_eq.
  - assert (schedules crashed_db = {[ 70%N := minute_schedule ]}) as Hs by run_eq.
    rewrite Hs in Hrow. apply lookup_singleton_Some in Hrow as [<- _]. eauto.
Defined.

(** ** A pass *)

Definition pass_db : Db := (trigger_due_schedules trigger_envs sched_db [] poll 10).1.

Lemma pass_clears_due_witness : due_map pass_db poll = ∅ /\ size (runs pass_db) = 1%nat.
Proof.
  split; [|by vm_compute].
  refine (proj1 (pass_clears_due trigger_envs [] poll 10 sched_db pass_db 1 _ _ _ _)).
  - intros k. apply sched_env_advances.
  - done.
  - by vm_compute.
  - unfold pass_db. apply answer_is. run_eq.
Defined.

(** A schedule at its last occurrence, before the one that is due every minute. *)
Definition spent_db : Db :=
  set_schedules {[ 70%N := minute_schedule; 71%N := schedule_at spent_cron 50000000 ]} task_db.

Lemma spent_schedule_stops_all_witness :
  trigger_due_schedules trigger_envs spent_db [] poll 10
  = (spent_db, Err (Unprocessable "cron has no future occurrence")).
Proof.
  apply (spent_schedule_stops_all trigger_envs spent_db [] poll 10 71%N
    (schedule_at spent_cron 50000000) (ServerLinux None) "UTC" spent_cron); by vm_compute.
Defined.

(** ** Tasks *)

Definition next_request : TaskRequest :=
  {| tr_name := "report"; tr_instructions := "Write it again."; tr_required_capabilities := [];
     tr_default_target := None; tr_config := JObject []; tr_release := true |}.

(** A second released revision, then the first one is released again. *)
Definition versioned_db : Db :=
  (run_tx (demo_env 1) task_db (create_task_version 1%N 60%N 1 next_request)).1.
Definition released_db : Db :=
  (run_tx (demo_env 2) versioned_db (release_task_version 1%N 60%N 1)).1.

Lemma task_db_one_release : one_release task_db.
Proof.
  intros id n m t u. change (task_definitions task_db)
    with ({[ (60%N, 1%Z) := minute_task ]} : gmap (Uuid * Z) TaskRow).
  intros [[= _ <-] _]%lookup_singleton_Some _ [[= _ <-] _]%lookup_singleton_Some _. done.
Qed.

Lemma task_revisions_are_immutable_witness :
  size (task_definitions released_db) = 2%nat
  /\ one_release released_db
  /\ exists t', task_definitions released_db !! (60%N, 1%Z) = Some t' /\ same_content minute_task t'.
Proof.
  split; [by vm_compute|].
  destruct (task_revisions_are_immutable task_db released_db) as [Hone Hkeep].
  - eapply rtc_l; [apply task_version|]. apply rtc_once, task_release.
  - exact task_db_one_release.
  - split; [exact Hone|].
    destruct (Hkeep (60%N, 1%Z) minute_task) as (t' & Ht' & Hc & _); [by vm_compute|eauto].
Defined.

(** ** A run request *)

Definition skill : Value :=
  json_obj [("name", JString "summarise"); ("prompt_template", JString "Summarise {input}");
            ("api_key", JString "secret")].

Definition skill_db : Db :=
  set_sync_entities {[ (1%N, "skill", 90%N) :=
    {| se_revision := 1; se_etag := ""; se_payload := Some skill; se_tombstone := false;
       se_updated_at := 0 |} ]} task_db.

(** The client names a skill and sends a frozen context and a crew of its own. *)
Definition request_input : Value :=
  json_obj [("prompt", JString "Go."); ("skill_ids", JArray [JString (uuid_to_string 90%N)]);
            ("crew_definition", JObject []); ("frozen_runtime_context", JString "mine")].

Definition frozen_input : Value :=
  match freeze_runtime_context_for_run (demo_env 0) skill_db 1%N request_input with
  | Ok out => out
  | Err _ => JNull
  end.

Lemma frozen_context_is_sanitized_witness :
  get "prompt" frozen_input = Some (JString "Go.")
  /\ get "crew_definition" frozen_input = None
  /\ exists context, get "frozen_runtime_context" frozen_input = Some context
     /\ exists frozen, context = JObject frozen /\ context_ok skill_db 1%N frozen.
Proof.
  destruct (frozen_context_is_sanitized (demo_env 0) skill_db 1%N request_input frozen_input)
    as (Hkeep & Hcontext & _); [run_eq|].
  split; [rewrite Hkeep; [run_eq|]; rewrite <- str_mem_spec; by vm_compute|].
  split; [run_eq|]. destruct (get "frozen_runtime_context" frozen_input) as [context|] eqn:Hg;
    [|exfalso; by vm_compute in Hg].
  exists context. split; [done|]. by destruct (Hcontext context eq_refl).
Defined.

Definition run_request : CreateRunRequest :=
  {| crr_thread_id := 30%N; crr_project_id := 20%N; crr_project_revision := 1;
     crr_project_privacy := TeamManaged; crr_task := Some {| ref_id := 60%N; ref_revision := 1 |};
     crr_executor_target := ServerLinux None; crr_required_capabilities := [];
     crr_input := request_input; crr_model_profile_id := None; crr_snapshot_id := None;
     crr_idempotency_key := "k" |}.

Definition prepare_result : result ApiError (RunSpec * RunState) :=
  (run_tx (demo_env 1) skill_db (RunRequest.prepare_run [] 1%N run_request)).2.

Lemma prepared_run_is_authorized_witness :
  exists spec state, prepare_result = Ok (spec, state) /\ run_authorized (demo_env 1) skill_db 1%N spec.
Proof.
  destruct prepare_result as [[spec state]|e] eqn:Hp; [|exfalso; by vm_compute in Hp].
  exists spec, state. split; [done|].
  apply (prepared_run_is_authorized (demo_env 1) skill_db [] 1%N run_request
    (run_tx (demo_env 1) skill_db (RunRequest.prepare_run [] 1%N run_request)).1 spec state).
  by apply answer_is.
Defined.
