(* ===== verification/ObjectStore.v ===== *)
(** * The object store: envelope encryption, and handlers over tables and objects

    server/cowork-server/src/storage.rs, [impl ObjectStore]: a chunk is encrypted under a
    fresh data key, the data key under a key derived from the master key and the scope, and
    the ciphertext is an object of an S3 bucket. A handler of storage.rs is a sequence of
    transactions and requests to the bucket ([Handler]): an error ends it and keeps what its
    earlier transactions committed. AES-256-GCM, HMAC, SHA-256 and the random source are
    parameters. *)

From S2P Require Import Prelude.
From S2P Require Import Text.
From S2P Require Import Json.
From S2P Require Import Contracts.
From S2P Require Import Store.

(** The cryptographic crates: authenticated encryption under a 32-byte key and a 12-byte
    nonce, HMAC-SHA-256 and SHA-256. *)
Class StorageCrypto := {
  gcm_encrypt : string -> string -> string -> option string;
  gcm_decrypt : string -> string -> string -> option string;
  hmac_sha256 : string -> string -> string;
  sha256 : string -> string;
}.

(** What the store relies on: a ciphertext decrypts under its key and nonce, and a MAC and a
    hash have 32 bytes. *)
Class CryptoLaws `{StorageCrypto} := {
  gcm_opens : forall key nonce plaintext ciphertext,
    gcm_encrypt key nonce plaintext = Some ciphertext ->
    gcm_decrypt key nonce ciphertext = Some plaintext;
  hmac_length : forall key message, str_len (hmac_sha256 key message) = 32%Z;
  sha256_length : forall message, str_len (sha256 message) = 32%Z;
}.

(** [hex::encode] *)
Fixpoint hex_encode (bytes : string) : string :=
  match bytes with
  | EmptyString => EmptyString
  | String c rest =>
      String (hex_digit (byte_of c / 16)) (String (hex_digit (byte_of c mod 16)) (hex_encode rest))
  end.

(** ** Key scopes *)

Inductive KeyScope :=
| ScopeOfUser (id : Uuid)
| ScopeOfTeam (id : Uuid).

Definition kind (s : KeyScope) : string :=
  match s with
  | ScopeOfUser _ => "user"
  | ScopeOfTeam _ => "team"
  end.

Definition scope_id (s : KeyScope) : Uuid :=
  match s with
  | ScopeOfUser id | ScopeOfTeam id => id
  end.

Definition key_id (s : KeyScope) : string :=
  "master-v1:" +:+ kind s +:+ ":" +:+ uuid_to_string (scope_id s).

(** The [k] bytes of a number, most significant first. *)
Fixpoint big_endian (k : nat) (n : N) (acc : string) : string :=
  match k with
  | O => acc
  | S k' => big_endian k' (n / 256)%N (String (Ascii.ascii_of_N (n mod 256)%N) acc)
  end.

Definition chunk_object_key (s : KeyScope) (digest_hex : string) : string :=
  "chunks/" +:+ kind s +:+ "/" +:+ uuid_to_string (scope_id s) +:+ "/"
  +:+ str_take 2 digest_hex +:+ "/" +:+ digest_hex.

(** ** Encryption *)

Record EncryptedChunk := {
  enc_ciphertext : string;
  enc_wrapped_data_key : string;
  enc_nonce : string;
  enc_wrap_nonce : string;
}.

Section crypto.
Context `{StorageCrypto}.

Definition scope_key (master_key : string) (s : KeyScope) : string :=
  hmac_sha256 master_key
    ("open-cowork-envelope-v1" +:+ String Ascii.zero "" +:+ kind s +:+ String Ascii.zero ""
     +:+ big_endian 16 (scope_id s) "").

(** [Aes256Gcm::new_from_slice] refuses keys of another length. *)
Definition gcm_key (key : string) (message : string) : result ApiError string :=
  if (str_len key =? 32)%Z then Ok key else Err (Internal message).

(** [random]: the bytes [getrandom] fills the data key and the two nonces with. *)
Definition encrypt (master_key : string) (random : string * string * string) (s : KeyScope)
    (plaintext : string) : result ApiError EncryptedChunk :=
  let '(data_key, nonce, wrap_nonce) := random in
  cipher ← gcm_key data_key "invalid generated data key";
  ciphertext ← ok_or (Internal "chunk encryption failed") (gcm_encrypt cipher nonce plaintext);
  wrapper ← gcm_key (scope_key master_key s) "invalid scope key";
  wrapped_data_key ← ok_or (Internal "data-key wrapping failed")
                       (gcm_encrypt wrapper wrap_nonce data_key);
  Ok {| enc_ciphertext := ciphertext; enc_wrapped_data_key := wrapped_data_key;
        enc_nonce := nonce; enc_wrap_nonce := wrap_nonce |}.

Definition decrypt (master_key : string) (s : KeyScope)
    (ciphertext wrapped_data_key nonce wrap_nonce : string) : result ApiError string :=
  _ ← guard_err (negb (str_len nonce =? 12)%Z || negb (str_len wrap_nonce =? 12)%Z)
        (Internal "invalid encrypted chunk nonce");
  wrapper ← gcm_key (scope_key master_key s) "invalid scope key";
  data_key ← ok_or (Internal "data-key unwrap failed")
               (gcm_decrypt wrapper wrap_nonce wrapped_data_key);
  cipher ← gcm_key data_key "invalid unwrapped data key";
  ok_or (Internal "chunk authentication failed") (gcm_decrypt cipher nonce ciphertext).

(** What was encrypted for a scope decrypts for it. *)
Lemma decrypt_encrypt `{!CryptoLaws} master_key random s plaintext e :
  str_len random.1.2 = 12%Z -> str_len random.2 = 12%Z ->
  encrypt master_key random s plaintext = Ok e ->
  decrypt master_key s (enc_ciphertext e) (enc_wrapped_data_key e) (enc_nonce e) (enc_wrap_nonce e)
  = Ok plaintext.
Proof.
  destruct random as [[data_key nonce] wrap_nonce]. simpl. intros Hn Hw He.
  unfold encrypt, decrypt, gcm_key, ok_or in *.
  assert (str_len (scope_key master_key s) = 32%Z) as Hs by apply hmac_length.
  rewrite Hs in *. simpl in *.
  destruct (str_len data_key =? 32)%Z eqn:Hk; [|done]. simpl in He.
  destruct (gcm_encrypt data_key nonce plaintext) as [c|] eqn:Hc; [|done]. simpl in He.
  destruct (gcm_encrypt (scope_key master_key s) wrap_nonce data_key) as [w|] eqn:Hwrap; [|done].
  injection He as <-. simpl. rewrite Hn, Hw. simpl.
  rewrite (gcm_opens _ _ _ _ Hwrap). simpl. rewrite Hk. simpl. by rewrite (gcm_opens _ _ _ _ Hc).
Qed.
End crypto.

(** ** Handlers over tables and objects *)

(** A request to the bucket is answered, refused without effect, or carried out although no
    answer arrives. *)
Inductive Request := Answered | Refused | Unanswered.

Record World := { w_db : Db; w_objects : gmap string string }.

(** What a handler meets at its [n]-th step: the environment of a transaction, the fate of a
    request to the bucket, the random bytes of an encryption (or the message of the
    [getrandom::fill] that failed), and the chunk rows other transactions hold locked. *)
Record HandlerEnv := {
  h_env : nat -> Env;
  h_request : nat -> Request;
  h_random : nat -> result string (string * string * string);
  h_chunk_locked : ChunkKey -> bool;
  h_master_key : option string;
}.

(** The step a handler has reached, and the world. *)
Definition Handler (A : Type) : Type :=
  HandlerEnv -> nat * World -> (nat * World) * result ApiError A.

#[global] Instance handler_ret : MRet Handler := fun A a henv w => (w, Ok a).

#[global] Instance handler_bind : MBind Handler := fun A B f m henv w =>
  match m henv w with
  | (w', Ok a) => f a henv w'
  | (w', Err e) => (w', Err e)
  end.

Definition run_handler {A} (henv : HandlerEnv) (w : World) (m : Handler A)
    : World * result ApiError A :=
  let '((_, w'), answer) := m henv (0%nat, w) in (w', answer).

Definition hlift {A} (r : result ApiError A) : Handler A := fun henv w => (w, r).

(** A transaction, or a single statement on the pool. *)
Definition transaction {A} (m : Tx A) : Handler A := fun henv '(n, w) =>
  let '(db, answer) := run_tx (h_env henv n) (w_db w) m in
  ((S n, {| w_db := db; w_objects := w_objects w |}), answer).

Definition tables : Handler Db := fun henv '(n, w) => ((n, w), Ok (w_db w)).

(** [Utc::now()] *)
Definition utc_now : Handler DateTime := fun henv '(n, w) => ((n, w), Ok (app_now (h_env henv n))).

Definition handler_env : Handler HandlerEnv := fun henv w => (w, Ok henv).

Fixpoint handler_iter {A} (f : A -> Handler unit) (l : list A) : Handler unit :=
  match l with
  | [] => mret tt
  | x :: l' => f x ≫= fun _ => handler_iter f l'
  end.

Definition unanswered : ApiError := Internal "object store request failed".

(** A PUT or DELETE: [f] is what it does to the bucket. *)
Definition change_objects (f : gmap string string -> gmap string string) : Handler unit :=
  fun henv '(n, w) =>
    let done := (S n, {| w_db := w_db w; w_objects := f (w_objects w) |}) in
    match h_request henv n with
    | Answered => (done, Ok tt)
    | Refused => ((S n, w), Err unanswered)
    | Unanswered => (done, Err unanswered)
    end.

(** A GET: a missing object is an error answer. *)
Definition get_object (object_key : string) : Handler string := fun henv '(n, w) =>
  ((S n, w), match h_request henv n with
             | Answered => ok_or unanswered (w_objects w !! object_key)
             | Refused | Unanswered => Err unanswered
             end).

(** [require_store]: the object store is configured. *)
Definition require_store : Handler string := fun henv w =>
  (w, ok_or (Conflict "object storage is not configured on this server") (h_master_key henv)).

Section store.
Context `{StorageCrypto}.

Definition random_bytes : Handler (string * string * string) := fun henv '(n, w) =>
  ((S n, w), match h_random henv n with
             | Ok random => Ok random
             | Err message => Err (Internal message)
             end).

Definition put_encrypted (master_key : string) (s : KeyScope) (digest_hex plaintext : string)
    : Handler (string * EncryptedChunk) :=
  random ← random_bytes;
  encrypted ← hlift (encrypt master_key random s plaintext);
  let object_key := chunk_object_key s digest_hex in
  _ ← change_objects (<[object_key := enc_ciphertext encrypted]>);
  mret (object_key, encrypted).

Definition get_decrypted (master_key : string) (s : KeyScope)
    (object_key wrapped_data_key nonce wrap_nonce : string) : Handler string :=
  ciphertext ← get_object object_key;
  hlift (decrypt master_key s ciphertext wrapped_data_key nonce wrap_nonce).

Definition delete_object (object_key : string) : Handler unit :=
  change_objects (delete object_key).
End store.

(** ** Reasoning about handlers

    [hwp I henv m Q st]: from [st] the handler [m] either succeeds in a state that satisfies
    [Q] with its answer, or fails in a world that satisfies [I]. *)
Definition hwp {A} (I : World -> Prop) (henv : HandlerEnv) (m : Handler A)
    (Q : A -> nat * World -> Prop) (st : nat * World) : Prop :=
  match m henv st with
  | (st', Ok a) => Q a st'
  | (st', Err _) => I st'.2
  end.

Section hwp.
Context {A B : Type} (I : World -> Prop) (henv : HandlerEnv).
Implicit Types (st : nat * World) (w : World).

Lemma hwp_ret (a : A) (Q : A -> nat * World -> Prop) st : Q a st -> hwp I henv (mret a) Q st.
Proof. done. Qed.

Lemma hwp_bind (m : Handler A) (f : A -> Handler B) Q st :
  hwp I henv m (fun a => hwp I henv (f a) Q) st -> hwp I henv (m ≫= f) Q st.
Proof. unfold hwp, mbind, handler_bind. by destruct (m henv st) as [st' [a|e]]. Qed.

Lemma hwp_mono (m : Handler A) (P Q : A -> nat * World -> Prop) st :
  hwp I henv m P st -> (forall a st', P a st' -> Q a st') -> hwp I henv m Q st.
Proof. unfold hwp. destruct (m henv st) as [st' [a|e]]; auto. Qed.

Lemma hwp_hlift (r : result ApiError A) Q st :
  I st.2 -> (forall a, r = Ok a -> Q a st) -> hwp I henv (hlift r) Q st.
Proof. unfold hwp, hlift. destruct r; auto. Qed.

Lemma hwp_tables (Q : Db -> nat * World -> Prop) n w :
  Q (w_db w) (n, w) -> hwp I henv tables Q (n, w).
Proof. done. Qed.

Lemma hwp_utc_now (Q : DateTime -> nat * World -> Prop) n w :
  (forall now, Q now (n, w)) -> hwp I henv utc_now Q (n, w).
Proof. unfold hwp. simpl. auto. Qed.

Lemma hwp_handler_env (Q : HandlerEnv -> nat * World -> Prop) st :
  Q henv st -> hwp I henv handler_env Q st.
Proof. done. Qed.

Lemma hwp_require_store (Q : string -> nat * World -> Prop) st :
  I st.2 -> (forall master_key, h_master_key henv = Some master_key -> Q master_key st) ->
  hwp I henv require_store Q st.
Proof. unfold hwp, require_store. destruct (h_master_key henv); simpl; auto. Qed.

(** A transaction that fails leaves the world as it was. *)
Lemma hwp_transaction (m : Tx A) Q n w :
  I w ->
  wp (h_env henv n) m
    (fun a s => Q a (S n, {| w_db := tx_db s; w_objects := w_objects w |})) (MkTx (w_db w) 0) ->
  hwp I henv (transaction m) Q (n, w).
Proof.
  intros HI. unfold hwp, transaction, run_tx, wp.
  destruct w as [db objects]. simpl in *. by destruct (m (h_env henv n) (MkTx db 0)) as [[a s]|e].
Qed.

(** One that cannot fail needs no invariant. *)
Lemma hwp_modify f (Q : unit -> nat * World -> Prop) n w :
  Q tt (S n, {| w_db := f (w_db w); w_objects := w_objects w |}) ->
  hwp I henv (transaction (modify f)) Q (n, w).
Proof. done. Qed.

End hwp.

Lemma hwp_iter {A} (I : World -> Prop) henv (f : A -> Handler unit) (P : nat * World -> Prop) l st :
  (forall x st, x ∈ l -> P st -> hwp I henv (f x) (fun _ => P) st) -> P st ->
  hwp I henv (handler_iter f l) (fun _ => P) st.
Proof.
  revert st. induction l as [|x l IH]; intros st Hf HP; simpl; [by apply hwp_ret|].
  apply hwp_bind. eapply hwp_mono; [apply (Hf x st); [by left|done]|]. intros [] st' HP'. simpl.
  apply IH; [|done]. intros y st0 Hy. apply Hf. by right.
Qed.

(** A handler that keeps an invariant keeps it whatever its answer is. *)
Lemma hwp_run {A} (I : World -> Prop) henv (m : Handler A) w :
  hwp I henv m (fun _ st => I st.2) (0%nat, w) -> I (run_handler henv w m).1.
Proof.
  unfold hwp, run_handler. by destruct (m henv (0%nat, w)) as [[n w'] [a|e]].
Qed.
