(* ===== verification/Quotas.v ===== *)
(** * The administration of quotas

    [get_quota] and [set_quota] of server/cowork-server/src/governance.rs with the queries
    that authorize them, and the status they answer. A handler is a sequence of statements and
    transactions ([Handler] of [ObjectStore]); the checks that use the limits are in
    [Governance]. The theorem follows the runs of a scope while run transactions, changes of
    its quota and everything else the server does interleave. The unsigned integers of the
    wire types are nonnegative [Z]s; the first day of a month is the number that stands for it
    in [quota_usage]. *)

From S2P Require Import Prelude.
From S2P Require Import Json.
From S2P Require Import Contracts.
From S2P Require Import Store.
From S2P Require Import Demo.
From S2P Require Import Governance.
From S2P Require Import SyncPublish.
From S2P Require Import RunStore.
From S2P Require Import RunInv.
From S2P Require Import RunSafety.
From S2P Require Import RunSystem.
From S2P Require Import Histories.
From S2P Require Import ObjectStore.

(** ** Wire types *)

Record SetQuotaLimitsRequest := {
  sq_storage_bytes : option Z;
  sq_concurrent_runs : option Z;
  sq_monthly_tokens : option Z;
  sq_monthly_cost_micros : option Z;
  sq_hard_cost_limit : bool;
}.

Record QuotaLimitsRecord := {
  lim_schema_version : Z;
  lim_scope_type : QuotaScopeType;
  lim_scope_id : Uuid;
  lim_storage_bytes : option Z;
  lim_concurrent_runs : option Z;
  lim_monthly_tokens : option Z;
  lim_monthly_cost_micros : option Z;
  lim_hard_cost_limit : bool;
  lim_updated_at : DateTime;
}.

Record QuotaUsageRecord := {
  use_schema_version : Z;
  use_scope_type : QuotaScopeType;
  use_scope_id : Uuid;
  use_period_start : Z;
  use_storage_bytes : Z;
  use_running_runs : Z;
  use_tokens : Z;
  use_cost_micros : Z;
  use_updated_at : DateTime;
}.

Record QuotaStatus := {
  qs_schema_version : Z;
  qs_limits : QuotaLimitsRecord;
  qs_usage : QuotaUsageRecord;
}.

(** ** Conversions *)

Definition optional_u64_to_i64 (value : option Z) (field : string)
    : result ApiError (option Z) :=
  match value with
  | None => Ok None
  | Some v => if in_i64 v then Ok (Some v) else Err (Unprocessable (field +:+ " is too large"))
  end.

(** The [TryFromIntError] of a column that does not fit its wire type. *)
Definition try_from_int (fits : Z -> bool) (v : Z) : result ApiError Z :=
  if fits v then Ok v else Err (Internal "out of range integral type conversion attempted").

Definition in_u32 (z : Z) : bool := bool_decide (0 ≤ z < 2 ^ 32)%Z.

Definition optional_try_from (fits : Z -> bool) (value : option Z) : result ApiError (option Z) :=
  match value with
  | None => Ok None
  | Some v => v ← try_from_int fits v; Ok (Some v)
  end.

Definition optional_i64_to_u64 (value : option Z) : result ApiError (option Z) :=
  optional_try_from in_u64 value.

(** ** Authorization *)

(** [ensure_team_admin] of organization.rs *)
Definition ensure_team_admin (user_id team_id : Uuid) : Tx unit :=
  db ← get_db;
  reject_if (negb (match team_members db !! (team_id, user_id) with
                   | Some role => String.eqb role "owner" || String.eqb role "admin"
                   | None => false
                   end))
    (Unauthorized "team owner or administrator role is required").

Definition ensure_quota_view (user_id : Uuid) (scope : QuotaScopeType) (scope_id : Uuid)
    : Tx unit :=
  db ← get_db;
  if user_is_platform_admin db user_id then mret tt
  else
    reject_if
      (negb (match scope with
             | ScopeUser => bool_decide (user_id = scope_id)
             | ScopeTeam => bool_decide (is_Some (team_members db !! (scope_id, user_id)))
             end))
      (Unauthorized "the current user cannot view this quota").

(** The user of a quota exists. *)
Definition ensure_user (user_id : Uuid) : Tx unit :=
  db ← get_db;
  reject_if (negb (match users db !! user_id with
                   | Some u => not_deleted (us_deleted_at u)
                   | None => false
                   end))
    (NotFound ("user " +:+ uuid_to_string user_id +:+ " was not found")).

Definition ensure_platform_admin (user_id : Uuid) : Tx unit :=
  db ← get_db;
  reject_if (negb (user_is_platform_admin db user_id))
    (Unauthorized "platform administrator role is required to set user quotas").

Definition ensure_quota_admin (user_id : Uuid) (scope : QuotaScopeType) (scope_id : Uuid)
    : Handler unit :=
  match scope with
  | ScopeUser =>
      _ ← transaction (ensure_platform_admin user_id);
      transaction (ensure_user scope_id)
  | ScopeTeam => transaction (ensure_team_admin user_id scope_id)
  end.

(** ** The status of a quota *)

Definition limits_record (now : DateTime) (scope : QuotaScopeType) (scope_id : Uuid)
    (row : option LimitsRow) : result ApiError QuotaLimitsRecord :=
  match row with
  | Some row =>
      storage_bytes ← optional_i64_to_u64 (ql_storage_bytes row);
      concurrent_runs ← optional_try_from in_u32 (ql_concurrent_runs row);
      monthly_tokens ← optional_i64_to_u64 (ql_monthly_tokens row);
      monthly_cost ← optional_i64_to_u64 (ql_monthly_cost_micros row);
      Ok {| lim_schema_version := SCHEMA_VERSION; lim_scope_type := scope;
            lim_scope_id := scope_id; lim_storage_bytes := storage_bytes;
            lim_concurrent_runs := concurrent_runs; lim_monthly_tokens := monthly_tokens;
            lim_monthly_cost_micros := monthly_cost;
            lim_hard_cost_limit := ql_hard_cost_limit row;
            lim_updated_at := ql_updated_at row |}
  | None =>
      Ok {| lim_schema_version := SCHEMA_VERSION; lim_scope_type := scope;
            lim_scope_id := scope_id; lim_storage_bytes := None; lim_concurrent_runs := None;
            lim_monthly_tokens := None; lim_monthly_cost_micros := None;
            lim_hard_cost_limit := true; lim_updated_at := now |}
  end.

Definition usage_record (now : DateTime) (scope : QuotaScopeType) (scope_id : Uuid)
    (period_start storage_bytes running : Z) (row : option UsageRow)
    : result ApiError QuotaUsageRecord :=
  storage_bytes ← try_from_int in_u64 storage_bytes;
  running ← try_from_int in_u32 running;
  tokens ← optional_i64_to_u64 (qu_tokens <$> row);
  cost ← optional_i64_to_u64 (qu_cost_micros <$> row);
  Ok {| use_schema_version := SCHEMA_VERSION; use_scope_type := scope; use_scope_id := scope_id;
        use_period_start := period_start; use_storage_bytes := storage_bytes;
        use_running_runs := running; use_tokens := from_option id 0%Z tokens;
        use_cost_micros := from_option id 0%Z cost;
        use_updated_at := from_option qu_updated_at now row |}.

Definition quota_status (scope : QuotaScopeType) (scope_id : Uuid) : Tx QuotaStatus :=
  env ← ask;
  db ← get_db;
  let name := quota_scope_name scope in
  let period_start := current_period_start env in
  manifests ← sql_bigint (manifest_bytes env db name scope_id);
  entities ← sql_bigint (match scope with
                         | ScopeUser => synced_bytes env db scope_id
                         | ScopeTeam => 0
                         end);
  storage_bytes ← sql_bigint (manifests + entities);
  limits ← lift (limits_record (app_now env) scope scope_id (scope_limits db (scope, scope_id)));
  usage ← lift (usage_record (app_now env) scope scope_id period_start storage_bytes
                  (running_runs db (scope, scope_id)) (usage_of db (scope, scope_id) period_start));
  mret {| qs_schema_version := SCHEMA_VERSION; qs_limits := limits; qs_usage := usage |}.

(** ** The handlers *)

Definition get_quota (user_id : Uuid) (scope_name : string) (scope_id : Uuid)
    : Handler QuotaStatus :=
  scope ← hlift (parse_quota_scope scope_name);
  _ ← transaction (ensure_quota_view user_id scope scope_id);
  transaction (quota_status scope scope_id).

(** [INSERT INTO quota_limits ... ON CONFLICT (scope_type, scope_id) DO UPDATE]; the column
    [concurrent_runs] is an INTEGER. *)
Definition put_limits (scope : QuotaScopeType) (scope_id : Uuid) (storage_bytes concurrent_runs
    monthly_tokens monthly_cost : option Z) (hard_cost_limit : bool) : Tx unit :=
  env ← ask;
  concurrent_runs ← match concurrent_runs with
                    | None => mret None
                    | Some n => n ← sql_int n; mret (Some n)
                    end;
  modify (fun db => set_quota_limits
    (<[(quota_scope_name scope, scope_id) :=
         {| ql_storage_bytes := storage_bytes; ql_concurrent_runs := concurrent_runs;
            ql_monthly_tokens := monthly_tokens; ql_monthly_cost_micros := monthly_cost;
            ql_hard_cost_limit := hard_cost_limit; ql_updated_at := db_now env |}]>
       (quota_limits db)) db).

Definition audit_quota (user_id : Uuid) (scope : QuotaScopeType) (scope_id : Uuid)
    (request : SetQuotaLimitsRequest) : Tx unit :=
  env ← ask;
  event_id ← fresh_uuid;
  db ← get_db;
  _ ← reject_if (bool_decide (is_Some (audit_events db !! event_id)))
        (Database (UniqueViolation "audit_events_pkey"));
  modify (fun db => set_audit_events
    (<[event_id := {| ae_actor_user_id := Some user_id; ae_action := "quota.update";
                      ae_target_type := quota_scope_name scope +:+ "_quota";
                      ae_target_id := Some scope_id;
                      ae_metadata := json_obj
                        [("storage_bytes", jopt jint (sq_storage_bytes request));
                         ("concurrent_runs", jopt jint (sq_concurrent_runs request));
                         ("monthly_tokens", jopt jint (sq_monthly_tokens request));
                         ("monthly_cost_micros", jopt jint (sq_monthly_cost_micros request));
                         ("hard_cost_limit", JBool (sq_hard_cost_limit request))];
                      ae_created_at := db_now env |}]> (audit_events db)) db).

Definition set_quota (user_id : Uuid) (scope_name : string) (scope_id : Uuid)
    (request : SetQuotaLimitsRequest) : Handler QuotaStatus :=
  scope ← hlift (parse_quota_scope scope_name);
  _ ← ensure_quota_admin user_id scope scope_id;
  _ ← hlift (guard_err (bool_decide (is_Some (sq_monthly_cost_micros request))
                        && bool_decide (sq_monthly_tokens request = None))
               (Unprocessable
                  "a monthly token fallback is required whenever a cost quota is configured"));
  storage_bytes ← hlift (optional_u64_to_i64 (sq_storage_bytes request) "storage_bytes");
  monthly_tokens ← hlift (optional_u64_to_i64 (sq_monthly_tokens request) "monthly_tokens");
  monthly_cost ← hlift (optional_u64_to_i64 (sq_monthly_cost_micros request) "monthly_cost_micros");
  _ ← transaction
        (_ ← put_limits scope scope_id storage_bytes (sq_concurrent_runs request) monthly_tokens
               monthly_cost (sq_hard_cost_limit request);
         audit_quota user_id scope scope_id request);
  transaction (quota_status scope scope_id).

(** ** What else changes quotas and projects *)

(** The run tables and the projects are untouched. *)
Record runs_frame (db db' : Db) : Prop := {
  rf_runs : runs db' = runs db;
  rf_events : run_events db' = run_events db;
  rf_projects : projects db' = projects db;
}.

#[global] Instance runs_frame_preorder : PreOrder runs_frame.
Proof. split; [done|]. intros d1 d2 d3 [] []. split; by etrans. Qed.

#[export] Hint Extern 3 (frames runs_frame (modify _)) =>
  apply frames_modify; intros ?; split; reflexivity : store.

(** Anything that leaves runs, their events and quota limits alone and moves no project to
    another team, such as the administration of projects or a push: a new project is one that
    no run names yet. *)
Record unrelated (db db' : Db) : Prop := {
  un_runs : runs db' = runs db;
  un_events : run_events db' = run_events db;
  un_limits : quota_limits db' = quota_limits db;
  un_teams : forall id r p', runs db !! id = Some r ->
    projects db' !! ins_project_id (run_ins r) = Some p' ->
    exists p, projects db !! ins_project_id (run_ins r) = Some p /\ pr_team_id p' = pr_team_id p;
}.

(** A transaction on runs, a request to change a quota, or anything unrelated. *)
Inductive quota_step (db : Db) : Db -> Prop :=
| quota_run db' : step db db' -> quota_step db db'
| quota_set henv objects user_id scope_name scope_id request :
    quota_step db (w_db (run_handler henv {| w_db := db; w_objects := objects |}
                           (set_quota user_id scope_name scope_id request)).1)
| quota_other db' : unrelated db db' -> quota_step db db'.

(** ** Changing a quota *)

Lemma ensure_platform_admin_frame u : frames runs_frame (ensure_platform_admin u).
Proof. unfold ensure_platform_admin. frames_steps. Qed.

Lemma ensure_user_frame u : frames runs_frame (ensure_user u).
Proof. unfold ensure_user. frames_steps. Qed.

Lemma ensure_team_admin_frame u t : frames runs_frame (ensure_team_admin u t).
Proof. unfold ensure_team_admin. frames_steps. Qed.

Lemma quota_status_frame s i : frames runs_frame (quota_status s i).
Proof. unfold quota_status. frames_steps. Qed.

Lemma put_limits_frame s i a b c d h : frames runs_frame (put_limits s i a b c d h).
Proof. unfold put_limits. frames_steps. Qed.

Lemma audit_quota_frame u s i r : frames runs_frame (audit_quota u s i r).
Proof. unfold audit_quota. frames_steps. Qed.
#[export] Hint Resolve ensure_platform_admin_frame ensure_user_frame ensure_team_admin_frame
  quota_status_frame put_limits_frame audit_quota_frame : store.

(** A statement of the handler, with its frame. *)
Lemma hwp_runs_frame {A} db henv (m : Tx A) (Q : A -> nat * World -> Prop) st :
  frames runs_frame m -> runs_frame db (w_db st.2) ->
  (forall a st', runs_frame db (w_db st'.2) -> Q a st') ->
  hwp (fun w => runs_frame db (w_db w)) henv (transaction m) Q st.
Proof.
  destruct st as [n w]. intros Hm Hw HQ. apply hwp_transaction; [done|].
  eapply wp_mono; [apply Hm|]. intros a s Hs. apply HQ. simpl in *. by etrans.
Qed.

Ltac quota_steps :=
  repeat first
    [ apply hwp_bind
    | apply hwp_hlift; [done|intros ? _]
    | apply hwp_runs_frame; [by frames_steps|done|intros ? ? ?] ].

Lemma set_quota_frame db henv st u name id request :
  runs_frame db (w_db st.2) ->
  hwp (fun w => runs_frame db (w_db w)) henv (set_quota u name id request)
    (fun _ st' => runs_frame db (w_db st'.2)) st.
Proof.
  intros Hst. unfold set_quota. quota_steps. unfold ensure_quota_admin.
  destruct a; quota_steps; done.
Qed.

Lemma set_quota_runs db henv objects u name id request :
  runs_frame db (w_db (run_handler henv {| w_db := db; w_objects := objects |}
                         (set_quota u name id request)).1).
Proof.
  apply (hwp_run (fun w => runs_frame db (w_db w))).
  eapply hwp_mono; [by apply set_quota_frame|done].
Qed.

(** ** The runs of a scope *)

Lemma counts_frame db db' scope :
  runs db' = runs db ->
  (forall id r p', runs db !! id = Some r ->
     projects db' !! ins_project_id (run_ins r) = Some p' ->
     exists p, projects db !! ins_project_id (run_ins r) = Some p /\ pr_team_id p' = pr_team_id p) ->
  (running_runs db' scope ≤ running_runs db scope)%Z.
Proof.
  intros Hr Hp. rewrite !running_runs_counted. apply Nat2Z.inj_le, subseteq_size.
  intros id (r & Hid & Hc)%elem_of_counted. rewrite Hr in Hid. apply elem_of_counted.
  exists r. split; [done|]. revert Hc. unfold run_counts_for.
  destruct scope as [[] i]; [done|]. rewrite !andb_true_iff. intros [Ht Hc]. split; [done|].
  destruct (projects db' !! _) as [p'|] eqn:Hp'; [|done].
  destruct (Hp _ _ _ Hid Hp') as (p & -> & <-). done.
Qed.

Lemma quota_step_Inv db db' : quota_step db db' -> Inv db -> Inv db'.
Proof.
  destruct 1 as [db' Hs|henv objects u name id request|db' []].
  - intros HI. by apply (step_good _ _ Hs).
  - destruct (set_quota_runs db henv objects u name id request) as [Hr He _].
    intros []. split; rewrite ?Hr, ?He; auto.
  - intros []. split; rewrite ?un_runs0, ?un_events0; auto.
Qed.

Lemma quota_step_running db db' scope limit :
  Inv db -> quota_step db db' -> concurrent_limit db scope = Some limit ->
  (running_runs db' scope ≤ Z.max (running_runs db scope) limit)%Z.
Proof.
  intros HI [db1 Hs|henv objects u name id request|db1 [Hr _ _ Hp]] Hlim.
  - destruct (step_good _ _ Hs HI) as [_ Hev].
    destruct (running_step _ _ scope limit Hev Hlim); lia.
  - destruct (set_quota_runs db henv objects u name id request) as [Hr _ Hp].
    pose proof (counts_frame db _ scope Hr) as Hc. rewrite Hp in Hc.
    specialize (Hc ltac:(eauto)). lia.
  - pose proof (counts_frame db db1 scope Hr Hp). lia.
Qed.

Lemma quota_steps_Inv db db' : rtc quota_step db db' -> Inv db -> Inv db'.
Proof. induction 1; eauto using quota_step_Inv. Qed.

(** ** The theorem *)

(** A step that leaves the scope's limit as it is. *)
Definition same_limit_step (scope : Scope) (db db' : Db) : Prop :=
  quota_step db db' /\ concurrent_limit db' scope = concurrent_limit db scope.

(** C3: the concurrent-run quota. Run transactions, requests that set quotas and anything
    unrelated interleave in any order. While the limit of a user or a team stays as it is, its
    runs that are not terminal never number more than the limit, or than there were when the
    limit came into force, if an administrator set it below that. In particular, an excess
    never grows, and a limit that was met stays met. *)
Theorem quota_never_exceeded db0 db db' scope limit :
  initial_db db0 -> rtc quota_step db0 db -> concurrent_limit db scope = Some limit ->
  rtc (same_limit_step scope) db db' ->
  (running_runs db' scope ≤ Z.max (running_runs db scope) limit)%Z.
Proof.
  intros Hi%initial_Inv H0 Hlim Hs. pose proof (quota_steps_Inv _ _ H0 Hi) as HI. clear H0 Hi.
  induction Hs as [|d1 d2 d3 [H12 Heq] _ IH]; [lia|].
  pose proof (quota_step_running _ _ _ _ HI H12 Hlim).
  specialize (IH ltac:(congruence) (quota_step_Inv _ _ H12 HI)). lia.
Qed.

(** ** An administrator lowers a limit below the open runs *)

Definition quota_db : Db :=
  set_users {[ 1%N := {| us_platform_admin := false; us_deleted_at := None |};
               9%N := {| us_platform_admin := true; us_deleted_at := None |} ]} demo_db.

Definition quota_create (n : N) (id : Uuid) (key : string) (db : Db) : Db :=
  (run_tx (demo_env n) db (create_run (demo_spec id key server_target) Queued)).1.

Definition two_open : Db := quota_create 2 101 "k2" (quota_create 1 100 "k1" quota_db).

Definition quota_henv : HandlerEnv :=
  {| h_env := fun n => demo_env (N.of_nat (n + 3)); h_request := fun _ => Answered;
     h_random := fun _ => Err ""; h_chunk_locked := fun _ => false; h_master_key := None |}.

Definition lowered_request : SetQuotaLimitsRequest :=
  {| sq_storage_bytes := None; sq_concurrent_runs := Some 1%Z; sq_monthly_tokens := None;
     sq_monthly_cost_micros := None; sq_hard_cost_limit := true |}.

Definition lowered : World * result ApiError QuotaStatus :=
  run_handler quota_henv {| w_db := two_open; w_objects := ∅ |}
    (set_quota 9 "user" 1 lowered_request).

Lemma lowered_answer :
  (fun s => (lim_concurrent_runs (qs_limits s), use_running_runs (qs_usage s))) <$> lowered.2
  = Ok (Some 1%Z, 2%Z).
Proof. by vm_compute. Qed.

Lemma lowered_steps : rtc quota_step quota_db (w_db lowered.1).
Proof.
  eapply rtc_l; [apply quota_run, step_create_run; by left|].
  eapply rtc_l; [apply quota_run, step_create_run; by left|].
  apply rtc_once, quota_set.
Qed.

Lemma quota_never_exceeded_witness :
  running_runs (w_db lowered.1) (ScopeUser, 1%N) = 2%Z
  /\ (running_runs (quota_create 8 102 "k3" (w_db lowered.1)) (ScopeUser, 1%N) ≤ Z.max 2 1)%Z.
Proof.
  split; [by vm_compute|].
  apply (quota_never_exceeded quota_db (w_db lowered.1)).
  - split; reflexivity.
  - exact lowered_steps.
  - by vm_compute.
  - apply rtc_once. split; [apply quota_run, step_create_run; by left|by vm_compute].
Defined.
