(* ===== verification/Secrets.v ===== *)
(** * Sealed secrets

    [ObjectStore::seal_for_user], [open_for_user], [seal_for_team] and [open_for_team] of
    server/cowork-server/src/storage.rs: the envelope encryption of the object store under the
    interface [SecretStore] that authentication uses for second factors. *)

From S2P Require Import Prelude.
From S2P Require Import Text.
From S2P Require Import Json.
From S2P Require Import Contracts.
From S2P Require Import Store.
From S2P Require Import Auth.
From S2P Require Import ObjectStore.

Section secrets.
Context `{StorageCrypto} (master_key : string).

(** [random]: the bytes [getrandom] fills the data key and the nonces with. *)
Definition seal_for_scope (random : string * string * string) (s : KeyScope) (plaintext : string)
    : result ApiError SealedValue :=
  encrypted ← encrypt master_key random s plaintext;
  Ok {| sv_ciphertext := enc_ciphertext encrypted;
        sv_encrypted_data_key := enc_wrapped_data_key encrypted;
        sv_nonce := enc_nonce encrypted; sv_wrap_nonce := enc_wrap_nonce encrypted |}.

Definition open_for_scope (s : KeyScope) (v : SealedValue) : result ApiError string :=
  decrypt master_key s (sv_ciphertext v) (sv_encrypted_data_key v) (sv_nonce v) (sv_wrap_nonce v).

(** The store that authentication is given. *)
Definition user_secrets (random : string * string * string) : SecretStore :=
  {| seal_for_user := fun user_id plaintext => seal_for_scope random (ScopeOfUser user_id) plaintext;
     open_for_user := fun user_id v => open_for_scope (ScopeOfUser user_id) v |}.

Definition seal_for_team (random : string * string * string) (team_id : Uuid) (plaintext : string)
    : result ApiError SealedValue :=
  seal_for_scope random (ScopeOfTeam team_id) plaintext.

Definition open_for_team (team_id : Uuid) (v : SealedValue) : result ApiError string :=
  open_for_scope (ScopeOfTeam team_id) v.

(** What was sealed for a scope opens for it. *)
Lemma seal_opens `{!CryptoLaws} random s plaintext v :
  str_len random.1.2 = 12%Z -> str_len random.2 = 12%Z ->
  seal_for_scope random s plaintext = Ok v -> open_for_scope s v = Ok plaintext.
Proof.
  intros Hn Hw Hs. unfold seal_for_scope in Hs. bind_steps Hs. injection Hs as <-.
  unfold open_for_scope. simpl. by eapply decrypt_encrypt.
Qed.

(** A user's or a team's secret is read back as it was. *)
Lemma secrets_round_trip `{!CryptoLaws} random id plaintext v :
  str_len random.1.2 = 12%Z -> str_len random.2 = 12%Z ->
  (seal_for_user (user_secrets random) id plaintext = Ok v ->
   open_for_user (user_secrets random) id v = Ok plaintext)
  /\ (seal_for_team random id plaintext = Ok v -> open_for_team id v = Ok plaintext).
Proof. intros Hn Hw. split; by apply seal_opens. Qed.
End secrets.
