(* ===== verification/SnapshotMerge.v ===== *)
(** * Project versions and the three-way merge of snapshots

    server/cowork-server/src/storage.rs, from [create_project_version] to
    [file_fingerprint]: versions of a project name a ready snapshot; applying one moves the
    project's current version if it is still the expected one; a merge compares the files of
    a base, the current and a result version by fingerprint, merges texts changed on both
    sides, and stores the outcome as a new snapshot and version. The diffy crate's text merge
    is a parameter. *)

From stdpp Require Import gmap.
From S2P Require Import Prelude.
From S2P Require Import Text.
From S2P Require Import Json.
From S2P Require Import Contracts.
From S2P Require Import Store.
From S2P Require Import Governance.
From S2P Require Import SyncPublish.
From S2P Require Import RunStore.
From S2P Require Import Organization.
From S2P Require Import ObjectStore.
From S2P Require Import Snapshots.

Import Organization Snapshots.

(** [diffy::merge(base, current, result)]: the merged text, or one with conflict markers. *)
Class MergeLib := { diffy_merge : string -> string -> string -> result string string }.

Definition string_before (a b : string) : Prop := String.compare a b ≠ Gt.
#[global] Instance string_before_dec : RelDecision string_before.
Proof. intros a b. unfold string_before. apply _. Defined.

(** [bytes.chunks(n)]; every step takes at least a byte, so the length is fuel enough. *)
Fixpoint str_chunks (fuel n : nat) (s : string) : list string :=
  match fuel, s with
  | S fuel', String _ _ => str_take n s :: str_chunks fuel' n (str_drop n s)
  | _, _ => []
  end.

(** [s.chars().take(n)] *)
Fixpoint take_chars (n : nat) (s : string) : string :=
  match s with
  | EmptyString => EmptyString
  | String c rest =>
      if is_continuation c then String c (take_chars n rest)
      else match n with
           | O => EmptyString
           | S n' => String c (take_chars n' rest)
           end
  end.

Module Merge.

Definition MAX_TEXT_MERGE_BYTES : Z := 5 * 1024 * 1024.

(** ** Wire types *)

Record ProjectVersion := {
  ver_id : Uuid;
  ver_project_id : Uuid;
  ver_revision : Z;
  ver_parent_version_id : option Uuid;
  ver_merge_base_version_id : option Uuid;
  ver_snapshot_manifest_id : Uuid;
  ver_created_by_run_id : option Uuid;
  ver_created_at : DateTime;
}.

Record CreateProjectVersionRequest := {
  cv_snapshot_manifest_id : Uuid;
  cv_parent_version_id : option Uuid;
  cv_merge_base_version_id : option Uuid;
  cv_created_by_run_id : option Uuid;
  cv_diff_summary : Value;
}.

Record ApplyProjectVersionRequest := {
  av_expected_project_revision : Z;
  av_expected_current_version_id : option Uuid;
}.

Inductive MergeFileStatus :=
| Unchanged | Added | Deleted | CurrentOnly | ResultOnly | IdenticalChange | AutoMerged
| TextConflict | BinaryConflict | Renamed.

#[global] Instance MergeFileStatus_eq_dec : EqDecision MergeFileStatus.
Proof. solve_decision. Defined.

Record MergeFileReview := {
  mr_path : string;
  mr_renamed_from : option string;
  mr_status : MergeFileStatus;
  mr_base_digest : option string;
  mr_current_digest : option string;
  mr_result_digest : option string;
  mr_auto_mergeable : bool;
  mr_conflict_preview : option string;
}.

Record ProjectMergeReview := {
  pm_project_id : Uuid;
  pm_base_version_id : Uuid;
  pm_current_version_id : Uuid;
  pm_result_version_id : Uuid;
  pm_files : list MergeFileReview;
}.

Inductive MergeResolutionChoice := TakeCurrent | TakeResult | TakeNone | TakeAutoMerged.

Record MergeFileResolution := { res_path : string; res_choice : MergeResolutionChoice }.

Record ApplyProjectMergeRequest := {
  am_base_version_id : Uuid;
  am_current_version_id : Uuid;
  am_result_version_id : Uuid;
  am_expected_project_revision : Z;
  am_resolutions : list MergeFileResolution;
}.

(** ** Versions *)

Definition row_to_project_version (id : Uuid) (v : ProjectVersionRow) : ProjectVersion :=
  {| ver_id := id; ver_project_id := pv_project_id v; ver_revision := pv_revision v;
     ver_parent_version_id := pv_parent_version_id v;
     ver_merge_base_version_id := pv_merge_base_version_id v;
     ver_snapshot_manifest_id := pv_snapshot_manifest_id v;
     ver_created_by_run_id := pv_created_by_run_id v; ver_created_at := pv_created_at v |}.

Definition project_version (db : Db) (project_id version_id : Uuid) : option ProjectVersionRow :=
  match project_versions db !! version_id with
  | Some v => if bool_decide (pv_project_id v = project_id) then Some v else None
  | None => None
  end.

Definition validate_version_parent (project_id : Uuid) (version_id : option Uuid) : Tx unit :=
  db ← get_db;
  match version_id with
  | Some id =>
      reject_if (bool_decide (project_version db project_id id = None))
        (Unprocessable ("version " +:+ uuid_to_string id +:+ " does not belong to this project"))
  | None => mret tt
  end.

(** [SELECT COALESCE(MAX(revision), 0) + 1], then the insertion with its unique keys. *)
Definition insert_version (row : Z -> DateTime -> ProjectVersionRow) (project_id : Uuid)
    : Tx (Uuid * ProjectVersionRow) :=
  env ← ask;
  db ← get_db;
  revision ← sql_bigint
    (from_option (fun kv : Uuid * ProjectVersionRow => pv_revision kv.2) 0%Z
       (latest_by (fun kv => pv_revision kv.2) (versions_of db project_id)) + 1);
  id ← fresh_uuid;
  _ ← reject_if (bool_decide (is_Some (project_versions db !! id)))
        (Database (UniqueViolation "project_versions_pkey"));
  let v := row revision (db_now env) in
  _ ← modify (fun db => set_project_versions (<[id := v]> (project_versions db)) db);
  mret (id, v).

Definition insert_project_version (user_id project_id : Uuid) (request : CreateProjectVersionRequest)
    : Tx ProjectVersion :=
  db ← get_db;
  _ ← require (live_project db project_id) (project_not_found project_id);
  _ ← reject_if
        (negb match snapshot_manifests db !! cv_snapshot_manifest_id request with
              | Some m => bool_decide (mf_project_id m = project_id) && String.eqb (mf_status m) "ready"
              | None => false
              end)
        (Unprocessable "project versions require a ready snapshot from the same project");
  _ ← validate_version_parent project_id (cv_parent_version_id request);
  _ ← validate_version_parent project_id (cv_merge_base_version_id request);
  _ ← reject_if
        (match cv_created_by_run_id request with
         | Some run_id =>
             negb match runs db !! run_id with
                  | Some r => bool_decide (ins_project_id (run_ins r) = project_id)
                              && bool_decide (run_state r = Completed)
                  | None => false
                  end
         | None => false
         end)
        (Unprocessable "created_by_run_id must be a completed run from this project");
  created ← insert_version
    (fun revision now =>
       {| pv_project_id := project_id; pv_revision := revision;
          pv_parent_version_id := cv_parent_version_id request;
          pv_merge_base_version_id := cv_merge_base_version_id request;
          pv_snapshot_manifest_id := cv_snapshot_manifest_id request;
          pv_created_by_user_id := Some user_id;
          pv_created_by_run_id := cv_created_by_run_id request;
          pv_diff_summary := cv_diff_summary request; pv_created_at := now |}) project_id;
  mret (row_to_project_version created.1 created.2).

Definition create_project_version (user_id project_id : Uuid) (request : CreateProjectVersionRequest)
    : Handler ProjectVersion :=
  _ ← transaction (ensure_project_role user_id project_id Editor);
  transaction (insert_project_version user_id project_id request).

Definition newer_version (a b : Uuid * ProjectVersionRow) : Prop :=
  (pv_revision b.2 ≤ pv_revision a.2)%Z.
#[global] Instance newer_version_dec : RelDecision newer_version.
Proof. intros a b. unfold newer_version. apply _. Defined.

Definition list_project_versions (user_id project_id : Uuid) : Handler (list ProjectVersion) :=
  _ ← transaction (ensure_project_role user_id project_id Viewer);
  db ← tables;
  mret ((fun kv : Uuid * ProjectVersionRow => row_to_project_version kv.1 kv.2)
          <$> merge_sort newer_version (versions_of db project_id)).

(** The project row after its current version moved. *)
Definition at_version (id version_id : Uuid) (now : DateTime) (p : ProjectRow) : ProjectRow :=
  {| pr_revision := pr_revision p + 1; pr_etag := version_etag id (pr_revision p + 1);
     pr_owner_user_id := pr_owner_user_id p; pr_team_id := pr_team_id p;
     pr_privacy := pr_privacy p; pr_name := pr_name p; pr_description := pr_description p;
     pr_preferred_executor_target := pr_preferred_executor_target p; pr_policy := pr_policy p;
     pr_current_version_id := Some version_id; pr_created_at := pr_created_at p;
     pr_updated_at := now; pr_deleted_at := pr_deleted_at p |}.

Definition move_project (project_id version_id : Uuid) : Tx unit :=
  env ← ask;
  modify (fun db => set_projects
    (alter (at_version project_id version_id (db_now env)) project_id (projects db)) db).

Definition audit_project (user_id project_id : Uuid) (action : string) (metadata : Value) : Tx unit :=
  env ← ask;
  event_id ← fresh_uuid;
  db ← get_db;
  _ ← reject_if (bool_decide (is_Some (audit_events db !! event_id)))
        (Database (UniqueViolation "audit_events_pkey"));
  modify (fun db => set_audit_events
    (<[event_id := {| ae_actor_user_id := Some user_id; ae_action := action;
                      ae_target_type := "project"; ae_target_id := Some project_id;
                      ae_metadata := metadata; ae_created_at := db_now env |}]> (audit_events db)) db).

Definition version_not_found (version_id : Uuid) : ApiError :=
  NotFound ("project version " +:+ uuid_to_string version_id +:+ " was not found").

Definition switch_version (user_id project_id version_id : Uuid) (request : ApplyProjectVersionRequest)
    : Tx ProjectVersion :=
  db ← get_db;
  p ← require (live_project db project_id) (project_not_found project_id);
  _ ← reject_if (bool_decide (pr_revision p ≠ av_expected_project_revision request)
                 || bool_decide (pr_current_version_id p ≠ av_expected_current_version_id request))
        (Conflict "project changed since the review started");
  v ← require (project_version db project_id version_id) (version_not_found version_id);
  _ ← move_project project_id version_id;
  _ ← audit_project user_id project_id "project.version.apply"
        (json_obj [("version_id", juuid version_id);
                   ("previous_version_id", jopt juuid (pr_current_version_id p))]);
  mret (row_to_project_version version_id v).

Definition apply_project_version (user_id project_id version_id : Uuid)
    (request : ApplyProjectVersionRequest) : Handler ProjectVersion :=
  _ ← transaction (ensure_project_role user_id project_id Editor);
  transaction (switch_version user_id project_id version_id request).

(** ** The files of the versions to merge *)

Record VersionFiles := {
  vf_version : ProjectVersion;
  vf_manifest_id : Uuid;
  vf_files : gmap string SnapshotFile;
}.

Definition files_by_path (files : list SnapshotFile) : gmap string SnapshotFile :=
  foldl (fun m file => <[sf_path file := file]> m) ∅ files.

Definition load_version_files (project_id version_id : Uuid) : Tx VersionFiles :=
  db ← get_db;
  v ← require (project_version db project_id version_id) (version_not_found version_id);
  let manifest_id := pv_snapshot_manifest_id v in
  m ← require (match snapshot_manifests db !! manifest_id with
               | Some m => if String.eqb (mf_status m) "ready" then Some m else None
               | None => None
               end)
        (Conflict ("version " +:+ uuid_to_string version_id +:+ " snapshot is not ready"));
  mret {| vf_version := row_to_project_version version_id v; vf_manifest_id := manifest_id;
          vf_files := files_by_path (sm_files (snapshot_from_row db manifest_id m)) |}.

Definition load_merge_versions (project_id base_id current_id result_id : Uuid)
    : Tx (VersionFiles * VersionFiles * VersionFiles) :=
  db ← get_db;
  project_current ← require (live_project db project_id ≫= pr_current_version_id)
                      (Conflict "project has no current version");
  _ ← reject_if (bool_decide (project_current ≠ current_id))
        (Conflict "current_version_id is no longer the project's current version");
  base ← load_version_files project_id base_id;
  current ← load_version_files project_id current_id;
  result ← load_version_files project_id result_id;
  mret (base, current, result).

(** ** Comparing files *)

Inductive TextMerge :=
| Merged (bytes : string)
| Conflicting (preview : string)
| Binary.

Record FileAnalysis := { fa_review : MergeFileReview; fa_auto_merged : option string }.

(** The status the digests decide; [None]: all three differ, the texts are merged. The case
    without any file does not arise, since every path is one of a version. *)
Definition compare_digests (base current result : option string) : option MergeFileStatus :=
  match base, current, result with
  | None, None, Some _ => Some Added
  | None, Some _, None => Some CurrentOnly
  | None, Some c, Some r => if String.eqb c r then Some IdenticalChange else Some BinaryConflict
  | Some b, Some c, Some r =>
      if String.eqb b c && String.eqb b r then Some Unchanged
      else if String.eqb b c then Some ResultOnly
      else if String.eqb b r then Some CurrentOnly
      else if String.eqb c r then Some IdenticalChange
      else None
  | Some _, None, None => Some Deleted
  | Some b, Some c, None => if String.eqb b c then Some Deleted else Some BinaryConflict
  | Some b, None, Some r => if String.eqb b r then Some CurrentOnly else Some BinaryConflict
  | None, None, None => Some Unchanged
  end.

Definition default_resolution (status : MergeFileStatus) : MergeResolutionChoice :=
  match status with
  | Unchanged | CurrentOnly => TakeCurrent
  | AutoMerged => TakeAutoMerged
  | Deleted => TakeResult
  | Added | ResultOnly | IdenticalChange | Renamed => TakeResult
  | TextConflict | BinaryConflict => TakeCurrent
  end.

Definition merge_paths (base current result : VersionFiles) : list string :=
  merge_sort string_before
    (elements (dom (vf_files base) ∪ dom (vf_files current) ∪ dom (vf_files result))).

Definition snapshot_to_upload_file (file : SnapshotFile) : SnapshotUploadFile :=
  {| uf_path := sf_path file; uf_size := sf_size file; uf_mode := sf_mode file;
     uf_modified_at := sf_modified_at file;
     uf_chunks := (fun chunk => {| uc_digest := sk_digest chunk;
                                   uc_plaintext_size := sk_plaintext_size chunk |})
                    <$> sf_chunks file |}.

Fixpoint insert_resolutions (valid_paths : list string)
    (resolutions : gmap string MergeResolutionChoice) (requested : list MergeFileResolution)
    : result ApiError (gmap string MergeResolutionChoice) :=
  match requested with
  | [] => Ok resolutions
  | resolution :: rest =>
      let path := res_path resolution in
      _ ← guard_err (negb (str_mem path valid_paths))
            (Unprocessable ("merge resolution references unknown path " +:+ path));
      _ ← guard_err (bool_decide (is_Some (resolutions !! path)))
            (Unprocessable ("merge resolution for " +:+ path +:+ " is duplicated"));
      insert_resolutions valid_paths (<[path := res_choice resolution]> resolutions) rest
  end.

Definition is_conflict (status : MergeFileStatus) : bool :=
  match status with
  | TextConflict | BinaryConflict => true
  | _ => false
  end.

Definition status_json (status : MergeFileStatus) : string :=
  match status with
  | Unchanged => "unchanged" | Added => "added" | Deleted => "deleted"
  | CurrentOnly => "current_only" | ResultOnly => "result_only"
  | IdenticalChange => "identical_change" | AutoMerged => "auto_merged"
  | TextConflict => "text_conflict" | BinaryConflict => "binary_conflict" | Renamed => "renamed"
  end.

Definition review_json (review : MergeFileReview) : Value :=
  json_obj [("path", JString (mr_path review));
            ("renamed_from", jopt JString (mr_renamed_from review));
            ("status", JString (status_json (mr_status review)));
            ("base_digest", jopt JString (mr_base_digest review));
            ("current_digest", jopt JString (mr_current_digest review));
            ("result_digest", jopt JString (mr_result_digest review));
            ("auto_mergeable", JBool (mr_auto_mergeable review));
            ("conflict_preview", jopt JString (mr_conflict_preview review))].

Section merging.
Context `{StorageCrypto} `{MergeLib}.

Definition file_fingerprint (file : SnapshotFile) : string :=
  hex_digest (big_endian 8 (Z.to_N (sf_size file)) ""
              +:+ join "" ((fun chunk => sk_digest chunk
                              +:+ big_endian 8 (Z.to_N (sk_plaintext_size chunk)) "")
                            <$> sf_chunks file)).

(** Reading on fails as soon as the text is too long. *)
Fixpoint read_chunks (master_key : string) (s : KeyScope) (output : string) (rows : list ChunkRow)
    : Handler string :=
  match rows with
  | [] => mret output
  | row :: rest =>
      chunk ← read_chunk master_key s row;
      let output := output +:+ chunk in
      _ ← hlift (guard_err (MAX_TEXT_MERGE_BYTES <? str_len output)%Z
            (Unprocessable "text merge materialization exceeded its size limit"));
      read_chunks master_key s output rest
  end.

Definition materialize_file (master_key : string) (manifest_id : Uuid) (path : string)
    : Handler string :=
  db ← tables;
  m ← hlift (ok_or (Conflict "snapshot is not ready")
        (match snapshot_manifests db !! manifest_id with
         | Some m => if String.eqb (mf_status m) "ready" then Some m else None
         | None => None
         end));
  s ← hlift (row_scope m);
  read_chunks master_key s ""
    (omap (fun mapping : Z * ChunkKey => snapshot_chunks db !! mapping.2)
          (path_mappings db manifest_id path)).

Definition attempt_text_merge (master_key : string)
    (base_manifest current_manifest result_manifest : Uuid) (path : string)
    (base current result : SnapshotFile) : Handler TextMerge :=
  if existsb (fun size => (MAX_TEXT_MERGE_BYTES <? size)%Z)
       [sf_size base; sf_size current; sf_size result]
  then mret Binary
  else
    base ← materialize_file master_key base_manifest path;
    current ← materialize_file master_key current_manifest path;
    result ← materialize_file master_key result_manifest path;
    if utf8_valid base && utf8_valid current && utf8_valid result then
      match diffy_merge base current result with
      | Ok merged => mret (Merged merged)
      | Err conflict => mret (Conflicting (take_chars (Z.to_nat 20000) conflict))
      end
    else mret Binary.

(** The status of a path, the merged bytes and the preview of a conflict. *)
Definition path_status (master_key : string) (base current result : VersionFiles) (path : string)
    : Handler (MergeFileStatus * option string * option string) :=
  let file v := vf_files v !! path in
  match compare_digests (file_fingerprint <$> file base) (file_fingerprint <$> file current)
          (file_fingerprint <$> file result) with
  | Some status => mret (status, None, None)
  | None =>
      match file base, file current, file result with
      | Some b, Some c, Some r =>
          merged ← attempt_text_merge master_key (vf_manifest_id base) (vf_manifest_id current)
                     (vf_manifest_id result) path b c r;
          mret (match merged with
                | Merged bytes => (AutoMerged, Some bytes, None)
                | Conflicting preview => (TextConflict, None, Some preview)
                | Binary => (BinaryConflict, None, None)
                end)
      | _, _, _ => mret (Unchanged, None, None)
      end
  end.

Definition analyze_path (master_key : string) (base current result : VersionFiles) (path : string)
    : Handler FileAnalysis :=
  let digest v := file_fingerprint <$> vf_files v !! path in
  '(status, auto_merged, preview) ← path_status master_key base current result path;
  mret {| fa_review := {| mr_path := path; mr_renamed_from := None; mr_status := status;
                          mr_base_digest := digest base; mr_current_digest := digest current;
                          mr_result_digest := digest result;
                          mr_auto_mergeable := bool_decide (status = AutoMerged);
                          mr_conflict_preview := preview |};
          fa_auto_merged := auto_merged |}.

Fixpoint analyze_paths (master_key : string) (base current result : VersionFiles)
    (paths : list string) : Handler (list FileAnalysis) :=
  match paths with
  | [] => mret []
  | path :: rest =>
      item ← analyze_path master_key base current result path;
      items ← analyze_paths master_key base current result rest;
      mret (item :: items)
  end.

(** The path of a file the result no longer has, with the same content. *)
Definition renamed_from (base result : VersionFiles) (file : SnapshotFile) : option string :=
  fst <$> head (filter (fun kv : string * SnapshotFile =>
                  vf_files result !! kv.1 = None /\ file_fingerprint kv.2 = file_fingerprint file)
                (map_to_list (vf_files base))).

Definition annotate_rename (base result : VersionFiles) (item : FileAnalysis) : FileAnalysis :=
  let review := fa_review item in
  match mr_status review, vf_files result !! mr_path review with
  | Added, Some file =>
      match renamed_from base result file with
      | Some old_path =>
          {| fa_review := {| mr_path := mr_path review; mr_renamed_from := Some old_path;
                             mr_status := Renamed; mr_base_digest := mr_base_digest review;
                             mr_current_digest := mr_current_digest review;
                             mr_result_digest := mr_result_digest review;
                             mr_auto_mergeable := mr_auto_mergeable review;
                             mr_conflict_preview := mr_conflict_preview review |};
             fa_auto_merged := fa_auto_merged item |}
      | None => item
      end
  | _, _ => item
  end.

Definition annotate_renames (base result : VersionFiles) (analysis : list FileAnalysis)
    : list FileAnalysis :=
  annotate_rename base result <$> analysis.

Definition analyze_merge (master_key : string) (base current result : VersionFiles)
    : Handler (list FileAnalysis) :=
  analysis ← analyze_paths master_key base current result (merge_paths base current result);
  mret (annotate_renames base result analysis).

Definition review_project_merge (user_id project_id base_id current_id result_id : Uuid)
    : Handler ProjectMergeReview :=
  _ ← transaction (ensure_project_role user_id project_id Viewer);
  master_key ← require_store;
  '(base, current, result) ← transaction (load_merge_versions project_id base_id current_id result_id);
  analysis ← analyze_merge master_key base current result;
  mret {| pm_project_id := project_id; pm_base_version_id := ver_id (vf_version base);
          pm_current_version_id := ver_id (vf_version current);
          pm_result_version_id := ver_id (vf_version result); pm_files := fa_review <$> analysis |}.

(** ** Storing merged texts *)

Definition stored_ciphertext_size (s : KeyScope) (digest : string) : Tx (option Z) :=
  db ← get_db;
  mret (ck_ciphertext_size <$> ready_chunk db s digest).

Definition persist_plaintext_chunk (master_key : string) (s : KeyScope) (digest bytes : string)
    : Handler Z :=
  stored ← transaction (stored_ciphertext_size s digest);
  match stored with
  | Some size => mret size
  | None =>
      put ← put_encrypted master_key s digest bytes;
      _ ← transaction (insert_chunk s digest put.1 (str_len bytes) put.2);
      mret (str_len (enc_ciphertext put.2))
  end.

Fixpoint upload_parts (master_key : string) (s : KeyScope) (parts : list string)
    : Handler (list SnapshotChunk) :=
  match parts with
  | [] => mret []
  | part :: rest =>
      let digest := hex_digest part in
      ciphertext_size ← persist_plaintext_chunk master_key s digest part;
      chunks ← upload_parts master_key s rest;
      mret ({| sk_digest := digest; sk_plaintext_size := str_len part;
               sk_ciphertext_size := ciphertext_size |} :: chunks)
  end.

Definition upload_file_from_bytes (master_key : string) (s : KeyScope) (template : SnapshotFile)
    (bytes : string) : Handler SnapshotFile :=
  chunks ← upload_parts master_key s
             (str_chunks (String.length bytes) (Z.to_nat MAX_CHUNK_BYTES) bytes);
  now ← utc_now;
  mret {| sf_path := sf_path template; sf_size := str_len bytes; sf_mode := sf_mode template;
          sf_modified_at := now; sf_chunks := chunks |}.

(** ** The merged snapshot *)

(** [MergeResolutionChoice] applied to a path. *)
Definition select_file (master_key : string) (s : KeyScope) (current result : VersionFiles)
    (item : FileAnalysis) (choice : MergeResolutionChoice) : Handler (option SnapshotFile) :=
  let path := mr_path (fa_review item) in
  match choice with
  | TakeCurrent => mret (vf_files current !! path)
  | TakeResult => mret (vf_files result !! path)
  | TakeNone => mret None
  | TakeAutoMerged =>
      bytes ← hlift (ok_or (Unprocessable (path +:+ " has no conflict-free automatic merge"))
                       (fa_auto_merged item));
      template ← hlift (ok_or (Internal "merge template file disappeared")
                          (match vf_files result !! path with
                           | Some file => Some file
                           | None => vf_files current !! path
                           end));
      file ← upload_file_from_bytes master_key s template bytes;
      mret (Some file)
  end.

Fixpoint merge_files (master_key : string) (s : KeyScope) (current result : VersionFiles)
    (resolutions : gmap string MergeResolutionChoice) (analysis : list FileAnalysis)
    : Handler (list SnapshotUploadFile) :=
  match analysis with
  | [] => mret []
  | item :: rest =>
      let review := fa_review item in
      let explicit := resolutions !! mr_path review in
      selected ← select_file master_key s current result item
                   (default (default_resolution (mr_status review)) explicit);
      _ ← hlift (guard_err (is_conflict (mr_status review) && bool_decide (explicit = None))
            (Unprocessable ("conflict for " +:+ mr_path review +:+ " requires an explicit resolution")));
      files ← merge_files master_key s current result resolutions rest;
      mret (match selected with
            | Some file => snapshot_to_upload_file file :: files
            | None => files
            end)
  end.

Definition path_before (a b : SnapshotUploadFile) : Prop := string_before (uf_path a) (uf_path b).
#[global] Instance path_before_dec : RelDecision path_before.
Proof. intros a b. unfold path_before. apply _. Defined.

Fixpoint total_size (sum : Z) (files : list SnapshotUploadFile) : result ApiError Z :=
  match files with
  | [] => Ok sum
  | file :: rest =>
      sum ← checked_add (Unprocessable "merged snapshot size overflow") sum (uf_size file);
      total_size sum rest
  end.

Definition insert_ready_manifest (user_id project_id : Uuid) (s : KeyScope) (total_bytes : Z)
    (expires_at : DateTime) (files : list SnapshotUploadFile) : Tx Uuid :=
  env ← ask;
  id ← fresh_uuid;
  _ ← put_manifest id
        {| mf_project_id := project_id; mf_created_by := user_id; mf_key_scope_type := kind s;
           mf_key_scope_id := scope_id s; mf_encryption_key_id := key_id s;
           mf_total_bytes := total_bytes; mf_file_count := Z.of_nat (length files);
           mf_manifest := files; mf_status := "ready"; mf_source_run_id := None;
           mf_created_at := db_now env; mf_expires_at := Some expires_at;
           mf_upload_expires_at := (db_now env + days 1)%Z; mf_warnings := [];
           mf_committed_at := Some (db_now env) |};
  _ ← reject_if (existsb (fun file => negb (in_i32 (Z.of_nat (length (uf_chunks file)) - 1))) files)
        index_too_large;
  _ ← add_mappings id (manifest_mappings id s files);
  mret id.

(** A manifest that no version names becomes collectible after a day. *)
Definition create_ready_manifest (project_id user_id : Uuid) (s : KeyScope)
    (files : list SnapshotUploadFile) : Handler Uuid :=
  total_bytes ← hlift (total_size 0 files);
  _ ← hlift (validate_snapshot_files total_bytes files);
  now ← utc_now;
  transaction (insert_ready_manifest user_id project_id s total_bytes (now + days 1)%Z files).

(** The transaction that makes the merged snapshot the project's current version. *)
Definition finish_merge (user_id project_id manifest_id : Uuid) (request : ApplyProjectMergeRequest)
    (base current result : VersionFiles) (analysis : list FileAnalysis) : Tx ProjectVersion :=
  db ← get_db;
  p ← require (live_project db project_id) (project_not_found project_id);
  _ ← reject_if (bool_decide (pr_revision p ≠ am_expected_project_revision request)
                 || bool_decide (pr_current_version_id p ≠ Some (ver_id (vf_version current))))
        (Conflict "project changed since the merge review was generated");
  created ← insert_version
    (fun revision now =>
       {| pv_project_id := project_id; pv_revision := revision;
          pv_parent_version_id := Some (ver_id (vf_version current));
          pv_merge_base_version_id := Some (ver_id (vf_version base));
          pv_snapshot_manifest_id := manifest_id; pv_created_by_user_id := Some user_id;
          pv_created_by_run_id := None;
          pv_diff_summary := json_obj
            [("base_version_id", juuid (ver_id (vf_version base)));
             ("current_version_id", juuid (ver_id (vf_version current)));
             ("result_version_id", juuid (ver_id (vf_version result)));
             ("files", JArray ((review_json ∘ fa_review) <$> analysis))];
          pv_created_at := now |}) project_id;
  _ ← move_project project_id created.1;
  _ ← audit_project user_id project_id "project.merge.apply"
        (json_obj [("version_id", juuid created.1);
                   ("result_version_id", juuid (ver_id (vf_version result)))]);
  mret (row_to_project_version created.1 created.2).

Definition apply_project_merge (user_id project_id : Uuid) (request : ApplyProjectMergeRequest)
    : Handler ProjectVersion :=
  _ ← transaction (ensure_project_role user_id project_id Editor);
  master_key ← require_store;
  '(base, current, result) ← transaction
    (load_merge_versions project_id (am_base_version_id request) (am_current_version_id request)
       (am_result_version_id request));
  analysis ← analyze_merge master_key base current result;
  resolutions ← hlift (insert_resolutions ((mr_path ∘ fa_review) <$> analysis) ∅
                         (am_resolutions request));
  db ← tables;
  scope_row ← hlift (ok_or (Database RowNotFound) (snapshot_manifests db !! vf_manifest_id current));
  s ← hlift (row_scope scope_row);
  output ← merge_files master_key s current result resolutions analysis;
  manifest_id ← create_ready_manifest project_id user_id s (merge_sort path_before output);
  transaction (finish_merge user_id project_id manifest_id request base current result analysis).

End merging.
End Merge.
