(* ===== verification/Artifacts.v ===== *)
(** * Run artifacts and attachments

    server/cowork-server/src/storage.rs, from [persist_run_artifact] to [row_to_artifact]
    and the handlers of executors and users that store artifacts: the bytes are encrypted
    for the project's key scope and written to the bucket, a row names the object, and an
    event of the run announces it. *)

From stdpp Require Import gmap.
From S2P Require Import Prelude.
From S2P Require Import Text.
From S2P Require Import Json.
From S2P Require Import Contracts.
From S2P Require Import Store.
From S2P Require Import Governance.
From S2P Require Import RunStore.
From S2P Require Import RunRequest.
From S2P Require Import Organization.
From S2P Require Import ObjectStore.
From S2P Require Import Snapshots.

Import Organization Snapshots.

Module Artifacts.

Record RunArtifact := {
  ra_id : Uuid;
  ra_run_id : Uuid;
  ra_revision : Z;
  ra_kind : string;
  ra_media_type : string;
  ra_name : string;
  ra_digest : string;
  ra_size_bytes : Z;
  ra_metadata : Value;
  ra_created_at : DateTime;
  ra_deleted_at : option DateTime;
}.

(** The answer to a download. *)
Record ArtifactResponse := {
  ar_content_type : string;
  ar_content_length : Z;
  ar_content_disposition : string;
  ar_body : string;
}.

(** ** Names and paths *)

(** [s.rsplit(c).next()]: the text after the last [c]. *)
Fixpoint after_last (c : ascii) (s : string) : string :=
  match s with
  | EmptyString => EmptyString
  | String x rest =>
      if str_has (Ascii.eqb c) rest then after_last c rest
      else if Ascii.eqb c x then rest else s
  end.

Definition file_name (workspace_path : string) : option string :=
  let name := after_last "/" workspace_path in
  if str_is_empty name then None else Some name.

Definition artifact_media (name : string) : string * string :=
  match to_ascii_lowercase (after_last "." name) with
  | "png" => ("image", "image/png")
  | "jpg" | "jpeg" => ("image", "image/jpeg")
  | "webp" => ("image", "image/webp")
  | "pdf" => ("document", "application/pdf")
  | "zip" => ("trace", "application/zip")
  | "webm" => ("video", "video/webm")
  | "json" => ("log", "application/json")
  | "txt" | "log" => ("log", "text/plain; charset=utf-8")
  | _ => ("file", "application/octet-stream")
  end.

(** [std::path::Component] on Unix. *)
Inductive Component := RootDir | CurDir | ParentDir | Normal (name : string).

#[global] Instance Component_eq_dec : EqDecision Component.
Proof. solve_decision. Defined.

Definition component_of (part : string) : option Component :=
  if str_is_empty part || String.eqb part "." then None
  else if String.eqb part ".." then Some ParentDir else Some (Normal part).

(** [Path::components]: empty parts and inner dots are skipped. *)
Definition fs_components (path : string) : list Component :=
  (if String.prefix "/" path then [RootDir]
   else match path_components path with
        | first :: _ => if String.eqb first "." then [CurDir] else []
        | [] => []
        end) ++ omap component_of (path_components path).

Definition is_normal (component : Component) : bool :=
  match component with
  | Normal _ => true
  | _ => false
  end.

Definition validate_executor_artifact_path (path : string) : result ApiError unit :=
  _ ← guard_err (str_is_empty path || (1024 <? str_len path)%Z || str_has (Ascii.eqb "\") path)
        (Unprocessable "artifact path is invalid");
  guard_err
    (match fs_components path with
     | first :: rest => negb (bool_decide (first = Normal "artifacts"))
                        || existsb (fun component => negb (is_normal component)) rest
     | [] => true
     end)
    (Unprocessable "artifact path must stay below artifacts/").

Definition validate_attachment_name (name : string) : result ApiError unit :=
  guard_err
    (str_is_empty name || (255 <? str_len name)%Z || String.eqb name "." || String.eqb name ".."
     || str_has (fun c => Ascii.eqb "/" c || Ascii.eqb "\" c || Ascii.eqb Ascii.zero c) name
     || RunRequest.has_control name)
    (Unprocessable "attachment name must be a single safe file name").

(** [utf8_percent_encode(value, AWS_ENCODE_SET)] *)
Definition keeps_plain (c : ascii) : bool :=
  is_ascii_alphanumeric c || Ascii.eqb "-" c || Ascii.eqb "." c || Ascii.eqb "_" c || Ascii.eqb "~" c.

Definition upper_hex_digit (n : N) : ascii :=
  if (n <? 10)%N then Ascii.ascii_of_N (48 + n) else Ascii.ascii_of_N (55 + n).

Fixpoint encode_segment (value : string) : string :=
  match value with
  | EmptyString => EmptyString
  | String c rest =>
      if keeps_plain c then String c (encode_segment rest)
      else String "%" (String (upper_hex_digit (byte_of c / 16))
                         (String (upper_hex_digit (byte_of c mod 16)) (encode_segment rest)))
  end.

(** ** Rows *)

Definition row_to_artifact (id : Uuid) (row : ArtifactRow) : RunArtifact :=
  {| ra_id := id; ra_run_id := af_run_id row; ra_revision := af_revision row; ra_kind := af_kind row;
     ra_media_type := af_media_type row; ra_name := af_name row; ra_digest := af_digest row;
     ra_size_bytes := af_size_bytes row; ra_metadata := af_metadata row;
     ra_created_at := af_created_at row; ra_deleted_at := af_deleted_at row |}.

(** [row_scope] of an artifact, whose columns can be NULL. *)
Definition artifact_scope (row : ArtifactRow) : result ApiError KeyScope :=
  id ← ok_or (Database (UnexpectedNull "key_scope_id")) (af_key_scope_id row);
  kind ← ok_or (Database (UnexpectedNull "key_scope_type")) (af_key_scope_type row);
  if String.eqb kind "user" then Ok (ScopeOfUser id)
  else if String.eqb kind "team" then Ok (ScopeOfTeam id)
  else Err (Internal ("invalid snapshot key scope in database: " +:+ kind)).

Definition artifact_metadata (workspace_path source : string) : Value :=
  json_obj [("workspace_path", JString workspace_path); ("source", JString source)].

Definition artifact_payload (id run_id : Uuid) (revision : Z) (kind media_type name digest : string)
    (size : Z) (workspace_path : string) : Value :=
  json_obj [("schema_version", jint SCHEMA_VERSION); ("id", juuid id); ("run_id", juuid run_id);
            ("revision", jint revision); ("kind", JString kind); ("media_type", JString media_type);
            ("name", JString name); ("digest", JString digest); ("size_bytes", jint size);
            ("workspace_path", JString workspace_path);
            ("storage", JString "object_store_encrypted")].

Definition artifact_of_event (db : Db) (run_id event_id : Uuid) : option (Uuid * ArtifactRow) :=
  select_one (fun _ row => bool_decide (af_run_id row = run_id)
                           && bool_decide (af_source_event_id row = Some event_id)) (run_artifacts db).

Definition artifact_object_key (s : KeyScope) (run_id artifact_id : Uuid) : string :=
  "artifacts/" +:+ kind s +:+ "/" +:+ uuid_to_string (scope_id s) +:+ "/" +:+ uuid_to_string run_id
  +:+ "/" +:+ uuid_to_string artifact_id.

(** [SELECT COALESCE(MAX(revision), 0) + 1 FROM run_artifacts WHERE run_id = $1 AND name = $2] *)
Definition next_artifact_revision (run_id : Uuid) (name : string) : Tx Z :=
  db ← get_db;
  sql_bigint
    (foldr Z.max 0%Z
       (omap (fun kv : Uuid * ArtifactRow =>
                if bool_decide (af_run_id kv.2 = run_id) && String.eqb (af_name kv.2) name
                then Some (af_revision kv.2) else None) (map_to_list (run_artifacts db))) + 1).

(** [INSERT INTO run_artifacts], with its keys. *)
Definition insert_artifact (id : Uuid) (row : DateTime -> ArtifactRow) : Tx unit :=
  env ← ask;
  db ← get_db;
  let row := row (db_now env) in
  _ ← reject_if (bool_decide (is_Some (run_artifacts db !! id)))
        (Database (UniqueViolation "run_artifacts_pkey"));
  _ ← reject_if (bool_decide (is_Some (af_source_event_id row ≫= artifact_of_event db (af_run_id row))))
        (Database (UniqueViolation "run_artifacts_source_event_unique"));
  _ ← reject_if (negb (bool_decide (is_Some (runs db !! af_run_id row))))
        (Database (ForeignKeyViolation "run_artifacts_run_id_fkey"));
  modify (fun db => set_run_artifacts (<[id := row]> (run_artifacts db)) db).

(** ** Storing *)

Section artifacts.
Context `{StorageCrypto}.

(** An artifact the event has already stored: the same one, or a conflict. *)
Definition retried_artifact (id : Uuid) (row : ArtifactRow) (run_id : Uuid)
    (workspace_path source plaintext : string) : result ApiError Value :=
  _ ← guard_err (negb (String.eqb (af_digest row) (hex_digest plaintext))
                 || negb (af_size_bytes row =? str_len plaintext)%Z
                 || bool_decide (get_str "workspace_path" (af_metadata row) ≠ Some workspace_path)
                 || bool_decide (get_str "source" (af_metadata row) ≠ Some source))
        (Conflict "source_event_id was already used for different artifact content");
  Ok (artifact_payload id run_id (af_revision row) (af_kind row) (af_media_type row) (af_name row)
        (hex_digest plaintext) (str_len plaintext) workspace_path).

(** The row of a new artifact. *)
Definition artifact_row (s : KeyScope) (artifact_id run_id : Uuid) (revision : Z)
    (name workspace_path source : string) (source_event_id : option Uuid) (plaintext : string)
    (encrypted : EncryptedChunk) (now : DateTime) : ArtifactRow :=
  {| af_run_id := run_id; af_revision := revision; af_kind := (artifact_media name).1;
     af_media_type := (artifact_media name).2; af_name := name;
     af_object_key := artifact_object_key s run_id artifact_id;
     af_digest := hex_digest plaintext; af_size_bytes := str_len plaintext;
     af_metadata := artifact_metadata workspace_path source;
     af_key_scope_type := Some (kind s); af_key_scope_id := Some (scope_id s);
     af_encrypted_data_key := Some (enc_wrapped_data_key encrypted);
     af_nonce := Some (enc_nonce encrypted); af_wrap_nonce := Some (enc_wrap_nonce encrypted);
     af_source_event_id := source_event_id; af_created_at := now; af_deleted_at := None |}.

Definition new_artifact (master_key : string) (s : KeyScope) (artifact_id run_id : Uuid)
    (name workspace_path source : string) (source_event_id : option Uuid) (plaintext : string)
    : Handler Value :=
  random ← random_bytes;
  encrypted ← hlift (encrypt master_key random s plaintext);
  let object_key := artifact_object_key s run_id artifact_id in
  _ ← change_objects (<[object_key := enc_ciphertext encrypted]>);
  revision ← transaction (next_artifact_revision run_id name);
  inserted ← attempt (transaction (insert_artifact artifact_id
    (artifact_row s artifact_id run_id revision name workspace_path source source_event_id plaintext
       encrypted)));
  match inserted with
  | Err error =>
      _ ← attempt (delete_object object_key);
      hlift (Err error)
  | Ok _ => mret (artifact_payload artifact_id run_id revision (artifact_media name).1
                    (artifact_media name).2 name (hex_digest plaintext) (str_len plaintext)
                    workspace_path)
  end.

Definition persist_run_artifact (master_key : string) (run_id project_id creator_user_id : Uuid)
    (workspace_path source : string) (source_event_id : option Uuid) (plaintext : string)
    : Handler Value :=
  s ← transaction (project_scope project_id creator_user_id);
  artifact_id ← transaction fresh_uuid;
  name ← hlift (ok_or (Unprocessable "artifact path has no file name") (file_name workspace_path));
  db ← tables;
  match source_event_id ≫= artifact_of_event db run_id with
  | Some (id, row) => hlift (retried_artifact id row run_id workspace_path source plaintext)
  | None => new_artifact master_key s artifact_id run_id name workspace_path source source_event_id
              plaintext
  end.

(** ** Handlers *)

Definition run_row (run_id : Uuid) : Handler RunRow :=
  db ← tables;
  hlift (ok_or (NotFound ("run " +:+ uuid_to_string run_id +:+ " was not found")) (runs db !! run_id)).

Definition artifact_before (a b : Uuid * ArtifactRow) : Prop :=
  (af_created_at a.2 < af_created_at b.2)%Z \/ af_created_at a.2 = af_created_at b.2 /\ (a.1 ≤ b.1)%N.
#[global] Instance artifact_before_dec : RelDecision artifact_before.
Proof. intros a b. unfold artifact_before. apply _. Defined.

Definition list_run_artifacts (user_id run_id : Uuid) : Handler (list RunArtifact) :=
  run ← run_row run_id;
  _ ← transaction (ensure_thread_role user_id (ins_project_id (run_ins run))
                     (ins_thread_id (run_ins run)) Viewer);
  db ← tables;
  mret ((fun kv : Uuid * ArtifactRow => row_to_artifact kv.1 kv.2)
          <$> merge_sort artifact_before
                (filter (fun kv => af_run_id kv.2 = run_id /\ af_deleted_at kv.2 = None)
                   (map_to_list (run_artifacts db)))).

Definition live_artifact (db : Db) (run_id artifact_id : Uuid) : option (ArtifactRow * RunRow) :=
  match run_artifacts db !! artifact_id, runs db !! run_id with
  | Some row, Some run =>
      if bool_decide (af_run_id row = run_id) && bool_decide (af_deleted_at row = None)
      then Some (row, run) else None
  | _, _ => None
  end.

Definition configured_store : Handler string := fun henv w =>
  (w, ok_or (Conflict "object storage is not configured") (h_master_key henv)).

Definition download_run_artifact (user_id run_id artifact_id : Uuid) : Handler ArtifactResponse :=
  db ← tables;
  found ← hlift (ok_or (NotFound ("artifact " +:+ uuid_to_string artifact_id +:+ " was not found"))
                   (live_artifact db run_id artifact_id));
  let '(row, run) := found in
  _ ← transaction (ensure_thread_role user_id (ins_project_id (run_ins run))
                     (ins_thread_id (run_ins run)) Viewer);
  master_key ← configured_store;
  s ← hlift (artifact_scope row);
  wrapped_data_key ← hlift (ok_or (Conflict "artifact has no encrypted data key")
                              (af_encrypted_data_key row));
  nonce ← hlift (ok_or (Conflict "artifact has no encryption nonce") (af_nonce row));
  wrap_nonce ← hlift (ok_or (Conflict "artifact has no wrapped-key nonce") (af_wrap_nonce row));
  bytes ← get_decrypted master_key s (af_object_key row) wrapped_data_key nonce wrap_nonce;
  _ ← hlift (guard_err (negb (String.eqb (hex_digest bytes) (af_digest row)))
        (Internal "artifact digest verification failed"));
  mret {| ar_content_type := af_media_type row; ar_content_length := str_len bytes;
          ar_content_disposition := "inline; filename*=UTF-8''" +:+ encode_segment (af_name row);
          ar_body := bytes |}.

Definition upload_run_attachment (user_id run_id : Uuid) (name body : string) : Handler Value :=
  _ ← hlift (validate_attachment_name name);
  _ ← hlift (guard_err (str_is_empty body) (Unprocessable "attachment must not be empty"));
  run ← run_row run_id;
  let project_id := ins_project_id (run_ins run) in
  _ ← transaction (ensure_project_role user_id project_id Runner);
  master_key ← require_store;
  payload ← persist_run_artifact master_key run_id project_id user_id
              ("artifacts/user-uploads/" +:+ name) "user_attachment" None body;
  let payload := match payload with
                 | JObject object => JObject (map_insert "uploaded_by_user_id" (juuid user_id) object)
                 | other => other
                 end in
  _ ← transaction (append_event_tx run_id EvArtifactCreated payload);
  mret payload.

Definition upload_executor_run_artifact (principal executor_id run_id : Uuid) (path source : string)
    (source_event_id : option Uuid) (token : option string) (body : string) : Handler Value :=
  _ ← hlift (ensure_executor_path principal executor_id);
  _ ← hlift (validate_executor_artifact_path path);
  _ ← hlift (guard_err (str_is_empty (trim source) || (100 <? str_len source)%Z)
        (Unprocessable "artifact source must contain 1 to 100 characters"));
  spec ← transaction (verify_executor_lease run_id executor_id token);
  master_key ← require_store;
  payload ← persist_run_artifact master_key run_id (spec_project_id spec) (spec_creator_user_id spec)
              path source source_event_id body;
  _ ← transaction (match source_event_id with
                   | Some event_id => append_event_tx_with_id run_id event_id EvArtifactCreated payload
                   | None => append_event_tx run_id EvArtifactCreated payload
                   end);
  mret payload.
End artifacts.
End Artifacts.
