(* ===== verification/StorageSafety.v ===== *)
(** * The invariant of snapshot storage

    The reference count of a chunk is the number of mappings to it, mappings and reservations
    name stored chunks, a ready manifest has exactly the mappings its files declare, and every
    stored chunk has an object that decrypts to bytes of its digest. Every handler of
    [Snapshots] and [SnapshotMerge] keeps it. *)

From Stdlib Require Import ZifyBool ZifyN.
From stdpp Require Import gmap.
From S2P Require Import Prelude.
From S2P Require Import Text.
From S2P Require Import Json.
From S2P Require Import Contracts.
From S2P Require Import Store.
From S2P Require Import Governance.
From S2P Require Import SyncPublish.
From S2P Require Import RunStore.
From S2P Require Import Routing.
From S2P Require Import Organization.
From S2P Require Import RequestProperties.
From S2P Require Import ObjectStore.
From S2P Require Import Snapshots.
From S2P Require Import SnapshotMerge.

Import Organization Snapshots Merge.

(** ** Object keys name their chunks *)

Lemma string_app_inj a b c d :
  String.length a = String.length b -> a +:+ c = b +:+ d -> a = b /\ c = d.
Proof.
  revert b. induction a as [|x a IH]; intros [|y b]; simpl; try done.
  intros [= Hl] [= -> Heq]. by destruct (IH _ Hl Heq) as [-> ->].
Qed.

Lemma hex_digit_inj n m : (n < 16)%N -> (m < 16)%N -> hex_digit n = hex_digit m -> n = m.
Proof.
  assert (forall k, (k < 16)%N -> (N_of_ascii (hex_digit k) = if k <? 10 then 48 + k else 87 + k)%N)
    as Hv.
  { intros k Hk. unfold hex_digit. destruct (k <? 10)%N eqn:E; apply N_ascii_embedding; lia. }
  intros Hn Hm Heq. apply (f_equal N_of_ascii) in Heq. rewrite !Hv in Heq by done.
  destruct (n <? 10)%N eqn:E1, (m <? 10)%N eqn:E2; lia.
Qed.

Lemma hex_digits_app k n acc : hex_digits k n acc = hex_digits k n "" +:+ acc.
Proof.
  revert n acc. induction k as [|k IH]; intros n acc; simpl; [done|].
  rewrite IH, (IH _ (String _ "")), string_app_assoc. done.
Qed.

Lemma hex_digits_length k n acc : String.length (hex_digits k n acc) = (k + String.length acc)%nat.
Proof.
  revert n acc. induction k as [|k IH]; intros n acc; simpl; [done|]. rewrite IH. simpl. lia.
Qed.

Lemma hex_digits_inj k n m :
  (n < 16 ^ N.of_nat k)%N -> (m < 16 ^ N.of_nat k)%N -> hex_digits k n "" = hex_digits k m "" -> n = m.
Proof.
  revert n m. induction k as [|k IH]; intros n m Hn Hm; [simpl in *; lia|].
  cbn [hex_digits]. rewrite (hex_digits_app k (n / 16)), (hex_digits_app k (m / 16)). intros Heq.
  rewrite Nat2N.inj_succ, N.pow_succ_r' in Hn, Hm.
  apply string_app_inj in Heq as [Hq [= Hr]]; [|by rewrite !hex_digits_length].
  apply IH in Hq; [|apply N.Div0.div_lt_upper_bound; lia|apply N.Div0.div_lt_upper_bound; lia].
  apply hex_digit_inj in Hr; [|apply N.mod_lt; lia|apply N.mod_lt; lia].
  rewrite (N.div_mod' n 16), (N.div_mod' m 16), Hq, Hr. done.
Qed.

(** A UUID has 128 bits. *)
Definition wide (u : Uuid) : Prop := (u < 2 ^ 128)%N.

Lemma hyphens_inj s t :
  String.length s = 32%nat -> String.length t = 32%nat ->
  String.substring 0 8 s +:+ "-" +:+ String.substring 8 4 s +:+ "-" +:+ String.substring 12 4 s
  +:+ "-" +:+ String.substring 16 4 s +:+ "-" +:+ String.substring 20 12 s
  = String.substring 0 8 t +:+ "-" +:+ String.substring 8 4 t +:+ "-" +:+ String.substring 12 4 t
    +:+ "-" +:+ String.substring 16 4 t +:+ "-" +:+ String.substring 20 12 t ->
  s = t.
Proof.
  intros Hs Ht. do 32 (destruct s as [|? s]; [done|]). destruct s; [|done].
  do 32 (destruct t as [|? t]; [done|]). destruct t; [|done]. clear Hs Ht.
  simpl. intros Heq. injection Heq. intros. subst. done.
Qed.

Lemma uuid_to_string_inj u v : wide u -> wide v -> uuid_to_string u = uuid_to_string v -> u = v.
Proof.
  intros Hu Hv Heq. unfold uuid_to_string in Heq.
  apply hyphens_inj in Heq; [|by rewrite hex_digits_length|by rewrite hex_digits_length].
  by apply hex_digits_inj in Heq.
Qed.

Lemma uuid_to_string_length u : String.length (uuid_to_string u) = 36%nat.
Proof.
  unfold uuid_to_string. assert (String.length (hex_digits 32 u "") = 32%nat) as Hl
    by (by rewrite hex_digits_length).
  revert Hl. generalize (hex_digits 32 u ""). intros s Hs.
  do 32 (destruct s as [|? s]; [done|]). destruct s; [|done]. done.
Qed.

Lemma chunk_object_key_inj s1 d1 s2 d2 :
  wide (scope_id s1) -> wide (scope_id s2) -> String.length d1 = 64%nat -> String.length d2 = 64%nat ->
  chunk_object_key s1 d1 = chunk_object_key s2 d2 -> s1 = s2 /\ d1 = d2.
Proof.
  unfold chunk_object_key. intros Hw1 Hw2 Hl1 Hl2 Heq. apply string_app_inj in Heq as [_ Heq]; [|done].
  assert (kind s1 = kind s2 /\ uuid_to_string (scope_id s1) = uuid_to_string (scope_id s2) /\ d1 = d2)
    as (Hk & Hu & ->).
  { apply string_app_inj in Heq as [Hk Heq]; [|by destruct s1, s2].
    apply string_app_inj in Heq as [_ Heq]; [|done].
    apply string_app_inj in Heq as [Hu Heq]; [|by rewrite !uuid_to_string_length].
    split_and!; [done|done|]. apply string_app_inj in Heq as [_ Heq]; [|done].
    assert (forall d, String.length d = 64%nat -> String.length (str_take 2 d) = 2%nat) as Ht.
    { intros d Hd. do 2 (destruct d; [done|]). done. }
    apply string_app_inj in Heq as [_ Heq]; [|by rewrite !Ht].
    by apply string_app_inj in Heq as [_ Heq]. }
  apply uuid_to_string_inj in Hu; [|done|done]. split; [|done].
  destruct s1, s2; simpl in *; congruence.
Qed.

(** ** The invariant *)

Abbreviation MapKey := (Uuid * string * Z)%type.

(** How many mappings name a chunk. *)
Definition references (db : Db) (key : ChunkKey) : nat :=
  size (filter (fun kv : MapKey * ChunkKey => kv.2 = key) (snapshot_manifest_chunks db)).

Record refs_ok (db : Db) : Prop := {
  ro_count : forall key row, snapshot_chunks db !! key = Some row ->
             ck_ref_count row = Z.of_nat (references db key);
  ro_mapped : forall k key, snapshot_manifest_chunks db !! k = Some key ->
              is_Some (snapshot_chunks db !! key);
  ro_known : forall k key, snapshot_manifest_chunks db !! k = Some key ->
             is_Some (snapshot_manifests db !! k.1.1);
  ro_reserved : forall id key, (id, key) ∈ snapshot_chunk_reservations db ->
                is_Some (snapshot_chunks db !! key);
}.

(** The mappings the files of a manifest declare. *)
Definition declared (id : Uuid) (s : KeyScope) (m : ManifestRow) : gmap MapKey ChunkKey :=
  list_to_map (manifest_mappings id s (mf_manifest m)).

Definition manifest_ok (db : Db) (id : Uuid) (m : ManifestRow) : Prop :=
  exists s, row_scope m = Ok s /\ wide (scope_id s)
    /\ validate_snapshot_files (mf_total_bytes m) (mf_manifest m) = Ok tt
    /\ forall path i, snapshot_manifest_chunks db !! (id, path, i)
                      = if String.eqb (mf_status m) "ready"
                        then declared id s m !! (id, path, i) else None.

Definition wide_projects (db : Db) : Prop :=
  forall id p, projects db !! id = Some p ->
    wide (pr_owner_user_id p) /\ forall team, pr_team_id p = Some team -> wide team.

Record tables_ok (db : Db) : Prop := {
  to_refs : refs_ok db;
  to_manifests : forall id m, snapshot_manifests db !! id = Some m -> manifest_ok db id m;
  to_projects : wide_projects db;
}.

(** What a transaction leaves alone that has nothing to do with snapshots. *)
Record storage_frame (db db' : Db) : Prop := {
  sf_chunks_eq : snapshot_chunks db' = snapshot_chunks db;
  sf_mappings_eq : snapshot_manifest_chunks db' = snapshot_manifest_chunks db;
  sf_reservations_eq : snapshot_chunk_reservations db' = snapshot_chunk_reservations db;
  sf_manifests_eq : snapshot_manifests db' = snapshot_manifests db;
  sf_projects : wide_projects db -> wide_projects db';
}.

#[global] Instance storage_frame_preorder : PreOrder storage_frame.
Proof.
  split; [by split|]. intros d1 d2 d3 [A1 A2 A3 A4 A5] [B1 B2 B3 B4 B5]. split; [congruence..|auto].
Qed.

#[export] Hint Extern 3 (frames storage_frame (modify _)) =>
  apply frames_modify; intros ?; split; done : store.

Lemma references_frame db db' key :
  snapshot_manifest_chunks db' = snapshot_manifest_chunks db -> references db' key = references db key.
Proof. unfold references. by intros ->. Qed.

Lemma manifest_ok_frame db db' id m :
  snapshot_manifest_chunks db' = snapshot_manifest_chunks db -> manifest_ok db id m -> manifest_ok db' id m.
Proof. unfold manifest_ok. by intros ->. Qed.

Lemma tables_frame db db' : storage_frame db db' -> tables_ok db -> tables_ok db'.
Proof.
  intros [Hc Hm Hr Hf Hp] [[R1 R2 R3 R4] M P]. split; [split|..|auto].
  - intros key row. rewrite Hc, (references_frame _ _ _ Hm). apply R1.
  - intros k key. rewrite Hc, Hm. apply R2.
  - intros k key. rewrite Hm, Hf. apply R3.
  - intros id key. rewrite Hc, Hr. apply R4.
  - intros id m. rewrite Hf. intros Hid. eapply manifest_ok_frame; [done|]. by apply M.
Qed.

(** What leaves the snapshot tables and the objects of chunks alone. *)
Record aside (w w' : World) : Prop := {
  as_tables : storage_frame (w_db w) (w_db w');
  as_objects : forall s digest, w_objects w' !! chunk_object_key s digest
                                = w_objects w !! chunk_object_key s digest;
}.

#[global] Instance aside_preorder : PreOrder aside.
Proof.
  split; [by split|]. intros w1 w2 w3 [A1 A2] [B1 B2]. split; [by etrans|].
  intros s d. by rewrite B2, A2.
Qed.

Section safety.
Context {crypto : StorageCrypto} {laws : CryptoLaws} {lib : MergeLib} (master : string).

(** A stored chunk's object decrypts to bytes of its digest. *)
Definition chunk_ok (objects : gmap string string) (key : ChunkKey) (row : ChunkRow) : Prop :=
  exists s digest ciphertext wrap_nonce plaintext,
    key = chunk_key s digest /\ wide (scope_id s) /\ String.length digest = 64%nat
    /\ ck_object_key row = chunk_object_key s digest
    /\ objects !! ck_object_key row = Some ciphertext /\ ck_wrap_nonce row = Some wrap_nonce
    /\ decrypt master s ciphertext (ck_wrapped_data_key row) (ck_nonce row) wrap_nonce = Ok plaintext
    /\ hex_digest plaintext = digest.

Definition contents_ok (w : World) : Prop :=
  forall key row, snapshot_chunks (w_db w) !! key = Some row ->
    ck_status row = "ready" /\ chunk_ok (w_objects w) key row.

Record storage_ok (w : World) : Prop := {
  so_tables : tables_ok (w_db w);
  so_contents : contents_ok w;
}.

Lemma storage_frame_ok w db' :
  storage_ok w -> storage_frame (w_db w) db' ->
  storage_ok {| w_db := db'; w_objects := w_objects w |}.
Proof.
  intros [Ht Hc] Hf. split; [by eapply tables_frame|]. unfold contents_ok in *. simpl.
  destruct Hf as [-> _ _ _ _]. exact Hc.
Qed.

(** Other objects may change as well. *)
Lemma aside_ok w w' : storage_ok w -> aside w w' -> storage_ok w'.
Proof.
  intros [Ht Hc] [Hf Ho]. split; [by eapply tables_frame|]. intros key row.
  rewrite (sf_chunks_eq _ _ Hf). intros Hrow. destruct (Hc _ _ Hrow) as [Hst Hok]. split; [done|].
  destruct Hok as (s & d & c & wn & p & Hk & Hw & Hl & Hob & Hg & Hn & Hd & Hh).
  exists s, d, c, wn, p. split_and!; try done. by rewrite Hob, Ho, <- Hob.
Qed.

(** What decides whether a row's object can be read. *)
Definition same_object (row row' : ChunkRow) : Prop :=
  ck_object_key row' = ck_object_key row /\ ck_wrapped_data_key row' = ck_wrapped_data_key row
  /\ ck_nonce row' = ck_nonce row /\ ck_wrap_nonce row' = ck_wrap_nonce row.

Lemma chunk_ok_same objects key row row' :
  same_object row row' -> chunk_ok objects key row -> chunk_ok objects key row'.
Proof.
  intros (E1 & E2 & E3 & E4) (s & d & c & wn & p & Hk & Hw & Hl & Ho & Hg & Hn & Hd & Hh).
  exists s, d, c, wn, p. rewrite E1, E2, E3, E4. done.
Qed.

(** Object keys are those of their chunks, so another chunk's object can change. *)
Lemma chunk_ok_objects objects objects' key row s digest :
  chunk_ok objects key row -> wide (scope_id s) -> String.length digest = 64%nat ->
  key ≠ chunk_key s digest ->
  (forall k, k ≠ chunk_object_key s digest -> objects' !! k = objects !! k) ->
  chunk_ok objects' key row.
Proof.
  intros (s' & d & c & wn & p & Hk & Hw & Hl & Ho & Hg & Hn & Hd & Hh) Hws Hlen Hne Hsame.
  exists s', d, c, wn, p. split_and!; try done. rewrite Hsame; [done|].
  rewrite Ho. intros Heq. apply chunk_object_key_inj in Heq as [-> ->]; try done.
Qed.
End safety.

(** ** Counting references *)

Lemma size_filter_split {K A} `{Countable K} (P : K * A -> Prop) `{!forall kv, Decision (P kv)} (m : gmap K A) :
  size m = (size (filter P m) + size (filter (fun kv => ~ P kv) m))%nat.
Proof.
  rewrite <- map_size_disj_union by apply map_disjoint_filter_complement.
  by rewrite map_filter_union_complement.
Qed.

Lemma manifest_references_nonneg db id key : (0 ≤ manifest_references db id key)%Z.
Proof. unfold manifest_references. lia. Qed.

Lemma manifest_references_split db id key :
  references db key
  = (Z.to_nat (manifest_references db id key)
     + size (filter (fun kv : MapKey * ChunkKey => kv.1.1.1 ≠ id /\ kv.2 = key)
               (snapshot_manifest_chunks db)))%nat.
Proof.
  unfold references, manifest_references. rewrite Nat2Z.id.
  rewrite (size_filter_split (fun kv : MapKey * ChunkKey => kv.1.1.1 = id)), !map_filter_filter.
  f_equal; f_equal; apply map_filter_ext; intros k x _; tauto.
Qed.

(** ** What the statements do to the tables *)

(** A manifest declared under a new id. *)
Lemma tables_new_manifest db id m s :
  tables_ok db -> snapshot_manifests db !! id = None -> row_scope m = Ok s -> wide (scope_id s) ->
  validate_snapshot_files (mf_total_bytes m) (mf_manifest m) = Ok tt -> mf_status m ≠ "ready" ->
  tables_ok (set_snapshot_manifests (<[id := m]> (snapshot_manifests db)) db).
Proof.
  intros [[R1 R2 R3 R4] M P] Hnew Hs Hw Hv Hst. split; [split|..]; simpl; try done.
  - intros k key Hk. destruct (R3 _ _ Hk) as [m' Hm']. rewrite lookup_insert_is_Some.
    destruct (decide (id = k.1.1)); eauto.
  - intros id' m' [[<- <-]|[Hne Hid]]%lookup_insert_Some; [|by apply M].
    exists s. split_and!; try done. intros path i. simpl.
    rewrite (proj2 (String.eqb_neq _ _) Hst).
    destruct (snapshot_manifest_chunks db !! (id, path, i)) as [key|] eqn:Hk; [|done].
    destruct (R3 _ _ Hk) as [m' Hm']. simpl in Hm'. congruence.
Qed.

Lemma tables_reservations db R :
  tables_ok db -> (forall id key, (id, key) ∈ R -> is_Some (snapshot_chunks db !! key)) ->
  tables_ok (set_snapshot_chunk_reservations R db).
Proof. intros [[R1 R2 R3 R4] M P] HR. by split; [split|..]. Qed.

Lemma tables_delete_reservations db id : tables_ok db -> tables_ok (delete_reservations id db).
Proof.
  intros Ht. apply tables_reservations; [done|]. intros id' key Hin.
  apply elem_of_filter in Hin as [_ Hin]. by eapply (ro_reserved _ (to_refs _ Ht)).
Qed.

(** The columns [manifest_ok] speaks about. *)
Definition same_manifest (m m' : ManifestRow) : Prop :=
  mf_key_scope_type m' = mf_key_scope_type m /\ mf_key_scope_id m' = mf_key_scope_id m
  /\ mf_total_bytes m' = mf_total_bytes m /\ mf_manifest m' = mf_manifest m.

Lemma row_scope_same m m' : same_manifest m m' -> row_scope m' = row_scope m.
Proof. unfold row_scope. by intros (-> & -> & _). Qed.

(** A manifest row changes, and perhaps its mappings. *)
Lemma tables_alter_manifest db db' f id :
  refs_ok db' -> (forall k key, snapshot_manifests db !! k = Some key -> manifest_ok db k key) ->
  wide_projects db' ->
  snapshot_manifests db' = alter f id (snapshot_manifests db) ->
  (forall m, snapshot_manifests db !! id = Some m -> manifest_ok db id m -> manifest_ok db' id (f m)) ->
  (forall k path i, k ≠ id -> snapshot_manifest_chunks db' !! (k, path, i)
                              = snapshot_manifest_chunks db !! (k, path, i)) ->
  tables_ok db'.
Proof.
  intros Hr M Hp Hf Hid Hother. split; [done| |done]. intros k m'. rewrite Hf.
  destruct (decide (k = id)) as [->|Hne].
  - rewrite lookup_alter_eq. intros (m & Hm & ->)%fmap_Some_1. by apply Hid, M.
  - rewrite lookup_alter_ne by done. intros Hm. destruct (M _ _ Hm) as (s & Hs & Hw & Hv & Hmap).
    exists s. split_and!; try done. intros path i. by rewrite Hother.
Qed.

Lemma refs_alter_manifest f id db : refs_ok db -> refs_ok (alter_manifest f id db).
Proof.
  intros [R1 R2 R3 R4]. split; [exact R1|exact R2| |exact R4]. intros k key Hk.
  apply lookup_alter_is_Some. by eapply R3.
Qed.

(** Its status stays ready or stays something else. *)
Lemma tables_same_status f id db :
  tables_ok db ->
  (forall m, snapshot_manifests db !! id = Some m ->
     same_manifest m (f m)
     /\ String.eqb (mf_status (f m)) "ready" = String.eqb (mf_status m) "ready") ->
  tables_ok (alter_manifest f id db).
Proof.
  intros [R M P] Hf. eapply (tables_alter_manifest db); try done; [by apply refs_alter_manifest|].
  intros m Hm (s & Hs & Hw & Hv & Hmap). destruct (Hf _ Hm) as [Hsame Hst].
  exists s. rewrite (row_scope_same _ _ Hsame), Hst. destruct Hsame as (_ & _ & Ht & Hm').
  rewrite Ht, Hm'. split_and!; try done. unfold declared. by rewrite Hm'.
Qed.

Lemma tables_new_chunk db key row :
  tables_ok db -> snapshot_chunks db !! key = None -> ck_ref_count row = 0%Z ->
  tables_ok (set_snapshot_chunks (<[key := row]> (snapshot_chunks db)) db).
Proof.
  intros [[R1 R2 R3 R4] M P] Hnew Hrow.
  assert (forall k, is_Some (snapshot_chunks db !! k) -> is_Some (<[key := row]> (snapshot_chunks db) !! k))
    as Hkeep.
  { intros k Hk. rewrite lookup_insert_is_Some. destruct (decide (key = k)); auto. }
  split; [split|done|done]; simpl; [|by eauto..].
  intros k r [[<- <-]|[Hne Hk]]%lookup_insert_Some; [|by apply R1].
  rewrite Hrow. unfold references. simpl. rewrite (proj2 (map_empty_filter _ _)); [done|].
  intros k x Hk Hx. simpl in Hx. subst x. destruct (R2 _ _ Hk). congruence.
Qed.

(** Rows that change but keep their reference counts. *)
Lemma tables_chunks db chunks :
  tables_ok db ->
  (forall key row, chunks !! key = Some row ->
     exists row0, snapshot_chunks db !! key = Some row0 /\ ck_ref_count row = ck_ref_count row0) ->
  (forall key, is_Some (snapshot_chunks db !! key) -> is_Some (chunks !! key)) ->
  tables_ok (set_snapshot_chunks chunks db).
Proof.
  intros [[R1 R2 R3 R4] M P] Hrow Hkeep. split; [split|done|done]; simpl; [|by eauto..].
  intros key row (row0 & Hrow0 & ->)%Hrow. by apply R1.
Qed.

Lemma update_references_lookup f id now db key :
  snapshot_chunks (update_references f id now db) !! key
  = (fun row => if (manifest_references db id key =? 0)%Z then row
                else with_references (f (ck_ref_count row) (manifest_references db id key)) now row)
      <$> snapshot_chunks db !! key.
Proof.
  unfold update_references. simpl. rewrite map_lookup_imap.
  by destruct (snapshot_chunks db !! key).
Qed.

(** New mappings of a manifest that had none, counted. *)
Lemma refs_add_mappings db id now (L : list (MapKey * ChunkKey)) :
  refs_ok db -> is_Some (snapshot_manifests db !! id) ->
  (forall k key, snapshot_manifest_chunks db !! k = Some key -> k.1.1 ≠ id) ->
  (forall mapping, mapping ∈ L -> mapping.1.1.1 = id /\ is_Some (snapshot_chunks db !! mapping.2)) ->
  refs_ok (update_references Z.add id now
             (set_snapshot_manifest_chunks (snapshot_manifest_chunks db ∪ list_to_map L) db)).
Proof.
  intros [R1 R2 R3 R4] Hid Hnone HL. set (old := snapshot_manifest_chunks db).
  set (new := (list_to_map L : gmap MapKey ChunkKey)).
  set (db1 := set_snapshot_manifest_chunks (old ∪ new) db).
  assert (forall k key, new !! k = Some key -> k.1.1 = id /\ is_Some (snapshot_chunks db !! key)) as Hnew.
  { intros k key Hk%elem_of_list_to_map_2. by apply (HL (k, key)). }
  assert (old ##ₘ new) as Hdisj.
  { apply map_disjoint_spec. intros k x y Hx Hy. destruct (Hnew _ _ Hy). by destruct (Hnone _ _ Hx). }
  assert (forall k key, (old ∪ new) !! k = Some key -> old !! k = Some key \/ new !! k = Some key) as Hun.
  { intros k key Hk. apply lookup_union_Some in Hk; [|done]. tauto. }
  assert (forall key, is_Some (snapshot_chunks db !! key) ->
            is_Some (snapshot_chunks (update_references Z.add id now db1) !! key)) as Hkeep.
  { intros key [row Hr]. rewrite update_references_lookup. simpl. rewrite Hr. by eexists. }
  split.
  - intros key row. rewrite update_references_lookup. intros (row0 & Hrow0 & ->)%fmap_Some_1.
    rewrite (references_frame db1) by done. rewrite (manifest_references_split db1 id).
    assert (size (filter (fun kv : MapKey * ChunkKey => kv.1.1.1 ≠ id /\ kv.2 = key)
                    (snapshot_manifest_chunks db1)) = references db key) as ->.
    { simpl. rewrite map_filter_union by done.
      rewrite (proj2 (map_empty_filter _ new)), (right_id_L ∅ (∪)).
      - unfold references. f_equal. apply map_filter_ext. intros k x Hk. simpl. split; [tauto|]. intros Hx.
        split; [by eapply Hnone|done].
      - intros k x Hk [Hne _]. by destruct (Hnew _ _ Hk). }
    pose proof (R1 _ _ Hrow0) as Hcount. pose proof (manifest_references_nonneg db1 id key) as Hn.
    case_match; cbn [ck_ref_count with_references]; lia.
  - intros k key Hk. apply Hkeep. destruct (Hun _ _ Hk) as [Ho|Hn]; [by eapply R2|apply (Hnew _ _ Hn)].
  - intros k key Hk. destruct (Hun _ _ Hk) as [Ho|Hn]; [by eapply R3|].
    simpl. destruct (Hnew _ _ Hn) as [-> _]. done.
  - intros i key Hin. apply Hkeep. by eapply R4.
Qed.

(** The mappings of a manifest released, and no longer counted. *)
Lemma refs_release db id now :
  refs_ok db ->
  refs_ok (set_snapshot_manifest_chunks
             (filter (fun kv : MapKey * ChunkKey => kv.1.1.1 ≠ id) (snapshot_manifest_chunks db))
             (update_references (fun refs count => Z.max (refs - count) 0) id now db)).
Proof.
  intros [R1 R2 R3 R4].
  assert (forall key, is_Some (snapshot_chunks db !! key) ->
            is_Some (snapshot_chunks (update_references (fun refs count => Z.max (refs - count) 0)
                                        id now db) !! key)) as Hkeep.
  { intros key [row Hr]. rewrite update_references_lookup, Hr. by eexists. }
  split.
  - intros key row Hrow. simpl in Hrow. change (map_imap _ _ !! key) with
      (snapshot_chunks (update_references (fun refs count => Z.max (refs - count) 0) id now db) !! key) in Hrow.
    rewrite update_references_lookup in Hrow. apply fmap_Some_1 in Hrow as (row0 & Hrow0 & ->).
    pose proof (R1 _ _ Hrow0) as Hcount. rewrite (manifest_references_split db id) in Hcount.
    unfold references. simpl. rewrite map_filter_filter.
    rewrite (proj1 (map_filter_ext _ (fun kv : MapKey * ChunkKey => kv.1.1.1 ≠ id /\ kv.2 = key) _))
      by (intros k x _; simpl; tauto).
    pose proof (manifest_references_nonneg db id key) as Hn.
    case_match; cbn [ck_ref_count with_references]; lia.
  - intros k key Hk. apply Hkeep. apply map_lookup_filter_Some in Hk as [Hk _]. by eapply R2.
  - intros k key Hk. apply map_lookup_filter_Some in Hk as [Hk _]. by eapply R3.
  - intros i key Hin. apply Hkeep. by eapply R4.
Qed.

Lemma manifest_mapping_id id s files mapping :
  mapping ∈ manifest_mappings id s files -> mapping.1.1.1 = id.
Proof.
  unfold manifest_mappings. intros (f & Hin & _)%list_elem_of_bind.
  apply list_elem_of_lookup in Hin as [n Hn]. unfold file_mappings in Hn.
  rewrite list_lookup_imap in Hn. apply fmap_Some_1 in Hn as (c & _ & ->). done.
Qed.

(** The tables after [add_mappings]. *)
Definition mapped (id : Uuid) (now : DateTime) (L : list (MapKey * ChunkKey)) (db : Db) : Db :=
  match L with
  | [] => db
  | _ => update_references Z.add id now
           (set_snapshot_manifest_chunks (snapshot_manifest_chunks db ∪ list_to_map L) db)
  end.

Lemma mapped_mappings id now L db :
  snapshot_manifest_chunks (mapped id now L db) = snapshot_manifest_chunks db ∪ list_to_map L.
Proof. destruct L as [|x L]; [|done]. simpl. by rewrite (right_id_L ∅ (∪)). Qed.

Lemma mapped_manifests id now L db : snapshot_manifests (mapped id now L db) = snapshot_manifests db.
Proof. by destruct L. Qed.

Lemma refs_mapped id now L db :
  refs_ok db -> is_Some (snapshot_manifests db !! id) ->
  (forall k key, snapshot_manifest_chunks db !! k = Some key -> k.1.1 ≠ id) ->
  (forall mapping, mapping ∈ L -> mapping.1.1.1 = id /\ is_Some (snapshot_chunks db !! mapping.2)) ->
  refs_ok (mapped id now L db).
Proof. intros Hr Hid Hnone HL. destruct L as [|x L]; [done|]. by apply refs_add_mappings. Qed.

Lemma no_mappings db id m :
  tables_ok db -> snapshot_manifests db !! id = Some m -> mf_status m ≠ "ready" ->
  forall k key, snapshot_manifest_chunks db !! k = Some key -> k.1.1 ≠ id.
Proof.
  intros [_ M _] Hm Hst [[id' path] i] key Hk. simpl. intros ->.
  destruct (M _ _ Hm) as (s & _ & _ & _ & Hmap). rewrite Hmap in Hk.
  by rewrite (proj2 (String.eqb_neq _ _) Hst) in Hk.
Qed.

(** A manifest whose mappings are added becomes ready. *)
Lemma tables_commit db id m s now c :
  tables_ok db -> snapshot_manifests db !! id = Some m -> mf_status m ≠ "ready" ->
  row_scope m = Ok s ->
  (forall mapping, mapping ∈ manifest_mappings id s (mf_manifest m) ->
     is_Some (snapshot_chunks db !! mapping.2)) ->
  tables_ok (alter_manifest (with_status "ready" c) id
               (mapped id now (manifest_mappings id s (mf_manifest m)) db)).
Proof.
  intros Ht Hm Hst Hs HL. pose proof (no_mappings _ _ _ Ht Hm Hst) as Hnone. destruct Ht as [R M P].
  set (L := manifest_mappings id s (mf_manifest m)) in *.
  assert (refs_ok (mapped id now L db)) as Hr.
  { apply refs_mapped; [done|by eexists|done|]. intros mapping Hin. split; [|by apply HL].
    by eapply manifest_mapping_id. }
  eapply (tables_alter_manifest db).
  - by apply refs_alter_manifest.
  - exact M.
  - by destruct L.
  - by destruct L.
  - intros m' Hm' (s' & Hs' & Hw & Hv & _). rewrite Hm in Hm'. injection Hm' as <-.
    rewrite Hs in Hs'. injection Hs' as <-. exists s. split_and!; try done. intros path i. simpl.
    rewrite mapped_mappings, lookup_union_r; [done|].
    destruct (snapshot_manifest_chunks db !! _) eqn:Hk; [|done]. by destruct (Hnone _ _ Hk).
  - intros k path i Hne. simpl. rewrite mapped_mappings, lookup_union_l; [done|].
    apply not_elem_of_list_to_map_1. intros (mapping & Heq & Hin)%list_elem_of_fmap.
    apply manifest_mapping_id in Hin. rewrite <- Heq in Hin. by simpl in Hin.
Qed.

(** The tables after [release_manifest_references]. *)
Definition released (id : Uuid) (now : DateTime) (db : Db) : Db :=
  set_snapshot_manifest_chunks
    (filter (fun kv : MapKey * ChunkKey => kv.1.1.1 ≠ id) (snapshot_manifest_chunks db))
    (update_references (fun refs count => Z.max (refs - count) 0) id now db).

(** A manifest without references expires. *)
Lemma tables_expire db id now :
  tables_ok db ->
  tables_ok (alter_manifest (keep_committed "expired") id (released id now db)).
Proof.
  intros [R M P]. eapply (tables_alter_manifest db); try done.
  - by apply refs_alter_manifest, refs_release.
  - intros m Hm (s & Hs & Hw & Hv & Hmap). exists s. split_and!; try done. intros path i. simpl.
    apply map_lookup_filter_None. right. intros key _ Hne. by apply Hne.
  - intros k path i Hne. simpl. destruct (snapshot_manifest_chunks db !! (k, path, i)) eqn:Hk.
    + by apply map_lookup_filter_Some.
    + apply map_lookup_filter_None. by left.
Qed.

Lemma tables_expire_idle db id m :
  tables_ok db -> snapshot_manifests db !! id = Some m -> mf_status m ≠ "ready" ->
  tables_ok (alter_manifest (keep_committed "expired") id db).
Proof.
  intros Ht Hm Hst. apply tables_same_status; [done|]. intros m' Hm'. rewrite Hm in Hm'.
  injection Hm' as <-. split; [done|]. simpl. symmetry. by apply String.eqb_neq.
Qed.
