(* ===== verification/SnapshotReading.v ===== *)
(** * What a ready snapshot reads back

    Validated files have distinct, relative paths; the mappings a manifest declares are found
    again by path and index; each mapped chunk is selected and decrypts. *)

From stdpp Require Import gmap sorting.
From S2P Require Import Prelude.
From S2P Require Import Text.
From S2P Require Import Json.
From S2P Require Import Contracts.
From S2P Require Import Store.
From S2P Require Import ObjectStore.
From S2P Require Import Snapshots.
From S2P Require Import StorageSafety.

Import Snapshots.

(** ** Validated files *)

Definition safe_component (component : string) : Prop :=
  component ≠ "" /\ component ≠ "." /\ component ≠ "..".

(** A path that stays below the directory it is joined to. *)
Definition safe_path (path : string) : Prop :=
  path ≠ "" /\ (str_len path ≤ 4096)%Z /\ String.prefix "/" path = false
  /\ str_has (Ascii.eqb "\") path = false /\ str_has (Ascii.eqb Ascii.zero) path = false
  /\ Forall safe_component (path_components path).

Lemma existsb_false_Forall {A} (p : A -> bool) l : existsb p l = false -> Forall (fun x => p x = false) l.
Proof.
  induction l as [|x l IH]; simpl; [constructor|]. intros [Hx Hl]%orb_false_iff. constructor; auto.
Qed.

Lemma str_is_empty_false s : str_is_empty s = false -> s ≠ "".
Proof. by destruct s. Qed.

Lemma validate_relative_path_Ok path : validate_relative_path path = Ok tt -> safe_path path.
Proof.
  unfold validate_relative_path. intros H%guard_err_Ok. rewrite !orb_false_iff in H.
  destruct H as [[[[[He Hl] Hp] Hb] Hz] Hc]. split_and!; try done; [by apply str_is_empty_false|lia|].
  apply existsb_false_Forall in Hc. eapply Forall_impl; [exact Hc|]. intros c Hf.
  simpl in Hf. rewrite !orb_false_iff in Hf. destruct Hf as [[He1 Hd] Hdd].
  split_and!; [by apply str_is_empty_false|by apply String.eqb_neq|by apply String.eqb_neq].
Qed.

Definition sum_chunks (chunks : list SnapshotUploadChunk) : Z :=
  foldr Z.add 0%Z (uc_plaintext_size <$> chunks).

(** A declared chunk: a digest, and a size within the limit. *)
Definition chunk_declared (c : SnapshotUploadChunk) : Prop :=
  validate_digest (uc_digest c) = Ok tt /\ uc_plaintext_size c ≠ 0%Z
  /\ (uc_plaintext_size c ≤ MAX_CHUNK_BYTES)%Z.

Lemma chunk_total_Ok sum chunks t :
  chunk_total sum chunks = Ok t -> Forall chunk_declared chunks /\ t = (sum + sum_chunks chunks)%Z.
Proof.
  revert sum. induction chunks as [|c chunks IH]; intros sum; cbn [chunk_total].
  { intros [= <-]. unfold sum_chunks. simpl. split; [constructor|lia]. }
  intros H. bind_steps H. destruct a. apply orb_false_iff in E0 as [Hz Hm].
  unfold checked_add in E1. destruct (in_u64 _); [|done]. injection E1 as <-.
  destruct (IH _ H) as [Hc ->].
  change (sum_chunks (c :: chunks)) with (uc_plaintext_size c + sum_chunks chunks)%Z.
  split; [constructor; [|done]|lia]. split_and!; [done|lia|lia].
Qed.

Definition file_declared (f : SnapshotUploadFile) : Prop :=
  safe_path (uf_path f) /\ Forall chunk_declared (uf_chunks f) /\ uf_size f = sum_chunks (uf_chunks f).

Definition sum_sizes (files : list SnapshotUploadFile) : Z := foldr Z.add 0%Z (uf_size <$> files).

Lemma validate_files_Ok paths total files t :
  validate_files paths total files = Ok t ->
  Forall file_declared files /\ NoDup (uf_path <$> files)
  /\ Forall (fun path => path ∉ paths) (uf_path <$> files) /\ t = (total + sum_sizes files)%Z.
Proof.
  revert paths total. induction files as [|f files IH]; intros paths total; simpl.
  { intros [= <-]. unfold sum_sizes. simpl. split_and!; [constructor..|lia]. }
  intros H. bind_steps H. destruct a. apply validate_relative_path_Ok in E.
  assert (uf_path f ∉ paths) as Hnew by (rewrite <- str_mem_spec; congruence).
  unfold checked_add in E3. destruct (in_u64 _); [|done]. injection E3 as <-.
  destruct (IH _ _ H) as (Hs & Hn & Ho & ->).
  change (sum_sizes (f :: files)) with (uf_size f + sum_sizes files)%Z. apply chunk_total_Ok in E1 as [Hc ->].
  split_and!; [constructor; [|done]; split_and!; [done|done|lia]| | |lia].
  - constructor; [|done]. intros Hin. rewrite Forall_forall in Ho. apply (Ho _ Hin). left.
  - constructor; [done|]. eapply Forall_impl; [exact Ho|]. intros p Hp Hin. apply Hp. by right.
Qed.

Record files_ok (total : Z) (files : list SnapshotUploadFile) : Prop := {
  fo_files : Forall file_declared files;
  fo_distinct : NoDup (uf_path <$> files);
  fo_total : total = sum_sizes files;
  fo_bound : (total ≤ MAX_SNAPSHOT_BYTES)%Z;
}.

Lemma validate_snapshot_files_Ok total files :
  validate_snapshot_files total files = Ok tt -> files_ok total files.
Proof.
  unfold validate_snapshot_files. intros H. bind_steps H. apply guard_err_Ok in H.
  apply validate_files_Ok in E0 as (Hs & Hn & _ & ->). split; [done|done|lia|lia].
Qed.

(** ** Mappings *)

Lemma elem_of_file_mappings id s f k key :
  (k, key) ∈ file_mappings id s f <->
  exists i c, uf_chunks f !! i = Some c /\ k = (id, uf_path f, Z.of_nat i) /\ key = chunk_key s (uc_digest c).
Proof.
  unfold file_mappings. rewrite elem_of_lookup_imap. split.
  - intros (i & c & [= -> ->] & Hc). eauto.
  - intros (i & c & Hc & -> & ->). eauto.
Qed.

Lemma unique_path (files : list SnapshotUploadFile) f g :
  NoDup (uf_path <$> files) -> f ∈ files -> g ∈ files -> uf_path f = uf_path g -> f = g.
Proof.
  intros Hn [i Hf]%list_elem_of_lookup [j Hg]%list_elem_of_lookup Heq.
  assert (i = j) as ->; [|congruence].
  eapply NoDup_lookup; [exact Hn| |]; rewrite list_lookup_fmap.
  - by rewrite Hf.
  - rewrite Hg. simpl. congruence.
Qed.

(** The mapping of a declared chunk. *)
Lemma declared_lookup id s m path i key :
  NoDup (uf_path <$> mf_manifest m) ->
  declared id s m !! (id, path, i) = Some key <->
  exists f j c, f ∈ mf_manifest m /\ uf_chunks f !! j = Some c /\ path = uf_path f /\ i = Z.of_nat j
    /\ key = chunk_key s (uc_digest c).
Proof.
  intros Hn. unfold declared.
  assert (forall k x, (k, x) ∈ manifest_mappings id s (mf_manifest m) <->
    exists f, f ∈ mf_manifest m /\ (k, x) ∈ file_mappings id s f) as Hin.
  { intros k x. unfold manifest_mappings. rewrite list_elem_of_bind. naive_solver. }
  rewrite <- elem_of_list_to_map'.
  - rewrite Hin. setoid_rewrite elem_of_file_mappings. naive_solver.
  - intros x'. rewrite !Hin. setoid_rewrite elem_of_file_mappings.
    intros (f & Hf & j & c & Hc & [= -> ->] & ->) (g & Hg & j' & c' & Hc' & [= Hp Hj] & ->).
    assert (f = g) as <- by (by eapply unique_path).
    assert (j = j') as <- by lia. congruence.
Qed.

Lemma NoDup_omap {A B} (f : A -> option B) l :
  NoDup l -> (forall x y b, f x = Some b -> f y = Some b -> x = y) -> NoDup (omap f l).
Proof.
  intros Hn Hf. induction Hn as [|x l Hx Hn IH]; simpl; [constructor|].
  destruct (f x) as [b|] eqn:Hb; [|done]. constructor; [|done].
  intros (y & Hy & Hyb)%list_elem_of_omap. by rewrite <- (Hf _ _ _ Hyb Hb) in Hx.
Qed.

Lemma index_before_total : Total index_before.
Proof. intros a b. unfold index_before. lia. Qed.

Lemma index_before_trans : Transitive index_before.
Proof. intros a b c. unfold index_before. lia. Qed.

Definition declared_mappings (s : KeyScope) (f : SnapshotUploadFile) : list (Z * ChunkKey) :=
  imap (fun i c => (Z.of_nat i, chunk_key s (uc_digest c))) (uf_chunks f).

Lemma imap_sorted (g : SnapshotUploadChunk -> ChunkKey) k l :
  StronglySorted index_before (imap (fun i c => (Z.of_nat (k + i), g c)) l).
Proof.
  revert k. induction l as [|c l IH]; intros k; simpl; [constructor|]. constructor.
  - eapply (eq_rect _ (StronglySorted index_before)); [apply (IH (S k))|].
    apply imap_ext. intros i x _. simpl. do 2 f_equal. lia.
  - apply Forall_forall. intros x (i & y & -> & _)%elem_of_lookup_imap. unfold index_before. simpl. lia.
Qed.

(** A path's mappings are those its file declares, in order. *)
Lemma path_mappings_declared db id s m f :
  NoDup (uf_path <$> mf_manifest m) -> f ∈ mf_manifest m ->
  (forall path i, snapshot_manifest_chunks db !! (id, path, i) = declared id s m !! (id, path, i)) ->
  path_mappings db id (uf_path f) = declared_mappings s f.
Proof.
  intros Hn Hf Hmap. unfold path_mappings.
  set (found := omap _ (map_to_list (snapshot_manifest_chunks db))).
  assert (forall i key, (i, key) ∈ found <->
            snapshot_manifest_chunks db !! (id, uf_path f, i) = Some key) as Hfound.
  { intros i key. unfold found. rewrite list_elem_of_omap. split.
    - intros ([[p' i'] key'] & Hin%elem_of_map_to_list & Heq). simpl in Heq.
      case_bool_decide as Hp; [|done]. injection Heq as -> ->. simpl in Hp. by subst.
    - intros Hk. exists ((id, uf_path f, i), key). split; [by apply elem_of_map_to_list|].
      simpl. by rewrite bool_decide_true. }
  assert (forall i key, (i, key) ∈ declared_mappings s f <->
            snapshot_manifest_chunks db !! (id, uf_path f, i) = Some key) as Hdecl.
  { intros i key. rewrite Hmap, declared_lookup by done. unfold declared_mappings.
    rewrite elem_of_lookup_imap. split.
    - intros (j & c & [= -> ->] & Hc). by exists f, j, c.
    - intros (g & j & c & Hg & Hc & Hp & -> & ->). assert (f = g) as <- by (by eapply unique_path). eauto. }
  apply (StronglySorted_unique_strong index_before).
  - intros [i k] [j k'] H1 H2 L1 L2. rewrite merge_sort_Permutation in H1.
    apply Hfound in H1. apply Hdecl in H2. unfold index_before in *. simpl in *.
    assert (i = j) as -> by lia. congruence.
  - apply StronglySorted_merge_sort; [apply index_before_trans|apply index_before_total].
  - exact (imap_sorted (fun c => chunk_key s (uc_digest c)) 0 (uf_chunks f)).
  - rewrite merge_sort_Permutation. apply NoDup_Permutation.
    + apply NoDup_omap; [apply NoDup_map_to_list|]. intros [[p1 i1] k1] [[p2 i2] k2] b. simpl.
      repeat case_bool_decide; naive_solver.
    + apply NoDup_alt. intros i j x. unfold declared_mappings. rewrite !list_lookup_imap.
      intros (c & _ & ->)%fmap_Some_1 (c' & _ & [= Hij _])%fmap_Some_1. lia.
    + intros [i key]. by rewrite Hfound, Hdecl.
Qed.

(** ** Reading back *)

(** A listed file is the declared one, with the same chunks in the same order. *)
Definition reads_back (f : SnapshotUploadFile) (g : SnapshotFile) : Prop :=
  sf_path g = uf_path f /\ sf_size g = uf_size f /\ sf_mode g = uf_mode f
  /\ sf_modified_at g = uf_modified_at f
  /\ sk_digest <$> sf_chunks g = uc_digest <$> uf_chunks f.

Lemma listed_digests db (g : SnapshotUploadChunk -> ChunkKey) k chunks :
  (forall c, c ∈ chunks -> is_Some (snapshot_chunks db !! g c) /\ (g c).2 = uc_digest c) ->
  sk_digest <$> omap (fun mapping : Z * ChunkKey =>
                        chunk_to_snapshot mapping.2.2 <$> snapshot_chunks db !! mapping.2)
                     (imap (fun i c => (Z.of_nat (k + i), g c)) chunks)
  = uc_digest <$> chunks.
Proof.
  revert k. induction chunks as [|c chunks IH]; intros k Hc; [done|].
  destruct (Hc c) as [[row Hr] Hd]; [by left|]. simpl. rewrite Hr. simpl. rewrite Hd. f_equal.
  erewrite imap_ext; [apply (IH (S k))|].
  - intros c' Hin. apply Hc. by right.
  - intros i x _. simpl. do 2 f_equal. lia.
Qed.

Section reading.
Context {crypto : StorageCrypto} (master : string).

(** The scope of a ready manifest, its files and its mappings. *)
Lemma ready_manifest db id m :
  tables_ok db -> snapshot_manifests db !! id = Some m -> mf_status m = "ready" ->
  exists s, row_scope m = Ok s /\ files_ok (mf_total_bytes m) (mf_manifest m)
    /\ forall path i, snapshot_manifest_chunks db !! (id, path, i) = declared id s m !! (id, path, i).
Proof.
  intros [_ M _] Hm Hst. destruct (M _ _ Hm) as (s & Hs & _ & Hv & Hmap). rewrite Hst in Hmap.
  exists s. split_and!; [done|by apply validate_snapshot_files_Ok|done].
Qed.

Lemma declared_mapping db id m s f c :
  NoDup (uf_path <$> mf_manifest m) ->
  (forall path i, snapshot_manifest_chunks db !! (id, path, i) = declared id s m !! (id, path, i)) ->
  f ∈ mf_manifest m -> c ∈ uf_chunks f ->
  exists i, snapshot_manifest_chunks db !! (id, uf_path f, i) = Some (chunk_key s (uc_digest c)).
Proof.
  intros Hn Hmap Hf [j Hc]%list_elem_of_lookup. exists (Z.of_nat j). rewrite Hmap.
  apply declared_lookup; [done|]. by exists f, j, c.
Qed.

Lemma snapshot_files_read db id m s taken files :
  refs_ok db -> NoDup (uf_path <$> mf_manifest m) ->
  (forall path i, snapshot_manifest_chunks db !! (id, path, i) = declared id s m !! (id, path, i)) ->
  NoDup (uf_path <$> files) -> Forall (fun f => f ∈ mf_manifest m /\ uf_path f ∉ taken) files ->
  Forall2 reads_back files (snapshot_files db id taken files).
Proof.
  intros Hr Hn Hmap. revert taken. induction files as [|f files IH]; intros taken Hnd Hall; simpl; [constructor|].
  apply NoDup_cons in Hnd as [Hnf Hnd]. apply Forall_cons in Hall as [[Hf Ht] Hall]. constructor.
  - rewrite <- str_mem_spec in Ht. apply not_true_is_false in Ht. rewrite Ht. split_and!; try done.
    simpl. unfold path_chunks. rewrite (path_mappings_declared db id s m f) by done.
    apply (listed_digests db (fun c => chunk_key s (uc_digest c)) 0). intros c Hc. split; [|done].
    destruct (declared_mapping db id m s f c) as [i Hi]; [done..|]. by eapply (ro_mapped _ Hr).
  - apply IH; [done|]. rewrite Forall_forall in Hall |- *. intros g Hg. destruct (Hall _ Hg) as [Hin Hnot].
    split; [done|]. intros [Heq|]%elem_of_cons; [|done]. apply Hnf. rewrite <- Heq.
    by apply list_elem_of_fmap_2.
Qed.

(** The row a manifest's digest selects is that of its scope. *)
Lemma mapped_chunk_found w id m s f c :
  storage_ok master w -> row_scope m = Ok s -> NoDup (uf_path <$> mf_manifest m) ->
  (forall path i, snapshot_manifest_chunks (w_db w) !! (id, path, i) = declared id s m !! (id, path, i)) ->
  f ∈ mf_manifest m -> c ∈ uf_chunks f ->
  exists row, mapped_chunk (w_db w) id (uc_digest c) = Some row
    /\ snapshot_chunks (w_db w) !! chunk_key s (uc_digest c) = Some row.
Proof.
  intros [Ht Hc] Hs Hn Hmap Hf Hin.
  assert (forall key, manifest_references (w_db w) id key ≠ 0%Z -> exists c', key = chunk_key s (uc_digest c')) as Hscope.
  { intros key Hne. unfold manifest_references in Hne.
    destruct (decide (filter (fun kv : MapKey * ChunkKey => kv.1.1.1 = id /\ kv.2 = key)
                        (snapshot_manifest_chunks (w_db w)) = ∅)) as [He|He].
    { rewrite He in Hne. by rewrite map_size_empty in Hne. }
    apply map_choose in He as (k & x & [Hk [Hid Hx]]%map_lookup_filter_Some). destruct k as [[id' path] i].
    simpl in *. subst. rewrite Hmap in Hk. apply declared_lookup in Hk as (g & j & c' & _ & _ & _ & _ & ->); eauto. }
  destruct (declared_mapping (w_db w) id m s f c) as [i Hi]; [done..|].
  destruct (ro_mapped _ (to_refs _ Ht) _ _ Hi) as [row Hrow]. destruct (Hc _ _ Hrow) as [Hst _].
  unfold mapped_chunk. destruct (select_one _ _) as [[key row']|] eqn:Hsel.
  - apply select_one_Some in Hsel as [Hk Hp]. rewrite !andb_true_iff, negb_true_iff in Hp.
    destruct Hp as [[Hd%String.eqb_eq _] Hne%Z.eqb_neq]. destruct (Hscope _ Hne) as [c' ->].
    exists row'. split; [done|]. simpl in Hd. by rewrite <- Hd.
  - exfalso. pose proof (select_one_None _ _ _ _ Hsel Hrow) as Hf'. simpl in Hf'.
    rewrite Hst, !String.eqb_refl in Hf'. simpl in Hf'. apply negb_false_iff, Z.eqb_eq in Hf'.
    unfold manifest_references in Hf'.
    assert (filter (fun kv : MapKey * ChunkKey => kv.1.1.1 = id /\ kv.2 = chunk_key s (uc_digest c))
              (snapshot_manifest_chunks (w_db w)) = ∅) as He by (apply map_size_empty_inv; lia).
    eapply map_filter_empty_not_lookup in He; [by apply (He Hi)|done].
Qed.

Lemma chunk_ok_scope objects s digest row :
  chunk_ok master objects (chunk_key s digest) row ->
  exists ciphertext wrap_nonce plaintext,
    objects !! ck_object_key row = Some ciphertext /\ ck_wrap_nonce row = Some wrap_nonce
    /\ decrypt master s ciphertext (ck_wrapped_data_key row) (ck_nonce row) wrap_nonce = Ok plaintext
    /\ hex_digest plaintext = digest.
Proof.
  intros (s' & d & c & wn & p & Hk & _ & _ & _ & Hg & Hn & Hd & Hh). exists c, wn, p.
  injection Hk as Hkind Hid <-. assert (s = s') as -> by (destruct s, s'; simpl in *; congruence). done.
Qed.

Lemma decrypt_found henv n w m id digest s row :
  row_scope m = Ok s -> mapped_chunk (w_db w) id digest = Some row ->
  chunk_ok master (w_objects w) (chunk_key s digest) row -> h_request henv n = Answered ->
  exists bytes, decrypt_manifest_chunk master m id digest henv (n, w) = ((S n, w), Ok bytes)
    /\ hex_digest bytes = digest.
Proof.
  intros Hs Hrow (c & wn & p & Hg & Hn & Hd & Hh)%chunk_ok_scope Hreq. exists p. split; [|done].
  unfold decrypt_manifest_chunk, read_chunk, get_decrypted, mbind, handler_bind, hlift, tables, get_object.
  rewrite Hs, Hrow. simpl. rewrite Hn. simpl. rewrite Hreq, Hg. simpl. rewrite Hd, Hh. simpl.
  by rewrite String.eqb_refl.
Qed.
End reading.
