(* ===== verification/StorageSystem.v ===== *)
(** * Handlers keep snapshot storage consistent

    Each handler of [Snapshots] and [SnapshotMerge], run to its end, keeps the invariant of
    [StorageSafety], whatever fails on the way; the transition system of handlers. *)

From stdpp Require Import gmap.
From S2P Require Import Prelude.
From S2P Require Import Text.
From S2P Require Import Json.
From S2P Require Import Contracts.
From S2P Require Import Store.
From S2P Require Import Governance.
From S2P Require Import SyncPublish.
From S2P Require Import RunStore.
From S2P Require Import Routing.
From S2P Require Import Organization.
From S2P Require Import SyncSystem.
From S2P Require Import ObjectStore.
From S2P Require Import Snapshots.
From S2P Require Import SnapshotMerge.
From S2P Require Import StorageSafety.

Import Organization Snapshots Merge.

(** ** Transactions that leave snapshots alone *)

Lemma ensure_project_role_storage u p r : frames storage_frame (ensure_project_role u p r).
Proof. unfold ensure_project_role, audit_support_access. frames_steps. Qed.

Lemma enforce_storage_quota_storage k i b : frames storage_frame (enforce_storage_quota_tx k i b).
Proof. unfold enforce_storage_quota_tx. frames_steps. Qed.
#[export] Hint Resolve ensure_project_role_storage enforce_storage_quota_storage : store.

Lemma accessible_manifest_storage u i r : frames storage_frame (accessible_manifest u i r).
Proof. unfold accessible_manifest. frames_steps. Qed.

Lemma project_scope_storage p u : frames storage_frame (project_scope p u).
Proof. unfold project_scope. frames_steps. Qed.

Lemma verify_executor_lease_storage r e t : frames storage_frame (verify_executor_lease r e t).
Proof. unfold verify_executor_lease, verify_lease. frames_steps. Qed.

Lemma ensure_run_result_manifest_storage i spec : frames storage_frame (ensure_run_result_manifest i spec).
Proof. unfold ensure_run_result_manifest. frames_steps. Qed.

Lemma run_snapshot_storage spec : frames storage_frame (run_snapshot spec).
Proof. unfold run_snapshot. frames_steps. Qed.

Lemma load_merge_versions_storage p b c r : frames storage_frame (load_merge_versions p b c r).
Proof. unfold load_merge_versions, load_version_files. frames_steps. Qed.

Lemma insert_version_storage row p : frames storage_frame (insert_version row p).
Proof. unfold insert_version. frames_steps. Qed.

Lemma audit_project_storage u p a v : frames storage_frame (audit_project u p a v).
Proof. unfold audit_project. frames_steps. Qed.

Lemma move_project_storage p v : frames storage_frame (move_project p v).
Proof.
  unfold move_project. frames_steps. apply frames_modify. intros db. split; try done.
  intros Hp id q. simpl. destruct (decide (id = p)) as [->|Hne].
  - rewrite lookup_alter_eq. intros (q0 & Hq0 & ->)%fmap_Some_1. exact (Hp p q0 Hq0).
  - rewrite lookup_alter_ne by done. apply Hp.
Qed.
#[export] Hint Resolve accessible_manifest_storage project_scope_storage verify_executor_lease_storage
  ensure_run_result_manifest_storage run_snapshot_storage load_merge_versions_storage
  insert_version_storage audit_project_storage move_project_storage : store.

Lemma insert_project_version_storage u p r : frames storage_frame (insert_project_version u p r).
Proof. unfold insert_project_version, validate_version_parent. frames_steps. Qed.

Lemma switch_version_storage u p v r : frames storage_frame (switch_version u p v r).
Proof. unfold switch_version. frames_steps. Qed.

Lemma finish_merge_storage u p i r b c d a : frames storage_frame (finish_merge u p i r b c d a).
Proof. unfold finish_merge. frames_steps. Qed.

Lemma transition_run_storage id s r e : frames storage_frame (transition_run id s r e).
Proof. autounfold with runops. frames_steps. Qed.
#[export] Hint Resolve insert_project_version_storage switch_version_storage finish_merge_storage
  transition_run_storage : store.

Lemma wake_run_storage env caps id db : storage_frame db (wake_run env caps id db).1.
Proof.
  unfold wake_run. case_match; simpl; [|reflexivity].
  pose proof (frames_run_tx storage_frame env db _ (transition_run_storage id a None None)) as Hf.
  by destruct (run_tx env db _).
Qed.

Lemma wake_runs_storage envs k caps ids db : storage_frame db (wake_runs envs k caps ids db).1.
Proof.
  revert k db. induction ids as [|id ids IH]; intros k db; simpl; [reflexivity|].
  pose proof (wake_run_storage (envs k) caps id db) as Hf.
  destruct (wake_run (envs k) caps id db) as [db' [u|e]]; simpl in *; [|done].
  etrans; [exact Hf|apply IH].
Qed.

(** ** Stepping through a handler *)

Section handlers.
Context {crypto : StorageCrypto} {laws : CryptoLaws} {lib : MergeLib} (master : string).

Abbreviation ok := (storage_ok master).

(** The deployment's master key, and nonces of the right length. *)
Record henv_ok (henv : HandlerEnv) : Prop := {
  ho_master : forall key, h_master_key henv = Some key -> key = master;
  ho_random : forall n r, h_random henv n = Ok r -> str_len r.1.2 = 12%Z /\ str_len r.2 = 12%Z;
}.

Context (henv : HandlerEnv) (Henv : henv_ok henv).

Lemma hwp_frame {A} (m : Tx A) (Q : A -> nat * World -> Prop) n w :
  ok w -> frames storage_frame m ->
  (forall a w', ok w' -> storage_frame (w_db w) (w_db w') -> w_objects w' = w_objects w ->
     Q a (S n, w')) ->
  hwp ok henv (transaction m) Q (n, w).
Proof.
  intros Hok Hf HQ. apply hwp_transaction; [done|]. eapply wp_mono; [apply Hf|].
  intros a s Hs. apply HQ; [by apply storage_frame_ok|done|done].
Qed.

Lemma ready_chunk_None w s digest :
  ok w -> ready_chunk (w_db w) s digest = None -> snapshot_chunks (w_db w) !! chunk_key s digest = None.
Proof.
  intros [_ Hc]. unfold ready_chunk. destruct (snapshot_chunks (w_db w) !! _) as [row|] eqn:Hr; [|done].
  destruct (Hc _ _ Hr) as [-> _]. done.
Qed.

Lemma ready_chunk_Some db s digest row :
  ready_chunk db s digest = Some row -> snapshot_chunks db !! chunk_key s digest = Some row.
Proof. unfold ready_chunk. case_match; [|done]. case_match; congruence. Qed.

(** An object written for a chunk that has no row yet. *)
Lemma objects_put w s digest ciphertext :
  ok w -> wide (scope_id s) -> String.length digest = 64%nat ->
  snapshot_chunks (w_db w) !! chunk_key s digest = None ->
  ok {| w_db := w_db w; w_objects := <[chunk_object_key s digest := ciphertext]> (w_objects w) |}.
Proof.
  intros [Ht Hc] Hw Hl Hnone. split; [done|]. intros key row Hrow. simpl in *.
  destruct (Hc _ _ Hrow) as [Hst Hok]. split; [done|].
  eapply (chunk_ok_objects _ _ _ _ _ s digest Hok); [done|done|congruence|].
  intros k Hk. by rewrite lookup_insert_ne.
Qed.

(** What [put_encrypted] achieves for such a chunk. *)
Definition sealed (w : World) (s : KeyScope) (digest bytes : string) (put : string * EncryptedChunk) : Prop :=
  put.1 = chunk_object_key s digest
  /\ w_objects w !! put.1 = Some (enc_ciphertext put.2)
  /\ decrypt master s (enc_ciphertext put.2) (enc_wrapped_data_key put.2) (enc_nonce put.2)
       (enc_wrap_nonce put.2) = Ok bytes.

Lemma hwp_put s digest bytes Q n w :
  ok w -> wide (scope_id s) -> String.length digest = 64%nat ->
  snapshot_chunks (w_db w) !! chunk_key s digest = None ->
  (forall put n' w', ok w' -> w_db w' = w_db w -> sealed w' s digest bytes put -> Q put (n', w')) ->
  hwp ok henv (put_encrypted master s digest bytes) Q (n, w).
Proof.
  intros Hok Hw Hl Hnone HQ. unfold put_encrypted. apply hwp_bind.
  unfold hwp at 1, random_bytes. destruct (h_random henv n) as [r|] eqn:Hr; simpl; [|done].
  destruct (ho_random _ Henv _ _ Hr) as [Hn1 Hn2]. apply hwp_bind, hwp_hlift; [done|].
  intros e He. pose proof (decrypt_encrypt _ _ _ _ _ Hn1 Hn2 He) as Hd. apply hwp_bind.
  pose proof (objects_put w s digest (enc_ciphertext e) Hok Hw Hl Hnone) as Hok'.
  unfold hwp at 1, change_objects. destruct (h_request henv (S n)); simpl; [|done|done].
  apply hwp_ret, HQ; [done|done|]. split_and!; [done| |done]. simpl. by rewrite lookup_insert_eq.
Qed.

(** ** Declaring *)

Lemma wp_project_scope env p u s (Q : KeyScope -> TxState -> Prop) :
  wide_projects (tx_db s) -> (forall k, wide (scope_id k) -> Q k s) ->
  wp env (project_scope p u) Q s.
Proof.
  intros Hp HQ. unfold project_scope. wp_steps.
  assert (projects (tx_db s) !! p = Some a) as Ha.
  { unfold live_project in *. repeat case_match; congruence. }
  destruct (Hp _ _ Ha) as [Ho Ht]. destruct (pr_privacy a); wp_steps; apply HQ; simpl; auto.
Qed.

Lemma contents_tables w db' :
  contents_ok master w -> snapshot_chunks db' = snapshot_chunks (w_db w) ->
  contents_ok master {| w_db := db'; w_objects := w_objects w |}.
Proof. unfold contents_ok. simpl. by intros Hc ->. Qed.

Lemma row_scope_of m s :
  mf_key_scope_type m = kind s -> mf_key_scope_id m = scope_id s -> row_scope m = Ok s.
Proof. unfold row_scope. intros -> ->. by destruct s. Qed.

Lemma existing_digests_row db s digests digest :
  digest ∈ existing_digests db s digests -> is_Some (snapshot_chunks db !! chunk_key s digest).
Proof.
  unfold existing_digests. intros [[row Hr] _]%list_elem_of_filter. exists row.
  by apply ready_chunk_Some.
Qed.

Lemma wp_insert_upload env u request s expires source digests w :
  ok w -> wide (scope_id s) ->
  validate_snapshot_files (bs_total_bytes request) (bs_files request) = Ok tt ->
  wp env (insert_upload u request s expires source digests)
    (fun _ st => ok {| w_db := tx_db st; w_objects := w_objects w |}) (MkTx (w_db w) 0).
Proof.
  intros Hok Hw Hv. unfold insert_upload, put_manifest, reserve_existing_chunks. wp_steps.
  eapply wp_mono; [apply (enforce_storage_quota_storage (kind s) (scope_id s) (bs_total_bytes request))|].
  intros [] st Hf. simpl in Hf. pose proof (storage_frame_ok _ _ _ Hok Hf) as [Ht Hc]. simpl in *.
  wp_steps. destruct (bool_decide _) eqn:Hnew in H; [done|].
  apply bool_decide_eq_false in Hnew. apply eq_None_not_Some in Hnew.
  split; simpl; [|exact (contents_tables _ _ Hc eq_refl)].
  apply tables_reservations.
  - eapply tables_new_manifest; [done|done|by apply row_scope_of|done|done|done].
  - intros id key [Hin|Hin]%elem_of_union; [|by eapply (ro_reserved _ (to_refs _ Ht))].
    apply elem_of_list_to_set, list_elem_of_fmap in Hin as (digest & [= -> ->] & Hin).
    by apply existing_digests_row in Hin.
Qed.

Lemma begin_ok u request source st :
  ok st.2 -> hwp ok henv (begin_snapshot_upload_for u request source) (fun _ st' => ok st'.2) st.
Proof.
  destruct st as [n w]. intros Hok. unfold begin_snapshot_upload_for.
  apply hwp_bind, hwp_require_store; [done|]. intros mk Hmk.
  apply hwp_bind, hwp_frame; [done|auto with store|]. intros _ w1 Hok1 _ _.
  apply hwp_bind, hwp_hlift; [done|]. intros [] Hv.
  apply hwp_bind, hwp_transaction; [done|].
  apply wp_project_scope; [apply Hok1|]. intros s Hs. simpl.
  assert ({| w_db := w_db w1; w_objects := w_objects w1 |} = w1) as -> by (by destruct w1).
  apply hwp_bind, hwp_utc_now. intros now. apply hwp_bind, hwp_hlift; [done|]. intros ex Hex.
  apply hwp_bind, hwp_hlift; [done|]. intros unique Hu. apply hwp_bind, hwp_tables.
  destruct (source ≫= _) as [[id m]|]; [by apply hwp_hlift|].
  apply hwp_transaction; [done|]. by apply wp_insert_upload.
Qed.

(** ** Uploading *)

Lemma validate_digest_length digest : validate_digest digest = Ok tt -> String.length digest = 64%nat.
Proof.
  unfold validate_digest. intros [Hl _]%guard_err_Ok%orb_false_iff.
  apply negb_false_iff, Z.eqb_eq in Hl. unfold str_len in Hl. lia.
Qed.

Lemma wp_insert_chunk env s digest bytes put w st :
  ok w -> tx_db st = w_db w -> wide (scope_id s) -> String.length digest = 64%nat ->
  hex_digest bytes = digest -> sealed w s digest bytes put ->
  wp env (insert_chunk s digest put.1 (str_len bytes) put.2)
    (fun _ st' => ok {| w_db := tx_db st'; w_objects := w_objects w |}
                  /\ is_Some (snapshot_chunks (tx_db st') !! chunk_key s digest)) st.
Proof.
  intros [Ht Hc] Hdb Hw Hl Hh (Hk & Hg & Hd). unfold insert_chunk. wp_steps. rewrite Hdb in *.
  destruct (bool_decide _) eqn:Hnew in H; [done|].
  apply bool_decide_eq_false in Hnew. apply eq_None_not_Some in Hnew.
  split; [|by rewrite lookup_insert_eq]. split; simpl; [by apply tables_new_chunk|].
  intros key row Hrow. simpl in Hrow.
  apply lookup_insert_Some in Hrow as [[<- <-]|[Hne Hrow]]; [|by apply Hc]. simpl.
  split; [done|]. exists s, digest, (enc_ciphertext put.2), (enc_wrap_nonce put.2), bytes. done.
Qed.

Lemma wp_reserve env id s digest w st :
  ok {| w_db := tx_db st; w_objects := w |} -> is_Some (snapshot_chunks (tx_db st) !! chunk_key s digest) ->
  wp env (insert_chunk_reservation id s digest)
    (fun _ st' => ok {| w_db := tx_db st'; w_objects := w |}) st.
Proof.
  intros [Ht Hc] Hrow. unfold insert_chunk_reservation. wp_steps. simpl in *.
  split; simpl; [|exact Hc]. apply tables_reservations; [done|].
  intros id' key [[= -> ->]%elem_of_singleton|Hin]%elem_of_union; [done|].
  by eapply (ro_reserved _ (to_refs _ Ht)).
Qed.

Lemma upload_checks_Ok m digest body s :
  upload_checks m digest body = Ok s -> row_scope m = Ok s /\ hex_digest body = digest.
Proof.
  unfold upload_checks. intros Hu. bind_steps Hu. split; [done|].
  by apply negb_false_iff, String.eqb_eq in E3.
Qed.

Lemma manifest_scope_wide w id m s :
  ok w -> snapshot_manifests (w_db w) !! id = Some m -> row_scope m = Ok s -> wide (scope_id s).
Proof.
  intros [[_ M _] _] Hm Hs. destruct (M _ _ Hm) as (s' & Hs' & Hw & _). congruence.
Qed.

Lemma wp_accessible_manifest env u id role w (Q : ManifestRow -> TxState -> Prop) :
  ok w ->
  (forall m st, snapshot_manifests (w_db w) !! id = Some m -> storage_frame (w_db w) (tx_db st) -> Q m st) ->
  wp env (accessible_manifest u id role) Q (MkTx (w_db w) 0).
Proof.
  intros Hok HQ. unfold accessible_manifest. wp_steps.
  eapply wp_mono; [apply (ensure_project_role_storage u (mf_project_id a) role)|].
  intros r st Hf. wp_steps. by apply HQ.
Qed.

Lemma store_chunk_ok id s digest body put n w :
  ok w -> wide (scope_id s) -> String.length digest = 64%nat -> hex_digest body = digest ->
  sealed w s digest body put ->
  hwp ok henv (transaction (store_chunk id s digest body put.1 put.2)) (fun _ st => ok st.2) (n, w).
Proof.
  intros Hok Hw Hl Hh Hs. apply hwp_transaction; [done|]. unfold store_chunk. wp_steps.
  eapply wp_mono; [by apply (wp_insert_chunk _ s digest body put w)|]. intros [] st [Hok1 Hrow].
  wp_steps. eapply wp_mono; [by apply (wp_reserve _ id s digest (w_objects w))|]. intros [] st2 Hok2.
  wp_steps. unfold when. case_match; wp_steps; [|done]. destruct Hok2 as [Ht Hc]. split; simpl in *.
  - by apply tables_same_status.
  - exact Hc.
Qed.

Lemma upload_ok u id digest body st :
  ok st.2 -> hwp ok henv (upload_snapshot_chunk u id digest body) (fun _ st' => ok st'.2) st.
Proof.
  destruct st as [n w]. intros Hok. unfold upload_snapshot_chunk.
  apply hwp_bind, hwp_require_store; [done|]. intros mk ->%(ho_master _ Henv).
  apply hwp_bind, hwp_hlift; [done|]. intros [] Hl%validate_digest_length.
  apply hwp_bind, hwp_hlift; [done|]. intros [] _.
  apply hwp_bind, hwp_transaction; [done|]. apply wp_accessible_manifest; [done|].
  intros m s1 Hm Hf. pose proof (storage_frame_ok _ _ _ Hok Hf) as Hok1.
  set (w1 := {| w_db := tx_db s1; w_objects := w_objects w |}) in *.
  apply hwp_bind, hwp_hlift; [done|]. intros s [Hs Hh]%upload_checks_Ok.
  pose proof (manifest_scope_wide _ _ _ _ Hok Hm Hs) as Hw.
  apply hwp_bind, hwp_transaction; [done|]. unfold reserve_stored. wp_steps.
  destruct (ready_chunk _ _ _) as [row|] eqn:Hr; wp_steps.
  - eapply wp_mono; [apply (wp_reserve _ id s digest (w_objects w)); [done|]|].
    { exists row. by apply ready_chunk_Some. }
    intros [] s2 Hok2. wp_steps. done.
  - apply hwp_bind, (hwp_put s digest body); [done|done|done|by apply (ready_chunk_None w1)|].
    intros put n' w' Hok' _ Hsealed. by apply store_chunk_ok.
Qed.

(** ** Committing *)

Lemma contents_chunks w db' :
  contents_ok master w ->
  (forall key row', snapshot_chunks db' !! key = Some row' ->
     exists row, snapshot_chunks (w_db w) !! key = Some row /\ same_object row row'
       /\ ck_status row' = ck_status row) ->
  contents_ok master {| w_db := db'; w_objects := w_objects w |}.
Proof.
  intros Hc Hrows key row' (row & Hrow & Hsame & Hst)%Hrows. destruct (Hc _ _ Hrow) as [Hs Hok].
  split; [congruence|]. by eapply chunk_ok_same.
Qed.

Lemma update_references_rows f id now db key row' :
  snapshot_chunks (update_references f id now db) !! key = Some row' ->
  exists row, snapshot_chunks db !! key = Some row /\ same_object row row' /\ ck_status row' = ck_status row.
Proof.
  rewrite update_references_lookup. intros (row & Hrow & ->)%fmap_Some_1. exists row.
  split; [done|]. by case_match.
Qed.

Lemma contents_mapped w id now L :
  contents_ok master w -> contents_ok master {| w_db := mapped id now L (w_db w); w_objects := w_objects w |}.
Proof.
  intros Hc. apply contents_chunks; [done|]. destruct L as [|x L].
  - simpl. intros key row Hrow. by exists row.
  - intros key row' Hrow. exact (update_references_rows _ _ _ _ _ _ Hrow).
Qed.

Lemma wp_add_mappings env id L st (Q : unit -> TxState -> Prop) :
  ((forall mapping, mapping ∈ L -> is_Some (snapshot_chunks (tx_db st) !! mapping.2)) ->
   Q tt (MkTx (mapped id (db_now env) L (tx_db st)) (tx_ids st))) ->
  wp env (add_mappings id L) Q st.
Proof.
  intros HQ. unfold add_mappings, insert_mappings. wp_steps. destruct L as [|x L]; wp_steps.
  - destruct st. apply HQ. by intros mapping Hin%elem_of_nil.
  - apply HQ. intros mapping Hin. destruct (snapshot_chunks _ !! mapping.2) eqn:Hm; [by eexists|].
    exfalso. apply not_true_iff_false in H. apply H.
    apply (existsb_exists (fun mapping => bool_decide (snapshot_chunks (tx_db st) !! mapping.2 = None)) (x :: L)).
    exists mapping.
    split; [by apply list_elem_of_In|]. by apply bool_decide_eq_true.
Qed.

Lemma commit_tx_ok u id n w :
  ok w -> hwp ok henv (transaction (commit_tx u id)) (fun _ st => ok st.2) (n, w).
Proof.
  intros Hok. apply hwp_transaction; [done|]. unfold commit_tx. wp_steps.
  eapply wp_mono; [apply (ensure_project_role_storage u (mf_project_id a) Runner)|].
  intros role st Hf. simpl in Hf. pose proof (storage_frame_ok _ _ _ Hok Hf) as Hok1.
  destruct (String.eqb (mf_status a) "ready") eqn:Hst; wp_steps; [done|].
  apply wp_add_mappings. intros HL. wp_steps. apply String.eqb_neq in Hst.
  destruct Hok1 as [Ht Hc]. simpl in *.
  assert (snapshot_manifests (tx_db st) !! id = Some a) as Hm by (by rewrite (sf_manifests_eq _ _ Hf)).
  split; simpl.
  - apply tables_delete_reservations. by eapply tables_commit.
  - exact (contents_mapped _ id (db_now (h_env henv n)) _ Hc).
Qed.

Lemma commit_ok caps u id st :
  ok st.2 -> hwp ok henv (commit_snapshot caps u id) (fun _ st' => ok st'.2) st.
Proof.
  destruct st as [n w]. intros Hok. unfold commit_snapshot.
  apply hwp_bind, hwp_require_store; [done|]. intros mk Hmk.
  apply hwp_bind. eapply hwp_mono; [by apply commit_tx_ok|]. intros [manifest fresh] [n1 w1] Hok1.
  apply hwp_bind. simpl in *. destruct fresh; [|done].
  unfold hwp at 1, wake_waiting_runs, resume_snapshot_runs.
  pose proof (wake_runs_storage (fun k => h_env henv (n1 + k)%nat) 0 caps
    (snapshot_waiters (w_db w1) id) (w_db w1)) as Hf.
  destruct (wake_runs _ _ _ _ _) as [db' [u'|e]]; simpl in *; by apply storage_frame_ok.
Qed.

(** ** Deleting and expiring *)

Lemma hwp_release id (Q : unit -> nat * World -> Prop) n w :
  Q tt (S n, {| w_db := released id (db_now (h_env henv n)) (w_db w); w_objects := w_objects w |}) ->
  hwp ok henv (transaction (release_manifest_references id)) Q (n, w).
Proof. done. Qed.

Lemma contents_released w id now :
  contents_ok master w -> contents_ok master {| w_db := released id now (w_db w); w_objects := w_objects w |}.
Proof.
  intros Hc. apply contents_chunks; [done|]. intros key row' Hrow.
  exact (update_references_rows _ _ _ _ _ _ Hrow).
Qed.

Lemma delete_ok u id st :
  ok st.2 -> hwp ok henv (delete_snapshot u id) (fun _ st' => ok st'.2) st.
Proof.
  destruct st as [n w]. intros Hok. unfold delete_snapshot.
  apply hwp_bind, hwp_transaction; [done|]. apply wp_accessible_manifest; [done|].
  intros m s1 Hm Hf. pose proof (storage_frame_ok _ _ _ Hok Hf) as Hok1.
  rewrite <- (sf_manifests_eq _ _ Hf) in Hm.
  apply hwp_bind, hwp_tables. apply hwp_bind, hwp_hlift; [done|]. intros [] _.
  destruct Hok1 as [Ht Hc]. simpl in *. apply hwp_bind.
  destruct (String.eqb (mf_status m) "ready") eqn:Hst.
  - apply hwp_release. apply hwp_bind, hwp_modify, hwp_modify. simpl. split; simpl.
    + exact (tables_delete_reservations _ id (tables_expire _ id (db_now (h_env henv (S n))) Ht)).
    + exact (contents_released _ id (db_now (h_env henv (S n))) Hc).
  - apply hwp_ret, hwp_bind, hwp_modify, hwp_modify. simpl. split; simpl; [|exact Hc].
    apply (tables_expire_idle _ _ m); [by apply tables_delete_reservations|done|].
    by apply String.eqb_neq.
Qed.

Lemma expire_upload_ok id st :
  ok st.2 -> hwp ok henv (transaction (expire_upload id)) (fun _ st' => ok st'.2) st.
Proof.
  destruct st as [n w]. intros [Ht Hc]. simpl in *. apply hwp_transaction; [by split|].
  unfold expire_upload. wp_steps. split; simpl; [|exact Hc].
  apply tables_same_status; [by apply tables_delete_reservations|].
  intros m Hm. destruct (String.eqb (mf_status m) "uploading") eqn:Hst; [|done].
  split; [done|]. apply String.eqb_eq in Hst. simpl. by rewrite Hst.
Qed.

Lemma expire_manifest_ok id st :
  ok st.2 -> hwp ok henv (expire_manifest id) (fun _ st' => ok st'.2) st.
Proof.
  destruct st as [n w]. intros [Ht Hc]. unfold expire_manifest. simpl in *.
  apply hwp_bind, hwp_release, hwp_modify. split; simpl; [by apply tables_expire|].
  exact (contents_released _ id (db_now (h_env henv n)) Hc).
Qed.

(** ** Collecting chunks *)

(** While chunks are collected: those still to go are marked, unused and known. *)
Record collecting (pending : list (ChunkKey * ChunkRow)) (w : World) : Prop := {
  co_tables : tables_ok (w_db w);
  co_rows : forall key row, snapshot_chunks (w_db w) !! key = Some row ->
    chunk_ok master (w_objects w) key row
    /\ if decide (key ∈ pending.*1)
       then ck_status row = "deleting" /\ ck_ref_count row = 0%Z
            /\ (forall id, (id, key) ∉ snapshot_chunk_reservations (w_db w))
       else ck_status row = "ready";
  co_pending : NoDup pending.*1;
  co_keys : forall key row, (key, row) ∈ pending ->
    exists s digest, key = chunk_key s digest /\ wide (scope_id s) /\ String.length digest = 64%nat
      /\ ck_object_key row = chunk_object_key s digest;
}.

Lemma collecting_none w : collecting [] w <-> ok w.
Proof.
  split.
  - intros [Ht Hr _ _]. split; [done|]. intros key row Hrow. destruct (Hr _ _ Hrow) as [Hok Hst].
    rewrite decide_False in Hst by apply not_elem_of_nil. done.
  - intros [Ht Hc]. split; [done| |constructor|by intros ?? ?%elem_of_nil].
    intros key row Hrow. destruct (Hc _ _ Hrow) as [Hst Hok]. split; [done|].
    by rewrite decide_False by apply not_elem_of_nil.
Qed.

Lemma alter_all_lookup (l : list (ChunkKey * ChunkRow)) (m : gmap ChunkKey ChunkRow) status key :
  foldr (fun kv => alter (with_chunk_status status) kv.1) m l !! key
  = (if decide (key ∈ l.*1) then with_chunk_status status else id) <$> m !! key.
Proof.
  induction l as [|[k r] l IH]; [simpl; by rewrite option_fmap_id|].
  cbn [foldr]. rewrite fmap_cons. cbn [fst]. destruct (decide (key = k)) as [->|Hne].
  - rewrite lookup_alter_eq, IH, (decide_True (P := k ∈ k :: l.*1)) by left.
    destruct (m !! k) as [row|]; [|done]. simpl. by case_decide.
  - rewrite lookup_alter_ne, IH by done. f_equal.
    destruct (decide (key ∈ l.*1)) as [Hin|Hin].
    + rewrite decide_True by (by right). done.
    + rewrite decide_False; [done|]. by intros [?|?]%elem_of_cons.
Qed.

Lemma is_reserved_false db key id :
  is_reserved db key = false -> (id, key) ∉ snapshot_chunk_reservations db.
Proof.
  intros Hr Hin. apply not_true_iff_false in Hr. apply Hr, existsb_exists. exists (id, key).
  split; [by apply list_elem_of_In, elem_of_elements|by apply bool_decide_eq_true].
Qed.

(** The selection of [mark_chunks]. *)
Definition selection (locked : ChunkKey -> bool) (limit : Z) (db : Db) : list (ChunkKey * ChunkRow) :=
  take (Z.to_nat (clamp 1 1000 limit))
    (merge_sort last_use_before
       (filter (fun kv => collectable locked db kv.1 kv.2 = true) (map_to_list (snapshot_chunks db)))).

Lemma selection_row locked limit db key row :
  (key, row) ∈ selection locked limit db ->
  snapshot_chunks db !! key = Some row /\ collectable locked db key row = true.
Proof.
  unfold selection. intros Hin.
  apply elem_of_take in Hin as (i & Hin%list_elem_of_lookup_2 & _).
  rewrite (merge_sort_Permutation last_use_before) in Hin.
  apply list_elem_of_filter in Hin as [Hc Hin]. by apply elem_of_map_to_list in Hin.
Qed.

Lemma selection_NoDup locked limit db : NoDup (selection locked limit db).*1.
Proof.
  apply NoDup_fmap_fst.
  - intros key r1 r2 [H1 _]%selection_row [H2 _]%selection_row. congruence.
  - unfold selection. eapply sublist_NoDup; [|apply sublist_take].
    rewrite (merge_sort_Permutation last_use_before). apply NoDup_filter, NoDup_map_to_list.
Qed.

Lemma mark_ok locked limit n w :
  ok w -> hwp ok henv (transaction (mark_chunks locked limit)) (fun marked st => collecting marked st.2) (n, w).
Proof.
  intros Hok. apply hwp_transaction; [done|]. unfold mark_chunks. wp_steps.
  change (take _ _) with (selection locked limit (w_db w)). destruct Hok as [Ht Hc].
  pose proof (selection_row locked limit (w_db w)) as Hsel. set (l := selection locked limit (w_db w)) in *.
  assert (forall key row', foldr (fun kv => alter (with_chunk_status "deleting") kv.1)
            (snapshot_chunks (w_db w)) l !! key = Some row' ->
            exists row, snapshot_chunks (w_db w) !! key = Some row
              /\ row' = (if decide (key ∈ l.*1) then with_chunk_status "deleting" else id) row) as Hrows.
  { intros key row'. rewrite alter_all_lookup. intros (row & Hrow & ->)%fmap_Some_1. eauto. }
  split; simpl.
  - apply tables_chunks; [done| |].
    + intros key row' (row & Hrow & ->)%Hrows. exists row. split; [done|]. by case_decide.
    + intros key [row Hrow]. rewrite alter_all_lookup, Hrow. by eexists.
  - intros key row' (row & Hrow & ->)%Hrows. destruct (Hc _ _ Hrow) as [Hst Hok].
    split; [eapply chunk_ok_same; [|done]; by case_decide|].
    destruct (decide (key ∈ l.*1)) as [Hin|Hin]; [|done]. split; [done|].
    apply list_elem_of_fmap in Hin as ([k r] & -> & Hin). simpl in Hrow.
    apply Hsel in Hin as [Hr Hcol]. rewrite Hrow in Hr. injection Hr as <-.
    unfold collectable in Hcol. rewrite !andb_true_iff, !negb_true_iff in Hcol.
    destruct Hcol as [[[Hzero _] Hres] _]. split; [by apply Z.eqb_eq in Hzero|].
    intros id. by apply is_reserved_false.
  - apply selection_NoDup.
  - intros key row [Hrow _]%Hsel.
    destruct (Hc _ _ Hrow) as [_ (s & d & c & wn & p & Hk & Hw & Hl & Ho & _)]. by exists s, d.
Qed.

(** A chunk without references and reservations goes. *)
Lemma tables_drop_chunk db key row :
  tables_ok db -> snapshot_chunks db !! key = Some row -> ck_ref_count row = 0%Z ->
  tables_ok (set_snapshot_chunk_reservations
               (filter (fun r => r.2 ≠ key) (snapshot_chunk_reservations db))
               (set_snapshot_chunks (delete key (snapshot_chunks db)) db)).
Proof.
  intros [[R1 R2 R3 R4] M P] Hrow Hzero. pose proof (R1 _ _ Hrow) as Hcount.
  assert (forall k used, snapshot_manifest_chunks db !! k = Some used -> used ≠ key) as Hunused.
  { intros k used Hk ->. unfold references in Hcount.
    assert (filter (fun kv : MapKey * ChunkKey => kv.2 = key) (snapshot_manifest_chunks db) = ∅) as He
      by (apply map_size_empty_inv; lia).
    apply (map_filter_empty_not_lookup _ _ k key) in He; done. }
  split; [split|done|done]; simpl.
  - intros k r [_ Hk]%lookup_delete_Some. by apply R1.
  - intros k used Hk. rewrite lookup_delete_ne by (symmetry; by eapply Hunused). by eapply R2.
  - exact R3.
  - intros id k [Hne Hin]%elem_of_filter. simpl in Hne. rewrite lookup_delete_ne by done. by eapply R4.
Qed.

Lemma delete_chunk_row_run env st key row :
  tables_ok (tx_db st) -> snapshot_chunks (tx_db st) !! key = Some row ->
  ck_ref_count row = 0%Z -> ck_status row = "deleting" ->
  delete_chunk_row key env st
  = Ok (tt, MkTx (set_snapshot_chunk_reservations
                    (filter (fun r => r.2 ≠ key) (snapshot_chunk_reservations (tx_db st)))
                    (set_snapshot_chunks (delete key (snapshot_chunks (tx_db st))) (tx_db st)))
                 (tx_ids st)).
Proof.
  intros Ht Hrow Hzero Hst. unfold delete_chunk_row.
  rewrite (tx_bind_run env get_db _ st st (tx_db st)) by done. rewrite Hrow, Hzero, Hst. simpl.
  assert (row_exists (fun _ used => bool_decide (used = key)) (snapshot_manifest_chunks (tx_db st)) = false)
    as Hunused.
  { apply row_exists_false. intros k used Hk. apply bool_decide_eq_false. intros ->.
    destruct (ro_mapped _ (to_refs _ (tables_drop_chunk _ _ _ Ht Hrow Hzero)) k key Hk) as [r Hr].
    simpl in Hr. by rewrite lookup_delete_eq in Hr. }
  by rewrite Hunused.
Qed.

Lemma hwp_transaction_run {A} (m : Tx A) (Q : A -> nat * World -> Prop) n w a s :
  m (h_env henv n) (MkTx (w_db w) 0) = Ok (a, s) ->
  Q a (S n, {| w_db := tx_db s; w_objects := w_objects w |}) ->
  hwp ok henv (transaction m) Q (n, w).
Proof. unfold hwp, transaction, run_tx. by intros ->. Qed.

(** The object is gone, and the row with it. *)
Lemma collecting_deleted kv rest n w (Q : unit -> nat * World -> Prop) :
  collecting (kv :: rest) w ->
  (forall n' w', collecting rest w' -> Q tt (n', w')) ->
  hwp ok henv (transaction (delete_chunk_row kv.1)) Q
    (n, {| w_db := w_db w; w_objects := delete (ck_object_key kv.2) (w_objects w) |}).
Proof.
  intros [Ht Hr Hnd Hk] HQ. rewrite fmap_cons in Hnd. apply NoDup_cons in Hnd as [Hni Hnd].
  assert ((kv.1, kv.2) ∈ kv :: rest) as Hin0 by (destruct kv; left).
  destruct (Hk _ _ Hin0) as (s & d & Hkey & Hw & Hl & Ho).
  assert (forall key row, snapshot_chunks (w_db w) !! key = Some row -> key ≠ kv.1 ->
    chunk_ok master (delete (ck_object_key kv.2) (w_objects w)) key row) as Hothers.
  { intros key row Hrow Hne. destruct (Hr _ _ Hrow) as [Hok _]. rewrite Ho.
    eapply (chunk_ok_objects _ _ _ _ _ s d Hok); [done|done|by rewrite <- Hkey|].
    intros k Hk'. by rewrite lookup_delete_ne. }
  assert (forall key, key ≠ kv.1 -> key ∈ (kv :: rest).*1 <-> key ∈ rest.*1) as Hpend.
  { intros key Hne. rewrite fmap_cons, elem_of_cons. tauto. }
  destruct (snapshot_chunks (w_db w) !! kv.1) as [row|] eqn:Hrow.
  - destruct (Hr _ _ Hrow) as [_ Hst]. rewrite decide_True in Hst by left.
    destruct Hst as (Hst & Hzero & _).
    eapply hwp_transaction_run; [by apply (delete_chunk_row_run _ _ _ row)|]. apply HQ. split; simpl.
    + by apply (tables_drop_chunk _ _ row).
    + intros key r [Hne Hrow']%lookup_delete_Some. split; [by apply Hothers|].
      destruct (Hr _ _ Hrow') as [_ Hst']. rewrite (decide_ext _ _ _ _ (Hpend key (not_eq_sym Hne))) in Hst'.
      case_decide; [|done]. destruct Hst' as (? & ? & Hres). split_and!; try done.
      intros id [_ Hin]%elem_of_filter. by apply (Hres id).
    + done.
    + intros key r Hin. apply Hk. by right.
  - eapply (hwp_transaction_run _ _ _ _ tt (MkTx (w_db w) 0)).
    { unfold delete_chunk_row. simpl. rewrite (tx_bind_run _ get_db _ _ (MkTx (w_db w) 0) (w_db w)) by done.
      by rewrite Hrow. }
    apply HQ. split; simpl; [done| |done|intros key r Hin; apply Hk; by right].
    intros key r Hrow'. assert (key ≠ kv.1) as Hne by congruence. split; [by apply Hothers|].
    destruct (Hr _ _ Hrow') as [_ Hst']. by rewrite (decide_ext _ _ _ _ (Hpend key Hne)) in Hst'.
Qed.

(** The deletion was refused: the chunk is ready again. *)
Lemma collecting_restored kv rest n w (Q : unit -> nat * World -> Prop) :
  collecting (kv :: rest) w ->
  (forall n' w', collecting rest w' -> Q tt (n', w')) ->
  hwp ok henv (transaction (restore_chunk (ck_object_key kv.2))) Q (n, w).
Proof.
  intros [Ht Hr Hnd Hk] HQ. rewrite fmap_cons in Hnd. apply NoDup_cons in Hnd as [Hni Hnd].
  assert ((kv.1, kv.2) ∈ kv :: rest) as Hin0 by (destruct kv; left).
  destruct (Hk _ _ Hin0) as (s & d & Hkey & Hw & Hl & Ho).
  apply hwp_modify, HQ.
  assert (forall key row', update_where (fun _ row => String.eqb (ck_object_key row) (ck_object_key kv.2)
                                && String.eqb (ck_status row) "deleting")
       (fun _ => with_chunk_status "ready") (snapshot_chunks (w_db w)) !! key = Some row' ->
     exists row, snapshot_chunks (w_db w) !! key = Some row /\ same_object row row'
       /\ ck_ref_count row' = ck_ref_count row
       /\ ck_status row' = if decide (key = kv.1) then "ready" else ck_status row) as Hrows.
  { intros key row'. unfold update_where. rewrite map_lookup_imap.
    destruct (snapshot_chunks (w_db w) !! key) as [row|] eqn:Hrow; [|done]. simpl. intros [= <-].
    exists row. destruct (Hr _ _ Hrow) as [(s' & d' & c & wn & p & Hk' & Hw' & Hl' & Ho' & _) Hst].
    destruct (decide (key = kv.1)) as [->|Hne].
    - rewrite decide_True in Hst by left. destruct Hst as [Hst _].
      rewrite Hkey in Hk'. injection Hk' as Hkind Hid <-. assert (s' = s) as -> by (destruct s, s'; simpl in *; congruence).
      rewrite Ho', Ho, Hst, !String.eqb_refl. done.
    - rewrite Ho', Ho, (proj2 (String.eqb_neq _ _)); [done|].
      intros Heq. apply chunk_object_key_inj in Heq as [-> ->]; try done. congruence. }
  split; simpl.
  - apply tables_chunks; [done| |].
    + intros key row' (row & Hrow & _ & Hc & _)%Hrows. eauto.
    + intros key [row Hrow]. unfold update_where. rewrite map_lookup_imap, Hrow. by eexists.
  - intros key row' (row & Hrow & Hsame & Hc & Hst')%Hrows. destruct (Hr _ _ Hrow) as [Hok Hst].
    split; [by eapply chunk_ok_same|]. destruct (decide (key = kv.1)) as [->|Hne].
    + by rewrite decide_False.
    + rewrite Hst', Hc. destruct (decide (key ∈ rest.*1)) as [Hin|Hin].
      * rewrite decide_True in Hst by (rewrite fmap_cons; by right). done.
      * rewrite decide_False in Hst; [done|]. by rewrite fmap_cons, elem_of_cons; intros [?|?].
  - done.
  - intros key r Hin. apply Hk. by right.
Qed.

(** A request that fails has not been carried out. *)
Definition certain : Prop := forall n, h_request henv n ≠ Unanswered.

Lemma collect_chunks_ok (Hcertain : certain) deleted pending st :
  collecting pending st.2 ->
  hwp ok henv (collect_chunks deleted pending) (fun _ st' => ok st'.2) st.
Proof.
  revert deleted st. induction pending as [|kv rest IH]; intros deleted [n w] Hco; simpl.
  - by apply hwp_ret, collecting_none.
  - apply hwp_bind. unfold collect_chunk. apply hwp_bind.
    unfold hwp at 1, attempt, delete_object, change_objects.
    pose proof (Hcertain n) as Hn. destruct (h_request henv n); [| |done].
    + apply hwp_bind, (collecting_deleted kv rest); [done|]. intros n' w' Hco'.
      apply hwp_ret. by apply IH.
    + apply hwp_bind, (collecting_restored kv rest); [done|]. intros n' w' Hco'.
      apply hwp_ret. by apply IH.
Qed.

Lemma gc_ok (Hcertain : certain) limit st :
  ok st.2 -> hwp ok henv (garbage_collect limit) (fun _ st' => ok st'.2) st.
Proof.
  destruct st as [n w]. intros Hok. unfold garbage_collect.
  apply hwp_bind, hwp_frame; [done|unfold abandoned_uploads; frames_steps|]. intros l1 w1 Hok1 _ _.
  apply hwp_bind. eapply hwp_mono; [apply (hwp_iter ok henv _ (fun st => ok st.2)); [|done]|].
  { intros id st _. apply expire_upload_ok. }
  intros [] [n2 w2] Hok2. apply hwp_bind, hwp_frame; [done|unfold expired_manifests; frames_steps|].
  intros l3 w3 Hok3 _ _. apply hwp_bind.
  eapply hwp_mono; [apply (hwp_iter ok henv _ (fun st => ok st.2)); [|done]|].
  { intros id st _. apply expire_manifest_ok. }
  intros [] [n4 w4] Hok4. apply hwp_bind, hwp_handler_env. apply hwp_bind.
  eapply hwp_mono; [by apply mark_ok|]. intros marked st5 Hco. by apply collect_chunks_ok.
Qed.

(** ** Merging *)

(** A handler that only reads. *)
Definition reads {A} (m : Handler A) : Prop := forall h st, (m h st).1.2 = st.2.

Lemma reads_ret {A} (a : A) : reads (mret a).
Proof. done. Qed.
Lemma reads_hlift {A} (r : result ApiError A) : reads (hlift r).
Proof. done. Qed.
Lemma reads_tables : reads tables.
Proof. by intros h [n w]. Qed.
Lemma reads_get_object key : reads (get_object key).
Proof. by intros h [n w]. Qed.
Lemma reads_bind {A B} (m : Handler A) (f : A -> Handler B) :
  reads m -> (forall a, reads (f a)) -> reads (m ≫= f).
Proof.
  intros Hm Hf h st. pose proof (Hm h st) as H1. unfold mbind, handler_bind.
  destruct (m h st) as [st' [a|e]]; simpl in *; [|done]. by rewrite Hf.
Qed.

Lemma hwp_reads {A} (m : Handler A) (Q : A -> nat * World -> Prop) n w :
  reads m -> ok w -> (forall a n', Q a (n', w)) -> hwp ok henv m Q (n, w).
Proof.
  intros Hm Hok HQ. pose proof (Hm henv (n, w)) as H1. unfold hwp.
  destruct (m henv (n, w)) as [[n' w'] [a|e]]; simpl in *; subst; [apply HQ|done].
Qed.

Ltac reads_step :=
  first [ apply reads_ret | apply reads_hlift | apply reads_tables | apply reads_get_object
        | apply reads_bind; [|intros ?] | case_match ].
Ltac reads_steps := repeat reads_step.

Lemma read_chunk_reads mk s row : reads (read_chunk mk s row).
Proof. unfold read_chunk, get_decrypted. reads_steps. Qed.

Lemma read_chunks_reads mk s output rows : reads (read_chunks mk s output rows).
Proof.
  revert output. induction rows as [|row rows IH]; intros output; cbn [read_chunks]; [by apply reads_ret|].
  apply reads_bind; [apply read_chunk_reads|]. intros chunk.
  apply reads_bind; [apply reads_hlift|]. intros _. apply IH.
Qed.

Lemma materialize_file_reads mk i path : reads (materialize_file mk i path).
Proof. unfold materialize_file. repeat (first [apply read_chunks_reads | reads_step]). Qed.

Lemma attempt_text_merge_reads mk i1 i2 i3 path b c r : reads (attempt_text_merge mk i1 i2 i3 path b c r).
Proof.
  unfold attempt_text_merge. repeat (first [apply materialize_file_reads | reads_step]).
Qed.

Lemma analyze_paths_reads mk b c r paths : reads (analyze_paths mk b c r paths).
Proof.
  induction paths as [|path paths IH]; cbn [analyze_paths]; [by apply reads_ret|].
  apply reads_bind; [|intros item; apply reads_bind; [done|intros items; apply reads_ret]].
  unfold analyze_path, path_status.
  repeat (first [apply attempt_text_merge_reads | reads_step]).
Qed.

Lemma analyze_merge_reads mk b c r : reads (analyze_merge mk b c r).
Proof.
  unfold analyze_merge. apply reads_bind; [apply analyze_paths_reads|]. intros a. apply reads_ret.
Qed.

Lemma hex_encode_length s : String.length (hex_encode s) = (2 * String.length s)%nat.
Proof. induction s as [|c s IH]; simpl; [done|]. rewrite IH. lia. Qed.

Lemma hex_digest_length bytes : String.length (hex_digest bytes) = 64%nat.
Proof.
  unfold hex_digest. rewrite hex_encode_length. pose proof (sha256_length bytes) as Hl.
  unfold str_len in Hl. lia.
Qed.

Lemma persist_ok s bytes st :
  wide (scope_id s) -> ok st.2 ->
  hwp ok henv (persist_plaintext_chunk master s (hex_digest bytes) bytes) (fun _ st' => ok st'.2) st.
Proof.
  destruct st as [n w]. intros Hw Hok. unfold persist_plaintext_chunk.
  apply hwp_bind, hwp_transaction; [done|]. unfold stored_ciphertext_size. wp_steps.
  assert ({| w_db := w_db w; w_objects := w_objects w |} = w) as -> by (by destruct w).
  destruct (ready_chunk (w_db w) s (hex_digest bytes)) as [row|] eqn:Hr; simpl; [done|].
  pose proof (hex_digest_length bytes) as Hl.
  apply hwp_bind, (hwp_put s (hex_digest bytes) bytes); [done|done|done|by apply (ready_chunk_None w)|].
  intros put n' w' Hok' _ Hsealed. apply hwp_bind, hwp_transaction; [done|].
  eapply wp_mono; [by apply (wp_insert_chunk _ s (hex_digest bytes) bytes put w')|].
  by intros [] s' [Hok2 _].
Qed.

Lemma upload_parts_ok s parts st :
  wide (scope_id s) -> ok st.2 ->
  hwp ok henv (upload_parts master s parts) (fun _ st' => ok st'.2) st.
Proof.
  intros Hw. revert st. induction parts as [|part parts IH]; intros st Hok; cbn [upload_parts]; [done|].
  apply hwp_bind. eapply hwp_mono; [by apply persist_ok|]. intros size st1 Hok1.
  apply hwp_bind. eapply hwp_mono; [by apply IH|]. intros chunks st2 Hok2. by apply hwp_ret.
Qed.

Lemma select_file_ok s current result item choice st :
  wide (scope_id s) -> ok st.2 ->
  hwp ok henv (select_file master s current result item choice) (fun _ st' => ok st'.2) st.
Proof.
  intros Hw Hok. unfold select_file. destruct choice; [by apply hwp_ret..|].
  apply hwp_bind, hwp_hlift; [done|]. intros bytes _. apply hwp_bind, hwp_hlift; [done|].
  intros template _. apply hwp_bind. unfold upload_file_from_bytes.
  apply hwp_bind. eapply hwp_mono; [by apply upload_parts_ok|]. intros chunks [n1 w1] Hok1.
  apply hwp_bind, hwp_utc_now. intros now. by apply hwp_ret, hwp_ret.
Qed.

Lemma merge_files_ok s current result resolutions analysis st :
  wide (scope_id s) -> ok st.2 ->
  hwp ok henv (merge_files master s current result resolutions analysis) (fun _ st' => ok st'.2) st.
Proof.
  intros Hw. revert st. induction analysis as [|item rest IH]; intros st Hok; cbn [merge_files]; [done|].
  apply hwp_bind. eapply hwp_mono; [by apply select_file_ok|]. intros selected st1 Hok1.
  apply hwp_bind, hwp_hlift; [done|]. intros [] _.
  apply hwp_bind. eapply hwp_mono; [by apply IH|]. intros files st2 Hok2. by apply hwp_ret.
Qed.

(** A manifest that is ready from the start, with its mappings. *)
Lemma tables_new_ready db id m s now :
  tables_ok db -> snapshot_manifests db !! id = None -> row_scope m = Ok s -> wide (scope_id s) ->
  validate_snapshot_files (mf_total_bytes m) (mf_manifest m) = Ok tt -> mf_status m = "ready" ->
  (forall mapping, mapping ∈ manifest_mappings id s (mf_manifest m) ->
     is_Some (snapshot_chunks db !! mapping.2)) ->
  tables_ok (mapped id now (manifest_mappings id s (mf_manifest m))
               (set_snapshot_manifests (<[id := m]> (snapshot_manifests db)) db)).
Proof.
  intros Ht Hnew Hs Hw Hv Hst HL. set (m0 := with_status "uploading" None m).
  set (f := with_status "ready" (mf_committed_at m)).
  assert (f m0 = m) as Hf by (destruct m; simpl in *; by subst).
  assert (tables_ok (set_snapshot_manifests (<[id := m0]> (snapshot_manifests db)) db)) as Ht0.
  { by eapply tables_new_manifest. }
  eapply (tables_commit _ id m0 s now (mf_committed_at m)) in Ht0;
    [|by simpl; rewrite lookup_insert_eq|done|done|done].
  assert (forall L, alter_manifest f id (mapped id now L
            (set_snapshot_manifests (<[id := m0]> (snapshot_manifests db)) db))
          = mapped id now L (set_snapshot_manifests (<[id := m]> (snapshot_manifests db)) db)) as Heq.
  { intros L. destruct L; unfold alter_manifest; simpl; rewrite alter_insert_eq, Hf; done. }
  rewrite <- Heq. exact Ht0.
Qed.

Lemma create_ready_manifest_ok p u s files st :
  wide (scope_id s) -> ok st.2 ->
  hwp ok henv (create_ready_manifest p u s files) (fun _ st' => ok st'.2) st.
Proof.
  destruct st as [n w]. intros Hw Hok. unfold create_ready_manifest.
  apply hwp_bind, hwp_hlift; [done|]. intros total Htotal. apply hwp_bind, hwp_hlift; [done|].
  intros [] Hv. apply hwp_bind, hwp_utc_now. intros now. apply hwp_transaction; [done|].
  unfold insert_ready_manifest, put_manifest. wp_steps.
  destruct (bool_decide _) eqn:Hnew in H; [done|].
  apply bool_decide_eq_false in Hnew. apply eq_None_not_Some in Hnew.
  apply wp_add_mappings. intros HL. wp_steps. destruct Hok as [Ht Hc]. simpl in *. split; simpl.
  - match goal with |- tables_ok (mapped _ _ (manifest_mappings ?i _ _)
        (set_snapshot_manifests (<[_ := ?m]> _) _)) =>
      exact (tables_new_ready (w_db w) i m s _ Ht Hnew (row_scope_of m s eq_refl eq_refl) Hw Hv eq_refl HL)
    end.
  - match goal with |- contents_ok _ {| w_db := mapped ?i ?t ?L ?d; w_objects := _ |} =>
      exact (contents_mapped {| w_db := d; w_objects := w_objects w |} i t L Hc)
    end.
Qed.

Lemma merge_ok u p request st :
  ok st.2 -> hwp ok henv (apply_project_merge u p request) (fun _ st' => ok st'.2) st.
Proof.
  destruct st as [n w]. intros Hok. unfold apply_project_merge.
  apply hwp_bind, hwp_frame; [done|auto with store|]. intros _ w1 Hok1 _ _.
  apply hwp_bind, hwp_require_store; [done|]. intros mk ->%(ho_master _ Henv).
  apply hwp_bind, hwp_frame; [done|auto with store|]. intros [[base current] result] w2 Hok2 _ _.
  apply hwp_bind, hwp_reads; [apply analyze_merge_reads|done|]. intros analysis n3.
  apply hwp_bind, hwp_hlift; [done|]. intros resolutions _. apply hwp_bind, hwp_tables.
  apply hwp_bind, hwp_hlift; [done|]. intros row Hrow.
  apply hwp_bind, hwp_hlift; [done|]. intros s Hs.
  assert (wide (scope_id s)) as Hw.
  { eapply manifest_scope_wide; [done| |done].
    unfold ok_or in Hrow. destruct (_ !! _) eqn:Hm; [|done]. by injection Hrow as ->. }
  apply hwp_bind. eapply hwp_mono; [by apply merge_files_ok|]. intros output st4 Hok4.
  apply hwp_bind. eapply hwp_mono; [by apply create_ready_manifest_ok|]. intros id [n5 w5] Hok5.
  apply hwp_frame; [done|auto with store|]. by intros v w6 Hok6.
Qed.

(** ** Versions and executors *)

(** Two transactions that leave snapshots alone. *)
Lemma two_frames_ok {A B} (m1 : Tx A) (m2 : Tx B) st :
  frames storage_frame m1 -> frames storage_frame m2 -> ok st.2 ->
  hwp ok henv (_ ← transaction m1; transaction m2) (fun _ st' => ok st'.2) st.
Proof.
  destruct st as [n w]. intros H1 H2 Hok. apply hwp_bind, hwp_frame; [done|done|].
  intros _ w1 Hok1 _ _. by apply hwp_frame.
Qed.

Lemma create_version_ok u p request st :
  ok st.2 -> hwp ok henv (create_project_version u p request) (fun _ st' => ok st'.2) st.
Proof. apply two_frames_ok; auto with store. Qed.

Lemma apply_version_ok u p v request st :
  ok st.2 -> hwp ok henv (apply_project_version u p v request) (fun _ st' => ok st'.2) st.
Proof. apply two_frames_ok; auto with store. Qed.

(** What an executor does for its leased run. *)
Lemma executor_run_ok principal e r token n w (Q : RunSpec -> nat * World -> Prop) :
  ok w -> (forall spec n' w', ok w' -> Q spec (n', w')) ->
  hwp ok henv (executor_run principal e r token) Q (n, w).
Proof.
  intros Hok HQ. unfold executor_run. apply hwp_bind, hwp_hlift; [done|]. intros [] _.
  apply hwp_frame; [done|auto with store|]. intros spec w' Hok' _ _. by apply HQ.
Qed.

Lemma executor_begin_ok principal e r token request st :
  ok st.2 ->
  hwp ok henv (begin_executor_run_result_snapshot principal e r token request) (fun _ st' => ok st'.2) st.
Proof.
  destruct st as [n w]. intros Hok. unfold begin_executor_run_result_snapshot.
  apply hwp_bind, executor_run_ok; [done|]. intros spec n1 w1 Hok1.
  apply hwp_bind, hwp_hlift; [done|]. intros [] _. by apply begin_ok.
Qed.

Lemma executor_upload_ok principal e r id digest body token st :
  ok st.2 ->
  hwp ok henv (upload_executor_run_result_chunk principal e r id digest body token)
    (fun _ st' => ok st'.2) st.
Proof.
  destruct st as [n w]. intros Hok. unfold upload_executor_run_result_chunk.
  apply hwp_bind, executor_run_ok; [done|]. intros spec n1 w1 Hok1.
  apply hwp_bind, hwp_frame; [done|auto with store|]. intros [] w2 Hok2 _ _. by apply upload_ok.
Qed.

Lemma executor_commit_ok caps principal e r id token st :
  ok st.2 ->
  hwp ok henv (commit_executor_run_result_snapshot caps principal e r id token)
    (fun _ st' => ok st'.2) st.
Proof.
  destruct st as [n w]. intros Hok. unfold commit_executor_run_result_snapshot.
  apply hwp_bind, executor_run_ok; [done|]. intros spec n1 w1 Hok1.
  apply hwp_bind, hwp_frame; [done|auto with store|]. intros [] w2 Hok2 _ _. by apply commit_ok.
Qed.
End handlers.

(** ** The transition system *)

Section system.
Context {crypto : StorageCrypto} {lib : MergeLib} (master : string).

(** The handlers that write, each run to its end under some environment; anything else the
    server does leaves the snapshot tables and the objects of chunks alone. A collection needs
    requests that fail without effect. *)
Inductive storage_step : World -> World -> Prop :=
| step_begin henv u request source w : henv_ok master henv ->
    storage_step w (run_handler henv w (begin_snapshot_upload_for u request source)).1
| step_upload henv u id digest body w : henv_ok master henv ->
    storage_step w (run_handler henv w (upload_snapshot_chunk u id digest body)).1
| step_commit henv caps u id w : henv_ok master henv ->
    storage_step w (run_handler henv w (commit_snapshot caps u id)).1
| step_delete henv u id w : henv_ok master henv ->
    storage_step w (run_handler henv w (delete_snapshot u id)).1
| step_collect henv limit w : henv_ok master henv -> certain henv ->
    storage_step w (run_handler henv w (garbage_collect limit)).1
| step_create_version henv u p request w : henv_ok master henv ->
    storage_step w (run_handler henv w (create_project_version u p request)).1
| step_apply_version henv u p v request w : henv_ok master henv ->
    storage_step w (run_handler henv w (apply_project_version u p v request)).1
| step_merge henv u p request w : henv_ok master henv ->
    storage_step w (run_handler henv w (apply_project_merge u p request)).1
| step_executor_begin henv principal e r token request w : henv_ok master henv ->
    storage_step w
      (run_handler henv w (begin_executor_run_result_snapshot principal e r token request)).1
| step_executor_upload henv principal e r id digest body token w : henv_ok master henv ->
    storage_step w
      (run_handler henv w (upload_executor_run_result_chunk principal e r id digest body token)).1
| step_executor_commit henv caps principal e r id token w : henv_ok master henv ->
    storage_step w
      (run_handler henv w (commit_executor_run_result_snapshot caps principal e r id token)).1
| step_other w w' : aside w w' -> storage_step w w'.

(** Storage before its first snapshot. *)
Record no_snapshots (w : World) : Prop := {
  ns_manifests : snapshot_manifests (w_db w) = ∅;
  ns_chunks : snapshot_chunks (w_db w) = ∅;
  ns_mappings : snapshot_manifest_chunks (w_db w) = ∅;
  ns_reservations : snapshot_chunk_reservations (w_db w) = ∅;
  ns_projects : wide_projects (w_db w);
}.

Definition storage_reachable (w : World) : Prop :=
  exists w0, no_snapshots w0 /\ rtc storage_step w0 w.

Lemma no_snapshots_ok w : no_snapshots w -> storage_ok master w.
Proof.
  intros [Hm Hc Hp Hr Hw]. split; [split; [split|..|done]|].
  - intros key row. by rewrite Hc, lookup_empty.
  - intros k key. by rewrite Hp, lookup_empty.
  - intros k key. by rewrite Hp, lookup_empty.
  - intros id key. rewrite Hr. by intros ?%not_elem_of_empty.
  - intros id m. by rewrite Hm, lookup_empty.
  - intros key row. by rewrite Hc, lookup_empty.
Qed.

Lemma storage_step_ok {laws : CryptoLaws} w w' :
  storage_step w w' -> storage_ok master w -> storage_ok master w'.
Proof.
  intros Hstep Hok. destruct Hstep; [apply hwp_run..|by eapply aside_ok].
  - by apply begin_ok.
  - by apply upload_ok.
  - by apply commit_ok.
  - by apply delete_ok.
  - by apply gc_ok.
  - by apply create_version_ok.
  - by apply apply_version_ok.
  - by apply merge_ok.
  - by apply executor_begin_ok.
  - by apply executor_upload_ok.
  - by apply executor_commit_ok.
Qed.

Lemma storage_reachable_ok {laws : CryptoLaws} w : storage_reachable w -> storage_ok master w.
Proof.
  intros (w0 & H0 & Hsteps). apply no_snapshots_ok in H0. induction Hsteps; [done|].
  by eauto using storage_step_ok.
Qed.
End system.
