(* ===== verification/StorageCollection.v ===== *)
(** * Garbage collection removes what nothing uses

    A collection whose requests are answered succeeds, and a chunk without mappings and
    reservations loses its row and its object. *)

From stdpp Require Import gmap.
From S2P Require Import Prelude.
From S2P Require Import Text.
From S2P Require Import Json.
From S2P Require Import Contracts.
From S2P Require Import Store.
From S2P Require Import RunStore.
From S2P Require Import ObjectStore.
From S2P Require Import Snapshots.
From S2P Require Import SnapshotMerge.
From S2P Require Import StorageSafety.
From S2P Require Import StorageSystem.

Import Snapshots Merge.

(** Nothing uses the chunk, whose object is [object]. *)
Definition unused (key : ChunkKey) (object : string) (db : Db) : Prop :=
  exists row, snapshot_chunks db !! key = Some row /\ ck_object_key row = object
    /\ references db key = 0%nat /\ forall id, (id, key) ∉ snapshot_chunk_reservations db.

Definition chunk_count (db : Db) : nat := size (snapshot_chunks db).

Lemma unused_references key object db id :
  unused key object db -> manifest_references db id key = 0%Z.
Proof.
  intros (row & _ & _ & Hz & _). rewrite (manifest_references_split db id) in Hz.
  pose proof (manifest_references_nonneg db id key). lia.
Qed.

Lemma unused_expire_upload key object id db :
  unused key object db ->
  unused key object (alter_manifest (fun m => if String.eqb (mf_status m) "uploading"
                                              then keep_committed "expired" m else m) id
                       (delete_reservations id db)).
Proof.
  intros (row & Hr & Ho & Hz & Hres). exists row. split_and!; try done.
  intros id' [_ Hin]%elem_of_filter. by apply (Hres id').
Qed.

Lemma unused_expire_manifest key object id now db :
  unused key object db ->
  unused key object (alter_manifest (keep_committed "expired") id (released id now db)).
Proof.
  intros Hu. pose proof (unused_references _ _ _ id Hu) as Hz'. destruct Hu as (row & Hr & Ho & Hz & Hres).
  exists row. split_and!; try done.
  - change (snapshot_chunks (update_references (fun refs count => Z.max (refs - count) 0) id now db) !! key
            = Some row).
    by rewrite update_references_lookup, Hr, Hz'.
  - unfold references in *. simpl. rewrite map_filter_filter. apply map_size_empty_iff in Hz.
    apply map_size_empty_iff, map_empty_filter. intros k x Hk [Hx _]. simpl in Hx.
    eapply (map_filter_empty_not_lookup _ _ k x) in Hz; [by apply Hz|done].
Qed.

Lemma update_references_size f id now db :
  chunk_count (update_references f id now db) = chunk_count db.
Proof.
  unfold chunk_count. rewrite <- !size_dom. f_equal. apply set_eq. intros key.
  rewrite !elem_of_dom, update_references_lookup. apply fmap_is_Some.
Qed.

Section collection.
Context {crypto : StorageCrypto} {laws : CryptoLaws} (master : string).
Context (henv : HandlerEnv) (Hanswered : forall n, h_request henv n = Answered).

Abbreviation ok := (storage_ok master).

Lemma hwp_result {A} I (m : Handler A) (Q : A -> nat * World -> Prop) st st' a :
  m henv st = (st', Ok a) -> hwp I henv m Q st -> Q a st'.
Proof. unfold hwp. by intros ->. Qed.

(** What holds until the chunks are marked. *)
Definition waiting (key : ChunkKey) (object : string) (limit : Z) (w : World) : Prop :=
  ok w /\ unused key object (w_db w) /\ (chunk_count (w_db w) ≤ Z.to_nat (clamp 1 1000 limit))%nat.

Lemma expire_upload_waiting key object limit id st :
  waiting key object limit st.2 ->
  hwp (fun _ => False) henv (transaction (expire_upload id)) (fun _ st' => waiting key object limit st'.2) st.
Proof.
  destruct st as [n w]. intros (Hok & Hu & Hc). unfold hwp. simpl. split_and!; [| |done].
  - exact (hwp_result _ _ _ (n, w) _ tt eq_refl (expire_upload_ok master henv id (n, w) Hok)).
  - by apply unused_expire_upload.
Qed.

Lemma expire_manifest_waiting key object limit id st :
  waiting key object limit st.2 ->
  hwp (fun _ => False) henv (expire_manifest id) (fun _ st' => waiting key object limit st'.2) st.
Proof.
  destruct st as [n w]. intros (Hok & Hu & Hc). unfold hwp. simpl. split_and!.
  - exact (hwp_result _ _ _ (n, w) _ tt eq_refl (expire_manifest_ok master henv id (n, w) Hok)).
  - by apply unused_expire_manifest.
  - etrans; [|exact Hc]. apply Nat.eq_le_incl, update_references_size.
Qed.

(** The limit covers every chunk, so the unused one is marked. *)
Lemma selection_all locked limit key object w :
  waiting key object limit w -> locked key = false ->
  exists row, (key, row) ∈ selection locked limit (w_db w) /\ ck_object_key row = object.
Proof.
  intros ([Ht Hc] & (row & Hr & Ho & Hz & Hres) & Hn) Hl. exists row. split; [|done].
  unfold selection. rewrite take_ge.
  - rewrite (merge_sort_Permutation last_use_before). apply list_elem_of_filter.
    split; [|by apply elem_of_map_to_list]. unfold collectable. simpl.
    destruct (Hc _ _ Hr) as [Hst _]. rewrite Hst, Hl, !andb_true_iff, !negb_true_iff.
    split_and!; try done.
    + apply Z.eqb_eq. by rewrite (ro_count _ (to_refs _ Ht) _ _ Hr), Hz.
    + apply not_true_is_false. intros ([id k] & Hin & Hk%bool_decide_eq_true)%existsb_exists. simpl in Hk.
      subst k. apply list_elem_of_In, elem_of_elements in Hin. by apply (Hres id).
  - rewrite (merge_sort_Permutation last_use_before). etrans; [apply length_filter|].
    by rewrite length_map_to_list.
Qed.

(** A marked chunk's object is deleted, then its row. *)
Lemma collect_chunk_run deleted kv rest n w :
  collecting master (kv :: rest) w ->
  exists n' w', collect_chunk deleted kv henv (n, w) = ((n', w'), Ok (S deleted))
    /\ collecting master rest w'
    /\ snapshot_chunks (w_db w') = delete kv.1 (snapshot_chunks (w_db w))
    /\ w_objects w' = delete (ck_object_key kv.2) (w_objects w).
Proof.
  intros Hco. set (gone := {| w_db := w_db w; w_objects := delete (ck_object_key kv.2) (w_objects w) |}).
  assert (exists s, delete_chunk_row kv.1 (h_env henv (S n)) (MkTx (w_db w) 0) = Ok (tt, s)
            /\ snapshot_chunks (tx_db s) = delete kv.1 (snapshot_chunks (w_db w))) as (s & Hrun & Hdel).
  { destruct (snapshot_chunks (w_db w) !! kv.1) as [row|] eqn:Hrow.
    - destruct (co_rows _ _ _ Hco _ _ Hrow) as [_ Hst]. rewrite decide_True in Hst by left.
      destruct Hst as (Hst & Hzero & _). eexists.
      split; [exact (delete_chunk_row_run _ (MkTx (w_db w) 0) _ row (co_tables _ _ _ Hco) Hrow Hzero Hst)|].
      done.
    - exists (MkTx (w_db w) 0). split; [|simpl; by rewrite delete_id].
      unfold delete_chunk_row. rewrite (tx_bind_run _ get_db _ _ (MkTx (w_db w) 0) (w_db w)) by done.
      by rewrite Hrow. }
  assert (transaction (delete_chunk_row kv.1) henv (S n, gone)
          = ((S (S n), {| w_db := tx_db s; w_objects := w_objects gone |}), Ok tt)) as Htx.
  { unfold transaction, run_tx. simpl. by rewrite Hrun. }
  exists (S (S n)), {| w_db := tx_db s; w_objects := w_objects gone |}. split_and!; [| |done|done].
  - unfold collect_chunk, attempt, delete_object, change_objects, mbind, handler_bind.
    rewrite Hanswered. cbv zeta. fold gone. by rewrite Htx.
  - pose proof (collecting_deleted master henv kv rest (S n) w
      (fun _ st => collecting master rest st.2) Hco (fun _ _ H => H)) as Hpost.
    by apply (hwp_result _ _ _ _ _ _ Htx) in Hpost.
Qed.

Lemma collect_chunks_run deleted pending n w :
  collecting master pending w ->
  exists n' w' k, collect_chunks deleted pending henv (n, w) = ((n', w'), Ok k)
    /\ (forall key, snapshot_chunks (w_db w) !! key = None -> snapshot_chunks (w_db w') !! key = None)
    /\ (forall o, w_objects w !! o = None -> w_objects w' !! o = None)
    /\ (forall key row, (key, row) ∈ pending ->
          snapshot_chunks (w_db w') !! key = None /\ w_objects w' !! ck_object_key row = None).
Proof.
  revert deleted n w. induction pending as [|kv pending IH]; intros deleted n w Hco.
  { exists n, w, deleted. split_and!; [done..|]. by intros ?? ?%elem_of_nil. }
  destruct (collect_chunk_run deleted kv pending n w Hco) as (n1 & w1 & Hrun & Hco1 & Hch & Hob).
  destruct (IH (S deleted) n1 w1 Hco1) as (n2 & w2 & k & Hrun2 & Hkeys & Hobs & Hgone).
  exists n2, w2, k. split_and!.
  - cbn [collect_chunks]. unfold mbind, handler_bind. rewrite Hrun. exact Hrun2.
  - intros key Hnone. apply Hkeys. rewrite Hch. apply lookup_delete_None. by right.
  - intros o Hnone. apply Hobs. rewrite Hob. apply lookup_delete_None. by right.
  - intros key row [<-|Hin]%elem_of_cons; [|by apply Hgone].
    split; [apply Hkeys; by rewrite Hch, lookup_delete_eq|apply Hobs; by rewrite Hob, lookup_delete_eq].
Qed.

Lemma collection_run key object limit w :
  waiting key object limit w -> h_chunk_locked henv key = false ->
  exists w' k, run_handler henv w (garbage_collect limit) = (w', Ok k)
    /\ snapshot_chunks (w_db w') !! key = None /\ w_objects w' !! object = None.
Proof.
  intros Hwait Hl.
  assert (hwp (fun _ => False) henv (garbage_collect limit)
            (fun _ st => snapshot_chunks (w_db st.2) !! key = None /\ w_objects st.2 !! object = None)
            (0%nat, w)) as Hpost.
  { unfold garbage_collect. apply hwp_bind. unfold hwp at 1. simpl.
    destruct w as [db objects]. apply hwp_bind.
    eapply hwp_mono; [apply (hwp_iter _ henv _ (fun st => waiting key object limit st.2)); [|done]|].
    { intros id st _. apply expire_upload_waiting. }
    intros [] [n2 [db2 objects2]] Hwait2. apply hwp_bind. unfold hwp at 1. simpl. apply hwp_bind.
    eapply hwp_mono; [apply (hwp_iter _ henv _ (fun st => waiting key object limit st.2)); [|done]|].
    { intros id st _. apply expire_manifest_waiting. }
    intros [] [n4 w4] Hwait4. apply hwp_bind, hwp_handler_env, hwp_bind.
    destruct (selection_all (h_chunk_locked henv) limit key object w4 Hwait4 Hl) as (row & Hin & Ho).
    destruct Hwait4 as [Hok4 _].
    pose proof (mark_ok master henv (h_chunk_locked henv) limit n4 w4 Hok4) as Hmark.
    unfold hwp at 1. unfold hwp in Hmark. simpl in Hmark |- *.
    change (take _ _) with (selection (h_chunk_locked henv) limit (w_db w4)) in Hmark |- *.
    destruct (collect_chunks_run 0 _ (S n4) _ Hmark) as (n5 & w5 & k & Hrun & _ & _ & Hgone).
    unfold hwp. simpl in Hrun. rewrite Hrun. rewrite <- Ho. by apply Hgone. }
  unfold run_handler. unfold hwp in Hpost.
  destruct (garbage_collect limit henv (0%nat, w)) as [[n' w'] [k|e]]; [|done]. by exists w', k.
Qed.
End collection.
