(* ===== verification/SnapshotProperties.v ===== *)
(** * Theorems about snapshot storage

    Ready snapshots can be read, reference counts are exact, declared paths are safe,
    collection removes exactly what nothing uses; and two ways in which a chunk is lost. *)

From stdpp Require Import gmap.
From S2P Require Import Prelude.
From S2P Require Import Text.
From S2P Require Import Json.
From S2P Require Import Contracts.
From S2P Require Import Store.
From S2P Require Import Governance.
From S2P Require Import RunStore.
From S2P Require Import Organization.
From S2P Require Import ObjectStore.
From S2P Require Import Snapshots.
From S2P Require Import SnapshotMerge.
From S2P Require Import StorageSafety.
From S2P Require Import SnapshotReading.
From S2P Require Import StorageSystem.
From S2P Require Import StorageCollection.

Import Organization Snapshots Merge.

(** ** Helper lemmas *)

Lemma accessible_manifest_run env u id role db db' m :
  run_tx env db (accessible_manifest u id role) = (db', Ok m) ->
  snapshot_manifests db !! id = Some m /\ storage_frame db db'.
Proof.
  intros Hrun.
  assert (wp env (accessible_manifest u id role)
            (fun m st => snapshot_manifests db !! id = Some m /\ storage_frame db (tx_db st)) (MkTx db 0)) as Hwp.
  { unfold accessible_manifest. wp_steps.
    eapply wp_mono; [apply (ensure_project_role_storage u (mf_project_id a) role)|].
    intros r st Hf. wp_steps. done. }
  unfold run_tx, wp in *. destruct (accessible_manifest u id role env (MkTx db 0)) as [[m' st]|e]; [|done].
  by injection Hrun as <- <-.
Qed.

Lemma declared_digest m f c :
  files_ok (mf_total_bytes m) (mf_manifest m) -> f ∈ mf_manifest m -> c ∈ uf_chunks f ->
  validate_digest (uc_digest c) = Ok tt.
Proof.
  intros [Hf _ _ _] Hin Hc. rewrite Forall_forall in Hf. destruct (Hf _ Hin) as (_ & Hcs & _).
  rewrite Forall_forall in Hcs. apply (Hcs _ Hc).
Qed.

Section properties.
Context {crypto : StorageCrypto} {laws : CryptoLaws} {lib : MergeLib} (master : string).

Lemma download_runs henv w db u id m s f c :
  storage_ok master w -> snapshot_manifests (w_db w) !! id = Some m -> mf_status m = "ready" ->
  row_scope m = Ok s -> files_ok (mf_total_bytes m) (mf_manifest m) ->
  (forall path i, snapshot_manifest_chunks (w_db w) !! (id, path, i) = declared id s m !! (id, path, i)) ->
  f ∈ mf_manifest m -> c ∈ uf_chunks f ->
  h_master_key henv = Some master -> (forall n, h_request henv n = Answered) ->
  run_tx (h_env henv 0) (w_db w) (accessible_manifest u id Viewer) = (db, Ok m) ->
  exists bytes, run_handler henv w (download_snapshot_chunk u id (uc_digest c))
                = ({| w_db := db; w_objects := w_objects w |}, Ok bytes)
    /\ hex_digest bytes = uc_digest c.
Proof.
  intros Hok Hm Hst Hs Hfiles Hmap Hf Hc Hkey Hreq Hrun.
  destruct (accessible_manifest_run _ _ _ _ _ _ _ Hrun) as [_ Hframe].
  pose proof (storage_frame_ok _ _ _ Hok Hframe) as Hok1. set (w1 := {| w_db := db; w_objects := w_objects w |}) in *.
  assert (forall path i, snapshot_manifest_chunks (w_db w1) !! (id, path, i) = declared id s m !! (id, path, i))
    as Hmap1 by (intros; change (w_db w1) with db; by rewrite (sf_mappings_eq _ _ Hframe)).
  destruct (mapped_chunk_found master w1 id m s f c) as (row & Hrow & Hlookup); [done|done|apply Hfiles|done..|].
  destruct (so_contents _ _ Hok1 _ _ Hlookup) as [_ Hchunk].
  destruct (decrypt_found master henv 1 w1 m id (uc_digest c) s row) as (bytes & Hd & Hh); try done.
  exists bytes. split; [|done].
  assert (transaction (accessible_manifest u id Viewer) henv (0%nat, w) = ((1%nat, w1), Ok m)) as Htx.
  { unfold transaction. by rewrite Hrun. }
  unfold run_handler, download_snapshot_chunk, require_store, hlift, mbind, handler_bind.
  rewrite Hkey, (declared_digest m f c) by done. cbn [ok_or]. rewrite Htx.
  unfold ensure_ready. rewrite Hst, (proj2 (guard_err_Ok _ _ tt)) by done.
  by rewrite Hd.
Qed.

(** ** The theorems *)

(** C27: Every ready snapshot can be read. Whatever sequence of storage handlers ran, each
    to its end (refused, stopped by an error of a request or a transaction, or successful), and
    as long as every deletion of a collection was answered or refused: a ready manifest lists
    each declared file with the digests of its chunks in order, and each declared chunk
    downloads while the bucket answers, for a user who may read the project, to bytes of its
    SHA-256 digest. [unanswered_deletion_loses_chunk] and
    [interrupted_deletion_empties_snapshot] show that both conditions are needed. *)
Theorem ready_snapshot_is_readable w id m :
  storage_reachable master w -> snapshot_manifests (w_db w) !! id = Some m -> mf_status m = "ready" ->
  Forall2 reads_back (mf_manifest m) (sm_files (snapshot_from_row (w_db w) id m))
  /\ forall f c u henv db,
       f ∈ mf_manifest m -> c ∈ uf_chunks f ->
       h_master_key henv = Some master -> (forall n, h_request henv n = Answered) ->
       run_tx (h_env henv 0) (w_db w) (accessible_manifest u id Viewer) = (db, Ok m) ->
       exists bytes, run_handler henv w (download_snapshot_chunk u id (uc_digest c))
                     = ({| w_db := db; w_objects := w_objects w |}, Ok bytes)
         /\ hex_digest bytes = uc_digest c.
Proof.
  intros Hr Hm Hst. pose proof (storage_reachable_ok master w Hr) as Hok.
  destruct (ready_manifest _ _ _ (so_tables _ _ Hok) Hm Hst) as (s & Hs & Hfiles & Hmap). split.
  - simpl. eapply (snapshot_files_read _ _ m s); [apply Hok|apply Hfiles|done|apply Hfiles|].
    apply Forall_forall. intros f Hf. split; [done|]. apply not_elem_of_nil.
  - intros f c u henv db Hf Hc Hkey Hreq Hrun. by eapply download_runs.
Qed.

(** C28: Reference counts are exact. In every state that handlers run to their end can reach
    (with deletions of collections answered or refused), the count of a chunk is the number of
    mappings to it, mappings and reservations name ready chunks, and only a ready manifest has
    mappings. *)
Theorem reference_counts_are_exact w :
  storage_reachable master w ->
  (forall key row, snapshot_chunks (w_db w) !! key = Some row ->
     ck_ref_count row = Z.of_nat (references (w_db w) key))
  /\ (forall k key, snapshot_manifest_chunks (w_db w) !! k = Some key ->
        exists row m, snapshot_chunks (w_db w) !! key = Some row /\ ck_status row = "ready"
          /\ snapshot_manifests (w_db w) !! k.1.1 = Some m /\ mf_status m = "ready")
  /\ (forall id key, (id, key) ∈ snapshot_chunk_reservations (w_db w) ->
        exists row, snapshot_chunks (w_db w) !! key = Some row /\ ck_status row = "ready").
Proof.
  intros Hr. destruct (storage_reachable_ok master w Hr) as [[[R1 R2 R3 R4] M P] Hc]. split_and!; [done| |].
  - intros k key Hk. destruct (R2 _ _ Hk) as [row Hrow], (R3 _ _ Hk) as [m Hm].
    exists row, m. split_and!; [done|by apply (Hc _ _ Hrow)|done|].
    destruct k as [[id path] i]. destruct (M _ _ Hm) as (s & _ & _ & _ & Hmap). simpl in *.
    rewrite Hmap in Hk. destruct (String.eqb (mf_status m) "ready") eqn:Hst; [|done].
    by apply String.eqb_eq.
  - intros id key Hin. destruct (R4 _ _ Hin) as [row Hrow]. exists row. split; [done|].
    by apply (Hc _ _ Hrow).
Qed.

(** C32: Every manifest in a reachable database, whatever its status, declares distinct
    relative paths without parent components, chunks within the size limit whose sizes add up
    to those of their files, and files whose sizes add up to its total, which is within the
    limit. *)
Theorem manifests_are_well_formed w id m :
  storage_reachable master w -> snapshot_manifests (w_db w) !! id = Some m ->
  files_ok (mf_total_bytes m) (mf_manifest m).
Proof.
  intros Hr Hm. pose proof (storage_reachable_ok master w Hr) as Hok.
  destruct (to_manifests _ (so_tables _ _ Hok) _ _ Hm) as (s & _ & _ & Hv & _).
  by apply validate_snapshot_files_Ok.
Qed.

(** C30: Collection terminates successfully and removes what nothing uses: in a reachable
    state, when the bucket answers and the limit covers the stored chunks, a chunk without
    mappings, reservations and locks has neither a row nor an object afterwards. *)
Theorem unused_chunks_are_collected w henv limit key row :
  storage_reachable master w -> (forall n, h_request henv n = Answered) ->
  snapshot_chunks (w_db w) !! key = Some row ->
  references (w_db w) key = 0%nat ->
  (forall id, (id, key) ∉ snapshot_chunk_reservations (w_db w)) ->
  h_chunk_locked henv key = false ->
  (size (snapshot_chunks (w_db w)) ≤ Z.to_nat (clamp 1 1000 limit))%nat ->
  exists w' deleted, run_handler henv w (garbage_collect limit) = (w', Ok deleted)
    /\ snapshot_chunks (w_db w') !! key = None /\ w_objects w' !! ck_object_key row = None.
Proof.
  intros Hr Hreq Hrow Hz Hres Hl Hn. pose proof (storage_reachable_ok master w Hr) as Hok.
  apply (collection_run master); [done| |done]. split_and!; [done| |done]. by exists row.
Qed.

(** C34: A lost answer loses a chunk. When the bucket carries out a DELETE of the collector
    whose answer does not arrive, the chunk's row becomes ready again although its object is
    gone, so later uploads of the digest are answered as duplicates of it. *)
Theorem unanswered_deletion_loses_chunk henv n w s digest row deleted :
  snapshot_chunks (w_db w) !! chunk_key s digest = Some row -> ck_status row = "deleting" ->
  h_request henv n = Unanswered ->
  let w' := (collect_chunk deleted (chunk_key s digest, row) henv (n, w)).1.2 in
  w_objects w' !! ck_object_key row = None
  /\ exists row', ready_chunk (w_db w') s digest = Some row' /\ ck_object_key row' = ck_object_key row
       /\ forall manifest_id env, exists receipt st,
            reserve_stored manifest_id s digest env (MkTx (w_db w') 0) = Ok (Some receipt, st)
            /\ cr_deduplicated receipt = true.
Proof.
  intros Hrow Hst Hreq. unfold collect_chunk, attempt, delete_object, change_objects, mbind, handler_bind.
  rewrite Hreq. simpl. rewrite lookup_delete_eq. split; [done|].
  match goal with |- exists row', ready_chunk ?db _ _ = _ /\ _ =>
    assert (ready_chunk db s digest = Some (with_chunk_status "ready" row)) as Hready end.
  { unfold ready_chunk. simpl. unfold update_where. rewrite map_lookup_imap, Hrow. simpl.
    by rewrite Hst, !String.eqb_refl. }
  exists (with_chunk_status "ready" row). split_and!; [done|done|]. intros manifest_id env.
  unfold reserve_stored. eexists _, _. split.
  - rewrite (tx_bind_run env get_db _ _ (MkTx _ 0) _) by done. simpl. rewrite Hready. done.
  - done.
Qed.

(** C33: Collection races with uploads. The collector takes no lock on a digest: when it has
    marked a chunk, an upload of the same digest finds no ready chunk and writes the object
    anew; the collector then deletes that object and the old row, and the upload inserts its
    row. Every step succeeds, and the new row has no object. *)
Theorem collection_races_with_upload henv n1 n2 n3 n4 w1 w2 w3 w4 s digest body id row put deleted receipt :
  snapshot_chunks (w_db w1) !! chunk_key s digest = Some row -> ck_status row = "deleting" ->
  ck_object_key row = chunk_object_key s digest ->
  put_encrypted master s digest body henv (n1, w1) = ((n2, w2), Ok put) ->
  h_request henv n2 = Answered ->
  collect_chunk 0 (chunk_key s digest, row) henv (n2, w2) = ((n3, w3), Ok deleted) ->
  transaction (store_chunk id s digest body put.1 put.2) henv (n3, w3) = ((n4, w4), Ok receipt) ->
  ready_chunk (w_db w1) s digest = None
  /\ exists row', ready_chunk (w_db w4) s digest = Some row' /\ w_objects w4 !! ck_object_key row' = None.
Proof.
  intros Hrow Hst Hobj Hput Hreq Hcollect Hstore. split.
  { unfold ready_chunk. rewrite Hrow, Hst. done. }
  assert (put.1 = chunk_object_key s digest) as Hkey.
  { unfold put_encrypted, random_bytes, hlift, change_objects, mbind, handler_bind in Hput.
    destruct (h_random henv n1) as [r|]; [|done]. simpl in Hput.
    destruct (encrypt master r s body) as [e|]; [|done].
    destruct (h_request henv (S n1)); [|done..]. by injection Hput as <- <- <-. }
  assert (w_objects w3 !! chunk_object_key s digest = None) as Hgone.
  { unfold collect_chunk, attempt, delete_object, change_objects, transaction, mbind, handler_bind in Hcollect.
    rewrite Hreq in Hcollect. cbv zeta in Hcollect. cbn [snd w_db w_objects] in Hcollect.
    destruct (run_tx _ _ _) as [db [u|e]] in Hcollect; [|done]. injection Hcollect as <- <- <-.
    simpl. rewrite Hobj. apply lookup_delete_eq. }
  unfold transaction in Hstore. destruct (run_tx _ _ _) as [db [r|e]] eqn:Hrun; [|done]. simplify_eq. simpl.
  assert (wp (h_env henv n3) (store_chunk id s digest body put.1 put.2)
            (fun _ st => exists row', ready_chunk (tx_db st) s digest = Some row' /\ ck_object_key row' = put.1)
            (MkTx (w_db w3) 0)) as Hwp.
  { unfold store_chunk, insert_chunk, insert_chunk_reservation. wp_steps. unfold when.
    destruct (negb _); wp_steps; unfold ready_chunk; simpl; rewrite lookup_insert_eq; eauto. }
  unfold wp, run_tx in *. destruct (store_chunk _ _ _ _ _ _ _ _) as [[r' st]|e]; [|done].
  injection Hrun as <- _. destruct Hwp as (row' & Hr & Ho). exists row'. split; [done|].
  by rewrite Ho, Hkey.
Qed.

(** ** Interrupted handlers *)

(** A chunk a collector marked and then left: no later collection takes it, and an upload of
    its digest fails on the row. *)
Lemma marked_chunk_blocks_uploads env st s digest row locked object size e :
  snapshot_chunks (tx_db st) !! chunk_key s digest = Some row -> ck_status row = "deleting" ->
  collectable locked (tx_db st) (chunk_key s digest) row = false
  /\ ready_chunk (tx_db st) s digest = None
  /\ insert_chunk s digest object size e env st
     = Err (Database (UniqueViolation "snapshot_chunks_pkey")).
Proof.
  intros Hrow Hst. split_and!.
  - unfold collectable. by rewrite Hst, andb_false_r.
  - unfold ready_chunk. by rewrite Hrow, Hst.
  - unfold insert_chunk, mbind, tx_bind. simpl. rewrite Hrow. done.
Qed.

(** A deletion that stops after its first transaction: the snapshot is ready, and its files
    are listed without chunks. *)
Lemma interrupted_deletion_empties_snapshot db id m now :
  snapshot_manifests db !! id = Some m -> mf_status m = "ready" ->
  snapshot_manifests (released id now db) !! id = Some m
  /\ Forall (fun file => sf_chunks file = []) (sm_files (snapshot_from_row (released id now db) id m)).
Proof.
  intros Hm Hst. split; [done|]. simpl. generalize ([] : list string).
  induction (mf_manifest m) as [|f files IH]; intros taken; simpl; constructor; [|apply IH]. simpl.
  case_match; [done|]. unfold path_chunks.
  assert (path_mappings (released id now db) id (uf_path f) = []) as ->; [|done].
  apply elem_of_nil_inv. intros [i key] Hin. unfold path_mappings in Hin.
  rewrite merge_sort_Permutation in Hin. apply list_elem_of_omap in Hin as ([[p' i'] key'] & Hin & Heq).
  apply elem_of_map_to_list, map_lookup_filter_Some in Hin as [_ Hne]. simpl in *.
  case_bool_decide as Hp; [|done]. by subst p'.
Qed.
End properties.
