(* ===== verification/MergeSafety.v ===== *)
(** * What a merge of snapshots produces

    The reference definition of a three-way merge, and for each stage of
    [apply_project_merge] what its result has to do with the three versions. *)

From Stdlib Require Import ZifyBool.
From stdpp Require Import gmap sorting.
From S2P Require Import Prelude.
From S2P Require Import Text.
From S2P Require Import Json.
From S2P Require Import Contracts.
From S2P Require Import Store.
From S2P Require Import Governance.
From S2P Require Import SyncPublish.
From S2P Require Import RunStore.
From S2P Require Import Organization.
From S2P Require Import ObjectStore.
From S2P Require Import Snapshots.
From S2P Require Import SnapshotMerge.
From S2P Require Import StorageSafety.
From S2P Require Import SnapshotReading.
From S2P Require Import StorageSystem.

Import Organization Snapshots Merge.

(** ** Three-way merge *)

(** Who changed it wins; [None]: both did, differently. *)
Definition three_way {A} `{EqDecision A} (base current result : A) : option A :=
  if decide (base = current) then Some result
  else if decide (base = result) then Some current
  else if decide (current = result) then Some result
  else None.

(** The digest a default resolution takes. *)
Definition default_digest (status : MergeFileStatus) (current result : option string) : option string :=
  match default_resolution status with
  | TakeCurrent => current
  | TakeResult => result
  | TakeNone | TakeAutoMerged => None
  end.

(** The cases of [analyze_merge] are the three-way merge of the digests. *)
Lemma compare_digests_spec b c r :
  match compare_digests b c r with
  | Some status =>
      status ≠ AutoMerged /\ status ≠ Renamed /\
      three_way b c r = if is_conflict status then None else Some (default_digest status c r)
  | None => three_way b c r = None /\ is_Some b /\ is_Some c /\ is_Some r
  end.
Proof.
  unfold compare_digests, three_way.
  destruct b as [b|], c as [c|], r as [r|]; simpl; repeat case_decide; simplify_eq/=;
    rewrite ?String.eqb_refl; simpl; try done;
    repeat match goal with
    | |- context [String.eqb ?x ?y] =>
        let H := fresh in destruct (String.eqb x y) eqn:H;
        [apply String.eqb_eq in H | apply String.eqb_neq in H]; simplify_eq/=
    end; split_and?; try done; congruence.
Qed.

(** ** Pieces of a text *)

Lemma str_chunks_join fuel n s :
  (String.length s ≤ fuel)%nat -> (0 < n)%nat -> join "" (str_chunks fuel n s) = s.
Proof.
  revert s. induction fuel as [|fuel IH]; intros s Hl Hn.
  - destruct s; [done|]. simpl in Hl. lia.
  - destruct s as [|c s]; [done|]. cbn [str_chunks].
    assert (String.length (str_drop n (String c s)) ≤ fuel)%nat as Hd.
    { rewrite str_length_drop. simpl in *. lia. }
    pose proof (IH _ Hd Hn) as Hj.
    transitivity (str_take n (String c s) +:+ join "" (str_chunks fuel n (str_drop n (String c s)))).
    + destruct (str_chunks _ _ _); simpl; by rewrite ?string_app_nil, ?string_app_nil_r.
    + rewrite Hj. apply str_take_drop.
Qed.

(** ** The analysis *)

Section merging.
Context {crypto : StorageCrypto} {lib : MergeLib} (master : string) (henv : HandlerEnv).

Abbreviation any := (fun _ : World => True).

Lemma hwp_reading {A} (m : Handler A) (Q : A -> nat * World -> Prop) n w :
  reads m -> (forall a n', (m henv (n, w)).2 = Ok a -> Q a (n', w)) -> hwp any henv m Q (n, w).
Proof.
  intros Hm HQ. pose proof (Hm henv (n, w)) as H1. unfold hwp.
  destruct (m henv (n, w)) as [[n' w'] [a|e]]; simpl in *; subst; auto.
Qed.

(** The text of a version's file. *)
Definition reads_text (w : World) (v : VersionFiles) (path text : string) : Prop :=
  exists n, (materialize_file master (vf_manifest_id v) path henv (n, w)).2 = Ok text.

Definition text_merged (w : World) (base current result : VersionFiles) (path bytes : string) : Prop :=
  exists tb tc tr, reads_text w base path tb /\ reads_text w current path tc
    /\ reads_text w result path tr /\ diffy_merge tb tc tr = Ok bytes.

Lemma attempt_text_merge_spec w base current result path b c r n :
  hwp any henv (attempt_text_merge master (vf_manifest_id base) (vf_manifest_id current)
                  (vf_manifest_id result) path b c r)
    (fun merged st => st.2 = w /\ match merged with
                                  | Merged bytes => text_merged w base current result path bytes
                                  | _ => True
                                  end) (n, w).
Proof.
  unfold attempt_text_merge. case_match; [by apply hwp_ret|].
  apply hwp_bind, hwp_reading; [apply materialize_file_reads|]. intros tb n1 Hb.
  apply hwp_bind, hwp_reading; [apply materialize_file_reads|]. intros tc n2 Hc.
  apply hwp_bind, hwp_reading; [apply materialize_file_reads|]. intros tr n3 Hr.
  case_match; [|by apply hwp_ret]. destruct (diffy_merge tb tc tr) eqn:Hd; [|by apply hwp_ret].
  apply hwp_ret. split; [done|]. exists tb, tc, tr. split_and!; [by exists n|by exists n1|by exists n2|done].
Qed.

(** The mode of a file is not part of its fingerprint: a version that only changes modes
    compares as unchanged. *)
Lemma mode_is_not_compared file mode :
  file_fingerprint {| sf_path := sf_path file; sf_size := sf_size file; sf_mode := mode;
                      sf_modified_at := sf_modified_at file; sf_chunks := sf_chunks file |}
  = file_fingerprint file.
Proof. done. Qed.

Definition digest_at (v : VersionFiles) (path : string) : option string :=
  file_fingerprint <$> vf_files v !! path.

(** What the analysis of a path says. *)
Definition analyzed (w : World) (base current result : VersionFiles) (path : string)
    (item : FileAnalysis) : Prop :=
  let status := mr_status (fa_review item) in
  mr_path (fa_review item) = path /\
  match compare_digests (digest_at base path) (digest_at current path) (digest_at result path) with
  | Some expected => (status = expected \/ expected = Added /\ status = Renamed) /\ fa_auto_merged item = None
  | None => match fa_auto_merged item with
            | Some bytes => status = AutoMerged /\ text_merged w base current result path bytes
            | None => is_conflict status = true
            end
  end.

Lemma analyze_path_spec w base current result path n :
  hwp any henv (analyze_path master base current result path)
    (fun item st => st.2 = w /\ analyzed w base current result path item) (n, w).
Proof.
  unfold analyze_path, path_status. apply hwp_bind.
  change (file_fingerprint <$> vf_files base !! path) with (digest_at base path).
  change (file_fingerprint <$> vf_files current !! path) with (digest_at current path).
  change (file_fingerprint <$> vf_files result !! path) with (digest_at result path).
  pose proof (compare_digests_spec (digest_at base path) (digest_at current path) (digest_at result path)) as Hspec.
  unfold analyzed. destruct (compare_digests _ _ _) as [status|].
  - apply hwp_ret, hwp_ret. simpl. auto.
  - destruct Hspec as (_ & [? (b & Hb & _)%fmap_Some_1] & [? (c & Hc & _)%fmap_Some_1]
      & [? (r & Hr & _)%fmap_Some_1]).
    rewrite Hb, Hc, Hr. apply hwp_bind. eapply hwp_mono; [apply attempt_text_merge_spec|].
    intros merged [n' w'] [Hw Hm]. simpl in Hw. subst w'. apply hwp_ret. destruct merged; apply hwp_ret; simpl; auto.
Qed.

Lemma analyze_paths_spec w base current result paths n :
  hwp any henv (analyze_paths master base current result paths)
    (fun items st => st.2 = w /\ Forall2 (analyzed w base current result) paths items) (n, w).
Proof.
  revert n. induction paths as [|path paths IH]; intros n; cbn [analyze_paths].
  { apply hwp_ret. split; [done|constructor]. }
  apply hwp_bind. eapply hwp_mono; [apply analyze_path_spec|]. intros item [n1 w1] [Hw Hi].
  simpl in Hw. subst w1. apply hwp_bind. eapply hwp_mono; [apply IH|]. intros items [n2 w2] [Hw His].
  apply hwp_ret. split; [done|by constructor].
Qed.

Lemma annotate_rename_analyzed w base current result path item :
  analyzed w base current result path item ->
  analyzed w base current result path (annotate_rename base result item).
Proof.
  unfold annotate_rename. destruct (mr_status (fa_review item)) eqn:Hst; try done.
  destruct (vf_files result !! _) as [file|]; [|done].
  destruct (renamed_from base result file) as [old|]; [|done].
  unfold analyzed. simpl. rewrite Hst. intros [Hp Ha]. split; [done|].
  destruct (compare_digests _ _ _) as [status|].
  - destruct Ha as [[Heq|[_ Heq]] Hm]; [|done]. split; [|done]. by right.
  - destruct (fa_auto_merged item); [by destruct Ha|done].
Qed.

Lemma analyze_merge_spec w base current result n :
  hwp any henv (analyze_merge master base current result)
    (fun items st => st.2 = w /\ Forall2 (analyzed w base current result) (merge_paths base current result) items)
    (n, w).
Proof.
  unfold analyze_merge. apply hwp_bind. eapply hwp_mono; [apply analyze_paths_spec|].
  intros items [n1 w1] [Hw Hi]. apply hwp_ret. split; [done|]. unfold annotate_renames.
  apply Forall2_fmap_r. eapply Forall2_impl; [exact Hi|]. intros path item. apply annotate_rename_analyzed.
Qed.

(** ** The files taken *)

Lemma hwp_any {A} (m : Handler A) st : hwp any henv m (fun _ _ => True) st.
Proof. unfold hwp. by destruct (m henv st) as [? []]. Qed.

(** A stored file made of pieces of the bytes. *)
Definition holds_bytes (file : SnapshotFile) (bytes : string) : Prop :=
  sf_size file = str_len bytes
  /\ exists parts, join "" parts = bytes /\ sk_digest <$> sf_chunks file = hex_digest <$> parts.

Lemma upload_parts_spec s parts st :
  hwp any henv (upload_parts master s parts) (fun chunks _ => sk_digest <$> chunks = hex_digest <$> parts) st.
Proof.
  revert st. induction parts as [|part parts IH]; intros st; cbn [upload_parts]; [by apply hwp_ret|].
  apply hwp_bind. eapply hwp_mono; [apply hwp_any|]. intros size st1 _.
  apply hwp_bind. eapply hwp_mono; [apply IH|]. intros chunks st2 Hc. apply hwp_ret.
  by rewrite !fmap_cons, Hc.
Qed.

Lemma upload_file_spec s template bytes st :
  hwp any henv (upload_file_from_bytes master s template bytes)
    (fun file _ => sf_path file = sf_path template /\ holds_bytes file bytes) st.
Proof.
  unfold upload_file_from_bytes. apply hwp_bind. eapply hwp_mono; [apply upload_parts_spec|].
  intros chunks [n w] Hc. apply hwp_bind, hwp_utc_now. intros now. apply hwp_ret. split; [done|].
  split; [done|]. eexists. split; [|exact Hc]. apply str_chunks_join; [done|].
  unfold MAX_CHUNK_BYTES. lia.
Qed.

Definition keyed (v : VersionFiles) : Prop :=
  forall path file, vf_files v !! path = Some file -> sf_path file = path.

Definition takes_merged_text (w : World) (base current result : VersionFiles) (path : string)
    (taken : option SnapshotFile) : Prop :=
  exists bytes file, taken = Some file /\ sf_path file = path
    /\ text_merged w base current result path bytes /\ holds_bytes file bytes.

(** What a path becomes: an explicit choice is followed; without one, the side that changed
    wins, and what both changed differently is the conflict-free merge of the texts. *)
Definition resolved (w : World) (base current result : VersionFiles)
    (choice : option MergeResolutionChoice) (path : string) (taken : option SnapshotFile) : Prop :=
  match choice with
  | Some TakeCurrent => taken = vf_files current !! path
  | Some TakeResult => taken = vf_files result !! path
  | Some TakeNone => taken = None
  | Some TakeAutoMerged => takes_merged_text w base current result path taken
  | None =>
      match three_way (digest_at base path) (digest_at current path) (digest_at result path) with
      | Some winner => (taken = vf_files current !! path \/ taken = vf_files result !! path)
                       /\ file_fingerprint <$> taken = winner
      | None => takes_merged_text w base current result path taken
      end
  end.

Lemma select_file_spec w base current result s path item choice st :
  keyed current -> keyed result -> analyzed w base current result path item ->
  hwp any henv (select_file master s current result item choice)
    (fun taken _ => match choice with
                    | TakeCurrent => taken = vf_files current !! path
                    | TakeResult => taken = vf_files result !! path
                    | TakeNone => taken = None
                    | TakeAutoMerged => takes_merged_text w base current result path taken
                    end) st.
Proof.
  intros Hkc Hkr [Hp Ha]. unfold select_file. rewrite Hp. destruct choice; [by apply hwp_ret..|].
  apply hwp_bind, hwp_hlift; [done|]. intros bytes Hb%ok_or_Ok. apply hwp_bind, hwp_hlift; [done|].
  intros template Ht%ok_or_Ok. apply hwp_bind. eapply hwp_mono; [apply upload_file_spec|].
  intros file st1 [Hpath Hbytes]. apply hwp_ret. exists bytes, file. split_and!; [done| | |done].
  - rewrite Hpath. destruct (vf_files result !! path) as [f|] eqn:Hr; [|by apply Hkc].
    injection Ht as <-. by apply Hkr.
  - rewrite Hb in Ha. destruct (compare_digests _ _ _); [by destruct Ha|]. apply Ha.
Qed.

(** The default of a path without an explicit choice. *)
Lemma default_resolved w base current result path item taken :
  analyzed w base current result path item -> is_conflict (mr_status (fa_review item)) = false ->
  match default_resolution (mr_status (fa_review item)) with
  | TakeCurrent => taken = vf_files current !! path
  | TakeResult => taken = vf_files result !! path
  | TakeNone => taken = None
  | TakeAutoMerged => takes_merged_text w base current result path taken
  end -> resolved w base current result None path taken.
Proof.
  intros [Hp Ha] Hc Ht. unfold resolved.
  pose proof (compare_digests_spec (digest_at base path) (digest_at current path) (digest_at result path)) as Hspec.
  destruct (compare_digests _ _ _) as [status|].
  - destruct Hspec as (Hn1 & Hn2 & ->). destruct Ha as [Hst _].
    assert (is_conflict status = false
            /\ default_resolution (mr_status (fa_review item)) = default_resolution status) as [Hcs Hds].
    { destruct Hst as [<-|[-> ->]]; done. }
    rewrite Hcs. rewrite Hds in Ht. unfold default_digest.
    destruct status; simpl in *; try done; subst taken; unfold digest_at; auto.
  - destruct Hspec as [-> _]. destruct (fa_auto_merged item).
    + destruct Ha as [Hst _]. by rewrite Hst in Ht.
    + congruence.
Qed.

Lemma merge_files_spec w base current result s resolutions paths items st :
  keyed current -> keyed result -> Forall2 (analyzed w base current result) paths items ->
  hwp any henv (merge_files master s current result resolutions items)
    (fun output _ => exists taken,
       Forall2 (fun path => resolved w base current result (resolutions !! path) path) paths taken
       /\ output = snapshot_to_upload_file <$> omap id taken) st.
Proof.
  intros Hkc Hkr Hall. revert st. induction Hall as [|path item paths items Ha Hall IH]; intros st;
    cbn [merge_files].
  { apply hwp_ret. exists []. split; [constructor|done]. }
  assert (mr_path (fa_review item) = path) as Hp by apply Ha. rewrite Hp. apply hwp_bind.
  eapply hwp_mono; [by eapply select_file_spec|]. intros sel st1 Hsel. apply hwp_bind, hwp_hlift; [done|].
  intros [] Hguard%guard_err_Ok. apply hwp_bind. eapply hwp_mono; [apply IH|].
  intros output st2 (taken & Htaken & ->). apply hwp_ret. exists (sel :: taken). split.
  - constructor; [|done]. destruct (resolutions !! path) as [choice|] eqn:Hres; simpl in Hsel.
    + by destruct choice.
    + eapply default_resolved; [done| |done]. by rewrite bool_decide_true, andb_true_r in Hguard.
  - by destruct sel.
Qed.
End merging.
