(* ===== verification/MergeProperties.v ===== *)
(** * Theorems about versions and merges *)

From stdpp Require Import gmap sorting.
From S2P Require Import Prelude.
From S2P Require Import Text.
From S2P Require Import Json.
From S2P Require Import Contracts.
From S2P Require Import Store.
From S2P Require Import Governance.
From S2P Require Import SyncPublish.
From S2P Require Import RunStore.
From S2P Require Import Organization.
From S2P Require Import ObjectStore.
From S2P Require Import Snapshots.
From S2P Require Import SnapshotMerge.
From S2P Require Import StorageSafety.
From S2P Require Import SnapshotReading.
From S2P Require Import StorageSystem.
From S2P Require Import MergeSafety.

Import Organization Snapshots Merge.

(** ** Files and choices by path *)

Definition file_at (files : list SnapshotUploadFile) (path : string) : option SnapshotUploadFile :=
  snd <$> list_find (fun f => uf_path f = path) files.

Lemma file_at_Some files path f :
  NoDup (uf_path <$> files) -> f ∈ files -> uf_path f = path -> file_at files path = Some f.
Proof.
  intros Hn Hin Hp. unfold file_at. destruct (list_find _ files) as [[i g]|] eqn:Hf; simpl.
  - apply list_find_Some in Hf as (Hg%list_elem_of_lookup_2 & Hpg & _). f_equal. symmetry.
    eapply unique_path; [done..|]. congruence.
  - apply list_find_None in Hf. rewrite Forall_forall in Hf. by destruct (Hf _ Hin).
Qed.

Lemma file_at_None files path :
  (forall f, f ∈ files -> uf_path f ≠ path) -> file_at files path = None.
Proof.
  intros Hf. unfold file_at. rewrite (proj2 (list_find_None _ _)); [done|].
  apply Forall_forall. exact Hf.
Qed.

(** The choice a request makes for a path. *)
Definition requested (resolutions : list MergeFileResolution) (path : string)
    : option MergeResolutionChoice :=
  (fun r => res_choice r.2) <$> list_find (fun r => res_path r = path) resolutions.

Lemma insert_resolutions_spec valid acc l out :
  insert_resolutions valid acc l = Ok out ->
  (forall path, out !! path = match acc !! path with Some c => Some c | None => requested l path end)
  /\ forall path, is_Some (requested l path) -> path ∈ valid.
Proof.
  revert acc. induction l as [|r l IH]; intros acc; cbn [insert_resolutions].
  { intros [= <-]. split; [intros path; by destruct (acc !! path)|]. by intros path [? ?]. }
  intros H. cbv zeta in H. bind_steps H. apply negb_false_iff, str_mem_spec in E.
  apply bool_decide_eq_false, eq_None_not_Some in E0. destruct (IH _ H) as [Hout Hval].
  assert (forall path, requested (r :: l) path
            = if decide (res_path r = path) then Some (res_choice r) else requested l path) as Hreq.
  { intros path. unfold requested. simpl. case_decide; [done|]. by destruct (list_find _ l) as [[? ?]|]. }
  split.
  - intros path. rewrite Hout, Hreq. destruct (decide (res_path r = path)) as [<-|Hne].
    + by rewrite lookup_insert_eq, E0.
    + by rewrite lookup_insert_ne.
  - intros path. rewrite Hreq. case_decide; [by subst|apply Hval].
Qed.

(** ** The versions a merge compares *)

Definition version_files (db : Db) (project_id version_id : Uuid) : option VersionFiles :=
  v ← project_version db project_id version_id;
  m ← snapshot_manifests db !! pv_snapshot_manifest_id v;
  if String.eqb (mf_status m) "ready"
  then Some {| vf_version := row_to_project_version version_id v;
               vf_manifest_id := pv_snapshot_manifest_id v;
               vf_files := files_by_path (sm_files (snapshot_from_row db (pv_snapshot_manifest_id v) m)) |}
  else None.

Lemma wp_load_version_files env p id st (Q : VersionFiles -> TxState -> Prop) :
  (forall v, version_files (tx_db st) p id = Some v -> Q v st) ->
  wp env (load_version_files p id) Q st.
Proof.
  intros HQ. unfold load_version_files. wp_steps. apply HQ. unfold version_files. rewrite H. simpl.
  destruct (snapshot_manifests _ !! _) as [m|]; [|done]. simpl.
  destruct (String.eqb (mf_status m) "ready"); [|done]. by injection H0 as ->.
Qed.

Lemma files_by_path_keyed files path file :
  files_by_path files !! path = Some file -> sf_path file = path.
Proof.
  unfold files_by_path. set (keyed_map := fun m : gmap string SnapshotFile =>
    forall path file, m !! path = Some file -> sf_path file = path).
  assert (forall m, keyed_map m -> keyed_map (foldl (fun m file => <[sf_path file := file]> m) m files)) as Hk.
  { induction files as [|f files IH]; intros m Hm; simpl; [done|]. apply IH.
    intros q g [[<- <-]|[_ Hq]]%lookup_insert_Some; [done|by apply Hm]. }
  apply (Hk ∅). intros q g. by rewrite lookup_empty.
Qed.

Lemma version_files_keyed db p id v : version_files db p id = Some v -> keyed v.
Proof.
  unfold version_files. intros Hv. destruct (project_version _ _ _) as [row|]; [|done]. simpl in Hv.
  destruct (snapshot_manifests _ !! _) as [m|]; [|done]. simpl in Hv.
  case_match; [|done]. injection Hv as <-. intros path file. apply files_by_path_keyed.
Qed.

(** What access checks leave alone: they only write audit events. *)
Record access_frame (db db' : Db) : Prop := {
  af_storage : storage_frame db db';
  af_versions : project_versions db' = project_versions db;
}.

#[global] Instance access_frame_preorder : PreOrder access_frame.
Proof.
  split; [by split|]. intros d1 d2 d3 [A1 A2] [B1 B2]. split; [by etrans|congruence].
Qed.

#[export] Hint Extern 3 (frames access_frame (modify _)) =>
  apply frames_modify; intros ?; split; [split; done|done] : store.

Lemma ensure_project_role_access u p r : frames access_frame (ensure_project_role u p r).
Proof. unfold ensure_project_role, audit_support_access. frames_steps. Qed.

Lemma snapshot_files_frame db db' id taken files :
  storage_frame db db' -> snapshot_files db' id taken files = snapshot_files db id taken files.
Proof.
  intros [Hc Hm _ _ _]. revert taken. induction files as [|f files IH]; intros taken; simpl; [done|].
  unfold path_chunks, path_mappings. by rewrite Hc, Hm, IH.
Qed.

Lemma version_files_frame db db' p id :
  access_frame db db' -> version_files db' p id = version_files db p id.
Proof.
  intros [Hs Hv]. unfold version_files, project_version. rewrite Hv, (sf_manifests_eq _ _ Hs).
  destruct (project_versions db !! id) as [v|]; [|done]. case_match; [|done]. simpl.
  destruct (snapshot_manifests db !! _) as [m|]; [|done]. simpl.
  by rewrite (snapshot_files_frame _ _ _ _ _ Hs).
Qed.

(** ** Texts do not depend on audit events *)

Section objects.
Context {crypto : StorageCrypto} {lib : MergeLib} (master : string) (henv : HandlerEnv).

(** The answer and the steps taken depend on the objects only. *)
Definition from_objects {A} (m : Handler A) : Prop := forall n w w',
  w_objects w' = w_objects w ->
  (m henv (n, w')).2 = (m henv (n, w)).2 /\ (m henv (n, w')).1.1 = (m henv (n, w)).1.1.

Lemma from_objects_bind {A B} (m : Handler A) (f : A -> Handler B) :
  reads m -> from_objects m -> (forall a, from_objects (f a)) -> from_objects (m ≫= f).
Proof.
  intros Hr Hm Hf n w w' Hw. destruct (Hm n w w' Hw) as [Ha Hn].
  pose proof (Hr henv (n, w)) as H1. pose proof (Hr henv (n, w')) as H2. unfold mbind, handler_bind.
  destruct (m henv (n, w)) as [[k1 v1] [a|e]], (m henv (n, w')) as [[k2 v2] [a'|e']]; simpl in *; try done.
  - injection Ha as ->. subst. by apply Hf.
  - by injection Ha as ->.
Qed.

Lemma from_objects_hlift {A} (r : result ApiError A) : from_objects (hlift r).
Proof. done. Qed.

Lemma from_objects_get key : from_objects (get_object key).
Proof. intros n w w' Hw. simpl. by rewrite Hw. Qed.

Lemma read_chunk_from_objects mk s row : from_objects (read_chunk mk s row).
Proof.
  unfold read_chunk, get_decrypted. apply from_objects_bind; [apply reads_hlift|apply from_objects_hlift|].
  intros wn. apply from_objects_bind; [apply reads_get_object|apply from_objects_get|].
  intros c. apply from_objects_hlift.
Qed.

Lemma read_chunks_from_objects mk s output rows : from_objects (read_chunks mk s output rows).
Proof.
  revert output. induction rows as [|row rows IH]; intros output; cbn [read_chunks].
  { by intros n w w'. }
  apply from_objects_bind; [apply read_chunk_reads|apply read_chunk_from_objects|]. intros chunk.
  apply from_objects_bind; [apply reads_hlift|apply from_objects_hlift|]. intros _. apply IH.
Qed.

Lemma reads_text_frame w w' v path text :
  storage_frame (w_db w) (w_db w') -> w_objects w' = w_objects w ->
  reads_text master henv w' v path text -> reads_text master henv w v path text.
Proof.
  intros [Hc Hm _ Hf _] Ho [n Ht]. exists n. rewrite <- Ht.
  unfold materialize_file, tables, hlift, mbind, handler_bind, path_mappings. rewrite Hc, Hm, Hf.
  destruct (ok_or _ _) as [m|]; [|done]. destruct (row_scope m) as [s|]; [|done]. symmetry.
  by apply read_chunks_from_objects.
Qed.

Lemma text_merged_frame w w' base current result path bytes :
  storage_frame (w_db w) (w_db w') -> w_objects w' = w_objects w ->
  text_merged master henv w' base current result path bytes ->
  text_merged master henv w base current result path bytes.
Proof.
  intros Hs Ho (tb & tc & tr & Hb & Hc & Hr & Hd). exists tb, tc, tr.
  split_and!; [by apply (reads_text_frame w w')..|done].
Qed.

Lemma resolved_frame w w' base current result choice path taken :
  storage_frame (w_db w) (w_db w') -> w_objects w' = w_objects w ->
  resolved master henv w' base current result choice path taken ->
  resolved master henv w base current result choice path taken.
Proof.
  intros Hs Ho.
  assert (takes_merged_text master henv w' base current result path taken ->
          takes_merged_text master henv w base current result path taken) as Ht.
  { intros (bytes & file & -> & Hp & Hm & Hb). exists bytes, file.
    split_and!; [done|done|by apply (text_merged_frame w w')|done]. }
  unfold resolved. destruct choice as [[]|]; auto. by case_match; auto.
Qed.
End objects.

(** ** The merged manifest *)

Section outcome.
Context {crypto : StorageCrypto} {lib : MergeLib} (henv : HandlerEnv).

Lemma resolved_path master w base current result choice path f :
  keyed current -> keyed result -> resolved master henv w base current result choice path (Some f) ->
  sf_path f = path.
Proof.
  intros Hkc Hkr.
  assert (takes_merged_text master henv w base current result path (Some f) -> sf_path f = path) as Ht.
  { by intros (bytes & file & [= <-] & Hp & _). }
  unfold resolved. destruct choice as [[]|];
    [by intros Hf%eq_sym; apply Hkc|by intros Hf%eq_sym; apply Hkr|done|done|].
  case_match; [|done]. intros [[Hf%eq_sym|Hf%eq_sym] _]; [by apply Hkc|by apply Hkr].
Qed.

Lemma elem_of_merge_paths base current result path :
  path ∈ merge_paths base current result <->
  is_Some (vf_files base !! path) \/ is_Some (vf_files current !! path) \/ is_Some (vf_files result !! path).
Proof.
  unfold merge_paths. rewrite merge_sort_Permutation, elem_of_elements, !elem_of_union, !elem_of_dom. tauto.
Qed.

(** Every path of the merged manifest is resolved, and every resolution is in it. *)
Lemma merged_outcome master w base current result (choices : string -> option MergeResolutionChoice)
    taken files :
  keyed current -> keyed result ->
  Forall2 (fun path => resolved master henv w base current result (choices path) path)
    (merge_paths base current result) taken ->
  (forall path, is_Some (choices path) -> path ∈ merge_paths base current result) ->
  files = merge_sort path_before (snapshot_to_upload_file <$> omap id taken) ->
  NoDup (uf_path <$> files) ->
  forall path, exists t, resolved master henv w base current result (choices path) path t
    /\ file_at files path = snapshot_to_upload_file <$> t.
Proof.
  intros Hkc Hkr Hall Hvalid Hfiles Hnd path. set (paths := merge_paths base current result) in *.
  assert (forall g, g ∈ files -> exists i q f, paths !! i = Some q /\ taken !! i = Some (Some f)
            /\ g = snapshot_to_upload_file f /\ sf_path f = q) as Hfrom.
  { intros g. rewrite Hfiles, merge_sort_Permutation. intros (f & -> & Hf)%list_elem_of_fmap.
    apply list_elem_of_omap in Hf as (t & [i Ht]%list_elem_of_lookup & Hid). unfold id in Hid. subst t.
    destruct (Forall2_lookup_r _ _ _ _ _ Hall Ht) as (q & Hq & Hr). exists i, q, f.
    split_and!; [done|done|done|].
    exact (resolved_path _ _ _ _ _ _ _ _ Hkc Hkr Hr). }
  destruct (decide (path ∈ paths)) as [[i Hi]%list_elem_of_lookup|Hout].
  - destruct (Forall2_lookup_l _ _ _ _ _ Hall Hi) as (t & Ht & Hr). exists t. split; [done|].
    destruct t as [f|]; simpl.
    + apply file_at_Some; [done| |exact (resolved_path _ _ _ _ _ _ _ _ Hkc Hkr Hr)].
      rewrite Hfiles, merge_sort_Permutation. apply list_elem_of_fmap_2, list_elem_of_omap.
      exists (Some f). split; [by eapply list_elem_of_lookup_2|done].
    + apply file_at_None. intros g (j & q & f & Hq & Hj & -> & Hp)%Hfrom Heq. simpl in Heq.
      assert (i = j) as <-; [|congruence]. eapply (NoDup_lookup paths); [|exact Hi|congruence].
      unfold paths, merge_paths. rewrite merge_sort_Permutation. apply NoDup_elements.
  - assert (choices path = None) as Hc.
    { apply eq_None_not_Some. intros Hs. by apply Hout, Hvalid. }
    exists None. rewrite Hc. unfold paths in Hout. rewrite elem_of_merge_paths in Hout. split.
    + unfold resolved, digest_at.
      destruct (vf_files base !! path), (vf_files current !! path), (vf_files result !! path);
        try (destruct Hout; by eauto). split; [by left|done].
    + apply file_at_None. intros g (j & q & f & Hq%list_elem_of_lookup_2 & _ & -> & Hp)%Hfrom Heq.
      simpl in Heq. rewrite <- Hp, Heq in Hq. by apply Hout, elem_of_merge_paths.
Qed.

(** ** The merge handler *)

Lemma wp_load_merge_versions env p b c r st (Q : VersionFiles * VersionFiles * VersionFiles -> TxState -> Prop) :
  (forall base current result, version_files (tx_db st) p b = Some base ->
     version_files (tx_db st) p c = Some current -> version_files (tx_db st) p r = Some result ->
     Q (base, current, result) st) ->
  wp env (load_merge_versions p b c r) Q st.
Proof.
  intros HQ. unfold load_merge_versions. wp_steps.
  apply wp_load_version_files. intros base Hb. wp_steps.
  apply wp_load_version_files. intros current Hc. wp_steps.
  apply wp_load_version_files. intros result Hr. wp_steps. by apply HQ.
Qed.

(** The stored manifest: ready, validated, and due to expire a day later. *)
Definition stored_merge (files : list SnapshotUploadFile) (m : ManifestRow) : Prop :=
  mf_manifest m = files /\ mf_status m = "ready" /\ files_ok (mf_total_bytes m) files
  /\ exists n, mf_expires_at m = Some (app_now (h_env henv n) + days 1)%Z.

Lemma create_ready_manifest_spec p u s files n w :
  hwp (fun _ => True) henv (create_ready_manifest p u s files)
    (fun id st => exists m, snapshot_manifests (w_db st.2) !! id = Some m /\ stored_merge files m
                            /\ mf_project_id m = p) (n, w).
Proof.
  unfold create_ready_manifest. apply hwp_bind, hwp_hlift; [done|]. intros total _.
  apply hwp_bind, hwp_hlift; [done|]. intros [] Hv%validate_snapshot_files_Ok.
  apply hwp_bind. unfold hwp at 1. cbn [utc_now]. apply hwp_transaction; [done|].
  unfold insert_ready_manifest, put_manifest. wp_steps. apply wp_add_mappings. intros _. wp_steps.
  rewrite mapped_manifests. simpl. rewrite lookup_insert_eq. eexists. split; [done|].
  split; [|done]. split_and!; [done|done|done|]. by exists n.
Qed.

(** The version names the manifest, and the project moves to it from the expected revision. *)
Definition finished (p manifest_id : Uuid) (request : ApplyProjectMergeRequest) (v : ProjectVersion)
    (db : Db) : Prop :=
  ver_snapshot_manifest_id v = manifest_id
  /\ exists q, projects db !! p = Some q /\ pr_current_version_id q = Some (ver_id v)
       /\ pr_revision q = (am_expected_project_revision request + 1)%Z.

Lemma finish_merge_spec env u p id request base current result analysis db :
  wp env (finish_merge u p id request base current result analysis)
    (fun v st => finished p id request v (tx_db st)
                 /\ snapshot_manifests (tx_db st) = snapshot_manifests db) (MkTx db 0).
Proof.
  unfold finish_merge, insert_version, move_project, audit_project. wp_steps.
  rewrite orb_false_iff in H0. destruct H0 as [Hrev%bool_decide_eq_false _]. split; [|done].
  split; [done|].
  assert (projects db !! p = Some a) as Ha by (unfold live_project in *; repeat case_match; congruence).
  eexists. simpl. rewrite lookup_alter_eq, Ha. split; [done|]. simpl. split; [done|].
  destruct (decide (pr_revision a = am_expected_project_revision request)) as [->|]; done.
Qed.

(** What a merge that succeeds has done. *)
Definition merged_into (w : World) (p : Uuid) (request : ApplyProjectMergeRequest)
    (v : ProjectVersion) (w' : World) : Prop :=
  exists master base current result m,
    h_master_key henv = Some master
    /\ version_files (w_db w) p (am_base_version_id request) = Some base
    /\ version_files (w_db w) p (am_current_version_id request) = Some current
    /\ version_files (w_db w) p (am_result_version_id request) = Some result
    /\ snapshot_manifests (w_db w') !! ver_snapshot_manifest_id v = Some m
    /\ stored_merge (mf_manifest m) m /\ mf_project_id m = p
    /\ finished p (ver_snapshot_manifest_id v) request v (w_db w')
    /\ forall path, exists taken,
         resolved master henv w base current result (requested (am_resolutions request) path) path taken
         /\ file_at (mf_manifest m) path = snapshot_to_upload_file <$> taken.

Lemma merge_spec u p request w :
  hwp (fun _ => True) henv (apply_project_merge u p request)
    (fun v st => merged_into w p request v st.2) (0%nat, w).
Proof.
  unfold apply_project_merge. apply hwp_bind, hwp_transaction; [done|].
  eapply wp_mono; [apply (ensure_project_role_access u p Editor)|]. intros role st1 Hf. simpl in Hf.
  set (w1 := {| w_db := tx_db st1; w_objects := w_objects w |}).
  apply hwp_bind, hwp_require_store; [done|]. intros master Hkey.
  apply hwp_bind, hwp_transaction; [done|]. apply wp_load_merge_versions. cbn [tx_db w_db w1].
  rewrite !(version_files_frame _ _ _ _ Hf). intros base current result Hb Hc Hr.
  apply hwp_bind. eapply hwp_mono; [apply (analyze_merge_spec master henv w1)|].
  intros analysis [n2 w2] [Hw2 Han]. simpl in Hw2. subst w2.
  apply hwp_bind, hwp_hlift; [done|]. intros resolutions Hres. apply hwp_bind, hwp_tables.
  apply hwp_bind, hwp_hlift; [done|]. intros row _. apply hwp_bind, hwp_hlift; [done|]. intros s _.
  apply hwp_bind. eapply hwp_mono.
  { eapply (merge_files_spec master henv w1 base current result s resolutions); [| |exact Han].
    - exact (version_files_keyed _ _ _ _ Hc).
    - exact (version_files_keyed _ _ _ _ Hr). }
  intros output [n3 w3] (taken & Htaken & ->).
  apply hwp_bind. eapply hwp_mono; [apply create_ready_manifest_spec|].
  intros id [n4 w4] (m & Hm & Hstored & Hproj). apply hwp_transaction; [done|].
  eapply wp_mono; [apply finish_merge_spec|]. intros v st5 [Hfin Hms].
  assert (ver_snapshot_manifest_id v = id) as Hid by apply Hfin.
  destruct Hstored as (Hfiles & Hstored).
  exists master, base, current, result, m. rewrite Hid. simpl in *. rewrite Hms, Hfiles.
  split_and!; try done. apply insert_resolutions_spec in Hres as [Hlook Hvalid].
  assert (((mr_path ∘ fa_review) <$> analysis) = merge_paths base current result) as Hpaths.
  { clear -Han. induction Han as [|path item paths items [Hp _] _ IH]; [done|].
    rewrite fmap_cons, IH. simpl. by rewrite Hp. }
  rewrite Hpaths in Hvalid.
  apply (merged_outcome master w base current result _ taken).
  - exact (version_files_keyed _ _ _ _ Hc).
  - exact (version_files_keyed _ _ _ _ Hr).
  - eapply Forall2_impl; [exact Htaken|]. intros path t Ht. cbn beta in Ht. rewrite Hlook, lookup_empty in Ht.
    exact (resolved_frame master henv w w1 base current result _ path t (af_storage _ _ Hf) eq_refl Ht).
  - exact Hvalid.
  - done.
  - apply Hstored.
Qed.

Lemma merge_run u p request w w' v :
  run_handler henv w (apply_project_merge u p request) = (w', Ok v) -> merged_into w p request v w'.
Proof.
  intros Hrun. pose proof (merge_spec u p request w) as Hpost. unfold hwp, run_handler in *.
  destruct (apply_project_merge u p request henv (0%nat, w)) as [[n w1] [v1|e]]; [|done].
  by injection Hrun as <- <-.
Qed.

(** ** The theorems *)

(** C29: A merge is the three-way merge of the versions' files. When it succeeds, the project's
    current version is a new one whose ready snapshot holds, for every path, what an explicit
    resolution chose; without one the content of the side that changed the file, and where
    both changed it differently the conflict-free merge of the three texts; no conflict is
    resolved silently. The project's revision was the expected one and is one more. *)
Theorem merge_is_three_way u p request w w' v :
  run_handler henv w (apply_project_merge u p request) = (w', Ok v) ->
  exists master base current result m q,
    h_master_key henv = Some master
    /\ version_files (w_db w) p (am_base_version_id request) = Some base
    /\ version_files (w_db w) p (am_current_version_id request) = Some current
    /\ version_files (w_db w) p (am_result_version_id request) = Some result
    /\ snapshot_manifests (w_db w') !! ver_snapshot_manifest_id v = Some m /\ mf_status m = "ready"
    /\ projects (w_db w') !! p = Some q /\ pr_current_version_id q = Some (ver_id v)
    /\ pr_revision q = (am_expected_project_revision request + 1)%Z
    /\ forall path, exists taken,
         resolved master henv w base current result (requested (am_resolutions request) path) path taken
         /\ file_at (mf_manifest m) path = snapshot_to_upload_file <$> taken.
Proof.
  intros (master & base & current & result & m & Hk & Hb & Hc & Hr & Hm & Hs & _ & Hf & Hall)%merge_run.
  destruct Hs as (_ & Hst & _), Hf as (_ & q & Hq & Hcur & Hrev).
  exists master, base, current, result, m, q. by split_and!.
Qed.

(** C35: A merged version stops being usable. Its snapshot keeps the expiry of one day it was
    created with, so after a day an executor that claims a run on the project's current
    version is answered that its snapshot was not found. *)
Theorem merged_version_expires u p request w w' v :
  run_handler henv w (apply_project_merge u p request) = (w', Ok v) ->
  exists n, forall env spec,
    spec_snapshot_id spec = Some (ver_snapshot_manifest_id v) -> spec_project_id spec = p ->
    (app_now (h_env henv n) + days 1 ≤ db_now env)%Z ->
    run_snapshot spec env (MkTx (w_db w') 0) = Err (snapshot_not_found (ver_snapshot_manifest_id v)).
Proof.
  intros (master & base & current & result & m & Hk & Hb & Hc & Hr & Hm & Hs & Hp & _ & _)%merge_run.
  destruct Hs as (_ & Hst & _ & n & Hexp). exists n. intros env spec Hsnap Hproj Hnow.
  unfold run_snapshot, mbind, tx_bind. simpl. rewrite Hsnap. simpl. rewrite Hm, Hst, Hexp. unfold unexpired. simpl.
  rewrite (proj2 (Z.leb_le _ _) Hnow), andb_false_r. done.
Qed.
End outcome.
