(* ===== verification/ArtifactProperties.v ===== *)
(** * Theorems about run artifacts

    A stored artifact downloads to its bytes, a retried upload stores nothing again, and
    artifacts leave snapshots alone. *)

From stdpp Require Import gmap.
From S2P Require Import Prelude.
From S2P Require Import Text.
From S2P Require Import Json.
From S2P Require Import Contracts.
From S2P Require Import Store.
From S2P Require Import Governance.
From S2P Require Import RunStore.
From S2P Require Import RunRequest.
From S2P Require Import Organization.
From S2P Require Import SyncSystem.
From S2P Require Import ObjectStore.
From S2P Require Import Snapshots.
From S2P Require Import SnapshotMerge.
From S2P Require Import Artifacts.
From S2P Require Import StorageSafety.
From S2P Require Import StorageSystem.

Import Organization Snapshots Merge Artifacts.

(** ** Artifacts leave snapshots alone *)

Lemma artifact_key_not_chunk s run id s' digest :
  artifact_object_key s run id ≠ chunk_object_key s' digest.
Proof. unfold artifact_object_key, chunk_object_key. discriminate. Qed.

Lemma insert_artifact_storage id row : frames storage_frame (insert_artifact id row).
Proof. unfold insert_artifact. frames_steps. Qed.

Lemma next_artifact_revision_storage run name : frames storage_frame (next_artifact_revision run name).
Proof. unfold next_artifact_revision. frames_steps. Qed.

Lemma append_event_storage run kind payload : frames storage_frame (append_event_tx run kind payload).
Proof. autounfold with runops. frames_steps. Qed.

Lemma append_event_with_id_storage run event kind payload :
  frames storage_frame (append_event_tx_with_id run event kind payload).
Proof. autounfold with runops. frames_steps. Qed.

Lemma fresh_uuid_storage : frames storage_frame fresh_uuid.
Proof. frames_steps. Qed.
#[export] Hint Resolve insert_artifact_storage next_artifact_revision_storage append_event_storage
  append_event_with_id_storage fresh_uuid_storage : store.

Section steps.
Context {crypto : StorageCrypto} (henv : HandlerEnv) (w0 : World).

Abbreviation stays := (aside w0).

Lemma aside_transaction {A} (m : Tx A) (Q : A -> nat * World -> Prop) n w :
  stays w -> frames storage_frame m -> (forall a w', stays w' -> Q a (S n, w')) ->
  hwp stays henv (transaction m) Q (n, w).
Proof.
  intros Hw Hf HQ. apply hwp_transaction; [done|]. eapply wp_mono; [apply Hf|].
  intros a s Hs. apply HQ. etrans; [exact Hw|]. by split.
Qed.

Lemma aside_object key f n w (Q : unit -> nat * World -> Prop) :
  stays w -> (forall s d, key ≠ chunk_object_key s d) ->
  (forall o k, k ≠ key -> f o !! k = o !! k) ->
  (forall w', stays w' -> Q tt (S n, w')) ->
  hwp stays henv (change_objects f) Q (n, w).
Proof.
  intros Hw Hk Hf HQ.
  assert (stays {| w_db := w_db w; w_objects := f (w_objects w) |}) as Hw'.
  { etrans; [exact Hw|]. split; [done|]. intros s d. simpl. apply Hf. by apply not_eq_sym. }
  unfold hwp, change_objects. destruct (h_request henv n); [by apply HQ|done|done].
Qed.

Lemma aside_attempt {A} (m : Handler A) (Q : result ApiError A -> nat * World -> Prop) st :
  (forall r st', stays st'.2 -> Q r st') ->
  hwp stays henv m (fun _ st' => stays st'.2) st -> hwp stays henv (attempt m) Q st.
Proof.
  intros HQ Hm. unfold hwp, attempt in *. destruct (m henv st) as [st' [a|e]]; by apply HQ.
Qed.

Lemma new_artifact_aside mk s id run name path source ev bytes st :
  stays st.2 ->
  hwp stays henv (new_artifact mk s id run name path source ev bytes) (fun _ st' => stays st'.2) st.
Proof.
  destruct st as [n w]. intros Hw. unfold new_artifact. apply hwp_bind.
  unfold hwp at 1, random_bytes. destruct (h_random henv n) as [r|]; [|done].
  apply hwp_bind, hwp_hlift; [done|]. intros e _. apply hwp_bind.
  apply (aside_object (artifact_object_key s run id)); [done| | |].
  { intros s' d. apply artifact_key_not_chunk. }
  { intros o k Hk. by rewrite lookup_insert_ne. }
  intros w1 Hw1. apply hwp_bind, aside_transaction; [done|auto with store|]. intros rev w2 Hw2.
  apply hwp_bind, aside_attempt.
  - intros [u|e'] [n3 w3] Hw3; [by apply hwp_ret|]. apply hwp_bind, aside_attempt.
    + intros r' st4 Hw4. by apply hwp_hlift.
    + apply (aside_object (artifact_object_key s run id)); [done| | |done].
      * intros s' d. apply artifact_key_not_chunk.
      * intros o k Hk. by rewrite lookup_delete_ne.
  - apply aside_transaction; [done|auto with store|done].
Qed.

Lemma persist_aside mk run p u path source ev bytes st :
  stays st.2 ->
  hwp stays henv (persist_run_artifact mk run p u path source ev bytes) (fun _ st' => stays st'.2) st.
Proof.
  destruct st as [n w]. intros Hw. unfold persist_run_artifact.
  apply hwp_bind, aside_transaction; [done|auto with store|]. intros s w1 Hw1.
  apply hwp_bind, aside_transaction; [done|auto with store|]. intros id w2 Hw2.
  apply hwp_bind, hwp_hlift; [done|]. intros name _. apply hwp_bind, hwp_tables.
  destruct (ev ≫= _) as [[id' row]|]; [by apply hwp_hlift|]. by apply new_artifact_aside.
Qed.

Lemma run_row_aside run (Q : RunRow -> nat * World -> Prop) n w :
  stays w -> (forall r, Q r (n, w)) -> hwp stays henv (run_row run) Q (n, w).
Proof.
  intros Hw HQ. unfold run_row. apply hwp_bind, hwp_tables, hwp_hlift; [done|]. intros r _. apply HQ.
Qed.
End steps.

Section artifact_steps.
Context {crypto : StorageCrypto} {lib : MergeLib}.

(** The handlers that store artifacts are steps of snapshot storage that leave it alone. *)
Lemma attachment_is_step master henv u run name body w :
  storage_step master w (run_handler henv w (upload_run_attachment u run name body)).1.
Proof.
  apply step_other, hwp_run. unfold upload_run_attachment.
  apply hwp_bind, hwp_hlift; [done|]. intros [] _. apply hwp_bind, hwp_hlift; [done|]. intros [] _.
  apply hwp_bind, run_row_aside; [done|]. intros r.
  apply hwp_bind, aside_transaction; [done|auto with store|]. intros _ w1 Hw1.
  apply hwp_bind, hwp_require_store; [done|]. intros mk _.
  apply hwp_bind. eapply hwp_mono; [by apply persist_aside|]. intros payload [n2 w2] Hw2.
  apply hwp_bind, aside_transaction; [done|auto with store|]. intros _ w3 Hw3. by apply hwp_ret.
Qed.

Lemma executor_artifact_is_step master henv principal e run path source ev token body w :
  storage_step master w
    (run_handler henv w (upload_executor_run_artifact principal e run path source ev token body)).1.
Proof.
  apply step_other, hwp_run. unfold upload_executor_run_artifact.
  do 3 (apply hwp_bind, hwp_hlift; [done|]; intros [] _).
  apply hwp_bind, aside_transaction; [done|auto with store|]. intros spec w1 Hw1.
  apply hwp_bind, hwp_require_store; [done|]. intros mk _.
  apply hwp_bind. eapply hwp_mono; [by apply persist_aside|]. intros payload [n2 w2] Hw2.
  apply hwp_bind, aside_transaction; [done|destruct ev; auto with store|]. intros _ w3 Hw3. by apply hwp_ret.
Qed.
End artifact_steps.

(** ** What storing an artifact does *)

Section round_trip.
Context {crypto : StorageCrypto} {laws : CryptoLaws} (master : string).

(** The artifact's row, its object and the answer, over the world before. *)
Definition stored_in (w w' : World) (s : KeyScope) (id run : Uuid) (name path source : string)
    (ev : option Uuid) (bytes : string) (payload : Value) : Prop :=
  exists revision e now,
    let row := artifact_row s id run revision name path source ev bytes e now in
    run_artifacts (w_db w') = <[id := row]> (run_artifacts (w_db w))
    /\ run_artifacts (w_db w) !! id = None
    /\ is_Some (runs (w_db w') !! run) /\ projects (w_db w') = projects (w_db w)
    /\ w_objects w' !! af_object_key row = Some (enc_ciphertext e)
    /\ decrypt master s (enc_ciphertext e) (enc_wrapped_data_key e) (enc_nonce e) (enc_wrap_nonce e)
       = Ok bytes
    /\ payload = artifact_payload id run revision (af_kind row) (af_media_type row) name
                   (hex_digest bytes) (str_len bytes) path.

Lemma hwp_true {A} henv (m : Handler A) st : hwp (fun _ => True) henv m (fun _ _ => True) st.
Proof. unfold hwp. by destruct (m henv st) as [? []]. Qed.

Lemma hwp_attempted {A} henv (m : Handler A) (Q : result ApiError A -> nat * World -> Prop) st :
  (forall e st', Q (Err e) st') -> hwp (fun _ => True) henv m (fun a => Q (Ok a)) st ->
  hwp (fun _ => True) henv (attempt m) Q st.
Proof. intros He Hm. unfold hwp, attempt in *. destruct (m henv st) as [st' [a|e]]; auto. Qed.

Lemma new_artifact_stores henv s id run name path source ev bytes n w :
  henv_ok master henv ->
  hwp (fun _ => True) henv (new_artifact master s id run name path source ev bytes)
    (fun payload st => stored_in w st.2 s id run name path source ev bytes payload) (n, w).
Proof.
  intros Henv. unfold new_artifact. apply hwp_bind.
  unfold hwp at 1, random_bytes. destruct (h_random henv n) as [r|] eqn:Hr; [|done].
  destruct (ho_random _ _ Henv _ _ Hr) as [Hn1 Hn2]. apply hwp_bind, hwp_hlift; [done|].
  intros e He. pose proof (decrypt_encrypt _ _ _ _ _ Hn1 Hn2 He) as Hd. apply hwp_bind.
  unfold hwp at 1, change_objects. destruct (h_request henv (S n)); [|done..].
  apply hwp_bind, hwp_transaction; [done|]. unfold next_artifact_revision. wp_steps.
  set (revision := (_ + 1)%Z). apply hwp_bind, hwp_attempted.
  - intros err st. apply hwp_bind. eapply hwp_mono; [apply hwp_true|]. intros r' st' _. by apply hwp_hlift.
  - apply hwp_transaction; [done|]. unfold insert_artifact. wp_steps.
    destruct (bool_decide _) eqn:Hnew in H0; [done|].
    apply bool_decide_eq_false in Hnew. apply eq_None_not_Some in Hnew.
    apply negb_false_iff, bool_decide_eq_true in H2. apply hwp_ret.
    exists revision, e, (db_now (h_env henv (S (S (S n))))). simpl in *.
    split_and!; [done|done|done|done| |done|done]. by rewrite lookup_insert_eq.
Qed.

(** The scope depends on the projects only. *)
Lemma project_scope_same env env' p u st st' s x :
  projects (tx_db st') = projects (tx_db st) ->
  project_scope p u env st = Ok (s, x) -> x = st /\ project_scope p u env' st' = Ok (s, st').
Proof.
  intros Hp. unfold project_scope, live_project, mbind, tx_bind. simpl. rewrite Hp.
  destruct (projects (tx_db st) !! p) as [q|]; simpl; [|done].
  destruct (pr_deleted_at q); simpl; [done|]. destruct (pr_privacy q); simpl.
  - unfold reject_if. destruct (bool_decide (pr_owner_user_id q ≠ u)); simpl; [done|]. by intros [= <- <-].
  - destruct (pr_team_id q); simpl; [|done]. by intros [= <- <-].
Qed.

(** A successful upload of something new. *)
Definition persisted (w w' : World) (run p u : Uuid) (path source : string) (ev : option Uuid)
    (bytes : string) (payload : Value) : Prop :=
  exists s id name, file_name path = Some name
    /\ (forall env st, projects (tx_db st) = projects (w_db w) -> project_scope p u env st = Ok (s, st))
    /\ stored_in w w' s id run name path source ev bytes payload.

Lemma persist_stores henv run p u path source ev bytes n w :
  henv_ok master henv -> ev ≫= artifact_of_event (w_db w) run = None ->
  hwp (fun _ => True) henv (persist_run_artifact master run p u path source ev bytes)
    (fun payload st => persisted w st.2 run p u path source ev bytes payload) (n, w).
Proof.
  intros Henv Hev. unfold persist_run_artifact. apply hwp_bind.
  unfold hwp at 1, transaction, run_tx.
  destruct (project_scope p u (h_env henv n) (MkTx (w_db w) 0)) as [[s x]|err] eqn:Hs; [|done].
  assert (x = MkTx (w_db w) 0) as -> by (by destruct (project_scope_same _ (h_env henv n) _ _ _ _ _ _ eq_refl Hs)).
  cbn [tx_db]. assert ({| w_db := w_db w; w_objects := w_objects w |} = w) as -> by (by destruct w).
  apply hwp_bind. unfold hwp at 1, transaction, run_tx. cbn [fresh_uuid tx_db].
  assert ({| w_db := w_db w; w_objects := w_objects w |} = w) as -> by (by destruct w).
  apply hwp_bind, hwp_hlift; [done|]. intros name Hname%ok_or_Ok. apply hwp_bind, hwp_tables. rewrite Hev.
  eapply hwp_mono; [by apply new_artifact_stores|]. intros payload st Hst.
  eexists s, _, name. split_and!; [done| |exact Hst]. intros env' st' Hp.
  by destruct (project_scope_same _ env' p u (MkTx (w_db w) 0) st' _ _ Hp Hs).
Qed.

(** ** Downloading it *)

Lemma artifact_scope_of s id run revision name path source ev bytes e now :
  artifact_scope (artifact_row s id run revision name path source ev bytes e now) = Ok s.
Proof. unfold artifact_scope. simpl. by destruct s. Qed.

Lemma download_stored henv w db u run id r row s name path source ev revision bytes e now role :
  row = artifact_row s id run revision name path source ev bytes e now ->
  run_artifacts (w_db w) !! id = Some row -> runs (w_db w) !! run = Some r ->
  w_objects w !! af_object_key row = Some (enc_ciphertext e) ->
  decrypt master s (enc_ciphertext e) (enc_wrapped_data_key e) (enc_nonce e) (enc_wrap_nonce e) = Ok bytes ->
  h_master_key henv = Some master -> (forall n, h_request henv n = Answered) ->
  run_tx (h_env henv 0) (w_db w)
    (ensure_thread_role u (ins_project_id (run_ins r)) (ins_thread_id (run_ins r)) Viewer) = (db, Ok role) ->
  run_handler henv w (download_run_artifact u run id)
  = ({| w_db := db; w_objects := w_objects w |},
     Ok {| ar_content_type := (artifact_media name).2; ar_content_length := str_len bytes;
           ar_content_disposition := "inline; filename*=UTF-8''" +:+ encode_segment name;
           ar_body := bytes |}).
Proof.
  intros -> Hrow Hr Hobj Hd Hkey Hreq Hrole. set (row := artifact_row _ _ _ _ _ _ _ _ _ _ _) in *.
  assert (live_artifact (w_db w) run id = Some (row, r)) as Hlive.
  { unfold live_artifact. rewrite Hrow, Hr. simpl. by rewrite bool_decide_true. }
  assert (transaction (ensure_thread_role u (ins_project_id (run_ins r)) (ins_thread_id (run_ins r)) Viewer)
            henv (0%nat, w) = ((1%nat, {| w_db := db; w_objects := w_objects w |}), Ok role)) as Htx.
  { unfold transaction. by rewrite Hrole. }
  unfold run_handler, download_run_artifact, configured_store, get_decrypted, hlift, tables, mbind, handler_bind.
  rewrite Hlive. cbn [ok_or]. rewrite Htx, Hkey. cbn [ok_or]. unfold row at 1. rewrite artifact_scope_of.
  cbn [ok_or af_encrypted_data_key af_nonce af_wrap_nonce row artifact_row].
  unfold get_object. rewrite Hreq. cbn [w_objects]. fold row. change (artifact_object_key s run id) with (af_object_key row).
  rewrite Hobj. cbn [ok_or]. rewrite Hd. cbn [af_digest row artifact_row]. by rewrite String.eqb_refl.
Qed.

(** ** Retrying it *)

Lemma stored_event w w' s id run name path source event bytes payload :
  artifact_of_event (w_db w) run event = None ->
  stored_in w w' s id run name path source (Some event) bytes payload ->
  exists row, artifact_of_event (w_db w') run event = Some (id, row)
    /\ retried_artifact id row run path source bytes = Ok payload.
Proof.
  intros Hnone (revision & e & now & Hrows & Hnew & _ & _ & _ & _ & ->).
  set (row := artifact_row _ _ _ _ _ _ _ _ _ _ _) in *. exists row. split.
  - unfold artifact_of_event in *. destruct (select_one _ (run_artifacts (w_db w'))) as [[k r]|] eqn:Hsel.
    + apply select_one_Some in Hsel as [Hk Hp]. rewrite Hrows in Hk.
      apply lookup_insert_Some in Hk as [[<- <-]|[_ Hk]]; [done|].
      pose proof (select_one_None _ _ _ _ Hnone Hk) as Hf. simpl in *. congruence.
    + pose proof (select_one_None _ _ id row Hsel) as Hf. rewrite Hrows, lookup_insert_eq in Hf.
      specialize (Hf eq_refl). simpl in Hf. by rewrite !bool_decide_true in Hf.
  - unfold retried_artifact. cbn [row artifact_row af_digest af_size_bytes af_metadata].
    rewrite String.eqb_refl, Z.eqb_refl. simpl. rewrite !bool_decide_false by (intros H; by apply H). done.
Qed.

Lemma retry_run henv n w w' run p u path source event bytes payload :
  artifact_of_event (w_db w) run event = None ->
  persisted w w' run p u path source (Some event) bytes payload ->
  exists n', persist_run_artifact master run p u path source (Some event) bytes henv (n, w')
             = ((n', w'), Ok payload).
Proof.
  intros Hnone (s & id & name & Hname & Hscope & Hst).
  destruct (stored_event _ _ _ _ _ _ _ _ _ _ _ Hnone Hst) as (row & Hev & Hretry).
  destruct Hst as (revision & e & now & _ & _ & _ & Hp & _).
  exists (S (S n)). unfold persist_run_artifact, transaction, run_tx, hlift, tables, mbind, handler_bind.
  rewrite (Hscope (h_env henv n) (MkTx (w_db w') 0) Hp). cbn [tx_db fresh_uuid]. rewrite Hname.
  cbn [ok_or option_bind]. simpl. rewrite Hev, Hretry. by destruct w'.
Qed.

(** C31: An artifact is stored once and downloads to its bytes. After a successful upload the
    artifact named by the answer can be downloaded, by anyone who may read its thread, as
    exactly the uploaded bytes; and an executor that repeats the upload under the same event
    gets the same answer, without a second row or object. *)
Theorem artifacts_are_stored_once henv n n' run p u path source ev bytes w w' payload :
  henv_ok master henv -> ev ≫= artifact_of_event (w_db w) run = None ->
  persist_run_artifact master run p u path source ev bytes henv (n, w) = ((n', w'), Ok payload) ->
  exists id r, get_str "id" payload = Some (uuid_to_string id) /\ runs (w_db w') !! run = Some r
    /\ (forall reader henv2 db role,
          h_master_key henv2 = Some master -> (forall k, h_request henv2 k = Answered) ->
          run_tx (h_env henv2 0) (w_db w')
            (ensure_thread_role reader (ins_project_id (run_ins r)) (ins_thread_id (run_ins r)) Viewer)
          = (db, Ok role) ->
          exists response, run_handler henv2 w' (download_run_artifact reader run id)
                           = ({| w_db := db; w_objects := w_objects w' |}, Ok response)
            /\ ar_body response = bytes)
    /\ (forall event henv2 k, ev = Some event ->
          exists k', persist_run_artifact master run p u path source ev bytes henv2 (k, w')
                     = ((k', w'), Ok payload)).
Proof.
  intros Henv Hev Hrun. pose proof (persist_stores henv run p u path source ev bytes n w Henv Hev) as Hpost.
  unfold hwp in Hpost. rewrite Hrun in Hpost. simpl in Hpost. pose proof Hpost as Hp.
  destruct Hpost as (s & id & name & Hname & Hscope & revision & e & now & Hrows & Hnew & [r Hr] & _ & Hobj & Hd & Hpay).
  exists id, r. split_and!; [by rewrite Hpay|done| |].
  - intros reader henv2 db role Hkey Hreq Hrole. eexists. split.
    + eapply (download_stored henv2 w' db reader run id r _ s name path source ev revision bytes e now role);
        try done. by rewrite Hrows, lookup_insert_eq.
    + done.
  - intros event henv2 k ->. by eapply retry_run.
Qed.
End round_trip.
