(* ===== verification/SnapshotWitness.v ===== *)
(** * The theorems on snapshots at concrete inputs

    A private project with two snapshots and two versions, a bucket that answers, and stand-ins
    for the cryptographic crates: encryption that keeps its text, and digests that are the
    first 32 bytes. *)

From stdpp Require Import gmap.
From S2P Require Import Prelude.
From S2P Require Import Text.
From S2P Require Import Json.
From S2P Require Import Contracts.
From S2P Require Import Store.
From S2P Require Import Demo.
From S2P Require Import Governance.
From S2P Require Import RunStore.
From S2P Require Import Organization.
From S2P Require Import ObjectStore.
From S2P Require Import Snapshots.
From S2P Require Import SnapshotMerge.
From S2P Require Import StorageSafety.
From S2P Require Import SnapshotReading.
From S2P Require Import StorageSystem.
From S2P Require Import StorageCollection.
From S2P Require Import SnapshotProperties.
From S2P Require Import MergeSafety.
From S2P Require Import MergeProperties.
From S2P Require Import Artifacts.
From S2P Require Import ArtifactProperties.
From S2P Require Import ScheduleWitness.

Import Organization Snapshots Merge Artifacts.

(** ** The deployment *)

Definition zeros : string := "00000000000000000000000000000000".

Definition first_bytes (s : string) : string := str_take 32 (s +:+ zeros).

Lemma first_bytes_length s : str_len (first_bytes s) = 32%Z.
Proof.
  unfold first_bytes, str_len. rewrite str_length_take, string_length_app.
  change (String.length zeros) with 32%nat. lia.
Qed.

#[global] Instance demo_crypto : StorageCrypto :=
  {| gcm_encrypt := fun _ _ plaintext => Some plaintext;
     gcm_decrypt := fun _ _ ciphertext => Some ciphertext;
     hmac_sha256 := fun key message => first_bytes (key +:+ message);
     sha256 := first_bytes |}.

#[global] Instance demo_laws : CryptoLaws.
Proof.
  split; [by intros key nonce p c [= <-]|intros; apply first_bytes_length|intros; apply first_bytes_length].
Qed.

#[global] Instance demo_merge : MergeLib := {| diffy_merge := fun _ current result => Ok (current +:+ result) |}.

(** The [k]-th handler: its own clock and identifiers, and the fate of its requests. *)
Definition snap_henv (k : nat) (request : nat -> Request) : HandlerEnv :=
  {| h_env := fun n => demo_env (N.of_nat (20 * k + n)); h_request := request;
     h_random := fun _ => Ok (zeros, "0123456789ab", "ba9876543210");
     h_chunk_locked := fun _ => false; h_master_key := Some "master" |}.

Definition answering (k : nat) : HandlerEnv := snap_henv k (fun _ => Answered).

Lemma snap_henv_ok k request : henv_ok "master" (snap_henv k request).
Proof. split; [by intros key [= <-]|]. intros n r [= <-]. done. Qed.

Definition snap_project : ProjectRow :=
  {| pr_revision := 1; pr_etag := ""; pr_owner_user_id := 1%N; pr_team_id := None;
     pr_privacy := PrivateLocal;
     pr_name := "demo"; pr_description := ""; pr_preferred_executor_target := None;
     pr_policy := JObject []; pr_current_version_id := None; pr_created_at := 0;
     pr_updated_at := 0; pr_deleted_at := None |}.

Definition snap_world : World :=
  {| w_db := set_projects {[ 20%N := snap_project ]} demo_db; w_objects := ∅ |}.

Definition snap_chunk (bytes : string) : SnapshotUploadChunk :=
  {| uc_digest := hex_digest bytes; uc_plaintext_size := str_len bytes |}.

Definition snap_file (path bytes : string) : SnapshotUploadFile :=
  {| uf_path := path; uf_size := str_len bytes; uf_mode := 420; uf_modified_at := 0;
     uf_chunks := [snap_chunk bytes] |}.

Definition begin_request (files : list SnapshotUploadFile) : BeginSnapshotUploadRequest :=
  {| bs_project_id := 20%N; bs_total_bytes := sum_sizes files; bs_files := files; bs_expires_at := None |}.

(** ** Two snapshots, two versions *)

Definition first_files : list SnapshotUploadFile := [snap_file "src/a.txt" "hello"].
Definition second_files : list SnapshotUploadFile :=
  [snap_file "src/a.txt" "changed"; snap_file "b.txt" "new"].

Definition first_id : Uuid := 1200%N.
Definition second_id : Uuid := 11200%N.
Definition first_version : Uuid := 7100%N.
Definition second_version : Uuid := 19100%N.

Definition version_request (id : Uuid) : CreateProjectVersionRequest :=
  {| cv_snapshot_manifest_id := id; cv_parent_version_id := None; cv_merge_base_version_id := None;
     cv_created_by_run_id := None; cv_diff_summary := JNull |}.

Definition first_apply : ApplyProjectVersionRequest :=
  {| av_expected_project_revision := 1; av_expected_current_version_id := None |}.

Definition after {A} (henv : HandlerEnv) (m : Handler A) (w : World) : World := (run_handler henv w m).1.

Definition world_1 : World :=
  after (answering 0) (begin_snapshot_upload_for 1%N (begin_request first_files) None) snap_world.
Definition world_2 : World :=
  after (answering 1) (upload_snapshot_chunk 1%N first_id (hex_digest "hello") "hello") world_1.
Definition world_3 : World := after (answering 2) (commit_snapshot [] 1%N first_id) world_2.
Definition world_4 : World :=
  after (answering 3) (create_project_version 1%N 20%N (version_request first_id)) world_3.
Definition world_5 : World :=
  after (answering 4) (apply_project_version 1%N 20%N first_version first_apply) world_4.
Definition world_6 : World :=
  after (answering 5) (begin_snapshot_upload_for 1%N (begin_request second_files) None) world_5.
Definition world_7 : World :=
  after (answering 6) (upload_snapshot_chunk 1%N second_id (hex_digest "changed") "changed") world_6.
Definition world_8 : World :=
  after (answering 7) (upload_snapshot_chunk 1%N second_id (hex_digest "new") "new") world_7.
Definition world_9 : World := after (answering 8) (commit_snapshot [] 1%N second_id) world_8.
Definition world_10 : World :=
  after (answering 9) (create_project_version 1%N 20%N (version_request second_id)) world_9.

Lemma snap_world_fresh : no_snapshots snap_world.
Proof.
  split; [done..|]. intros id p Hp.
  change (({[ 20%N := snap_project ]} : gmap Uuid ProjectRow) !! id = Some p) in Hp.
  apply lookup_singleton_Some in Hp as [<- <-]. split; [done|].
  by intros team.
Qed.

Lemma world_3_reachable : storage_reachable "master" world_3.
Proof.
  exists snap_world. split; [apply snap_world_fresh|].
  apply (rtc_l _ _ world_1); [apply step_begin, snap_henv_ok|].
  apply (rtc_l _ _ world_2); [apply step_upload, snap_henv_ok|].
  apply rtc_once. apply step_commit, snap_henv_ok.
Qed.

Lemma world_10_reachable : storage_reachable "master" world_10.
Proof.
  destruct world_3_reachable as (w0 & H0 & Hsteps). exists w0. split; [done|].
  etrans; [exact Hsteps|].
  apply (rtc_l _ _ world_4); [apply step_create_version, snap_henv_ok|].
  apply (rtc_l _ _ world_5); [apply step_apply_version, snap_henv_ok|].
  apply (rtc_l _ _ world_6); [apply step_begin, snap_henv_ok|].
  apply (rtc_l _ _ world_7); [apply step_upload, snap_henv_ok|].
  apply (rtc_l _ _ world_8); [apply step_upload, snap_henv_ok|].
  apply (rtc_l _ _ world_9); [apply step_commit, snap_henv_ok|].
  apply rtc_once. apply step_create_version, snap_henv_ok.
Qed.

(** ** Reading *)

Definition second_row : ManifestRow :=
  {| mf_project_id := 20%N; mf_created_by := 1%N; mf_key_scope_type := "user"; mf_key_scope_id := 1%N;
     mf_encryption_key_id := "master-v1:user:00000000-0000-0000-0000-000000000001";
     mf_total_bytes := 10; mf_file_count := 2; mf_manifest := second_files; mf_status := "ready";
     mf_source_run_id := None; mf_created_at := 1102000000; mf_expires_at := Some 2593102000000%Z;
     mf_upload_expires_at := 87502000000; mf_warnings := []; mf_committed_at := Some 1160000000%Z |}.

Lemma second_row_stored : snapshot_manifests (w_db world_10) !! second_id = Some second_row.
Proof. run_eq. Qed.

Definition reader : HandlerEnv := answering 20.

Definition read_db : Db :=
  (run_tx (h_env reader 0) (w_db world_10) (accessible_manifest 1%N second_id Viewer)).1.

Lemma second_row_read :
  run_tx (h_env reader 0) (w_db world_10) (accessible_manifest 1%N second_id Viewer) = (read_db, Ok second_row).
Proof. unfold read_db. apply answer_is. run_eq. Qed.

Lemma ready_snapshot_is_readable_witness :
  Forall2 reads_back second_files (sm_files (snapshot_from_row (w_db world_10) second_id second_row))
  /\ exists bytes, run_handler reader world_10 (download_snapshot_chunk 1%N second_id (hex_digest "new"))
                   = ({| w_db := read_db; w_objects := w_objects world_10 |}, Ok bytes)
       /\ hex_digest bytes = hex_digest "new".
Proof.
  destruct (ready_snapshot_is_readable "master" world_10 second_id second_row world_10_reachable
    second_row_stored eq_refl) as [Hfiles Hchunks]. split; [exact Hfiles|].
  apply (Hchunks (snap_file "b.txt" "new") (snap_chunk "new")).
  - right. left.
  - left.
  - done.
  - done.
  - exact second_row_read.
Defined.

Lemma reference_counts_are_exact_witness :
  ck_ref_count <$> snapshot_chunks (w_db world_10) !! chunk_key (ScopeOfUser 1%N) (hex_digest "new") = Some 1%Z
  /\ references (w_db world_10) (chunk_key (ScopeOfUser 1%N) (hex_digest "new")) = 1%nat.
Proof.
  destruct (reference_counts_are_exact "master" world_10 world_10_reachable) as [Hcount _].
  assert (ck_ref_count <$> snapshot_chunks (w_db world_10) !! chunk_key (ScopeOfUser 1%N) (hex_digest "new")
          = Some 1%Z) as Hone by run_eq.
  split; [exact Hone|]. apply fmap_Some_1 in Hone as (row & Hrow & Hrc).
  pose proof (Hcount _ _ Hrow). lia.
Defined.

Lemma manifests_are_well_formed_witness : files_ok 10 second_files.
Proof.
  exact (manifests_are_well_formed "master" world_10 second_id second_row world_10_reachable second_row_stored).
Defined.

(** ** Collecting *)

(** The first snapshot deleted before a version names it. *)
Definition deleted_world : World := after (answering 11) (delete_snapshot 1%N first_id) world_3.

Lemma deleted_world_reachable : storage_reachable "master" deleted_world.
Proof.
  destruct world_3_reachable as (w0 & H0 & Hsteps). exists w0. split; [done|].
  etrans; [exact Hsteps|]. apply rtc_once. apply step_delete, snap_henv_ok.
Qed.

Definition owner_scope : KeyScope := ScopeOfUser 1%N.
Definition hello_key : ChunkKey := chunk_key owner_scope (hex_digest "hello").

Definition hello_row (status : string) : ChunkRow :=
  {| ck_object_key := chunk_object_key owner_scope (hex_digest "hello"); ck_plaintext_size := 5;
     ck_ciphertext_size := 5; ck_wrapped_data_key := zeros; ck_nonce := "0123456789ab";
     ck_wrap_nonce := Some "ba9876543210"; ck_ref_count := 0; ck_status := status;
     ck_last_referenced_at := 1221000000 |}.

Lemma hello_row_stored : snapshot_chunks (w_db deleted_world) !! hello_key = Some (hello_row "ready").
Proof. run_eq. Qed.

Lemma unused_chunks_are_collected_witness :
  exists w' deleted, run_handler (answering 12) deleted_world (garbage_collect 10) = (w', Ok deleted)
    /\ snapshot_chunks (w_db w') !! hello_key = None
    /\ w_objects w' !! chunk_object_key owner_scope (hex_digest "hello") = None.
Proof.
  apply (unused_chunks_are_collected "master" deleted_world (answering 12) 10 hello_key (hello_row "ready")).
  - exact deleted_world_reachable.
  - done.
  - exact hello_row_stored.
  - run_eq.
  - assert (snapshot_chunk_reservations (w_db deleted_world) = ∅) as -> by run_eq. intros id. apply not_elem_of_empty.
  - done.
  - assert (size (snapshot_chunks (w_db deleted_world)) = 1%nat) as -> by run_eq. unfold clamp. lia.
Defined.

(** The collector has marked the chunk. *)
Definition marked_world : World := after (answering 13) (transaction (mark_chunks (fun _ => false) 10)) deleted_world.

Lemma hello_marked : snapshot_chunks (w_db marked_world) !! hello_key = Some (hello_row "deleting").
Proof. run_eq. Qed.

Definition lost_world : World :=
  (collect_chunk 0 (hello_key, hello_row "deleting") (snap_henv 14 (fun _ => Unanswered)) (0%nat, marked_world)).1.2.

Lemma unanswered_deletion_loses_chunk_witness :
  w_objects lost_world !! chunk_object_key owner_scope (hex_digest "hello") = None
  /\ is_Some (ready_chunk (w_db lost_world) owner_scope (hex_digest "hello")).
Proof.
  destruct (unanswered_deletion_loses_chunk (snap_henv 14 (fun _ => Unanswered)) 0 marked_world
    owner_scope (hex_digest "hello") (hello_row "deleting") 0 hello_marked eq_refl eq_refl)
    as [Hgone (row & Hready & _)].
  split; [exact Hgone|]. exists row. exact Hready.
Defined.

(** An upload writes the object, the collector deletes it, the upload stores its row. *)
Definition raced_put : (nat * World) * result ApiError (string * EncryptedChunk) :=
  put_encrypted "master" owner_scope (hex_digest "hello") "hello" (answering 15) (0%nat, marked_world).
Definition written : string * EncryptedChunk :=
  (chunk_object_key owner_scope (hex_digest "hello"),
   {| enc_ciphertext := "hello"; enc_wrapped_data_key := zeros; enc_nonce := "0123456789ab";
      enc_wrap_nonce := "ba9876543210" |}).
Definition raced_collect : (nat * World) * result ApiError nat :=
  collect_chunk 0 (hello_key, hello_row "deleting") (answering 15) (raced_put.1.1, raced_put.1.2).
Definition raced_store : (nat * World) * result ApiError SnapshotChunkReceipt :=
  transaction (store_chunk first_id owner_scope (hex_digest "hello") "hello" written.1 written.2)
    (answering 15) (raced_collect.1.1, raced_collect.1.2).
Definition raced_receipt : SnapshotChunkReceipt :=
  {| cr_manifest_id := first_id; cr_digest := hex_digest "hello"; cr_plaintext_size := 5;
     cr_ciphertext_size := 5; cr_deduplicated := false; cr_warnings := [] |}.

Lemma step_is {A} (p : (nat * World) * A) b : p.2 = b -> p = ((p.1.1, p.1.2), b).
Proof. destruct p as [[n w] a]. simpl. by intros ->. Qed.

Lemma raced_put_run :
  put_encrypted "master" owner_scope (hex_digest "hello") "hello" (answering 15) (0%nat, marked_world)
  = ((raced_put.1.1, raced_put.1.2), Ok written).
Proof. unfold raced_put. apply step_is. run_eq. Qed.

Lemma raced_collect_run :
  collect_chunk 0 (hello_key, hello_row "deleting") (answering 15) (raced_put.1.1, raced_put.1.2)
  = ((raced_collect.1.1, raced_collect.1.2), Ok 1%nat).
Proof. unfold raced_collect. apply step_is. run_eq. Qed.

Lemma raced_store_run :
  transaction (store_chunk first_id owner_scope (hex_digest "hello") "hello" written.1 written.2)
    (answering 15) (raced_collect.1.1, raced_collect.1.2)
  = ((raced_store.1.1, raced_store.1.2), Ok raced_receipt).
Proof. unfold raced_store. apply step_is. run_eq. Qed.

Lemma collection_races_with_upload_witness :
  ready_chunk (w_db marked_world) owner_scope (hex_digest "hello") = None
  /\ exists row, ready_chunk (w_db raced_store.1.2) owner_scope (hex_digest "hello") = Some row
       /\ w_objects raced_store.1.2 !! ck_object_key row = None.
Proof.
  exact (collection_races_with_upload "master" (answering 15) 0 raced_put.1.1 raced_collect.1.1
    raced_store.1.1 marked_world raced_put.1.2 raced_collect.1.2 raced_store.1.2 owner_scope
    (hex_digest "hello") "hello" first_id (hello_row "deleting") written 1 raced_receipt
    hello_marked eq_refl eq_refl raced_put_run eq_refl raced_collect_run raced_store_run).
Defined.

(** ** Merging *)

Definition merge_request : ApplyProjectMergeRequest :=
  {| am_base_version_id := first_version; am_current_version_id := first_version;
     am_result_version_id := second_version; am_expected_project_revision := 2; am_resolutions := [] |}.

Definition merged : World * result ApiError ProjectVersion :=
  run_handler (answering 16) world_10 (apply_project_merge 1%N 20%N merge_request).

Definition merged_version : ProjectVersion :=
  {| ver_id := 33300%N; ver_project_id := 20%N; ver_revision := 3;
     ver_parent_version_id := Some first_version; ver_merge_base_version_id := Some first_version;
     ver_snapshot_manifest_id := 33200%N; ver_created_by_run_id := None; ver_created_at := 1323000000 |}.

Lemma merged_run :
  run_handler (answering 16) world_10 (apply_project_merge 1%N 20%N merge_request)
  = (merged.1, Ok merged_version).
Proof. unfold merged. apply answer_is. run_eq. Qed.

Lemma merge_is_three_way_witness :
  exists m q, snapshot_manifests (w_db merged.1) !! 33200%N = Some m /\ mf_status m = "ready"
    /\ projects (w_db merged.1) !! 20%N = Some q /\ pr_current_version_id q = Some 33300%N
    /\ pr_revision q = 3%Z.
Proof.
  destruct (merge_is_three_way (answering 16) 1%N 20%N merge_request world_10 merged.1 merged_version
    merged_run) as (master & base & current & result & m & q & _ & _ & _ & _ & Hm & Hst & Hq & Hc & Hr & _).
  exists m, q. split_and!; [exact Hm|exact Hst|exact Hq|exact Hc|exact Hr].
Defined.

Lemma merged_version_expires_witness :
  exists n, forall env spec,
    spec_snapshot_id spec = Some 33200%N -> spec_project_id spec = 20%N ->
    (app_now (h_env (answering 16) n) + days 1 ≤ db_now env)%Z ->
    run_snapshot spec env (MkTx (w_db merged.1) 0) = Err (snapshot_not_found 33200%N).
Proof.
  exact (merged_version_expires (answering 16) 1%N 20%N merge_request world_10 merged.1 merged_version
    merged_run).
Defined.

(** ** An artifact *)

Definition run_world : World :=
  {| w_db := (run_tx (demo_env 1) (w_db snap_world) (create_run (demo_spec 100 "k1" server_target) Queued)).1;
     w_objects := ∅ |}.

Definition storing : (nat * World) * result ApiError Value :=
  persist_run_artifact "master" 100%N 20%N 1%N "artifacts/report.txt" "tool" (Some 77%N) "findings"
    (answering 17) (0%nat, run_world).

Definition report_payload : Value :=
  artifact_payload 35100%N 100%N 1 "log" "text/plain; charset=utf-8" "report.txt" (hex_digest "findings") 8
    "artifacts/report.txt".

Lemma storing_run :
  persist_run_artifact "master" 100%N 20%N 1%N "artifacts/report.txt" "tool" (Some 77%N) "findings"
    (answering 17) (0%nat, run_world)
  = ((storing.1.1, storing.1.2), Ok report_payload).
Proof. unfold storing. apply step_is. run_eq. Qed.

Lemma artifacts_are_stored_once_witness :
  exists id r, get_str "id" report_payload = Some (uuid_to_string id)
    /\ runs (w_db storing.1.2) !! 100%N = Some r
    /\ exists k, persist_run_artifact "master" 100%N 20%N 1%N "artifacts/report.txt" "tool" (Some 77%N)
                   "findings" (answering 18) (0%nat, storing.1.2)
                 = ((k, storing.1.2), Ok report_payload).
Proof.
  assert (Some 77%N ≫= artifact_of_event (w_db run_world) 100%N = None) as Hnew by run_eq.
  destruct (artifacts_are_stored_once "master" (answering 17) 0 storing.1.1 100%N 20%N 1%N
    "artifacts/report.txt" "tool" (Some 77%N) "findings" run_world storing.1.2 report_payload
    (snap_henv_ok 17 (fun _ => Answered)) Hnew storing_run) as (id & r & Hid & Hr & _ & Hretry).
  exists id, r. split; [exact Hid|]. split; [exact Hr|]. exact (Hretry 77%N (answering 18) 0%nat eq_refl).
Defined.
